(* ===== verification/_CoqProject ===== *)
-Q . S2P
Prelude.v
Const.v
Packet.v
Frame.v
Redis.v
Store.v
Mysql.v
Messages.v
Ledger.v
History.v
Sync.v
Pools.v
Connections.v
Transport.v
Node.v
Services.v
Files.v
Reactor.v
Deadlines.v
Streams.v
Commands.v
Delivery.v
Registry.v
Social.v
Links.v
LinkLife.v
Forwarding.v
Routing.v
Outbox.v
Writes.v
Gateway.v
Identity.v
StateService.v
Topology.v
Security.v
Url.v
Startup.v
Processes.v
Gate.v
Accounts.v
Client.v
GateClient.v
Requests.v
Snapshot.v
Views.v
Sqlite.v
Repository.v
Ports.v
Scenarios.v
App.v
Application.v
AppSamples.v
Controls.v
Lockout.v
Journey.v
CatchUp.v
