(* ===== verification/Prelude.v ===== *)
(** * wimi: a verification development

    wimi ([src/]) is an instant messenger.  A user signs in over HTTP with the
    gate, which asks the state service for a connection gateway and leaves a
    short-lived token in Redis.  The client opens one TCP connection to that
    gateway and logs in with the token; the gateway takes a lease with a growing
    generation from Redis and puts it on every command; gateways keep one
    bidirectional gRPC stream to every message node the state service lists.  A
    message node executes a command only while the lease is current, stores texts
    in MySQL, answers on the stream the command came from, and sends deliveries to
    the gateway the recipient's lease names; that gateway checks the lease again
    and writes to the recipient's connection.  The client keeps its conversations
    in SQLite, sends what is unfinished again and follows the server's sequence
    numbers.  This library models that path, from what the user types to the
    tables of the server and back, and proves what makes it correct.

    ** Files, parts and sources

    Foundations.
    - [Prelude]: machine integers with wrap-around, an error monad with exceptions
      ([ST]: [ret], [bind], [throw], [catch]) for code that throws, a plain state
      monad ([State]: [pure], [seq_bind], [for_each]) for code that does not, with
      the rule [always] for invariants; notations in [wimi_scope]; tactics.
    - [Const] ([server/public/include/Const.h], the enums of [DbGlobal.h], the
      client's [ClientProtocol.h]); [Packet] (the generated packet class of
      [tcp_message.proto], [TcpMessageCodec.h]); [Transport] (the frames of
      [gateway_message.proto]); [Frame] (the TLV framing: [EncodeFrame] and the
      read loop of [GatewaySession.cc], the client's [TcpFrameCodec.cc]).

    Stores.
    - [Redis] ([server/public/include/Redis.h]): a map with expiry; one function
      per operation of [RedisDao], Lua scripts included.
    - [Store], [Mysql], [Messages] ([server/public/include/Mysql.h]): the tables,
      statements that may fail before or after acting, transactions; one function
      per operation of [MysqlDao].
    - [Ledger]: the specification of accepting a text as a function of the tables,
      the invariant of the tables, and the refinement by the transactions.
      [History], [Sync]: what follows for histories of operations and for readers.

    Message node.
    - [Pools]: the write queue of a stream, the thread pool
      ([server/public/src/ThreadPool.cc]), lending from a connection pool.
      [Connections] ([Mysql.h], [Redis.h], [RpcPool.h]): how the pools are filled,
      kept alive by their thread and closed.
    - [Node], [Services], [Reactor] ([server/message/src/service]): the state of a
      node; the handlers of [MessageService.cc], [Friend.cc], [Group.cc],
      [FileService.cc], [Service.cc]; the reactor of [GatewayStreamService.cc] and
      the node as a whole, [node_step], one step per callback or worker task.
    - [Files] ([server/file/src/service/Service.cc], [FileRpc.cc]): the file server
      and its workers on a file system, the calls of [Upload] read by read and
      write by write of the counter they share, and how a node calls it.
    - [Deadlines] ([RequestContext.h], the worker loop of [ThreadPool.cc],
      [ApplyDeadline]): request contexts and the thread-local scope they are found
      through.  [Security] ([GrpcSecurity.h]): the credentials a configuration
      leads to, and under whose name a node runs commands.  [Startup]
      ([ImActiver.h], [main.cc] of the node, [Configer.cc], [Metrics.cc]): starting
      and stopping a node, call by call.  [Processes]: the main functions of the
      gateway, the gate and the state service.
    - [Streams]: what any operation may send.  [Commands], [Delivery],
      [Registry], [Social]: the theorems about the node.

    Gateway.
    - [Links] ([server/gateway/src/MessageLink.cc]): links to the message nodes,
      pending commands, time-outs, retries, topology; [manager_step] interleaves
      the lock sections of all operations in progress.  [LinkLife]: how long a
      link object lives.  [Forwarding], [Routing]: the theorems.
    - [Outbox] (the writing half of [GatewaySession.cc]): queue, write loop,
      retransmission; [outbox_step] interleaves senders, strand handlers, timers
      and completions.  [Writes]: its theorems.
    - [Gateway] (the reading half of [GatewaySession.cc], [SessionRegistry.cc],
      the accept loop of [GatewayServer.cc]): login, lease refresh, rate limit,
      forwarding, delivery; [gateway_step] composes all sessions, the registry,
      the links, Redis and MySQL.  [Identity]: its theorems.

    State service and HTTP gate.
    - [StateService] ([server/state/src/service]): the configuration, placement of
      users on gateways, the topology of message nodes, the old IM servers.
      [Topology]: the gateway's maintenance loop ([FetchTopology] and a round of
      it in [MessageLink.cc]) joined with the state service.
    - [Url] (the query strings of [server/gate/src/service/HttpSession.cc]); [Gate]
      ([Service.cc], [VerificationService.cc], [StateClient.cc],
      [HttpSession::HandleRequest]): every handler on Redis, MySQL and the state
      service, one function per request.  [Accounts]: its theorems, over any
      history of requests.

    Client.
    - [Client] ([client/src/adapters/connection_gateway/ConnectionGatewayClient.cc]):
      the connection, its queues, timers and calls as events of a state machine;
      the application behind its signals is any function ([slots]).  [Requests]:
      its theorems.
    - [GateClient] ([client/src/adapters/gate/GateHttpClient.cc]): the requests to
      the gate, and the hand-over of a user from the gate to a gateway.
    - [Snapshot] ([ClientSnapshot.h], the records of the list models of
      [client/src/models]); [Views]: the roles and signals of these models, and what
      a view that follows them keeps.
    - [Sqlite] ([client/src/adapters/sqlite/SqliteClientRepository.cc]): the local
      tables with their constraints, every operation statement by statement,
      migrations.  [Repository]: its specification and theorems.
    - [Ports] ([client/src/ports/IClientRepository.h]): the interface of a
      repository, a class, with SQLite and the base class as instances.
      [Scenarios] ([FakeScenarioRepository.cc]): the demonstration snapshots, which
      also seed a new database.
    - [App] ([client/src/app/AppController.cc]): what the views call and the slots
      of both clients, over any repository.  [Application]: its theorems;
      [AppSamples]: runs of it on SQLite.  [Controls]: the rest of that file, what
      the command line and the settings choose, the address of the gate, the texts
      about requests, the properties views read.  [Lockout]: application and client
      after a login the gateway refuses.

    The whole.
    - [Journey]: a text from the view of one client through gateway and node to the
      view of the other, and the answer back; the class [SameWire] says that the
      packet classes of client and server encode alike.  [CatchUp]: the pulls of
      an application after a login, answered page by page by a message node until
      the client has what it missed.

    ** What is proved

    - The whole: a text typed by a user goes out in one frame; an accepted one is
      stored under its sender and recipient, shown by the sender as accepted, and
      delivered once along the peer's lease when that can be read; the peer shows
      and acknowledges it unless its repository refuses it ([text_travels]).  What
      a user missed is read page by page until all of it is shown, once and in
      order ([absence_is_caught_up]).
    - Storage: a text is stored atomically and exactly once under any faults and
      retries ([accept_exactly_once], [accept_direct_atomic],
      [accept_group_atomic]), the ledger stays well formed ([ledger_invariant]),
      reading page by page is complete ([sync_complete]), an acknowledgement
      changes just the cursors of its member and the state of its message
      ([acknowledge_effect]); uploads reach the workers and the files as long as
      overlapping calls stay inside the vector of workers ([uploads_written]).
    - Identity and fencing: commands leave the gateway under the identity of the
      login only ([forwarded_command_identity]); a superseded lease never comes
      back and its commands change nothing ([lease_fencing],
      [superseded_command_refused]); deliveries reach only the connection they
      were routed to ([deliver_fenced], [delivery_route]); under mutual TLS a
      command runs under the name of a certificate that connected
      ([commands_carry_certificate]), as long as streams that register again keep
      their names ([refused_registration_impersonates]).
    - Answers: a node answers each command once ([command_answered_once]), a
      gateway calls each callback once ([forwarded_answered_once]), a command is
      retried at most once, an accepted text is durable
      and offered once to each recipient ([accepted_text_durable]).
    - Transport: framing round trips both ways, queues keep order and bound
      ([session_write_order]), reliable frames are sent at most three times and
      not after an acknowledgement that finds their entry
      ([reliable_three_attempts], [acknowledged_and_sent_again]).
    - Resources: a pool stays within its bounds ([pool_within_bounds]); what a
      round of its thread keeps, renews and drops ([keep_alive_reference]); contexts found
      through the scope are those that would be passed down
      ([scopes_pass_contexts]), and what is left of a request only shrinks
      ([request_budget]); every outcome of starting a process
      ([activate_outcome], [gateway_ends], [gate_ends]).
    - Routing: link choice, conversation affinity, topology rounds
      ([topology_round]), placement ([gateway_placement]), draining.
    - Accounts: only a registration or a reset with the live code of the address
      changes an account ([account_change_authorised]); the table of users is well
      formed; a registered user can sign in; a sign-in ends in a failure or in a
      session every gateway accepts for the announced time ([sign_in_handover]); every outcome of asking
      for a code ([code_request], [verification_attempts_bounded]).
    - Client: every request is answered or failed exactly once
      ([requests_conserved]); the operations of the local repository are atomic
      ([repository_atomic]) and keep its tables well formed; what is queued is
      read back, a seeded database too ([queued_is_read_back],
      [seeded_is_read_back]); a wire id names one text as long as no
      other scenario is loaded ([wire_ids_name_texts], [scenario_reuses_wire_id]),
      and what is sent again after a login, and where to ([pending_sent_again]); views show what the models hold
      ([message_view_shows] and its like in [Views]); the address of the gate is
      saved in a form that is accepted again ([gate_address_roundtrip]).
    - Behaviours of the code that differ from what it means to do, each proved of
      the model, among them [group_text_misdirected], [late_response_misattributed],
      [next_page_sent_twice], [reconnection_gives_up], [synced_message_never_accepted],
      [accepted_message_hides_older], [failed_id_locks_name],
      [reregistration_dangles], [refused_login_locks_out],
      [redis_outage_is_permanent], [teardown_ends_or_deadlocks],
      [link_destroyed_early], [prepend_misleads], [Identity.Login.concurrent_logins_lose_both],
      [Writes.Quit.quit_response_lost] and the runs of [AppSamples].

    ** Modelling choices

    - Concurrency: state behind a mutex, on a strand or in an atomic is changed in
      whole sections; a run is any sequence of sections.  Some operations with
      several sections are one step all the same: [DeliverToUser] (Redis does not
      change between its two reads, so the branch of a refreshed lease is never
      taken), the [SendRaw] of the retransmission timer ([on_timer]),
      [StopManager], [ApplyTopology] and the end of links in [watch_links], the
      handling of an HTTP request and of a task, a turn of a worker of the file
      server; the counters of the state service are taken as sequential.  The client is one thread:
      an event runs to its end, signals included.  What a part finds outside
      (completions, clocks, failures) comes with the events, or from a schedule
      indexed by the number of the call ([Env], [Faults], [Outside],
      [SqliteFaults], [SqliteClock]); theorems quantify over all of them.
      Uniqueness of what is random is assumed only where a statement says so
      (a client's request ids are distinct, [Uuid]).
    - Failures: every statement, every commit and every Redis call may fail before
      or after it takes effect.
    - Parameters: the packet encodings ([PacketCodec] of the server, [QtCodec] of
      the client, each with its round trip), the string order of MySQL
      ([Collation]), [std::hash] ([StdHash]), the order in which a hash table is
      visited ([IterationOrder], [QHashOrder], [QStringHashOrder], permutations)
      and rows without an ORDER BY are ([RowOrder]), jsoncpp ([JsonText]), YAML
      ([YamlCpp]), Qt's JSON, URLs and text functions ([QtJson], [QtNetwork],
      [QtText], with what Qt documents of them), random numbers ([Random]), the
      file server's answer ([Env]), the gateway's names ([GatewayIdentity]).  Each
      has a concrete instance in the witnesses.
    - Not checked: the lengths of VARCHAR and TEXT columns (a row too long is one of
      the failures of its statement); that integers of a packet fit their field and
      that its strings are UTF-8 (the round trip of the encodings is assumed of
      every value); the doubles through which Lua compares generations (exact
      decimals here, alike below 10^14); [App.ask] takes a request of a ready client
      to be queued, although a packet that cannot be serialised is not; a response
      of the gate is written whole although its deadline may clear it meanwhile.
    - Strings are bytes: a [QString] is the bytes of its UTF-8, and a null one
      differs from an empty one ([text]) where SQLite sees the difference.
    - Fuel: [Run_loop] and [Feed_loop] take the length of the input, and every
      round consumes a header, so it is enough ([server_to_client_stream],
      [client_to_server_stream]); [generateId] takes the list of its attempts, and
      [generateId_terminates] gives lists that are enough; [run_thread] and
      [run_sender] take 4, the longest path of sections; [query_loop] takes the
      length of the query; [read_on] takes the number of answers, and one more
      than there are messages to read is enough ([absence_is_caught_up]).
    - Ghost fields record histories the statements speak of (what was accepted,
      sent, written, granted); no operation depends on them, except that
      [Gateway.use_links] finds in [called] which callbacks an operation ran.

    ** Not modelled

    The QML views themselves, the texts accompanying the signals of the gateway
    client, the desktop services; calendar dates and the lengths of strings in
    UTF-16 ([Qt] of [Views] is a parameter); symbolic links on the file server;
    gRPC, SQLite, Redis and MySQL beyond what their documentation says of the
    calls made; the main functions of the file server and of the client, the
    threads of [IocPool], logging and generated code, which keep no state the
    parts above depend on.  Deadlines so far ahead that they overflow the clock
    are excluded by a hypothesis where it matters. *)

From stdpp Require Export base gmap strings list pretty numbers sorting fin_maps.
From Stdlib Require Export ZArith Lia Ascii.
From Stdlib Require String.

#[global] Open Scope Z_scope.

(** ** Machine integers

    C++ integers are kept as [Z]; a conversion to a narrower or unsigned type
    is written with one of these. *)

(** Unsigned [w]-bit truncation. *)
Definition wrapU (w : Z) (z : Z) : Z := z mod 2 ^ w.

(** Two's complement [w]-bit truncation. *)
Definition wrapS (w : Z) (z : Z) : Z :=
  (z + 2 ^ (w - 1)) mod 2 ^ w - 2 ^ (w - 1).

Definition int64 (z : Z) : Z := wrapS 64 z.
Definition int32 (z : Z) : Z := wrapS 32 z.
Definition uint32 (z : Z) : Z := wrapU 32 z.
Definition uint16 (z : Z) : Z := wrapU 16 z.
Definition uint64 (z : Z) : Z := wrapU 64 z.

Lemma wrapU_range w z : 0 <= w -> 0 <= wrapU w z < 2 ^ w.
Proof. intros. apply Z.mod_pos_bound. lia. Qed.

Lemma wrapU_small w z : 0 <= z < 2 ^ w -> wrapU w z = z.
Proof. intros. by apply Z.mod_small. Qed.

Lemma wrapS_range w z :
  0 < w -> - 2 ^ (w - 1) <= wrapS w z < 2 ^ (w - 1).
Proof.
  intros Hw. unfold wrapS.
  assert (2 ^ w = 2 * 2 ^ (w - 1)) as Hp.
  { rewrite <- Z.pow_succ_r by lia. f_equal. lia. }
  pose proof (Z.mod_pos_bound (z + 2 ^ (w - 1)) (2 ^ w)).
  assert (0 < 2 ^ w) by lia. lia.
Qed.

Lemma wrapS_small w z :
  0 < w -> - 2 ^ (w - 1) <= z < 2 ^ (w - 1) -> wrapS w z = z.
Proof.
  intros Hw Hz. unfold wrapS.
  assert (2 ^ w = 2 * 2 ^ (w - 1)) as Hp.
  { rewrite <- Z.pow_succ_r by lia. f_equal. lia. }
  rewrite Z.mod_small by lia. lia.
Qed.

Create HintDb ints.
#[export] Hint Resolve wrapU_small wrapS_small : ints.

(** [std::to_string] of an integer. *)
Abbreviation to_string := (pretty (A := Z)).

(** [s.empty()]. *)
Definition str_empty (s : string) : bool := bool_decide (s = "").

Lemma str_empty_true s : str_empty s = true <-> s = "".
Proof. apply bool_decide_eq_true. Qed.

Lemma str_empty_false s : str_empty s = false <-> s <> "".
Proof. apply bool_decide_eq_false. Qed.

(** ** Faults of an external call

    A call to Redis or to MySQL either succeeds, fails before the server has
    acted (no connection, refused statement), or fails after the server has
    acted but before the reply was read (a socket time-out). *)
Inductive fault := FNone | FBefore | FAfter.

#[export] Instance fault_eq_dec : EqDecision fault.
Proof. solve_decision. Defined.

(** ** A state monad with exceptions *)

Inductive outcome (A : Type) :=
  | Ok (a : A)
  | Throw (what : string).
Arguments Ok {A} a.
Arguments Throw {A} what.

Definition ST (S A : Type) : Type := S -> outcome A * S.

Section Monad.
Context {S : Type}.

Definition ret {A} (a : A) : ST S A := fun s => (Ok a, s).

Definition throw {A} (w : string) : ST S A := fun s => (Throw w, s).

Definition bind {A B} (m : ST S A) (k : A -> ST S B) : ST S B :=
  fun s => match m s with
           | (Ok a, s') => k a s'
           | (Throw w, s') => (Throw w, s')
           end.

(** [try { m } catch (e) { h(e.what()) }] *)
Definition catch {A} (m : ST S A) (h : string -> ST S A) : ST S A :=
  fun s => match m s with
           | (Ok a, s') => (Ok a, s')
           | (Throw w, s') => h w s'
           end.

Definition get : ST S S := fun s => (Ok s, s).
Definition modify (f : S -> S) : ST S unit := fun s => (Ok tt, f s).

(** A Hoare triple with a postcondition for each way to leave. *)
Definition triple {A} (P : S -> Prop) (m : ST S A)
    (Q : A -> S -> Prop) (E : S -> Prop) : Prop :=
  forall s, P s -> match m s with
                   | (Ok a, s') => Q a s'
                   | (Throw _, s') => E s'
                   end.

Lemma triple_ret {A} (a : A) (P : S -> Prop) (Q : A -> S -> Prop) E :
  (forall s, P s -> Q a s) -> triple P (ret a) Q E.
Proof. intros H s HP. simpl. auto. Qed.

Lemma triple_bind {A B} P (m : ST S A) (k : A -> ST S B) R Q E :
  triple P m R E -> (forall a, triple (R a) (k a) Q E) ->
  triple P (bind m k) Q E.
Proof.
  intros Hm Hk s HP. unfold bind. specialize (Hm s HP).
  destruct (m s) as [[a|w] s']; [|done]. exact (Hk a s' Hm).
Qed.

Lemma triple_catch {A} P (m : ST S A) h Q E F :
  triple P m Q F -> (forall w, triple F (h w) Q E) ->
  triple P (catch m h) Q E.
Proof.
  intros Hm Hh s HP. unfold catch. specialize (Hm s HP).
  destruct (m s) as [[a|w] s']; [done|]. exact (Hh w s' Hm).
Qed.

Lemma triple_pre {A} (P P' : S -> Prop) (m : ST S A) Q E :
  triple P' m Q E -> (forall s, P s -> P' s) -> triple P m Q E.
Proof. intros H HP s Hs. exact (H s (HP s Hs)). Qed.

Lemma triple_post {A} P (m : ST S A) (Q Q' : A -> S -> Prop) (E E' : S -> Prop) :
  triple P m Q' E' -> (forall a s, Q' a s -> Q a s) ->
  (forall s, E' s -> E s) -> triple P m Q E.
Proof.
  intros H HQ HE s Hs. specialize (H s Hs).
  destruct (m s) as [[a|w] s']; auto.
Qed.
End Monad.

(** [defaultForType], shared by the two data access objects: what a failed
    call returns. *)
Class DefaultForType (A : Type) := defaultForType : A.
#[export] Instance default_bool : DefaultForType bool := false.
#[export] Instance default_Z : DefaultForType Z := -1.
#[export] Instance default_string : DefaultForType string := "".
#[export] Instance default_option A : DefaultForType (option A) := None.
#[export] Instance default_list A : DefaultForType (list A) := [].

Declare Scope wimi_scope.
Delimit Scope wimi_scope with wimi.
#[global] Open Scope wimi_scope.

Notation "'let*' x := m 'in' k" := (bind m (fun x => k))
  (at level 200, x binder, m at level 200, k at level 200, right associativity,
   format "'let*'  x  :=  m  'in' '//' k") : wimi_scope.
Notation "'do*' m 'in' k" := (bind m (fun _ => k))
  (at level 200, m at level 200, k at level 200, right associativity,
   format "'do*'  m  'in' '//' k") : wimi_scope.

(** ** A state monad

    For code that reports errors in its results and throws nothing. *)

Definition State (S A : Type) : Type := S -> A * S.

Section StateMonad.
Context {S : Type}.

Definition pure {A} (a : A) : State S A := fun s => (a, s).
Definition seq_bind {A B} (m : State S A) (k : A -> State S B) : State S B :=
  fun s => let '(a, s') := m s in k a s'.
Definition reads {A} (f : S -> A) : State S A := fun s => (f s, s).
Definition writes (f : S -> S) : State S unit := fun s => (tt, f s).

(** [for (x : l) f(x);] *)
Fixpoint for_each {A} (l : list A) (f : A -> State S unit) : State S unit :=
  match l with
  | [] => pure tt
  | x :: l => seq_bind (f x) (fun _ => for_each l f)
  end.

(** [m] preserves [P], whatever it returns. *)
Definition always (P : S -> Prop) {A} (m : State S A) : Prop :=
  forall s, P s -> P (m s).2.

Lemma always_pure P {A} (a : A) : always P (pure a).
Proof. by intros s. Qed.
Lemma always_reads P {A} (f : S -> A) : always P (reads f).
Proof. by intros s. Qed.
Lemma always_writes (P : S -> Prop) f : (forall s, P s -> P (f s)) -> always P (writes f).
Proof. intros Hf s. apply Hf. Qed.
Lemma always_bind P {A B} (m : State S A) (k : A -> State S B) :
  always P m -> (forall a, always P (k a)) -> always P (seq_bind m k).
Proof.
  intros Hm Hk s Hs. unfold seq_bind. specialize (Hm s Hs).
  destruct (m s) as [a s']. by apply Hk.
Qed.
Lemma always_for_each P {A} (l : list A) f :
  (forall x, x ∈ l -> always P (f x)) -> always P (for_each l f).
Proof.
  induction l as [|x l IH]; intros Hf; simpl; [apply always_pure|].
  apply always_bind; [apply Hf; left|]. intros _. apply IH. intros y Hy. apply Hf. by right.
Qed.
End StateMonad.

Notation "'let!' x := m 'in' k" := (seq_bind m (fun x => k))
  (at level 200, x binder, m at level 200, k at level 200, right associativity,
   format "'let!'  x  :=  m  'in' '//' k") : wimi_scope.
Notation "'do!' m 'in' k" := (seq_bind m (fun _ => k))
  (at level 200, m at level 200, k at level 200, right associativity,
   format "'do!'  m  'in' '//' k") : wimi_scope.

(** A chain of setters, in the order the code calls them. *)
Notation "x |> f" := (f x)
  (at level 50, left associativity, only parsing) : wimi_scope.

Create HintDb always.
#[export] Hint Resolve always_pure always_reads always_bind always_for_each : always.

(** ** Reachability *)

Section Reach.
Context {A : Type} (step : A -> A -> Prop).

Lemma rtc_invariant (P : A -> Prop) :
  (forall a b, P a -> step a b -> P b) ->
  forall a b, rtc step a b -> P a -> P b.
Proof. intros Hs a b Hr. induction Hr; eauto. Qed.
End Reach.

(** ** Tactics *)

(** Decide every [if]/[match] on a boolean test or a [decide] of the goal and
    the hypotheses, and discharge contradictions. *)
Ltac break_match :=
  match goal with
  | |- context [match ?x with _ => _ end] => destruct x eqn:?
  end.

Ltac break_match_in H :=
  match type of H with
  | context [match ?x with _ => _ end] => destruct x eqn:?
  end.

(** Boolean connectives to propositions, then [lia]-ready facts. *)
Ltac boolp :=
  repeat match goal with
  | H : bool_decide _ = true |- _ => apply bool_decide_eq_true in H
  | H : bool_decide _ = false |- _ => apply bool_decide_eq_false in H
  | H : str_empty _ = true |- _ => apply str_empty_true in H
  | H : str_empty _ = false |- _ => apply str_empty_false in H
  | H : negb _ = true |- _ => apply negb_true_iff in H
  | H : negb _ = false |- _ => apply negb_false_iff in H
  | H : _ && _ = true |- _ => apply andb_true_iff in H as [? ?]
  | H : _ || _ = false |- _ => apply orb_false_iff in H as [? ?]
  | H : (_ <? _) = true |- _ => apply Z.ltb_lt in H
  | H : (_ <? _) = false |- _ => apply Z.ltb_ge in H
  | H : (_ <=? _) = true |- _ => apply Z.leb_le in H
  | H : (_ <=? _) = false |- _ => apply Z.leb_gt in H
  | H : (_ =? _) = true |- _ => apply Z.eqb_eq in H
  | H : (_ =? _) = false |- _ => apply Z.eqb_neq in H
  end.

(** ** Generic lemmas *)

(** Rows of a table (a finite map) satisfying a boolean condition, and the
    first of them: the shape of a [SELECT ... WHERE] and of [fetchOne]. *)
Definition rows_where {K A} `{Countable K} (P : K -> A -> bool) (m : gmap K A)
  : list (K * A) :=
  List.filter (fun kv => P kv.1 kv.2) (map_to_list m).

Definition first_row {K A} `{Countable K} (P : K -> A -> bool) (m : gmap K A)
  : option (K * A) :=
  head (rows_where P m).

Lemma elem_of_rows_where {K A} `{Countable K} (P : K -> A -> bool)
    (m : gmap K A) k a :
  (k, a) ∈ rows_where P m <-> m !! k = Some a /\ P k a = true.
Proof.
  unfold rows_where.
  rewrite list_elem_of_In, List.filter_In, <- list_elem_of_In, elem_of_map_to_list.
  done.
Qed.

Lemma NoDup_rows_where {K A} `{Countable K} (P : K -> A -> bool) (m : gmap K A) :
  NoDup (rows_where P m).
Proof. apply NoDup_ListNoDup, List.NoDup_filter, NoDup_ListNoDup, NoDup_map_to_list. Qed.

Lemma first_row_Some {K A} `{Countable K} (P : K -> A -> bool) (m : gmap K A) k a :
  first_row P m = Some (k, a) -> m !! k = Some a /\ P k a = true.
Proof.
  unfold first_row. intros Hh. apply elem_of_rows_where.
  destruct (rows_where P m); simplify_eq/=. left.
Qed.

Lemma first_row_None {K A} `{Countable K} (P : K -> A -> bool) (m : gmap K A) :
  first_row P m = None <-> (forall k a, m !! k = Some a -> P k a = false).
Proof.
  unfold first_row. split.
  - intros Hh k a Hk. destruct (P k a) eqn:HP; [|done]. exfalso.
    assert ((k, a) ∈ rows_where P m) as Hin by by apply elem_of_rows_where.
    destruct (rows_where P m); [by apply not_elem_of_nil in Hin | done].
  - intros Hall. destruct (rows_where P m) as [|[k a] l] eqn:E; [done|]. exfalso.
    assert ((k, a) ∈ rows_where P m) as Hin by (rewrite E; left).
    apply elem_of_rows_where in Hin as [Hk HP]. rewrite (Hall k a Hk) in HP. done.
Qed.

(** When at most one row matches, [first_row] finds it. *)
Lemma first_row_unique {K A} `{Countable K} (P : K -> A -> bool) (m : gmap K A) k a :
  m !! k = Some a -> P k a = true ->
  (forall k' a', m !! k' = Some a' -> P k' a' = true -> k' = k) ->
  first_row P m = Some (k, a).
Proof.
  intros Hk HP Hu. destruct (first_row P m) as [[k' a']|] eqn:E.
  - apply first_row_Some in E as [Hk' HP'].
    assert (k' = k) as -> by eauto. by simplify_eq.
  - rewrite first_row_None in E. rewrite (E k a Hk) in HP. done.
Qed.

(** Strings: the right cancellation that stdpp's [String.app_inj] leaves out. *)
Lemma str_length_app (s t : string) :
  String.length (s +:+ t) = (String.length s + String.length t)%nat.
Proof. induction s as [|a s IHs]; [done|]. cbn. by rewrite <- IHs. Qed.

Lemma string_app_inj_r (s1 s2 t : string) : s1 +:+ t = s2 +:+ t -> s1 = s2.
Proof.
  revert s2. induction s1 as [|a s1 IH]; intros [|b s2] Heq.
  - done.
  - pose proof (f_equal String.length Heq) as Hl. rewrite !str_length_app in Hl.
    cbn [String.length] in Hl. lia.
  - pose proof (f_equal String.length Heq) as Hl. rewrite !str_length_app in Hl.
    cbn [String.length] in Hl. lia.
  - cbn in Heq. injection Heq as -> Heq. by rewrite (IH s2).
Qed.

(** When exactly one row matches, it is the whole result. *)
Lemma rows_where_unique {K A} `{Countable K} (P : K -> A -> bool) (m : gmap K A) k a :
  m !! k = Some a -> P k a = true ->
  (forall k' a', m !! k' = Some a' -> P k' a' = true -> k' = k) ->
  rows_where P m = [(k, a)].
Proof.
  intros Hk HP Hu. pose proof (NoDup_rows_where P m) as Hnd.
  assert (forall x, x ∈ rows_where P m -> x = (k, a)) as Hall.
  { intros [k' a'] Hin. apply elem_of_rows_where in Hin as [Hk' HP'].
    assert (k' = k) as -> by eauto. congruence. }
  assert ((k, a) ∈ rows_where P m) as Hin by by apply elem_of_rows_where.
  destruct (rows_where P m) as [|x [|y l]].
  - by apply not_elem_of_nil in Hin.
  - f_equal. apply Hall. left.
  - exfalso. apply NoDup_cons in Hnd as [Hx _]. apply Hx.
    rewrite (Hall x) by left. rewrite (Hall y) by (right; left). left.
Qed.

Lemma take_seqZ a k n : take n (seqZ a k) = seqZ a (Z.min (Z.of_nat n) k).
Proof.
  destruct (Z.le_gt_cases k (Z.of_nat n)) as [Hle|Hgt].
  - rewrite Z.min_r by done. apply take_ge. rewrite length_seqZ. lia.
  - rewrite Z.min_l by lia. replace k with (Z.of_nat n + (k - Z.of_nat n)) by lia.
    rewrite seqZ_app by lia. apply take_app_length'. rewrite length_seqZ. lia.
Qed.

Lemma last_seqZ a k : 0 < k -> last (seqZ a k) = Some (a + k - 1).
Proof.
  intros Hk. rewrite last_lookup, length_seqZ. apply lookup_seqZ. lia.
Qed.

(** A list is known by its elements and by a key of each that is its own. *)
Lemma fmap_decides {A B} (f : A -> B) (l1 l2 : list A) : NoDup (f <$> l1) -> l1 ≡ₚ l2 -> f <$> l1 = f <$> l2 -> l1 = l2.
Proof.
  intros Hn Hp Heq. apply list_eq. intros i.
  pose proof (f_equal (fun l => l !! i) Heq) as Ei. cbv beta in Ei. rewrite !list_lookup_fmap in Ei.
  destruct (l1 !! i) as [x|] eqn:E1, (l2 !! i) as [y|] eqn:E2; [|done..]. injection Ei as Ei.
  assert (y ∈ l1) as [j Ej]%list_elem_of_lookup by (rewrite Hp; by eapply list_elem_of_lookup_2).
  assert (i = j) as <- by (apply (NoDup_lookup _ i j (f x) Hn); rewrite list_lookup_fmap, ?E1, ?Ej; simpl; congruence).
  congruence.
Qed.

(** ** Characters of a string *)

Fixpoint str_forall (P : ascii -> bool) (s : string) : bool :=
  match s with "" => true | String c s => P c && str_forall P s end.

(** A decimal number is made of digits and of a sign. *)
Lemma pretty_forall P z :
  str_forall P "-0123456789" = true -> str_forall P (to_string z) = true.
Proof.
  intros HP. assert (forall n s, str_forall P s = true -> str_forall P (pretty_N_go n s) = true) as Hgo.
  { intros n. induction (N.lt_wf_0 n) as [n _ IH]; intros s Hs.
    destruct (decide (n = 0%N)) as [->|Hn]; [by rewrite pretty_N_go_0|].
    rewrite pretty_N_go_step by lia. apply IH; [by apply N.div_lt; lia|].
    assert (n `mod` 10 < 10)%N as Hlt by (by apply N.mod_lt). revert Hlt. generalize (n `mod` 10)%N. intros d Hlt.
    assert (d = 0 \/ d = 1 \/ d = 2 \/ d = 3 \/ d = 4 \/ d = 5 \/ d = 6 \/ d = 7 \/ d = 8 \/ d = 9)%N as Hd by lia.
    cbn [str_forall] in *. rewrite Hs, andb_true_r. repeat (apply andb_true_iff in HP as [? HP]).
    destruct_or! Hd; subst d; cbn [pretty_N_char]; assumption. }
  pose proof HP as HP'. cbn [str_forall] in HP'. repeat (apply andb_true_iff in HP' as [? HP']).
  destruct z as [|p|p]; [cbn; by rewrite andb_true_r| |].
  - change (to_string (Z.pos p)) with (pretty_N_go (N.pos p) ""). by apply Hgo.
  - change (to_string (Z.neg p)) with (String "-" (pretty_N_go (N.pos p) "")). cbn [str_forall].
    apply andb_true_iff. split; [done|by apply Hgo].
Qed.

(** ** Threads

    A system of threads takes one step of one of them at a time; a step that is
    not possible yet is [None]. *)
Section Threads.
Context {W S : Type} (step : W -> S -> option S).

Definition moves (s s' : S) : Prop := exists w, step w s = Some s'.

Definition stuck (s : S) : Prop := forall w, step w s = None.

Fixpoint schedule (ws : list W) (s : S) : option S :=
  match ws with [] => Some s | w :: ws => s' ← step w s; schedule ws s' end.

Lemma schedule_moves ws s s' : schedule ws s = Some s' -> rtc moves s s'.
Proof.
  revert s. induction ws as [|w ws IH]; intros s E; simpl in E; [by simplify_eq|].
  destruct (step w s) as [t|] eqn:Et; [|done]. simpl in E. eapply rtc_l; [by exists w|by apply IH].
Qed.

Lemma moves_invariant (P : S -> Prop) s s' :
  (forall w t t', P t -> step w t = Some t' -> P t') -> P s -> rtc moves s s' -> P s'.
Proof. intros Hp Hs Hr. induction Hr as [|? ? ? [w E] _ IH]; [done|]. apply IH. by eapply Hp. Qed.
End Threads.
