(* ===== verification/Const.v ===== *)
(** * Protocol constants

    [src/server/public/include/Const.h] (error codes, service ids, retry
    contract), the enumerations of [DbGlobal.h], and the client's copy of the
    same constants in [ClientProtocol.h]. *)

From S2P Require Import Prelude.

(** ** Error codes *)

Inductive ErrorCodes :=
  | Success | JsonParser | RPCFailed | VerificationExpired
  | VerificationCodeInvalid | UserExist | PasswdErr | EmailNotMatch
  | PasswdUpFailed | PasswdInvalid | TokenInvalid | UidInvalid | UserNotOnline
  | UserNotFriend | UserOnline | UserOffline | NotFound | RepeatMessage
  | MysqlFailed | FileTypeError | InternalError | GroupAlreadyExists
  | GroupNotExists | GroupNotifyFailed | GroupReplyFailed
  | AuthenticationRequired | MessageOwnershipInvalid | DeadlineExceeded
  | ResourceExhausted | DependencyUnavailable | IdempotencyConflict.

#[export] Instance ErrorCodes_eq_dec : EqDecision ErrorCodes.
Proof. solve_decision. Defined.

(** The numeric values: [Success = 0], [JsonParser = 1000], then consecutive. *)
Definition ec (e : ErrorCodes) : Z :=
  match e with
  | Success => 0 | JsonParser => 1000 | RPCFailed => 1001
  | VerificationExpired => 1002 | VerificationCodeInvalid => 1003
  | UserExist => 1004 | PasswdErr => 1005 | EmailNotMatch => 1006
  | PasswdUpFailed => 1007 | PasswdInvalid => 1008 | TokenInvalid => 1009
  | UidInvalid => 1010 | UserNotOnline => 1011 | UserNotFriend => 1012
  | UserOnline => 1013 | UserOffline => 1014 | NotFound => 1015
  | RepeatMessage => 1016 | MysqlFailed => 1017 | FileTypeError => 1018
  | InternalError => 1019 | GroupAlreadyExists => 1020
  | GroupNotExists => 1021 | GroupNotifyFailed => 1022
  | GroupReplyFailed => 1023 | AuthenticationRequired => 1024
  | MessageOwnershipInvalid => 1025 | DeadlineExceeded => 1026
  | ResourceExhausted => 1027 | DependencyUnavailable => 1028
  | IdempotencyConflict => 1029
  end.
Coercion ec : ErrorCodes >-> Z.

(** [errorCodesMap]: the entries of the table, in the order of the source. *)
Definition errorCodesMap : gmap Z string := list_to_map [
  (ec Success, "Success"); (ec JsonParser, "JsonParser");
  (ec RPCFailed, "RPCFailed"); (ec VerificationExpired, "VerificationExpired");
  (ec VerificationCodeInvalid, "VerificationCodeInvalid");
  (ec UserExist, "UserExist"); (ec PasswdErr, "PasswdErr");
  (ec EmailNotMatch, "EmailNotMatch"); (ec PasswdUpFailed, "PasswdUpFailed");
  (ec PasswdInvalid, "PasswdInvalid"); (ec TokenInvalid, "TokenInvalid");
  (ec UidInvalid, "UidInvalid"); (ec UserNotOnline, "UserNotOnline");
  (ec UserNotFriend, "UserNotFriend"); (ec UserOnline, "UserOnline");
  (ec UserOffline, "UserOffline"); (ec NotFound, "NotFound");
  (ec RepeatMessage, "RepeatMessage"); (ec MysqlFailed, "MysqlFailed");
  (ec FileTypeError, "FileTypeError"); (ec InternalError, "InternalError");
  (ec GroupAlreadyExists, "GroupAlreadyExists");
  (ec GroupNotExists, "GroupNotExists");
  (ec AuthenticationRequired, "AuthenticationRequired");
  (ec MessageOwnershipInvalid, "MessageOwnershipInvalid");
  (ec DeadlineExceeded, "DeadlineExceeded");
  (ec ResourceExhausted, "ResourceExhausted");
  (ec DependencyUnavailable, "DependencyUnavailable");
  (ec IdempotencyConflict, "IdempotencyConflict")].

Definition getErrorCodeMsg (code : Z) : string :=
  match errorCodesMap !! code with
  | Some m => m
  | None => ""
  end.

Definition isRetryableError (code : Z) : bool :=
  if decide (code = RPCFailed) then true
  else if decide (code = MysqlFailed) then true
  else if decide (code = InternalError) then true
  else if decide (code = DeadlineExceeded) then true
  else if decide (code = ResourceExhausted) then true
  else if decide (code = DependencyUnavailable) then true
  else false.

(** ** Service ids *)

Inductive ServiceID :=
  | ID_PULL_FRIEND_LIST_REQ | ID_PULL_FRIEND_LIST_RSP
  | ID_PULL_FRIEND_APPLY_LIST_REQ | ID_PULL_FRIEND_APPLY_LIST_RSP
  | ID_PULL_SESSION_MESSAGE_LIST_REQ | ID_PULL_SESSION_MESSAGE_LIST_RSP
  | ID_PULL_MESSAGE_LIST_REQ | ID_PULL_MESSAGE_LIST_RSP
  | ID_GROUP_PULL_MEMBER_REQ | ID_GROUP_PULL_MEMBER_RSP
  | ID_PING_REQ | ID_PING_RSP
  | ID_LOGIN_INIT_REQ | ID_LOGIN_INIT_RSP
  | ID_USER_QUIT_REQ | ID_USER_QUIT_RSP
  | ID_INIT_USER_INFO_REQ | ID_INIT_USER_INFO_RSP
  | ID_SEARCH_USER_REQ | ID_SEARCH_USER_RSP
  | ID_NOTIFY_ADD_FRIEND_REQ | ID_NOTIFY_ADD_FRIEND_RSP
  | ID_REPLY_ADD_FRIEND_REQ | ID_REPLY_ADD_FRIEND_RSP
  | ID_REMOVE_FRIEND_REQ | ID_REMOVE_FRIEND_RSP
  | ID_TEXT_SEND_REQ | ID_TEXT_SEND_RSP
  | ID_FILE_SEND_REQ | ID_FILE_SEND_RSP
  | ID_FILE_UPLOAD_REQ | ID_FILE_UPLOAD_RSP
  | ID_ACK | ID_NULL
  | ID_GROUP_CREATE_REQ | ID_GROUP_CREATE_RSP
  | ID_GROUP_NOTIFY_JOIN_REQ | ID_GROUP_NOTIFY_JOIN_RSP
  | ID_GROUP_REPLY_JOIN_REQ | ID_GROUP_REPLY_JOIN_RSP
  | ID_GROUP_QUIT_REQ | ID_GROUP_QUIT_RSP
  | ID_GROUP_TEXT_SEND_REQ | ID_GROUP_TEXT_SEND_RSP.

#[export] Instance ServiceID_eq_dec : EqDecision ServiceID.
Proof. solve_decision. Defined.

(** Consecutive values from [ID_PULL_FRIEND_LIST_REQ = 1001]. *)
Definition sid (i : ServiceID) : Z :=
  match i with
  | ID_PULL_FRIEND_LIST_REQ => 1001 | ID_PULL_FRIEND_LIST_RSP => 1002
  | ID_PULL_FRIEND_APPLY_LIST_REQ => 1003 | ID_PULL_FRIEND_APPLY_LIST_RSP => 1004
  | ID_PULL_SESSION_MESSAGE_LIST_REQ => 1005
  | ID_PULL_SESSION_MESSAGE_LIST_RSP => 1006
  | ID_PULL_MESSAGE_LIST_REQ => 1007 | ID_PULL_MESSAGE_LIST_RSP => 1008
  | ID_GROUP_PULL_MEMBER_REQ => 1009 | ID_GROUP_PULL_MEMBER_RSP => 1010
  | ID_PING_REQ => 1011 | ID_PING_RSP => 1012
  | ID_LOGIN_INIT_REQ => 1013 | ID_LOGIN_INIT_RSP => 1014
  | ID_USER_QUIT_REQ => 1015 | ID_USER_QUIT_RSP => 1016
  | ID_INIT_USER_INFO_REQ => 1017 | ID_INIT_USER_INFO_RSP => 1018
  | ID_SEARCH_USER_REQ => 1019 | ID_SEARCH_USER_RSP => 1020
  | ID_NOTIFY_ADD_FRIEND_REQ => 1021 | ID_NOTIFY_ADD_FRIEND_RSP => 1022
  | ID_REPLY_ADD_FRIEND_REQ => 1023 | ID_REPLY_ADD_FRIEND_RSP => 1024
  | ID_REMOVE_FRIEND_REQ => 1025 | ID_REMOVE_FRIEND_RSP => 1026
  | ID_TEXT_SEND_REQ => 1027 | ID_TEXT_SEND_RSP => 1028
  | ID_FILE_SEND_REQ => 1029 | ID_FILE_SEND_RSP => 1030
  | ID_FILE_UPLOAD_REQ => 1031 | ID_FILE_UPLOAD_RSP => 1032
  | ID_ACK => 1033 | ID_NULL => 1034
  | ID_GROUP_CREATE_REQ => 1035 | ID_GROUP_CREATE_RSP => 1036
  | ID_GROUP_NOTIFY_JOIN_REQ => 1037 | ID_GROUP_NOTIFY_JOIN_RSP => 1038
  | ID_GROUP_REPLY_JOIN_REQ => 1039 | ID_GROUP_REPLY_JOIN_RSP => 1040
  | ID_GROUP_QUIT_REQ => 1041 | ID_GROUP_QUIT_RSP => 1042
  | ID_GROUP_TEXT_SEND_REQ => 1043 | ID_GROUP_TEXT_SEND_RSP => 1044
  end.
Coercion sid : ServiceID >-> Z.

(** [serviceIDMap], entry by entry. *)
Definition serviceIDMap : gmap Z string := list_to_map [
  (sid ID_PULL_FRIEND_LIST_REQ, "ID_PULL_FRIEND_LIST_REQ");
  (sid ID_PULL_FRIEND_LIST_RSP, "ID_PULL_FRIEND_LIST_RSP");
  (sid ID_PULL_FRIEND_APPLY_LIST_REQ, "ID_PULL_FRIEND_APPLY_LIST_REQ");
  (sid ID_PULL_FRIEND_APPLY_LIST_RSP, "ID_PULL_FRIEND_APPLY_LIST_RSP");
  (sid ID_PULL_SESSION_MESSAGE_LIST_REQ, "ID_PULL_SESSION_MESSAGE_LIST_REQ");
  (sid ID_PULL_SESSION_MESSAGE_LIST_RSP, "ID_PULL_SESSION_MESSAGE_LIST_RSP");
  (sid ID_PULL_MESSAGE_LIST_REQ, "ID_PULL_MESSAGE_LIST_REQ");
  (sid ID_PULL_MESSAGE_LIST_RSP, "ID_PULL_MESSAGE_LIST_RSP");
  (sid ID_GROUP_PULL_MEMBER_REQ, "ID_GROUP_PULL_MEMBER_REQ");
  (sid ID_GROUP_PULL_MEMBER_RSP, "ID_GROUP_PULL_MEMBER_RSP");
  (sid ID_PING_REQ, "ID_PING_REQ"); (sid ID_PING_RSP, "ID_PING_RSP");
  (sid ID_LOGIN_INIT_REQ, "ID_LOGIN_INIT_REQ");
  (sid ID_LOGIN_INIT_RSP, "ID_LOGIN_INIT_RSP");
  (sid ID_USER_QUIT_REQ, "ID_USER_QUIT_REQ");
  (sid ID_USER_QUIT_RSP, "ID_USER_QUIT_RSP");
  (sid ID_INIT_USER_INFO_REQ, "ID_INIT_USER_INFO_REQ");
  (sid ID_INIT_USER_INFO_RSP, "ID_INIT_USER_INFO_RSP");
  (sid ID_SEARCH_USER_REQ, "ID_SEARCH_USER_REQ");
  (sid ID_SEARCH_USER_RSP, "ID_SEARCH_USER_RSP");
  (sid ID_NOTIFY_ADD_FRIEND_REQ, "ID_NOTIFY_ADD_FRIEND_REQ");
  (sid ID_NOTIFY_ADD_FRIEND_RSP, "ID_NOTIFY_ADD_FRIEND_RSP");
  (sid ID_REPLY_ADD_FRIEND_REQ, "ID_REPLY_ADD_FRIEND_REQ");
  (sid ID_REPLY_ADD_FRIEND_RSP, "ID_REPLY_ADD_FRIEND_RSP");
  (sid ID_REMOVE_FRIEND_REQ, "ID_REMOVE_FRIEND_REQ");
  (sid ID_REMOVE_FRIEND_RSP, "ID_REMOVE_FRIEND_RSP");
  (sid ID_TEXT_SEND_REQ, "ID_TEXT_SEND_REQ");
  (sid ID_TEXT_SEND_RSP, "ID_TEXT_SEND_RSP");
  (sid ID_FILE_SEND_REQ, "ID_FILE_SEND_REQ");
  (sid ID_FILE_SEND_RSP, "ID_FILE_SEND_RSP");
  (sid ID_FILE_UPLOAD_REQ, "ID_FILE_UPLOAD_REQ");
  (sid ID_FILE_UPLOAD_RSP, "ID_FILE_UPLOAD_RSP");
  (sid ID_ACK, "ID_ACK"); (sid ID_NULL, "ID_NULL");
  (sid ID_GROUP_CREATE_REQ, "ID_GROUP_CREATE_REQ");
  (sid ID_GROUP_CREATE_RSP, "ID_GROUP_CREATE_RSP");
  (sid ID_GROUP_NOTIFY_JOIN_REQ, "ID_GROUP_NOTIFY_JOIN_REQ");
  (sid ID_GROUP_NOTIFY_JOIN_RSP, "ID_GROUP_NOTIFY_JOIN_RSP");
  (sid ID_GROUP_REPLY_JOIN_REQ, "ID_GROUP_REPLY_JOIN_REQ");
  (sid ID_GROUP_REPLY_JOIN_RSP, "ID_GROUP_REPLY_JOIN_RSP");
  (sid ID_GROUP_QUIT_REQ, "ID_GROUP_QUIT_REQ");
  (sid ID_GROUP_QUIT_RSP, "ID_GROUP_QUIT_RSP");
  (sid ID_GROUP_TEXT_SEND_REQ, "ID_GROUP_TEXT_SEND_REQ");
  (sid ID_GROUP_TEXT_SEND_RSP, "ID_GROUP_TEXT_SEND_RSP")].

Definition getServiceIdString (id : Z) : string :=
  match serviceIDMap !! id with
  | Some m => m
  | None => ""
  end.

(** [__getServiceResponseId(ServiceID(id))]: the enum's underlying type is a
    32-bit unsigned, the result an [int]. *)
Definition getServiceResponseId (id : Z) : Z := int32 (uint32 id + 1).

(** ** Transport constants *)

Definition PROTOCOL_HEADER_TOTAL : nat := 8.
Definition PROTOCOL_RECV_MSS : Z := 10 * 1024 * 1024.
Definition PROTOCOL_QUEUE_MAX_SIZE : Z := 10240.

(** ** Enumerations of the database layer *)

Module FriendApplyStatus.
Definition Wait : Z := 0.
Definition Agree : Z := 1.
Definition Refuse : Z := 2.
End FriendApplyStatus.

Module MessageType.
Definition TEXT : Z := 1.
Definition IMAGE : Z := 2.
Definition AUDIO : Z := 3.
Definition VIDEO : Z := 4.
Definition FILE : Z := 5.
End MessageType.

Module MessageStatus.
Definition WITHDRAW : Z := 0.
Definition WAIT : Z := 1.
Definition DELIVERED : Z := 2.
Definition DONE : Z := DELIVERED.
Definition READ : Z := 3.
End MessageStatus.

Module GroupRole.
Definition Member : Z := 0.
Definition Manager : Z := 1.
Definition Master : Z := 2.
End GroupRole.

Module GroupApplyType.
Definition Add : Z := 1.
Definition Delete : Z := 2.
Definition Promote : Z := 3.
Definition Demote : Z := 4.
Definition Invite : Z := 5.
Definition Kick : Z := 6.
End GroupApplyType.

(** Protocol enumerations of [tcp_message.proto]. *)
Module ReceiptType.
Definition UNSPECIFIED : Z := 0.
Definition DELIVERED : Z := 1.
Definition READ : Z := 2.
Definition TRANSPORT : Z := 3.
End ReceiptType.

Module MessageState.
Definition UNSPECIFIED : Z := 0.
Definition ACCEPTED : Z := 1.
Definition DELIVERED : Z := 2.
Definition READ : Z := 3.
End MessageState.

(** ** The client's copy ([ClientProtocol.h]) *)

Module ClientProtocol.
Inductive ServiceId :=
  | PullFriendListRequest | PullFriendListResponse | PullFriendApplyListRequest | PullFriendApplyListResponse
  | PullSessionMessagesRequest | PullSessionMessagesResponse | PullMessagesRequest | PullMessagesResponse
  | PullGroupMembersRequest | PullGroupMembersResponse | PingRequest | PingResponse | LoginRequest
  | LoginResponse | QuitRequest | QuitResponse | InitUserInfoRequest | InitUserInfoResponse | SearchUserRequest
  | SearchUserResponse | AddFriendRequest | AddFriendResponse | ReplyFriendRequest | ReplyFriendResponse
  | RemoveFriendRequest | RemoveFriendResponse | SendTextRequest | SendTextResponse | SendFileRequest
  | SendFileResponse | UploadFileRequest | UploadFileResponse | Ack | NullResponse | CreateGroupRequest
  | CreateGroupResponse | JoinGroupRequest | JoinGroupResponse | ReplyJoinGroupRequest | ReplyJoinGroupResponse
  | QuitGroupRequest | QuitGroupResponse | SendGroupTextRequest | SendGroupTextResponse.

Definition service (i : ServiceId) : Z :=
  match i with
  | PullFriendListRequest => 1001 | PullFriendListResponse => 1002 | PullFriendApplyListRequest => 1003
  | PullFriendApplyListResponse => 1004 | PullSessionMessagesRequest => 1005
  | PullSessionMessagesResponse => 1006 | PullMessagesRequest => 1007 | PullMessagesResponse => 1008
  | PullGroupMembersRequest => 1009 | PullGroupMembersResponse => 1010 | PingRequest => 1011
  | PingResponse => 1012 | LoginRequest => 1013 | LoginResponse => 1014 | QuitRequest => 1015
  | QuitResponse => 1016 | InitUserInfoRequest => 1017 | InitUserInfoResponse => 1018
  | SearchUserRequest => 1019 | SearchUserResponse => 1020 | AddFriendRequest => 1021
  | AddFriendResponse => 1022 | ReplyFriendRequest => 1023 | ReplyFriendResponse => 1024
  | RemoveFriendRequest => 1025 | RemoveFriendResponse => 1026 | SendTextRequest => 1027
  | SendTextResponse => 1028 | SendFileRequest => 1029 | SendFileResponse => 1030 | UploadFileRequest => 1031
  | UploadFileResponse => 1032 | Ack => 1033 | NullResponse => 1034 | CreateGroupRequest => 1035
  | CreateGroupResponse => 1036 | JoinGroupRequest => 1037 | JoinGroupResponse => 1038
  | ReplyJoinGroupRequest => 1039 | ReplyJoinGroupResponse => 1040 | QuitGroupRequest => 1041
  | QuitGroupResponse => 1042 | SendGroupTextRequest => 1043 | SendGroupTextResponse => 1044
  end.

Inductive ErrorCode :=
  | Success | JsonParser | RpcFailed | VerifyExpired | VerifyCodeError | UserExists | PasswordError
  | EmailMismatch | PasswordUpdateFailed | PasswordInvalid | TokenInvalid | UidInvalid | UserNotOnline
  | UserNotFriend | UserOnline | UserOffline | NotFound | RepeatMessage | MysqlFailed | FileTypeError
  | InternalError | GroupAlreadyExists | GroupNotExists | GroupNotifyFailed | GroupReplyFailed
  | AuthenticationRequired | MessageOwnershipInvalid | DeadlineExceeded | ResourceExhausted
  | DependencyUnavailable | IdempotencyConflict.

Definition error (e : ErrorCode) : Z :=
  match e with
  | Success => 0 | JsonParser => 1000 | RpcFailed => 1001 | VerifyExpired => 1002 | VerifyCodeError => 1003
  | UserExists => 1004 | PasswordError => 1005 | EmailMismatch => 1006 | PasswordUpdateFailed => 1007
  | PasswordInvalid => 1008 | TokenInvalid => 1009 | UidInvalid => 1010 | UserNotOnline => 1011
  | UserNotFriend => 1012 | UserOnline => 1013 | UserOffline => 1014 | NotFound => 1015 | RepeatMessage => 1016
  | MysqlFailed => 1017 | FileTypeError => 1018 | InternalError => 1019 | GroupAlreadyExists => 1020
  | GroupNotExists => 1021 | GroupNotifyFailed => 1022 | GroupReplyFailed => 1023
  | AuthenticationRequired => 1024 | MessageOwnershipInvalid => 1025 | DeadlineExceeded => 1026
  | ResourceExhausted => 1027 | DependencyUnavailable => 1028 | IdempotencyConflict => 1029
  end.

(** [ResponseFor(requestServiceId)] on [quint32]. *)
Definition ResponseFor (requestServiceId : Z) : Z :=
  if decide (requestServiceId = service Ack) then service NullResponse
  else uint32 (requestServiceId + 1).

Definition IsRetryableError (code : Z) : bool :=
  bool_decide (code = error RpcFailed) || bool_decide (code = error MysqlFailed)
  || bool_decide (code = error InternalError) || bool_decide (code = error DeadlineExceeded)
  || bool_decide (code = error ResourceExhausted)
  || bool_decide (code = error DependencyUnavailable).
End ClientProtocol.

(** ** Facts *)

#[export] Instance ec_inj : Inj (=) (=) ec.
Proof. intros [] [] H; vm_compute in H; congruence. Qed.

#[export] Instance sid_inj : Inj (=) (=) sid.
Proof. intros [] [] H; vm_compute in H; congruence. Qed.

Lemma sid_range i : 1001 <= sid i <= 1044.
Proof. destruct i; simpl; lia. Qed.

Lemma getServiceResponseId_sid (i : ServiceID) :
  getServiceResponseId i = sid i + 1.
Proof. destruct i; reflexivity. Qed.

(** The constants of the two sides, by their meaning. *)
Definition server_service (i : ClientProtocol.ServiceId) : ServiceID :=
  match i with
  | ClientProtocol.PullFriendListRequest => ID_PULL_FRIEND_LIST_REQ
  | ClientProtocol.PullFriendListResponse => ID_PULL_FRIEND_LIST_RSP
  | ClientProtocol.PullFriendApplyListRequest => ID_PULL_FRIEND_APPLY_LIST_REQ
  | ClientProtocol.PullFriendApplyListResponse => ID_PULL_FRIEND_APPLY_LIST_RSP
  | ClientProtocol.PullSessionMessagesRequest => ID_PULL_SESSION_MESSAGE_LIST_REQ
  | ClientProtocol.PullSessionMessagesResponse => ID_PULL_SESSION_MESSAGE_LIST_RSP
  | ClientProtocol.PullMessagesRequest => ID_PULL_MESSAGE_LIST_REQ
  | ClientProtocol.PullMessagesResponse => ID_PULL_MESSAGE_LIST_RSP
  | ClientProtocol.PullGroupMembersRequest => ID_GROUP_PULL_MEMBER_REQ
  | ClientProtocol.PullGroupMembersResponse => ID_GROUP_PULL_MEMBER_RSP
  | ClientProtocol.PingRequest => ID_PING_REQ | ClientProtocol.PingResponse => ID_PING_RSP
  | ClientProtocol.LoginRequest => ID_LOGIN_INIT_REQ | ClientProtocol.LoginResponse => ID_LOGIN_INIT_RSP
  | ClientProtocol.QuitRequest => ID_USER_QUIT_REQ | ClientProtocol.QuitResponse => ID_USER_QUIT_RSP
  | ClientProtocol.InitUserInfoRequest => ID_INIT_USER_INFO_REQ
  | ClientProtocol.InitUserInfoResponse => ID_INIT_USER_INFO_RSP
  | ClientProtocol.SearchUserRequest => ID_SEARCH_USER_REQ
  | ClientProtocol.SearchUserResponse => ID_SEARCH_USER_RSP
  | ClientProtocol.AddFriendRequest => ID_NOTIFY_ADD_FRIEND_REQ
  | ClientProtocol.AddFriendResponse => ID_NOTIFY_ADD_FRIEND_RSP
  | ClientProtocol.ReplyFriendRequest => ID_REPLY_ADD_FRIEND_REQ
  | ClientProtocol.ReplyFriendResponse => ID_REPLY_ADD_FRIEND_RSP
  | ClientProtocol.RemoveFriendRequest => ID_REMOVE_FRIEND_REQ
  | ClientProtocol.RemoveFriendResponse => ID_REMOVE_FRIEND_RSP
  | ClientProtocol.SendTextRequest => ID_TEXT_SEND_REQ | ClientProtocol.SendTextResponse => ID_TEXT_SEND_RSP
  | ClientProtocol.SendFileRequest => ID_FILE_SEND_REQ | ClientProtocol.SendFileResponse => ID_FILE_SEND_RSP
  | ClientProtocol.UploadFileRequest => ID_FILE_UPLOAD_REQ
  | ClientProtocol.UploadFileResponse => ID_FILE_UPLOAD_RSP | ClientProtocol.Ack => ID_ACK
  | ClientProtocol.NullResponse => ID_NULL | ClientProtocol.CreateGroupRequest => ID_GROUP_CREATE_REQ
  | ClientProtocol.CreateGroupResponse => ID_GROUP_CREATE_RSP
  | ClientProtocol.JoinGroupRequest => ID_GROUP_NOTIFY_JOIN_REQ
  | ClientProtocol.JoinGroupResponse => ID_GROUP_NOTIFY_JOIN_RSP
  | ClientProtocol.ReplyJoinGroupRequest => ID_GROUP_REPLY_JOIN_REQ
  | ClientProtocol.ReplyJoinGroupResponse => ID_GROUP_REPLY_JOIN_RSP
  | ClientProtocol.QuitGroupRequest => ID_GROUP_QUIT_REQ
  | ClientProtocol.QuitGroupResponse => ID_GROUP_QUIT_RSP
  | ClientProtocol.SendGroupTextRequest => ID_GROUP_TEXT_SEND_REQ
  | ClientProtocol.SendGroupTextResponse => ID_GROUP_TEXT_SEND_RSP
  end.

Definition server_error (e : ClientProtocol.ErrorCode) : ErrorCodes :=
  match e with
  | ClientProtocol.Success => Success | ClientProtocol.JsonParser => JsonParser
  | ClientProtocol.RpcFailed => RPCFailed | ClientProtocol.VerifyExpired => VerificationExpired
  | ClientProtocol.VerifyCodeError => VerificationCodeInvalid | ClientProtocol.UserExists => UserExist
  | ClientProtocol.PasswordError => PasswdErr | ClientProtocol.EmailMismatch => EmailNotMatch
  | ClientProtocol.PasswordUpdateFailed => PasswdUpFailed | ClientProtocol.PasswordInvalid => PasswdInvalid
  | ClientProtocol.TokenInvalid => TokenInvalid | ClientProtocol.UidInvalid => UidInvalid
  | ClientProtocol.UserNotOnline => UserNotOnline | ClientProtocol.UserNotFriend => UserNotFriend
  | ClientProtocol.UserOnline => UserOnline | ClientProtocol.UserOffline => UserOffline
  | ClientProtocol.NotFound => NotFound | ClientProtocol.RepeatMessage => RepeatMessage
  | ClientProtocol.MysqlFailed => MysqlFailed | ClientProtocol.FileTypeError => FileTypeError
  | ClientProtocol.InternalError => InternalError | ClientProtocol.GroupAlreadyExists => GroupAlreadyExists
  | ClientProtocol.GroupNotExists => GroupNotExists | ClientProtocol.GroupNotifyFailed => GroupNotifyFailed
  | ClientProtocol.GroupReplyFailed => GroupReplyFailed
  | ClientProtocol.AuthenticationRequired => AuthenticationRequired
  | ClientProtocol.MessageOwnershipInvalid => MessageOwnershipInvalid
  | ClientProtocol.DeadlineExceeded => DeadlineExceeded | ClientProtocol.ResourceExhausted => ResourceExhausted
  | ClientProtocol.DependencyUnavailable => DependencyUnavailable
  | ClientProtocol.IdempotencyConflict => IdempotencyConflict
  end.

(** The two sides of the wire agree on the protocol contract: the client's
    service ids and error codes have the values the server gives them; the retry
    classifications coincide on every integer code; and for every request id the
    response id the client expects is the one the server computes. *)
Theorem protocol_contract_agrees :
  (forall i, ClientProtocol.service i = sid (server_service i)) /\
  (forall e, ClientProtocol.error e = ec (server_error e)) /\
  (forall code, isRetryableError code = ClientProtocol.IsRetryableError code) /\
  (forall i : ServiceID, ClientProtocol.ResponseFor i = getServiceResponseId i).
Proof.
  split_and!.
  - by intros [].
  - by intros [].
  - intros code. unfold isRetryableError, ClientProtocol.IsRetryableError, ClientProtocol.error.
    repeat case_decide; subst; try reflexivity.
    all: repeat case_bool_decide; simplify_eq; done.
  - intros []; reflexivity.
Qed.
