(* ===== verification/Packet.v ===== *)
(** * Client packets

    The generated class [wimi.protocol.Packet] ([tcp_message.proto]) as the
    sources use it: fields with presence, a getter that returns the default for
    an absent field, repeated fields as lists.  The wire encoding is generated
    code and stays a parameter, the class [PacketCodec].
    Also [src/server/public/include/TcpMessageCodec.h]. *)

From S2P Require Import Prelude Const.

(** ** Field names *)

Inductive IntField :=
  | F_uid | F_seq | F_from | F_to | F_session_key | F_error | F_age | F_type
  | F_last_msg_id | F_limit | F_gid | F_group_id | F_manager_uid
  | F_requestor_uid | F_replyor_uid | F_role | F_speech | F_message_id
  | F_message_state | F_receipt_type | F_request_timeout_ms
  | F_conversation_id | F_conversation_seq | F_after_seq | F_next_seq
  | F_latest_seq | F_conversation_type.

Inductive BoolField := F_accept | F_init | F_skip_storage | F_retryable | F_has_more.

Inductive StrField :=
  | F_data | F_message | F_status | F_request_message | F_reply_message
  | F_username | F_name | F_sex | F_head_image_url | F_file_name | F_file_type
  | F_group_name | F_content | F_create_time | F_apply_date_time
  | F_send_date_time | F_read_date_time | F_join_time | F_auth_token
  | F_request_id | F_client_message_id.

#[export] Instance IntField_eq_dec : EqDecision IntField.
Proof. solve_decision. Defined.
#[export] Instance BoolField_eq_dec : EqDecision BoolField.
Proof. solve_decision. Defined.
#[export] Instance StrField_eq_dec : EqDecision StrField.
Proof. solve_decision. Defined.

(** The field numbers of the [.proto] file. *)
Definition int_tag (f : IntField) : positive :=
  match f with
  | F_uid => 1 | F_seq => 2 | F_from => 3 | F_to => 4 | F_session_key => 6
  | F_error => 7 | F_age => 15 | F_type => 21 | F_last_msg_id => 22
  | F_limit => 23 | F_gid => 24 | F_group_id => 25 | F_manager_uid => 27
  | F_requestor_uid => 28 | F_replyor_uid => 29 | F_role => 36
  | F_speech => 37 | F_message_id => 40 | F_message_state => 41
  | F_receipt_type => 42 | F_request_timeout_ms => 44
  | F_conversation_id => 46 | F_conversation_seq => 47 | F_after_seq => 49
  | F_next_seq => 54 | F_latest_seq => 56 | F_conversation_type => 57
  end%positive.

Definition bool_tag (f : BoolField) : positive :=
  match f with
  | F_accept => 10 | F_init => 18 | F_skip_storage => 38 | F_retryable => 43
  | F_has_more => 55
  end%positive.

Definition str_tag (f : StrField) : positive :=
  match f with
  | F_data => 5 | F_message => 8 | F_status => 9 | F_request_message => 11
  | F_reply_message => 12 | F_username => 13 | F_name => 14 | F_sex => 16
  | F_head_image_url => 17 | F_file_name => 19 | F_file_type => 20
  | F_group_name => 26 | F_content => 30 | F_create_time => 31
  | F_apply_date_time => 32 | F_send_date_time => 33 | F_read_date_time => 34
  | F_join_time => 35 | F_auth_token => 39 | F_request_id => 45
  | F_client_message_id => 48
  end%positive.

Definition int_fields : list IntField := [
  F_uid; F_seq; F_from; F_to; F_session_key; F_error; F_age; F_type;
  F_last_msg_id; F_limit; F_gid; F_group_id; F_manager_uid; F_requestor_uid;
  F_replyor_uid; F_role; F_speech; F_message_id; F_message_state;
  F_receipt_type; F_request_timeout_ms; F_conversation_id; F_conversation_seq;
  F_after_seq; F_next_seq; F_latest_seq; F_conversation_type].
Definition bool_fields : list BoolField :=
  [F_accept; F_init; F_skip_storage; F_retryable; F_has_more].
Definition str_fields : list StrField := [
  F_data; F_message; F_status; F_request_message; F_reply_message; F_username;
  F_name; F_sex; F_head_image_url; F_file_name; F_file_type; F_group_name;
  F_content; F_create_time; F_apply_date_time; F_send_date_time;
  F_read_date_time; F_join_time; F_auth_token; F_request_id;
  F_client_message_id].

#[export] Program Instance IntField_countable : Countable IntField :=
  {| encode := int_tag;
     decode p := List.find (fun f => Pos.eqb (int_tag f) p) int_fields |}.
Next Obligation. by intros []. Qed.
#[export] Program Instance BoolField_countable : Countable BoolField :=
  {| encode := bool_tag;
     decode p := List.find (fun f => Pos.eqb (bool_tag f) p) bool_fields |}.
Next Obligation. by intros []. Qed.
#[export] Program Instance StrField_countable : Countable StrField :=
  {| encode := str_tag;
     decode p := List.find (fun f => Pos.eqb (str_tag f) p) str_fields |}.
Next Obligation. by intros []. Qed.

(** ** Repeated messages *)

(** [protocol::UserInfo] *)
Record PUserInfo := mkPUserInfo {
  pu_uid : Z; pu_name : string; pu_age : Z; pu_sex : string;
  pu_head_image_url : string }.

(** [protocol::FriendApply] (the fields the services set) *)
Record PFriendApply := mkPFriendApply {
  pf_from : Z; pf_to : Z; pf_status : Z; pf_content : string;
  pf_apply_date_time : string }.

(** [protocol::ChatMessage] *)
Record PChatMessage := mkPChatMessage {
  pc_message_id : Z; pc_from : Z; pc_to : Z; pc_type : Z; pc_content : string;
  pc_status : Z; pc_send_date_time : string; pc_read_date_time : string;
  pc_conversation_id : Z; pc_conversation_seq : Z;
  pc_client_message_id : string }.

(** ** Packets *)

Record Packet := mkPacket {
  p_int : gmap IntField Z;
  p_bool : gmap BoolField bool;
  p_str : gmap StrField string;
  p_friend_list : list PUserInfo;
  p_apply_list : list PFriendApply;
  p_message_list : list PChatMessage }.

Definition empty_packet : Packet := mkPacket ∅ ∅ ∅ [] [] [].

Definition set_int (f : IntField) (v : Z) (p : Packet) : Packet :=
  mkPacket (<[f := v]> (p_int p)) (p_bool p) (p_str p)
    (p_friend_list p) (p_apply_list p) (p_message_list p).
Definition set_bool (f : BoolField) (v : bool) (p : Packet) : Packet :=
  mkPacket (p_int p) (<[f := v]> (p_bool p)) (p_str p)
    (p_friend_list p) (p_apply_list p) (p_message_list p).
Definition set_str (f : StrField) (v : string) (p : Packet) : Packet :=
  mkPacket (p_int p) (p_bool p) (<[f := v]> (p_str p))
    (p_friend_list p) (p_apply_list p) (p_message_list p).
Definition clear_bool (f : BoolField) (p : Packet) : Packet :=
  mkPacket (p_int p) (delete f (p_bool p)) (p_str p)
    (p_friend_list p) (p_apply_list p) (p_message_list p).
Definition add_friend_list (u : PUserInfo) (p : Packet) : Packet :=
  mkPacket (p_int p) (p_bool p) (p_str p)
    (p_friend_list p ++ [u]) (p_apply_list p) (p_message_list p).
Definition add_apply_list (a : PFriendApply) (p : Packet) : Packet :=
  mkPacket (p_int p) (p_bool p) (p_str p)
    (p_friend_list p) (p_apply_list p ++ [a]) (p_message_list p).
Definition add_message_list (m : PChatMessage) (p : Packet) : Packet :=
  mkPacket (p_int p) (p_bool p) (p_str p)
    (p_friend_list p) (p_apply_list p) (p_message_list p ++ [m]).

Definition has_int (f : IntField) (p : Packet) : bool := bool_decide (is_Some (p_int p !! f)).
Definition get_int (f : IntField) (p : Packet) : Z := default 0 (p_int p !! f).
Definition get_bool (f : BoolField) (p : Packet) : bool := default false (p_bool p !! f).
Definition has_str (f : StrField) (p : Packet) : bool := bool_decide (is_Some (p_str p !! f)).
Definition get_str (f : StrField) (p : Packet) : string := default "" (p_str p !! f).

(** Packets are records of finite maps: equality is decidable and there is an
    injection into [positive], used to instantiate the codec. *)
#[export] Instance PUserInfo_eq_dec : EqDecision PUserInfo.
Proof. solve_decision. Defined.
#[export] Instance PFriendApply_eq_dec : EqDecision PFriendApply.
Proof. solve_decision. Defined.
#[export] Instance PChatMessage_eq_dec : EqDecision PChatMessage.
Proof. solve_decision. Defined.
#[export] Instance Packet_eq_dec : EqDecision Packet.
Proof. solve_decision. Defined.

#[export] Program Instance PUserInfo_countable : Countable PUserInfo :=
  inj_countable'
    (fun u => (pu_uid u, pu_name u, pu_age u, pu_sex u, pu_head_image_url u))
    (fun '(a, b, c, d, e) => mkPUserInfo a b c d e) _.
Next Obligation. by intros []. Qed.
#[export] Program Instance PFriendApply_countable : Countable PFriendApply :=
  inj_countable'
    (fun u => (pf_from u, pf_to u, pf_status u, pf_content u, pf_apply_date_time u))
    (fun '(a, b, c, d, e) => mkPFriendApply a b c d e) _.
Next Obligation. by intros []. Qed.
#[export] Program Instance PChatMessage_countable : Countable PChatMessage :=
  inj_countable'
    (fun m => ((pc_message_id m, pc_from m, pc_to m, pc_type m, pc_content m),
               (pc_status m, pc_send_date_time m, pc_read_date_time m),
               (pc_conversation_id m, pc_conversation_seq m, pc_client_message_id m)))
    (fun '((a, b, c, d, e), (f, g, h), (i, j, k)) =>
       mkPChatMessage a b c d e f g h i j k) _.
Next Obligation. by intros []. Qed.
#[export] Program Instance Packet_countable : Countable Packet :=
  inj_countable'
    (fun p => (p_int p, p_bool p, p_str p, p_friend_list p, p_apply_list p,
               p_message_list p))
    (fun '(a, b, c, d, e, f) => mkPacket a b c d e f) _.
Next Obligation. by intros []. Qed.

(** ** The codec (generated protobuf code) *)

Class PacketCodec := {
  SerializeToString : Packet -> string;
  ParseFromString : string -> option Packet;
  parse_serialize : forall p, ParseFromString (SerializeToString p) = Some p }.

(** A concrete codec: the bits of [encode]. It shows that the law of the class
    can hold and lets the witnesses compute. *)
Fixpoint pos_to_string (p : positive) : string :=
  match p with
  | xH => ""
  | xO q => String "0"%char (pos_to_string q)
  | xI q => String "1"%char (pos_to_string q)
  end.

Fixpoint string_to_pos (s : string) : option positive :=
  match s with
  | "" => Some xH
  | String c s' =>
      if decide (c = "0"%char) then xO <$> string_to_pos s'
      else if decide (c = "1"%char) then xI <$> string_to_pos s'
      else None
  end.

Lemma string_to_pos_to_string p : string_to_pos (pos_to_string p) = Some p.
Proof. induction p; simpl; by rewrite ?IHp. Qed.

Definition bits_codec : PacketCodec.
Proof.
  refine {| SerializeToString p := pos_to_string (encode p);
            ParseFromString s := string_to_pos s ≫= decode |}.
  intros p. rewrite string_to_pos_to_string. simpl. apply decode_encode.
Defined.

(** ** [TcpMessageCodec.h] *)

Definition MakeErrorPacket (error : Z) (message : string) : Packet :=
  let packet := set_int F_error error empty_packet in
  let packet := set_bool F_retryable (isRetryableError error) packet in
  if str_empty message then packet else set_str F_message message packet.

Definition TcpPacketError (packet : Packet) : Z :=
  if has_int F_error packet then get_int F_error packet else Success.

(** ** Getter lemmas *)

Lemma get_int_set_int f g v p :
  get_int f (set_int g v p) = if decide (g = f) then v else get_int f p.
Proof. unfold get_int, set_int. simpl. rewrite lookup_insert. by case_decide. Qed.
Lemma has_int_set_int f g v p :
  has_int f (set_int g v p) = if decide (g = f) then true else has_int f p.
Proof.
  unfold has_int, set_int. simpl. rewrite lookup_insert. case_decide; [|done].
  by apply bool_decide_eq_true.
Qed.
Lemma get_bool_set_bool f g v p :
  get_bool f (set_bool g v p) = if decide (g = f) then v else get_bool f p.
Proof. unfold get_bool, set_bool. simpl. rewrite lookup_insert. by case_decide. Qed.
Lemma get_str_set_str f g v p :
  get_str f (set_str g v p) = if decide (g = f) then v else get_str f p.
Proof. unfold get_str, set_str. simpl. rewrite lookup_insert. by case_decide. Qed.
Lemma has_str_set_str f g v p :
  has_str f (set_str g v p) = if decide (g = f) then true else has_str f p.
Proof.
  unfold has_str, set_str. simpl. rewrite lookup_insert. case_decide; [|done].
  by apply bool_decide_eq_true.
Qed.
Lemma get_int_set_bool f g v p : get_int f (set_bool g v p) = get_int f p.
Proof. done. Qed.
Lemma get_int_set_str f g v p : get_int f (set_str g v p) = get_int f p.
Proof. done. Qed.
Lemma has_int_set_bool f g v p : has_int f (set_bool g v p) = has_int f p.
Proof. done. Qed.
Lemma has_int_set_str f g v p : has_int f (set_str g v p) = has_int f p.
Proof. done. Qed.
Lemma get_bool_set_int f g v p : get_bool f (set_int g v p) = get_bool f p.
Proof. done. Qed.
Lemma get_bool_set_str f g v p : get_bool f (set_str g v p) = get_bool f p.
Proof. done. Qed.
Lemma get_str_set_int f g v p : get_str f (set_int g v p) = get_str f p.
Proof. done. Qed.
Lemma get_str_set_bool f g v p : get_str f (set_bool g v p) = get_str f p.
Proof. done. Qed.
Lemma has_str_set_int f g v p : has_str f (set_int g v p) = has_str f p.
Proof. done. Qed.
Lemma has_str_set_bool f g v p : has_str f (set_bool g v p) = has_str f p.
Proof. done. Qed.

Create HintDb pkt.
#[export] Hint Rewrite get_int_set_int has_int_set_int get_bool_set_bool
  get_str_set_str has_str_set_str get_int_set_bool get_int_set_str
  has_int_set_bool has_int_set_str get_bool_set_int get_bool_set_str
  get_str_set_int get_str_set_bool has_str_set_int has_str_set_bool : pkt.

(** Compute the getters of a packet built by setters. *)
Ltac pkt := autorewrite with pkt; cbn [decide decide_rel]; try done.

Lemma error_MakeErrorPacket e m : get_int F_error (MakeErrorPacket e m) = e.
Proof. unfold MakeErrorPacket. destruct (str_empty m); reflexivity. Qed.
Lemma has_error_MakeErrorPacket e m : has_int F_error (MakeErrorPacket e m) = true.
Proof. unfold MakeErrorPacket. destruct (str_empty m); reflexivity. Qed.
Lemma retryable_MakeErrorPacket e m :
  get_bool F_retryable (MakeErrorPacket e m) = isRetryableError e.
Proof. unfold MakeErrorPacket. destruct (str_empty m); reflexivity. Qed.
Lemma TcpPacketError_MakeErrorPacket e m : TcpPacketError (MakeErrorPacket e m) = e.
Proof.
  unfold TcpPacketError.
  by rewrite has_error_MakeErrorPacket, error_MakeErrorPacket.
Qed.
#[export] Hint Rewrite error_MakeErrorPacket has_error_MakeErrorPacket
  retryable_MakeErrorPacket TcpPacketError_MakeErrorPacket : pkt.
