(* ===== verification/Frame.v ===== *)
(** * TLV frames on the client TCP connection

    Server side: [EncodeFrame] and the read loop of [GatewaySession::Run]
    ([src/server/gateway/src/GatewaySession.cc]).  Client side: the incremental
    decoder [TcpFrameCodec] ([TcpFrameCodec.cc]).  Bytes are [ascii]; a wire is
    a list of bytes, a payload a string. *)

From S2P Require Import Prelude Const.

(** ** Big-endian 32-bit words ([htonl], [ntohl], a big-endian [QDataStream]) *)

Definition byte_of (z : Z) : ascii := ascii_of_N (Z.to_N (z mod 256)).
Definition of_byte (c : ascii) : Z := Z.of_N (N_of_ascii c).

Definition htonl (z : Z) : list ascii :=
  [byte_of (Z.shiftr z 24); byte_of (Z.shiftr z 16); byte_of (Z.shiftr z 8); byte_of z].

Definition ntohl (bs : list ascii) : Z :=
  match bs with
  | [a; b; c; d] =>
      Z.lor (Z.shiftl (of_byte a) 24)
        (Z.lor (Z.shiftl (of_byte b) 16)
          (Z.lor (Z.shiftl (of_byte c) 8) (of_byte d)))
  | _ => 0
  end.

Definition bytes_of (s : string) : list ascii := String.list_ascii_of_string s.
Definition of_bytes (l : list ascii) : string := String.string_of_list_ascii l.
Definition size (s : string) : Z := Z.of_nat (String.length s).

(** ** Server: writing and reading frames *)

(** [EncodeFrame]: the header holds the id and the payload size, both truncated
    to 32 bits. *)
Definition EncodeFrame (protocolId : Z) (payload : string) : list ascii :=
  let wireId := htonl (uint32 protocolId) in
  let wireSize := htonl (uint32 (size payload)) in
  wireId ++ wireSize ++ bytes_of payload.

(** [asio::async_read] of exactly [n] bytes: the bytes and the rest of the
    stream, or end of file. *)
Definition async_read (n : nat) (input : list ascii)
  : option (list ascii * list ascii) :=
  if decide (n <= length input)%nat then Some (take n input, drop n input) else None.

(** How the read loop of [Run] ends: the peer closed the stream (possibly in
    the middle of a frame), or a frame announced more than the maximum. *)
Inductive stop_reason := ReadFailed | OversizedFrame.

(** The loop of [Run]: the packets handed to [HandlePacket], in order, and why
    the loop ended.  Every round consumes at least the header, so the length of
    the input bounds the number of rounds. *)
Fixpoint Run_loop (fuel : nat) (input : list ascii)
  : list (Z * string) * stop_reason :=
  match fuel with
  | O => ([], ReadFailed)
  | S fuel =>
      match async_read PROTOCOL_HEADER_TOTAL input with
      | None => ([], ReadFailed)
      | Some (header, input) =>
          let protocolId := ntohl (take 4 header) in
          let bodySize := ntohl (drop 4 header) in
          if decide (bodySize > PROTOCOL_RECV_MSS) then ([], OversizedFrame)
          else match async_read (Z.to_nat bodySize) input with
               | None => ([], ReadFailed)
               | Some (payload, input) =>
                   let '(rest, why) := Run_loop fuel input in
                   ((protocolId, of_bytes payload) :: rest, why)
               end
      end
  end.

Definition Run_frames (input : list ascii) : list (Z * string) * stop_reason :=
  Run_loop (S (length input)) input.

(** ** Client: [TcpFrameCodec] *)

Record TcpFrameCodec := mkCodec { buffer_ : list ascii; error_ : string }.

Definition new_codec : TcpFrameCodec := mkCodec [] "".
Definition HasError (c : TcpFrameCodec) : bool := negb (str_empty (error_ c)).
Definition Reset (c : TcpFrameCodec) : TcpFrameCodec := mkCodec [] "".
Definition kMaximumPayloadSize : Z := 10 * 1024 * 1024.

(** [TcpFrameCodec::Encode] *)
Definition Encode (serviceId : Z) (payload : string) : list ascii :=
  htonl (uint32 serviceId) ++ htonl (uint32 (size payload)) ++ bytes_of payload.

(** The [while] loop of [Feed] on the buffer. [None] is the error return: the
    frames decoded so far in this call are dropped. *)
Fixpoint Feed_loop (fuel : nat) (buffer : list ascii) (frames : list (Z * string))
  : option (list (Z * string) * list ascii) :=
  match fuel with
  | O => Some (frames, buffer)
  | S fuel =>
      if decide (length buffer < 8)%nat then Some (frames, buffer)
      else
        let serviceId := ntohl (take 4 buffer) in
        let payloadSize := ntohl (take 4 (drop 4 buffer)) in
        if decide (payloadSize > kMaximumPayloadSize) then None
        else
          let totalSize := (8 + Z.to_nat payloadSize)%nat in
          if decide (length buffer < totalSize)%nat then Some (frames, buffer)
          else
            Feed_loop fuel (drop totalSize buffer)
              (frames ++ [(serviceId, of_bytes (take (Z.to_nat payloadSize) (drop 8 buffer)))])
  end.

Definition Feed (bytes : list ascii) (c : TcpFrameCodec)
  : list (Z * string) * TcpFrameCodec :=
  if HasError c then ([], c)
  else
    let buffer := buffer_ c ++ bytes in
    match Feed_loop (S (length buffer)) buffer [] with
    | Some (frames, rest) => (frames, mkCodec rest (error_ c))
    | None => ([], mkCodec [] "TCP frame payload exceeds 10 MiB")
    end.

(** Feeding a list of chunks, as successive [readyRead] signals do. *)
Fixpoint Feed_all (chunks : list (list ascii)) (c : TcpFrameCodec)
  : list (Z * string) * TcpFrameCodec :=
  match chunks with
  | [] => ([], c)
  | b :: chunks =>
      let '(f1, c) := Feed b c in
      let '(f2, c) := Feed_all chunks c in
      (f1 ++ f2, c)
  end.

(** A frame that fits the protocol: a 32-bit id and at most 10 MiB. *)
Definition frame_ok (f : Z * string) : Prop :=
  0 <= f.1 < 2 ^ 32 /\ size f.2 <= PROTOCOL_RECV_MSS.

Definition encode_all (fs : list (Z * string)) : list ascii :=
  concat ((fun f => EncodeFrame f.1 f.2) <$> fs).

(** ** Lemmas: bytes and words *)

Lemma of_byte_byte_of z : of_byte (byte_of z) = z mod 256.
Proof.
  unfold of_byte, byte_of. pose proof (Z.mod_pos_bound z 256).
  rewrite N_ascii_embedding by lia. lia.
Qed.

Lemma of_byte_range c : 0 <= of_byte c < 256.
Proof. unfold of_byte. pose proof (N_ascii_bounded c). lia. Qed.

Lemma ntohl_arith a b c d :
  ntohl [a; b; c; d] =
  of_byte a * 2 ^ 24 + of_byte b * 2 ^ 16 + of_byte c * 2 ^ 8 + of_byte d.
Proof.
  unfold ntohl.
  pose proof (of_byte_range a). pose proof (of_byte_range b).
  pose proof (of_byte_range c). pose proof (of_byte_range d).
  assert (forall x y n, 0 <= n -> 0 <= y < 2 ^ n ->
            Z.lor (Z.shiftl x n) y = x * 2 ^ n + y) as Hlor.
  { intros x y n Hn Hy. rewrite Z.shiftl_mul_pow2 by lia.
    rewrite <- Z.add_lor_land.
    enough (Z.land (x * 2 ^ n) y = 0) by lia.
    rewrite <- (Z.mod_small y (2 ^ n)) by lia.
    rewrite <- Z.land_ones by lia. rewrite Z.land_assoc, (Z.land_comm _ y).
    rewrite <- Z.land_assoc, Z.land_ones, Z.mod_mul by lia. apply Z.land_0_r. }
  rewrite (Hlor (of_byte c)) by lia. rewrite (Hlor (of_byte b)) by lia.
  rewrite (Hlor (of_byte a)) by lia. lia.
Qed.

Lemma ntohl_htonl z : 0 <= z < 2 ^ 32 -> ntohl (htonl z) = z.
Proof.
  intros Hz. unfold htonl. rewrite ntohl_arith, !of_byte_byte_of.
  rewrite !Z.shiftr_div_pow2 by lia.
  change (2 ^ 24) with 16777216. change (2 ^ 16) with 65536.
  change (2 ^ 8) with 256. change (2 ^ 32) with 4294967296 in Hz.
  Z.to_euclidean_division_equations. lia.
Qed.

Lemma length_htonl z : length (htonl z) = 4%nat.
Proof. done. Qed.

Lemma of_bytes_bytes_of s : of_bytes (bytes_of s) = s.
Proof. apply String.string_of_list_ascii_of_string. Qed.

Lemma length_bytes_of s : length (bytes_of s) = String.length s.
Proof. induction s; simpl; [done|]. by f_equal. Qed.

Lemma size_nonneg s : 0 <= size s.
Proof. unfold size. lia. Qed.

Lemma size_to_nat s : Z.to_nat (size s) = length (bytes_of s).
Proof. unfold size. rewrite length_bytes_of. lia. Qed.

Lemma length_EncodeFrame id p :
  length (EncodeFrame id p) = (8 + length (bytes_of p))%nat.
Proof. unfold EncodeFrame. rewrite !length_app, !length_htonl. lia. Qed.

(** The client's encoder and the server's encoder produce the same bytes. *)
Lemma Encode_EncodeFrame id p : Encode id p = EncodeFrame id p.
Proof. done. Qed.

(** The header of an encoded frame is read back, whatever follows it. *)
Lemma EncodeFrame_fields id p rest :
  frame_ok (id, p) ->
  let w := EncodeFrame id p ++ rest in
  ntohl (take 4 w) = id /\ ntohl (take 4 (drop 4 w)) = size p /\
  take 8 w = htonl id ++ htonl (size p) /\ drop 8 w = bytes_of p ++ rest.
Proof.
  intros [Hid Hp]. simpl in Hid, Hp.
  assert (0 <= size p < 2 ^ 32) as Hs.
  { pose proof (size_nonneg p). unfold PROTOCOL_RECV_MSS in Hp. lia. }
  unfold EncodeFrame, uint32. rewrite !wrapU_small by done.
  change (take 4 ((htonl id ++ htonl (size p) ++ bytes_of p) ++ rest)) with (htonl id).
  change (take 4 (drop 4 ((htonl id ++ htonl (size p) ++ bytes_of p) ++ rest)))
    with (htonl (size p)).
  change (take 8 ((htonl id ++ htonl (size p) ++ bytes_of p) ++ rest))
    with (htonl id ++ htonl (size p)).
  change (drop 8 ((htonl id ++ htonl (size p) ++ bytes_of p) ++ rest))
    with (bytes_of p ++ rest).
  by rewrite !ntohl_htonl.
Qed.

(** ** The server's read loop *)

Lemma Run_loop_step fuel id p rest :
  frame_ok (id, p) ->
  Run_loop (S fuel) (EncodeFrame id p ++ rest) =
  let '(l, why) := Run_loop fuel rest in ((id, p) :: l, why).
Proof.
  intros Hok. destruct (EncodeFrame_fields id p rest Hok) as (H1 & H2 & H3 & H4).
  assert (8 <= length (EncodeFrame id p ++ rest))%nat as Hlen.
  { rewrite length_app, length_EncodeFrame. lia. }
  cbn [Run_loop]. unfold async_read, PROTOCOL_HEADER_TOTAL.
  rewrite decide_True by done.
  rewrite take_take. change (4 `min` 8)%nat with 4%nat. rewrite H1.
  replace (drop 4 (take 8 (EncodeFrame id p ++ rest)))
    with (take 4 (drop 4 (EncodeFrame id p ++ rest))) by (by apply take_drop_commute).
  rewrite H2. destruct Hok as [Hid Hp]. simpl in Hp. rewrite decide_False by lia.
  rewrite H4, size_to_nat. rewrite decide_True by (rewrite length_app; lia).
  rewrite take_app_length, drop_app_length, of_bytes_bytes_of. done.
Qed.

Lemma encode_all_cons f fs :
  encode_all (f :: fs) = EncodeFrame f.1 f.2 ++ encode_all fs.
Proof. done. Qed.

Lemma length_encode_all fs : (length fs <= length (encode_all fs))%nat.
Proof.
  induction fs as [|f fs IH]; [done|].
  rewrite encode_all_cons, length_app, length_EncodeFrame. simpl. lia.
Qed.

Lemma Run_loop_encode_all fs tail fuel :
  Forall frame_ok fs ->
  Run_loop (length fs + fuel) (encode_all fs ++ tail) =
  let '(l, why) := Run_loop fuel tail in (fs ++ l, why).
Proof.
  induction 1 as [|[id p] fs Hok Hfs IH].
  { rewrite app_nil_l, Nat.add_0_l. by destruct (Run_loop fuel tail). }
  rewrite encode_all_cons, <- app_assoc.
  change (length ((id, p) :: fs) + fuel)%nat with (S (length fs + fuel)).
  rewrite Run_loop_step by done. rewrite IH. by destruct (Run_loop fuel tail).
Qed.

(** Fuel only matters through being at least the input length. *)
Lemma Run_loop_fuel n m input :
  (length input < n)%nat -> (length input < m)%nat ->
  Run_loop n input = Run_loop m input.
Proof.
  revert m input. induction n as [|n IH]; intros m input Hn Hm; [lia|].
  destruct m as [|m]; [lia|]. cbn [Run_loop]. unfold async_read at 1 3.
  unfold PROTOCOL_HEADER_TOTAL. case_decide as H8; [|done].
  case_decide; [done|]. unfold async_read. case_decide as Hb; [|done].
  rewrite (IH m); [done|..].
  all: rewrite !length_drop; lia.
Qed.

(** ** The client's incremental decoder *)

Lemma Feed_loop_acc n b fs :
  Feed_loop n b fs =
  match Feed_loop n b [] with
  | Some (l, r) => Some (fs ++ l, r)
  | None => None
  end.
Proof.
  revert b fs. induction n as [|n IH]; intros b fs; cbn [Feed_loop].
  { by rewrite app_nil_r. }
  case_decide; [by rewrite app_nil_r|]. case_decide; [done|].
  case_decide; [by rewrite app_nil_r|].
  rewrite IH. rewrite (IH _ ([] ++ _)). destruct (Feed_loop n _ []) as [[l r]|]; [|done].
  by rewrite app_nil_l, app_assoc.
Qed.

Lemma Feed_loop_fuel n m b :
  (length b < n)%nat -> (length b < m)%nat ->
  Feed_loop n b [] = Feed_loop m b [].
Proof.
  revert m b. induction n as [|n IH]; intros m b Hn Hm; [lia|].
  destruct m as [|m]; [lia|]. cbn [Feed_loop].
  case_decide; [done|]. case_decide; [done|]. case_decide; [done|].
  rewrite (Feed_loop_acc n), (Feed_loop_acc m).
  by rewrite (IH m) by (rewrite length_drop; lia).
Qed.

(** One pass of the loop over buffered bytes, with enough fuel. *)
Definition feed_pass (b : list ascii) : option (list (Z * string) * list ascii) :=
  Feed_loop (S (length b)) b [].

Lemma feed_pass_unfold b :
  feed_pass b =
  if decide (length b < 8)%nat then Some ([], b)
  else
    let id := ntohl (take 4 b) in
    let n := ntohl (take 4 (drop 4 b)) in
    if decide (n > kMaximumPayloadSize) then None
    else if decide (length b < 8 + Z.to_nat n)%nat then Some ([], b)
    else match feed_pass (drop (8 + Z.to_nat n) b) with
         | Some (l, r) => Some ((id, of_bytes (take (Z.to_nat n) (drop 8 b))) :: l, r)
         | None => None
         end.
Proof.
  unfold feed_pass at 1. cbn [Feed_loop].
  case_decide; [done|]. case_decide; [done|]. case_decide; [done|].
  rewrite Feed_loop_acc. unfold feed_pass.
  rewrite (Feed_loop_fuel (length b) (S (length (drop (8 + Z.to_nat (ntohl (take 4 (drop 4 b)))) b))))
    by (rewrite ?length_drop; lia).
  by destruct (Feed_loop _ (drop _ b) []) as [[l r]|].
Qed.

Lemma feed_pass_ind (P : list ascii -> Prop) :
  (forall b, (forall n, (8 + n <= length b)%nat -> P (drop (8 + n) b)) -> P b) ->
  forall b, P b.
Proof.
  intros H b. remember (length b) as k eqn:Hk. revert b Hk.
  induction k as [k IH] using lt_wf_ind. intros b ->. apply H.
  intros n Hn. eapply IH; [|done]. rewrite length_drop. lia.
Qed.

(** The bytes left after a pass are the start of an incomplete frame: a pass
    over them finds nothing. *)
Lemma feed_pass_stalled b l r : feed_pass b = Some (l, r) -> feed_pass r = Some ([], r).
Proof.
  revert l r. induction b as [b IH] using feed_pass_ind. intros l r.
  rewrite feed_pass_unfold. case_decide as H8.
  { intros [= <- <-]. rewrite feed_pass_unfold, decide_True by done. done. }
  cbv zeta. case_decide as Hbig; [done|]. case_decide as Hlen.
  { intros [= <- <-]. rewrite feed_pass_unfold, decide_False by done. cbv zeta.
    rewrite decide_False by done. by rewrite decide_True by done. }
  destruct (feed_pass (drop _ b)) as [[l' r']|] eqn:E; [|done].
  intros [= <- <-].
  apply (IH (Z.to_nat (ntohl (take 4 (drop 4 b)))) ltac:(lia) _ _ E).
Qed.

(** A pass over [b ++ x] is a pass over [b] followed by a pass over what is
    left and [x]. *)
Lemma feed_pass_app b x l r :
  feed_pass b = Some (l, r) ->
  feed_pass (b ++ x) =
  match feed_pass (r ++ x) with
  | Some (l', r') => Some (l ++ l', r')
  | None => None
  end.
Proof.
  revert l r. induction b as [b IH] using feed_pass_ind. intros l r.
  rewrite feed_pass_unfold. case_decide as H8.
  { intros [= <- <-]. by destruct (feed_pass (b ++ x)) as [[? ?]|]. }
  cbv zeta. case_decide as Hbig; [done|]. case_decide as Hlen.
  { intros [= <- <-]. by destruct (feed_pass (b ++ x)) as [[? ?]|]. }
  destruct (feed_pass (drop _ b)) as [[l' r']|] eqn:E; [|done].
  intros [= <- <-]. rewrite (feed_pass_unfold (b ++ x)).
  rewrite decide_False by (rewrite length_app; lia). cbv zeta.
  assert (take 4 (b ++ x) = take 4 b) as -> by (rewrite take_app_le; [done|lia]).
  assert (take 4 (drop 4 (b ++ x)) = take 4 (drop 4 b)) as ->.
  { rewrite drop_app_le by lia. rewrite take_app_le; [done|]. rewrite length_drop. lia. }
  rewrite decide_False by done. rewrite decide_False by (rewrite length_app; lia).
  rewrite drop_app_le by lia. rewrite (IH (Z.to_nat (ntohl (take 4 (drop 4 b)))) ltac:(lia) _ _ E).
  rewrite drop_app_le by lia. rewrite take_app_le by (rewrite length_drop; lia).
  by destruct (feed_pass (r' ++ x)) as [[? ?]|].
Qed.

(** An oversized frame is found whatever arrives after it. *)
Lemma feed_pass_None_app y x : feed_pass y = None -> feed_pass (y ++ x) = None.
Proof.
  induction y as [y IH] using feed_pass_ind.
  rewrite (feed_pass_unfold y). case_decide; [done|]. cbv zeta.
  rewrite (feed_pass_unfold (y ++ x)).
  rewrite (decide_False (P := (length (y ++ x) < _)%nat))
    by (rewrite length_app; lia). cbv zeta.
  rewrite (take_app_le y) by lia. rewrite drop_app_le by lia.
  rewrite take_app_le by (rewrite length_drop; lia).
  case_decide; [done|]. case_decide; [done|].
  rewrite (decide_False (P := (length (y ++ x) < _)%nat))
    by (rewrite length_app; lia).
  rewrite drop_app_le by lia.
  destruct (feed_pass (drop _ y)) as [[? ?]|] eqn:E; [done|]. intros _.
  by rewrite (IH (Z.to_nat (ntohl (take 4 (drop 4 y)))) ltac:(lia) E).
Qed.

Lemma Feed_pass bytes c :
  HasError c = false ->
  Feed bytes c =
  match feed_pass (buffer_ c ++ bytes) with
  | Some (l, r) => (l, mkCodec r (error_ c))
  | None => ([], mkCodec [] "TCP frame payload exceeds 10 MiB")
  end.
Proof. intros H. unfold Feed. rewrite H. done. Qed.

(** Feeding chunks one by one is one pass over their concatenation. *)
Lemma Feed_all_pass chunks b l r :
  feed_pass b = Some ([], b) ->
  feed_pass (b ++ concat chunks) = Some (l, r) ->
  Feed_all chunks (mkCodec b "") = (l, mkCodec r "").
Proof.
  revert b l r. induction chunks as [|c chunks IH]; intros b l r Hb Hall.
  { simpl in *. rewrite app_nil_r in Hall. by simplify_eq. }
  simpl in Hall. cbn [Feed_all]. rewrite Feed_pass by done. cbn [buffer_ error_].
  rewrite app_assoc in Hall.
  destruct (feed_pass (b ++ c)) as [[l1 r1]|] eqn:E1.
  - rewrite (feed_pass_app _ _ _ _ E1) in Hall.
    destruct (feed_pass (r1 ++ concat chunks)) as [[l2 r2]|] eqn:E2; [|done].
    simplify_eq. rewrite (IH r1 l2 r (feed_pass_stalled _ _ _ E1) E2). done.
  - rewrite (feed_pass_None_app _ _ E1) in Hall. done.
Qed.

Lemma feed_pass_encode_all fs tail l r :
  Forall frame_ok fs -> feed_pass tail = Some (l, r) ->
  feed_pass (encode_all fs ++ tail) = Some (fs ++ l, r).
Proof.
  intros Hfs Ht. induction Hfs as [|[id p] fs Hok Hfs IH]; [done|].
  rewrite encode_all_cons, <- app_assoc. cbn [fst snd].
  set (rest := encode_all fs ++ tail) in *.
  destruct (EncodeFrame_fields id p rest Hok) as (H1 & H2 & H3 & H4).
  rewrite feed_pass_unfold. rewrite decide_False by
    (rewrite length_app, length_EncodeFrame; lia). cbv zeta.
  rewrite H1, H2, H4, size_to_nat.
  destruct Hok as [Hid Hp]. unfold kMaximumPayloadSize, PROTOCOL_RECV_MSS in *.
  simpl in Hp. rewrite decide_False by lia.
  rewrite decide_False by (rewrite length_app, length_EncodeFrame; lia).
  rewrite <- drop_drop, H4, drop_app_length, IH, take_app_length, of_bytes_bytes_of.
  done.
Qed.

(** C27: what the Gateway writes is what the client reads, whatever the TCP
    segmentation: the bytes of any sequence of well-sized frames, cut into
    arbitrary chunks, are decoded to exactly that sequence, in order, with
    nothing left over and no error. *)
Theorem server_to_client_stream (fs : list (Z * string)) (chunks : list (list ascii)) :
  Forall frame_ok fs -> concat chunks = encode_all fs ->
  Feed_all chunks new_codec = (fs, new_codec).
Proof.
  intros Hfs Hc. apply Feed_all_pass; [done|].
  change (feed_pass (concat chunks) = Some (fs, [])).
  rewrite Hc, <- (app_nil_r (encode_all fs)).
  rewrite (feed_pass_encode_all fs [] [] []) by done. by rewrite app_nil_r.
Qed.

Lemma server_to_client_stream_witness :
  Feed_all [take 5 (encode_all [(1012, "ab"); (1027, "")]);
            drop 5 (encode_all [(1012, "ab"); (1027, "")])] new_codec
  = ([(1012, "ab"); (1027, "")], new_codec).
Proof.
  apply server_to_client_stream.
  - repeat constructor; vm_compute; congruence.
  - vm_compute. reflexivity.
Defined.

(** What the client writes is what the Gateway reads: the read loop hands
    exactly the encoded packets to [HandlePacket], in order, before it sees the
    end of the stream; and a frame that announces more than 10 MiB ends the
    loop without being delivered, whatever follows. *)
Theorem client_to_server_stream (fs : list (Z * string)) (id n : Z) (junk : list ascii) :
  Forall frame_ok fs -> PROTOCOL_RECV_MSS < n < 2 ^ 32 ->
  Run_frames (encode_all fs) = (fs, ReadFailed) /\
  Run_frames (encode_all fs ++ htonl id ++ htonl n ++ junk) = (fs, OversizedFrame).
Proof.
  intros Hfs Hn. unfold Run_frames. split.
  - pose proof (length_encode_all fs) as Hlen.
    rewrite (Run_loop_fuel _ (length fs + S (length (encode_all fs)))) by lia.
    rewrite <- (app_nil_r (encode_all fs)) at 2.
    rewrite Run_loop_encode_all by done. simpl. by rewrite app_nil_r.
  - set (w := htonl id ++ htonl n ++ junk).
    pose proof (length_encode_all fs) as Hlen.
    rewrite (Run_loop_fuel _ (length fs + S (length (encode_all fs ++ w)))) by lia.
    rewrite Run_loop_encode_all by done. cbn [Run_loop].
    unfold async_read at 1, PROTOCOL_HEADER_TOTAL.
    rewrite decide_True by (unfold w; rewrite !length_app, !length_htonl; lia).
    change (drop 4 (take 8 w)) with (htonl n). rewrite ntohl_htonl by
      (unfold PROTOCOL_RECV_MSS in Hn; lia).
    rewrite decide_True by lia. by rewrite app_nil_r.
Qed.

Lemma client_to_server_stream_witness :
  Run_frames (encode_all [(1027, "hi")]) = ([(1027, "hi")], ReadFailed) /\
  Run_frames (encode_all [(1027, "hi")] ++ htonl 7 ++ htonl 10485761 ++ [])
  = ([(1027, "hi")], OversizedFrame).
Proof.
  apply client_to_server_stream.
  - repeat constructor; vm_compute; congruence.
  - unfold PROTOCOL_RECV_MSS. lia.
Defined.
