(* ===== verification/Redis.v ===== *)
(** * The Redis data access object

    [RedisDao] of [src/server/public/include/Redis.h].  Redis is a finite map
    from keys to values with an absolute expiry time in milliseconds.  Lua
    scripts run atomically, so each is one function of the map and of the
    server clock.  A call may fail before or after the server has acted. *)

From S2P Require Import Prelude.

(** ** The key-value store *)

Record SessionLease := mkLease {
  gatewayId : string; instanceId : string; connectionId : string;
  generation : Z }.

#[export] Instance SessionLease_eq_dec : EqDecision SessionLease.
Proof. solve_decision. Defined.

(** [SessionLease::empty] *)
Definition lease_empty (l : SessionLease) : bool :=
  str_empty (gatewayId l) || str_empty (instanceId l) ||
  str_empty (connectionId l) || (generation l <=? 0).

Definition no_lease : SessionLease := mkLease "" "" "" 0.

(** What the data access object stores: strings, counters, encoded leases. *)
Inductive rvalue := VStr (s : string) | VInt (z : Z) | VLease (l : SessionLease).

#[export] Instance rvalue_eq_dec : EqDecision rvalue.
Proof. solve_decision. Defined.

Record entry := mkEntry { val : rvalue; exp : option Z }.

#[export] Instance entry_eq_dec : EqDecision entry.
Proof. solve_decision. Defined.

Abbreviation redis := (gmap string entry).

(** Redis drops a key once the clock has passed its expiry time. *)
Definition live (now : Z) (e : entry) : bool :=
  match exp e with Some t => now <=? t | None => true end.

(** ** Commands *)

Definition lookup_live (now : Z) (k : string) (r : redis) : option entry :=
  match r !! k with
  | Some e => if live now e then Some e else None
  | None => None
  end.

Definition GET (now : Z) (k : string) (r : redis) : option rvalue :=
  val <$> lookup_live now k r.

Definition EXISTS (now : Z) (k : string) (r : redis) : bool :=
  bool_decide (is_Some (lookup_live now k r)).

Definition SETEX (now : Z) (k : string) (seconds : Z) (v : rvalue) (r : redis) : redis :=
  <[k := mkEntry v (Some (now + 1000 * seconds))]> r.

(** The counter keeps its expiry; overflow and a value that is not a counter
    are error replies. *)
Definition INCR (now : Z) (k : string) (r : redis) : option (Z * redis) :=
  match lookup_live now k r with
  | None => Some (1, <[k := mkEntry (VInt 1) None]> r)
  | Some (mkEntry (VInt n) t) =>
      if n <? 2 ^ 63 - 1 then Some (n + 1, <[k := mkEntry (VInt (n + 1)) t]> r)
      else None
  | Some _ => None
  end.

Definition EXPIRE (now : Z) (k : string) (seconds : Z) (r : redis) : Z * redis :=
  match lookup_live now k r with
  | None => (0, r)
  | Some e => if seconds <=? 0 then (1, delete k r)
              else (1, <[k := mkEntry (val e) (Some (now + 1000 * seconds))]> r)
  end.

Definition DEL (k : string) (r : redis) : redis := delete k r.

(** Remaining seconds, rounded to nearest as the server does; -1 without an
    expiry, -2 without the key. *)
Definition TTL (now : Z) (k : string) (r : redis) : Z :=
  match lookup_live now k r with
  | None => -2
  | Some (mkEntry _ None) => -1
  | Some (mkEntry _ (Some t)) => (t - now + 500) / 1000
  end.

(** ** [executeTemplate] *)

#[export] Instance default_lease : DefaultForType SessionLease := no_lease.

(** One call: how it fails, and the server's clock when it runs. A missing
    pool connection is [FBefore]. *)
Record call := mkCall { c_fault : fault; c_now : Z }.

(** The processor returns [None] for an error reply, which redis-plus-plus
    throws; effects made before it stay. *)
Definition executeTemplate {A} `{DefaultForType A}
    (processor : Z -> redis -> option A * redis) (c : call) (r : redis) : A * redis :=
  match c_fault c with
  | FBefore => (defaultForType, r)
  | FNone => let '(a, r') := processor (c_now c) r in (default defaultForType a, r')
  | FAfter => let '(_, r') := processor (c_now c) r in (defaultForType, r')
  end.

(** ** Session leases *)

Definition PrefixSessionLease : string := "im:session:".
Definition PrefixSessionGeneration : string := "im:sessionGeneration:".
Definition leaseKey (uid : Z) : string := PrefixSessionLease +:+ to_string uid.
Definition generationKey (uid : Z) : string := PrefixSessionGeneration +:+ to_string uid.

Definition bindSessionLease (uid : Z) (gateway instance connection : string)
    (ttlSeconds : Z) (c : call) (r : redis) : Z * redis :=
  if (uid <=? 0) || str_empty gateway || str_empty instance ||
     str_empty connection || (ttlSeconds <=? 0)
  then (-1, r)
  else executeTemplate (fun now r =>
    match INCR now (generationKey uid) r with
    | None => (None, r)
    | Some (g, r) =>
        (Some g, SETEX now (leaseKey uid) ttlSeconds
                   (VLease (mkLease gateway instance connection g)) r)
    end) c r.

Definition getSessionLease (uid : Z) (c : call) (r : redis) : SessionLease * redis :=
  if uid <=? 0 then (no_lease, r)
  else executeTemplate (fun now r =>
    match GET now (leaseKey uid) r with
    | Some (VLease l) => (Some l, r)
    | _ => (Some no_lease, r)
    end) c r.

(** The comparison the scripts make: all three names and the printed
    generation. *)
Definition lease_matches (stored wanted : SessionLease) : bool :=
  bool_decide (gatewayId stored = gatewayId wanted) &&
  bool_decide (instanceId stored = instanceId wanted) &&
  bool_decide (connectionId stored = connectionId wanted) &&
  bool_decide (to_string (generation stored) = to_string (generation wanted)).

Definition refreshSessionLease (uid : Z) (lease : SessionLease) (ttlSeconds : Z)
    (c : call) (r : redis) : bool * redis :=
  if (uid <=? 0) || lease_empty lease || (ttlSeconds <=? 0) then (false, r)
  else executeTemplate (fun now r =>
    match GET now (leaseKey uid) r with
    | None => (Some false, r)
    | Some (VLease l) =>
        if lease_matches l lease
        then let '(n, r) := EXPIRE now (leaseKey uid) ttlSeconds r in (Some (n =? 1), r)
        else (Some false, r)
    | Some _ => (None, r)
    end) c r.

Definition clearSessionLease (uid : Z) (lease : SessionLease) (c : call) (r : redis)
  : bool * redis :=
  if (uid <=? 0) || lease_empty lease then (false, r)
  else executeTemplate (fun now r =>
    match GET now (leaseKey uid) r with
    | None => (Some true, r)
    | Some (VLease l) =>
        if lease_matches l lease then (Some true, DEL (leaseKey uid) r)
        else (Some false, r)
    | Some _ => (None, r)
    end) c r.

(** ** Chat authentication tokens *)

Definition PrefixChatAuthToken : string := "im:chatAuth:".
Definition chatAuthKey (uid : Z) : string := PrefixChatAuthToken +:+ to_string uid.

Definition setChatAuthToken (uid : Z) (token : string) (ttlSeconds : Z)
    (c : call) (r : redis) : bool * redis :=
  if (uid <=? 0) || str_empty token || (ttlSeconds <=? 0) then (false, r)
  else executeTemplate (fun now r =>
    (Some true, SETEX now (chatAuthKey uid) ttlSeconds (VStr token) r)) c r.

Definition validateChatAuthToken (uid : Z) (token : string) (c : call) (r : redis)
  : bool * redis :=
  if (uid <=? 0) || str_empty token then (false, r)
  else executeTemplate (fun now r =>
    (Some (bool_decide (GET now (chatAuthKey uid) r = Some (VStr token))), r)) c r.

(** ** Identifiers *)

Definition epoch : Z := 1672531200000.

(** [(ts << 22) | (machineId << 12) | seq] *)
Definition compose_id (ts machineId seq : Z) : Z :=
  Z.lor (Z.lor (Z.shiftl ts 22) (Z.shiftl machineId 12)) seq.

Definition id_key (key : string) (ts : Z) : string := key +:+ ":" +:+ to_string ts.

(** [generateId]: the calls are the successive attempts, each with its own
    clock; the recursion runs inside the processor of the outer call. *)
Fixpoint generateId (machineId : Z) (key : string) (calls : list call) (r : redis)
  : Z * redis :=
  match calls with
  | [] => (-1, r)
  | c :: calls =>
      let ts := c_now c - epoch in
      match c_fault c with
      | FBefore => (-1, r)
      | f =>
          match INCR (c_now c) (id_key key ts) r with
          | None => (-1, r)
          | Some (seq, r) =>
              if decide (f = FAfter) then (-1, r)
              else if seq >? 4095 then generateId machineId key calls r
              else (compose_id ts machineId seq, r)
          end
      end
  end.

Definition generateUserId (m : Z) := generateId m "im:userId".
Definition generateMsgId (m : Z) := generateId m "im:msgId".
Definition generateSessionId (m : Z) := generateId m "im:sessionId".
Definition generateGid (m : Z) := generateId m "im:gid".

(** ** Messages waiting for an acknowledgement *)

Definition userMsgKey (userId msgId : Z) : string :=
  "im:userMsgId" +:+ ":" +:+ to_string userId +:+ ":" +:+ to_string msgId.

Definition setUserMsgId (userId msgId expired : Z) (c : call) (r : redis) : bool * redis :=
  executeTemplate (fun now r =>
    if expired <=? 0 then (None, r)
    else (Some true, SETEX now (userMsgKey userId msgId) expired (VStr "1") r)) c r.

Definition getUserMsgId (userId msgId : Z) (c : call) (r : redis) : bool * redis :=
  executeTemplate (fun now r =>
    (Some (EXISTS now (userMsgKey userId msgId) r), r)) c r.

Definition expireUserMsgId (userId msgId expired : Z) (c : call) (r : redis)
  : bool * redis :=
  executeTemplate (fun now r =>
    let '(n, r) := EXPIRE now (userMsgKey userId msgId) expired r in
    (Some (n =? 1), r)) c r.

Definition msgKey (msgId : Z) : string := "im:msgId" +:+ ":" +:+ to_string msgId.

(** [None]: the value of a key that is not there is dereferenced. *)
Definition getMsgId (msgId : Z) (c : call) (r : redis) : option string * redis :=
  match c_fault c with
  | FNone => (match GET (c_now c) (msgKey msgId) r with Some (VStr s) => Some s | _ => None end, r)
  | _ => (Some "", r)
  end.

(** ** Users on line

    The text of the JSON object is the library's. *)
Section OnlineUsers.
Context {Info Value : Type} (toStyledString : Info -> string -> string) (parse : string -> option Value) (null : Value).
Context (uid_of : Info -> Z).

Definition onlineKey (uid : Z) : string := "im:user:" +:+ to_string uid.

Definition setOnlineUserInfo (userInfo : Info) (machineId : string) (c : call) (r : redis) : bool * redis :=
  executeTemplate (fun _ r =>
    (Some true, <[onlineKey (uid_of userInfo) := mkEntry (VStr (toStyledString userInfo machineId)) None]> r)) c r.

(** Without [executeTemplate]: an error is thrown to the caller.  (When the pool
    lends no connection the null pointer is used; that is left out.) *)
Definition getOnlineUserInfo (uid : Z) (c : call) (r : redis) : outcome string * redis :=
  match c_fault c with
  | FNone => (Ok match GET (c_now c) (onlineKey uid) r with Some (VStr s) => s | _ => "" end, r)
  | _ => (Throw "Failed to get reply", r)
  end.

Definition getOnlineUserInfoObject (uid : Z) (c : call) (r : redis) : outcome Value * redis :=
  match getOnlineUserInfo uid c r with
  | (Ok source, r) => (Ok (if str_empty source then null else default null (parse source)), r)
  | (Throw what, r) => (Throw what, r)
  end.

Definition delOnlineUserInfo (uid : Z) (c : call) (r : redis) : bool * redis :=
  executeTemplate (fun _ r => (Some true, DEL (onlineKey uid) r)) c r.

(** What was set is read back, and not after it was deleted. *)
Lemma online_roundtrip u m v now t r :
  toStyledString u m <> "" -> parse (toStyledString u m) = Some v ->
  let '(ok, r1) := setOnlineUserInfo u m (mkCall FNone now) r in
  let '(_, r2) := delOnlineUserInfo (uid_of u) (mkCall FNone t) r1 in
  ok = true /\
  (getOnlineUserInfoObject (uid_of u) (mkCall FNone t) r1).1 = Ok v /\
  (getOnlineUserInfoObject (uid_of u) (mkCall FNone t) r2).1 = Ok null.
Proof.
  intros Hne Hp. unfold setOnlineUserInfo, delOnlineUserInfo, executeTemplate, getOnlineUserInfoObject, getOnlineUserInfo. cbn.
  unfold GET, lookup_live, DEL. rewrite lookup_insert_eq, lookup_delete_eq. cbn.
  rewrite (proj2 (str_empty_false _)) by done. by rewrite Hp.
Qed.
End OnlineUsers.

(** ** Verification codes *)

Definition verify_prefix (email : string) : string := "im:verify:{" +:+ email +:+ "}:".
Definition codeKey (email : string) : string := verify_prefix email +:+ "code".
Definition cooldownKey (email : string) : string := verify_prefix email +:+ "cooldown".
Definition attemptsKey (email : string) : string := verify_prefix email +:+ "attempts".

Definition issueVerificationCode (email code : string) (ttlSeconds cooldownSeconds : Z)
    (c : call) (r : redis) : Z * redis :=
  if str_empty email || str_empty code || (ttlSeconds <=? 0) || (cooldownSeconds <=? 0)
  then (-1, r)
  else executeTemplate (fun now r =>
    if EXISTS now (cooldownKey email) r then (Some 0, r)
    else
      let r := SETEX now (codeKey email) ttlSeconds (VStr code) r in
      let r := SETEX now (cooldownKey email) cooldownSeconds (VStr "1") r in
      (Some 1, DEL (attemptsKey email) r)) c r.

(** The script of [consumeVerificationCode]. *)
Definition consume_script (email code : string) (maxAttempts : Z) (now : Z) (r : redis)
  : option Z * redis :=
  match GET now (codeKey email) r with
  | None => (Some 0, r)
  | Some current =>
      if decide (current = VStr code) then
        (Some 1, DEL (cooldownKey email) (DEL (attemptsKey email) (DEL (codeKey email) r)))
      else
        match INCR now (attemptsKey email) r with
        | None => (None, r)
        | Some (attempts, r) =>
            let ttl := TTL now (codeKey email) r in
            let r := if (attempts =? 1) && (0 <? ttl)
                     then (EXPIRE now (attemptsKey email) ttl r).2 else r in
            let r := if maxAttempts <=? attempts
                     then DEL (attemptsKey email) (DEL (codeKey email) r) else r in
            (Some 0, r)
        end
  end.

Definition consumeVerificationCode (email code : string) (maxAttempts : Z)
    (c : call) (r : redis) : bool * redis :=
  if str_empty email || str_empty code || (maxAttempts <=? 0) then (false, r)
  else executeTemplate (fun now r =>
    let '(o, r) := consume_script email code maxAttempts now r in
    ((fun n => n =? 1) <$> o, r)) c r.

Definition getVerificationCode (email : string) (c : call) (r : redis) : string * redis :=
  if str_empty email then ("", r)
  else executeTemplate (fun now r =>
    (Some match GET now (codeKey email) r with Some (VStr s) => s | _ => "" end, r)) c r.

Definition clearVerificationCode (email expectedCode : string) (c : call) (r : redis)
  : bool * redis :=
  if str_empty email || str_empty expectedCode then (false, r)
  else executeTemplate (fun now r =>
    if decide (GET now (codeKey email) r = Some (VStr expectedCode)) then
      (Some true, DEL (cooldownKey email) (DEL (attemptsKey email) (DEL (codeKey email) r)))
    else (Some false, r)) c r.

(** ** Key and command lemmas *)

Lemma leaseKey_ne_generationKey u v : leaseKey u <> generationKey v.
Proof. done. Qed.

Lemma leaseKey_inj u v : leaseKey u = leaseKey v -> u = v.
Proof. intros H%String.app_inj. by apply pretty_Z_inj. Qed.

Lemma generationKey_inj u v : generationKey u = generationKey v -> u = v.
Proof. intros H%String.app_inj. by apply pretty_Z_inj. Qed.

Lemma id_key_inj key t t' : id_key key t = id_key key t' -> t = t'.
Proof.
  unfold id_key. intros H%String.app_inj. injection H as H. by apply pretty_Z_inj.
Qed.

Lemma codeKey_ne_attemptsKey e : codeKey e <> attemptsKey e.
Proof. by intros H%String.app_inj. Qed.
Lemma codeKey_ne_cooldownKey e : codeKey e <> cooldownKey e.
Proof. by intros H%String.app_inj. Qed.
Lemma cooldownKey_ne_attemptsKey e : cooldownKey e <> attemptsKey e.
Proof. by intros H%String.app_inj. Qed.

Create HintDb keys.
#[export] Hint Resolve leaseKey_ne_generationKey codeKey_ne_attemptsKey
  codeKey_ne_cooldownKey cooldownKey_ne_attemptsKey not_eq_sym : keys.

Lemma lookup_live_insert_eq now k e r :
  lookup_live now k (<[k := e]> r) = if live now e then Some e else None.
Proof. unfold lookup_live. by rewrite lookup_insert_eq. Qed.

Lemma lookup_live_insert_ne now k k' e r :
  k <> k' -> lookup_live now k (<[k' := e]> r) = lookup_live now k r.
Proof. intros. unfold lookup_live. by rewrite lookup_insert_ne by congruence. Qed.

Lemma lookup_live_delete_eq now k r : lookup_live now k (delete k r) = None.
Proof. unfold lookup_live. by rewrite lookup_delete_eq. Qed.

Lemma lookup_live_delete_ne now k k' r :
  k <> k' -> lookup_live now k (delete k' r) = lookup_live now k r.
Proof. intros. unfold lookup_live. by rewrite lookup_delete_ne by congruence. Qed.

Lemma lookup_live_Some now k r e :
  lookup_live now k r = Some e <-> r !! k = Some e /\ live now e = true.
Proof.
  unfold lookup_live. split.
  - destruct (r !! k) as [e'|]; [|done]. destruct (live now e') eqn:?; [|done].
    by intros [= <-].
  - by intros [-> ->].
Qed.

Create HintDb redis.
#[export] Hint Rewrite lookup_live_insert_eq lookup_live_delete_eq : redis.
#[export] Hint Rewrite lookup_live_insert_ne lookup_live_delete_ne
  using (auto with keys) : redis.

Lemma INCR_frame now k k' r n r' :
  INCR now k r = Some (n, r') -> k <> k' -> r' !! k' = r !! k'.
Proof.
  unfold INCR. intros H Hk. destruct (lookup_live now k r) as [[[|z|] t]|]; try done.
  - destruct (z <? 2 ^ 63 - 1); simplify_eq/=. by rewrite lookup_insert_ne.
  - simplify_eq/=. by rewrite lookup_insert_ne.
Qed.

Lemma EXPIRE_frame now k k' s r : k <> k' -> (EXPIRE now k s r).2 !! k' = r !! k'.
Proof.
  unfold EXPIRE. intros Hk. destruct (lookup_live now k r); [|done].
  destruct (s <=? 0); simpl; by rewrite ?lookup_delete_ne, ?lookup_insert_ne.
Qed.

(** ** Leases: generations fence out older connections *)

Inductive lease_op :=
  | BindOp (gateway instance connection : string) (ttl : Z)
  | RefreshOp (l : SessionLease) (ttl : Z)
  | ClearOp (l : SessionLease)
  | GetOp.

(** The effect of one operation of a user on the store. *)
Definition lease_step (o : Z * lease_op * call) (r : redis) : redis :=
  let '(uid, op, c) := o in
  match op with
  | BindOp g i cn t => (bindSessionLease uid g i cn t c r).2
  | RefreshOp l t => (refreshSessionLease uid l t c r).2
  | ClearOp l => (clearSessionLease uid l c r).2
  | GetOp => (getSessionLease uid c r).2
  end.

(** Any interleaving of the operations of any users. *)
Definition lease_run (os : list (Z * lease_op * call)) (r : redis) : redis :=
  foldl (fun r o => lease_step o r) r os.

(** The generation counter of [uid]. *)
Definition gen_counter (uid : Z) (r : redis) : option Z :=
  match r !! generationKey uid with
  | None => Some 0
  | Some (mkEntry (VInt n) None) => Some n
  | Some _ => None
  end.

(** The lease stored for [uid], expired or not. *)
Definition stored_lease (uid : Z) (r : redis) : option SessionLease :=
  match r !! leaseKey uid with
  | Some (mkEntry (VLease l) _) => Some l
  | _ => None
  end.

(** The counter is a counter without expiry; what is stored is a lease whose
    generation the counter has given out. *)
Definition lease_inv (uid n : Z) (r : redis) : Prop :=
  0 <= n /\ gen_counter uid r = Some n /\
  forall e, r !! leaseKey uid = Some e ->
    exists l, val e = VLease l /\ 1 <= generation l <= n.

Lemma lease_inv_empty uid : lease_inv uid 0 ∅.
Proof. split; [lia|]. split; [done|]. intros e H. by rewrite lookup_empty in H. Qed.

Lemma INCR_counter uid n now r :
  gen_counter uid r = Some n ->
  INCR now (generationKey uid) r =
  if n <? 2 ^ 63 - 1 then Some (n + 1, <[generationKey uid := mkEntry (VInt (n + 1)) None]> r)
  else None.
Proof.
  unfold gen_counter, INCR, lookup_live.
  destruct (r !! generationKey uid) as [[[|z|] [t|]]|]; intros H; simplify_eq; done.
Qed.

Lemma lease_matches_true a b : lease_matches a b = true <-> a = b.
Proof.
  unfold lease_matches. rewrite !andb_true_iff, !bool_decide_eq_true.
  destruct a, b; simpl. split.
  - intros [[[-> ->] ->] Hg]. apply pretty_Z_inj in Hg. by rewrite Hg.
  - by intros [= -> -> -> ->].
Qed.

(** An operation on a lease that is not the stored one leaves the store alone. *)
Lemma refresh_other uid l ttl c r :
  (forall e, r !! leaseKey uid = Some e -> exists l', val e = VLease l' /\ l' <> l) ->
  refreshSessionLease uid l ttl c r = (false, r).
Proof.
  intros Hr. unfold refreshSessionLease. destruct (_ || _); [done|].
  unfold executeTemplate, GET, lookup_live.
  destruct (r !! leaseKey uid) as [[v t]|] eqn:E; [|by destruct (c_fault c)].
  destruct (Hr _ eq_refl) as (l' & Hv & Hne). simpl in Hv. subst v.
  destruct (live _ _); simpl; [|by destruct (c_fault c)].
  destruct (lease_matches l' l) eqn:Em.
  - by apply lease_matches_true in Em.
  - by destruct (c_fault c).
Qed.

Lemma clear_other uid l c r :
  (forall e, r !! leaseKey uid = Some e -> exists l', val e = VLease l' /\ l' <> l) ->
  (clearSessionLease uid l c r).2 = r.
Proof.
  intros Hr. unfold clearSessionLease. destruct (_ || _); [done|].
  unfold executeTemplate, GET, lookup_live.
  destruct (r !! leaseKey uid) as [[v t]|] eqn:E; [|by destruct (c_fault c)].
  destruct (Hr _ eq_refl) as (l' & Hv & Hne). simpl in Hv. subst v.
  destruct (live _ _); simpl; [|by destruct (c_fault c)].
  destruct (lease_matches l' l) eqn:Em.
  - by apply lease_matches_true in Em.
  - by destruct (c_fault c).
Qed.

Lemma get_lease_pure uid c r : (getSessionLease uid c r).2 = r.
Proof.
  unfold getSessionLease, executeTemplate. destruct (_ <=? 0); [done|].
  destruct (GET _ _ _) as [[]|]; by destruct (c_fault c).
Qed.

(** What a bind can do: nothing, or store a lease with the next generation. *)
Lemma bind_cases uid g i cn t c r n :
  gen_counter uid r = Some n ->
  let '(res, r') := bindSessionLease uid g i cn t c r in
  (res = -1 /\ r' = r) \/
  ((res = -1 \/ res = n + 1) /\
   r' = SETEX (c_now c) (leaseKey uid) t (VLease (mkLease g i cn (n + 1)))
          (<[generationKey uid := mkEntry (VInt (n + 1)) None]> r) /\
   lease_empty (mkLease g i cn 1) = false).
Proof.
  intros Hn. unfold bindSessionLease.
  destruct ((uid <=? 0) || str_empty g || str_empty i || str_empty cn || (t <=? 0)) eqn:Eg;
    [by left|].
  assert (lease_empty (mkLease g i cn 1) = false) as He.
  { unfold lease_empty. simpl. by repeat (apply orb_false_iff in Eg as [Eg ?]; simplify_eq/=);
      repeat (apply orb_false_iff; split). }
  unfold executeTemplate. rewrite (INCR_counter _ _ _ _ Hn).
  destruct (n <? 2 ^ 63 - 1).
  - destruct (c_fault c); [right; auto | by left | right; auto].
  - destruct (c_fault c); by left.
Qed.

(** Operations of other users touch neither key. *)
Lemma lease_step_frame u op c r k :
  k <> leaseKey u -> k <> generationKey u -> lease_step (u, op, c) r !! k = r !! k.
Proof.
  intros Hl Hg. destruct op as [g i cn t|l t|l|]; simpl.
  - unfold bindSessionLease, executeTemplate. destruct (_ || _); [done|].
    destruct (INCR _ _ _) as [[z r']|] eqn:E; [|by destruct (c_fault c)].
    pose proof (INCR_frame _ _ k _ _ _ E) as Hf. unfold SETEX.
    destruct (c_fault c); simpl; [|done|];
      rewrite lookup_insert_ne by done; apply Hf; congruence.
  - unfold refreshSessionLease, executeTemplate. destruct (_ || _); [done|].
    destruct (GET _ _ _) as [[| |l']|]; try by destruct (c_fault c).
    destruct (lease_matches _ _); [|by destruct (c_fault c)].
    pose proof (EXPIRE_frame (c_now c) (leaseKey u) k t r) as Hf.
    destruct (EXPIRE _ _ _ _) as [z r']. simpl in Hf.
    destruct (c_fault c); simpl; auto.
  - unfold clearSessionLease, executeTemplate. destruct (_ || _); [done|].
    destruct (GET _ _ _) as [[| |l']|]; try by destruct (c_fault c).
    destruct (lease_matches _ _); [|by destruct (c_fault c)].
    unfold DEL. destruct (c_fault c); simpl; [|done|]; by rewrite lookup_delete_ne.
  - by rewrite get_lease_pure.
Qed.

(** A step of [uid] other than a bind keeps the stored value or removes it. *)
Lemma lease_step_weakens uid op c r :
  (forall g i cn t, op <> BindOp g i cn t) ->
  lease_step (uid, op, c) r !! generationKey uid = r !! generationKey uid /\
  forall e, lease_step (uid, op, c) r !! leaseKey uid = Some e ->
    exists e0, r !! leaseKey uid = Some e0 /\ val e = val e0.
Proof.
  intros Hb. destruct op as [g i cn t|l t|l|]; simpl.
  - by destruct (Hb g i cn t).
  - unfold refreshSessionLease, executeTemplate. destruct (_ || _); [by eauto|].
    destruct (GET _ _ _) as [[| |l']|]; try by (destruct (c_fault c); eauto).
    destruct (lease_matches _ _); [|by destruct (c_fault c); eauto].
    assert (forall e, (EXPIRE (c_now c) (leaseKey uid) t r).2 !! leaseKey uid = Some e ->
      exists e0, r !! leaseKey uid = Some e0 /\ val e = val e0) as HE.
    { unfold EXPIRE. destruct (lookup_live _ _ _) as [e0|] eqn:El; [|by eauto].
      apply lookup_live_Some in El as [El _].
      destruct (t <=? 0); simpl; intros e; [by rewrite lookup_delete_eq|].
      rewrite lookup_insert_eq. intros [= <-]. eauto. }
    pose proof (EXPIRE_frame (c_now c) (leaseKey uid) (generationKey uid) t r) as Hf.
    destruct (EXPIRE _ _ _ _) as [z r']. simpl in *.
    destruct (c_fault c); simpl; eauto.
  - unfold clearSessionLease, executeTemplate. destruct (_ || _); [by eauto|].
    destruct (GET _ _ _) as [[| |l']|]; try by (destruct (c_fault c); eauto).
    destruct (lease_matches _ _); [|by destruct (c_fault c); eauto].
    assert (forall e, DEL (leaseKey uid) r !! leaseKey uid = Some e -> False)
      by (intros e; unfold DEL; by rewrite lookup_delete_eq).
    unfold DEL in *. destruct (c_fault c); simpl; (split; [|naive_solver]);
      by rewrite ?lookup_delete_ne.
  - rewrite get_lease_pure. eauto.
Qed.

(** What any step does to the keys of [uid]. *)
Lemma lease_step_cases uid n o r :
  gen_counter uid r = Some n ->
  (gen_counter uid (lease_step o r) = Some n /\
   forall e, lease_step o r !! leaseKey uid = Some e ->
     exists e0, r !! leaseKey uid = Some e0 /\ val e = val e0) \/
  (gen_counter uid (lease_step o r) = Some (n + 1) /\
   exists e l, lease_step o r !! leaseKey uid = Some e /\ val e = VLease l /\
     generation l = n + 1).
Proof.
  intros Hn. destruct o as [[u op] c]. destruct (decide (u = uid)) as [->|Hu].
  - destruct op as [g i cn t| | |].
    2-4: left; edestruct lease_step_weakens as [Hg Hl];
         [|split; [unfold gen_counter; rewrite Hg; exact Hn|exact Hl]]; done.
    pose proof (bind_cases uid g i cn t c r n Hn) as Hb. simpl.
    destruct (bindSessionLease _ _ _ _ _ _ _) as [res r']. simpl.
    destruct Hb as [[-> ->]|(_ & -> & _)]; [left; by eauto|].
    right. unfold gen_counter, SETEX.
    rewrite lookup_insert_ne, !lookup_insert_eq by done.
    split; [done|]. eexists _, _. done.
  - left. unfold gen_counter.
    assert (leaseKey uid <> leaseKey u) by (intros ?%leaseKey_inj; congruence).
    assert (generationKey uid <> generationKey u) by (intros ?%generationKey_inj; congruence).
    rewrite !lease_step_frame by done. eauto.
Qed.

(** After a bind whose generation exceeds [g], only leases of later generations
    are stored. *)
Definition fenced (uid g : Z) (r : redis) : Prop :=
  exists n, g <= n /\ lease_inv uid n r /\
  forall l, stored_lease uid r = Some l -> g < generation l.

Lemma lease_step_inv uid n o r :
  lease_inv uid n r -> exists n', n <= n' /\ lease_inv uid n' (lease_step o r).
Proof.
  intros (Hn0 & Hn & Hl). destruct (lease_step_cases uid n o r Hn) as [[Hc He]|(Hc & e & l & He & Hv & Hg)].
  - exists n. split; [lia|]. split; [done|]. split; [done|].
    intros e Hs. destruct (He e Hs) as (e0 & H0 & ->). by apply Hl.
  - exists (n + 1). split; [lia|]. split; [lia|]. split; [done|].
    intros e' Hs. simplify_eq. exists l. split; [done|lia].
Qed.

Lemma lease_run_inv uid n os r :
  lease_inv uid n r -> exists n', n <= n' /\ lease_inv uid n' (lease_run os r).
Proof.
  revert n r. induction os as [|o os IH]; intros n r Hinv; [by exists n|].
  destruct (lease_step_inv uid n o r Hinv) as (n1 & H1 & Hinv1).
  destruct (IH n1 _ Hinv1) as (n2 & H2 & Hinv2). exists n2. split; [lia|done].
Qed.

Lemma fenced_step uid g o r : fenced uid g r -> fenced uid g (lease_step o r).
Proof.
  intros (n & Hgn & Hinv & Hf). pose proof Hinv as (Hn0 & Hn & Hl).
  destruct (lease_step_inv uid n o r Hinv) as (n' & Hn' & Hinv').
  exists n'. split; [lia|]. split; [done|]. unfold stored_lease. intros l.
  destruct (lease_step_cases uid n o r Hn) as [[Hc He]|(Hc & e & l1 & He & Hv & Hg)].
  - destruct (lease_step o r !! leaseKey uid) as [[v t]|] eqn:E; [|discriminate].
    destruct (He _ eq_refl) as (e0 & H0 & Hv). simpl in Hv. subst v.
    destruct (Hl e0 H0) as (l0 & Hv0 & _). rewrite Hv0. intros [= <-].
    apply Hf. unfold stored_lease. rewrite H0. destruct e0; simpl in *. by subst.
  - rewrite He. destruct e; simpl in *. subst. intros [= <-]. lia.
Qed.

Lemma fenced_run uid g os r : fenced uid g r -> fenced uid g (lease_run os r).
Proof.
  revert r. induction os as [|o os IH]; intros r H; [done|]. apply IH, fenced_step, H.
Qed.

(** What fencing means to the holder of an old lease. *)
Lemma fenced_old_lease uid g old r :
  fenced uid g r -> generation old <= g -> 0 < generation old ->
  forall c ttl,
    (getSessionLease uid c r).1 <> old /\
    refreshSessionLease uid old ttl c r = (false, r) /\
    (clearSessionLease uid old c r).2 = r.
Proof.
  intros (n & Hgn & (Hn0 & Hn & Hl) & Hf) Hold Hpos c ttl.
  assert (forall e, r !! leaseKey uid = Some e ->
    exists l', val e = VLease l' /\ l' <> old) as Hne.
  { intros e He. destruct (Hl e He) as (l & Hv & _). exists l. split; [done|].
    intros ->. assert (g < generation old); [|lia].
    apply Hf. unfold stored_lease. rewrite He. destruct e; simpl in *. by subst. }
  split; [|split; [by apply refresh_other | by apply clear_other]].
  unfold getSessionLease, executeTemplate, GET, lookup_live.
  destruct (uid <=? 0); [intros <-; simpl in Hpos; lia|].
  destruct (r !! leaseKey uid) as [[v t]|] eqn:E; simpl.
  - destruct (Hne _ eq_refl) as (l & Hv & Hlne). simpl in Hv. subst v.
    destruct (live _ _), (c_fault c); simpl; try done; intros <-; simpl in Hpos; lia.
  - destruct (c_fault c); simpl; intros <-; simpl in Hpos; lia.
Qed.

(** Two successful binds of one user, anything before, between and after. *)
Lemma superseded_fenced uid n0 r0 h1 g i cn t c h2 g' i' cn' t' c' h3 :
  lease_inv uid n0 r0 ->
  let '(gen1, r1) := bindSessionLease uid g i cn t c (lease_run h1 r0) in
  let '(gen2, r2) := bindSessionLease uid g' i' cn' t' c' (lease_run h2 r1) in
  0 < gen1 -> 0 < gen2 ->
  gen1 < gen2 /\ exists k, gen1 <= k /\ fenced uid k (lease_run h3 r2).
Proof.
  intros Hinv0. destruct (lease_run_inv uid n0 h1 r0 Hinv0) as (n1 & _ & Hinv1).
  pose proof (bind_cases uid g i cn t c _ n1 (proj1 (proj2 Hinv1))) as Hb1.
  destruct (lease_step_inv uid n1 (uid, BindOp g i cn t, c) _ Hinv1) as (n2 & Hn2 & Hinv2).
  simpl in Hinv2. destruct (bindSessionLease _ _ _ _ _ c _) as [gen1 r1]. simpl in Hinv2.
  destruct (lease_run_inv uid n2 h2 r1 Hinv2) as (n3 & Hn3 & Hinv3).
  pose proof (bind_cases uid g' i' cn' t' c' _ n3 (proj1 (proj2 Hinv3))) as Hb2.
  destruct (bindSessionLease _ _ _ _ _ c' _) as [gen2 r2]. cbv zeta. intros Hg1 Hg2.
  destruct Hb1 as [[-> _]|([->| ->] & -> & _)]; try lia.
  destruct Hb2 as [[-> _]|([->| ->] & -> & _)]; try lia.
  assert (n2 = n1 + 1) as ->.
  { destruct Hinv2 as (_ & H & _). unfold gen_counter, SETEX in H.
    rewrite lookup_insert_ne, lookup_insert_eq in H by done. by injection H. }
  split; [lia|]. exists n3. split; [lia|]. apply fenced_run. exists (n3 + 1). split; [lia|]. split.
  - split; [destruct Hinv3; lia|]. unfold gen_counter, SETEX. split.
    + by rewrite lookup_insert_ne, lookup_insert_eq by done.
    + intros e. rewrite lookup_insert_eq. intros [= <-].
      eexists. split; [done|]. simpl. destruct Hinv3. lia.
  - unfold stored_lease, SETEX. rewrite lookup_insert_eq. intros l [= <-]. simpl. lia.
Qed.

(** C8: a lease that a later bind has replaced is dead for good.  Whatever the
    users do in between and afterwards, whatever fails and whatever the clock
    shows: generations given to one user grow, and once a bind has returned
    [gen2], the lease of an earlier bind is never read back, cannot be
    refreshed, and cleaning it up changes nothing.  So a connection that was
    superseded cannot keep alive or tear down its successor's session. *)
Theorem lease_fencing uid n0 r0 h1 g i cn t c h2 g' i' cn' t' c' h3 :
  lease_inv uid n0 r0 ->
  let '(gen1, r1) := bindSessionLease uid g i cn t c (lease_run h1 r0) in
  let '(gen2, r2) := bindSessionLease uid g' i' cn' t' c' (lease_run h2 r1) in
  let r := lease_run h3 r2 in
  let old := mkLease g i cn gen1 in
  0 < gen1 -> 0 < gen2 ->
  gen1 < gen2 /\
  forall c0 ttl,
    (getSessionLease uid c0 r).1 <> old /\
    refreshSessionLease uid old ttl c0 r = (false, r) /\
    (clearSessionLease uid old c0 r).2 = r.
Proof.
  intros Hinv0. pose proof (superseded_fenced uid n0 r0 h1 g i cn t c h2 g' i' cn' t' c' h3 Hinv0) as Hs.
  destruct (bindSessionLease _ _ _ _ _ c _) as [gen1 r1].
  destruct (bindSessionLease _ _ _ _ _ c' _) as [gen2 r2]. cbv zeta. intros Hg1 Hg2.
  destruct (Hs Hg1 Hg2) as (Hlt & k & Hk & Hf). split; [done|]. by apply (fenced_old_lease uid k).
Qed.

Definition ok_at (t : Z) : call := mkCall FNone t.

Lemma lease_fencing_witness :
  let r1 := (bindSessionLease 7 "gw-a" "i1" "c1" 60 (ok_at 0) ∅).2 in
  let r2 := (bindSessionLease 7 "gw-b" "i2" "c2" 60 (ok_at 10) r1).2 in
  1 < 2 /\ forall c0 ttl,
    (getSessionLease 7 c0 r2).1 <> mkLease "gw-a" "i1" "c1" 1 /\
    refreshSessionLease 7 (mkLease "gw-a" "i1" "c1" 1) ttl c0 r2 = (false, r2) /\
    (clearSessionLease 7 (mkLease "gw-a" "i1" "c1" 1) c0 r2).2 = r2.
Proof.
  exact (lease_fencing 7 0 ∅ [] "gw-a" "i1" "c1" 60 (ok_at 0) []
           "gw-b" "i2" "c2" 60 (ok_at 10) [] (lease_inv_empty 7) eq_refl eq_refl).
Defined.

(** ** The current lease is not disturbed *)

(** What others may do while [l] is the lease of [uid]: anything on other users'
    leases, reads, and refreshes and clean-ups of other leases. *)
Definition bystander (uid : Z) (l : SessionLease) (o : Z * lease_op * call) : Prop :=
  let '(u, op, _) := o in
  u <> uid \/
  match op with
  | BindOp _ _ _ _ => False
  | RefreshOp l' _ | ClearOp l' => l' <> l
  | GetOp => True
  end.

Lemma bystander_step uid l o t r :
  r !! leaseKey uid = Some (mkEntry (VLease l) t) -> bystander uid l o ->
  lease_step o r !! leaseKey uid = Some (mkEntry (VLease l) t).
Proof.
  destruct o as [[u op] c]. intros Hr [Hu|Ho].
  { rewrite lease_step_frame; [done| |done]. intros ?%leaseKey_inj. congruence. }
  destruct (decide (u = uid)) as [->|Hu]; cycle 1.
  { rewrite lease_step_frame; [done| |done]. intros ?%leaseKey_inj. congruence. }
  assert (forall l', l' <> l -> forall e, r !! leaseKey uid = Some e ->
    exists l0, val e = VLease l0 /\ l0 <> l') as Hne.
  { intros l' Hl' e He. rewrite Hr in He. injection He as <-. exists l. by split. }
  destruct op as [g i cn s|l' s|l'|]; simpl in *; [done|..].
  - by rewrite refresh_other by auto.
  - by rewrite clear_other by auto.
  - by rewrite get_lease_pure.
Qed.

(** The lease just bound belongs to its connection until it runs out: as
    long as no one binds again, whatever older connections and other users do,
    the owner reads its own lease back and its refresh succeeds. *)
Theorem lease_survives uid n0 r0 g i cn ttl t os t' s :
  lease_inv uid n0 r0 ->
  let '(gen, r1) := bindSessionLease uid g i cn ttl (ok_at t) r0 in
  let l := mkLease g i cn gen in
  0 < gen -> Forall (bystander uid l) os -> t' <= t + 1000 * ttl -> 0 < s ->
  (getSessionLease uid (ok_at t') (lease_run os r1)).1 = l /\
  (refreshSessionLease uid l s (ok_at t') (lease_run os r1)).1 = true.
Proof.
  intros (Hn0 & Hn & _).
  pose proof (bind_cases uid g i cn ttl (ok_at t) r0 n0 Hn) as Hb.
  assert (uid <= 0 -> (bindSessionLease uid g i cn ttl (ok_at t) r0).1 = -1) as Huid.
  { intros Hu. unfold bindSessionLease. by rewrite (proj2 (Z.leb_le uid 0) Hu). }
  destruct (bindSessionLease _ _ _ _ _ _ _) as [gen r1]. cbv zeta. simpl in Huid.
  intros Hgen Hos Ht Hs.
  destruct Hb as [[-> _]|([->| ->] & -> & He)]; try lia.
  set (l := mkLease g i cn (n0 + 1)).
  set (r1 := SETEX _ _ _ _ _).
  assert (lease_run os r1 !! leaseKey uid = Some (mkEntry (VLease l) (Some (t + 1000 * ttl)))) as Hl.
  { assert (r1 !! leaseKey uid = Some (mkEntry (VLease l) (Some (t + 1000 * ttl)))) as H1
      by apply lookup_insert_eq.
    revert H1. generalize r1. clear -Hos. induction Hos as [|o os Ho Hos IH]; intros r H1; [done|].
    apply IH. by apply bystander_step. }
  assert (lookup_live t' (leaseKey uid) (lease_run os r1) =
          Some (mkEntry (VLease l) (Some (t + 1000 * ttl)))) as Hll.
  { apply lookup_live_Some. split; [done|]. apply Z.leb_le. done. }
  assert ((uid <=? 0) = false) as Hu by (apply Z.leb_gt; lia).
  split.
  - unfold getSessionLease, executeTemplate, GET. rewrite Hu. simpl. by rewrite Hll.
  - unfold refreshSessionLease, executeTemplate, GET, EXPIRE. rewrite Hu.
    assert (lease_empty l = false) as ->.
    { unfold lease_empty in *. simpl in *. rewrite orb_false_r in He. rewrite He. simpl.
      apply Z.leb_gt. lia. }
    rewrite (proj2 (Z.leb_gt s 0)) by lia. simpl. rewrite Hll. simpl.
    by rewrite (proj2 (lease_matches_true l l) eq_refl).
Qed.

Lemma lease_survives_witness :
  let r1 := (bindSessionLease 7 "gw" "i2" "c2" 60 (ok_at 10) ∅).2 in
  let l := mkLease "gw" "i2" "c2" 1 in
  let os := [(7, ClearOp (mkLease "gw" "i1" "c1" 1), ok_at 20)] in
  (getSessionLease 7 (ok_at 30) (lease_run os r1)).1 = l /\
  (refreshSessionLease 7 l 60 (ok_at 30) (lease_run os r1)).1 = true.
Proof.
  refine (lease_survives 7 0 ∅ "gw" "i2" "c2" 60 10
            [(7, ClearOp (mkLease "gw" "i1" "c1" 1), ok_at 20)] 30 60 (lease_inv_empty 7)
            eq_refl _ _ eq_refl).
  - constructor; [right; vm_compute; congruence | constructor].
  - vm_compute. congruence.
Defined.

(** ** Identifiers are unique *)

(** The counters of a key family: absent, or a number without expiry. *)
Definition id_count (key : string) (ts : Z) (r : redis) : option Z :=
  match r !! id_key key ts with
  | None => Some 0
  | Some (mkEntry (VInt n) None) => if 0 <=? n then Some n else None
  | Some _ => None
  end.

Definition id_inv (key : string) (r : redis) : Prop :=
  forall ts, is_Some (id_count key ts r).

Lemma id_inv_empty key : id_inv key ∅.
Proof. intros ts. by exists 0. Qed.

Lemma compose_id_arith ts m seq :
  0 <= m < 2 ^ 10 -> 0 <= seq < 2 ^ 12 ->
  compose_id ts m seq = ts * 2 ^ 22 + m * 2 ^ 12 + seq.
Proof.
  intros Hm Hs. unfold compose_id. rewrite !Z.shiftl_mul_pow2 by lia.
  assert (Hlor : forall x y n, 0 <= n -> 0 <= y < 2 ^ n -> Z.lor (x * 2 ^ n) y = x * 2 ^ n + y).
  { intros x y n Hn Hy. rewrite <- Z.add_lor_land.
    enough (Z.land (x * 2 ^ n) y = 0) by lia.
    rewrite <- (Z.mod_small y (2 ^ n)) by lia.
    rewrite <- Z.land_ones by lia. rewrite Z.land_assoc, (Z.land_comm _ y).
    rewrite <- Z.land_assoc, Z.land_ones, Z.mod_mul by lia. apply Z.land_0_r. }
  rewrite (Hlor ts) by lia.
  replace (ts * 2 ^ 22 + m * 2 ^ 12) with ((ts * 2 ^ 10 + m) * 2 ^ 12) by lia.
  by rewrite Hlor.
Qed.

Lemma compose_id_inj ts m seq ts' m' seq' :
  0 <= m < 2 ^ 10 -> 0 <= m' < 2 ^ 10 -> 0 <= seq < 2 ^ 12 -> 0 <= seq' < 2 ^ 12 ->
  compose_id ts m seq = compose_id ts' m' seq' -> ts = ts' /\ m = m' /\ seq = seq'.
Proof. intros. rewrite !compose_id_arith in * by done. lia. Qed.

Lemma INCR_id key ts now r n :
  id_count key ts r = Some n ->
  0 <= n /\
  (INCR now (id_key key ts) r = None /\ 2 ^ 63 - 1 <= n \/
   exists r', INCR now (id_key key ts) r = Some (n + 1, r') /\
     forall ts', id_count key ts' r' =
       if decide (ts' = ts) then Some (n + 1) else id_count key ts' r).
Proof.
  unfold id_count, INCR, lookup_live. intros Hn.
  assert (0 <= n /\ (r !! id_key key ts = None /\ n = 0 \/
          r !! id_key key ts = Some (mkEntry (VInt n) None))) as [Hn0 Hc].
  { destruct (r !! id_key key ts) as [[[|z|] [t|]]|]; simplify_eq; [|by auto with lia].
    destruct (0 <=? z) eqn:?; simplify_eq. boolp. auto. }
  split; [done|].
  assert (forall m t, 0 <= m ->
    match (<[id_key key ts := mkEntry (VInt m) None]> r) !! id_key key t with
    | None => Some 0
    | Some (mkEntry (VInt n) None) => if 0 <=? n then Some n else None
    | Some _ => None
    end = if decide (t = ts) then Some m
          else match r !! id_key key t with
               | None => Some 0
               | Some (mkEntry (VInt n) None) => if 0 <=? n then Some n else None
               | Some _ => None
               end) as Hins.
  { intros m t Hm. case_decide as Ht.
    - subst. rewrite lookup_insert_eq. by rewrite (proj2 (Z.leb_le 0 m)) by lia.
    - rewrite lookup_insert_ne; [done|]. intros ?%id_key_inj. congruence. }
  destruct Hc as [[-> ->]| ->]; simpl.
  - right. eexists. split; [done|]. intros. apply Hins. lia.
  - destruct (n <? 2 ^ 63 - 1) eqn:?; boolp.
    + right. eexists. split; [done|]. intros. apply Hins. lia.
    + left. split; [done|lia].
Qed.

(** What one request can return, against the counters before and after it. *)
Definition id_result (key : string) (m : Z) (calls : list call) (r : redis)
    (i : Z) (r' : redis) : Prop :=
  id_inv key r' /\
  (forall ts n n', id_count key ts r = Some n -> id_count key ts r' = Some n' -> n <= n') /\
  (i = -1 \/
   exists c seq n n', c ∈ calls /\ i = compose_id (c_now c - epoch) m seq /\ 1 <= seq <= 4095 /\
     id_count key (c_now c - epoch) r = Some n /\ n < seq /\
     id_count key (c_now c - epoch) r' = Some n' /\ seq <= n').

Lemma id_result_fail key m calls r : id_inv key r -> id_result key m calls r (-1) r.
Proof. intros H. split; [done|]. split; [|by left]. intros. by simplify_eq. Qed.

(** One increment followed by a request is a request. *)
Lemma id_result_step key m c calls r r' i r'' :
  id_inv key r -> id_inv key r' ->
  (forall t a b, id_count key t r = Some a -> id_count key t r' = Some b -> a <= b) ->
  id_result key m calls r' i r'' -> id_result key m (c :: calls) r i r''.
Proof.
  intros Hinv Hinv' Hmono (H1 & H2 & H3). split; [done|]. split.
  - intros t a b Ha Hb. destruct (Hinv' t) as [x Hx].
    specialize (Hmono _ _ _ Ha Hx). specialize (H2 _ _ _ Hx Hb). lia.
  - destruct H3 as [->|(c' & seq & a & b & Hc & -> & Hs & Ha & Has & Hb & Hbs)]; [by left|].
    right. exists c', seq. destruct (Hinv (c_now c' - epoch)) as [x Hx].
    exists x, b. specialize (Hmono _ _ _ Hx Ha). repeat split; try done; try lia.
    by apply elem_of_cons; right.
Qed.

Lemma generateId_spec m key calls r :
  id_inv key r ->
  let '(i, r') := generateId m key calls r in id_result key m calls r i r'.
Proof.
  revert r. induction calls as [|c calls IH]; intros r Hinv; cbn [generateId].
  { by apply id_result_fail. }
  set (ts := c_now c - epoch). destruct (Hinv ts) as [n Hn].
  destruct (INCR_id key ts (c_now c) r n Hn) as [Hn0 [[-> _]|(r' & -> & Hr')]].
  { destruct (c_fault c); by apply id_result_fail. }
  assert (id_inv key r') as Hinv'
    by (intros t; rewrite Hr'; case_decide; [by eexists|apply Hinv]).
  assert (forall t a b, id_count key t r = Some a -> id_count key t r' = Some b -> a <= b)
    as Hmono by (intros t a b Ha; rewrite Hr'; case_decide; intros; simplify_eq; lia).
  assert (forall i r'', id_result key m calls r' i r'' -> id_result key m (c :: calls) r i r'')
    as Hstep by (intros; by eapply id_result_step).
  destruct (c_fault c); [|by apply id_result_fail|].
  2: { rewrite decide_True by done. by apply Hstep, id_result_fail. }
  rewrite decide_False by done. destruct (n + 1 >? 4095) eqn:E.
  - specialize (IH r' Hinv'). destruct (generateId m key calls r') as [i r''].
    by apply Hstep.
  - split; [done|]. split; [done|]. right. exists c, (n + 1), n, (n + 1).
    rewrite Hr', decide_True by done. rewrite Z.gtb_ltb in E. boolp.
    repeat split; try done; try lia. by apply elem_of_cons; left.
Qed.

(** A history of requests, from any nodes, for one kind of identifier. *)
Fixpoint id_run (key : string) (reqs : list (Z * list call)) (r : redis) : list Z * redis :=
  match reqs with
  | [] => ([], r)
  | (m, calls) :: reqs =>
      let '(i, r) := generateId m key calls r in
      let '(ids, r) := id_run key reqs r in
      (i :: ids, r)
  end.

Definition id_request_ok (q : Z * list call) : Prop :=
  0 <= q.1 < 2 ^ 10 /\ Forall (fun c => 0 <= c_now c - epoch < 2 ^ 41) q.2.

Lemma id_run_spec key reqs r :
  id_inv key r -> Forall id_request_ok reqs ->
  forall i, i ∈ (id_run key reqs r).1 -> i <> -1 ->
  exists ts m seq n, i = compose_id ts m seq /\ 0 <= ts < 2 ^ 41 /\ 0 <= m < 2 ^ 10 /\
    1 <= seq <= 4095 /\ id_count key ts r = Some n /\ n < seq.
Proof.
  intros Hinv Hok. revert r Hinv. induction Hok as [|[m calls] reqs [Hm Hc] Hok IH]; intros r Hinv i.
  { intros Hi. by apply not_elem_of_nil in Hi. }
  cbn [id_run]. pose proof (generateId_spec m key calls r Hinv) as Hs.
  destruct (generateId m key calls r) as [i1 r1]. destruct Hs as (Hinv1 & Hmono & H1).
  specialize (IH r1 Hinv1). destruct (id_run key reqs r1) as [ids r2]. simpl in IH |- *.
  intros [->|Hi]%elem_of_cons Hne.
  - destruct H1 as [->|(c & seq & n & n' & Hin & -> & Hseq & Hn & Hlt & _)]; [done|].
    rewrite Forall_forall in Hc. specialize (Hc c Hin). eexists _, m, seq, n. done.
  - destruct (IH i Hi Hne) as (ts & m' & seq & n & -> & ? & ? & ? & Hn & Hlt).
    destruct (Hinv ts) as [x Hx]. specialize (Hmono _ _ _ Hx Hn).
    eexists ts, m', seq, x. repeat split; try done; lia.
Qed.

(** C37: identifiers handed out for one kind of object are pairwise distinct and
    positive 64-bit numbers, whatever nodes ask, however clocks jump (forwards,
    backwards, standing still) and whichever calls fail: two identifiers of the
    same millisecond differ in their sequence number. *)
Theorem generated_ids_unique key reqs r :
  id_inv key r -> Forall id_request_ok reqs ->
  NoDup (List.filter (fun i => negb (i =? -1)) (id_run key reqs r).1) /\
  Forall (fun i => i = -1 \/ 0 < i < 2 ^ 63) (id_run key reqs r).1.
Proof.
  intros Hinv Hok. split.
  - revert r Hinv. induction Hok as [|[m calls] reqs [Hm Hc] Hok IH]; intros r Hinv; [constructor|].
    cbn [id_run]. pose proof (generateId_spec m key calls r Hinv) as Hs.
    destruct (generateId m key calls r) as [i1 r1]. destruct Hs as (Hinv1 & Hmono & H1).
    specialize (IH r1 Hinv1). pose proof (id_run_spec key reqs r1 Hinv1 Hok) as Hrest.
    destruct (id_run key reqs r1) as [ids r2]. simpl in *.
    destruct (i1 =? -1) eqn:Ei; simpl; [done|]. boolp. constructor; [|done].
    rewrite list_elem_of_In, List.filter_In, <- list_elem_of_In. intros [Hin _].
    destruct (Hrest i1 Hin Ei) as (ts' & m' & seq' & n' & Heq & ? & ? & ? & Hn' & Hlt').
    destruct H1 as [->|(c & seq & n & n2 & Hcin & -> & Hseq & Hn & Hlt & Hn2 & Hle)]; [done|].
    apply compose_id_inj in Heq as (<- & _ & <-); try lia. simplify_eq. lia.
  - apply Forall_forall. intros i Hi. destruct (decide (i = -1)) as [|Hne]; [by left|right].
    destruct (id_run_spec key reqs r Hinv Hok i Hi Hne) as (ts & m & seq & n & -> & ? & ? & ? & _).
    rewrite compose_id_arith by lia. lia.
Qed.

Lemma generated_ids_unique_witness :
  NoDup (List.filter (fun i => negb (i =? -1))
    (id_run "im:msgId" [(1, [ok_at epoch]); (2, [ok_at epoch])] ∅).1) /\
  Forall (fun i => i = -1 \/ 0 < i < 2 ^ 63)
    (id_run "im:msgId" [(1, [ok_at epoch]); (2, [ok_at epoch])] ∅).1.
Proof.
  apply (generated_ids_unique "im:msgId" [(1, [ok_at epoch]); (2, [ok_at epoch])] ∅
           (id_inv_empty _)).
  repeat constructor; vm_compute; congruence.
Defined.

(** C38: the recursion of [generateId] ends with an identifier as soon as it
    looks at a clock in a millisecond no identifier was taken from: without
    failures, a list of attempts that contains such a millisecond is enough. *)
Theorem generateId_terminates m key calls r c :
  id_inv key r -> 0 <= m < 2 ^ 10 ->
  Forall (fun c => c_fault c = FNone /\ 0 <= c_now c - epoch) calls ->
  (forall ts n, id_count key ts r = Some n -> n + Z.of_nat (length calls) < 2 ^ 63) ->
  c ∈ calls -> id_count key (c_now c - epoch) r = Some 0 ->
  (generateId m key calls r).1 <> -1.
Proof.
  intros Hinv Hm Hok. revert r Hinv.
  induction Hok as [|c0 calls [Hf Ht] Hok IH]; intros r Hinv Hlen Hin H0.
  { by apply not_elem_of_nil in Hin. }
  cbn [generateId]. rewrite Hf. set (ts := c_now c0 - epoch). destruct (Hinv ts) as [n Hn].
  pose proof (Hlen _ _ Hn) as Hl. simpl in Hl.
  destruct (INCR_id key ts (c_now c0) r n Hn) as [Hn0 [[_ Hbig]|(r' & -> & Hr')]]; [lia|].
  rewrite decide_False by done. destruct (n + 1 >? 4095) eqn:E.
  - apply IH.
    + intros t. rewrite Hr'. case_decide; [by eexists|apply Hinv].
    + intros t a. rewrite Hr'. case_decide; intros; simplify_eq; [lia|].
      assert (a + Z.of_nat (S (length calls)) < 2 ^ 63) by (by eapply (Hlen t)). lia.
    + apply elem_of_cons in Hin as [->|Hin]; [|done]. exfalso.
      rewrite Z.gtb_ltb in E. boolp. fold ts in H0. simplify_eq. lia.
    + rewrite Hr'. case_decide as Heq; [|done]. exfalso. rewrite Heq in H0.
      rewrite Z.gtb_ltb in E. boolp. simplify_eq. lia.
  - simpl. rewrite Z.gtb_ltb in E. boolp. rewrite compose_id_arith by lia. unfold ts. lia.
Qed.

Lemma generateId_terminates_witness :
  (generateId 1 "im:gid" [ok_at epoch] ∅).1 <> -1.
Proof.
  apply (generateId_terminates 1 "im:gid" [ok_at epoch] ∅ (ok_at epoch)).
  - apply id_inv_empty.
  - lia.
  - repeat constructor; vm_compute; congruence.
  - intros ts n H. unfold id_count in H. rewrite lookup_empty in H.
    injection H as <-. simpl. lia.
  - apply list_elem_of_In. simpl. auto.
  - reflexivity.
Defined.

(** ** Verification codes *)

Section Guesses.
Context (email : string) (maxAttempts : Z).

(** Whether a guess is compared with a stored code: the call reaches the server
    and a code is live. *)
Definition compared (g : string * call) (r : redis) : bool :=
  negb (str_empty email || str_empty g.1 || (maxAttempts <=? 0)) &&
  bool_decide (c_fault g.2 <> FBefore) && EXISTS (c_now g.2) (codeKey email) r.

Definition guess_step (g : string * call) (r : redis) : bool * redis :=
  consumeVerificationCode email g.1 maxAttempts g.2 r.

(** How many of a list of guesses are compared with a code. *)
Fixpoint count_compared (gs : list (string * call)) (r : redis) : Z :=
  match gs with
  | [] => 0
  | g :: gs =>
      (if compared g r then 1 else 0) + count_compared gs (guess_step g r).2
  end.

(** How many of a list of guesses are answered with success. *)
Fixpoint count_accepted (gs : list (string * call)) (r : redis) : Z :=
  match gs with
  | [] => 0
  | g :: gs =>
      (if (guess_step g r).1 then 1 else 0) + count_accepted gs (guess_step g r).2
  end.

(** The comparisons still possible: [b] in all, [eb] up to half a second before
    the code expires at [E].  The counter is given the rounded remaining life
    of the code, so it can run out up to 499 ms before the code does. *)
Definition budget (E : Z) (r : redis) (b eb : Z) : Prop :=
  match r !! codeKey email with
  | None => b = 0 /\ eb = 0
  | Some (mkEntry (VStr _) (Some E')) =>
      E' = E /\
      match r !! attemptsKey email with
      | None => b = 2 * maxAttempts - 1 /\ eb = maxAttempts
      | Some (mkEntry (VInt n) (Some A)) =>
          1 <= n < maxAttempts /\ E - 499 <= A /\
          b = 2 * maxAttempts - 1 - n /\ eb = maxAttempts - n
      | Some (mkEntry (VInt n) None) =>
          1 <= n < maxAttempts /\ b = maxAttempts - n /\ eb = maxAttempts - n
      | Some _ => False
      end
  | Some _ => False
  end.

Lemma budget_dead E r :
  r !! codeKey email = None -> budget E r 0 0.
Proof. intros H. unfold budget. by rewrite H. Qed.

(** A guess that is not compared leaves the store alone. *)
Lemma not_compared g r : compared g r = false -> guess_step g r = (false, r).
Proof.
  unfold compared, guess_step, consumeVerificationCode, EXISTS.
  destruct (_ || _ || _); [done|]. simpl. unfold executeTemplate, consume_script, GET.
  destruct (c_fault g.2) eqn:Ef; simpl; [|done|];
    by (destruct (lookup_live _ _ _)).
Qed.

Lemma budget_nonneg E r b eb : 0 < maxAttempts -> budget E r b eb -> 0 <= b /\ 0 <= eb.
Proof.
  unfold budget. intros Hmax Hb.
  destruct (r !! codeKey email) as [[[s| |] [E'|]]|]; try done; [|lia].
  destruct Hb as [_ Hb]. destruct (r !! attemptsKey email) as [[[|m|] [A|]]|]; try done; lia.
Qed.

Lemma budget_deleted E e r :
  budget E (DEL (attemptsKey email) (DEL (codeKey email) (<[attemptsKey email := e]> r))) 0 0.
Proof.
  apply budget_dead. unfold DEL.
  by rewrite lookup_delete_ne, lookup_delete_eq by auto with keys.
Qed.

Lemma budget_counting E s r m t :
  r !! codeKey email = Some (mkEntry (VStr s) (Some E)) -> 1 <= m < maxAttempts ->
  (forall A, t = Some A -> E - 499 <= A) ->
  budget E (<[attemptsKey email := mkEntry (VInt m) t]> r)
    (match t with Some _ => 2 * maxAttempts - 1 - m | None => maxAttempts - m end)
    (maxAttempts - m).
Proof.
  intros Hc Hm HA. unfold budget. rewrite lookup_insert_ne by auto with keys.
  rewrite Hc, lookup_insert_eq. destruct t; auto 10.
Qed.

(** The life given to a counter that starts at [now] when the code has [E]. *)
Definition counter_life (now E : Z) : option Z :=
  let ttl := (E - now + 500) / 1000 in
  if 0 <? ttl then Some (now + 1000 * ttl) else None.

Lemma counter_life_late now E A : counter_life now E = Some A -> E - 499 <= A.
Proof.
  unfold counter_life. destruct (0 <? _); [|done]. intros [= <-].
  Z.to_euclidean_division_equations. lia.
Qed.

(** The counter starts again at one: it was absent or has run out. *)
Lemma attempts_restart now E s r :
  r !! codeKey email = Some (mkEntry (VStr s) (Some E)) -> now <= E ->
  lookup_live now (attemptsKey email) r = None ->
  let r1 := <[attemptsKey email := mkEntry (VInt 1) None]> r in
  let ttl := TTL now (codeKey email) r1 in
  INCR now (attemptsKey email) r = Some (1, r1) /\
  (if (1 =? 1) && (0 <? ttl) then (EXPIRE now (attemptsKey email) ttl r1).2 else r1)
  = <[attemptsKey email := mkEntry (VInt 1) (counter_life now E)]> r.
Proof.
  intros Hc Hlive Hnone r1 ttl. unfold INCR. rewrite Hnone. split; [done|].
  assert (ttl = (E - now + 500) / 1000) as ->.
  { unfold ttl, TTL, r1. rewrite lookup_live_insert_ne by auto with keys.
    rewrite (proj2 (lookup_live_Some now _ r _) (conj Hc (proj2 (Z.leb_le now E) Hlive))). done. }
  unfold counter_life, r1. simpl. destruct (0 <? (E - now + 500) / 1000) eqn:Et; [|done].
  unfold EXPIRE. rewrite lookup_live_insert_eq. simpl. boolp.
  rewrite (proj2 (Z.leb_gt _ 0)) by lia. simpl. by rewrite insert_insert_eq.
Qed.

(** The counter goes on from [m]. *)
Lemma attempts_continue now m t r :
  lookup_live now (attemptsKey email) r = Some (mkEntry (VInt m) t) -> m < 2 ^ 63 - 1 ->
  INCR now (attemptsKey email) r
  = Some (m + 1, <[attemptsKey email := mkEntry (VInt (m + 1)) t]> r).
Proof.
  intros Hm Hrange. unfold INCR. rewrite Hm. by rewrite (proj2 (Z.ltb_lt _ _)) by lia.
Qed.

(** When the counter is not live: it never was, or it has just run out. *)
Lemma budget_not_counting E s now r b eb :
  budget E r b eb -> r !! codeKey email = Some (mkEntry (VStr s) (Some E)) ->
  lookup_live now (attemptsKey email) r = None ->
  (b = 2 * maxAttempts - 1 /\ eb = maxAttempts) \/
  (b >= maxAttempts /\ E - 500 < now /\ counter_life now E = None).
Proof.
  unfold budget, lookup_live. intros Hb Hc Hatt. rewrite Hc in Hb. destruct Hb as [_ Hb].
  destruct (r !! attemptsKey email) as [[[|m|] [A|]]|]; try done; [|by left].
  unfold live in Hatt. simpl in Hatt. destruct (now <=? A) eqn:EA; [done|]. boolp. right.
  split; [lia|]. split; [lia|]. unfold counter_life.
  rewrite (proj2 (Z.ltb_ge _ _)); [done|]. Z.to_euclidean_division_equations. lia.
Qed.

(** The script when the guess is wrong: one comparison is used up. *)
Lemma wrong_guess E code now r b eb :
  budget E r b eb -> 0 < maxAttempts < 2 ^ 31 ->
  EXISTS now (codeKey email) r = true -> GET now (codeKey email) r <> Some (VStr code) ->
  exists b' eb', (consume_script email code maxAttempts now r).1 = Some 0 /\
    budget E (consume_script email code maxAttempts now r).2 b' eb' /\
    b' <= b - 1 /\ (now <= E - 500 -> eb' <= eb - 1).
Proof.
  intros Hb Hmax Hex Hwrong. unfold EXISTS in Hex. apply bool_decide_eq_true in Hex as [e He].
  unfold consume_script, GET in *. rewrite He in Hwrong |- *. simpl in Hwrong |- *.
  rewrite decide_False by congruence.
  apply lookup_live_Some in He as [Hc Hlive]. pose proof Hb as Hb0.
  unfold budget in Hb. rewrite Hc in Hb.
  destruct e as [[s| |] [E'|]]; try done. destruct Hb as [-> Hb]. unfold live in Hlive.
  simpl in Hlive. boolp.
  destruct (lookup_live now (attemptsKey email) r) as [[[|m|] t]|] eqn:Hatt.
  1, 3: apply lookup_live_Some in Hatt as [Ha _]; rewrite Ha in Hb; by destruct t.
  - pose proof Hatt as [Ha _]%lookup_live_Some. rewrite Ha in Hb.
    assert (1 <= m < maxAttempts) as Hm by (destruct t; lia).
    rewrite (attempts_continue _ _ _ _ Hatt), (proj2 (Z.eqb_neq (m + 1) 1)) by lia. simpl.
    destruct (maxAttempts <=? m + 1) eqn:Emax; boolp.
    + exists 0, 0. split; [done|]. split; [apply budget_deleted|]. destruct t; lia.
    + eexists _, _. split; [done|]. split.
      { apply (budget_counting _ s); [done|lia|]. intros A ->. lia. }
      destruct t; lia.
  - destruct (attempts_restart now E s r Hc Hlive Hatt) as [-> Hr]. cbv zeta in Hr.
    simpl in Hr |- *. rewrite Hr. clear Hr.
    pose proof (budget_not_counting E s now r b eb Hb0 Hc Hatt) as Hcase.
    destruct (maxAttempts <=? 1) eqn:Emax; boolp.
    + exists 0, 0. split; [done|]. split; [apply budget_deleted|]. lia.
    + eexists _, _. split; [done|]. split.
      { apply (budget_counting _ s); [done|lia|]. apply counter_life_late. }
      destruct Hcase as [[-> ->]|(? & ? & ->)]; [|lia].
      destruct (counter_life now E); lia.
Qed.

(** One guess: what it costs and what it can answer. *)
Lemma guess_step_spec E g r b eb :
  budget E r b eb -> maxAttempts < 2 ^ 31 ->
  (compared g r = false /\ guess_step g r = (false, r)) \/
  (compared g r = true /\
   exists b' eb', budget E (guess_step g r).2 b' eb' /\ 0 <= b' <= b - 1 /\ 0 <= eb' /\
     (c_now g.2 <= E - 500 -> eb' <= eb - 1) /\
     ((guess_step g r).1 = true -> b' = 0)).
Proof.
  intros Hb Hmax. destruct (compared g r) eqn:Hcmp; [right|left; by auto using not_compared].
  split; [done|]. unfold compared in Hcmp. apply andb_true_iff in Hcmp as [Hcmp Hex].
  apply andb_true_iff in Hcmp as [Hargs Hf]. unfold guess_step, consumeVerificationCode.
  destruct (_ || _ || _) eqn:Eargs; [done|]. boolp.
  pose proof Hex as Hex'. unfold EXISTS in Hex'. apply bool_decide_eq_true in Hex' as [e He].
  destruct (decide (GET (c_now g.2) (codeKey email) r = Some (VStr g.1))) as [Hg|Hg].
  - exists 0, 0. unfold executeTemplate, consume_script. rewrite Hg, decide_True by done. simpl.
    assert (forall r1, budget E (DEL (cooldownKey email) (DEL (attemptsKey email)
        (DEL (codeKey email) r1))) 0 0) as Hdead.
    { intros r1. apply budget_dead. unfold DEL.
      by rewrite !lookup_delete_ne, lookup_delete_eq by auto with keys. }
    assert (1 <= b /\ 1 <= eb).
    { apply lookup_live_Some in He as [Hc _]. unfold budget in Hb. rewrite Hc in Hb.
      destruct e as [[s| |] [E'|]]; try done. destruct Hb as [_ Hb].
      destruct (r !! attemptsKey email) as [[[|m|] [A|]]|]; try done; lia. }
    destruct (c_fault g.2); try done; (split; [apply Hdead|]); lia.
  - destruct (wrong_guess E g.1 (c_now g.2) r b eb Hb ltac:(lia) Hex Hg) as (b' & eb' & Hw1 & Hw2 & Hw3 & Hw4).
    pose proof (budget_nonneg _ _ _ _ ltac:(lia) Hw2). exists b', eb'. unfold executeTemplate.
    destruct (consume_script _ _ _ _ _) as [o r'] eqn:Es. simpl in Hw1, Hw2. subst o. simpl.
    destruct (c_fault g.2); try done; (split; [done|]); by repeat (split; [lia|]).
Qed.

Lemma count_within_budget E gs r b eb :
  budget E r b eb -> maxAttempts < 2 ^ 31 -> 0 <= b -> 0 <= eb ->
  count_compared gs r <= b /\ count_accepted gs r <= (if decide (b = 0) then 0 else 1) /\
  (Forall (fun g => c_now g.2 <= E - 500) gs -> count_compared gs r <= eb).
Proof.
  intros Hb Hmax. revert r b eb Hb. induction gs as [|g gs IH]; intros r b eb Hb Hb0 Heb0; simpl.
  { case_decide; lia. }
  destruct (guess_step_spec E g r b eb Hb Hmax) as
    [[-> Hs]|[-> (b' & eb' & Hb' & Hle & Heb' & Hele & Hacc)]].
  - rewrite Hs. simpl. destruct (IH r b eb Hb Hb0 Heb0) as (H1 & H2 & H3).
    split; [lia|]. split; [lia|]. intros [_ Hgs]%Forall_cons. specialize (H3 Hgs). lia.
  - assert (0 <= b' /\ 0 <= eb') as [Hp Hq].
    { unfold budget in Hb'. destruct (_ !! codeKey email) as [[[s| |] [E'|]]|]; try done; [|lia].
      destruct Hb' as [_ Hb']. destruct (_ !! attemptsKey email) as [[[|m|] [A|]]|]; try done;
      unfold budget in Hb; destruct (r !! codeKey email) as [[[s'| |] [E''|]]|]; try lia. }
    destruct (IH _ b' eb' Hb' Hp Hq) as (H1 & H2 & H3).
    split; [lia|]. split.
    + rewrite (decide_False (P := b = 0)) by lia.
      destruct ((guess_step g r).1); [rewrite Hacc, decide_True in H2 by done; lia|].
      destruct (decide (b' = 0)); lia.
    + intros [Hg Hgs]%Forall_cons. specialize (H3 Hgs). specialize (Hele Hg). lia.
Qed.
End Guesses.

(** What a successful issue leaves behind. *)
Lemma issue_cases email code ttl cool c r :
  let '(res, r') := issueVerificationCode email code ttl cool c r in
  res = 1 ->
  c_fault c = FNone /\ email <> "" /\ code <> "" /\ 0 < ttl /\ 0 < cool /\
  EXISTS (c_now c) (cooldownKey email) r = false /\
  r' !! codeKey email = Some (mkEntry (VStr code) (Some (c_now c + 1000 * ttl))) /\
  r' !! cooldownKey email = Some (mkEntry (VStr "1") (Some (c_now c + 1000 * cool))) /\
  r' !! attemptsKey email = None.
Proof.
  unfold issueVerificationCode. destruct (_ || _ || _ || _) eqn:Eargs; [lia|].
  unfold executeTemplate. destruct (EXISTS _ _ _) eqn:Ecool; simpl; destruct (c_fault c); try done.
  intros _. boolp. unfold DEL, SETEX. repeat (split; [done|]). split; [|split].
  - by rewrite lookup_delete_ne, lookup_insert_ne, lookup_insert_eq by auto with keys.
  - by rewrite lookup_delete_ne, lookup_insert_eq by auto with keys.
  - by rewrite lookup_delete_eq.
Qed.

(** C39: guessing is limited.  After a code is issued, at most one guess is
    accepted; at most [2 * maxAttempts - 1] guesses are compared with it, and
    at most [maxAttempts] when none of them falls in the last half second of its
    life.  This holds for any guesses, any failures and any clock readings. *)
Theorem verification_attempts_bounded email code ttl cool maxAttempts c r0 gs :
  0 < maxAttempts < 2 ^ 31 ->
  let '(res, r) := issueVerificationCode email code ttl cool c r0 in
  res = 1 ->
  count_accepted email maxAttempts gs r <= 1 /\
  count_compared email maxAttempts gs r <= 2 * maxAttempts - 1 /\
  (Forall (fun g => c_now g.2 <= c_now c + 1000 * ttl - 500) gs ->
   count_compared email maxAttempts gs r <= maxAttempts).
Proof.
  intros Hmax. pose proof (issue_cases email code ttl cool c r0) as Hi.
  destruct (issueVerificationCode _ _ _ _ _ _) as [res r]. intros Hres.
  destruct (Hi Hres) as (_ & _ & _ & _ & _ & _ & Hc & _ & Ha).
  destruct (count_within_budget email maxAttempts (c_now c + 1000 * ttl) gs r
              (2 * maxAttempts - 1) maxAttempts) as (H1 & H2 & H3); try lia.
  { unfold budget. by rewrite Hc, Ha. }
  rewrite decide_False in H2 by lia. split; [done|]. split; [done|]. exact H3.
Qed.

Definition wrong_guesses (ts : list Z) : list (string * call) :=
  (fun t => ("000000", ok_at t)) <$> ts.

Lemma verification_attempts_bounded_witness :
  let r := (issueVerificationCode "a@b.cn" "123456" 60 30 (ok_at 0) ∅).2 in
  count_accepted "a@b.cn" 5 (wrong_guesses [1; 2; 3]) r <= 1 /\
  count_compared "a@b.cn" 5 (wrong_guesses [1; 2; 3]) r <= 2 * 5 - 1 /\
  (Forall (fun g => c_now g.2 <= 0 + 1000 * 60 - 500) (wrong_guesses [1; 2; 3]) ->
   count_compared "a@b.cn" 5 (wrong_guesses [1; 2; 3]) r <= 5).
Proof.
  refine (verification_attempts_bounded "a@b.cn" "123456" 60 30 5 (ok_at 0) ∅
            (wrong_guesses [1; 2; 3]) _ eq_refl). lia.
Defined.

(** The bound of [verification_attempts_bounded] is tight, so [maxAttempts] is not the limit the code
    enforces: four wrong guesses 59.4 s before the code of 60 s runs out start a
    counter of 59 s (59.4 rounded), and five more guesses are compared in the
    last half second after that counter has gone. *)
Theorem verification_attempts_exceeded :
  let r := (issueVerificationCode "a@b.cn" "123456" 60 30 (ok_at 0) ∅).2 in
  count_compared "a@b.cn" 5
    (wrong_guesses [600; 600; 600; 600; 59700; 59700; 59700; 59700; 59700; 59700]) r = 9.
Proof. vm_compute. reflexivity. Qed.

(** The life of a code, without failures: it can be read until it expires,
    no other code is issued during the cool-down, the right guess is accepted
    once and ends the cool-down, and clearing needs the same code. *)
Theorem verification_code_lifecycle email code ttl cool maxAttempts t r0 t1 :
  let '(res, r) := issueVerificationCode email code ttl cool (ok_at t) r0 in
  res = 1 -> 0 < maxAttempts -> t <= t1 ->
  (getVerificationCode email (ok_at t1) r).1 = (if t1 <=? t + 1000 * ttl then code else "") /\
  (t1 <= t + 1000 * cool -> forall code' ttl' cool', code' <> "" -> 0 < ttl' -> 0 < cool' ->
     issueVerificationCode email code' ttl' cool' (ok_at t1) r = (0, r)) /\
  (t1 <= t + 1000 * ttl -> forall t2 code' ttl' cool', code' <> "" -> 0 < ttl' -> 0 < cool' ->
     let '(ok, r2) := consumeVerificationCode email code maxAttempts (ok_at t1) r in
     ok = true /\ (getVerificationCode email (ok_at t2) r2).1 = "" /\
     (consumeVerificationCode email code maxAttempts (ok_at t2) r2).1 = false /\
     (issueVerificationCode email code' ttl' cool' (ok_at t2) r2).1 = 1) /\
  (forall code', code' <> code -> clearVerificationCode email code' (ok_at t1) r = (false, r)).
Proof.
  pose proof (issue_cases email code ttl cool (ok_at t) r0) as Hi.
  destruct (issueVerificationCode _ _ _ _ _ r0) as [res r]. intros Hres Hmax Ht1.
  destruct (Hi Hres) as (_ & He%str_empty_false & Hcode & _ & _ & _ & Hc & Hk & Ha). simpl in Hc, Hk.
  apply str_empty_false in Hcode.
  assert (forall k, 0 < k -> (k <=? 0) = false) as Hpos by (intros; apply Z.leb_gt; lia).
  assert (lookup_live t1 (codeKey email) r =
    if t1 <=? t + 1000 * ttl then Some (mkEntry (VStr code) (Some (t + 1000 * ttl))) else None) as Hlc.
  { unfold lookup_live. rewrite Hc. done. }
  split; [|split; [|split]].
  - unfold getVerificationCode, executeTemplate, GET. rewrite He. simpl. rewrite Hlc.
    by destruct (t1 <=? t + 1000 * ttl).
  - intros Htc code' ttl' cool' Hcode'%str_empty_false Httl Hcool.
    unfold issueVerificationCode, executeTemplate, EXISTS. rewrite He, Hcode', !Hpos by done. simpl.
    rewrite (proj2 (lookup_live_Some t1 _ r _) (conj Hk (proj2 (Z.leb_le t1 _) Htc))). done.
  - intros Htt t2 code' ttl' cool' Hcode'%str_empty_false Httl Hcool.
    apply Z.leb_le in Htt. rewrite Htt in Hlc.
    unfold consumeVerificationCode, getVerificationCode, issueVerificationCode, executeTemplate,
      consume_script, GET, EXISTS.
    rewrite He, Hcode, Hcode', !Hpos by done. simpl. rewrite Hlc. simpl.
    rewrite decide_True by done. unfold DEL. simpl.
    rewrite !(lookup_live_delete_ne _ (codeKey email)), lookup_live_delete_eq by auto with keys.
    by rewrite lookup_live_delete_eq.
  - intros code' Hne. unfold clearVerificationCode, executeTemplate, GET. rewrite He.
    destruct (str_empty code'); [done|]. simpl. rewrite Hlc.
    destruct (t1 <=? t + 1000 * ttl); simpl; [by rewrite decide_False by congruence|done].
Qed.

Lemma verification_code_lifecycle_witness :
  let r := (issueVerificationCode "a@b.cn" "123456" 60 30 (ok_at 0) ∅).2 in
  (getVerificationCode "a@b.cn" (ok_at 10) r).1 = "123456".
Proof.
  exact (proj1 (verification_code_lifecycle "a@b.cn" "123456" 60 30 5 0 ∅ 10
           eq_refl eq_refl ltac:(lia))).
Defined.
