(* ===== verification/Store.v ===== *)
(** * The MySQL store

    The tables of [src/scripts/sql/init_message_mysql_test.sql] with the structs
    of [src/server/public/include/DbGlobal.h], and the way
    [src/server/public/include/Mysql.h] executes statements on them: one
    statement at a time, each of which may fail before or after it acts, inside
    or outside a transaction. *)

From S2P Require Import Prelude Const.

(** ** Parameters: the collation of the server and [std::hash] *)

(** Two strings are equal for the server when their collation keys are. *)
Class Collation := ci_key : string -> string.
Class StdHash := std_hash : string -> Z.
(** How the n-th statement sent to the server fails. *)
Class Faults := fault_at : nat -> fault.

Definition ci_eq `{Collation} (s t : string) : bool :=
  bool_decide (ci_key s = ci_key t).

(** ** Rows *)

Record User := mkUser {
  u_uid : Z; u_username : string; u_password : string; u_email : string;
  u_createTime : string }.

Record UserInfo := mkUserInfo {
  ui_uid : Z; ui_name : string; ui_age : Z; ui_sex : string;
  ui_headImageURL : string }.

Record FriendApply := mkFriendApply {
  fa_from : Z; fa_to : Z; fa_content : string; fa_status : Z;
  fa_createTime : string }.

Record Friend := mkFriend {
  fr_uidA : Z; fr_uidB : Z; fr_sessionId : Z; fr_createTime : string }.

Record Conversation := mkConversation {
  cv_type : Z; cv_businessId : Z; cv_latestSeq : Z; cv_createTime : string }.

Record ConversationMember := mkMember {
  cm_joinedSeq : Z; cm_leftSeq : option Z; cm_deliveredSeq : Z; cm_readSeq : Z }.

(** A row of [messages]; the nullable columns are options. *)
Record Message := mkMessage {
  m_senderId : Z; m_receiverId : Z;
  m_conversationId : option Z; m_conversationSeq : option Z;
  m_clientMessageId : option string; m_commandHash : option string;
  m_sessionKey : string; m_type : Z; m_content : string; m_status : Z;
  m_sendDateTime : string; m_readDateTime : string }.

Record GroupInfo := mkGroupInfo {
  gi_sessionKey : Z; gi_name : string; gi_createTime : string }.

Record GroupMember := mkGroupMember {
  gm_role : Z; gm_joinTime : string; gm_speech : Z; gm_memberName : string }.

Record GroupApply := mkGroupApply {
  ga_requestor : Z; ga_handler : Z; ga_gid : Z; ga_type : Z; ga_status : Z;
  ga_message : string; ga_updateTime : string }.

#[export] Instance User_eq_dec : EqDecision User.
Proof. solve_decision. Defined.
#[export] Instance Message_eq_dec : EqDecision Message.
Proof. solve_decision. Defined.

(** [Message::Type], [Message::Status] of the storage layer. *)
Definition Type_TEXT : Z := 1.
Definition Status_WITHDRAW : Z := 0.
Definition Status_WAIT : Z := 1.
Definition Status_DELIVERED : Z := 2.
Definition Status_READ : Z := 3.

(** ** Tables, each a map from its primary key *)

Record DB := mkDB {
  users : gmap Z User;
  userInfo : gmap Z UserInfo;
  friendApplys : gmap (Z * Z) FriendApply;
  friends : gmap (Z * Z) Friend;
  conversations : gmap Z Conversation;
  conversationMembers : gmap (Z * Z) ConversationMember;
  messages : gmap Z Message;
  groupInfo : gmap Z GroupInfo;
  groupMembers : gmap (Z * Z) GroupMember;
  groupApplys : gmap (Z * Z) GroupApply }.

Definition empty_db : DB := mkDB ∅ ∅ ∅ ∅ ∅ ∅ ∅ ∅ ∅ ∅.

Definition set_users t d := mkDB t (userInfo d) (friendApplys d) (friends d)
  (conversations d) (conversationMembers d) (messages d) (groupInfo d) (groupMembers d) (groupApplys d).
Definition set_userInfo t d := mkDB (users d) t (friendApplys d) (friends d)
  (conversations d) (conversationMembers d) (messages d) (groupInfo d) (groupMembers d) (groupApplys d).
Definition set_friendApplys t d := mkDB (users d) (userInfo d) t (friends d)
  (conversations d) (conversationMembers d) (messages d) (groupInfo d) (groupMembers d) (groupApplys d).
Definition set_friends t d := mkDB (users d) (userInfo d) (friendApplys d) t
  (conversations d) (conversationMembers d) (messages d) (groupInfo d) (groupMembers d) (groupApplys d).
Definition set_conversations t d := mkDB (users d) (userInfo d) (friendApplys d) (friends d)
  t (conversationMembers d) (messages d) (groupInfo d) (groupMembers d) (groupApplys d).
Definition set_conversationMembers t d := mkDB (users d) (userInfo d) (friendApplys d) (friends d)
  (conversations d) t (messages d) (groupInfo d) (groupMembers d) (groupApplys d).
Definition set_messages t d := mkDB (users d) (userInfo d) (friendApplys d) (friends d)
  (conversations d) (conversationMembers d) t (groupInfo d) (groupMembers d) (groupApplys d).
Definition set_groupInfo t d := mkDB (users d) (userInfo d) (friendApplys d) (friends d)
  (conversations d) (conversationMembers d) (messages d) t (groupMembers d) (groupApplys d).
Definition set_groupMembers t d := mkDB (users d) (userInfo d) (friendApplys d) (friends d)
  (conversations d) (conversationMembers d) (messages d) (groupInfo d) t (groupApplys d).
Definition set_groupApplys t d := mkDB (users d) (userInfo d) (friendApplys d) (friends d)
  (conversations d) (conversationMembers d) (messages d) (groupInfo d) (groupMembers d) t.

(** The server: the tables, the snapshot of an open transaction, the two
    auto-increment counters (which a roll-back does not reset) and the number
    of statements received. *)
Record store := mkStore {
  db : DB; saved : option DB; next_user : Z; next_message : Z; tick : nat }.

Definition tock (s : store) : store :=
  mkStore (db s) (saved s) (next_user s) (next_message s) (S (tick s)).
Definition with_db (d : DB) (s : store) : store :=
  mkStore d (saved s) (next_user s) (next_message s) (tick s).
Definition with_saved (o : option DB) (s : store) : store :=
  mkStore (db s) o (next_user s) (next_message s) (tick s).

(** ** Statements *)

Section Statements.
Context `{Faults}.

(** One statement: [None] is an error reply of the server. *)
Definition statement {A} (f : store -> option A * store) : ST store A := fun s =>
  match fault_at (tick s) with
  | FBefore => (Throw "connection lost", tock s)
  | FNone => match f s with
             | (Some a, s') => (Ok a, tock s')
             | (None, s') => (Throw "statement refused", tock s')
             end
  | FAfter => (Throw "connection lost", tock (f s).2)
  end.

(** A [SELECT]. *)
Definition select {A} (q : DB -> A) : ST store A :=
  statement (fun s => (Some (q (db s)), s)).

(** A statement that changes the tables and no auto-increment counter. *)
Definition update {A} (u : DB -> option (A * DB)) : ST store A :=
  statement (fun s => match u (db s) with
                      | Some (a, d) => (Some a, with_db d s)
                      | None => (None, s)
                      end).

Definition startTransaction : ST store unit :=
  statement (fun s => (Some tt, with_saved (Some (db s)) s)).
Definition commit : ST store unit :=
  statement (fun s => (Some tt, with_saved None s)).

(** The end of an uncommitted transaction. *)
Definition undo (s : store) : store :=
  match saved s with
  | Some d => with_saved None (with_db d s)
  | None => s
  end.

(** [session->rollback()]: when it fails the connection is lost, and the server
    rolls the transaction back itself. *)
Definition rollback : ST store unit := fun s =>
  match fault_at (tick s) with
  | FNone => (Ok tt, tock (undo s))
  | _ => (Throw "connection lost", tock (undo s))
  end.

(** [try { session->rollback(); } catch (...) {}] *)
Definition try_rollback : ST store unit := catch rollback (fun _ => ret tt).

(** [MysqlDao::executeTemplate]: the first fault is the pool having no
    connection; an exception gives the default of the result type, and a
    transaction left open ends with its connection. *)
Definition executeTemplate {A} `{DefaultForType A} (processor : ST store A) (s : store)
  : A * store :=
  match fault_at (tick s) with
  | FNone => match processor (tock s) with
             | (Ok a, s') => (a, s')
             | (Throw _, s') => (defaultForType, undo s')
             end
  | _ => (defaultForType, tock s)
  end.
End Statements.

(** ** Rules for statements *)

Section Rules.
Context `{Faults}.

(** A statement between two points of the schedule has failed. *)
Definition some_fault (t0 t : nat) : Prop :=
  exists k, (t0 <= k < t)%nat /\ fault_at k <> FNone.

Lemma some_fault_here t0 t : (t0 <= t)%nat -> fault_at t <> FNone -> some_fault t0 (S t).
Proof. intros. exists t. split; [lia|done]. Qed.

Lemma some_fault_mono t0 t t' : some_fault t0 t -> (t <= t')%nat -> some_fault t0 t'.
Proof. intros (k & Hk & Hf) Ht. exists k. split; [lia|done]. Qed.

(** Inside a transaction begun at tables [d0], with the tables now at [d] and
    the message counter at [n]; nothing has failed since tick [t0]. *)
Definition in_tx (t0 : nat) (d0 : DB) (n : Z) (d : DB) (s : store) : Prop :=
  saved s = Some d0 /\ db s = d /\ next_message s = n /\ (t0 <= tick s)%nat.

(** After a failure inside the transaction the snapshot is still there. *)
Definition failed_tx (t0 : nat) (d0 : DB) (n : Z) (s : store) : Prop :=
  saved s = Some d0 /\ n <= next_message s /\ some_fault t0 (tick s).

(** Outside a transaction. *)
Definition at_rest (t0 : nat) (n : Z) (d : DB) (s : store) : Prop :=
  saved s = None /\ db s = d /\ next_message s = n /\ (t0 <= tick s)%nat.

Lemma triple_statement {A} (f : store -> option A * store) t0 d0 n d a n' d' :
  (forall s, in_tx t0 d0 n d s ->
     (f s).1 = Some a /\ in_tx t0 d0 n' d' (f s).2 /\ tick (f s).2 = tick s) ->
  n <= n' ->
  triple (in_tx t0 d0 n d) (statement f)
    (fun a' s => a' = a /\ in_tx t0 d0 n' d' s) (failed_tx t0 d0 n).
Proof.
  intros Hf Hn s Hs. destruct (Hf s Hs) as (Ha & (H1 & H2 & H3 & H4) & Ht).
  destruct Hs as (G1 & G2 & G3 & G4). unfold statement, failed_tx.
  destruct (fault_at (tick s)) eqn:E.
  - destruct (f s) as [o s']. simpl in *. subst o. repeat split; simpl; (done || lia).
  - simpl. split; [done|]. split; [lia|]. apply some_fault_here; [done|congruence].
  - simpl. split; [done|]. split; [lia|]. rewrite Ht. apply some_fault_here; [done|congruence].
Qed.

Lemma triple_select {A} (q : DB -> A) t0 d0 n d :
  triple (in_tx t0 d0 n d) (select q)
    (fun a s => a = q d /\ in_tx t0 d0 n d s) (failed_tx t0 d0 n).
Proof.
  apply triple_statement; [|lia]. intros s Hs. pose proof Hs as (_ & <- & _). done.
Qed.

Lemma triple_update {A} (u : DB -> option (A * DB)) t0 d0 n d a d' :
  u d = Some (a, d') ->
  triple (in_tx t0 d0 n d) (update u)
    (fun a' s => a' = a /\ in_tx t0 d0 n d' s) (failed_tx t0 d0 n).
Proof.
  intros Hu. apply triple_statement; [|lia]. intros s (H1 & H2 & H3 & H4).
  rewrite H2, Hu. done.
Qed.

Lemma triple_start t0 n d :
  triple (at_rest t0 n d) startTransaction
    (fun _ s => in_tx t0 d n d s)
    (fun s => (saved s = None \/ saved s = Some d) /\ db s = d /\ next_message s = n /\
              some_fault t0 (tick s)).
Proof.
  intros s (Hs & Hd & Hn & Ht). unfold startTransaction, statement.
  destruct (fault_at (tick s)) eqn:E; simpl.
  - rewrite Hd. repeat split; simpl; (done || lia).
  - split; [by left|]. repeat split; try done. apply some_fault_here; [done|congruence].
  - rewrite Hd. split; [by right|]. repeat split; try done. apply some_fault_here; [done|congruence].
Qed.

Lemma triple_commit t0 d0 n d :
  triple (in_tx t0 d0 n d) commit
    (fun _ s => at_rest t0 n d s)
    (fun s => failed_tx t0 d0 n s \/ (at_rest t0 n d s /\ some_fault t0 (tick s))).
Proof.
  intros s (Hs & Hd & Hn & Ht). unfold commit, statement.
  destruct (fault_at (tick s)) eqn:E; simpl.
  - repeat split; simpl; (done || lia).
  - left. split; [done|]. split; [simpl; lia|]. apply some_fault_here; [done|congruence].
  - right. split; [repeat split; simpl; (done || lia)|]. apply some_fault_here; [done|congruence].
Qed.

Lemma triple_rollback t0 d0 n d :
  triple (in_tx t0 d0 n d) rollback
    (fun _ s => at_rest t0 n d0 s)
    (fun s => at_rest t0 n d0 s /\ some_fault t0 (tick s)).
Proof.
  intros s (Hs & Hd & Hn & Ht). unfold rollback, undo. rewrite Hs.
  assert (at_rest t0 n d0 (tock (with_saved None (with_db d0 s))))
    by (repeat split; simpl; (done || lia)).
  destruct (fault_at (tick s)) eqn:E; simpl; [done|..];
    (split; [done|]); apply some_fault_here; congruence || done.
Qed.

Lemma try_rollback_spec s : try_rollback s = (Ok tt, tock (undo s)).
Proof.
  unfold try_rollback, catch, rollback. by destruct (fault_at (tick s)).
Qed.

Lemma undo_None s : saved s = None -> undo s = s.
Proof. unfold undo. by intros ->. Qed.

Lemma undo_saved s : saved (undo s) = None.
Proof. unfold undo. by destruct (saved s) eqn:E. Qed.

Lemma tick_undo s : tick (undo s) = tick s.
Proof. unfold undo. by destruct (saved s). Qed.

Lemma undo_failed t0 d0 n s :
  failed_tx t0 d0 n s ->
  saved (undo s) = None /\ db (undo s) = d0 /\ n <= next_message (undo s) /\
  some_fault t0 (tick (undo s)).
Proof.
  intros (Hs & Hn & Hf). rewrite tick_undo. unfold undo. by rewrite Hs.
Qed.

(** ** Queries: statements outside a transaction that change nothing *)

(** [m] computes [a] from tables [d], or fails after a fault, and changes
    nothing. *)
Definition computes {A} (d : DB) (m : ST store A) (a : A) : Prop :=
  forall t0 n, triple (at_rest t0 n d) m
    (fun a' s => a' = a /\ at_rest t0 n d s)
    (fun s => at_rest t0 n d s /\ some_fault t0 (tick s)).

Lemma computes_ret {A} d (a : A) : computes d (ret a) a.
Proof. intros t0 n. by apply triple_ret. Qed.

Lemma computes_select {A} d (q : DB -> A) : computes d (select q) (q d).
Proof.
  intros t0 n s (Hs & Hd & Hn & Ht). unfold select, statement.
  destruct (fault_at (tick s)) eqn:E; simpl; rewrite ?Hd.
  - repeat split; simpl; (done || lia).
  - split; [repeat split; simpl; (done || lia)|]. apply some_fault_here; [done|congruence].
  - split; [repeat split; simpl; (done || lia)|]. apply some_fault_here; [done|congruence].
Qed.

Lemma computes_bind {A B} d (m : ST store A) a (k : A -> ST store B) b :
  computes d m a -> computes d (k a) b -> computes d (bind m k) b.
Proof.
  intros Hm Hk t0 n. eapply triple_bind; [apply Hm|]. intros a' s [-> Hs]. by apply Hk.
Qed.

Lemma execute_computes {A} `{DefaultForType A} (m : ST store A) a s :
  saved s = None -> computes (db s) m a ->
  let '(r, s') := executeTemplate m s in
  saved s' = None /\ db s' = db s /\ next_message s' = next_message s /\
  (r = a \/ (r = defaultForType /\ some_fault (tick s) (tick s'))).
Proof.
  intros Hs Hm. unfold executeTemplate. destruct (fault_at (tick s)) eqn:E; cycle 1.
  1, 2: repeat split; try done; right; split; [done|];
    apply some_fault_here; [done|congruence].
  assert (at_rest (tick s) (next_message s) (db s) (tock s)) as Hr
    by (repeat split; simpl; (done || lia)).
  specialize (Hm _ _ _ Hr). destruct (m (tock s)) as [[r|w] s'].
  - destruct Hm as [-> (G1 & G2 & G3 & _)]. auto.
  - destruct Hm as [(G1 & G2 & G3 & _) Hf]. rewrite undo_None by done. auto 10.
Qed.
End Rules.
