(* ===== verification/Mysql.v ===== *)
(** * The MySQL data access object: users, friends, groups

    [MysqlDao] of [src/server/public/include/Mysql.h], except the operations on
    messages and conversations (file Messages).  Each operation is the lambda it
    passes to [executeTemplate], statement by statement.  An integer outside the
    range of its column is refused where the C++ type allows one.  Lengths of
    character columns are not modelled: a statement the server refuses for one
    is among the failures a schedule of faults may contain. *)

From S2P Require Import Prelude Const Store.

Section MysqlDao.
Context `{Collation} `{Faults}.

(** The row lists of a [SELECT] without [ORDER BY]; [nullptr] when empty. *)
Definition rows_or_null {A} (l : list A) : option (list A) :=
  match l with [] => None | _ => Some l end.

Definition exists_row {K A} `{Countable K} (P : K -> A -> bool) (m : gmap K A) : bool :=
  bool_decide (first_row P m <> None).

Definition b2z (b : bool) : Z := if b then 1 else 0.

(** [BIGINT UNSIGNED] and [SMALLINT] columns. *)
Definition bigint_unsigned (z : Z) : bool := (0 <=? z) && (z <? 2 ^ 64).
Definition smallint (z : Z) : bool := (- 2 ^ 15 <=? z) && (z <? 2 ^ 15).

(** ** Users *)

Definition getUser (username : string) : store -> option (Z * User) * store :=
  executeTemplate (select (fun d =>
    first_row (fun _ u => ci_eq (u_username u) username) (users d))).

Definition getUserInfo (uid : Z) : store -> option UserInfo * store :=
  executeTemplate (select (fun d => userInfo d !! uid)).

Definition hasUserInfo (uid : Z) : store -> bool * store :=
  executeTemplate (select (fun d => bool_decide (is_Some (userInfo d !! uid)))).

Definition userModifyPassword (user : User) : store -> Z * store :=
  let wanted := fun u => ci_eq (u_email u) (u_email user) && (u_uid u =? u_uid user) in
  executeTemplate (
    let* found := select (fun d => exists_row (fun _ u => wanted u) (users d)) in
    if negb found then ret 1
    else
      do* update (fun d => Some (tt, set_users
            ((fun u => if wanted u
                       then mkUser (u_uid u) (u_username u) (u_password user) (u_email u) (u_createTime u)
                       else u) <$> users d) d)) in
      ret 0).

(** [INSERT INTO users]: the id is generated, three unique keys are checked. *)
Definition insert_user (u : User) (s : store) : option unit * store :=
  let id := next_user s in
  let s := mkStore (db s) (saved s) (id + 1) (next_message s) (tick s) in
  if exists_row (fun _ v => (u_uid v =? u_uid u) || ci_eq (u_username v) (u_username u)
                            || ci_eq (u_email v) (u_email u)) (users (db s))
  then (None, s)
  else (Some tt, with_db (set_users (<[id := u]> (users (db s))) (db s)) s).

Definition userRegister (user : User) (createTime : string) : store -> Z * store :=
  executeTemplate (
    let* n := select (fun d => length (rows_where
                (fun _ u => ci_eq (u_email u) (u_email user) || (u_uid u =? u_uid user)) (users d))) in
    if (0 <? Z.of_nat n) then ret 1
    else
      do* statement (insert_user (mkUser (u_uid user) (u_username user) (u_password user)
                                    (u_email user) createTime)) in
      ret 0).

(** [INSERT INTO t]: refused when the primary key is taken. *)
Definition insert_row {K A} `{Countable K} (k : K) (a : A) (m : gmap K A) : option (gmap K A) :=
  match m !! k with Some _ => None | None => Some (<[k := a]> m) end.

Definition insertUserInfo (i : UserInfo) : store -> Z * store :=
  executeTemplate (
    do* update (fun d => (fun t => (tt, set_userInfo t d)) <$> insert_row (ui_uid i) i (userInfo d)) in
    ret 0).

(** [UPDATE userInfo SET ... WHERE uid = ?] *)
Definition update_info (uid : Z) (f : UserInfo -> UserInfo) (d : DB) : option (unit * DB) :=
  Some (tt, set_userInfo (alter f uid (userInfo d)) d).

Definition updateUserInfoName (uid : Z) (name : string) : store -> Z * store :=
  executeTemplate (
    do* update (update_info uid (fun i =>
          mkUserInfo (ui_uid i) name (ui_age i) (ui_sex i) (ui_headImageURL i))) in ret 0).

(** The two parameters of the statement are bound in the other order: [uid] is
    stored as the age of the user whose id is [age], refused if such a row
    exists and [uid] is no [SMALLINT]. *)
Definition updateUserInfoAge (uid age : Z) : store -> Z * store :=
  executeTemplate (
    do* update (fun d =>
          if bool_decide (is_Some (userInfo d !! age)) && negb (smallint uid) then None
          else update_info age (fun i =>
            mkUserInfo (ui_uid i) (ui_name i) uid (ui_sex i) (ui_headImageURL i)) d) in ret 0).

Definition updateUserInfoSex (uid : Z) (sex : string) : store -> Z * store :=
  executeTemplate (
    do* update (update_info uid (fun i =>
          mkUserInfo (ui_uid i) (ui_name i) (ui_age i) sex (ui_headImageURL i))) in ret 0).

Definition updateUserInfoHeadImageURL (uid : Z) (url : string) : store -> Z * store :=
  executeTemplate (
    do* update (update_info uid (fun i =>
          mkUserInfo (ui_uid i) (ui_name i) (ui_age i) (ui_sex i) url)) in ret 0).

Definition deleteUser (uid : Z) : store -> Z * store :=
  executeTemplate (
    do* update (fun d => Some (tt, set_users
          (filter (fun kv => (u_uid kv.2 =? uid) = false) (users d)) d)) in
    do* update (fun d => Some (tt, set_userInfo (delete uid (userInfo d)) d)) in
    ret 0).

Definition hasEmail (email : string) : store -> Z * store :=
  executeTemplate (select (fun d => b2z (exists_row (fun _ u => ci_eq (u_email u) email) (users d)))).

Definition hasUsername (username : string) : store -> Z * store :=
  executeTemplate (select (fun d =>
    b2z (exists_row (fun _ u => ci_eq (u_username u) username) (users d)))).

(** ** Friends *)

Definition getFriendList (uid : Z) : store -> option (list Friend) * store :=
  executeTemplate (select (fun d =>
    rows_or_null (snd <$> rows_where (fun k _ => k.1 =? uid) (friends d)))).

Definition insert_apply (a : FriendApply) (d : DB) : option (unit * DB) :=
  (fun t => (tt, set_friendApplys t d)) <$> insert_row (fa_from a, fa_to a) a (friendApplys d).

(** The same application seen from the other side. *)
Definition mirror_apply (a : FriendApply) : FriendApply :=
  mkFriendApply (fa_to a) (fa_from a) (fa_content a) (fa_status a) (fa_createTime a).

Definition insertFriendApply (a : FriendApply) : store -> Z * store :=
  executeTemplate (
    do* update (insert_apply a) in
    do* update (insert_apply (mirror_apply a)) in
    ret 0).

Definition update_apply (a : FriendApply) (d : DB) : option (unit * DB) :=
  Some (tt, set_friendApplys
    (alter (fun x => mkFriendApply (fa_from x) (fa_to x) (fa_content a) (fa_status a) (fa_createTime a))
       (fa_from a, fa_to a) (friendApplys d)) d).

Definition updateFriendApplyStatus (a : FriendApply) : store -> Z * store :=
  executeTemplate (
    do* update (update_apply a) in
    do* update (update_apply (mirror_apply a)) in
    ret 0).

Definition insert_friend (f : Friend) (d : DB) : option (unit * DB) :=
  (fun t => (tt, set_friends t d)) <$> insert_row (fr_uidA f, fr_uidB f) f (friends d).

Definition insertFriend (f : Friend) (dateTime : string) : store -> Z * store :=
  executeTemplate (
    do* update (insert_friend (mkFriend (fr_uidA f) (fr_uidB f) (fr_sessionId f) dateTime)) in
    do* update (insert_friend (mkFriend (fr_uidB f) (fr_uidA f) (fr_sessionId f) dateTime)) in
    ret 0).

Definition getFriendApplyList (from : Z) : store -> option (list FriendApply) * store :=
  executeTemplate (select (fun d =>
    rows_or_null (snd <$> rows_where
      (fun k a => (fa_status a =? 0) && (k.1 =? from)) (friendApplys d)))).

Definition deleteFriendApply (fromUid toUid : Z) : store -> Z * store :=
  executeTemplate (
    do* update (fun d => Some (tt, set_friendApplys (delete (fromUid, toUid) (friendApplys d)) d)) in
    ret 0).

Definition deleteFriend (uidA uidB : Z) : store -> Z * store :=
  executeTemplate (
    do* update (fun d => Some (tt, set_friends (delete (uidA, uidB) (friends d)) d)) in
    ret 0).

(** ** Groups *)

(** [sessionKey] is a unique key too. *)
Definition insertGroup (gid : Z) (g : GroupInfo) : store -> Z * store :=
  executeTemplate (
    do* update (fun d =>
          if negb (bigint_unsigned gid && bigint_unsigned (gi_sessionKey g)) ||
             exists_row (fun _ h => gi_sessionKey h =? gi_sessionKey g) (groupInfo d) then None
          else (fun t => (tt, set_groupInfo t d)) <$> insert_row gid g (groupInfo d)) in
    ret 0).

Definition insertGroupMember (gid uid : Z) (m : GroupMember) : store -> Z * store :=
  executeTemplate (
    do* update (fun d =>
          if negb (bigint_unsigned gid && bigint_unsigned uid) then None
          else (fun t => (tt, set_groupMembers t d)) <$> insert_row (gid, uid) m (groupMembers d)) in
    ret 0).

(** Every membership of every user: the parameter is not used. *)
Definition getGroupList (uid : Z) : store -> list (Z * Z * GroupMember) * store :=
  executeTemplate (select (fun d => map_to_list (groupMembers d))).

Definition hasGroup (gid : Z) : store -> Z * store :=
  executeTemplate (select (fun d => b2z (bool_decide (is_Some (groupInfo d !! gid))))).

Definition getGroupRoleMemberList (gid role : Z) : store -> list (Z * Z * GroupMember) * store :=
  executeTemplate (select (fun d =>
    rows_where (fun k m => (k.1 =? gid) && (role <=? gm_role m)) (groupMembers d))).

Definition getGroupMemberList (gid : Z) : store -> list (Z * Z * GroupMember) * store :=
  executeTemplate (select (fun d => rows_where (fun k _ => k.1 =? gid) (groupMembers d))).

Definition insertGroupApply (a : GroupApply) : store -> Z * store :=
  executeTemplate (
    do* update (fun d =>
          if negb (bigint_unsigned (ga_requestor a) && bigint_unsigned (ga_handler a) &&
                   bigint_unsigned (ga_gid a)) then None
          else (fun t => (tt, set_groupApplys t d)) <$>
               insert_row (ga_requestor a, ga_gid a) a (groupApplys d)) in
    ret 0).

Definition selectGroupApply : store -> option (list GroupApply) * store :=
  executeTemplate (select (fun d => rows_or_null (snd <$> map_to_list (groupApplys d)))).

Definition hasGroupApply (requestor gid : Z) : store -> Z * store :=
  executeTemplate (select (fun d => b2z (bool_decide (is_Some (groupApplys d !! (requestor, gid)))))).

Definition deleteGroupApply (requestor gid : Z) : store -> Z * store :=
  executeTemplate (
    do* update (fun d => Some (tt, set_groupApplys (delete (requestor, gid) (groupApplys d)) d)) in
    ret 0).

Definition updateGroupApply (a : GroupApply) : store -> Z * store :=
  executeTemplate (
    do* update (fun d =>
          if bool_decide (is_Some (groupApplys d !! (ga_requestor a, ga_gid a))) &&
             negb (bigint_unsigned (ga_handler a)) then None
          else Some (tt, set_groupApplys
          (alter (fun x => mkGroupApply (ga_requestor x) (ga_handler a) (ga_gid x) (ga_type a)
                             (ga_status a) (ga_message a) (ga_updateTime a))
             (ga_requestor a, ga_gid a) (groupApplys d)) d)) in
    ret 0).

Definition pullGroupApply (requestor : Z) : store -> option (list GroupApply) * store :=
  executeTemplate (select (fun d =>
    rows_or_null (snd <$> rows_where (fun k _ => k.1 =? requestor) (groupApplys d)))).
End MysqlDao.
