(* ===== verification/Messages.v ===== *)
(** * Messages and conversations in MySQL

    The operations of [MysqlDao] ([src/server/public/include/Mysql.h]) on the
    tables [messages], [conversations] and [conversationMembers]: accepting a
    text into a conversation, reading it back, acknowledging it. *)

From S2P Require Import Prelude Const Store.

(** ** Results *)

(** [MessageAcceptResult] with the two fields of its subclass
    [GroupMessageAcceptResult], which direct messages leave at their defaults. *)
Record AcceptResult := mkAccept {
  ar_error : Z; ar_diagnostic : string; ar_duplicate : bool;
  ar_messageId : Z; ar_conversationId : Z; ar_conversationSeq : Z;
  ar_groupId : Z; ar_recipientUids : list Z }.

Definition no_accept : AcceptResult := mkAccept MysqlFailed "" false 0 0 0 0 [].
#[export] Instance default_accept : DefaultForType AcceptResult := no_accept.

Definition set_error (e : Z) (a : AcceptResult) := mkAccept e (ar_diagnostic a)
  (ar_duplicate a) (ar_messageId a) (ar_conversationId a) (ar_conversationSeq a) (ar_groupId a) (ar_recipientUids a).
Definition set_failure (e : Z) (what : string) (a : AcceptResult) := mkAccept e what
  (ar_duplicate a) (ar_messageId a) (ar_conversationId a) (ar_conversationSeq a) (ar_groupId a) (ar_recipientUids a).
Definition set_conversation (c : Z) (a : AcceptResult) := mkAccept (ar_error a) (ar_diagnostic a)
  (ar_duplicate a) (ar_messageId a) c (ar_conversationSeq a) (ar_groupId a) (ar_recipientUids a).
Definition set_seq (q : Z) (a : AcceptResult) := mkAccept (ar_error a) (ar_diagnostic a)
  (ar_duplicate a) (ar_messageId a) (ar_conversationId a) q (ar_groupId a) (ar_recipientUids a).
Definition set_messageId (i : Z) (a : AcceptResult) := mkAccept (ar_error a) (ar_diagnostic a)
  (ar_duplicate a) i (ar_conversationId a) (ar_conversationSeq a) (ar_groupId a) (ar_recipientUids a).
Definition set_duplicate (i q : Z) (a : AcceptResult) := mkAccept (ar_error a) (ar_diagnostic a)
  true i (ar_conversationId a) q (ar_groupId a) (ar_recipientUids a).
Definition set_recipients (l : list Z) (a : AcceptResult) := mkAccept (ar_error a) (ar_diagnostic a)
  (ar_duplicate a) (ar_messageId a) (ar_conversationId a) (ar_conversationSeq a) (ar_groupId a) l.

(** [ConversationMessageRecord] *)
Record MessageRecord := mkRecord {
  r_messageId : Z; r_senderId : Z; r_receiverId : Z; r_conversationId : Z;
  r_conversationSeq : Z; r_clientMessageId : string; r_type : Z;
  r_content : string; r_status : Z; r_sendDateTime : string;
  r_readDateTime : string }.

Record ConversationSyncResult := mkSync {
  sy_error : Z; sy_conversationType : Z; sy_latestSeq : Z; sy_nextSeq : Z;
  sy_hasMore : bool; sy_messages : list MessageRecord }.

Definition no_sync : ConversationSyncResult := mkSync MysqlFailed 0 0 0 false [].
#[export] Instance default_sync : DefaultForType ConversationSyncResult := no_sync.

(** ** A local variable beside the store

    [accepted] is assigned step by step and keeps what it has when an exception
    is caught. *)
Section Local.
Context {L : Type}.

Definition lift {A} (m : ST store A) : ST (L * store) A := fun ls =>
  let '(o, s') := m ls.2 in (o, (ls.1, s')).
Definition assign (f : L -> L) : ST (L * store) unit := fun ls => (Ok tt, (f ls.1, ls.2)).
Definition local : ST (L * store) L := fun ls => (Ok ls.1, ls).
Definition with_local {A} (l : L) (m : ST (L * store) A) : ST store A := fun s =>
  let '(o, ls) := m (l, s) in (o, ls.2).
End Local.

Section Dao.
Context `{Collation} `{StdHash} `{Faults}.

(** ** Statements *)

(** [INSERT INTO conversations ... ON DUPLICATE KEY UPDATE conversationId =
    VALUES(conversationId)]: a row with the same primary key stays as it is; a
    row with the same type and business id has its primary key overwritten. *)
Definition upsert_conversation (c ty b : Z) (now : string) (d : DB) : option (unit * DB) :=
  let cs := conversations d in
  match cs !! c with
  | Some _ => Some (tt, d)
  | None =>
      match first_row (fun _ r => (cv_type r =? ty) && (cv_businessId r =? b)) cs with
      | Some (x, r) => Some (tt, set_conversations (<[c := r]> (delete x cs)) d)
      | None => Some (tt, set_conversations (<[c := mkConversation ty b 0 now]> cs) d)
      end
  end.

Definition new_member (joined : Z) : ConversationMember := mkMember joined None 0 0.

(** [INSERT IGNORE INTO conversationMembers]: rows already there stay. *)
Definition insert_members (rows : gmap (Z * Z) ConversationMember) (d : DB) : option (unit * DB) :=
  Some (tt, set_conversationMembers (conversationMembers d ∪ rows) d).

(** The rows selected for the members of a group. *)
Definition group_member_rows (c gid : Z) (d : DB) : gmap (Z * Z) ConversationMember :=
  match conversations d !! c with
  | Some cv => list_to_map ((fun kv => ((c, kv.1.2), new_member (cv_latestSeq cv + 1))) <$>
                 rows_where (fun k (_ : GroupMember) => k.1 =? gid) (groupMembers d))
  | None => ∅
  end.

(** The row with this sender and client id. *)
Definition find_client (sender : Z) (cid : string) (d : DB) : option (Z * Message) :=
  first_row (fun _ m => (m_senderId m =? sender) &&
    match m_clientMessageId m with Some x => ci_eq x cid | None => false end) (messages d).

Definition update_latest (c q : Z) (d : DB) : option (unit * DB) :=
  Some (tt, set_conversations
    (alter (fun r => mkConversation (cv_type r) (cv_businessId r) q (cv_createTime r)) c
       (conversations d)) d).

(** Unique keys of [messages]; a key with a NULL column never conflicts. *)
Definition message_conflict (m x : Message) : bool :=
  (match m_conversationId m, m_conversationSeq m, m_conversationId x, m_conversationSeq x with
   | Some c, Some q, Some c', Some q' => (c =? c') && (q =? q')
   | _, _, _, _ => false
   end) ||
  ((m_senderId m =? m_senderId x) &&
   match m_clientMessageId m, m_clientMessageId x with
   | Some a, Some b => ci_eq a b
   | _, _ => false
   end).

(** [INSERT INTO messages] without an id: the generated id. *)
Definition insert_message (m : Message) (s : store) : option Z * store :=
  let id := next_message s in
  let s := mkStore (db s) (saved s) (next_user s) (id + 1) (tick s) in
  match first_row (fun _ x => message_conflict m x) (messages (db s)) with
  | Some _ => (None, s)
  | None => (Some id, with_db (set_messages (<[id := m]> (messages (db s))) (db s)) s)
  end.

(** [INSERT INTO messages] with an id: the counter moves past it. *)
Definition insert_message_at (id : Z) (m : Message) (s : store) : option unit * store :=
  match messages (db s) !! id, first_row (fun _ x => message_conflict m x) (messages (db s)) with
  | None, None =>
      (Some tt, mkStore (set_messages (<[id := m]> (messages (db s))) (db s)) (saved s)
                  (next_user s) (Z.max (next_message s) (id + 1)) (tick s))
  | _, _ => (None, s)
  end.

(** [std::to_string(std::hash<std::string>{}(canonicalCommand))] *)
Definition command_hash (c : Z) (content : string) : string :=
  to_string (std_hash (to_string c +:+ ":" +:+ to_string Type_TEXT +:+ ":" +:+ content)).

(** The row of a newly accepted text. *)
Definition text_row (sender receiver c q : Z) (cid content now : string) : Message :=
  mkMessage sender receiver (Some c) (Some q) (Some cid) (Some (command_hash c content))
    (to_string c) Type_TEXT content Status_WAIT now "".

(** [sameCommand] *)
Definition same_command (m : Message) (c receiver : Z) (content : string) : bool :=
  bool_decide (m_conversationId m = Some c) && (m_receiverId m =? receiver) &&
  (m_type m =? Type_TEXT) && bool_decide (m_content m = content).

(** ** Accepting *)

(** [catch (const std::exception &error)] of both accept operations. *)
Definition accept_failed (what : string) : ST (AcceptResult * store) AcceptResult :=
  do* lift try_rollback in
  do* assign (set_failure MysqlFailed what) in
  local.

Definition acceptDirectText (senderId receiverId : Z) (clientMessageId content sendDateTime : string)
  : store -> AcceptResult * store :=
  executeTemplate (with_local no_accept (
    do* lift startTransaction in
    catch (
      let* friendRow := lift (select (fun d => fr_sessionId <$> friends d !! (senderId, receiverId))) in
      match friendRow with
      | None =>
          do* lift rollback in
          do* assign (set_error UserNotFriend) in
          local
      | Some c =>
          do* assign (set_conversation c) in
          do* lift (update (upsert_conversation c 1 c sendDateTime)) in
          do* lift (update (insert_members
                (<[(c, senderId) := new_member 1]> {[(c, receiverId) := new_member 1]}))) in
          let* sequenceRow := lift (select (fun d => cv_latestSeq <$> conversations d !! c)) in
          match sequenceRow with
          | None =>
              do* lift rollback in
              do* assign (set_failure MysqlFailed "conversation row missing after insert") in
              local
          | Some latest =>
              let* duplicateRow := lift (select (find_client senderId clientMessageId)) in
              match duplicateRow with
              | Some (id, m) =>
                  if negb (same_command m c receiverId content) then
                    do* lift rollback in
                    do* assign (set_error IdempotencyConflict) in
                    local
                  else
                    do* assign (set_duplicate id (default 0 (m_conversationSeq m))) in
                    do* assign (set_error Success) in
                    do* lift commit in
                    local
              | None =>
                  do* assign (set_seq (latest + 1)) in
                  do* lift (update (update_latest c (latest + 1))) in
                  let* id := lift (statement (insert_message
                        (text_row senderId receiverId c (latest + 1) clientMessageId content sendDateTime))) in
                  do* assign (set_messageId id) in
                  do* lift commit in
                  do* assign (set_error Success) in
                  local
              end
          end
      end)
    accept_failed)).

(** The members other than the sender, in table order. *)
Definition other_members (gid sender : Z) (d : DB) : list Z :=
  (fun kv => kv.1.2) <$>
    rows_where (fun k (_ : GroupMember) => (k.1 =? gid) && negb (k.2 =? sender)) (groupMembers d).

(** The end of the group transaction: recipients, commit. *)
Definition group_finish (senderId groupId : Z) : ST (AcceptResult * store) AcceptResult :=
  let* members := lift (select (other_members groupId senderId)) in
  do* assign (set_recipients members) in
  do* lift commit in
  do* assign (set_error Success) in
  local.

(** The initial [accepted] of a group message. *)
Definition group_accept (gid : Z) : AcceptResult := mkAccept MysqlFailed "" false 0 0 0 gid [].

Definition acceptGroupText (senderId groupId : Z) (clientMessageId content sendDateTime : string)
  : store -> AcceptResult * store :=
  executeTemplate (with_local (group_accept groupId) (
    do* lift startTransaction in
    catch (
      let* groupRow := lift (select (fun d =>
            match groupInfo d !! groupId, groupMembers d !! (groupId, senderId) with
            | Some gi, Some gm => Some (gi_sessionKey gi, gm_speech gm)
            | _, _ => None
            end)) in
      match groupRow with
      | None =>
          do* lift rollback in
          do* assign (set_error MessageOwnershipInvalid) in
          local
      | Some (c, speech) =>
          if negb (speech =? 0) then
            do* lift rollback in
            do* assign (set_error GroupNotifyFailed) in
            local
          else
          do* assign (set_conversation c) in
          do* lift (update (upsert_conversation c 2 groupId sendDateTime)) in
          do* lift (update (fun d => insert_members (group_member_rows c groupId d) d)) in
          let* sequenceRow := lift (select (fun d => cv_latestSeq <$> conversations d !! c)) in
          match sequenceRow with
          | None =>
              do* lift rollback in
              do* assign (set_failure MysqlFailed "group conversation row missing after insert") in
              local
          | Some latest =>
              let* duplicateRow := lift (select (find_client senderId clientMessageId)) in
              match duplicateRow with
              | Some (id, m) =>
                  if negb (same_command m c groupId content) then
                    do* lift rollback in
                    do* assign (set_error IdempotencyConflict) in
                    local
                  else
                    do* assign (set_duplicate id (default 0 (m_conversationSeq m))) in
                    group_finish senderId groupId
              | None =>
                  do* assign (set_seq (latest + 1)) in
                  do* lift (update (update_latest c (latest + 1))) in
                  let* id := lift (statement (insert_message
                        (text_row senderId groupId c (latest + 1) clientMessageId content sendDateTime))) in
                  do* assign (set_messageId id) in
                  group_finish senderId groupId
              end
          end
      end)
    accept_failed)).
(** [insertMessage]: the path without a conversation. *)
Definition insertMessage (messageId from to : Z) (sessionKey : string) (type : Z)
    (content : string) (status : Z) (sendDateTime readDateTime : string)
  : store -> Z * store :=
  executeTemplate (
    do* statement (insert_message_at messageId
          (mkMessage from to None None None None sessionKey type content status
             sendDateTime readDateTime)) in
    ret 0).

(** ** Reading a conversation *)

Definition seq_le (x y : Z * Message) : Prop :=
  default 0 (m_conversationSeq x.2) <= default 0 (m_conversationSeq y.2).
#[export] Instance seq_le_dec : RelDecision seq_le.
Proof. unfold seq_le. solve_decision. Defined.

(** [WHERE conversationId = ? AND conversationSeq > ? AND conversationSeq <= ?
    ORDER BY conversationSeq ASC LIMIT ?] *)
Definition in_range (c lo hi : Z) (m : Message) : bool :=
  match m_conversationId m, m_conversationSeq m with
  | Some c', Some q => (c' =? c) && (lo <? q) && (q <=? hi)
  | _, _ => false
  end.

Definition conversation_page (c lo hi : Z) (limit : nat) (d : DB) : list (Z * Message) :=
  take limit (merge_sort seq_le (rows_where (fun _ m => in_range c lo hi m) (messages d))).

Definition record_of (im : Z * Message) : MessageRecord :=
  let '(id, m) := im in
  mkRecord id (m_senderId m) (m_receiverId m) (default 0 (m_conversationId m))
    (default 0 (m_conversationSeq m)) (default "" (m_clientMessageId m)) (m_type m)
    (m_content m) (m_status m) (m_sendDateTime m) (m_readDateTime m).

(** The loop over the fetched rows: it stops, with [hasMore], at the row after
    the page. *)
Fixpoint sync_rows (bounded : nat) (rows : list (Z * Message)) (acc : list MessageRecord) (next : Z)
  : list MessageRecord * Z * bool :=
  match rows with
  | [] => (acc, next, false)
  | row :: rows =>
      if decide (bounded <= length acc)%nat then (acc, next, true)
      else let r := record_of row in
           sync_rows bounded rows (acc ++ [r]) (r_conversationSeq r)
  end.

(** [std::clamp(pullCount > 0 ? pullCount : 50, 1, 100)] *)
Definition bounded_count (pullCount : Z) : Z :=
  Z.min 100 (Z.max 1 (if 0 <? pullCount then pullCount else 50)).

Definition syncConversation (uid conversationId afterSeq pullCount : Z)
  : store -> ConversationSyncResult * store :=
  if (uid <=? 0) || (conversationId <=? 0) || (afterSeq <? 0)
  then fun s => (mkSync JsonParser 0 0 0 false [], s)
  else
    let boundedCount := bounded_count pullCount in
    executeTemplate (
      let* memberRow := select (fun d =>
            match conversations d !! conversationId, conversationMembers d !! (conversationId, uid) with
            | Some c, Some m => Some (cv_latestSeq c, cm_joinedSeq m,
                                      default (cv_latestSeq c) (cm_leftSeq m), cv_type c)
            | _, _ => None
            end) in
      match memberRow with
      | None => ret (mkSync MessageOwnershipInvalid 0 0 0 false [])
      | Some (latestSeq, joinedSeq, leftSeq, type) =>
          let effectiveAfter := Z.max afterSeq (joinedSeq - 1) in
          let* rows := select (conversation_page conversationId effectiveAfter leftSeq
                                 (Z.to_nat (boundedCount + 1))) in
          let '(msgs, next, more) := sync_rows (Z.to_nat boundedCount) rows [] 0 in
          ret (mkSync Success type latestSeq (if decide (msgs = []) then effectiveAfter else next)
                 more msgs)
      end).

(** ** Status and cursors *)

Definition set_status (st : Z) (m : Message) : Message :=
  mkMessage (m_senderId m) (m_receiverId m) (m_conversationId m) (m_conversationSeq m)
    (m_clientMessageId m) (m_commandHash m) (m_sessionKey m) (m_type m) (m_content m) st
    (m_sendDateTime m) (m_readDateTime m).
Definition set_read (r : string) (m : Message) : Message :=
  mkMessage (m_senderId m) (m_receiverId m) (m_conversationId m) (m_conversationSeq m)
    (m_clientMessageId m) (m_commandHash m) (m_sessionKey m) (m_type m) (m_content m) (m_status m)
    (m_sendDateTime m) r.

Definition updateMessage (messageId status : Z) (readDateTime : string) : store -> Z * store :=
  executeTemplate (
    do* update (fun d => Some (tt, set_messages
          (alter (fun m => if str_empty readDateTime then set_status status m
                           else set_status status (set_read readDateTime m))
             messageId (messages d)) d)) in
    ret 0).

(** [UPDATE messages SET readDateTime = CASE WHEN status < ? OR readDateTime = ''
    THEN ? ELSE readDateTime END, status = GREATEST(status, ?)]; assignments are
    evaluated from left to right, the first on the old status. *)
Definition receive_update (status : Z) (readDateTime : string) (m : Message) : Message :=
  if str_empty readDateTime then set_status (Z.max (m_status m) status) m
  else
    let m1 := if (m_status m <? status) || str_empty (m_readDateTime m)
              then set_read readDateTime m else m in
    set_status (Z.max (m_status m1) status) m1.

Definition updateMessageForReceiver (messageId receiverId status : Z) (readDateTime : string)
  : store -> Z * store :=
  executeTemplate (
    let* owner := select (fun d => m_receiverId <$> messages d !! messageId) in
    match owner with
    | None => ret 0
    | Some r =>
        if negb (r =? receiverId) then ret (-2)
        else
          do* update (fun d => Some (tt, set_messages
                (alter (fun m => if m_receiverId m =? receiverId
                                 then receive_update status readDateTime m else m)
                   messageId (messages d)) d)) in
          ret 1
    end).

Definition advance (seq : Z) (read : bool) (m : ConversationMember) : ConversationMember :=
  mkMember (cm_joinedSeq m) (cm_leftSeq m) (Z.max (cm_deliveredSeq m) seq)
    (if read then Z.max (cm_readSeq m) seq else cm_readSeq m).

#[local] Instance ConversationMember_eq_dec : EqDecision ConversationMember.
Proof. solve_decision. Defined.

(** Affected rows of an [UPDATE] of one row. *)
Definition b2z_changed (m m' : ConversationMember) : Z := if decide (m = m') then 0 else 1.

(** The server counts the rows it has changed, not those it has matched. *)
Definition advanceConversationCursor (uid conversationId conversationSeq : Z) (read : bool)
  : store -> Z * store :=
  if (uid <=? 0) || (conversationId <=? 0) || (conversationSeq <=? 0) then fun s => (0, s)
  else executeTemplate (
    let* affected := update (fun d =>
          match conversations d !! conversationId, conversationMembers d !! (conversationId, uid) with
          | Some c, Some m =>
              if conversationSeq <=? cv_latestSeq c then
                let m' := advance conversationSeq read m in
                Some (b2z_changed m m', set_conversationMembers
                  (<[(conversationId, uid) := m']> (conversationMembers d)) d)
              else Some (0, d)
          | _, _ => Some (0, d)
          end) in
    ret (if 0 <? affected then 1 else 0)).

(** [SET readDateTime = CASE WHEN ? = 3 AND (status < 3 OR readDateTime = '')
    THEN ? ELSE readDateTime END, status = GREATEST(status, ?)] *)
Definition ack_update (status : Z) (readDateTime : string) (m : Message) : Message :=
  let m1 := if (status =? 3) && ((m_status m <? 3) || str_empty (m_readDateTime m))
            then set_read readDateTime m else m in
  set_status (Z.max (m_status m1) status) m1.

Definition acknowledgeConversationMessage
    (messageId uid conversationId conversationSeq status : Z) (readDateTime : string)
  : store -> Z * store :=
  if (messageId <=? 0) || (uid <=? 0) || (conversationId <=? 0) || (conversationSeq <=? 0)
  then fun s => (0, s)
  else executeTemplate (
    do* startTransaction in
    catch (
      let* ownerRow := select (fun d =>
            match messages d !! messageId, conversations d !! conversationId,
                  conversationMembers d !! (conversationId, uid) with
            | Some m, Some c, Some _ =>
                if bool_decide (m_conversationId m = Some conversationId) &&
                   bool_decide (m_conversationSeq m = Some conversationSeq)
                then Some (cv_type c, m_receiverId m) else None
            | _, _, _ => None
            end) in
      match ownerRow with
      | None => do* rollback in ret 0
      | Some (conversationType, receiver) =>
          if (conversationType =? 1) && negb (receiver =? uid) then do* rollback in ret (-2)
          else
            do* (if conversationType =? 1
                 then update (fun d => Some (tt, set_messages
                        (alter (ack_update status readDateTime) messageId (messages d)) d))
                 else ret tt) in
            do* update (fun d => Some (tt, set_conversationMembers
                  (alter (advance conversationSeq (status =? 3)) (conversationId, uid)
                     (conversationMembers d)) d)) in
            do* commit in
            ret 1
      end)
      (fun what => do* try_rollback in throw what)).

(** ** The queries without a conversation *)

Definition id_ge (x y : Z * Message) : Prop := y.1 <= x.1.
#[export] Instance id_ge_dec : RelDecision id_ge.
Proof. unfold id_ge. solve_decision. Defined.

(** [... AND messageId >= ? ORDER BY messageId DESC LIMIT ?]; a negative limit
    is an error. *)
Definition legacy_page (wanted : Message -> bool) (lastMessageId pullCount : Z) (d : DB)
  : option (option (list (Z * Message)) * DB) :=
  if pullCount <? 0 then None
  else Some (match take (Z.to_nat pullCount) (merge_sort id_ge
                    (rows_where (fun id m => wanted m && (lastMessageId <=? id)) (messages d))) with
             | [] => None
             | l => Some l
             end, d).

(** [lastMessageId] is an [int]: a caller's 64-bit id is truncated to 32 bits. *)
Definition getSessionMessage (from to lastMessageId pullCount : Z)
  : store -> option (list (Z * Message)) * store :=
  if int32 lastMessageId <? 0 then fun s => (None, s)
  else executeTemplate (update (legacy_page
         (fun m => (m_senderId m =? from) && (m_receiverId m =? to))
         (int32 lastMessageId) pullCount)).

Definition getUserMessage (uid lastMessageId pullCount : Z)
  : store -> option (list (Z * Message)) * store :=
  if int32 lastMessageId <? 0 then fun s => (None, s)
  else executeTemplate (update (legacy_page
         (fun m => m_receiverId m =? uid) (int32 lastMessageId) pullCount)).

(** [deleteMessage]: not implemented in the source. *)
Definition deleteMessage (uid lastMessageId delCount : Z) : store -> Z * store :=
  executeTemplate (ret 0).

End Dao.
