(* ===== verification/Ledger.v ===== *)
(** * The conversation ledger: specification and refinement

    What accepting a text promises, as a function of the tables, the invariant
    of the tables it relies on and keeps, and the proof that the transactions
    of Messages implement it under every schedule of faults. *)

From S2P Require Import Prelude Const Store Messages.

(** ** The invariant of the tables *)

Section Invariant.
Context `{Collation}.

(** [m] stands at place [q] of conversation [c]. *)
Definition at_place (m : Message) (c q : Z) : Prop :=
  m_conversationId m = Some c /\ m_conversationSeq m = Some q.

(** Every conversation numbers its messages 1, 2, ..., [latestSeq] without gap
    or repetition, later numbers have later ids, and nobody used one client
    message id twice. A direct conversation is its own business id, a group
    conversation is the session key of its group. Cursors stay in range. *)
Record ledger_ok (n : Z) (d : DB) : Prop := {
  lo_fresh : forall id m, messages d !! id = Some m -> id < n;
  lo_place : forall id m c, messages d !! id = Some m -> m_conversationId m = Some c ->
    exists q cv, m_conversationSeq m = Some q /\ conversations d !! c = Some cv /\
      1 <= q <= cv_latestSeq cv;
  lo_dense : forall c cv q, conversations d !! c = Some cv -> 1 <= q <= cv_latestSeq cv ->
    exists id m, messages d !! id = Some m /\ at_place m c q;
  lo_latest : forall c cv, conversations d !! c = Some cv -> 0 <= cv_latestSeq cv;
  lo_order : forall id1 m1 id2 m2 c q1 q2,
    messages d !! id1 = Some m1 -> messages d !! id2 = Some m2 ->
    at_place m1 c q1 -> at_place m2 c q2 -> q1 <= q2 -> id1 <= id2;
  lo_client : forall id1 m1 id2 m2 k1 k2,
    messages d !! id1 = Some m1 -> messages d !! id2 = Some m2 ->
    m_senderId m1 = m_senderId m2 ->
    m_clientMessageId m1 = Some k1 -> m_clientMessageId m2 = Some k2 ->
    ci_key k1 = ci_key k2 -> id1 = id2;
  lo_direct : forall c cv, conversations d !! c = Some cv -> cv_type cv = 1 -> cv_businessId cv = c;
  lo_group : forall c cv, conversations d !! c = Some cv -> cv_type cv = 2 ->
    exists g, groupInfo d !! cv_businessId cv = Some g /\ gi_sessionKey g = c;
  lo_member : forall c u m, conversationMembers d !! (c, u) = Some m ->
    exists cv, conversations d !! c = Some cv /\
      0 <= cm_readSeq m <= cm_deliveredSeq m /\ cm_deliveredSeq m <= cv_latestSeq cv /\
      1 <= cm_joinedSeq m <= cv_latestSeq cv + 1 }.

Lemma ledger_ok_empty n : ledger_ok n empty_db.
Proof. split; intros *; unfold empty_db; simpl; rewrite ?lookup_empty; try done. Qed.

Lemma ledger_ok_mono n n' d : ledger_ok n d -> n <= n' -> ledger_ok n' d.
Proof.
  intros [] Hn. split; try done. intros id m Hm. specialize (lo_fresh0 _ _ Hm). lia.
Qed.
End Invariant.

(** ** The specification *)

Section Spec.
Context `{Collation} `{StdHash}.

(** The conversation exists afterwards. *)
Definition open_conversation (c ty b : Z) (now : string) (d : DB) : DB :=
  match conversations d !! c with
  | Some _ => d
  | None => set_conversations (<[c := mkConversation ty b 0 now]> (conversations d)) d
  end.

(** The given members belong to it; those who did keep their cursors. *)
Definition join (rows : gmap (Z * Z) ConversationMember) (d : DB) : DB :=
  set_conversationMembers (conversationMembers d ∪ rows) d.

Definition latest (c : Z) (d : DB) : Z :=
  default 0 (cv_latestSeq <$> conversations d !! c).

(** One more message at the end of the conversation. *)
Definition append_text (sender receiver c : Z) (cid content now : string) (d : DB) (n : Z) : DB :=
  let q := latest c d + 1 in
  set_messages (<[n := text_row sender receiver c q cid content now]> (messages d))
    (set_conversations
      (alter (fun r => mkConversation (cv_type r) (cv_businessId r) q (cv_createTime r)) c
         (conversations d)) d).

(** What a command does once its conversation [c] is known: [d1] is the state
    with the conversation opened and joined, [d] the state before. *)
Definition command_spec (base : AcceptResult) (sender receiver c : Z) (cid content now : string)
    (to : list Z) (d d1 : DB) (n : Z) : AcceptResult * DB * Z :=
  match find_client sender cid d with
  | Some (id, m) =>
      if same_command m c receiver content
      then (set_recipients to (set_error Success
              (set_duplicate id (default 0 (m_conversationSeq m)) base)), d1, n)
      else (set_error IdempotencyConflict base, d, n)
  | None =>
      (set_recipients to (set_error Success (set_messageId n (set_seq (latest c d1 + 1) base))),
       append_text sender receiver c cid content now d1 n, n + 1)
  end.

Definition direct_rows (c sender receiver : Z) : gmap (Z * Z) ConversationMember :=
  <[(c, sender) := new_member 1]> {[(c, receiver) := new_member 1]}.

Definition direct_spec (sender receiver : Z) (cid content now : string) (d : DB) (n : Z)
  : AcceptResult * DB * Z :=
  match fr_sessionId <$> friends d !! (sender, receiver) with
  | None => (set_error UserNotFriend no_accept, d, n)
  | Some c =>
      command_spec (set_conversation c no_accept) sender receiver c cid content now []
        d (join (direct_rows c sender receiver) (open_conversation c 1 c now d)) n
  end.

Definition group_spec (sender gid : Z) (cid content now : string) (d : DB) (n : Z)
  : AcceptResult * DB * Z :=
  match groupInfo d !! gid, groupMembers d !! (gid, sender) with
  | Some gi, Some gm =>
      if gm_speech gm =? 0 then
        let c := gi_sessionKey gi in
        let d1 := open_conversation c 2 gid now d in
        command_spec (set_conversation c (group_accept gid)) sender gid c cid content now
          (other_members gid sender d) d (join (group_member_rows c gid d1) d1) n
      else (set_error GroupNotifyFailed (group_accept gid), d, n)
  | _, _ => (set_error MessageOwnershipInvalid (group_accept gid), d, n)
  end.
End Spec.

(** ** The steps of the specification keep the invariant *)

Section Steps.
Context `{Collation} `{StdHash}.

(** A conversation may be opened under this type and business id. *)
Definition owns (c ty b : Z) (d : DB) : Prop :=
  (ty = 1 /\ b = c) \/
  (ty = 2 /\ exists g, groupInfo d !! b = Some g /\ gi_sessionKey g = c).

(** Under the invariant the upsert never renames a conversation. *)
Lemma upsert_open n c ty b now d :
  ledger_ok n d -> owns c ty b d ->
  upsert_conversation c ty b now d = Some (tt, open_conversation c ty b now d).
Proof.
  intros Hok Hown. unfold upsert_conversation, open_conversation.
  destruct (conversations d !! c) eqn:Ec; [done|].
  destruct (first_row _ _) as [[x r]|] eqn:E; [|done]. exfalso.
  apply first_row_Some in E as [Hx Hb]. boolp. subst.
  destruct Hown as [[Hty Hbc]|(Hty & g & Hg & Hc)].
  - pose proof (lo_direct _ _ Hok _ _ Hx Hty). congruence.
  - destruct (lo_group _ _ Hok _ _ Hx Hty) as (g' & Hg' & Hc'). congruence.
Qed.

Lemma open_lookup c ty b now d c' :
  conversations (open_conversation c ty b now d) !! c' =
  match conversations d !! c' with
  | Some cv => Some cv
  | None => if decide (c' = c) then Some (mkConversation ty b 0 now) else None
  end.
Proof.
  unfold open_conversation. destruct (conversations d !! c) eqn:E.
  - destruct (conversations d !! c') eqn:E'; [done|]. case_decide; congruence.
  - simpl. destruct (decide (c' = c)) as [->|Hne].
    + by rewrite lookup_insert_eq, E.
    + rewrite lookup_insert_ne by done. by destruct (conversations d !! c').
Qed.

Lemma open_is_Some c ty b now d :
  exists cv, conversations (open_conversation c ty b now d) !! c = Some cv.
Proof. rewrite open_lookup. destruct (conversations d !! c); [eauto|]. rewrite decide_True; eauto. Qed.

Lemma open_messages c ty b now d : messages (open_conversation c ty b now d) = messages d.
Proof. unfold open_conversation. by destruct (conversations d !! c). Qed.
Lemma open_members c ty b now d :
  conversationMembers (open_conversation c ty b now d) = conversationMembers d.
Proof. unfold open_conversation. by destruct (conversations d !! c). Qed.
Lemma open_groupInfo c ty b now d : groupInfo (open_conversation c ty b now d) = groupInfo d.
Proof. unfold open_conversation. by destruct (conversations d !! c). Qed.
Lemma open_groupMembers c ty b now d :
  groupMembers (open_conversation c ty b now d) = groupMembers d.
Proof. unfold open_conversation. by destruct (conversations d !! c). Qed.

Lemma ok_open n c ty b now d :
  ledger_ok n d -> owns c ty b d -> ledger_ok n (open_conversation c ty b now d).
Proof.
  intros Hok Hown. split.
  all: rewrite ?open_messages, ?open_members, ?open_groupInfo.
  - apply Hok.
  - intros id m c' Hm Hc'. destruct (lo_place _ _ Hok _ _ _ Hm Hc') as (q & cv & Hq & Hcv & Hle).
    exists q, cv. by rewrite open_lookup, Hcv.
  - intros c' cv q. rewrite open_lookup. destruct (conversations d !! c') eqn:E.
    + intros [= <-] Hq. by eapply (lo_dense _ _ Hok).
    + case_decide; [|done]. intros [= <-] Hq. simpl in Hq. lia.
  - intros c' cv. rewrite open_lookup. destruct (conversations d !! c') eqn:E.
    + intros [= <-]. by eapply (lo_latest _ _ Hok).
    + case_decide; [|done]. by intros [= <-].
  - apply (lo_order _ _ Hok).
  - apply (lo_client _ _ Hok).
  - intros c' cv. rewrite open_lookup. destruct (conversations d !! c') eqn:E.
    + intros [= <-]. by eapply (lo_direct _ _ Hok).
    + case_decide; [|done]. intros [= <-] Hty. simpl in *.
      destruct Hown as [[? ?]|[? _]]; [congruence|lia].
  - intros c' cv. rewrite open_lookup. destruct (conversations d !! c') eqn:E.
    + intros [= <-]. by eapply (lo_group _ _ Hok).
    + case_decide; [|done]. intros [= <-] Hty. simpl in *.
      destruct Hown as [[? ?]|(_ & g & Hg & Hc)]; [lia|]. exists g. by subst.
  - intros c' u m Hm. destruct (lo_member _ _ Hok _ _ _ Hm) as (cv & Hcv & Hle).
    exists cv. by rewrite open_lookup, Hcv.
Qed.

Lemma ok_join n rows d :
  ledger_ok n d ->
  (forall c u m, rows !! (c, u) = Some m ->
     exists cv j, conversations d !! c = Some cv /\ m = new_member j /\
       1 <= j <= cv_latestSeq cv + 1) ->
  ledger_ok n (join rows d).
Proof.
  intros Hok Hrows. split; try apply Hok.
  intros c u m. simpl. rewrite lookup_union_Some_raw. intros [Hm|[_ Hm]].
  - by eapply (lo_member _ _ Hok).
  - destruct (Hrows _ _ _ Hm) as (cv & j & Hcv & -> & Hj). exists cv. split; [done|].
    pose proof (lo_latest _ _ Hok _ _ Hcv). simpl. lia.
Qed.

Lemma find_client_None sender cid d :
  find_client sender cid d = None <->
  (forall id m k, messages d !! id = Some m -> m_senderId m = sender ->
     m_clientMessageId m = Some k -> ci_key k <> ci_key cid).
Proof.
  unfold find_client. rewrite first_row_None. split.
  - intros Hn id m k Hm Hs Hk Hc. specialize (Hn id m Hm). rewrite Hk in Hn.
    apply andb_false_iff in Hn as [Hn|Hn].
    + apply Z.eqb_neq in Hn. done.
    + unfold ci_eq in Hn. by apply bool_decide_eq_false in Hn.
  - intros Hn id m Hm. apply andb_false_iff. destruct (m_senderId m =? sender) eqn:Es; [|by left].
    right. boolp. destruct (m_clientMessageId m) as [k|] eqn:Ek; [|done].
    apply bool_decide_eq_false. by eapply Hn.
Qed.

Lemma find_client_Some sender cid d id m :
  find_client sender cid d = Some (id, m) ->
  messages d !! id = Some m /\ m_senderId m = sender /\
  exists k, m_clientMessageId m = Some k /\ ci_key k = ci_key cid.
Proof.
  unfold find_client. intros Hf. apply first_row_Some in Hf as [Hm Hp]. boolp.
  split; [done|]. split; [done|]. destruct (m_clientMessageId m) as [k|]; [|done].
  exists k. split; [done|]. unfold ci_eq in *. by boolp.
Qed.

(** The new row conflicts with no unique key. *)
Lemma append_no_conflict n sender receiver c q cid content now d cv :
  ledger_ok n d -> conversations d !! c = Some cv -> q = cv_latestSeq cv + 1 ->
  find_client sender cid d = None ->
  first_row (fun _ x => message_conflict (text_row sender receiver c q cid content now) x)
    (messages d) = None.
Proof.
  intros Hok Hcv -> Hf. rewrite find_client_None in Hf.
  apply first_row_None. intros id x Hx. unfold message_conflict. simpl.
  apply orb_false_iff. split.
  - destruct (m_conversationId x) as [c'|] eqn:Ec; [|done].
    destruct (lo_place _ _ Hok _ _ _ Hx Ec) as (q' & cv' & -> & Hcv' & Hq').
    apply andb_false_iff. destruct (c =? c') eqn:E; [|by left]. right. boolp. subst.
    apply Z.eqb_neq. simplify_eq. lia.
  - destruct (sender =? m_senderId x) eqn:Es; [|done]. boolp. simpl.
    destruct (m_clientMessageId x) as [k|] eqn:Ek; [|done].
    apply bool_decide_eq_false. intros Hc. by eapply (Hf id x k).
Qed.
Section Append.
Context (n sender receiver c : Z) (cid content now : string) (d : DB) (cv : Conversation).
Context (Hok : ledger_ok n d) (Hcv : conversations d !! c = Some cv)
  (Hnew : find_client sender cid d = None).

Let q := cv_latestSeq cv + 1.
Let d' := append_text sender receiver c cid content now d n.

Lemma latest_is : latest c d = cv_latestSeq cv.
Proof. unfold latest. by rewrite Hcv. Qed.

Lemma append_messages id :
  messages d' !! id =
  if decide (id = n) then Some (text_row sender receiver c q cid content now) else messages d !! id.
Proof.
  unfold d', append_text. simpl. rewrite latest_is. fold q. case_decide as Hid.
  - subst. by rewrite lookup_insert_eq.
  - by rewrite lookup_insert_ne.
Qed.

Lemma append_conversations c' :
  conversations d' !! c' =
  if decide (c' = c) then Some (mkConversation (cv_type cv) (cv_businessId cv) q (cv_createTime cv))
  else conversations d !! c'.
Proof.
  unfold d', append_text. simpl. rewrite latest_is. fold q. case_decide as Hc.
  - subst. by rewrite lookup_alter_eq, Hcv.
  - by rewrite lookup_alter_ne by congruence.
Qed.

(** An old message is not the new one. *)
Lemma append_old id m : messages d !! id = Some m -> id <> n /\ messages d' !! id = Some m.
Proof.
  intros Hm. pose proof (lo_fresh _ _ Hok _ _ Hm). rewrite append_messages, decide_False by lia.
  split; [lia|done].
Qed.

Lemma append_cases id m :
  messages d' !! id = Some m ->
  (id = n /\ m = text_row sender receiver c q cid content now) \/ messages d !! id = Some m.
Proof. rewrite append_messages. case_decide; [intros [= <-]; by left|by right]. Qed.

(** A place taken before is below the new one. *)
Lemma append_place id m q' : messages d !! id = Some m -> at_place m c q' -> q' < q.
Proof.
  intros Hm [Hc Hq]. destruct (lo_place _ _ Hok _ _ _ Hm Hc) as (q1 & cv1 & Hq1 & Hcv1 & Hle).
  unfold q. simplify_eq. lia.
Qed.

Lemma ok_append : ledger_ok (n + 1) d'.
Proof.
  pose proof (lo_latest _ _ Hok _ _ Hcv) as Hlat.
  split.
  - intros id m [[-> _]|Hm]%append_cases; [lia|]. pose proof (lo_fresh _ _ Hok _ _ Hm). lia.
  - intros id m c' [[-> ->]|Hm]%append_cases Hc.
    + simpl in Hc. injection Hc as <-. exists q. rewrite append_conversations, decide_True by done.
      eexists. split; [done|]. split; [done|]. simpl. unfold q. lia.
    + destruct (lo_place _ _ Hok _ _ _ Hm Hc) as (q1 & cv1 & Hq1 & Hcv1 & Hle).
      exists q1. rewrite append_conversations. case_decide; subst; simplify_eq; eexists;
        (split; [done|]); (split; [done|]); simpl; unfold q; lia.
  - intros c' cv' q'. rewrite append_conversations. case_decide as Hc.
    + intros [= <-] Hq. simpl in Hq. subst c'. destruct (decide (q' = q)) as [->|Hne].
      * exists n. rewrite append_messages, decide_True by done. eexists. split; [done|]. done.
      * destruct (lo_dense _ _ Hok c cv q' Hcv) as (id & m & Hm & Hp); [unfold q in *; lia|].
        exists id, m. split; [|done]. by apply append_old.
    + intros Hc' Hq. destruct (lo_dense _ _ Hok c' cv' q' Hc' Hq) as (id & m & Hm & Hp).
      exists id, m. split; [|done]. by apply append_old.
  - intros c' cv'. rewrite append_conversations. case_decide.
    + intros [= <-]. simpl. unfold q. lia.
    + by apply (lo_latest _ _ Hok).
  - intros id1 m1 id2 m2 c' q1 q2 [[-> ->]|H1]%append_cases [[-> ->]|H2]%append_cases Hp1 Hp2 Hle.
    + done.
    + destruct Hp1 as [[= <-] [= <-]]. pose proof (append_place _ _ _ H2 Hp2). lia.
    + pose proof (lo_fresh _ _ Hok _ _ H1). lia.
    + by eapply (lo_order _ _ Hok).
  - intros id1 m1 id2 m2 k1 k2 [[-> ->]|H1]%append_cases [[-> ->]|H2]%append_cases Hs Hk1 Hk2 Hc.
    + done.
    + simpl in Hs, Hk1. injection Hk1 as <-. exfalso.
      eapply (proj1 (find_client_None sender cid d) Hnew id2 m2 k2); eauto.
    + simpl in Hs, Hk2. injection Hk2 as <-. exfalso.
      eapply (proj1 (find_client_None sender cid d) Hnew id1 m1 k1); eauto.
    + eapply (lo_client _ _ Hok); eauto.
  - intros c' cv'. rewrite append_conversations. case_decide.
    + intros [= <-]. simpl. subst. by apply (lo_direct _ _ Hok).
    + by apply (lo_direct _ _ Hok).
  - intros c' cv'. rewrite append_conversations. case_decide.
    + intros [= <-]. simpl. subst. by apply (lo_group _ _ Hok).
    + by apply (lo_group _ _ Hok).
  - intros c' u m Hm. destruct (lo_member _ _ Hok c' u m Hm) as (cv1 & Hcv1 & Hle).
    rewrite append_conversations. case_decide; subst; simplify_eq; eexists; (split; [done|]);
      simpl; unfold q; lia.
Qed.
End Append.
End Steps.

(** ** Transactions implement the specification *)

Section Refinement.
Context `{Collation} `{StdHash} `{Faults}.
Context (t0 : nat) (d0 : DB) (n0 : Z).

(** Inside the transaction, with the local variable at [l]. *)
Definition TX (l : AcceptResult) (n : Z) (d : DB) (ls : AcceptResult * store) : Prop :=
  in_tx t0 d0 n d ls.2 /\ ls.1 = l /\ n0 <= n.

(** The transaction is over. *)
Definition finished (r : AcceptResult) (n : Z) (d : DB) (a : AcceptResult)
    (ls : AcceptResult * store) : Prop :=
  a = r /\ at_rest t0 n d ls.2.

(** An exception: the snapshot is there, or the transaction ended in one of the
    two ways and the reply was lost. *)
Definition escaped (n1 : Z) (d1 : DB) (ls : AcceptResult * store) : Prop :=
  failed_tx t0 d0 n0 ls.2 \/
  ((at_rest t0 n0 d0 ls.2 \/ at_rest t0 n1 d1 ls.2) /\ some_fault t0 (tick ls.2)).

Lemma failed_escaped n n1 d1 ls : n0 <= n -> failed_tx t0 d0 n ls.2 -> escaped n1 d1 ls.
Proof. intros Hn (G1 & G2 & G3). left. split; [done|]. split; [lia|done]. Qed.

Lemma tx_bind {A B} l n d l' n' d' a (m : ST (AcceptResult * store) A)
    (k : A -> ST (AcceptResult * store) B) Q E :
  triple (TX l n d) m (fun a' ls => a' = a /\ TX l' n' d' ls) E ->
  triple (TX l' n' d') (k a) Q E ->
  triple (TX l n d) (bind m k) Q E.
Proof.
  intros Hm Hk. eapply triple_bind; [exact Hm|]. intros a' ls [-> Hls]. exact (Hk ls Hls).
Qed.

Lemma tx_lift {A} l n d n' d' a (m : ST store A) n1 d1 :
  triple (in_tx t0 d0 n d) m (fun a' s => a' = a /\ in_tx t0 d0 n' d' s) (failed_tx t0 d0 n) ->
  n <= n' ->
  triple (TX l n d) (lift m) (fun a' ls => a' = a /\ TX l n' d' ls) (escaped n1 d1).
Proof.
  intros Hm Hn ls (Hs & Hl & Hn0). specialize (Hm ls.2 Hs). unfold lift.
  destruct (m ls.2) as [[a'|w] s']; simpl.
  - destruct Hm as [-> Hm]. split; [done|]. split; [done|]. split; [done|lia].
  - eapply failed_escaped; [exact Hn0|exact Hm].
Qed.

Lemma tx_select {A} l n d (q : DB -> A) n1 d1 :
  triple (TX l n d) (lift (select q)) (fun a' ls => a' = q d /\ TX l n d ls) (escaped n1 d1).
Proof. eapply tx_lift; [apply triple_select|lia]. Qed.

Lemma tx_update {A} l n d (u : DB -> option (A * DB)) a d' n1 d1 :
  u d = Some (a, d') ->
  triple (TX l n d) (lift (update u)) (fun a' ls => a' = a /\ TX l n d' ls) (escaped n1 d1).
Proof. intros. eapply tx_lift; [by apply triple_update|lia]. Qed.

Lemma tx_assign l n d f n1 d1 :
  triple (TX l n d) (assign f) (fun a' ls => a' = tt /\ TX (f l) n d ls) (escaped n1 d1).
Proof. intros ls (Hs & Hl & Hn). unfold assign. simpl. by subst. Qed.

(** The insertion of a row that conflicts with none. *)
Lemma tx_insert l n d m n1 d1 :
  first_row (fun _ x => message_conflict m x) (messages d) = None ->
  triple (TX l n d) (lift (statement (insert_message m)))
    (fun a' ls => a' = n /\ TX l (n + 1) (set_messages (<[n := m]> (messages d)) d) ls)
    (escaped n1 d1).
Proof.
  intros Hc. eapply tx_lift; [|lia]. apply triple_statement; [|lia].
  intros s (Hs & Hd & Hn & Ht). unfold insert_message. simpl. rewrite Hd, Hc, Hn. simpl.
  repeat split; simpl; rewrite ?Hd; done.
Qed.

(** The end: return after a commit, with the assignments still to make. *)
Lemma tx_commit_assign l n d f :
  triple (TX l n d) (do* lift commit in do* assign f in local) (finished (f l) n d) (escaped n d).
Proof.
  intros ls (Hs & Hl & Hn). pose proof (triple_commit t0 d0 n d ls.2 Hs) as Hc.
  unfold bind, lift, assign, local. simpl. destruct (commit ls.2) as [[a|w] s']; simpl.
  - by subst.
  - destruct Hc as [Hc|[Hc Hf]]; [by eapply failed_escaped|right; auto].
Qed.

Lemma tx_commit l n d :
  triple (TX l n d) (do* lift commit in local) (finished l n d) (escaped n d).
Proof.
  intros ls (Hs & Hl & Hn). pose proof (triple_commit t0 d0 n d ls.2 Hs) as Hc.
  unfold bind, lift, local. simpl. destruct (commit ls.2) as [[a|w] s']; simpl.
  - by subst.
  - destruct Hc as [Hc|[Hc Hf]]; [by eapply failed_escaped|right; auto].
Qed.

Lemma tx_rollback l d f n1 d1 :
  triple (TX l n0 d) (do* lift rollback in do* assign f in local)
    (finished (f l) n0 d0) (escaped n1 d1).
Proof.
  intros ls (Hs & Hl & Hn). pose proof (triple_rollback t0 d0 n0 d ls.2 Hs) as Hc.
  unfold bind, lift, assign, local. simpl. destruct (rollback ls.2) as [[a|w] s']; simpl.
  - by subst.
  - right. destruct Hc. auto.
Qed.

(** The handler restores the snapshot, if there still is one. *)
Lemma accept_failed_spec what n1 d1 ls :
  n0 <= n1 -> escaped n1 d1 ls ->
  exists r s', accept_failed what ls = (Ok r, (r, s')) /\ ar_error r = MysqlFailed /\
    saved s' = None /\ n0 <= next_message s' /\ some_fault t0 (tick s') /\
    (db s' = d0 \/ (db s' = d1 /\ n1 <= next_message s')).
Proof.
  intros Hn1 He. unfold accept_failed, bind, lift, assign, local.
  rewrite try_rollback_spec. eexists _, _. split; [done|]. split; [done|]. simpl.
  destruct He as [Hf|[Hr Hf]].
  - destruct (undo_failed _ _ _ _ Hf) as (G1 & G2 & G3 & G4).
    split; [done|]. split; [done|]. split; [by eapply some_fault_mono; [exact G4|lia]|by left].
  - rewrite tick_undo.
    assert (some_fault t0 (S (tick ls.2))) by (eapply some_fault_mono; [exact Hf|lia]).
    destruct Hr as [(G1 & G2 & G3 & G4)|(G1 & G2 & G3 & G4)]; rewrite undo_None by done;
      repeat split; try done; try lia; [by left|right; split; [done|lia]].
Qed.
End Refinement.

(** An accept operation implements a specification: it does what it says, or it
    reports a failure, after a failure, and then either nothing has happened or
    everything has. *)
Definition implements `{Collation} `{Faults} (run : store -> AcceptResult * store)
    (spec : DB -> Z -> AcceptResult * DB * Z) : Prop :=
  forall s, saved s = None -> ledger_ok (next_message s) (db s) ->
  let '(r, s') := run s in
  let '(r0, d1, n1) := spec (db s) (next_message s) in
  saved s' = None /\ next_message s <= next_message s' /\
  ((r = r0 /\ db s' = d1 /\ next_message s' = n1) \/
   (ar_error r = MysqlFailed /\ some_fault (tick s) (tick s') /\
    (db s' = db s \/ (db s' = d1 /\ n1 <= next_message s')))).

Lemma transaction_implements `{Collation} `{Faults} l0 body spec :
  (forall t0 d0 n0, ledger_ok n0 d0 ->
     let '(r, d1, n1) := spec d0 n0 in
     n0 <= n1 /\
     triple (TX t0 d0 n0 l0 n0 d0) body (finished t0 r n1 d1) (escaped t0 d0 n0 n1 d1)) ->
  implements (executeTemplate (with_local l0 (do* lift startTransaction in catch body accept_failed)))
    spec.
Proof.
  intros Hbody s Hs Hok. unfold executeTemplate.
  specialize (Hbody (tick s) (db s) (next_message s) Hok).
  destruct (spec (db s) (next_message s)) as [[r0 d1] n1]. destruct Hbody as [Hn1 Hbody].
  assert (forall t, fault_at (tick s) <> FNone -> (S (tick s) <= t)%nat -> some_fault (tick s) t)
    as Hfault by (intros t Hf Ht; exists (tick s); split; [lia|done]).
  destruct (fault_at (tick s)) eqn:E; cycle 1.
  1, 2: split; [done|]; split; [simpl; lia|]; right; repeat split;
    [apply Hfault; [done|simpl; lia]|by left].
  unfold with_local, bind, lift at 1. simpl.
  assert (at_rest (tick s) (next_message s) (db s) (tock s)) as Hrest
    by (repeat split; simpl; (done || lia)).
  pose proof (triple_start _ _ _ _ Hrest) as Hst.
  destruct (startTransaction (tock s)) as [[[]|w] s1].
  2: { simpl. destruct Hst as (Hsv & Hd & Hn & Hf). rewrite undo_saved.
    assert (db (undo s1) = db s /\ next_message (undo s1) = next_message s) as [-> ->]
      by (unfold undo; destruct Hsv as [->| ->]; done).
    split; [done|]. split; [lia|]. right. rewrite tick_undo. auto. }
  simpl. unfold catch.
  specialize (Hbody (l0, s1) ltac:(repeat split; simpl; try apply Hst; lia)).
  destruct (body (l0, s1)) as [[a|w] ls].
  - destruct Hbody as [-> (G1 & G2 & G3 & _)]. split; [done|]. split; [lia|]. left. done.
  - destruct (accept_failed_spec _ _ _ w n1 d1 ls Hn1 Hbody)
      as (r & s' & -> & Hr & Hs1 & Hs2 & Hs3 & Hs4).
    simpl. split; [done|]. split; [done|]. right. done.
Qed.

Section Accept.
Context `{Collation} `{StdHash} `{Faults}.

Lemma find_client_eq sender cid d d' :
  messages d = messages d' -> find_client sender cid d = find_client sender cid d'.
Proof. unfold find_client. by intros ->. Qed.

Lemma direct_rows_new c sender receiver c' u m :
  direct_rows c sender receiver !! (c', u) = Some m -> c' = c /\ m = new_member 1.
Proof.
  unfold direct_rows. intros [[Hk <-]|[_ [Hk <-]%lookup_singleton_Some]]%lookup_insert_Some;
    by simplify_eq.
Qed.

Lemma group_rows_new c gid d c' u m :
  group_member_rows c gid d !! (c', u) = Some m ->
  exists cv, conversations d !! c = Some cv /\ c' = c /\ m = new_member (cv_latestSeq cv + 1).
Proof.
  unfold group_member_rows. destruct (conversations d !! c) as [cv|]; [|by rewrite lookup_empty].
  intros Hl%elem_of_list_to_map_2. apply list_elem_of_fmap in Hl as ([k g] & Heq & _).
  exists cv. by simplify_eq.
Qed.

(** The state a direct command works on keeps the invariant. *)
Lemma ok_direct_state n c sender receiver now d :
  ledger_ok n d -> ledger_ok n (join (direct_rows c sender receiver) (open_conversation c 1 c now d)).
Proof.
  intros Hok. assert (ledger_ok n (open_conversation c 1 c now d)) as Hok1
    by (apply ok_open; [done|by left]).
  apply ok_join; [done|]. intros c' u m [-> ->]%direct_rows_new.
  destruct (open_is_Some c 1 c now d) as [cv Hcv]. exists cv, 1.
  pose proof (lo_latest _ _ Hok1 _ _ Hcv). repeat split; (done || lia).
Qed.

Lemma ok_group_state n c gid g now d :
  ledger_ok n d -> groupInfo d !! gid = Some g -> gi_sessionKey g = c ->
  let d1 := open_conversation c 2 gid now d in
  ledger_ok n (join (group_member_rows c gid d1) d1).
Proof.
  intros Hok Hg Hc d1. assert (ledger_ok n d1) as Hok1
    by (apply ok_open; [done|right; eauto]).
  apply ok_join; [done|]. intros c' u m (cv & Hcv & -> & ->)%group_rows_new. exists cv, (cv_latestSeq cv + 1).
  pose proof (lo_latest _ _ Hok1 _ _ Hcv). repeat split; (done || lia).
Qed.

(** One step of a transaction whose result is known. *)
Ltac tx rule := eapply tx_bind; [apply rule|]; cbv beta.

Lemma direct_implements sender receiver cid content now :
  implements (acceptDirectText sender receiver cid content now)
    (direct_spec sender receiver cid content now).
Proof.
  apply transaction_implements. intros t0 d0 n0 Hok. unfold direct_spec.
  destruct (fr_sessionId <$> friends d0 !! (sender, receiver)) as [c|] eqn:Ef.
  2: { split; [lia|]. tx tx_select. rewrite Ef. apply tx_rollback. }
  set (d1 := join _ _).
  pose proof (ok_direct_state n0 c sender receiver now d0 Hok) as Hok1. fold d1 in Hok1.
  assert (exists cv, conversations d1 !! c = Some cv) as [cv Hcv] by apply open_is_Some.
  unfold command_spec.
  rewrite <- (find_client_eq sender cid d1 d0) by (exact (open_messages c 1 c now d0)).
  destruct (find_client sender cid d1) as [[id m]|] eqn:Ec;
    [destruct (same_command m c receiver content) eqn:Es|]; (split; [lia|]).
  all: tx tx_select; rewrite Ef; cbv iota.
  all: tx tx_assign; eapply tx_bind;
    [apply tx_update, (upsert_open n0); [done|by left]|]; cbv beta.
  all: tx tx_update; [reflexivity|]; fold (direct_rows c sender receiver).
  all: fold (join (direct_rows c sender receiver) (open_conversation c 1 c now d0)); fold d1.
  all: tx tx_select; rewrite Hcv; cbn [fmap option_fmap option_map].
  all: tx tx_select; rewrite Ec, ?Es; cbn [negb].
  - change (set_recipients [] ?x) with x. tx tx_assign. tx tx_assign. apply tx_commit.
  - apply tx_rollback.
  - change (set_recipients [] ?x) with x.
    tx tx_assign. tx tx_update; [reflexivity|]. eapply tx_bind.
    { apply tx_insert.
      exact (append_no_conflict n0 _ _ _ _ _ _ _ d1 cv Hok1 Hcv eq_refl Ec). }
    cbv beta. tx tx_assign. unfold append_text. rewrite (latest_is _ _ _ Hcv).
    apply tx_commit_assign.
Qed.
(** The last part of a group command. *)
Lemma group_finish_spec t0 d0 n0 l n d sender gid :
  triple (TX t0 d0 n0 l n d) (group_finish sender gid)
    (finished t0 (set_error Success (set_recipients (other_members gid sender d) l)) n d)
    (escaped t0 d0 n0 n d).
Proof. unfold group_finish. tx tx_select. tx tx_assign. apply tx_commit_assign. Qed.

Lemma group_implements sender gid cid content now :
  implements (acceptGroupText sender gid cid content now) (group_spec sender gid cid content now).
Proof.
  apply transaction_implements. intros t0 d0 n0 Hok. unfold group_spec.
  destruct (groupInfo d0 !! gid) as [gi|] eqn:Egi; cycle 1.
  { split; [lia|]. tx tx_select. rewrite Egi. apply tx_rollback. }
  destruct (groupMembers d0 !! (gid, sender)) as [gm|] eqn:Egm; cycle 1.
  { split; [lia|]. tx tx_select. rewrite Egi, Egm. apply tx_rollback. }
  destruct (gm_speech gm =? 0) eqn:Esp; cycle 1.
  { split; [lia|]. tx tx_select. rewrite Egi, Egm. cbv iota. rewrite Esp. apply tx_rollback. }
  set (c := gi_sessionKey gi). cbv zeta. set (d1 := join _ _).
  pose proof (ok_group_state n0 c gid gi now d0 Hok Egi eq_refl) as Hok1. cbv zeta in Hok1.
  fold d1 in Hok1.
  assert (exists cv, conversations d1 !! c = Some cv) as [cv Hcv] by apply open_is_Some.
  unfold command_spec.
  rewrite <- (find_client_eq sender cid d1 d0) by (exact (open_messages c 2 gid now d0)).
  assert (forall d, groupMembers d = groupMembers d1 ->
    other_members gid sender d = other_members gid sender d0) as Hto.
  { intros d Hd. unfold other_members. rewrite Hd. unfold d1. cbn.
    by rewrite open_groupMembers. }
  destruct (find_client sender cid d1) as [[id m]|] eqn:Ec;
    [destruct (same_command m c gid content) eqn:Es|]; (split; [lia|]).
  all: tx tx_select; rewrite Egi, Egm; cbv iota; rewrite Esp; cbn [negb]; fold c.
  all: tx tx_assign; eapply tx_bind;
    [apply tx_update, (upsert_open n0); [done|right; eauto]|]; cbv beta.
  all: tx tx_update; [reflexivity|].
  all: fold (join (group_member_rows c gid (open_conversation c 2 gid now d0))
                  (open_conversation c 2 gid now d0)); fold d1.
  all: tx tx_select; rewrite Hcv; cbn [fmap option_fmap option_map].
  all: tx tx_select; rewrite Ec, ?Es; cbn [negb].
  - tx tx_assign. rewrite <- (Hto d1 eq_refl). apply group_finish_spec.
  - apply tx_rollback.
  - tx tx_assign. tx tx_update; [reflexivity|]. eapply tx_bind.
    { apply tx_insert.
      exact (append_no_conflict n0 _ _ _ _ _ _ _ d1 cv Hok1 Hcv eq_refl Ec). }
    cbv beta. tx tx_assign. rewrite <- (Hto (append_text sender gid c cid content now d1 n0) eq_refl).
    unfold append_text. rewrite (latest_is _ _ _ Hcv). apply group_finish_spec.
Qed.
End Accept.

(** ** Acknowledging *)

Section Acknowledge.
Context `{Collation} `{StdHash} `{Faults}.

(** What an acknowledgement does: the receiver of a direct message moves its
    status, any member moves the cursors. *)
Definition ack_spec (mid uid c q status : Z) (readDateTime : string) (d : DB) : Z * DB :=
  if (mid <=? 0) || (uid <=? 0) || (c <=? 0) || (q <=? 0) then (0, d)
  else match messages d !! mid, conversations d !! c, conversationMembers d !! (c, uid) with
       | Some m, Some cv, Some cm =>
           if bool_decide (m_conversationId m = Some c) && bool_decide (m_conversationSeq m = Some q)
           then
             if (cv_type cv =? 1) && negb (m_receiverId m =? uid) then (-2, d)
             else
               let d1 := if cv_type cv =? 1
                         then set_messages (<[mid := ack_update status readDateTime m]> (messages d)) d
                         else d in
               (1, set_conversationMembers
                     (<[(c, uid) := advance q (status =? 3) cm]> (conversationMembers d)) d1)
           else (0, d)
       | _, _, _ => (0, d)
       end.

(** An operation with a numeric result implements a specification: as
    [implements], -1 being the report of a failure. *)
Definition implements_Z (run : store -> Z * store) (spec : DB -> Z * DB) : Prop :=
  forall s, saved s = None ->
  let '(r, s') := run s in
  let '(r0, d1) := spec (db s) in
  saved s' = None /\ next_message s' = next_message s /\
  ((r = r0 /\ db s' = d1) \/
   (r = -1 /\ some_fault (tick s) (tick s') /\ (db s' = db s \/ db s' = d1))).

Section Body.
Context (t0 : nat) (d0 : DB) (n : Z).

Definition tx (d : DB) (s : store) : Prop := in_tx t0 d0 n d s.
Definition lost (d1 : DB) (s : store) : Prop :=
  (saved s = Some d0 /\ next_message s = n /\ some_fault t0 (tick s)) \/
  ((at_rest t0 n d0 s \/ at_rest t0 n d1 s) /\ some_fault t0 (tick s)).

Lemma stmt_exact {A} (f : store -> option A * store) d a d' d1 :
  (forall s, tx d s -> (f s).1 = Some a /\ tx d' (f s).2 /\ tick (f s).2 = tick s) ->
  triple (tx d) (statement f) (fun a' s => a' = a /\ tx d' s) (lost d1).
Proof.
  intros Hf s Hs. destruct (Hf s Hs) as (Ha & (G1 & G2 & G3 & G4) & Ht).
  destruct Hs as (F1 & F2 & F3 & F4). unfold statement, lost.
  destruct (fault_at (tick s)) eqn:E.
  - destruct (f s) as [o s']. simpl in *. subst o. repeat split; simpl; (done || lia).
  - left. simpl. split; [done|]. split; [done|]. apply some_fault_here; [done|congruence].
  - left. simpl. split; [done|]. split; [done|]. rewrite Ht. apply some_fault_here; [done|congruence].
Qed.

Lemma tx_bind_Z {A B} d a d' d1 (m : ST store A) (k : A -> ST store B) Q :
  triple (tx d) m (fun a' s => a' = a /\ tx d' s) (lost d1) ->
  triple (tx d') (k a) Q (lost d1) ->
  triple (tx d) (bind m k) Q (lost d1).
Proof.
  intros Hm Hk. eapply triple_bind; [exact Hm|]. intros a' s [-> Hs]. exact (Hk s Hs).
Qed.

Lemma select_exact {A} (q : DB -> A) d d1 :
  triple (tx d) (select q) (fun a' s => a' = q d /\ tx d s) (lost d1).
Proof. apply stmt_exact. intros s Hs. pose proof Hs as (_ & <- & _). done. Qed.

Lemma update_exact {A} (u : DB -> option (A * DB)) d a d' d1 :
  u d = Some (a, d') ->
  triple (tx d) (update u) (fun a' s => a' = a /\ tx d' s) (lost d1).
Proof.
  intros Hu. apply stmt_exact. intros s (G1 & G2 & G3 & G4). rewrite G2, Hu. done.
Qed.

Lemma commit_ret {A} (a : A) d :
  triple (tx d) (do* commit in ret a) (fun a' s => a' = a /\ at_rest t0 n d s) (lost d).
Proof.
  intros s (G1 & G2 & G3 & G4). unfold bind, commit, statement, ret, lost.
  destruct (fault_at (tick s)) eqn:E; simpl.
  - repeat split; simpl; (done || lia).
  - left. split; [done|]. split; [done|]. apply some_fault_here; [done|congruence].
  - right. split; [right; repeat split; simpl; (done || lia)|]. apply some_fault_here; [done|congruence].
Qed.

Lemma rollback_ret {A} (a : A) d d1 :
  triple (tx d) (do* rollback in ret a) (fun a' s => a' = a /\ at_rest t0 n d0 s) (lost d1).
Proof.
  intros s Hs. unfold bind, ret. pose proof (triple_rollback t0 d0 n d s Hs) as Hr.
  destruct (rollback s) as [[[]|w] s']; [done|]. right. destruct Hr; auto.
Qed.
End Body.

(** A transaction that rolls back and throws again. *)
Lemma rethrow_transaction (body : ST store Z) r0 d1 s :
  saved s = None ->
  triple (tx (tick s) (db s) (next_message s) (db s)) body
    (fun a s' => a = r0 /\ at_rest (tick s) (next_message s) d1 s')
    (lost (tick s) (db s) (next_message s) d1) ->
  let '(r, s') := executeTemplate (do* startTransaction in
                    catch body (fun what => do* try_rollback in throw what)) s in
  saved s' = None /\ next_message s' = next_message s /\
  ((r = r0 /\ db s' = d1) \/
   (r = -1 /\ some_fault (tick s) (tick s') /\ (db s' = db s \/ db s' = d1))).
Proof.
  intros Hs Hbody. unfold executeTemplate.
  assert (forall t, fault_at (tick s) <> FNone -> (S (tick s) <= t)%nat -> some_fault (tick s) t)
    as Hfault by (intros t Hf Ht; exists (tick s); split; [lia|done]).
  destruct (fault_at (tick s)) eqn:E; cycle 1.
  1, 2: split; [done|]; split; [done|]; right; repeat split;
    [apply Hfault; [done|simpl; lia]|by left].
  assert (at_rest (tick s) (next_message s) (db s) (tock s)) as Hrest
    by (repeat split; simpl; (done || lia)).
  pose proof (triple_start _ _ _ _ Hrest) as Hst. unfold bind at 1.
  destruct (startTransaction (tock s)) as [[[]|w] s1].
  2: { destruct Hst as (Hsv & Hd & Hn & Hf). rewrite undo_saved.
    assert (db (undo s1) = db s /\ next_message (undo s1) = next_message s) as [-> ->]
      by (unfold undo; destruct Hsv as [->| ->]; done).
    split; [done|]. split; [done|]. right. rewrite tick_undo. auto. }
  specialize (Hbody s1 Hst). unfold catch. destruct (body s1) as [[a|w] s2].
  - destruct Hbody as [-> (G1 & G2 & G3 & _)]. auto.
  - unfold bind, throw. rewrite try_rollback_spec.
    rewrite undo_None by (simpl; apply undo_saved). simpl. rewrite undo_saved, tick_undo.
    split; [done|]. destruct Hbody as [(G1 & G2 & G3)|[Hr G3]].
    + unfold undo. rewrite G1. simpl. split; [done|]. right. split; [done|]. split; [|by left].
      eapply some_fault_mono; [exact G3|lia].
    + assert (some_fault (tick s) (S (tick s2))) by (eapply some_fault_mono; [exact G3|lia]).
      destruct Hr as [(G1 & G2 & G4 & _)|(G1 & G2 & G4 & _)]; rewrite undo_None by done; (split; [done|]); right; (split; [done|]); (split; [done|]); auto.
Qed.

Lemma ack_implements mid uid c q status rd :
  implements_Z (acknowledgeConversationMessage mid uid c q status rd)
    (ack_spec mid uid c q status rd).
Proof.
  intros s Hs. unfold acknowledgeConversationMessage, ack_spec.
  destruct (_ || _ || _ || _); [by auto 10|].
  destruct (match messages (db s) !! mid with Some _ => _ | None => _ end) as [r0 d1] eqn:Espec.
  apply rethrow_transaction; [done|].
  eapply tx_bind_Z; [apply select_exact|]. cbv beta.
  destruct (messages (db s) !! mid) as [m|] eqn:Em; [|simplify_eq; apply rollback_ret].
  destruct (conversations (db s) !! c) as [cv|] eqn:Ecv; [|simplify_eq; apply rollback_ret].
  destruct (conversationMembers (db s) !! (c, uid)) as [cm|] eqn:Ecm; [|simplify_eq; apply rollback_ret].
  destruct (bool_decide _ && bool_decide _); [|simplify_eq; apply rollback_ret].
  destruct (cv_type cv =? 1) eqn:Ety; simpl andb in Espec |- *; cbv iota in Espec |- *.
  - destruct (negb (m_receiverId m =? uid)); simplify_eq; [apply rollback_ret|].
    eapply tx_bind_Z; [apply update_exact; reflexivity|].
    eapply tx_bind_Z; [apply update_exact; reflexivity|]. simpl.
    rewrite (alter_alt_Some _ _ _ m), (alter_alt_Some _ _ _ cm) by done.
    apply commit_ret.
  - simplify_eq. eapply (tx_bind_Z _ _ _ _ tt).
    { intros s' Hs'. split; [reflexivity|exact Hs']. }
    eapply tx_bind_Z; [apply update_exact; reflexivity|]. simpl.
    rewrite (alter_alt_Some _ _ _ cm) by done. apply commit_ret.
Qed.
End Acknowledge.
