(* ===== verification/History.v ===== *)
(** * Histories of database operations

    Every operation of [MysqlDao] that changes the tables keeps the ledger
    invariant and never changes what a stored message says, whatever fails.
    From this: one command is stored once, a conversation read page by page is
    complete, cursors only advance. *)

From S2P Require Import Prelude Const Store Mysql Messages Ledger.

(** ** What never changes in a message *)

Definition core (m : Message) :=
  (m_senderId m, m_receiverId m, m_conversationId m, m_conversationSeq m,
   m_clientMessageId m, m_type m, m_content m, m_sendDateTime m).

(** Messages stay, with their identity and text; conversations stay and only
    get longer; statuses and cursors only move forward. *)
Record grows (d d' : DB) : Prop := {
  gr_message : forall id m, messages d !! id = Some m ->
    exists m', messages d' !! id = Some m' /\ core m' = core m;
  gr_conversation : forall c cv, conversations d !! c = Some cv ->
    exists cv', conversations d' !! c = Some cv' /\ cv_latestSeq cv <= cv_latestSeq cv';
  gr_member : forall k m, conversationMembers d !! k = Some m ->
    exists m', conversationMembers d' !! k = Some m' /\
      cm_joinedSeq m' = cm_joinedSeq m /\
      cm_deliveredSeq m <= cm_deliveredSeq m' /\ cm_readSeq m <= cm_readSeq m' }.

#[export] Instance grows_preorder : PreOrder grows.
Proof.
  split.
  - intros d. split; intros; eexists; (split; [done|]); done || (repeat split; lia).
  - intros d1 d2 d3 [A1 A2 A3] [B1 B2 B3]. split.
    + intros id m Hm. destruct (A1 _ _ Hm) as (m1 & H1 & E1).
      destruct (B1 _ _ H1) as (m2 & H2 & E2). exists m2. split; [done|congruence].
    + intros c cv Hc. destruct (A2 _ _ Hc) as (c1 & H1 & L1).
      destruct (B2 _ _ H1) as (c2 & H2 & L2). exists c2. split; [done|lia].
    + intros k m Hm. destruct (A3 _ _ Hm) as (m1 & H1 & J1 & D1 & R1).
      destruct (B3 _ _ H1) as (m2 & H2 & J2 & D2 & R2). exists m2.
      split; [done|]. split; [congruence|lia].
Qed.

(** The tables of the ledger are untouched, groups are only added. *)
Record ledger_same (d d' : DB) : Prop := {
  ls_messages : messages d' = messages d;
  ls_conversations : conversations d' = conversations d;
  ls_members : conversationMembers d' = conversationMembers d;
  ls_groups : groupInfo d ⊆ groupInfo d' }.

(** A step keeps the invariant and only lets the ledger grow. *)
Definition step_ok `{Collation} (n : Z) (d : DB) (n' : Z) (d' : DB) : Prop :=
  ledger_ok n' d' /\ grows d d' /\ n <= n'.

Section StepLemmas.
Context `{Collation}.

Lemma step_ok_refl n d : ledger_ok n d -> step_ok n d n d.
Proof. intros Hok. split; [done|]. split; [reflexivity|lia]. Qed.

Lemma step_ok_trans n1 d1 n2 d2 n3 d3 :
  step_ok n1 d1 n2 d2 -> step_ok n2 d2 n3 d3 -> step_ok n1 d1 n3 d3.
Proof.
  intros (A1 & A2 & A3) (B1 & B2 & B3). split; [done|]. split; [by etrans|lia].
Qed.

Lemma step_ok_same n d d' : ledger_ok n d -> ledger_same d d' -> step_ok n d n d'.
Proof.
  intros Hok [Em Ec Eu Eg]. split; [|split; [|lia]].
  - split; rewrite ?Em, ?Ec, ?Eu; try apply Hok.
    intros c cv Hc Ht. destruct (lo_group _ _ Hok c cv Hc Ht) as (g & Hg & Hk). exists g.
    split; [|done]. by eapply lookup_weaken.
  - split; rewrite ?Em, ?Ec, ?Eu; intros; eexists; (split; [done|]); done || (repeat split; lia).
Qed.

(** Messages changed in status and read time only. *)
Lemma step_ok_status n d f (id : Z) :
  ledger_ok n d -> (forall m, core (f m) = core m) ->
  step_ok n d n (set_messages (alter f id (messages d)) d).
Proof.
  intros Hok Hf.
  assert (forall i m', alter f id (messages d) !! i = Some m' ->
    exists m, messages d !! i = Some m /\ core m' = core m) as Hback.
  { intros i m'. destruct (decide (i = id)) as [->|Hne].
    - rewrite lookup_alter_eq. destruct (messages d !! id); [|done].
      intros [= <-]. eauto.
    - rewrite lookup_alter_ne by congruence. eauto. }
  assert (forall i m, messages d !! i = Some m ->
    exists m', alter f id (messages d) !! i = Some m' /\ core m' = core m) as Hforth.
  { intros i m Hm. destruct (decide (i = id)) as [->|Hne].
    - rewrite lookup_alter_eq, Hm. simpl. eauto.
    - rewrite lookup_alter_ne by congruence. eauto. }
  assert (forall m m', core m' = core m -> m_senderId m' = m_senderId m /\
    m_conversationId m' = m_conversationId m /\ m_conversationSeq m' = m_conversationSeq m /\
    m_clientMessageId m' = m_clientMessageId m) as Hcore by (unfold core; intros; simplify_eq; auto).
  split; [|split; [|lia]].
  - split; simpl; try apply Hok.
    + intros i m (x & Hx & _)%Hback. by eapply (lo_fresh _ _ Hok).
    + intros i m c (x & Hx & E)%Hback. destruct (Hcore _ _ E) as (_ & -> & -> & _).
      by apply (lo_place _ _ Hok i).
    + intros c cv q Hc Hq. destruct (lo_dense _ _ Hok _ _ _ Hc Hq) as (i & m & Hm & Hp).
      destruct (Hforth _ _ Hm) as (m' & Hm' & E). exists i, m'. split; [done|].
      destruct (Hcore _ _ E) as (_ & E1 & E2 & _). unfold at_place in *. by rewrite E1, E2.
    + intros i1 m1 i2 m2 c q1 q2 (x1 & Hx1 & E1)%Hback (x2 & Hx2 & E2)%Hback. unfold at_place.
      destruct (Hcore _ _ E1) as (_ & -> & -> & _). destruct (Hcore _ _ E2) as (_ & -> & -> & _).
      by eapply (lo_order _ _ Hok).
    + intros i1 m1 i2 m2 k1 k2 (x1 & Hx1 & E1)%Hback (x2 & Hx2 & E2)%Hback.
      destruct (Hcore _ _ E1) as (-> & _ & _ & ->). destruct (Hcore _ _ E2) as (-> & _ & _ & ->).
      by eapply (lo_client _ _ Hok).
  - split; simpl; [apply Hforth|..]; intros; eexists; (split; [done|]); done || (repeat split; lia).
Qed.

(** A cursor moved to a place of the conversation. *)
Lemma step_ok_cursor n d c u cv cm q read :
  ledger_ok n d -> conversations d !! c = Some cv -> conversationMembers d !! (c, u) = Some cm ->
  q <= cv_latestSeq cv ->
  step_ok n d n (set_conversationMembers
    (<[(c, u) := advance q read cm]> (conversationMembers d)) d).
Proof.
  intros Hok Hc Hm Hq. split; [|split; [|lia]].
  - split; simpl; try apply Hok. intros c' u' m' [[Hk <-]|[_ Hm']]%lookup_insert_Some.
    + simplify_eq. destruct (lo_member _ _ Hok _ _ _ Hm) as (cv' & Hcv' & Hr & Hd & Hj).
      exists cv'. simplify_eq. split; [done|]. unfold advance. destruct read; simpl; lia.
    + by apply (lo_member _ _ Hok _ u').
  - split; simpl; [intros; eauto..|].
    + intros; eexists; (split; [done|]); lia.
    + intros k m Hk. destruct (decide (k = (c, u))) as [->|Hne].
      * rewrite lookup_insert_eq. simplify_eq. eexists. split; [done|]. unfold advance.
        destruct read; simpl; lia.
      * rewrite lookup_insert_ne by congruence. eexists. split; [done|]. lia.
Qed.

(** The steps of an accepted command. *)
Lemma step_ok_open n c ty b now d :
  ledger_ok n d -> owns c ty b d -> step_ok n d n (open_conversation c ty b now d).
Proof.
  intros Hok Hown. split; [by apply ok_open|]. split; [|lia].
  split; rewrite ?open_messages, ?open_members; [intros; eauto|..].
  - intros c' cv Hc'. rewrite open_lookup, Hc'. eexists. split; [done|lia].
  - intros; eexists; (split; [done|]); lia.
Qed.

Lemma step_ok_join n rows d :
  ledger_ok n (join rows d) -> ledger_ok n d -> step_ok n d n (join rows d).
Proof.
  intros Hok' Hok. split; [done|]. split; [|lia]. split; simpl; [intros; eauto|..].
  - intros; eexists; (split; [done|]); lia.
  - intros k m Hm. exists m. split; [|lia]. by apply lookup_union_Some_l.
Qed.

Context `{StdHash}.

Lemma step_ok_append n sender receiver c cid content now d cv :
  ledger_ok n d -> conversations d !! c = Some cv -> find_client sender cid d = None ->
  step_ok n d (n + 1) (append_text sender receiver c cid content now d n).
Proof.
  intros Hok Hc Hf. split; [by eapply ok_append|]. split; [|lia]. split.
  - intros id m Hm. exists m. split; [|done]. by eapply append_old.
  - intros c' cv' Hc'. rewrite (append_conversations _ _ _ _ _ _ _ _ _ Hc).
    case_decide; subst; simplify_eq; eexists; (split; [done|]); simpl; lia.
  - intros; eexists; (split; [done|]); lia.
Qed.

Lemma step_ok_command base sender receiver c cid content now to n d d1 cv :
  ledger_ok n d -> step_ok n d n d1 -> conversations d1 !! c = Some cv -> messages d1 = messages d ->
  let '(_, d2, n2) := command_spec base sender receiver c cid content now to d d1 n in
  step_ok n d n2 d2.
Proof.
  intros Hok Hs Hc Hm. unfold command_spec.
  destruct (find_client sender cid d) as [[id m]|] eqn:E.
  - destruct (same_command m c receiver content); [done|by apply step_ok_refl].
  - eapply step_ok_trans; [exact Hs|]. eapply step_ok_append; [apply Hs|exact Hc|].
    by rewrite (find_client_eq _ _ _ _ Hm).
Qed.

Lemma direct_spec_ok sender receiver cid content now n d :
  ledger_ok n d ->
  let '(_, d1, n1) := direct_spec sender receiver cid content now d n in step_ok n d n1 d1.
Proof.
  intros Hok. unfold direct_spec. destruct (_ <$> _) as [c|]; [|by apply step_ok_refl].
  destruct (open_is_Some c 1 c now d) as [cv Hcv].
  eapply step_ok_command; [done| |exact Hcv|apply (open_messages c 1 c now d)].
  pose proof (ok_direct_state n c sender receiver now d Hok) as Hj.
  eapply step_ok_trans; [apply step_ok_open; [done|by left]|].
  apply step_ok_join; [done|]. apply ok_open; [done|by left].
Qed.

Lemma group_spec_ok sender gid cid content now n d :
  ledger_ok n d ->
  let '(_, d1, n1) := group_spec sender gid cid content now d n in step_ok n d n1 d1.
Proof.
  intros Hok. unfold group_spec. destruct (groupInfo d !! gid) as [gi|] eqn:Eg; [|by apply step_ok_refl].
  destruct (groupMembers d !! (gid, sender)) as [gm|]; [|by apply step_ok_refl].
  destruct (gm_speech gm =? 0); [|by apply step_ok_refl]. cbv zeta.
  set (c := gi_sessionKey gi).
  destruct (open_is_Some c 2 gid now d) as [cv Hcv].
  eapply step_ok_command; [done| |exact Hcv|apply (open_messages c 2 gid now d)].
  pose proof (ok_group_state n c gid gi now d Hok Eg eq_refl) as Hj.
  eapply step_ok_trans; [apply step_ok_open; [done|right; eauto]|].
  apply step_ok_join; [done|]. apply ok_open; [done|right; eauto].
Qed.

Lemma core_ack status rd m : core (ack_update status rd m) = core m.
Proof. unfold ack_update. by destruct (_ && _). Qed.

Lemma core_receive status rd m : core (receive_update status rd m) = core m.
Proof. unfold receive_update. destruct (str_empty rd); [done|]. by destruct (_ || _). Qed.

Lemma ack_spec_ok mid uid c q status rd n d :
  ledger_ok n d ->
  step_ok n d n (ack_spec mid uid c q status rd d).2.
Proof.
  intros Hok. unfold ack_spec. destruct (_ || _ || _ || _); [by apply step_ok_refl|].
  destruct (messages d !! mid) as [m|] eqn:Em; [|by apply step_ok_refl].
  destruct (conversations d !! c) as [cv|] eqn:Ec; [|by apply step_ok_refl].
  destruct (conversationMembers d !! (c, uid)) as [cm|] eqn:Eu; [|by apply step_ok_refl].
  destruct (bool_decide _ && bool_decide _) eqn:Ep; [|by apply step_ok_refl]. boolp.
  destruct (lo_place _ _ Hok _ _ _ Em ltac:(eassumption)) as (q' & cv' & Hq' & Hcv' & Hle).
  assert (q <= cv_latestSeq cv) as Hqle by (simplify_eq; lia).
  destruct ((cv_type cv =? 1) && _) eqn:Et; [by apply step_ok_refl|]. simpl.
  destruct (cv_type cv =? 1); [|exact (step_ok_cursor n d c uid cv cm q _ Hok Ec Eu Hqle)].
  rewrite <- (alter_alt_Some (ack_update status rd) _ _ m) by done.
  pose proof (step_ok_status n d (ack_update status rd) mid Hok (core_ack status rd)) as Hs.
  eapply step_ok_trans; [exact Hs|].
  exact (step_ok_cursor n _ c uid cv cm q _ (proj1 Hs) Ec Eu Hqle).
Qed.
End StepLemmas.

(** ** Operations outside transactions *)

Section Keeps.
Context `{Collation} `{StdHash} `{Faults}.

(** At rest, reached from tables [d0] by steps that keep the ledger. *)
Definition good (n0 : Z) (d0 : DB) (s : store) : Prop :=
  saved s = None /\ step_ok n0 d0 (next_message s) (db s).

Definition keeps {A} (m : ST store A) : Prop :=
  forall n0 d0, triple (good n0 d0) m (fun _ => good n0 d0) (good n0 d0).

Lemma keeps_ret {A} (a : A) : keeps (ret a).
Proof. intros n0 d0. by apply triple_ret. Qed.

Lemma keeps_bind {A B} (m : ST store A) (k : A -> ST store B) :
  keeps m -> (forall a, keeps (k a)) -> keeps (bind m k).
Proof. intros Hm Hk n0 d0. eapply triple_bind; [apply Hm|]. intros a. apply Hk. Qed.

(** A statement whose effect is a step. *)
Lemma keeps_statement {A} (f : store -> option A * store) :
  (forall s, ledger_ok (next_message s) (db s) ->
     saved (f s).2 = saved s /\
     step_ok (next_message s) (db s) (next_message (f s).2) (db (f s).2)) ->
  keeps (statement f).
Proof.
  intros Hf n0 d0 s [Hs Hok]. destruct (Hf s (proj1 Hok)) as [Hs' Hok'].
  assert (forall s1, s1 = tock (f s).2 -> good n0 d0 s1) as Hgood.
  { intros s1 ->. split; simpl; [congruence|]. by eapply step_ok_trans. }
  unfold statement. destruct (fault_at (tick s)).
  - destruct (f s) as [[a|] s']; by apply Hgood.
  - by split.
  - by apply Hgood.
Qed.

Lemma keeps_select {A} (q : DB -> A) : keeps (select q).
Proof. apply keeps_statement. intros s Hok. split; [done|]. by apply step_ok_refl. Qed.

Lemma keeps_update {A} (u : DB -> option (A * DB)) :
  (forall n d a d', ledger_ok n d -> u d = Some (a, d') -> step_ok n d n d') ->
  keeps (update u).
Proof.
  intros Hu. apply keeps_statement. intros s Hok.
  destruct (u (db s)) as [[a d']|] eqn:E; simpl.
  - split; [done|]. by eapply Hu.
  - split; [done|]. by apply step_ok_refl.
Qed.

(** An update of the other tables. *)
Lemma keeps_other {A} (u : DB -> option (A * DB)) :
  (forall d a d', u d = Some (a, d') -> ledger_same d d') -> keeps (update u).
Proof. intros Hu. apply keeps_update. intros n d a d' Hok E. eapply step_ok_same; eauto. Qed.

Lemma keeps_execute {A} `{DefaultForType A} (m : ST store A) n0 d0 s :
  keeps m -> good n0 d0 s -> good n0 d0 (executeTemplate m s).2.
Proof.
  intros Hm Hg. unfold executeTemplate.
  assert (good n0 d0 (tock s)) as Ht by exact Hg.
  destruct (fault_at (tick s)); simpl; [|done..].
  specialize (Hm n0 d0 (tock s) Ht). destruct (m (tock s)) as [[a|w] s']; simpl; [done|].
  rewrite undo_None by apply Hm. done.
Qed.

Lemma implements_good run spec n0 d0 s :
  implements run spec ->
  (forall n d, ledger_ok n d -> let '(_, d1, n1) := spec d n in step_ok n d n1 d1) ->
  good n0 d0 s -> good n0 d0 (run s).2.
Proof.
  intros Hi Hspec [Hs Hok]. specialize (Hi s Hs (proj1 Hok)).
  specialize (Hspec (next_message s) (db s) (proj1 Hok)).
  destruct (run s) as [r s']. destruct (spec (db s) (next_message s)) as [[r0 d1] n1].
  destruct Hi as (Hs' & Hn & Hcase). split; [done|]. simpl.
  eapply step_ok_trans; [exact Hok|].
  destruct Hcase as [(_ & -> & ->)|(_ & _ & [Hd|[-> Hn1]])]; [done|..].
  - rewrite Hd. split; [by eapply ledger_ok_mono; [apply Hok|]|]. split; [reflexivity|done].
  - destruct Hspec as (G1 & G2 & G3). split; [by eapply ledger_ok_mono|]. split; [done|]. simpl in *. lia.
Qed.

Lemma implements_Z_good run spec n0 d0 s :
  implements_Z run spec ->
  (forall n d, ledger_ok n d -> step_ok n d n (spec d).2) ->
  good n0 d0 s -> good n0 d0 (run s).2.
Proof.
  intros Hi Hspec [Hs Hok]. specialize (Hi s Hs).
  specialize (Hspec (next_message s) (db s) (proj1 Hok)).
  destruct (run s) as [r s']. destruct (spec (db s)) as [r0 d1]. simpl in *.
  destruct Hi as (Hs' & Hn & Hcase). split; [done|]. simpl. rewrite Hn.
  eapply step_ok_trans; [exact Hok|].
  destruct Hcase as [(_ & ->)|(_ & _ & [->| ->])]; [done| |done].
  apply step_ok_refl, Hok.
Qed.
End Keeps.

(** ** All operations that change the tables *)

Inductive dao_op :=
  | OpAcceptDirect (sender receiver : Z) (cid content now : string)
  | OpAcceptGroup (sender gid : Z) (cid content now : string)
  | OpAcknowledge (mid uid c q status : Z) (rd : string)
  | OpUpdateForReceiver (mid receiver status : Z) (rd : string)
  | OpAdvanceCursor (uid c q : Z) (read : bool)
  | OpUpdateMessage (mid status : Z) (rd : string)
  | OpInsertMessage (mid from to : Z) (sessionKey : string) (type : Z) (content : string)
      (status : Z) (sent rd : string)
  | OpModifyPassword (u : User)
  | OpRegister (u : User) (now : string)
  | OpInsertUserInfo (i : UserInfo)
  | OpUpdateName (uid : Z) (name : string)
  | OpUpdateAge (uid age : Z)
  | OpUpdateSex (uid : Z) (sex : string)
  | OpUpdateImage (uid : Z) (url : string)
  | OpDeleteUser (uid : Z)
  | OpInsertApply (a : FriendApply)
  | OpUpdateApply (a : FriendApply)
  | OpInsertFriend (f : Friend) (now : string)
  | OpDeleteApply (a b : Z)
  | OpDeleteFriend (a b : Z)
  | OpInsertGroup (gid : Z) (g : GroupInfo)
  | OpInsertGroupMember (gid uid : Z) (m : GroupMember)
  | OpInsertGroupApply (a : GroupApply)
  | OpUpdateGroupApply (a : GroupApply)
  | OpDeleteGroupApply (requestor gid : Z).

Section Histories.
Context `{Collation} `{StdHash} `{Faults}.

Definition run_op (o : dao_op) (s : store) : store :=
  match o with
  | OpAcceptDirect a b k t now => (acceptDirectText a b k t now s).2
  | OpAcceptGroup a g k t now => (acceptGroupText a g k t now s).2
  | OpAcknowledge m u c q st rd => (acknowledgeConversationMessage m u c q st rd s).2
  | OpUpdateForReceiver m r st rd => (updateMessageForReceiver m r st rd s).2
  | OpAdvanceCursor u c q read => (advanceConversationCursor u c q read s).2
  | OpUpdateMessage m st rd => (updateMessage m st rd s).2
  | OpInsertMessage i a b sk ty t st sent rd => (insertMessage i a b sk ty t st sent rd s).2
  | OpModifyPassword u => (userModifyPassword u s).2
  | OpRegister u now => (userRegister u now s).2
  | OpInsertUserInfo i => (insertUserInfo i s).2
  | OpUpdateName u x => (updateUserInfoName u x s).2
  | OpUpdateAge u x => (updateUserInfoAge u x s).2
  | OpUpdateSex u x => (updateUserInfoSex u x s).2
  | OpUpdateImage u x => (updateUserInfoHeadImageURL u x s).2
  | OpDeleteUser u => (deleteUser u s).2
  | OpInsertApply a => (insertFriendApply a s).2
  | OpUpdateApply a => (updateFriendApplyStatus a s).2
  | OpInsertFriend f now => (insertFriend f now s).2
  | OpDeleteApply a b => (deleteFriendApply a b s).2
  | OpDeleteFriend a b => (deleteFriend a b s).2
  | OpInsertGroup gid g => (insertGroup gid g s).2
  | OpInsertGroupMember gid u m => (insertGroupMember gid u m s).2
  | OpInsertGroupApply a => (insertGroupApply a s).2
  | OpUpdateGroupApply a => (updateGroupApply a s).2
  | OpDeleteGroupApply r gid => (deleteGroupApply r gid s).2
  end.

Definition run_ops (os : list dao_op) (s : store) : store := foldl (fun s o => run_op o s) s os.

Lemma insert_row_Some {K A} `{Countable K} (k : K) (a : A) m m' :
  insert_row k a m = Some m' -> m ⊆ m'.
Proof.
  unfold insert_row. destruct (m !! k) eqn:E; [done|]. intros [= <-]. by apply insert_subseteq.
Qed.

Lemma keeps_insert_user u : keeps (statement (insert_user u)).
Proof.
  apply keeps_statement. intros s Hok. unfold insert_user. simpl.
  destruct (exists_row _ _); simpl; (split; [done|]).
  - by apply step_ok_refl.
  - by apply step_ok_same.
Qed.

Lemma keeps_insert_message_at id m :
  m_conversationId m = None -> m_clientMessageId m = None ->
  keeps (statement (insert_message_at id m)).
Proof.
  intros Hc Hk. apply keeps_statement. intros s Hok. unfold insert_message_at.
  destruct (messages (db s) !! id) eqn:E; [split; [done|by apply step_ok_refl]|].
  destruct (first_row _ _); [split; [done|by apply step_ok_refl]|]. simpl. split; [done|].
  assert (forall i x, <[id := m]> (messages (db s)) !! i = Some x ->
    (i = id /\ x = m) \/ messages (db s) !! i = Some x) as Hins.
  { intros i x [[<- <-]|[_ Hx]]%lookup_insert_Some; auto. }
  split; [|split; [|lia]].
  - split; simpl; try apply Hok.
    + intros i x [[-> ->]|Hx]%Hins; [lia|]. pose proof (lo_fresh _ _ Hok _ _ Hx). lia.
    + intros i x c [[-> ->]|Hx]%Hins; [congruence|]. by apply (lo_place _ _ Hok i).
    + intros c cv q Hcv Hq. destruct (lo_dense _ _ Hok _ _ _ Hcv Hq) as (i & x & Hx & Hp).
      exists i, x. split; [|done]. rewrite lookup_insert_ne; congruence.
    + intros i1 m1 i2 m2 c q1 q2 [[-> ->]|G1]%Hins [[-> ->]|G2]%Hins P1 P2 Hle;
        [destruct P1, P2; congruence..|]. exact (lo_order _ _ Hok _ _ _ _ _ _ _ G1 G2 P1 P2 Hle).
    + intros i1 m1 i2 m2 k1 k2 [[-> ->]|G1]%Hins [[-> ->]|G2]%Hins; try congruence.
      by eapply (lo_client _ _ Hok).
  - split; simpl; [|intros; eexists; (split; [done|]); lia..].
    intros i x Hx. exists x. split; [|done]. rewrite lookup_insert_ne; congruence.
Qed.
End Histories.

(** An update that inserts into, or rewrites, one of the other tables. *)
Ltac other_table :=
  intros d a' d' Hu;
  unfold update_info, insert_apply, update_apply, insert_friend in Hu;
  repeat match type of Hu with
  | context [match ?x with _ => _ end] => destruct x eqn:?; try done
  | (_ <$> ?x) = Some _ => destruct x eqn:?; simpl in Hu
  end;
  simplify_eq/=; split; simpl; try reflexivity; try done;
  eauto using insert_row_Some.


(** ** The invariant of histories *)

Section Reachable.
Context `{Collation} `{StdHash} `{Faults}.

Create HintDb keeps.
#[local] Hint Resolve keeps_ret keeps_select keeps_insert_user : keeps.

Ltac keep :=
  repeat first
    [ apply keeps_bind; [|intros ?]
    | solve [eauto with keeps]
    | solve [apply keeps_other; other_table]
    | apply keeps_insert_message_at; reflexivity
    | match goal with |- keeps (if ?b then _ else _) => destruct b end ].

Lemma keeps_status id f (m : Message -> Prop) :
  (forall m, core (f m) = core m) ->
  keeps (update (fun d => Some (tt, set_messages (alter f id (messages d)) d))).
Proof.
  intros Hf. apply keeps_update. intros n d a d' Hok [= _ <-]. by apply step_ok_status.
Qed.

(** Every operation keeps the ledger, whatever fails. *)
Lemma run_op_good o n0 d0 s : good n0 d0 s -> good n0 d0 (run_op o s).
Proof.
  intros Hg. destruct o; simpl.
  1: eapply implements_good; [apply direct_implements|intros; by apply direct_spec_ok|done].
  1: eapply implements_good; [apply group_implements|intros; by apply group_spec_ok|done].
  1: eapply implements_Z_good; [apply ack_implements|intros; by apply ack_spec_ok|done].
  4-22: apply keeps_execute; [|done]; keep.
  - apply keeps_execute; [|done]. apply keeps_bind; [apply keeps_select|].
    intros [r|]; [|apply keeps_ret]. destruct (negb _); [apply keeps_ret|].
    apply keeps_bind; [|intros; apply keeps_ret]. apply (keeps_status _ _ (fun _ => True)).
    intros m. destruct (_ =? _); [apply core_receive|done].
  - unfold advanceConversationCursor. destruct (_ || _ || _); [done|].
    apply keeps_execute; [|done]. apply keeps_bind; [|intros; apply keeps_ret].
    apply keeps_update. intros n d a d' Hok.
    destruct (conversations d !! c) as [cv|] eqn:Ec; [|intros [= <- <-]; by apply step_ok_refl].
    destruct (conversationMembers d !! (c, uid)) as [cm|] eqn:Em;
      [|intros [= <- <-]; by apply step_ok_refl].
    destruct (q <=? cv_latestSeq cv) eqn:Eq; intros [= <- <-]; [|by apply step_ok_refl].
    boolp. exact (step_ok_cursor n d c uid cv cm q _ Hok Ec Em Eq).
  - apply keeps_execute; [|done]. apply keeps_bind; [|intros; apply keeps_ret].
    apply (keeps_status _ _ (fun _ => True)). intros m. by destruct (str_empty rd).
Qed.

Lemma run_ops_good os n0 d0 s : good n0 d0 s -> good n0 d0 (run_ops os s).
Proof.
  revert s. induction os as [|o os IH]; intros s Hg; [done|]. apply IH, run_op_good, Hg.
Qed.

Lemma good_start s : saved s = None -> ledger_ok (next_message s) (db s) ->
  good (next_message s) (db s) s.
Proof. intros Hs Hok. split; [done|]. by apply step_ok_refl. Qed.
End Reachable.

(** ** One command, one message *)

Inductive target := ToUser (receiver : Z) | ToGroup (gid : Z).

Definition target_id (t : target) : Z := match t with ToUser r => r | ToGroup g => g end.

Section ExactlyOnce.
Context `{Collation} `{StdHash} `{Faults}.

Definition accept_text (sender : Z) (t : target) (cid content now : string)
  : store -> AcceptResult * store :=
  match t with
  | ToUser r => acceptDirectText sender r cid content now
  | ToGroup g => acceptGroupText sender g cid content now
  end.

Definition accept_spec (sender : Z) (t : target) (cid content now : string)
  : DB -> Z -> AcceptResult * DB * Z :=
  match t with
  | ToUser r => direct_spec sender r cid content now
  | ToGroup g => group_spec sender g cid content now
  end.

Lemma accept_implements sender t cid content now :
  implements (accept_text sender t cid content now) (accept_spec sender t cid content now).
Proof. destruct t; [apply direct_implements|apply group_implements]. Qed.

Lemma accept_spec_ok sender t cid content now n d :
  ledger_ok n d ->
  let '(_, d1, n1) := accept_spec sender t cid content now d n in step_ok n d n1 d1.
Proof. destruct t; [apply direct_spec_ok|apply group_spec_ok]. Qed.

(** [m] is the row of the command, at the place the result names. *)
Definition command_row (r : AcceptResult) (sender receiver : Z) (cid content : string)
    (m : Message) : Prop :=
  m_senderId m = sender /\ m_receiverId m = receiver /\ m_type m = Type_TEXT /\
  m_content m = content /\ at_place m (ar_conversationId r) (ar_conversationSeq r) /\
  exists k, m_clientMessageId m = Some k /\ ci_key k = ci_key cid.

Lemma command_spec_row base sender receiver c cid content now to n d d1 cv :
  ledger_ok n d -> messages d1 = messages d -> ar_conversationId base = c ->
  conversations d1 !! c = Some cv ->
  let '(r, d2, _) := command_spec base sender receiver c cid content now to d d1 n in
  ar_error r = Success ->
  (exists m, messages d2 !! ar_messageId r = Some m /\ command_row r sender receiver cid content m) /\
  (find_client sender cid d <> None -> ar_duplicate r = true).
Proof.
  intros Hok Hm Hc Hcv. unfold command_spec.
  destruct (find_client sender cid d) as [[id m]|] eqn:E.
  - apply find_client_Some in E as (Hmd & Hs & k & Hk & Hkey).
    destruct (same_command m c receiver content) eqn:Es; [|by intros ?]. intros _.
    split; [|done]. exists m. unfold same_command in Es. boolp. simpl.
    destruct (lo_place _ _ Hok _ _ c Hmd) as (q & cv' & Hq & _); [done|].
    rewrite Hm. split; [done|]. unfold command_row, at_place. simpl. rewrite Hq, Hc. simpl.
    repeat split; try done. eauto.
  - intros _. split; [|done]. eexists. simpl. rewrite lookup_insert_eq. split; [done|].
    unfold command_row, at_place, latest. simpl. rewrite Hc. repeat split; try done. eauto.
Qed.

Lemma accept_spec_row sender t cid content now n d :
  ledger_ok n d ->
  let '(r, d1, _) := accept_spec sender t cid content now d n in
  ar_error r = Success ->
  (exists m, messages d1 !! ar_messageId r = Some m /\
     command_row r sender (target_id t) cid content m) /\
  (find_client sender cid d <> None -> ar_duplicate r = true).
Proof.
  intros Hok. destruct t as [receiver|gid]; simpl.
  - unfold direct_spec. destruct (_ <$> _) as [c|]; [|done].
    destruct (open_is_Some c 1 c now d) as [cv Hcv].
    eapply command_spec_row; [done|apply (open_messages c 1 c now d)|done|exact Hcv].
  - unfold group_spec. destruct (groupInfo d !! gid) as [gi|]; [|done].
    destruct (groupMembers d !! (gid, sender)) as [gm|]; [|done].
    destruct (gm_speech gm =? 0); [|done]. cbv zeta.
    destruct (open_is_Some (gi_sessionKey gi) 2 gid now d) as [cv Hcv].
    eapply command_spec_row; [done|apply (open_messages _ 2 gid now d)|done|exact Hcv].
Qed.

(** A successful run is a run of the specification. *)
Lemma accept_success sender t cid content now s :
  saved s = None -> ledger_ok (next_message s) (db s) ->
  let '(r, s') := accept_text sender t cid content now s in
  good (next_message s) (db s) s' /\
  (ar_error r = Success ->
   (exists m, messages (db s') !! ar_messageId r = Some m /\
      command_row r sender (target_id t) cid content m) /\
   (find_client sender cid (db s) <> None -> ar_duplicate r = true)).
Proof.
  intros Hs Hok. pose proof (accept_implements sender t cid content now) as Hi.
  pose proof (implements_good _ _ _ _ s Hi (accept_spec_ok sender t cid content now)
                (good_start s Hs Hok)) as Hg.
  specialize (Hi s Hs Hok). pose proof (accept_spec_row sender t cid content now _ _ Hok) as Hr.
  destruct (accept_text _ _ _ _ _ s) as [r s']. simpl in Hg. split; [done|]. intros He.
  destruct (accept_spec _ _ _ _ _ _ _) as [[r0 d1] n1].
  destruct Hi as (_ & _ & [(-> & -> & _)|(He' & _)]); [by apply Hr|]. by rewrite He' in He.
Qed.

(** The ids of the messages [sender] stored under a client id. *)
Definition client_rows (sender : Z) (cid : string) (d : DB) : list Z :=
  fst <$> rows_where (fun _ m => (m_senderId m =? sender) &&
    match m_clientMessageId m with Some x => ci_eq x cid | None => false end) (messages d).

Lemma client_rows_one n d id m sender cid k :
  ledger_ok n d -> messages d !! id = Some m -> m_senderId m = sender ->
  m_clientMessageId m = Some k -> ci_key k = ci_key cid ->
  client_rows sender cid d = [id].
Proof.
  intros Hok Hm Hs Hk Hkey. unfold client_rows.
  rewrite (rows_where_unique _ _ id m); [done|done|..].
  - rewrite Hk. apply andb_true_iff. split; [by apply Z.eqb_eq|]. by apply bool_decide_eq_true.
  - intros id' m' Hm' Hp. boolp. destruct (m_clientMessageId m') as [k'|] eqn:Ek; [|done].
    unfold ci_eq in *. boolp. apply (lo_client _ _ Hok id' m' id m k' k); congruence.
Qed.

(** Two rows with one core name one command. *)
Lemma command_row_core r r' sender receiver cid content m m' :
  core m' = core m -> command_row r sender receiver cid content m ->
  command_row r' sender receiver cid content m' ->
  ar_conversationId r' = ar_conversationId r /\ ar_conversationSeq r' = ar_conversationSeq r.
Proof.
  unfold core, command_row, at_place. intros Hc (_ & _ & _ & _ & [A1 A2] & _) (_ & _ & _ & _ & [B1 B2] & _).
  simplify_eq. split; congruence.
Qed.
End ExactlyOnce.

Section Theorems.
Context `{Collation} `{StdHash} `{Faults}.

(** C3: accepting a direct text is one atomic step.  Under any faults the
    operation either returns the result of the specification and leaves its
    tables, or reports MysqlFailed after a fault and then either nothing or the
    whole step has happened; no transaction stays open. *)
Theorem accept_direct_atomic sender receiver cid content now :
  implements (acceptDirectText sender receiver cid content now)
    (direct_spec sender receiver cid content now).
Proof. apply direct_implements. Qed.

(** Accepting a group text is one atomic step, in the same sense. *)
Theorem accept_group_atomic sender gid cid content now :
  implements (acceptGroupText sender gid cid content now) (group_spec sender gid cid content now).
Proof. apply group_implements. Qed.

(** C14: the ledger invariant holds after any history of table operations, under
    any faults: conversations stay numbered without gap or repetition, client
    ids stay unique, cursors stay in range; and the ledger only grows: no stored
    message changes what it says, no cursor moves back, no transaction is left
    open. *)
Theorem ledger_invariant os s :
  saved s = None -> ledger_ok (next_message s) (db s) ->
  let s' := run_ops os s in
  saved s' = None /\ ledger_ok (next_message s') (db s') /\ grows (db s) (db s').
Proof.
  intros Hs Hok. destruct (run_ops_good os _ _ _ (good_start s Hs Hok)) as (H1' & H2' & H3' & _).
  done.
Qed.

(** C2: a command is stored exactly once however often it is sent.  Between two
    sends of one command (same sender, target, client id and content) anything
    may happen to the tables, and any statement may fail: once a send reports
    success there is exactly one row with that client id, the one it names; and
    if both sends report success they name the same message at the same place,
    the second as a duplicate. *)
Theorem accept_exactly_once sender t cid content now1 now2 os s0 :
  saved s0 = None -> ledger_ok (next_message s0) (db s0) ->
  let '(r1, s1) := accept_text sender t cid content now1 s0 in
  let '(r2, s3) := accept_text sender t cid content now2 (run_ops os s1) in
  ar_error r2 = Success ->
  client_rows sender cid (db s3) = [ar_messageId r2] /\
  (ar_error r1 = Success ->
   ar_messageId r2 = ar_messageId r1 /\ ar_conversationId r2 = ar_conversationId r1 /\
   ar_conversationSeq r2 = ar_conversationSeq r1 /\ ar_duplicate r2 = true).
Proof.
  intros Hs Hok. pose proof (accept_success sender t cid content now1 s0 Hs Hok) as Ha1.
  destruct (accept_text sender t cid content now1 s0) as [r1 s1]. destruct Ha1 as [Hg1 Ha1].
  pose proof (run_ops_good os _ _ _ (good_start s1 (proj1 Hg1) (proj1 (proj2 Hg1)))) as Hg2.
  set (s2 := run_ops os s1) in *. destruct Hg2 as (Hs2 & Hok2 & Hgr2 & _).
  pose proof (accept_success sender t cid content now2 s2 Hs2 Hok2) as Ha2.
  destruct (accept_text sender t cid content now2 s2) as [r2 s3]. destruct Ha2 as [Hg3 Ha2].
  destruct Hg3 as (_ & Hok3 & Hgr3 & _). intros He2.
  destruct (Ha2 He2) as ((m2 & Hm2 & Hrow2) & Hdup). pose proof Hrow2 as (Hs2' & _ & _ & _ & _ & k2 & Hk2 & Hkey2).
  split; [eapply client_rows_one; eauto|]. intros He1.
  destruct (Ha1 He1) as ((m1 & Hm1 & Hrow1) & _). pose proof Hrow1 as (Hs1' & _ & _ & _ & _ & k1 & Hk1 & Hkey1).
  destruct (gr_message _ _ Hgr2 _ _ Hm1) as (m1' & Hm1' & Hc1).
  destruct (gr_message _ _ Hgr3 _ _ Hm1') as (m1'' & Hm1'' & Hc1').
  assert (forall m, core m = core m1 -> m_senderId m = sender /\ m_clientMessageId m = Some k1) as Hid
    by (unfold core; intros; simplify_eq; split; congruence).
  destruct (Hid m1') as [HsA HkA]; [done|]. destruct (Hid m1'') as [HsB HkB]; [congruence|].
  assert (ar_messageId r2 = ar_messageId r1) as Heq.
  { apply (lo_client _ _ Hok3 _ _ _ _ k2 k1 Hm2 Hm1''); congruence. }
  split; [done|]. rewrite Heq in Hm2.
  assert (core m2 = core m1) as Hcore by congruence.
  destruct (command_row_core r1 r2 _ _ _ _ _ _ Hcore Hrow1 Hrow2) as [-> ->].
  split; [done|]. split; [done|]. apply Hdup.
  intros Hnone. rewrite find_client_None in Hnone.
  apply (Hnone _ _ _ Hm1' HsA HkA). exact Hkey1.
Qed.
End Theorems.

(** A concrete store for the witnesses: two friends, nothing sent yet; no
    faults; the collation ignores nothing. *)
Module Sample.
Definition exact : Collation := fun s => s.
Definition no_hash : StdHash := fun _ => 0.
Definition no_faults : Faults := fun _ => FNone.
(** The commit of the first command is executed but its reply is lost. *)
Definition lose_commit : Faults := fun n => if decide (n = 9)%nat then FAfter else FNone.

Definition friends_db : DB :=
  set_friends {[ (1001, 1002) := mkFriend 1001 1002 77 "";
                 (1002, 1001) := mkFriend 1002 1001 77 "" ]} empty_db.
Definition start : store := mkStore friends_db None 1 1 0.
End Sample.

Lemma friends_db_ok `{Collation} n : ledger_ok n Sample.friends_db.
Proof. split; intros *; unfold Sample.friends_db; simpl; rewrite ?lookup_empty; try done. Qed.

Lemma ledger_invariant_witness :
  let s' := @run_ops Sample.exact Sample.no_hash Sample.lose_commit
              [OpAcceptDirect 1001 1002 "k" "hi" "t"] Sample.start in
  saved s' = None /\ @ledger_ok Sample.exact (next_message s') (db s') /\
  grows (db Sample.start) (db s').
Proof.
  apply (@ledger_invariant Sample.exact Sample.no_hash Sample.lose_commit
           [OpAcceptDirect 1001 1002 "k" "hi" "t"] Sample.start);
    [reflexivity|apply friends_db_ok].
Defined.

(** The first send commits and loses its reply; the second finds the message. *)
Lemma accept_exactly_once_witness :
  let '(r1, s1) := @accept_text Sample.exact Sample.no_hash Sample.lose_commit
                     1001 (ToUser 1002) "k" "hi" "t1" Sample.start in
  let '(r2, s3) := @accept_text Sample.exact Sample.no_hash Sample.lose_commit
                     1001 (ToUser 1002) "k" "hi" "t2" s1 in
  ar_error r1 = MysqlFailed /\ ar_error r2 = Success /\
  @client_rows Sample.exact 1001 "k" (db s3) = [ar_messageId r2].
Proof.
  pose proof (@accept_exactly_once Sample.exact Sample.no_hash Sample.lose_commit
    1001 (ToUser 1002) "k" "hi" "t1" "t2" [] Sample.start eq_refl (friends_db_ok _)) as Ht.
  revert Ht.
  destruct (@accept_text _ _ _ _ _ _ _ _ Sample.start) as [r1 s1] eqn:E1.
  change (@run_ops Sample.exact Sample.no_hash Sample.lose_commit [] s1) with s1.
  destruct (@accept_text _ _ _ _ _ _ _ _ s1) as [r2 s3] eqn:E2. intros Ht.
  vm_compute in E1. injection E1 as <- <-. vm_compute in E2. injection E2 as <- <-.
  split; [reflexivity|]. split; [reflexivity|]. apply Ht. reflexivity.
Defined.
