(* ===== verification/Sync.v ===== *)
(** * Reading a conversation page by page, and acknowledging it

    Properties of [syncConversation], [acknowledgeConversationMessage] and
    [updateMessageForReceiver] of Messages. *)

From S2P Require Import Prelude Const Store Messages Ledger History.

(** ** One page *)

Section Page.
Context `{Collation}.

Definition seq_of (im : Z * Message) : Z := default 0 (m_conversationSeq im.2).

#[local] Instance seq_le_total : Total seq_le.
Proof. intros x y. unfold seq_le. lia. Qed.
#[local] Instance seq_le_trans : Transitive seq_le.
Proof. intros x y z. unfold seq_le. lia. Qed.

(** The rows a page is taken from, in order. *)
Definition rows_between (c lo hi : Z) (d : DB) : list (Z * Message) :=
  merge_sort seq_le (rows_where (fun _ m => in_range c lo hi m) (messages d)).

Lemma rows_between_perm c lo hi d :
  rows_between c lo hi d ≡ₚ rows_where (fun _ m => in_range c lo hi m) (messages d).
Proof. apply merge_sort_Permutation. Qed.

Lemma in_range_true c lo hi m :
  in_range c lo hi m = true <-> exists q, at_place m c q /\ lo < q <= hi.
Proof.
  unfold in_range, at_place. destruct (m_conversationId m) as [c'|], (m_conversationSeq m) as [q|].
  - split.
    + intros Hr. boolp. subst. exists q. repeat split; (done || lia).
    + intros (q' & [[= ->] [= ->]] & Hq). rewrite Z.eqb_refl. simpl.
      apply andb_true_iff. split; [apply Z.ltb_lt|apply Z.leb_le]; lia.
  - split; [done|]. by intros (? & [? ?] & _).
  - split; [done|]. by intros (? & [? ?] & _).
  - split; [done|]. by intros (? & [? ?] & _).
Qed.

Lemma elem_of_rows_between c lo hi d id m :
  (id, m) ∈ rows_between c lo hi d <->
  messages d !! id = Some m /\ exists q, at_place m c q /\ lo < q <= hi.
Proof. by rewrite rows_between_perm, elem_of_rows_where, in_range_true. Qed.

(** Under the invariant the rows carry the numbers [lo+1 .. hi]. *)
Lemma rows_between_seqs n d c cv lo hi :
  ledger_ok n d -> conversations d !! c = Some cv -> 0 <= lo -> hi <= cv_latestSeq cv ->
  seq_of <$> rows_between c lo hi d = seqZ (lo + 1) (hi - lo).
Proof.
  intros Hok Hcv Hlo Hhi.
  assert (StronglySorted Z.le (seq_of <$> rows_between c lo hi d)) as Hsorted.
  { unfold rows_between. pose proof (StronglySorted_merge_sort seq_le
      (rows_where (fun _ m => in_range c lo hi m) (messages d))) as Hs.
    induction Hs as [|x l Hl IH Hx]; simpl; constructor; [done|].
    rewrite Forall_fmap. eapply Forall_impl; [exact Hx|]. intros y Hy. exact Hy. }
  assert (forall a k, StronglySorted Z.le (seqZ a k)) as Hseq.
  { intros a k. destruct (Z.le_gt_cases k 0) as [Hk|Hk]; [rewrite seqZ_nil by lia; constructor|].
    revert a. pattern k. apply Zlt_lower_bound_ind with (z := 0); [|lia]. clear Hk k.
    intros k IH Hk a. destruct (decide (k = 0)) as [->|]; [constructor|].
    rewrite seqZ_cons by lia. constructor; [apply IH; lia|].
    apply Forall_forall. intros x Hx%elem_of_seqZ. lia. }
  apply (StronglySorted_unique Z.le); [exact Hsorted|apply Hseq|].
  apply NoDup_Permutation; [|apply NoDup_seqZ|].
  - apply NoDup_fmap_2_strong; [|rewrite rows_between_perm; apply NoDup_rows_where].
    intros [i1 m1] [i2 m2] (H1 & q1 & P1 & R1)%elem_of_rows_between
      (H2 & q2 & P2 & R2)%elem_of_rows_between Heq.
    unfold seq_of in Heq. simpl in Heq. rewrite (proj2 P1), (proj2 P2) in Heq. simpl in Heq. subst q2.
    pose proof (lo_order _ _ Hok _ _ _ _ _ _ _ H1 H2 P1 P2 ltac:(lia)).
    pose proof (lo_order _ _ Hok _ _ _ _ _ _ _ H2 H1 P2 P1 ltac:(lia)).
    assert (i1 = i2) as <- by lia. by simplify_eq.
  - intros q. rewrite elem_of_seqZ, list_elem_of_fmap. split.
    + intros ([id m] & -> & (Hm & q1 & P & R)%elem_of_rows_between). unfold seq_of. simpl.
      rewrite (proj2 P). simpl. lia.
    + intros Hq. destruct (lo_dense _ _ Hok c cv q Hcv ltac:(lia)) as (id & m & Hm & P).
      exists (id, m). split; [unfold seq_of; simpl; by rewrite (proj2 P)|].
      apply elem_of_rows_between. split; [done|]. exists q. split; [done|lia].
Qed.
End Page.

(** The loop over the fetched rows. *)
Lemma sync_rows_spec b rows acc next :
  (length acc <= b)%nat ->
  sync_rows b rows acc next =
  (acc ++ (record_of <$> take (b - length acc) rows),
   match last (record_of <$> take (b - length acc) rows) with
   | Some r => r_conversationSeq r | None => next end,
   bool_decide (b - length acc < length rows)%nat).
Proof.
  revert acc next. induction rows as [|row rows IH]; intros acc next Hlen; cbn [sync_rows].
  { rewrite take_nil. simpl. by rewrite app_nil_r. }
  case_decide as Hfull.
  - rewrite bool_decide_true by (simpl; lia).
    replace (b - length acc)%nat with 0%nat by lia. simpl. by rewrite app_nil_r.
  - rewrite IH by (rewrite length_app; simpl; lia). rewrite length_app. simpl.
    replace (b - length acc)%nat with (S (b - (length acc + 1))) by lia.
    rewrite firstn_cons, fmap_cons, last_cons, <- app_assoc. f_equal; [f_equal|].
    + by destruct (last (record_of <$> take _ rows)).
    + apply bool_decide_ext. simpl. lia.
Qed.

Lemma bounded_count_range k : 1 <= bounded_count k <= 100.
Proof. unfold bounded_count. destruct (0 <? k) eqn:?; boolp; lia. Qed.

Lemma seq_of_record im : r_conversationSeq (record_of im) = seq_of im.
Proof. by destruct im. Qed.

(** What a page promises: the messages numbered [lo+1 .. min hi (lo+count)]. *)
Definition page_of (c lo hi count : Z) (d : DB) (r : ConversationSyncResult) : Prop :=
  sy_error r = Success /\
  r_conversationSeq <$> sy_messages r = seqZ (lo + 1) (Z.min hi (lo + count) - lo) /\
  (forall x, x ∈ sy_messages r -> r_conversationId x = c /\
     exists m, messages d !! r_messageId x = Some m /\ r_content x = m_content m) /\
  sy_nextSeq r = Z.max lo (Z.min hi (lo + count)) /\
  (sy_hasMore r = true <-> lo + count < hi).

Section SyncTheorems.
Context `{Collation} `{StdHash} `{Faults}.

(** The answer computed from the tables. *)
Definition sync_answer (c after count : Z) (cv : Conversation) (m : ConversationMember) (d : DB)
  : ConversationSyncResult :=
  let lo := Z.max after (cm_joinedSeq m - 1) in
  let hi := default (cv_latestSeq cv) (cm_leftSeq m) in
  let '(msgs, next, more) := sync_rows (Z.to_nat count)
    (conversation_page c lo hi (Z.to_nat (count + 1)) d) [] 0 in
  mkSync Success (cv_type cv) (cv_latestSeq cv) (if decide (msgs = []) then lo else next) more msgs.

Lemma sync_run uid c after k s cv m :
  saved s = None -> 0 < uid -> 0 < c -> 0 <= after ->
  conversations (db s) !! c = Some cv -> conversationMembers (db s) !! (c, uid) = Some m ->
  let '(r, s') := syncConversation uid c after k s in
  saved s' = None /\ db s' = db s /\ next_message s' = next_message s /\
  (r = sync_answer c after (bounded_count k) cv m (db s) \/
   (r = no_sync /\ some_fault (tick s) (tick s'))).
Proof.
  intros Hs Hu Hc Ha Hcv Hm. unfold syncConversation.
  rewrite (proj2 (Z.leb_gt uid 0)), (proj2 (Z.leb_gt c 0)), (proj2 (Z.ltb_ge after 0)) by done.
  apply execute_computes; [done|].
  eapply computes_bind; [apply computes_select|]. cbv beta. rewrite Hcv, Hm. cbv beta iota zeta.
  eapply computes_bind; [apply computes_select|]. cbv beta. unfold sync_answer.
  destruct (sync_rows _ _ _ _) as [[msgs next] more]. apply computes_ret.
Qed.

(** The answer is the page it promises to be. *)
Lemma sync_answer_page n c after count cv m d :
  ledger_ok n d -> 0 <= after -> 1 <= count ->
  conversations d !! c = Some cv -> 1 <= cm_joinedSeq m ->
  (forall l, cm_leftSeq m = Some l -> l <= cv_latestSeq cv) ->
  page_of c (Z.max after (cm_joinedSeq m - 1)) (default (cv_latestSeq cv) (cm_leftSeq m)) count d
    (sync_answer c after count cv m d).
Proof.
  intros Hok Ha Hcount Hcv Hj Hleft. unfold sync_answer.
  set (lo := Z.max _ _). set (hi := default _ _).
  assert (0 <= lo) as Hlo by lia.
  assert (hi <= cv_latestSeq cv) as Hhi.
  { unfold hi. destruct (cm_leftSeq m) eqn:E; simpl; [by apply Hleft|lia]. }
  unfold conversation_page. fold (rows_between c lo hi d).
  pose proof (rows_between_seqs n d c cv lo hi Hok Hcv Hlo Hhi) as Hseqs.
  assert (forall im, im ∈ rows_between c lo hi d -> messages d !! im.1 = Some im.2 /\
    m_conversationId im.2 = Some c) as Hrows.
  { intros [id x] (Hx & q & [Hp _] & _)%elem_of_rows_between. done. }
  set (rows := rows_between c lo hi d) in *.
  assert (Z.of_nat (length rows) = Z.max 0 (hi - lo)) as Hlen.
  { apply (f_equal length) in Hseqs. rewrite length_fmap, length_seqZ in Hseqs. lia. }
  rewrite sync_rows_spec by (simpl; lia). cbn [length app]. rewrite Nat.sub_0_r.
  rewrite take_take. replace (Z.to_nat count `min` Z.to_nat (count + 1))%nat with (Z.to_nat count) by lia.
  set (page := take (Z.to_nat count) rows).
  assert (seq_of <$> page = seqZ (lo + 1) (Z.min hi (lo + count) - lo)) as Hpage.
  { unfold page. rewrite fmap_take, Hseqs, take_seqZ. f_equal. lia. }
  assert (length page = Z.to_nat (Z.min hi (lo + count) - lo)) as Hplen.
  { by rewrite <- (length_fmap seq_of), Hpage, length_seqZ. }
  unfold page_of. simpl. split; [done|]. split; [|split; [|split]].
  - rewrite <- list_fmap_compose, <- Hpage. apply list_fmap_ext. intros i x _. apply seq_of_record.
  - intros x ([id y] & -> & Hin)%list_elem_of_fmap. destruct (Hrows (id, y)) as [Hy Hcy].
    { by eapply elem_of_take in Hin as (? & ? & _); eapply list_elem_of_lookup_2. }
    simpl in *. rewrite Hcy. split; [done|]. by exists y.
  - case_decide as Hnil.
    + apply fmap_nil_inv in Hnil. rewrite Hnil in Hplen. simpl in Hplen. lia.
    + assert (0 < Z.min hi (lo + count) - lo) as Hpos.
      { destruct page; [done|]. simpl in Hplen. lia. }
      rewrite fmap_last. pose proof (last_seqZ (lo + 1) _ Hpos) as Hl.
      rewrite <- Hpage, fmap_last in Hl. destruct (last page) as [x|]; [|done].
      injection Hl as Hl. simpl. rewrite seq_of_record. lia.
  - rewrite bool_decide_eq_true, length_take. lia.
Qed.
End SyncTheorems.

(** ** Theorems *)

(** Reading on from the last page until there is no more; [n] bounds the number
    of pages, [false] means it was too small or a page failed. *)
Fixpoint sync_all `{Faults} (n : nat) (uid c after k : Z) (s : store) : list MessageRecord * bool :=
  match n with
  | O => ([], false)
  | S n =>
      let '(r, s) := syncConversation uid c after k s in
      if negb (sy_error r =? Success) then ([], false)
      else if sy_hasMore r then
        let '(rest, ok) := sync_all n uid c (sy_nextSeq r) k s in (sy_messages r ++ rest, ok)
      else (sy_messages r, true)
  end.

Section SyncProperties.
Context `{Collation} `{StdHash} `{Faults}.

(** A page of a conversation.  For a member, [syncConversation] changes
    nothing and, unless a statement failed, returns the messages that follow the
    larger of the requested place and the place before the member joined, in
    order and without a gap, at most the bounded count of them; [nextSeq] is the
    place reached, and [hasMore] says exactly whether messages remain. *)
Theorem sync_page uid c after k s cv m :
  saved s = None -> ledger_ok (next_message s) (db s) ->
  0 < uid -> 0 < c -> 0 <= after ->
  conversations (db s) !! c = Some cv -> conversationMembers (db s) !! (c, uid) = Some m ->
  (forall l, cm_leftSeq m = Some l -> l <= cv_latestSeq cv) ->
  let '(r, s') := syncConversation uid c after k s in
  db s' = db s /\ 1 <= bounded_count k <= 100 /\
  ((r = no_sync /\ some_fault (tick s) (tick s')) \/
   (page_of c (Z.max after (cm_joinedSeq m - 1)) (default (cv_latestSeq cv) (cm_leftSeq m))
      (bounded_count k) (db s) r /\
    sy_latestSeq r = cv_latestSeq cv /\ sy_conversationType r = cv_type cv)).
Proof.
  intros Hs Hok Hu Hc Ha Hcv Hm Hleft.
  pose proof (sync_run uid c after k s cv m Hs Hu Hc Ha Hcv Hm) as Hrun.
  destruct (syncConversation uid c after k s) as [r s']. destruct Hrun as (_ & Hd & _ & Hr).
  pose proof (bounded_count_range k). split; [done|]. split; [done|].
  destruct Hr as [->|Hr]; [right|by left].
  destruct (lo_member _ _ Hok _ _ _ Hm) as (cv' & Hcv' & _ & _ & Hj).
  split; [eapply sync_answer_page; try done; lia|].
  unfold sync_answer. by destruct (sync_rows _ _ _ _) as [[? ?] ?].
Qed.

(** C16: reading page by page is complete.  Without faults, with at least as
    many pages as messages to read plus one, following [nextSeq] while there is
    more returns every message of the member's range exactly once, in order,
    whatever the page size, and ends. *)
Theorem sync_complete n uid c after k s cv m :
  (forall t, fault_at t = FNone) ->
  saved s = None -> ledger_ok (next_message s) (db s) ->
  0 < uid -> 0 < c -> 0 <= after ->
  conversations (db s) !! c = Some cv -> conversationMembers (db s) !! (c, uid) = Some m ->
  (forall l, cm_leftSeq m = Some l -> l <= cv_latestSeq cv) ->
  let lo := Z.max after (cm_joinedSeq m - 1) in
  let hi := default (cv_latestSeq cv) (cm_leftSeq m) in
  Z.max 0 (hi - lo) < Z.of_nat n ->
  let '(msgs, ok) := sync_all n uid c after k s in
  ok = true /\ r_conversationSeq <$> msgs = seqZ (lo + 1) (hi - lo).
Proof.
  intros Hnf Hs Hok Hu Hc Ha Hcv Hm Hleft. cbv zeta. revert after s Hs Hok Ha Hcv Hm.
  induction n as [|n IH]; intros after s Hs Hok Ha Hcv Hm Hn; cbn [sync_all].
  { lia. }
  pose proof (sync_run uid c after k s cv m Hs Hu Hc Ha Hcv Hm) as Hrun.
  destruct (syncConversation uid c after k s) as [r s']. destruct Hrun as (Hs' & Hd & Hn' & Hr).
  destruct Hr as [->|[_ (t & _ & Ht)]]; [|by rewrite Hnf in Ht].
  destruct (lo_member _ _ Hok _ _ _ Hm) as (cv' & Hcv' & _ & _ & Hj).
  pose proof (bounded_count_range k) as Hb.
  destruct (sync_answer_page _ c after (bounded_count k) cv m _ Hok Ha ltac:(lia) Hcv ltac:(lia) Hleft)
    as (He & Hseqs & _ & Hnext & Hmore).
  set (r := sync_answer _ _ _ _ _ _) in *. rewrite He. simpl negb. cbv iota.
  set (lo := Z.max after (cm_joinedSeq m - 1)) in *. set (hi := default _ _) in *.
  destruct (sy_hasMore r) eqn:Em.
  - assert (lo + bounded_count k < hi) as Hlt by by apply Hmore.
    assert (sy_nextSeq r = lo + bounded_count k) as -> by lia.
    specialize (IH (lo + bounded_count k) s' Hs').
    rewrite Hd, Hn' in IH. specialize (IH Hok ltac:(lia) Hcv Hm).
    fold hi in IH. replace (Z.max (lo + bounded_count k) (cm_joinedSeq m - 1))
      with (lo + bounded_count k) in IH by lia.
    specialize (IH ltac:(lia)). destruct (sync_all n _ _ _ _ _) as [rest ok].
    destruct IH as [-> IH]. split; [done|]. rewrite fmap_app, Hseqs, IH.
    rewrite Z.min_r by lia.
    replace (hi - lo) with ((lo + bounded_count k - lo) + (hi - (lo + bounded_count k))) by lia.
    rewrite seqZ_app by lia. f_equal. f_equal. lia.
  - split; [done|]. rewrite Hseqs. f_equal.
    assert (~ lo + bounded_count k < hi) by (intros Hx; apply Hmore in Hx; congruence). lia.
Qed.

(** A message moved forward: same content, status not lower, the time at which
    it was first read is kept. *)
Definition status_advances (m m' : Message) : Prop :=
  core m' = core m /\ m_status m <= m_status m' /\
  (m_status m = Status_READ -> m_readDateTime m <> "" -> m_readDateTime m' = m_readDateTime m).

Lemma ack_update_advances st rd m :
  status_advances m (ack_update st rd m) /\ st <= m_status (ack_update st rd m) /\
  (st = Status_READ -> rd <> "" -> m_readDateTime (ack_update st rd m) <> "").
Proof.
  unfold ack_update, status_advances, Status_READ.
  destruct ((st =? 3) && ((m_status m <? 3) || str_empty (m_readDateTime m))) eqn:E; simpl.
  - split; [|split; [lia|done]]. split; [done|]. split; [lia|]. intros Hst Hr.
    apply andb_true_iff in E as [_ E]. apply orb_true_iff in E as [E|E]; boolp; [lia|done].
  - split; [|split; [lia|]]; [split; [done|]; split; [lia|done]|].
    intros Hst _ Hr. subst st. simpl in E. apply orb_false_iff in E as [_ E]. boolp. done.
Qed.

(** The request names a message at its place in a conversation of the user. *)
Definition names (mid uid c q : Z) (d : DB) (m : Message) (cv : Conversation) (cm : ConversationMember) : Prop :=
  0 < mid /\ 0 < uid /\ 0 < c /\ 0 < q /\ messages d !! mid = Some m /\ at_place m c q /\
  conversations d !! c = Some cv /\ conversationMembers d !! (c, uid) = Some cm.

(** The two rows that change: the member's cursors, which never fall, and the
    status of a direct message. *)
Definition moved_on (q status : Z) (cm cm' : ConversationMember) : Prop :=
  cm_joinedSeq cm' = cm_joinedSeq cm /\ cm_leftSeq cm' = cm_leftSeq cm /\
  cm_deliveredSeq cm' = Z.max (cm_deliveredSeq cm) q /\
  cm_readSeq cm' = if status =? Status_READ then Z.max (cm_readSeq cm) q else cm_readSeq cm.

Definition acknowledged (mid uid c q status : Z) (rd : string) (d d1 : DB) : Prop :=
  exists m m' cv cm cm', names mid uid c q d m cv cm /\
    d1 = set_conversationMembers (<[(c, uid) := cm']> (conversationMembers d)) (set_messages (<[mid := m']> (messages d)) d) /\
    moved_on q status cm cm' /\
    if cv_type cv =? 1
    then m_receiverId m = uid /\ status_advances m m' /\ m_status m' = Z.max (m_status m) status /\
         (status = Status_READ -> rd <> "" -> m_readDateTime m' <> "")
    else m' = m.

(** No message but [mid] is touched, and [mid] only moves forward. *)
Definition advances_only (mid : Z) (d d1 : DB) : Prop :=
  forall id m, messages d !! id = Some m ->
    exists m', messages d1 !! id = Some m' /\ status_advances m m' /\ (id <> mid -> m' = m).

Lemma advances_only_same mid (d d' : DB) : messages d' = messages d -> advances_only mid d d'.
Proof. intros Heq id x Hx. rewrite Heq. exists x. repeat split; done || lia. Qed.

(** Answers without a fault. *)
Inductive ack_outcome (mid uid c q status : Z) (rd : string) (d : DB) : Z -> DB -> Prop :=
  | Ack_done d1 : acknowledged mid uid c q status rd d d1 -> ack_outcome mid uid c q status rd d 1 d1
  | Ack_unknown : (forall m cv cm, ~ names mid uid c q d m cv cm) -> ack_outcome mid uid c q status rd d 0 d
  | Ack_foreign m cv cm : names mid uid c q d m cv cm -> cv_type cv = 1 -> m_receiverId m <> uid ->
      ack_outcome mid uid c q status rd d (-2) d.

Lemma ack_update_status st rd m : m_status (ack_update st rd m) = Z.max (m_status m) st.
Proof. unfold ack_update. by destruct (_ && _). Qed.

Lemma ack_spec_effect mid uid c q status rd d :
  ack_outcome mid uid c q status rd d (ack_spec mid uid c q status rd d).1 (ack_spec mid uid c q status rd d).2.
Proof.
  unfold ack_spec.
  destruct ((mid <=? 0) || (uid <=? 0) || (c <=? 0) || (q <=? 0)) eqn:E0;
    [apply Ack_unknown; intros m cv cm (? & ? & ? & ? & _); rewrite !orb_true_iff in E0; lia|].
  rewrite !orb_false_iff in E0.
  assert (forall d', (messages d !! mid = None \/ conversations d !! c = None \/ conversationMembers d !! (c, uid) = None) -> d' = d ->
    ack_outcome mid uid c q status rd d 0 d') as Hunknown
    by (intros d' Hn ->; apply Ack_unknown; intros m cv cm (_ & _ & _ & _ & E1 & _ & E2 & E3);
        rewrite E1, E2, E3 in Hn; by destruct Hn as [|[]]).
  destruct (messages d !! mid) as [m|] eqn:Em; [|by apply Hunknown; auto].
  destruct (conversations d !! c) as [cv|] eqn:Ec; [|by apply Hunknown; auto].
  destruct (conversationMembers d !! (c, uid)) as [cm|] eqn:Eu; [|by apply Hunknown; auto].
  destruct (bool_decide _ && bool_decide _) eqn:Ep.
  2:{ apply Ack_unknown. intros m' cv' cm' (_ & _ & _ & _ & Hm & [Hc Hq] & _).
      assert (Some m' = Some m) as [= ->] by (by rewrite <-Hm, <-Em). by rewrite !bool_decide_true in Ep. }
  boolp. assert (names mid uid c q d m cv cm) as Hn by (unfold names, at_place; split_and!; (done || lia)).
  destruct ((cv_type cv =? 1) && negb (m_receiverId m =? uid)) eqn:Et; [boolp; by eapply Ack_foreign|].
  apply Ack_done. simpl. pose proof (ack_update_advances status rd m) as (Ha & _ & Hb).
  exists m, (if cv_type cv =? 1 then ack_update status rd m else m), cv, cm, (advance q (status =? 3) cm).
  split; [done|]. destruct (cv_type cv =? 1) eqn:Ety; (split; [|split; [done|]]); simpl in Et.
  - done.
  - split; [by boolp|]. split; [done|]. split; [apply ack_update_status|done].
  - rewrite (insert_id (messages d)) by done. by destruct d.
  - done.
Qed.

Lemma acknowledged_advances mid uid c q status rd d d1 : acknowledged mid uid c q status rd d d1 -> advances_only mid d d1.
Proof.
  intros (m & m' & cv & cm & cm' & Hn & -> & _ & Hm). assert (status_advances m m') as Ha.
  { destruct (cv_type cv =? 1); [by apply Hm|]. subst m'. split; [done|]. split; [lia|done]. }
  destruct Hn as (_ & _ & _ & _ & Em & _). intros id x Hx. simpl. destruct (decide (id = mid)) as [->|Hne].
  - rewrite lookup_insert_eq. simplify_eq. exists m'. split; [done|]. split; [done|]. by intros [].
  - rewrite lookup_insert_ne by congruence. by apply (advances_only_same mid d d).
Qed.

(** C17: acknowledging.  The answer is 1, 0 (no message at that place of a
    conversation of the user has that id), -2 (it is a direct message for
    someone else) or -1 (reported only after a fault).  With 0 and -2 nothing
    changes.  With 1 exactly two rows change: the member's delivered cursor
    becomes the larger of itself and the place, for status READ the read cursor
    too; and a direct message gets the larger of its status and the given one
    and, for READ, a time, the first one being kept.  With -1 nothing has
    changed, or the same as with 1. *)
Theorem acknowledge_effect mid uid c q status rd s :
  saved s = None ->
  let '(r, s') := acknowledgeConversationMessage mid uid c q status rd s in
  saved s' = None /\ advances_only mid (db s) (db s') /\
  (ack_outcome mid uid c q status rd (db s) r (db s') \/
   r = -1 /\ some_fault (tick s) (tick s') /\
   (db s' = db s \/ acknowledged mid uid c q status rd (db s) (db s'))).
Proof.
  intros Hs. pose proof (ack_implements mid uid c q status rd s Hs) as Hi.
  pose proof (ack_spec_effect mid uid c q status rd (db s)) as Hspec.
  destruct (acknowledgeConversationMessage _ _ _ _ _ _ s) as [r s'].
  destruct (ack_spec mid uid c q status rd (db s)) as [r0 d1]. cbn [fst snd] in Hspec.
  assert (advances_only mid (db s) d1) as Hd1
    by (destruct Hspec as [? Ha| |]; [by eapply acknowledged_advances|by apply advances_only_same..]).
  destruct Hi as (Hs' & _ & [[-> ->]|(-> & Hf & Hd)]); (split; [done|]); [by auto|].
  destruct Hd as [-> | ->]; [split; [by apply advances_only_same|]; by auto|]. split; [done|]. right. split; [done|]. split; [done|].
  destruct Hspec; auto.
Qed.
End SyncProperties.

(** ** Witnesses: two messages sent, the first read *)
Module Sent.
Definition store : Store.store :=
  @run_ops Sample.exact Sample.no_hash Sample.no_faults
    [OpAcceptDirect 1001 1002 "a" "hi" "t1"; OpAcceptDirect 1001 1002 "b" "you" "t2"] Sample.start.
End Sent.

Lemma sent_ok : saved Sent.store = None /\
  @ledger_ok Sample.exact (next_message Sent.store) (db Sent.store).
Proof.
  destruct (@run_ops_good Sample.exact Sample.no_hash Sample.no_faults
    [OpAcceptDirect 1001 1002 "a" "hi" "t1"; OpAcceptDirect 1001 1002 "b" "you" "t2"] _ _ _
    (@good_start Sample.exact Sample.start eq_refl (friends_db_ok _))) as (Hs & Hok & _).
  by split.
Qed.

Lemma sync_page_witness :
  let '(r, s') := @syncConversation Sample.no_faults 1002 77 0 1 Sent.store in
  db s' = db Sent.store /\ 1 <= bounded_count 1 <= 100 /\
  ((r = no_sync /\ @some_fault Sample.no_faults (tick Sent.store) (tick s')) \/
   (page_of 77 0 2 1 (db Sent.store) r /\ sy_latestSeq r = 2 /\ sy_conversationType r = 1)).
Proof.
  refine (@sync_page Sample.exact Sample.no_faults 1002 77 0 1 Sent.store
    (mkConversation 1 77 2 "t1") (mkMember 1 None 0 0) (proj1 sent_ok) (proj2 sent_ok)
    eq_refl eq_refl _ _ _ _); [lia|vm_compute; reflexivity|vm_compute; reflexivity|done].
Defined.

Lemma sync_complete_witness :
  let '(msgs, ok) := @sync_all Sample.no_faults 3 1002 77 0 1 Sent.store in
  ok = true /\ r_conversationSeq <$> msgs = seqZ 1 2.
Proof.
  refine (@sync_complete Sample.exact Sample.no_faults 3 1002 77 0 1 Sent.store
    (mkConversation 1 77 2 "t1") (mkMember 1 None 0 0) (fun _ => eq_refl)
    (proj1 sent_ok) (proj2 sent_ok) eq_refl eq_refl _ _ _ _ _);
    [lia|vm_compute; reflexivity|vm_compute; reflexivity|done|vm_compute; reflexivity].
Defined.

Lemma acknowledge_effect_witness :
  let '(r, s') := @acknowledgeConversationMessage Sample.no_faults 1 1002 77 1 3 "t3" Sent.store in
  r = 1 /\ @acknowledged 1 1002 77 1 3 "t3" (db Sent.store) (db s').
Proof.
  pose proof (@acknowledge_effect Sample.no_faults 1 1002 77 1 3 "t3" Sent.store
    (proj1 sent_ok)) as Ht.
  assert ((@acknowledgeConversationMessage Sample.no_faults 1 1002 77 1 3 "t3" Sent.store).1 = 1)
    as Hr by (vm_compute; reflexivity).
  destruct (@acknowledgeConversationMessage _ _ _ _ _ _ _ _) as [r s'].
  simpl in Hr. subst r. split; [reflexivity|]. destruct Ht as (_ & _ & [Ho|[Hm _]]); [|discriminate Hm].
  inversion Ho; assumption.
Defined.
