(* ===== verification/Pools.v ===== *)
(** * Queues shared between threads

    The write queue of a gRPC stream, identical in [GatewayStreamReactor]
    ([src/server/message/src/service/GatewayStreamService.cc]) and [MessageLink]
    ([src/server/gateway/src/MessageLink.cc]); the thread pool
    ([src/server/public/src/ThreadPool.cc]); the connection pools of
    [Mysql.h], [Redis.h] and [RpcPool.h].  Every operation runs under the mutex
    of its object, so a run is a sequence of whole operations. *)

From S2P Require Import Prelude.

(** ** The write queue of a stream *)

Section Writer.
Context {F : Type}.

(** [w_sent] records the frames handed to [StartWrite], in order. *)
Record writer := mkWriter {
  w_queue : list F; w_inFlight : bool; w_stopped : bool; w_sent : list F }.

Definition new_writer : writer := mkWriter [] false false [].
Definition kMaxStreamQueue : nat := 4096.

(** [Enqueue]: [w_stopped] is [finishing] of the reactor, [stopped] of the link. *)
Definition Enqueue (f : F) (w : writer) : bool * writer :=
  if w_stopped w || bool_decide (kMaxStreamQueue <= length (w_queue w))%nat then (false, w)
  else
    let q := w_queue w ++ [f] in
    if w_inFlight w then (true, mkWriter q true (w_stopped w) (w_sent w))
    else match q with
         | x :: q => (true, mkWriter q true (w_stopped w) (w_sent w ++ [x]))
         | [] => (true, w)
         end.

(** [OnWriteDone]; a failed write stops the stream. *)
Definition OnWriteDone (ok : bool) (w : writer) : writer :=
  if negb ok then mkWriter (w_queue w) (w_inFlight w) true (w_sent w)
  else match w_queue w with
       | x :: q => mkWriter q (w_inFlight w) (w_stopped w) (w_sent w ++ [x])
       | [] => mkWriter [] false (w_stopped w) (w_sent w)
       end.

(** [FinishOnce], [Stop], a failed read. *)
Definition StopWriter (w : writer) : writer :=
  mkWriter (w_queue w) (w_inFlight w) true (w_sent w).

Inductive writer_event := WEnqueue (f : F) | WDone (ok : bool) | WStop.

(** A run: the state and the frames [Enqueue] has accepted, in order.
    [OnWriteDone] is called only for a write that was started. *)
Definition writer_step (e : writer_event) (wa : writer * list F) : writer * list F :=
  let '(w, acc) := wa in
  match e with
  | WEnqueue f => let '(ok, w') := Enqueue f w in (w', if ok then acc ++ [f] else acc)
  | WDone ok => if w_inFlight w then (OnWriteDone ok w, acc) else (w, acc)
  | WStop => (StopWriter w, acc)
  end.

Definition writer_run (es : list writer_event) (wa : writer * list F) : writer * list F :=
  foldl (fun wa e => writer_step e wa) wa es.

Definition writer_inv (wa : writer * list F) : Prop :=
  let '(w, acc) := wa in
  acc = w_sent w ++ w_queue w /\ (length (w_queue w) <= kMaxStreamQueue)%nat /\
  (w_inFlight w = false -> w_queue w = []).

Lemma writer_step_inv e wa : writer_inv wa -> writer_inv (writer_step e wa).
Proof.
  destruct wa as [w acc]. intros (-> & Hlen & Hidle). destruct e as [f|ok|]; simpl.
  - unfold Enqueue. destruct (w_stopped w || _) eqn:E; [done|]. boolp.
    destruct (w_inFlight w) eqn:Ei; simpl.
    + split; [by rewrite app_assoc|]. split; [rewrite length_app; simpl; lia|done].
    + rewrite Hidle by done. simpl. split; [by rewrite !app_nil_r|]. split; [lia|done].
  - destruct (w_inFlight w) eqn:Ei; simpl; [|by auto]. unfold OnWriteDone. destruct ok; simpl.
    + destruct (w_queue w) as [|x q] eqn:Eq; simpl.
      * split; [done|]. split; [lia|done].
      * split; [by rewrite <- app_assoc|]. simpl in Hlen. split; [lia|congruence].
    + split; [done|]. split; [done|congruence].
  - done.
Qed.

Lemma writer_run_inv es wa : writer_inv wa -> writer_inv (writer_run es wa).
Proof. revert wa. induction es as [|e es IH]; intros wa H; [done|]. by apply IH, writer_step_inv. Qed.

(** A stream writes what it accepted.  In any interleaving of [Enqueue],
    write completions and stops, the frames handed to the transport followed by
    those queued are exactly the accepted frames, in order: none is lost,
    repeated or overtaken; the queue never exceeds 4096; and an idle stream has
    nothing queued. *)
Theorem stream_queue_fifo es :
  let '(w, accepted) := writer_run es (new_writer, []) in
  accepted = w_sent w ++ w_queue w /\ (length (w_queue w) <= kMaxStreamQueue)%nat /\
  (w_inFlight w = false -> w_queue w = []).
Proof. apply (writer_run_inv es (new_writer, [])). repeat split; simpl; unfold kMaxStreamQueue; lia. Qed.
End Writer.
Arguments writer : clear implicits.
Arguments writer_event : clear implicits.

(** ** The thread pool *)

Inductive PostStatus := Accepted | TimedOut | Stopped.

Section ThreadPool.
Context {T : Type}.

Record TaskEntry := mkTask { t_task : T; t_deadline : option Z }.

(** The fields of [ThreadPool]; [p_running] holds the tasks popped by a worker
    and not finished. *)
Record ThreadPool := mkPool {
  p_queue : list TaskEntry; p_running : list T; p_stopping : bool; p_max : nat;
  p_submitted : Z; p_completed : Z; p_rejected : Z; p_acquireTimeouts : Z; p_expired : Z;
  p_workers : nat }.

(** The constructor: at least one worker. *)
Definition NewThreadPool (workerCount max : nat) : ThreadPool :=
  mkPool [] [] false max 0 0 0 0 0 (Nat.max 1 workerCount).

(** [PostUntil] when the wait for a place, if there is one, has ended: the lock
    is held again and the state is the one found then. [Post] does not wait. *)
Definition PostUntil (task : T) (deadline : option Z) (p : ThreadPool) : PostStatus * ThreadPool :=
  if p_stopping p then (Stopped, p)
  else if decide (p_max p <= length (p_queue p))%nat then
    (TimedOut, mkPool (p_queue p) (p_running p) (p_stopping p) (p_max p) (p_submitted p)
       (p_completed p) (p_rejected p + 1) (p_acquireTimeouts p + 1) (p_expired p) (p_workers p))
  else
    (Accepted, mkPool (p_queue p ++ [mkTask task deadline]) (p_running p) (p_stopping p) (p_max p)
       (p_submitted p + 1) (p_completed p) (p_rejected p) (p_acquireTimeouts p) (p_expired p) (p_workers p)).

Definition Post (task : T) (deadline : option Z) (p : ThreadPool) : bool * ThreadPool :=
  let '(s, p) := PostUntil task deadline p in
  (match s with Accepted => true | _ => false end, p).

(** [PopTask] with the start of a round of [WorkerLoop]: a waiting worker takes
    the oldest task; [None] means it still waits or, when stopping with an empty
    queue, leaves. A task past its deadline is counted and run all the same. *)
Definition PopTask (now : Z) (p : ThreadPool) : option T * ThreadPool :=
  match p_queue p with
  | [] => (None, p)
  | t :: q =>
      let late := match t_deadline t with Some d => d <=? now | None => false end in
      (Some (t_task t),
       mkPool q (p_running p ++ [t_task t]) (p_stopping p) (p_max p) (p_submitted p) (p_completed p)
         (p_rejected p) (p_acquireTimeouts p) (p_expired p + (if late then 1 else 0)) (p_workers p))
  end.

(** The end of a round: the task returned or threw. *)
Definition CompleteTask (i : nat) (p : ThreadPool) : ThreadPool :=
  mkPool (p_queue p) (take i (p_running p) ++ drop (S i) (p_running p)) (p_stopping p) (p_max p)
    (p_submitted p) (p_completed p + 1) (p_rejected p) (p_acquireTimeouts p) (p_expired p) (p_workers p).

Definition StopPool (p : ThreadPool) : ThreadPool :=
  mkPool (p_queue p) (p_running p) true (p_max p) (p_submitted p) (p_completed p)
    (p_rejected p) (p_acquireTimeouts p) (p_expired p) (p_workers p).

Inductive pool_event :=
  | PPost (t : T) (deadline : option Z) | PPop (now : Z) | PComplete (i : nat) | PStop.

(** State, accepted tasks and started tasks, both in order. A worker pops only
    when one is free, and completes a task it runs. *)
Definition pool_step (e : pool_event) (s : ThreadPool * list T * list T)
  : ThreadPool * list T * list T :=
  let '(p, acc, started) := s in
  match e with
  | PPost t d => let '(ok, p') := Post t d p in (p', if ok then acc ++ [t] else acc, started)
  | PPop now =>
      if decide (length (p_running p) < p_workers p)%nat then
        match PopTask now p with
        | (Some t, p') => (p', acc, started ++ [t])
        | (None, p') => (p', acc, started)
        end
      else s
  | PComplete i => if decide (i < length (p_running p))%nat then (CompleteTask i p, acc, started) else s
  | PStop => (StopPool p, acc, started)
  end.

Definition pool_run (es : list pool_event) (s : ThreadPool * list T * list T) :=
  foldl (fun s e => pool_step e s) s es.

Definition pool_inv (s : ThreadPool * list T * list T) : Prop :=
  let '(p, acc, started) := s in
  acc = started ++ (t_task <$> p_queue p) /\
  (length (p_queue p) <= p_max p)%nat /\ (length (p_running p) <= p_workers p)%nat /\
  p_submitted p = Z.of_nat (length acc) /\
  Z.of_nat (length started) = p_completed p + Z.of_nat (length (p_running p)).

Lemma pool_step_inv e s : pool_inv s -> pool_inv (pool_step e s).
Proof.
  destruct s as [[p acc] started]. intros Hinv. pose proof Hinv as (Hacc & Hlen & Hrun & Hsub & Hst).
  destruct e as [t d|now|i|]; simpl.
  - unfold Post, PostUntil. destruct (p_stopping p); [done|].
    case_decide as Hfull; [done|]. simpl. rewrite fmap_app, length_app. simpl. subst acc.
    rewrite <- app_assoc. split; [done|]. split; [lia|]. split; [done|].
    rewrite !length_app in *. simpl in *. lia.
  - case_decide; [|done]. unfold PopTask. destruct (p_queue p) as [|t q] eqn:Eq; [simpl; by rewrite Eq|].
    simpl in *. rewrite !length_app. simpl. rewrite <- app_assoc. simpl.
    split; [done|]. split; [lia|]. split; [lia|]. split; [done|]. lia.
  - case_decide; [|done]. simpl. split; [done|]. split; [done|].
    rewrite length_app, length_take, length_drop. split; [lia|]. split; [done|]. lia.
  - done.
Qed.

Lemma pool_run_inv es s : pool_inv s -> pool_inv (pool_run es s).
Proof. revert s. induction es as [|e es IH]; intros s H; [done|]. by apply IH, pool_step_inv. Qed.

(** [GetStats]. *)
Record ThreadPoolStats := mkStats {
  workerCount : nat; queueSize : nat; submitted : Z; completed : Z; rejected : Z; acquireTimeouts : Z; expired : Z }.
Definition GetStats (p : ThreadPool) : ThreadPoolStats :=
  mkStats (p_workers p) (length (p_queue p)) (p_submitted p) (p_completed p) (p_rejected p)
    (p_acquireTimeouts p) (p_expired p).

(** The statistics account for every task: submitted ones are completed,
    queued or run by a worker. *)
Lemma stats_account es workers max :
  let p := (pool_run es (NewThreadPool workers max, [], [])).1.1 in
  submitted (GetStats p) =
    completed (GetStats p) + Z.of_nat (queueSize (GetStats p)) + Z.of_nat (length (p_running p)) /\
  (length (p_running p) <= Nat.max 1 workers)%nat.
Proof.
  assert (pool_inv (NewThreadPool workers max, [], [])) as H0 by (repeat split; simpl; lia).
  assert (forall es s, p_workers (pool_run es s).1.1 = p_workers s.1.1) as Hc.
  { clear. intros es. induction es as [|e es IH]; intros [[p acc] started]; [done|].
    change (pool_run (e :: es) ?s) with (pool_run es (pool_step e s)). rewrite IH.
    destruct e; simpl; unfold Post, PostUntil, PopTask; repeat case_match; simplify_eq; done. }
  pose proof (pool_run_inv es _ H0) as Hi. specialize (Hc es (NewThreadPool workers max, [], [])).
  destruct (pool_run es _) as [[p acc] started]. destruct Hi as (Ha & _ & Hr & Hs & Hst). simpl in *.
  rewrite Hs, Ha, length_app, length_fmap. lia.
Qed.

(** A stopped pool accepts nothing and goes on serving its queue. *)
Lemma pool_stopped_rejects t d p : p_stopping p = true -> Post t d p = (false, p).
Proof. intros H. unfold Post, PostUntil. by rewrite H. Qed.

(** One worker takes a task and finishes it. *)
Lemma pool_round p acc started t q :
  p_queue p = t :: q -> p_running p = [] -> (0 < p_workers p)%nat ->
  exists p1, pool_run [PPop 0; PComplete 0] (p, acc, started) = (p1, acc, started ++ [t_task t]) /\
    p_queue p1 = q /\ p_running p1 = [] /\ p_stopping p1 = p_stopping p /\ p_workers p1 = p_workers p.
Proof.
  intros Hq Hr Hw. unfold pool_run, pool_step, PopTask. cbn [foldl].
  rewrite Hq, Hr. cbn [length]. rewrite decide_True by done. cbn [p_running app length].
  rewrite decide_True by lia. eexists. split; [reflexivity|]. done.
Qed.

Lemma pool_drain p acc started k :
  k = length (p_queue p) -> (0 < p_workers p)%nat -> p_running p = [] ->
  let '(p', _, started') :=
    pool_run (concat (replicate k [PPop 0; PComplete 0])) (p, acc, started) in
  p_queue p' = [] /\ p_running p' = [] /\ started' = started ++ (t_task <$> p_queue p).
Proof.
  revert p started. induction k as [|k IH]; intros p started Hk Hw Hr.
  { simpl. destruct (p_queue p); [|done]. simpl. by rewrite app_nil_r. }
  destruct (p_queue p) as [|t q] eqn:Eq; [done|]. simpl in Hk.
  destruct (pool_round p acc started t q Eq Hr Hw) as (p1 & Hround & Hq1 & Hr1 & _ & Hw1).
  cbn [replicate concat]. unfold pool_run in *. rewrite foldl_app, Hround.
  specialize (IH p1 (started ++ [t_task t])). rewrite Hq1, Hw1 in IH.
  specialize (IH ltac:(lia) Hw Hr1). destruct (foldl _ _ _) as [[p' ?] ?].
  destruct IH as (H1 & H2 & ->). by rewrite <- app_assoc.
Qed.

(** The thread pool starts every task it accepted exactly once and in the
    order accepted, and no other; the queue stays within its bound, running
    tasks within the number of workers; [submitted] counts the accepted tasks
    and [completed] the finished ones; after [Stop] nothing more is accepted and
    the queued tasks are still run. *)
Theorem thread_pool_runs_all workers max es :
  let '(p, accepted, started) := pool_run es (NewThreadPool workers max, [], []) in
  accepted = started ++ (t_task <$> p_queue p) /\
  (length (p_queue p) <= max)%nat /\ (length (p_running p) <= Nat.max 1 workers)%nat /\
  p_submitted p = Z.of_nat (length accepted) /\
  Z.of_nat (length started) = p_completed p + Z.of_nat (length (p_running p)) /\
  (p_stopping p = true -> forall t d, Post t d p = (false, p)) /\
  (p_stopping p = true -> p_running p = [] ->
   let '(p', _, started') := pool_run
     (concat (replicate (length (p_queue p)) [PPop 0; PComplete 0])) (p, accepted, started) in
   p_queue p' = [] /\ started' = accepted).
Proof.
  pose proof (pool_run_inv es (NewThreadPool workers max, [], [])) as Hinv.
  assert (forall es s, p_max (pool_run es s).1.1 = p_max s.1.1 /\
    p_workers (pool_run es s).1.1 = p_workers s.1.1) as Hconst.
  { clear. intros es. induction es as [|e es IH]; intros [[p acc] started]; [done|].
    change (pool_run (e :: es) ?s) with (pool_run es (pool_step e s)). destruct (IH (pool_step e (p, acc, started))) as [-> ->].
    destruct e; simpl; unfold Post, PostUntil, PopTask; repeat case_match; simplify_eq; done. }
  destruct (Hconst es (NewThreadPool workers max, [], [])) as [Hm Hw]. simpl in Hm, Hw.
  destruct (pool_run es _) as [[p acc] started]. simpl in Hm, Hw.
  destruct Hinv as (H1 & H2 & H3 & H4 & H5).
  { unfold pool_inv, NewThreadPool. simpl. repeat split; lia. }
  rewrite Hm in H2. rewrite Hw in H3. repeat split; try done.
  - intros. by apply pool_stopped_rejects.
  - intros Hs Hr. pose proof (pool_drain p acc started _ eq_refl ltac:(lia) Hr) as Hd.
    destruct (pool_run _ _) as [[p' ?] ?]. destruct Hd as (Hq & _ & ->). split; [done|]. by rewrite H1.
Qed.
End ThreadPool.

(** ** Connection pools *)

Section ConnectionPool.
Context {C : Type}.

(** [MysqlPool], [RedisPool], [RpcPool]: free connections, first in first out. *)
Record ConnPool := mkConnPool { cp_free : list C; cp_stop : bool }.

(** [GetConnectionUntil] once the wait has ended; [ready] tells whether the
    predicate held then, and a time-out with no connection gives none. *)
Definition GetConnection (p : ConnPool) : option C * ConnPool :=
  if cp_stop p then (None, p)
  else match cp_free p with
       | [] => (None, p)
       | c :: l => (Some c, mkConnPool l false)
       end.

Definition ReturnConnection (c : C) (p : ConnPool) : ConnPool :=
  if cp_stop p then p else mkConnPool (cp_free p ++ [c]) false.

Definition ClosePool (p : ConnPool) : ConnPool := mkConnPool (cp_free p) true.

Inductive conn_event := CGet | CReturn (i : nat) | CClose.

(** State, connections lent out. *)
Definition conn_step (e : conn_event) (s : ConnPool * list C) : ConnPool * list C :=
  let '(p, lent) := s in
  match e with
  | CGet => match GetConnection p with
            | (Some c, p') => (p', lent ++ [c])
            | (None, p') => (p', lent)
            end
  | CReturn i => match lent !! i with
                 | Some c => (ReturnConnection c p, take i lent ++ drop (S i) lent)
                 | None => s
                 end
  | CClose => (ClosePool p, lent)
  end.

Definition conn_run (es : list conn_event) (s : ConnPool * list C) : ConnPool * list C :=
  foldl (fun s e => conn_step e s) s es.

(** A connection is used by one thread at a time.  Starting from distinct
    connections, at any moment the free and the lent ones are distinct members
    of the initial ones, and while the pool is open they are all of them; a
    closed pool lends nothing. *)
Theorem connection_pool_exclusive es cs :
  NoDup cs ->
  let '(p, lent) := conn_run es (mkConnPool cs false, []) in
  NoDup (cp_free p ++ lent) /\ (cp_free p ++ lent) ⊆ cs /\
  (cp_stop p = false -> cp_free p ++ lent ≡ₚ cs) /\
  (cp_stop p = true -> GetConnection p = (None, p)).
Proof.
  intros Hnd.
  assert (forall es s, (exists r, s.1.(cp_free) ++ s.2 ++ r ≡ₚ cs /\ (cp_stop s.1 = false -> r = [])) ->
    exists r, (conn_run es s).1.(cp_free) ++ (conn_run es s).2 ++ r ≡ₚ cs /\
      (cp_stop (conn_run es s).1 = false -> r = [])) as Hrun.
  { clear es. intros es. induction es as [|e es IH]; intros [p lent] (r & Hp & Hr); [by exists r|].
    apply IH. simpl in Hp, Hr. destruct e as [|i|]; simpl.
    - unfold GetConnection. destruct (cp_stop p) eqn:Es; [exists r; simpl; rewrite Es; by split|].
      destruct (cp_free p) as [|c l] eqn:El; simpl; [exists r; simpl in *; rewrite El, Es; simpl; split; [exact Hp|by auto]|].
      exists r. split; [|by auto]. rewrite <- Hp. rewrite <- (app_assoc lent). simpl.
      rewrite !(app_assoc l). symmetry. apply Permutation_middle.
    - destruct (lent !! i) as [c|] eqn:Ei; [|by exists r]. simpl.
      assert (lent ≡ₚ c :: take i lent ++ drop (S i) lent) as Hl.
      { rewrite <- (take_drop_middle _ _ _ Ei) at 1. by rewrite Permutation_middle. }
      generalize dependent (take i lent ++ drop (S i) lent). intros rest Hl.
      unfold ReturnConnection. destruct (cp_stop p) eqn:Es; simpl.
      + exists (c :: r). rewrite Es. split; [|done]. rewrite <- Hp. apply Permutation_app_head.
        rewrite Hl. simpl. symmetry. apply Permutation_middle.
      + exists r. split; [|by auto]. rewrite <- Hp, <- app_assoc. apply Permutation_app_head.
        by rewrite Hl.
    - exists r. split; [done|]. done. }
  destruct (Hrun es (mkConnPool cs false, [])) as (r & Hp & Hr).
  { exists []. simpl. by rewrite app_nil_r. }
  destruct (conn_run es _) as [p lent]. simpl in *. rewrite app_assoc in Hp.
  assert (NoDup ((cp_free p ++ lent) ++ r)) as Hn by by rewrite Hp.
  split; [by apply NoDup_app in Hn as [? _]|]. split; [|split].
  - intros x Hx. rewrite <- Hp. apply elem_of_app. by left.
  - intros Hs. rewrite Hr in Hp by done. by rewrite app_nil_r in Hp.
  - intros Hs. unfold GetConnection. by rewrite Hs.
Qed.

End ConnectionPool.

Lemma connection_pool_exclusive_witness :
  let '(p, lent) := conn_run [CGet; CGet; CReturn 0] (mkConnPool [1; 2] false, []) in
  NoDup (cp_free p ++ lent) /\ (cp_free p ++ lent) ⊆ [1; 2] /\
  (cp_stop p = false -> cp_free p ++ lent ≡ₚ [1; 2]) /\
  (cp_stop p = true -> GetConnection p = (None, p)).
Proof.
  apply (connection_pool_exclusive [CGet; CGet; CReturn 0] [1; 2]).
  repeat constructor; set_solver.
Defined.
