(* ===== verification/Connections.v ===== *)
(** * Connection pools and their maintenance

    [MysqlPool] ([src/server/public/include/Mysql.h]), [RedisPool] ([Redis.h])
    and [RpcPool] ([RpcPool.h]): how a pool is filled, lent from, kept alive and
    closed.  Lending is that of [Pools]; the thread that keeps connections alive
    takes the mutex for a whole round, in which only [stopEnable] can change.
    Sessions are numbered in the order in which they are opened. *)

From S2P Require Import Prelude Pools.

(** ** What a pool does with its connections *)

(** The answer of a session in a round: it answers; it fails and a new one is
    opened in its place; it fails and none can be opened. *)
Inductive probe := Answers | Reopened | Gone.

Class Kept (C : Type) := {
  session_of : C -> nat;
  young : Z -> C -> bool;
  touch : Z -> C -> C;
  opened : Z -> nat -> C;
  ends_round : bool;
  session_touch : forall now c, session_of (touch now c) = session_of c;
  session_opened : forall now n, session_of (opened now n) = n }.

(** [SqlConnection]; it is left alone for five seconds after its last use in a
    round, and one that cannot be replaced ends the round. *)
Record SqlConnection := mkSqlConnection { sc_session : nat; leaseTime : Z }.

Definition mysql_kept : Kept SqlConnection := {|
  session_of := sc_session;
  young now con := now - leaseTime con <? 5;
  touch now con := mkSqlConnection (sc_session con) now;
  opened now n := mkSqlConnection n now;
  ends_round := true;
  session_touch _ _ := eq_refl;
  session_opened _ _ := eq_refl |}.
#[export] Existing Instance mysql_kept.

(** A Redis connection has no time, and a round goes on without one that cannot
    be replaced. *)
Record RedisConnection := mkRedisConnection { rd_session : nat }.

Definition redis_kept : Kept RedisConnection := {|
  session_of := rd_session;
  young _ _ := false;
  touch _ con := con;
  opened _ n := mkRedisConnection n;
  ends_round := false;
  session_touch _ _ := eq_refl;
  session_opened _ _ := eq_refl |}.
#[export] Existing Instance redis_kept.

Section Pool.
Context {C : Type} `{Kept C}.

(** The pool; [po_opened]: sessions opened so far, [po_keeper]: the thread
    that keeps connections alive runs, with its [count]; [po_lent] and [po_lost]
    are only recorded. *)
Record pool := mkThePool {
  po_conns : ConnPool (C := C); po_opened : nat; po_keeper : bool; po_count : Z;
  po_lent : list C; po_lost : nat }.

Definition with_conns (l : list C) (p : pool) : pool :=
  mkThePool (mkConnPool l (cp_stop (po_conns p))) (po_opened p) (po_keeper p) (po_count p) (po_lent p) (po_lost p).
Definition free (p : pool) : list C := cp_free (po_conns p).
Definition stopEnable (p : pool) : bool := cp_stop (po_conns p).

(** The constructor: one attempt per place, at a time; the thread only starts
    when there is a connection. *)
Definition NewPool (attempts : list (Z * bool)) : pool :=
  let '(l, n) := foldl (fun (s : list C * nat) (a : Z * bool) =>
    if a.2 then (s.1 ++ [opened a.1 s.2], S s.2) else s) ([], O) attempts in
  mkThePool (mkConnPool l false) n (match l with [] => false | _ => true end) 0 [] 0.

Definition Close (p : pool) : pool :=
  mkThePool (ClosePool (po_conns p)) (po_opened p) (po_keeper p) (po_count p) (po_lent p) (po_lost p).

Definition Empty (p : pool) : bool := match free p with [] => true | _ => false end.
Definition Size (p : pool) : nat := length (free p).

(** Destroys what waits in the queue; a lent connection still comes back. *)
Definition ClearConnections (p : pool) : pool := with_conns [] p.

(** The loop of [keepConnectionHandle]; with each round of it comes whether
    [Close] was called before it and how the session fares. *)
Fixpoint keep (now : Z) (rounds : list (bool * probe)) (p : pool) : pool :=
  match rounds with
  | [] => p
  | (closed, outcome) :: rounds =>
      let p := if closed then Close p else p in
      if stopEnable p then p
      else match free p with
           | [] => p
           | con :: rest =>
               if young now con then keep now rounds (with_conns (rest ++ [con]) p)
               else match outcome with
                    | Answers => keep now rounds (with_conns (rest ++ [touch now con]) p)
                    | Reopened =>
                        let fresh := opened now (po_opened p) in
                        keep now rounds (mkThePool (mkConnPool (rest ++ [fresh]) false) (S (po_opened p))
                          (po_keeper p) (po_count p) (po_lent p) (po_lost p))
                    | Gone =>
                        let p := mkThePool (mkConnPool rest false) (po_opened p) (po_keeper p) (po_count p)
                                   (po_lent p) (S (po_lost p)) in
                        if ends_round then p else keep now rounds p
                    end
           end
  end.

Definition keepConnectionHandle (now : Z) (outcome : nat -> bool * probe) (p : pool) : pool :=
  keep now (outcome <$> seq 0 (length (free p))) p.

(** One second of the thread. *)
Definition keep_tick (now : Z) (outcome : nat -> bool * probe) (p : pool) : pool :=
  if negb (po_keeper p) || stopEnable p then p
  else
    let due := po_count p =? 60 in
    let p := if due then keepConnectionHandle now outcome p else p in
    mkThePool (po_conns p) (po_opened p) (po_keeper p) ((if due then 0 else po_count p) + 1) (po_lent p) (po_lost p).

(** ** Runs *)

Inductive pool_event :=
  | PGet
  | PReturn (i : nat)
  | PClose
  | PTick (now : Z) (outcome : nat -> bool * probe).

Definition pool_step (e : pool_event) (p : pool) : pool :=
  match e with
  | PGet => let '(conns, lent) := conn_step CGet (po_conns p, po_lent p) in
            mkThePool conns (po_opened p) (po_keeper p) (po_count p) lent (po_lost p)
  | PReturn i => let '(conns, lent) := conn_step (CReturn i) (po_conns p, po_lent p) in
                 mkThePool conns (po_opened p) (po_keeper p) (po_count p) lent (po_lost p)
  | PClose => Close p
  | PTick now outcome => keep_tick now outcome p
  end.

Definition pool_run (es : list pool_event) (p : pool) : pool := foldl (fun p e => pool_step e p) p es.

(** ** A round against its reference

    What a round makes of a list of connections, without the queue: the
    connections it has been through, then those it has not. *)
Fixpoint round (now : Z) (n : nat) (cs : list (C * probe)) : list C * list C :=
  match cs with
  | [] => ([], [])
  | (c, outcome) :: cs =>
      if young now c then let '(seen, rest') := round now n cs in (c :: seen, rest')
      else match outcome with
           | Answers => let '(seen, rest') := round now n cs in (touch now c :: seen, rest')
           | Reopened => let '(seen, rest') := round now (S n) cs in (opened now n :: seen, rest')
           | Gone => if ends_round then ([], fst <$> cs) else round now n cs
           end
  end.

(** The queue in the middle of a round is what is left and what was seen. *)
Lemma keep_round now outcomes seen p :
  stopEnable p = false -> Forall (fun o => o.1 = false) outcomes ->
  forall cs, free p = cs ++ seen -> length cs = length outcomes ->
  let '(seen', rest') := round now (po_opened p) (zip cs (snd <$> outcomes)) in
  free (keep now outcomes p) = rest' ++ seen ++ seen'.
Proof.
  revert seen p. induction outcomes as [|[closed o] outcomes IH]; intros seen p Hs Hf cs Ep Hl.
  { destruct cs; [|done]. simpl. by rewrite Ep, app_nil_r. }
  apply Forall_cons in Hf as [Hc Hf]. simpl in Hc. subst closed. destruct cs as [|c cs]; [done|]. simpl in Hl.
  injection Hl as Hl. cbn [keep zip zip_with fmap list_fmap snd]. cbv zeta iota. rewrite Hs, Ep. cbn [Datatypes.app round].
  assert (forall p' c', stopEnable p' = false -> free p' = cs ++ seen ++ [c'] ->
    let '(seen', rest') := round now (po_opened p') (zip cs (snd <$> outcomes)) in
    free (keep now outcomes p') = rest' ++ seen ++ c' :: seen') as Hgo.
  { intros p' c' Hs' Ep'. specialize (IH (seen ++ [c']) p' Hs' Hf cs Ep' Hl).
    destruct (round _ _ _) as [seen' rest']. by rewrite IH, <-app_assoc. }
  destruct (young now c).
  { specialize (Hgo (with_conns ((cs ++ seen) ++ [c]) p) c Hs). cbn [po_opened with_conns] in Hgo.
    destruct (round _ _ _) as [seen' rest']. apply Hgo. unfold free. simpl. by rewrite app_assoc. }
  destruct o.
  - specialize (Hgo (with_conns ((cs ++ seen) ++ [touch now c]) p) (touch now c) Hs). cbn [po_opened with_conns] in Hgo.
    destruct (round _ _ _) as [seen' rest']. apply Hgo. unfold free. simpl. by rewrite app_assoc.
  - match goal with |- context [keep now outcomes ?x] => specialize (Hgo x (opened now (po_opened p)) eq_refl) end.
    cbn [po_opened] in Hgo. destruct (round _ _ _) as [seen' rest']. apply Hgo. unfold free. simpl. by rewrite app_assoc.
  - destruct ends_round.
    + rewrite fst_zip by (rewrite length_fmap; lia). by rewrite app_nil_r.
    + match goal with |- context [keep now outcomes ?x] => specialize (IH seen x eq_refl Hf cs eq_refl Hl) end. exact IH.
Qed.

Lemma keep_alive_round now outcome p :
  stopEnable p = false -> (forall i, (outcome i).1 = false) ->
  let '(seen, rest') := round now (po_opened p) (zip (free p) (snd ∘ outcome <$> seq 0 (length (free p)))) in
  free (keepConnectionHandle now outcome p) = rest' ++ seen.
Proof.
  intros Hs Ho. pose proof (keep_round now (outcome <$> seq 0 (length (free p))) [] p Hs) as Hk.
  unfold keepConnectionHandle. rewrite list_fmap_compose.
  specialize (Hk ltac:(apply Forall_fmap, Forall_true; intros; apply Ho) (free p)).
  rewrite app_nil_r, length_fmap, length_seq in Hk. specialize (Hk eq_refl eq_refl). by destruct (round _ _ _).
Qed.

(** ** The sessions of a pool *)

Definition sessions (p : pool) : list nat := session_of <$> free p ++ po_lent p.

(** Distinct sessions, all opened by the pool; with those lost in a round they
    are [n], the number the pool started with, until it is closed. *)
Record pool_ok (n : nat) (p : pool) : Prop := mk_pool_ok {
  ok_nodup : NoDup (sessions p);
  ok_opened : Forall (fun s => s < po_opened p)%nat (sessions p);
  ok_bound : (length (sessions p) + po_lost p <= n)%nat;
  ok_total : stopEnable p = false -> (length (sessions p) + po_lost p)%nat = n }.

Lemma pool_ok_perm n p p' :
  pool_ok n p -> sessions p' ≡ₚ sessions p -> (po_opened p <= po_opened p')%nat -> po_lost p' = po_lost p ->
  (stopEnable p' = false -> stopEnable p = false) -> pool_ok n p'.
Proof.
  intros [H1 H2 H3 H4] Hp Ho Hl Hs. assert (length (sessions p') = length (sessions p)) as E by (by rewrite Hp).
  split; rewrite ?E, ?Hl; [by rewrite Hp| |done|auto].
  rewrite Hp. eapply Forall_impl; [exact H2|]. simpl. lia.
Qed.

(** A session dropped while the pool stays open is counted as lost. *)
Lemma pool_ok_drop n p p' s :
  pool_ok n p -> sessions p ≡ₚ s :: sessions p' -> po_opened p' = po_opened p -> po_lost p' = S (po_lost p) ->
  stopEnable p = false -> pool_ok n p'.
Proof.
  intros [H1 H2 H3 H4] Hp Ho Hl Hs. rewrite Hp in H1, H2. apply NoDup_cons in H1 as [_ H1].
  apply Forall_cons in H2 as [_ H2]. specialize (H4 Hs). rewrite Hp in H3, H4. simpl in H3, H4.
  split; [done|by rewrite Ho|lia|lia].
Qed.

(** What is given back to a closed pool is destroyed. *)
Lemma pool_ok_destroy n p p' s :
  pool_ok n p -> sessions p ≡ₚ s :: sessions p' -> po_opened p' = po_opened p -> po_lost p' = po_lost p ->
  stopEnable p' = true -> pool_ok n p'.
Proof.
  intros [H1 H2 H3 H4] Hp Ho Hl Hs. rewrite Hp in H1, H2, H3. apply NoDup_cons in H1 as [_ H1].
  apply Forall_cons in H2 as [_ H2]. simpl in H3. split; [done|by rewrite Ho|lia|congruence].
Qed.

(** A session replaced by one just opened. *)
Lemma pool_ok_reopen n p p' s rest :
  pool_ok n p -> sessions p ≡ₚ s :: rest -> sessions p' ≡ₚ po_opened p :: rest ->
  po_opened p' = S (po_opened p) -> po_lost p' = po_lost p -> (stopEnable p' = false -> stopEnable p = false) ->
  pool_ok n p'.
Proof.
  intros [H1 H2 H3 H4] Hp Hp' Ho Hl Hs. rewrite Hp in H1, H2, H3, H4. simpl in H3, H4.
  apply NoDup_cons in H1 as [_ H1]. apply Forall_cons in H2 as [_ H2].
  assert (length (sessions p') = S (length rest)) as E by (by rewrite Hp').
  split; rewrite ?E, ?Hl; [| |lia|auto].
  - rewrite Hp'. apply NoDup_cons. split; [|done]. intros Hin. rewrite Forall_forall in H2. specialize (H2 _ Hin).
    simpl in H2. lia.
  - rewrite Hp', Ho. apply Forall_cons. split; [lia|]. eapply Forall_impl; [exact H2|]. simpl. lia.
Qed.

Lemma keep_ok n now rounds p : pool_ok n p -> pool_ok n (keep now rounds p).
Proof.
  revert p. induction rounds as [|[closed o] rounds IH]; intros p Hp; [done|]. cbn [keep]. cbv zeta.
  assert (pool_ok n (if closed then Close p else p)) as Hc by
    (destruct closed; [|done]; by apply (pool_ok_perm n p)).
  revert Hc. generalize (if closed then Close p else p). clear Hp. intros q Hq.
  destruct (stopEnable q) eqn:Es; [done|]. destruct (free q) as [|con rest] eqn:Ef; [done|].
  assert (sessions q = session_of con :: (session_of <$> rest ++ po_lent q)) as Eq by (unfold sessions; by rewrite Ef).
  assert (forall c', session_of c' = session_of con -> pool_ok n (with_conns (rest ++ [c']) q)) as Hback.
  { intros c' Ec. apply (pool_ok_perm n q); [done| |done|done|done].
    rewrite Eq. unfold sessions, free. simpl. rewrite !fmap_app, <-app_assoc. simpl. rewrite Ec.
    symmetry. apply Permutation_middle. }
  destruct (young now con); [apply IH, Hback, eq_refl|]. destruct o.
  - apply IH, Hback, session_touch.
  - apply IH. apply (pool_ok_reopen n q _ (session_of con) (session_of <$> rest ++ po_lent q)); try done.
    + by rewrite Eq.
    + unfold sessions, free. simpl. rewrite !fmap_app, <-app_assoc. simpl. rewrite session_opened.
      symmetry. apply Permutation_middle.
  - assert (pool_ok n (mkThePool (mkConnPool rest false) (po_opened q) (po_keeper q) (po_count q) (po_lent q)
      (S (po_lost q)))) as Hd by (apply (pool_ok_drop n q _ (session_of con)); [done|by rewrite Eq|done..]).
    destruct ends_round; [exact Hd|by apply IH].
Qed.

Lemma pool_step_ok n e p : pool_ok n p -> pool_ok n (pool_step e p).
Proof.
  intros Hp. destruct e as [|i| |now outcome]; simpl.
  - unfold GetConnection. destruct (cp_stop (po_conns p)) eqn:Es; [by destruct p|].
    destruct (cp_free (po_conns p)) as [|c l] eqn:El; [by destruct p|].
    apply (pool_ok_perm n p); [done| |done|done|done].
    unfold sessions, free. rewrite El. simpl. rewrite !fmap_app. simpl. rewrite app_assoc, (Permutation_app_comm _ [_]). done.
  - destruct (po_lent p !! i) as [c|] eqn:Ei; [|by destruct p].
    assert (po_lent p ≡ₚ c :: (take i (po_lent p) ++ drop (S i) (po_lent p))) as Hl.
    { rewrite <-(take_drop_middle _ _ _ Ei) at 1. symmetry. apply Permutation_middle. }
    revert Hl. generalize (take i (po_lent p) ++ drop (S i) (po_lent p)). intros others Hl.
    unfold ReturnConnection. destruct (cp_stop (po_conns p)) eqn:Es.
    + apply (pool_ok_destroy n p _ (session_of c)); [done| |done..].
      unfold sessions, free. simpl. rewrite Hl, !fmap_app. symmetry. apply Permutation_middle.
    + apply (pool_ok_perm n p); [done| |done..].
      unfold sessions, free. simpl. rewrite Hl. by rewrite <-app_assoc.
  - by apply (pool_ok_perm n p).
  - unfold keep_tick. destruct (_ || _); [done|].
    destruct (_ =? 60); [|by apply (pool_ok_perm n p)].
    apply (pool_ok_perm n (keepConnectionHandle now outcome p)); [by apply keep_ok|done..].
Qed.

Lemma pool_run_ok n es p : pool_ok n p -> pool_ok n (pool_run es p).
Proof. revert p. induction es as [|e es IH]; intros p Hp; [done|]. by apply IH, pool_step_ok. Qed.

Lemma NewPool_ok attempts : pool_ok (length (filter (fun a => a.2 = true) attempts)) (NewPool attempts).
Proof.
  unfold NewPool.
  assert (forall attempts l n, session_of <$> l = seq 0 n ->
    let s := foldl (fun (s : list C * nat) (a : Z * bool) =>
      if a.2 then (s.1 ++ [opened a.1 s.2], S s.2) else s) (l, n) attempts in
    session_of <$> s.1 = seq 0 s.2 /\ s.2 = (n + length (filter (fun a => a.2 = true) attempts))%nat) as Hf.
  { clear attempts. induction attempts as [|[t b] attempts IH]; intros l n El; [simpl; split; [done|lia]|].
    cbn [foldl]. rewrite filter_cons. destruct b; cbn [snd fst].
    - destruct (IH (l ++ [opened t n]) (S n)) as [E1 E2].
      { rewrite fmap_app, El, seq_S. simpl. by rewrite session_opened. }
      split; [exact E1|]. rewrite E2, decide_True by done. simpl. lia.
    - rewrite decide_False by done. by apply IH. }
  destruct (Hf attempts [] 0%nat eq_refl) as [E1 E2]. destruct (foldl _ _ _) as [l n]. simpl in E1, E2.
  assert (length l = n) as En by (by rewrite <-(length_fmap session_of l), E1, length_seq).
  split; unfold sessions, free; simpl; rewrite app_nil_r.
  - rewrite E1. apply NoDup_seq.
  - rewrite E1. apply Forall_forall. intros x Hx%elem_of_seq. lia.
  - rewrite length_fmap. lia.
  - rewrite length_fmap. lia.
Qed.

(** The sessions of a pool.  In any run they are distinct, at most as many as
    were configured, and while the pool is open they are those opened at the
    start less those lost in rounds. *)
Theorem pool_within_bounds attempts es :
  let p := pool_run es (NewPool attempts) in
  NoDup (sessions p) /\ (length (sessions p) <= length attempts)%nat /\
  (stopEnable p = false ->
   (length (sessions p) + po_lost p)%nat = length (filter (fun a => a.2 = true) attempts)).
Proof.
  cbv zeta. destruct (pool_run_ok _ es _ (NewPool_ok attempts)) as [H1 _ H3 H4].
  split; [done|]. split; [|done].
  etrans; [|apply (length_filter (fun a => a.2 = true))]. lia.
Qed.

(** ** Outages *)

(** Nothing opens a connection when none is left. *)
Lemma empty_stays_empty es p : sessions p = [] -> sessions (pool_run es p) = [].
Proof.
  revert p. induction es as [|e es IH]; intros p Hp; [done|]. apply IH.
  assert (free p = [] /\ po_lent p = []) as [Ef El] by
    (unfold sessions in Hp; apply fmap_nil_inv in Hp; by apply app_eq_nil in Hp).
  unfold free in Ef. destruct e as [|i| |now outcome]; simpl.
  - unfold GetConnection. rewrite Ef. destruct (cp_stop _); exact Hp.
  - rewrite El, lookup_nil. rewrite <-El. exact Hp.
  - exact Hp.
  - unfold keep_tick. destruct (_ || _); [exact Hp|]. unfold keepConnectionHandle, free. rewrite Ef.
    destruct (_ =? 60); exact Hp.
Qed.

(** Where a round goes on, it gives up every connection that is not replaced. *)
Lemma keep_all_gone now rounds p :
  ends_round = false -> (forall c, young now c = false) -> Forall (fun o => o = (false, Gone)) rounds ->
  stopEnable p = false -> length (free p) = length rounds ->
  free (keep now rounds p) = [] /\ po_lent (keep now rounds p) = po_lent p.
Proof.
  intros He Hy. revert p. induction rounds as [|o rounds IH]; intros p Hr Hs Hl.
  { apply nil_length_inv in Hl. by split. }
  apply Forall_cons in Hr as [-> Hr]. cbn [keep]. cbv zeta iota. rewrite Hs.
  destruct (free p) as [|con rest]; [done|]. simpl in Hl. rewrite Hy, He. apply (IH (mkThePool _ _ _ _ _ _)); [done..|].
  unfold free. simpl. lia.
Qed.

(** Where a round ends there, it gives up at most one. *)
Lemma keep_loses_one now rounds p :
  ends_round = true -> (po_lost p <= po_lost (keep now rounds p) <= S (po_lost p))%nat.
Proof.
  intros He. revert p. induction rounds as [|[closed o] rounds IH]; intros p; [simpl; lia|]. cbn [keep]. cbv zeta.
  assert (po_lost (if closed then Close p else p) = po_lost p) as <- by (by destruct closed).
  generalize (if closed then Close p else p). intros q. destruct (stopEnable q); [lia|].
  destruct (free q) as [|con rest]; [lia|]. destruct (young now con); [apply (IH (with_conns _ _))|].
  destruct o; [apply (IH (with_conns _ _))|apply (IH (mkThePool _ _ _ _ _ _))|]. rewrite He. simpl. lia.
Qed.

End Pool.
Arguments pool : clear implicits.

(** *** A round of each pool, outright

    Sessions that are opened get the next numbers. *)

(** Redis: every connection is asked; one that fails is replaced, or dropped. *)
Fixpoint redis_renewed (n : nat) (cs : list (RedisConnection * probe)) : list RedisConnection :=
  match cs with
  | [] => []
  | (c, Answers) :: cs => c :: redis_renewed n cs
  | (_, Reopened) :: cs => mkRedisConnection n :: redis_renewed (S n) cs
  | (_, Gone) :: cs => redis_renewed n cs
  end.

(** MySQL: one used less than five seconds ago is not asked. *)
Definition recent (now : Z) (c : SqlConnection) : bool := now <? leaseTime c + 5.
Fixpoint mysql_renewed (now : Z) (n : nat) (cs : list (SqlConnection * probe)) : list SqlConnection :=
  match cs with
  | [] => []
  | (c, o) :: cs =>
      if recent now c then c :: mysql_renewed now n cs
      else match o with
           | Answers => mkSqlConnection (sc_session c) now :: mysql_renewed now n cs
           | _ => mkSqlConnection n now :: mysql_renewed now (S n) cs
           end
  end.
(** It was asked, failed and could not be replaced. *)
Definition dead (now : Z) (x : SqlConnection * probe) : Prop := leaseTime x.1 + 5 <= now /\ x.2 = Gone.

Lemma redis_round now n cs : round now n cs = (redis_renewed n cs, []).
Proof. revert n. induction cs as [|[c o] cs IH]; intros n; [done|]. destruct o; simpl; rewrite IH; done. Qed.

Lemma mysql_round now n cs : exists seen rest, cs = seen ++ rest /\ Forall (fun x => ~ dead now x) seen /\
  (rest = [] \/ exists x rest', rest = x :: rest' /\ dead now x) /\
  round now n cs = (mysql_renewed now n seen, fst <$> tail rest).
Proof.
  revert n. induction cs as [|[c o] cs IH]; intros n; [by exists [], []; split_and!; auto|]. simpl.
  replace (now - leaseTime c <? 5) with (recent now c) by (unfold recent; lia).
  destruct (recent now c) eqn:Er; unfold recent in Er.
  - destruct (IH n) as (seen & rest & -> & Hs & Hr & E). exists ((c, o) :: seen), rest. simpl. unfold recent. rewrite Er, E.
    split; [done|]. split; [|done]. constructor; [|done]. intros [Hd _]. simpl in Hd. lia.
  - assert (forall n', o <> Gone -> let '(seen', rest') := round now n' cs in exists seen rest, (c, o) :: cs = ((c, o) :: seen) ++ rest /\
      Forall (fun x => ~ dead now x) ((c, o) :: seen) /\ (rest = [] \/ exists x rest', rest = x :: rest' /\ dead now x) /\
      (seen', rest') = (mysql_renewed now n' seen, fst <$> tail rest)) as Hgo.
    { intros n' Ho. destruct (IH n') as (seen & rest & -> & Hs & Hr & E). rewrite E. exists seen, rest.
      split; [done|]. split; [|done]. constructor; [|done]. by intros [_ Hd]. }
    destruct o.
    + specialize (Hgo n ltac:(done)). destruct (round now n cs) as [seen' rest']. destruct Hgo as (seen & rest & E1 & E2 & E3 & [= -> ->]).
      exists ((c, Answers) :: seen), rest. split; [done|]. split; [done|]. split; [done|]. simpl. unfold recent. by rewrite Er.
    + specialize (Hgo (S n) ltac:(done)). destruct (round now (S n) cs) as [seen' rest']. destruct Hgo as (seen & rest & E1 & E2 & E3 & [= -> ->]).
      exists ((c, Reopened) :: seen), rest. split; [done|]. split; [done|]. split; [done|]. simpl. unfold recent. by rewrite Er.
    + exists [], ((c, Gone) :: cs). split; [done|]. split; [done|]. split; [|done]. right. do 2 eexists. split; [done|].
      split; [simpl; lia|done].
Qed.

(** C34: a keep-alive round, when no call of it throws.  Redis: every connection
    is asked; one that answers is kept, one that was replaced comes back as a
    new session, one that is gone is dropped, the order stays.  MySQL: one that
    was used within the last five seconds is kept without being asked, one that
    answers is kept with the time of the round, one that was replaced comes back
    new with that time, and at the first that is gone the round ends: in front
    are those it has not been through, then, in their order, those it has. *)
Theorem keep_alive_reference now outcome : (forall i, (outcome i).1 = false) ->
  (forall p : pool RedisConnection, stopEnable p = false ->
     free (keepConnectionHandle now outcome p) =
       redis_renewed (po_opened p) (zip (free p) (snd ∘ outcome <$> seq 0 (length (free p))))) /\
  (forall p : pool SqlConnection, stopEnable p = false ->
     exists seen rest, zip (free p) (snd ∘ outcome <$> seq 0 (length (free p))) = seen ++ rest /\
       Forall (fun x => ~ dead now x) seen /\ (rest = [] \/ exists x rest', rest = x :: rest' /\ dead now x) /\
       free (keepConnectionHandle now outcome p) = (fst <$> tail rest) ++ mysql_renewed now (po_opened p) seen).
Proof.
  intros Ho. split; intros p Hs; pose proof (keep_alive_round now outcome p Hs Ho) as Hk.
  - rewrite redis_round in Hk. exact Hk.
  - destruct (mysql_round now (po_opened p) (zip (free p) (snd ∘ outcome <$> seq 0 (length (free p))))) as (seen & rest & E1 & E2 & E3 & E4).
    rewrite E4 in Hk. by exists seen, rest.
Qed.

(** When the server is away for one round and no connection is lent out, the
    Redis pool loses them all, and never has one again. *)
Theorem redis_outage_is_permanent (p : pool RedisConnection) now es :
  stopEnable p = false -> po_keeper p = true -> po_count p = 60 -> po_lent p = [] ->
  let p' := pool_run (PTick now (fun _ => (false, Gone)) :: es) p in
  sessions p' = [] /\ (GetConnection (po_conns p')).1 = None.
Proof.
  intros Hs Hk Hc Hl. cbv zeta.
  assert (sessions (pool_run (PTick now (fun _ => (false, Gone)) :: es) p) = []) as E.
  { apply (empty_stays_empty es). simpl. unfold keep_tick. rewrite Hk, Hs, Hc. cbn [negb orb]. cbv zeta.
    destruct (keep_all_gone now ((fun _ => (false, Gone)) <$> seq 0 (length (free p))) p) as [E1 E2]; [done|done| |done| |].
    - by apply Forall_fmap, Forall_true.
    - by rewrite length_fmap, length_seq.
    - rewrite Hl in E2. change (session_of <$> free (keepConnectionHandle now (fun _ => (false, Gone)) p) ++
        po_lent (keepConnectionHandle now (fun _ => (false, Gone)) p) = []).
      unfold keepConnectionHandle. by rewrite E1, E2. }
  split; [done|]. unfold sessions, free in E. apply fmap_nil_inv, app_eq_nil in E as [E _].
  unfold GetConnection. rewrite E. by destruct (cp_stop _).
Qed.

(** A MySQL round gives up at most one connection, the first one that cannot be
    replaced, and ends there. *)
Theorem mysql_round_loses_one (p : pool SqlConnection) now outcome :
  (po_lost (keepConnectionHandle now outcome p) <= S (po_lost p))%nat /\
  (forall con rest, free p = con :: rest -> stopEnable p = false -> now - leaseTime con >= 5 -> outcome 0%nat = (false, Gone) ->
   free (keepConnectionHandle now outcome p) = rest).
Proof.
  split; [apply keep_loses_one; reflexivity|]. intros con rest Ef Hs Hy Ho. unfold keepConnectionHandle. rewrite Ef.
  simpl. rewrite Ho. cbv zeta iota. rewrite Hs, Ef. replace (now - leaseTime con <? 5) with false by lia. done.
Qed.

(** ** The pool of RPC stubs *)

(** A stub per channel that connects within two seconds; nothing keeps them
    alive.  Lending is that of [Pools], as for the others. *)
Record RpcPool := mkRpcPool { channelQueue : ConnPool (C := nat); poolSize : nat }.

Definition NewRpcPool (connected : list bool) : RpcPool :=
  foldl (fun p (ic : nat * bool) =>
    if ic.2 then mkRpcPool (mkConnPool (cp_free (channelQueue p) ++ [ic.1]) false) (poolSize p)
    else mkRpcPool (channelQueue p) (poolSize p - 1))
    (mkRpcPool (mkConnPool [] false) (length connected)) (imap pair connected).

Definition getPoolSize (p : RpcPool) : nat := poolSize p.

(** The size of the pool is the number of channels that connected. *)
Theorem rpc_pool_size connected :
  getPoolSize (NewRpcPool connected) = length (cp_free (channelQueue (NewRpcPool connected))) /\
  getPoolSize (NewRpcPool connected) = length (filter (fun b => b = true) connected).
Proof.
  unfold NewRpcPool, getPoolSize.
  assert (forall cs k q size, (length cs <= size)%nat -> (size = length cs + length (cp_free q))%nat ->
    let p := foldl (fun p (ic : nat * bool) =>
      if ic.2 then mkRpcPool (mkConnPool (cp_free (channelQueue p) ++ [ic.1]) false) (poolSize p)
      else mkRpcPool (channelQueue p) (poolSize p - 1)) (mkRpcPool q size) (imap (fun i c => (k + i, c)%nat) cs) in
    poolSize p = length (cp_free (channelQueue p)) /\
    poolSize p = (length (cp_free q) + length (filter (fun b => b = true) cs))%nat) as Hf.
  { clear. induction cs as [|c cs IH]; intros k q size Hl Es; [simpl in *; lia|].
    simpl in Hl, Es. rewrite filter_cons.
    assert (imap (fun i c => (k + i, c)%nat) (c :: cs) = ((k + 0)%nat, c) :: imap (fun i c => (S k + i, c)%nat) cs) as ->.
    { simpl. f_equal. apply imap_ext. intros i x _. simpl. f_equal. lia. }
    cbn [foldl]. destruct c; cbn [snd fst channelQueue poolSize].
    - destruct (IH (S k) (mkConnPool (cp_free q ++ [(k + 0)%nat]) false) size) as [E1 E2];
        [lia|simpl; rewrite length_app; simpl; lia|].
      rewrite decide_True by done. split; [exact E1|]. rewrite E2. simpl. rewrite length_app. simpl. lia.
    - destruct (IH (S k) q (size - 1)%nat) as [E1 E2]; [lia|lia|].
      rewrite decide_False by done. split; [exact E1|exact E2]. }
  specialize (Hf connected 0%nat (mkConnPool [] false) (length connected)).
  apply Hf; [done|simpl; lia].
Qed.

Lemma new_rpc_stubs connected :
  cp_free (channelQueue (NewRpcPool connected)) = fst <$> filter (fun ic : nat * bool => ic.2 = true) (imap pair connected) /\
  cp_stop (channelQueue (NewRpcPool connected)) = false.
Proof.
  unfold NewRpcPool. set (p := mkRpcPool (mkConnPool [] false) (length connected)). generalize (imap pair connected). intros l.
  match goal with |- context [foldl ?f _ _] => assert (forall p, cp_stop (channelQueue p) = false ->
    cp_free (channelQueue (foldl f p l)) = cp_free (channelQueue p) ++ (fst <$> filter (fun ic : nat * bool => ic.2 = true) l) /\
    cp_stop (channelQueue (foldl f p l)) = false) as Hf; [|by apply (Hf p)] end.
  clear p. induction l as [|[i []] l IH]; intros p Hs; cbn [foldl fst snd]; [by rewrite app_nil_r|..]; rewrite filter_cons.
  - rewrite decide_True by done. destruct (IH (mkRpcPool (mkConnPool (cp_free (channelQueue p) ++ [i]) false) (poolSize p)))
      as [E1 E2]; [done|]. split; [|exact E2]. etransitivity; [exact E1|]. simpl. by rewrite <-app_assoc.
  - rewrite decide_False by done. by apply (IH (mkRpcPool (channelQueue p) (poolSize p - 1))).
Qed.

(** [getConnectionUntil] once the wait has ended, [returnConnection], [Close],
    [empty]. *)
Definition getConnection (p : RpcPool) : option nat * RpcPool :=
  let '(stub, q) := GetConnection (channelQueue p) in (stub, mkRpcPool q (poolSize p)).
Definition returnConnection (stub : nat) (p : RpcPool) : RpcPool :=
  mkRpcPool (ReturnConnection stub (channelQueue p)) (poolSize p).
Definition CloseRpc (p : RpcPool) : RpcPool := mkRpcPool (ClosePool (channelQueue p)) (poolSize p).
Definition empty (p : RpcPool) : bool := bool_decide (cp_free (channelQueue p) = []).
(** [~RpcPool] *)
Definition dropped (p : RpcPool) : RpcPool := mkRpcPool (mkConnPool [] true) (poolSize p).

(** The users of a pool: those who hold a stub give it back once. *)
Definition rpc_step (e : conn_event) (s : RpcPool * list nat) : RpcPool * list nat :=
  let '(p, lent) := s in
  match e with
  | CGet => match getConnection p with (Some c, p) => (p, lent ++ [c]) | (None, p) => (p, lent) end
  | CReturn i => match lent !! i with
                 | Some c => (returnConnection c p, take i lent ++ drop (S i) lent)
                 | None => s
                 end
  | CClose => (CloseRpc p, lent)
  end.
Definition rpc_run (es : list conn_event) (s : RpcPool * list nat) : RpcPool * list nat := foldl (fun s e => rpc_step e s) s es.

Lemma rpc_run_conn es p lent : conn_run es (channelQueue p, lent) =
  (channelQueue (rpc_run es (p, lent)).1, (rpc_run es (p, lent)).2) /\ poolSize (rpc_run es (p, lent)).1 = poolSize p.
Proof.
  revert p lent. induction es as [|e es IH]; intros p lent; [done|]. cbn [rpc_run conn_run foldl].
  assert (conn_step e (channelQueue p, lent) = (channelQueue (rpc_step e (p, lent)).1, (rpc_step e (p, lent)).2) /\
    poolSize (rpc_step e (p, lent)).1 = poolSize p) as [E1 E2].
  { destruct e; simpl; [|by destruct (lent !! i)|done]. unfold getConnection. by destruct (GetConnection (channelQueue p)) as [[] ?]. }
  rewrite E1. destruct (rpc_step e (p, lent)) as [p1 lent1]. simpl in *. destruct (IH p1 lent1) as [I1 I2]. split; [exact I1|exact (eq_trans I2 E2)].
Qed.

(** A stub is used by one thread at a time: those free and those lent are
    distinct channels that connected, and while the pool is open they are as many
    as it says. *)
Theorem rpc_stubs_lent_once connected es :
  let '(p, lent) := rpc_run es (NewRpcPool connected, []) in
  NoDup (cp_free (channelQueue p) ++ lent) /\ (forall i, i ∈ cp_free (channelQueue p) ++ lent -> connected !! i = Some true) /\
  (cp_stop (channelQueue p) = false -> length (cp_free (channelQueue p) ++ lent) = getPoolSize p) /\
  (cp_stop (channelQueue p) = true -> (getConnection p).1 = None).
Proof.
  destruct (new_rpc_stubs connected) as [Ef Es]. destruct (rpc_pool_size connected) as [Esize _].
  set (cs := cp_free (channelQueue (NewRpcPool connected))) in *.
  assert (NoDup cs) as Hn.
  { rewrite Ef. eapply sublist_NoDup; [|apply fmap_sublist, sublist_filter].
    rewrite fmap_imap. change (imap _ connected) with (imap (fun i (_ : bool) => id i) connected).
    rewrite imap_seq_0, list_fmap_id. apply NoDup_seq. }
  pose proof (connection_pool_exclusive es cs Hn) as Hc. destruct (rpc_run_conn es (NewRpcPool connected) []) as [E1 E2].
  assert (channelQueue (NewRpcPool connected) = mkConnPool cs false) as Eq.
  { subst cs. rewrite <-Es. by destruct (channelQueue (NewRpcPool connected)). }
  rewrite Eq in E1. rewrite E1 in Hc. destruct (rpc_run es _) as [p lent]. cbn [fst snd] in *.
  destruct Hc as (H1 & H2 & H3 & H4). split; [done|]. split; [|split].
  - intros i Hi%H2. rewrite Ef in Hi. apply list_elem_of_fmap in Hi as ([j b] & -> & [Hb Hin]%list_elem_of_filter).
    simpl in *. subst b. apply list_elem_of_lookup in Hin as [k Hk]. rewrite list_lookup_imap in Hk.
    destruct (connected !! k) as [b|] eqn:Ek; [|done]. simpl in Hk. by injection Hk as -> ->.
  - intros Hs. unfold getPoolSize in *. rewrite E2, Esize. by rewrite (H3 Hs).
  - intros Hs. unfold getConnection. by rewrite (H4 Hs).
Qed.

(** ** The end of a pool

    [~MysqlPool] and [~RedisPool] against the thread that keeps connections
    alive: the destructor closes the pool, takes the mutex, empties the queue
    and waits for the thread without letting the mutex go. *)
Module Teardown.

Inductive keeper := KTest | KWant | KRound | KSleep | KDone.
Inductive owner := OClose | OWant | OHold | OGone.
Inductive who := Keeper | Owner.

Record state := mkState { k_at : keeper; k_count : Z; o_at : owner; stopped : bool }.

Definition step (w : who) (s : state) : option state :=
  let '(mkState k c o stop) := s in
  match w with
  | Keeper =>
      match k with
      | KTest => Some (mkState (if stop then KDone else if c =? 60 then KWant else KSleep) c o stop)
      | KWant => match o with OHold => None | _ => Some (mkState KRound c o stop) end
      | KRound => Some (mkState KSleep 0 o stop)
      | KSleep => Some (mkState KTest (c + 1) o stop)
      | KDone => None
      end
  | Owner =>
      match o with
      | OClose => Some (mkState k c OWant true)
      | OWant => match k with KRound => None | _ => Some (mkState k c OHold stop) end
      | OHold => match k with KDone => Some (mkState k c OGone stop) | _ => None end
      | OGone => None
      end
  end.

Definition started : state := mkState KTest 0 OClose false.

Definition flagged (s : state) : Prop := stopped s = true <-> o_at s <> OClose.

Lemma flagged_step w s s' : flagged s -> step w s = Some s' -> flagged s'.
Proof.
  intros Hs E. destruct w, s as [k c o stop]; unfold flagged in *; destruct k, o; simpl in *; simplify_eq; simpl; intuition congruence.
Qed.

(** Sixty seconds, and the mutex is wanted by both. *)
Definition unlucky : list who :=
  mjoin (replicate 60 [Keeper; Keeper]) ++ [Keeper; Owner; Owner].

(** While both threads run they end, or they wait for each other for ever: the
    keeper for the mutex the destructor holds, the destructor for the keeper.
    The latter happens. *)
Theorem teardown_ends_or_deadlocks s :
  rtc (moves step) started s ->
  (stuck step s -> o_at s = OGone /\ k_at s = KDone \/ o_at s = OHold /\ k_at s = KWant) /\
  (exists s', rtc (moves step) started s' /\ o_at s' = OHold /\ k_at s' = KWant /\ stuck step s').
Proof.
  intros Hr. split.
  - intros Hstuck. assert (flagged s) as Hf by (revert Hr; apply (moves_invariant step flagged started s flagged_step); by split).
    pose proof (Hstuck Keeper) as HK. pose proof (Hstuck Owner) as HO. destruct s as [k c o stop].
    unfold flagged in Hf. destruct k, o; simpl in *; try done; naive_solver.
  - exists (mkState KWant 60 OHold true). split; [|split; [done|split; [done|by intros []]]].
    apply (schedule_moves step unlucky). by vm_compute.
Qed.

Lemma teardown_ends_or_deadlocks_witness :
  rtc (moves step) started (mkState KSleep 0 OWant true) /\
  exists s', rtc (moves step) started s' /\ o_at s' = OHold /\ k_at s' = KWant /\ stuck step s'.
Proof.
  assert (rtc (moves step) started (mkState KSleep 0 OWant true)) as Hr by (by apply (schedule_moves step [Keeper; Owner])).
  split; [exact Hr|]. exact (proj2 (teardown_ends_or_deadlocks _ Hr)).
Defined.
End Teardown.

(** ** Samples *)
Module Samples.

Definition three : pool RedisConnection := NewPool [(0, true); (0, true); (0, true)].

Definition aged {C} (p : pool C) : pool C :=
  mkThePool (po_conns p) (po_opened p) (po_keeper p) 60 (po_lent p) (po_lost p).

Lemma redis_outage_is_permanent_witness :
  let p' := pool_run [PTick 60 (fun _ => (false, Gone)); PGet; PTick 120 (fun _ => (false, Answers))] (aged three) in
  sessions p' = [] /\ (GetConnection (po_conns p')).1 = None.
Proof. by apply (redis_outage_is_permanent (aged three) 60 [PGet; PTick 120 (fun _ => (false, Answers))]). Defined.

Definition sql : pool SqlConnection := NewPool [(0, true); (0, false); (3, true); (56, true)].

Example sql_round :
  sc_session <$> free (keepConnectionHandle 60 (fun i => (false, match i with O => Reopened | _ => Answers end)) sql) = [3; 1; 2]%nat.
Proof. reflexivity. Qed.

Example sql_round_cut :
  sc_session <$> free (keepConnectionHandle 60 (fun i => (false, match i with 1%nat => Gone | _ => Answers end)) sql) = [2; 0]%nat.
Proof. reflexivity. Qed.

(** The first connection is replaced, the second is lost and ends the round. *)
Definition cut (i : nat) : bool * probe := (false, match i with O => Reopened | S O => Gone | _ => Answers end).

Lemma keep_alive_reference_witness :
  free (keepConnectionHandle 60 cut three) = [mkRedisConnection 3; mkRedisConnection 2] /\
  exists seen rest, zip (free sql) [Reopened; Gone; Answers] = seen ++ rest /\
    free (keepConnectionHandle 60 cut sql) = (fst <$> tail rest) ++ mysql_renewed 60 3 seen.
Proof.
  destruct (keep_alive_reference 60 cut) as [Hr Hm]; [by intros [|[]]|]. split; [exact (Hr three eq_refl)|].
  destruct (Hm sql eq_refl) as (seen & rest & E & _ & _ & Ef). exists seen, rest. split; [exact E|exact Ef].
Defined.
End Samples.
