(* ===== verification/Transport.v ===== *)
(** * Frames between gateways and message nodes

    The messages of [src/server/public/proto/gateway_message.proto] that the
    sources build and read; one constructor per member of a [oneof]. *)

From S2P Require Import Prelude.

Record RegisterGateway := mkRegisterGateway {
  rg_protocol_version : Z; rg_gateway_id : string; rg_instance_id : string;
  rg_stream_epoch : Z; rg_capacity : Z }.

Record RegisterResult := mkRegisterResult {
  rr_accepted : bool; rr_message_node_id : string; rr_stream_epoch : Z; rr_reason : string }.

Record CommandEnvelope := mkCommandEnvelope {
  ce_request_id : string; ce_actor_uid : Z; ce_connection_id : string;
  ce_connection_generation : Z; ce_service_id : Z; ce_conversation_id : Z;
  ce_deadline_unix_ms : Z; ce_packet : string }.

Record CommandResult := mkCommandResult {
  cr_request_id : string; cr_response_service_id : Z; cr_error : Z;
  cr_retryable : bool; cr_packet : string }.

Record DeliveryEnvelope := mkDeliveryEnvelope {
  de_delivery_id : string; de_recipient_uid : Z; de_expected_connection_id : string;
  de_expected_connection_generation : Z; de_protocol_id : Z; de_message_id : Z;
  de_conversation_id : Z; de_conversation_seq : Z; de_packet : string }.

Inductive DeliveryStatus :=
  | DELIVERY_STATUS_UNSPECIFIED | DELIVERY_STATUS_QUEUED | DELIVERY_STATUS_OFFLINE
  | DELIVERY_STATUS_STALE_ROUTE | DELIVERY_STATUS_BACKPRESSURED.

Record DeliveryAck := mkDeliveryAck {
  da_delivery_id : string; da_status : DeliveryStatus; da_gateway_id : string;
  da_instance_id : string }.

Inductive GatewayToMessageFrame :=
  | GRegister (r : RegisterGateway)
  | GCommand (c : CommandEnvelope)
  | GDeliveryAck (a : DeliveryAck)
  | GHeartbeat (sent_at_unix_ms sequence : Z)
  | GEmpty.

Inductive MessageToGatewayFrame :=
  | MRegisterResult (r : RegisterResult)
  | MCommandResult (r : CommandResult)
  | MDelivery (d : DeliveryEnvelope)
  | MHeartbeatAck (sent_at_unix_ms sequence : Z)
  | MDrainNotice (message_node_id reason : string)
  | MEmpty.

#[export] Instance DeliveryStatus_eq_dec : EqDecision DeliveryStatus.
Proof. solve_decision. Defined.
#[export] Instance RegisterGateway_eq_dec : EqDecision RegisterGateway.
Proof. solve_decision. Defined.
#[export] Instance RegisterResult_eq_dec : EqDecision RegisterResult.
Proof. solve_decision. Defined.
#[export] Instance CommandEnvelope_eq_dec : EqDecision CommandEnvelope.
Proof. solve_decision. Defined.
#[export] Instance CommandResult_eq_dec : EqDecision CommandResult.
Proof. solve_decision. Defined.
#[export] Instance DeliveryEnvelope_eq_dec : EqDecision DeliveryEnvelope.
Proof. solve_decision. Defined.
#[export] Instance DeliveryAck_eq_dec : EqDecision DeliveryAck.
Proof. solve_decision. Defined.
#[export] Instance GatewayToMessageFrame_eq_dec : EqDecision GatewayToMessageFrame.
Proof. solve_decision. Defined.
#[export] Instance MessageToGatewayFrame_eq_dec : EqDecision MessageToGatewayFrame.
Proof. solve_decision. Defined.

(** The route written into a delivery just before it is sent. *)
Definition set_route (uid : Z) (connection : string) (generation : Z) (e : DeliveryEnvelope)
  : DeliveryEnvelope :=
  mkDeliveryEnvelope (de_delivery_id e) uid connection generation (de_protocol_id e)
    (de_message_id e) (de_conversation_id e) (de_conversation_seq e) (de_packet e).
