(* ===== verification/Node.v ===== *)
(** * The message node: state, streams, deliveries

    The state shared by the parts of a message node, and the operations of
    [GatewayStreamService] ([src/server/message/src/service/GatewayStreamService.cc])
    and of [DeliveryService] ([DeliveryService.cc]) on it.  Each of them runs
    under [streamsMutex] or is one call to a data access object. *)

From S2P Require Import Prelude Const Packet Redis Store Pools Transport.

(** ** What the node finds outside *)

(** The file server's answer to [forwardUpload]: a status with its error text,
    or an exception. *)
Inductive upload_result := UploadStatus (ok : bool) (error_message : string) | UploadThrew (what : string).

Record UploadRequest := mkUploadRequest {
  up_user_id : Z; up_seq : Z; up_filename : string; up_image : bool; up_data : string }.

(** [redis_call n]: how the [n]-th use of Redis or of a clock fares;
    [id_calls n]: the attempts of an id generation begun at [n].  The file
    server and the identity of the process are fixed by configuration. *)
Class Env := {
  redis_call : nat -> call;
  id_calls : nat -> list call;
  date_time : nat -> string;
  unix_ms : nat -> Z;
  steady_ns : nat -> Z;
  machine_id : Z;
  forward_upload : nat -> UploadRequest -> upload_result;
  message_node_id : string;
  require_peer_identity : bool }.

(** ** State *)

(** A [GatewayStreamReactor]. *)
Record reactor := mkReactor {
  ra_gatewayId : string; ra_instanceId : string; ra_peer : string; ra_streamEpoch : Z;
  ra_registered : bool; ra_writer : writer MessageToGatewayFrame }.

Definition new_reactor (peer : string) : reactor := mkReactor "" "" peer 0 false new_writer.

Definition set_writer (w : writer MessageToGatewayFrame) (ra : reactor) : reactor :=
  mkReactor (ra_gatewayId ra) (ra_instanceId ra) (ra_peer ra) (ra_streamEpoch ra) (ra_registered ra) w.

(** [RegisteredStream]: a reactor is known by its address. *)
Record RegisteredStream := mkStream { st_instanceId : string; st_reactor : nat }.

#[export] Instance RegisteredStream_eq_dec : EqDecision RegisteredStream.
Proof. solve_decision. Defined.

(** What the lambda of [HandleCommand] captures. *)
Record task := mkNodeTask {
  tk_gatewayId : string; tk_instanceId : string; tk_reactor : nat; tk_command : CommandEnvelope }.

(** [reactors] holds the live ones; [dangling] records a use of a deleted one;
    [attached] that [DeliveryService] has its stream service. *)
Record node := mkNode {
  sql : store; cache : redis; calls : nat;
  streams : gmap string RegisteredStream; reactors : gmap nat reactor; dangling : bool;
  draining : bool; attached : bool; workers : ThreadPool (T := task) }.

Definition with_sql s w := mkNode s (cache w) (calls w) (streams w) (reactors w) (dangling w)
  (draining w) (attached w) (workers w).
Definition with_cache r w := mkNode (sql w) r (S (calls w)) (streams w) (reactors w) (dangling w)
  (draining w) (attached w) (workers w).
Definition with_streams m w := mkNode (sql w) (cache w) (calls w) m (reactors w) (dangling w)
  (draining w) (attached w) (workers w).
Definition with_reactors m w := mkNode (sql w) (cache w) (calls w) (streams w) m (dangling w)
  (draining w) (attached w) (workers w).
Definition with_dangling w := mkNode (sql w) (cache w) (calls w) (streams w) (reactors w) true
  (draining w) (attached w) (workers w).
Definition with_draining w := mkNode (sql w) (cache w) (calls w) (streams w) (reactors w) (dangling w)
  true (attached w) (workers w).
Definition with_attached b w := mkNode (sql w) (cache w) (calls w) (streams w) (reactors w) (dangling w)
  (draining w) b (workers w).
Definition with_workers p w := mkNode (sql w) (cache w) (calls w) (streams w) (reactors w) (dangling w)
  (draining w) (attached w) p.

Abbreviation Node := (State node).

Section Operations.
Context `{E : Env}.

(** ** Calls *)

Definition use_sql {A} (f : store -> A * store) : Node A := fun w =>
  let '(a, s) := f (sql w) in (a, with_sql s w).

Definition use_redis {A} (f : call -> redis -> A * redis) : Node A := fun w =>
  let '(a, r) := f (redis_call (calls w)) (cache w) in (a, with_cache r w).

Definition new_id (generate : Z -> list call -> redis -> Z * redis) : Node Z := fun w =>
  let '(a, r) := generate machine_id (id_calls (calls w)) (cache w) in (a, with_cache r w).

Definition getCurrentDateTime : Node string := fun w => (date_time (calls w), with_cache (cache w) w).
Definition NowUnixMilliseconds : Node Z := fun w => (unix_ms (calls w), with_cache (cache w) w).
Definition steady_now : Node Z := fun w => (steady_ns (calls w), with_cache (cache w) w).

Definition forwardUpload (q : UploadRequest) : Node upload_result := fun w =>
  (forward_upload (calls w) q, with_cache (cache w) w).

(** ** Streams *)

(** [reactor->Enqueue(frame)] through the address. *)
Definition reactor_enqueue (r : nat) (frame : MessageToGatewayFrame) : Node bool := fun w =>
  match reactors w !! r with
  | None => (false, with_dangling w)
  | Some ra =>
      let '(ok, wr) := Enqueue frame (ra_writer ra) in
      (ok, with_reactors (<[r := set_writer wr ra]> (reactors w)) w)
  end.

Definition Register (gatewayId instanceId : string) (r : nat) : Node unit :=
  writes (fun w => with_streams (<[gatewayId := mkStream instanceId r]> (streams w)) w).

Definition Unregister (gatewayId instanceId : string) (r : nat) : Node unit :=
  writes (fun w =>
    match streams w !! gatewayId with
    | Some st =>
        if decide (st_instanceId st = instanceId) then
          if decide (st_reactor st = r) then with_streams (delete gatewayId (streams w)) w else w
        else w
    | None => w
    end).

Definition Deliver (lease : SessionLease) (envelope : DeliveryEnvelope) : Node bool :=
  let! found := reads (fun w => streams w !! gatewayId lease) in
  match found with
  | Some st =>
      if decide (st_instanceId st = instanceId lease)
      then reactor_enqueue (st_reactor st) (MDelivery envelope)
      else pure false
  | None => pure false
  end.

Definition same_lease (a b : SessionLease) : bool :=
  bool_decide (gatewayId a = gatewayId b) && bool_decide (instanceId a = instanceId b) &&
  bool_decide (connectionId a = connectionId b) && (generation a =? generation b).

Definition DeliverToUser (recipientUid : Z) (envelope : DeliveryEnvelope) : Node bool :=
  let! lease := use_redis (getSessionLease recipientUid) in
  if lease_empty lease then pure false
  else
    let envelope := set_route recipientUid (connectionId lease) (generation lease) envelope in
    let! delivered := Deliver lease envelope in
    if (delivered : bool) then pure true
    else
      let! refreshed := use_redis (getSessionLease recipientUid) in
      if lease_empty refreshed || same_lease refreshed lease then pure false
      else Deliver refreshed
             (set_route recipientUid (connectionId refreshed) (generation refreshed) envelope).

Definition Reply (gatewayId instanceId : string) (r : nat) (frame : MessageToGatewayFrame) : Node bool :=
  let! found := reads (fun w => streams w !! gatewayId) in
  match found with
  | Some st =>
      if decide (st_instanceId st = instanceId) then
        if decide (st_reactor st = r) then reactor_enqueue r frame else pure false
      else pure false
  | None => pure false
  end.

(** The loop visits the registered streams in the order of the hash table. *)
Definition DrainAll (reason : string) : Node unit :=
  do! writes with_draining in
  let! all := reads (fun w => map_to_list (streams w)) in
  for_each all (fun kv =>
    let! _ := reactor_enqueue (st_reactor kv.2) (MDrainNotice message_node_id reason) in
    pure tt).

(** ** [DeliveryService] *)

Definition SetGatewayStreamService (present : bool) : Node unit := writes (with_attached present).

Definition SendGateway (uid : Z) (packet : string) (protocolId deliveryId messageId
    conversationId conversationSeq : Z) : Node bool :=
  let! service := reads attached in
  if negb service then pure false
  else
    let! deliveryId := (if deliveryId <=? 0 then new_id generateMsgId else pure deliveryId) in
    DeliverToUser uid (mkDeliveryEnvelope
      (to_string protocolId +:+ ":" +:+ to_string deliveryId +:+ ":" +:+ to_string uid)
      uid "" 0 protocolId messageId conversationId conversationSeq packet).

(** [Acknowledge]: both arguments are discarded. *)
Definition Acknowledge (uid seq : Z) : Node unit := pure tt.
End Operations.
