(* ===== verification/Services.v ===== *)
(** * Business handlers of the message node

    [MessageService.cc], [Friend.cc], [Group.cc], [FileService.cc] and the
    dispatch of [Service.cc], all under [src/server/message/src/service].  A
    handler takes the request packet and returns the response packet; the data
    access objects, the id generator and the streams are those of the node. *)

From S2P Require Import Prelude Const Packet Redis Store Mysql Messages Pools Transport Node.

(** ** Accepted commands *)

(** [AcceptedText]; [AcceptedGroupText] has several recipients. *)
Record AcceptedText := mkAcceptedText {
  at_response : Packet; at_delivery : Packet; at_recipientUids : list Z; at_shouldDeliver : bool }.

Section Services.
Context `{Collation} `{StdHash} `{Faults} `{PacketCodec} `{E : Env}.

(** ** [MessageService] *)

(** The id of a command: the client's own or, from old clients, its sequence number. *)
Definition client_message_id (request : Packet) : string :=
  if has_str F_client_message_id request && negb (str_empty (get_str F_client_message_id request))
  then get_str F_client_message_id request
  else to_string (get_int F_seq request).

Definition reject (what : string) (response : Packet) : AcceptedText :=
  mkAcceptedText (response |> set_int F_error JsonParser |> set_str F_message what
                           |> set_bool F_retryable false)
    empty_packet [] false.

(** The response once the storage has answered. *)
Definition accept_response (failed : string) (accepted : AcceptResult) (response : Packet) : Packet :=
  let response := response |> set_int F_error (ar_error accepted)
                           |> set_bool F_retryable (isRetryableError (ar_error accepted)) in
  if negb (ar_error accepted =? Success)
  then response |> set_str F_message (if str_empty (ar_diagnostic accepted) then failed
                                      else ar_diagnostic accepted)
  else response |> set_str F_status "accepted"
                |> set_int F_message_id (ar_messageId accepted)
                |> set_int F_conversation_id (ar_conversationId accepted)
                |> set_int F_conversation_seq (ar_conversationSeq accepted)
                |> set_int F_session_key (ar_conversationId accepted)
                |> set_int F_message_state MessageState.ACCEPTED
                |> set_bool F_retryable false.

(** The fields of the request rewritten for the recipients. *)
Definition accept_delivery (clientMessageId sendDateTime : string) (accepted : AcceptResult)
    (request : Packet) : Packet :=
  request |> set_int F_seq (ar_messageId accepted)
          |> set_int F_message_id (ar_messageId accepted)
          |> set_str F_client_message_id clientMessageId
          |> set_int F_conversation_id (ar_conversationId accepted)
          |> set_int F_conversation_seq (ar_conversationSeq accepted)
          |> set_int F_session_key (ar_conversationId accepted)
          |> set_int F_message_state MessageState.ACCEPTED
          |> set_str F_send_date_time sendDateTime.

Definition AcceptText (request : Packet) : Node AcceptedText :=
  let clientSeq := get_int F_seq request in
  let from := get_int F_uid request in
  let to := get_int F_to request in
  let data := get_str F_data request in
  let clientMessageId := client_message_id request in
  let response := empty_packet |> set_int F_seq clientSeq
                               |> set_str F_client_message_id clientMessageId in
  if (from <=? 0) || (to <=? 0) || str_empty data || str_empty clientMessageId ||
     (negb (has_str F_client_message_id request) && (clientSeq <=? 0))
  then pure (reject "actor, to, data and client_message_id are required" response)
  else
    let! sendDateTime := getCurrentDateTime in
    let! accepted := use_sql (acceptDirectText from to clientMessageId data sendDateTime) in
    let response := accept_response "persistent message accept failed" accepted response in
    if negb (ar_error accepted =? Success)
    then pure (mkAcceptedText response empty_packet [] false)
    else
      let request := request |> set_int F_uid from |> set_int F_from from in
      pure (mkAcceptedText response (accept_delivery clientMessageId sendDateTime accepted request)
              [to] (negb (ar_duplicate accepted))).

Definition AcceptGroupText (request : Packet) : Node AcceptedText :=
  let clientSeq := get_int F_seq request in
  let sender := get_int F_uid request in
  let groupId := if has_int F_gid request then get_int F_gid request
                 else if has_int F_group_id request then get_int F_group_id request else 0 in
  let content := get_str F_data request in
  let clientMessageId := client_message_id request in
  let response := empty_packet |> set_int F_seq clientSeq
                               |> set_str F_client_message_id clientMessageId
                               |> set_int F_gid groupId in
  if (sender <=? 0) || (groupId <=? 0) || str_empty content || str_empty clientMessageId ||
     (negb (has_str F_client_message_id request) && (clientSeq <=? 0))
  then pure (reject "actor, gid, data and client_message_id are required" response)
  else
    let! sendDateTime := getCurrentDateTime in
    let! accepted := use_sql (acceptGroupText sender groupId clientMessageId content sendDateTime) in
    let response := accept_response "persistent group message accept failed" accepted response in
    if negb (ar_error accepted =? Success)
    then pure (mkAcceptedText response empty_packet [] false)
    else
      let request := request |> set_int F_from sender |> set_int F_gid groupId in
      pure (mkAcceptedText response (accept_delivery clientMessageId sendDateTime accepted request)
              (ar_recipientUids accepted) (negb (ar_duplicate accepted))).

Definition Ack (request : Packet) : Node Packet :=
  let rsp := empty_packet in
  let seq := get_int F_seq request in
  let uid := get_int F_uid request in
  if seq <=? 0 then pure (rsp |> set_int F_error JsonParser)
  else
    let legacyReceipt := negb (has_int F_receipt_type request) ||
                         (get_int F_receipt_type request =? ReceiptType.UNSPECIFIED) in
    let receiptType := if legacyReceipt then ReceiptType.DELIVERED
                       else get_int F_receipt_type request in
    if receiptType =? ReceiptType.TRANSPORT then
      do! Acknowledge uid seq in
      pure (rsp |> set_int F_error Success)
    else if negb (receiptType =? ReceiptType.DELIVERED) && negb (receiptType =? ReceiptType.READ)
    then pure (rsp |> set_int F_error JsonParser)
    else
      let status := if receiptType =? ReceiptType.READ then Status_READ else Status_DELIVERED in
      let! readTime := (if receiptType =? ReceiptType.READ then getCurrentDateTime else pure "") in
      let hasConversationCursor := has_int F_conversation_id request &&
                                   has_int F_conversation_seq request in
      let! updated := use_sql (
        if hasConversationCursor
        then acknowledgeConversationMessage seq uid (get_int F_conversation_id request)
               (get_int F_conversation_seq request) status readTime
        else updateMessageForReceiver seq uid status readTime) in
      if (updated =? 0) && legacyReceipt then
        do! Acknowledge uid seq in
        pure (rsp |> set_int F_error Success)
      else if updated <=? 0 then
        pure (rsp |> set_int F_error (if updated =? -1 then MysqlFailed else MessageOwnershipInvalid))
      else
        do! Acknowledge uid seq in
        pure (rsp |> set_int F_error Success |> set_int F_message_id seq
                  |> set_int F_message_state (if receiptType =? ReceiptType.READ
                                              then MessageState.READ else MessageState.DELIVERED)).

(** Not implemented in the source: an empty response. *)
Definition SendFile (request : Packet) : Node Packet := pure empty_packet.
Definition SendGroupText (request : Packet) : Node Packet := pure empty_packet.

Definition SendText (request : Packet) : Node Packet :=
  let! accepted := AcceptText request in
  pure (at_response accepted).

Definition sync_item (m : MessageRecord) : PChatMessage :=
  mkPChatMessage (r_messageId m) (r_senderId m) (r_receiverId m) (r_type m) (r_content m)
    (r_status m) (r_sendDateTime m) (r_readDateTime m) (r_conversationId m) (r_conversationSeq m)
    (r_clientMessageId m).

(** The loops without a conversation leave the other fields at their defaults. *)
Definition legacy_item (im : Z * Message) : PChatMessage :=
  mkPChatMessage im.1 0 0 (m_type im.2) (m_content im.2) (m_status im.2)
    (m_sendDateTime im.2) (m_readDateTime im.2) 0 0 "".

Definition add_messages (l : list PChatMessage) (rsp : Packet) : Packet :=
  foldl (fun p m => add_message_list m p) rsp l.

Definition sync_response (conversationId : Z) (sync : ConversationSyncResult) : Packet :=
  let rsp := empty_packet |> set_int F_error (sy_error sync)
                          |> set_int F_conversation_id conversationId
                          |> set_int F_latest_seq (sy_latestSeq sync)
                          |> set_int F_next_seq (sy_nextSeq sync)
                          |> set_bool F_has_more (sy_hasMore sync) in
  let rsp := if sy_conversationType sync =? 1 then rsp |> set_int F_conversation_type 1
             else if sy_conversationType sync =? 2 then rsp |> set_int F_conversation_type 2
             else rsp in
  if negb (sy_error sync =? Success) then rsp
  else add_messages (map sync_item (sy_messages sync)) rsp.

Definition PullSessionMessages (request : Packet) : Node Packet :=
  if has_int F_conversation_id request then
    let conversationId := get_int F_conversation_id request in
    let afterSeq := if has_int F_after_seq request then get_int F_after_seq request else 0 in
    let limit := if has_int F_limit request then get_int F_limit request else 50 in
    let! sync := use_sql (syncConversation (get_int F_uid request) conversationId afterSeq limit) in
    pure (sync_response conversationId sync)
  else
    let to := get_int F_to request in
    let! messageList := use_sql (getSessionMessage (get_int F_from request) to
                                   (get_int F_last_msg_id request) (get_int F_limit request)) in
    match messageList with
    | None => pure (empty_packet |> set_int F_error Success)
    | Some l => pure (empty_packet |> set_int F_uid to |> add_messages (map legacy_item l)
                                   |> set_int F_error Success)
    end.

Definition PullMessages (request : Packet) : Node Packet :=
  let uid := get_int F_uid request in
  let rsp := empty_packet |> set_int F_uid uid in
  let! messageList := use_sql (getUserMessage uid (get_int F_last_msg_id request)
                                 (get_int F_limit request)) in
  match messageList with
  | None => pure (rsp |> set_int F_error Success)
  | Some l => pure (rsp |> add_messages (map legacy_item l) |> set_int F_error Success)
  end.

(** ** [FriendService] *)

(** The row types of the storage layer hold user ids as [size_t]. *)
Definition StoreNotifyAddFriend (request : Packet) : Node Z :=
  use_sql (insertFriendApply (mkFriendApply (uint64 (get_int F_uid request))
    (uint64 (get_int F_to request)) (get_str F_request_message request) FriendApplyStatus.Wait "")).

Definition NotifyAddFriend (request : Packet) : Node Packet :=
  let from := get_int F_uid request in
  let to := get_int F_to request in
  let request := request |> set_int F_from from in
  let! ret := StoreNotifyAddFriend request in
  let rsp := empty_packet |> set_int F_uid to in
  if ret =? -1
  then pure (rsp |> set_int F_error MysqlFailed |> set_str F_message "数据库修改异常")
  else
    let! id := new_id generateMsgId in
    let senderRsp := request |> clear_bool F_skip_storage |> set_int F_seq id in
    let! _ := SendGateway to (SerializeToString senderRsp) (sid ID_NOTIFY_ADD_FRIEND_REQ) 0 0 0 0 in
    pure (rsp |> set_int F_error Success).

(** The session id is a [long]; the function returns [int]. *)
Definition StoreReplyAddFriend (request : Packet) : Node Z :=
  let from := get_int F_uid request in
  let to := get_int F_to request in
  let accept := get_bool F_accept request in
  let replyMessage := get_str F_reply_message request in
  let! time := getCurrentDateTime in
  let update (status sessionId : Z) :=
    let! rt := use_sql (updateFriendApplyStatus
                 (mkFriendApply (uint64 from) (uint64 to) replyMessage status time)) in
    pure (int32 (if rt =? -1 then -1 else sessionId)) in
  if accept then
    let! sessionId := new_id generateSessionId in
    let! dateTime := getCurrentDateTime in
    let! rt := use_sql (insertFriend
                 (mkFriend (uint64 from) (uint64 to) (uint64 sessionId) time) dateTime) in
    if rt =? -1 then pure (-1) else update FriendApplyStatus.Agree sessionId
  else update FriendApplyStatus.Refuse 0.

Definition ReplyAddFriend (request : Packet) : Node Packet :=
  let from := get_int F_uid request in
  let to := get_int F_to request in
  let accept := get_bool F_accept request in
  let replyMessage := get_str F_reply_message request in
  let request := request |> set_int F_from from in
  let rsp := empty_packet |> set_int F_uid to in
  let! sessionKey := StoreReplyAddFriend request in
  if sessionKey =? -1
  then pure (rsp |> set_int F_error MysqlFailed |> set_str F_message "数据库修改发送异常")
  else
    let senderRsp := empty_packet |> set_int F_from from |> set_int F_to to |> set_int F_uid to
      |> set_int F_session_key sessionKey |> set_bool F_accept accept
      |> set_str F_reply_message replyMessage in
    let! id := new_id generateMsgId in
    let senderRsp := senderRsp |> set_int F_seq id in
    let! _ := SendGateway to (SerializeToString senderRsp) (sid ID_REPLY_ADD_FRIEND_REQ) 0 0 0 0 in
    pure (rsp |> set_int F_error Success).

Definition apply_item (a : FriendApply) : PFriendApply :=
  mkPFriendApply (int64 (fa_from a)) (int64 (fa_to a)) (fa_status a) (fa_content a) (fa_createTime a).

Definition PullFriendApplyList (request : Packet) : Node Packet :=
  let! applyList := use_sql (getFriendApplyList (get_int F_uid request)) in
  match applyList with
  | None => pure (empty_packet |> set_int F_error Success)
  | Some l => pure (foldl (fun p a => add_apply_list (apply_item a) p) empty_packet l
                      |> set_int F_error Success)
  end.

(** One query per friend; a friend without a profile is left out. *)
Fixpoint friend_infos (l : list Friend) (rsp : Packet) : Node Packet :=
  match l with
  | [] => pure rsp
  | f :: l =>
      let friendUid := int64 (fr_uidB f) in
      let! friendInfo := use_sql (getUserInfo friendUid) in
      match friendInfo with
      | Some i => friend_infos l (add_friend_list (mkPUserInfo friendUid (ui_name i) (ui_age i)
                                                     (ui_sex i) (ui_headImageURL i)) rsp)
      | None => friend_infos l rsp
      end
  end.

Definition PullFriendList (request : Packet) : Node Packet :=
  let! friendList := use_sql (getFriendList (get_int F_uid request)) in
  match friendList with
  | None => pure (empty_packet |> set_int F_error Success)
  | Some l =>
      let! rsp := friend_infos l empty_packet in
      pure (rsp |> set_int F_error Success)
  end.

(** ** [GroupService] *)

Definition mysql_failed (rsp : Packet) : Packet :=
  rsp |> set_int F_error MysqlFailed |> set_str F_message "数据库操作失败".

Definition Create (request : Packet) : Node Packet :=
  let uid := get_int F_uid request in
  let! gid := new_id generateMsgId in
  let rsp := empty_packet |> set_int F_gid gid in
  let! sessionKey := new_id generateSessionId in
  let! createTime := getCurrentDateTime in
  let! ret := use_sql (insertGroup gid
                (mkGroupInfo sessionKey (get_str F_group_name request) createTime)) in
  if ret =? -1 then pure (mysql_failed rsp)
  else
    let! ret := use_sql (insertGroupMember gid uid (mkGroupMember GroupRole.Master createTime 0 "")) in
    if ret =? -1 then pure (mysql_failed rsp)
    else pure (rsp |> set_int F_error Success |> set_int F_session_key sessionKey).

Definition NotifyMemberJoin (uid gid : Z) (requestMessage : string) : Node Z :=
  let! managerList := use_sql (getGroupRoleMemberList gid GroupRole.Manager) in
  do! for_each managerList (fun manager =>
    let! serverSeq := new_id generateMsgId in
    let notifyRequest := empty_packet |> set_int F_uid uid |> set_int F_gid gid
      |> set_str F_content requestMessage |> set_int F_seq serverSeq |> set_int F_error Success in
    let! _ := SendGateway manager.1.2 (SerializeToString notifyRequest)
                (sid ID_GROUP_NOTIFY_JOIN_REQ) serverSeq 0 0 0 in
    pure tt) in
  pure 0.

Definition NotifyJoin (request : Packet) : Node Packet :=
  let uid := get_int F_uid request in
  let gid := get_int F_gid request in
  let requestMessage := get_str F_request_message request in
  let rsp := empty_packet in
  let! ret := use_sql (hasGroup gid) in
  if ret =? 0 then pure (rsp |> set_int F_error GroupNotExists |> set_str F_message "群组不存在")
  else if ret =? -1 then pure (mysql_failed rsp)
  else
    let! createTime := getCurrentDateTime in
    let! ret := use_sql (insertGroupApply (mkGroupApply uid 0 gid GroupApplyType.Add
                  FriendApplyStatus.Wait requestMessage createTime)) in
    if ret =? -1 then pure (mysql_failed rsp)
    else
      let! ret := NotifyMemberJoin uid gid requestMessage in
      if ret =? -1
      then pure (rsp |> set_int F_error GroupNotExists |> set_str F_message "通知群成员失败")
      else pure (rsp |> set_int F_error Success |> set_str F_message "通知群成员成功").

(** A missing group is noted in the response and the query goes on. *)
Definition PullNotify (request : Packet) : Node Packet :=
  let gid := get_int F_gid request in
  let rsp := empty_packet |> set_int F_gid gid in
  let! ret := use_sql (hasGroup gid) in
  let rsp := if ret =? 0
             then rsp |> set_int F_error GroupNotExists |> set_str F_message "群组已不存在"
             else rsp in
  let! applyList := use_sql (getFriendApplyList gid) in
  match applyList with
  | None => pure (mysql_failed rsp)
  | Some l => pure (foldl (fun p a => add_apply_list (mkPFriendApply 0 (int64 (fa_to a)) 0 "" "") p) rsp l
                      |> set_int F_error Success)
  end.

Definition NotifyMemberReply (gid managerUid requestorUid : Z) (accept : bool) : Node Z :=
  let! memberList := use_sql (getGroupMemberList gid) in
  do! for_each memberList (fun member =>
    let! serverSeq := new_id generateMsgId in
    let notifyRequest := empty_packet |> set_int F_requestor_uid requestorUid
      |> set_int F_replyor_uid managerUid |> set_int F_gid gid |> set_bool F_accept accept
      |> set_int F_seq serverSeq in
    let! _ := SendGateway member.1.2 (SerializeToString notifyRequest)
                (sid ID_GROUP_REPLY_JOIN_REQ) serverSeq 0 0 0 in
    pure tt) in
  pure 0.

Definition ReplyJoin (request : Packet) : Node Packet :=
  let gid := get_int F_gid request in
  let managerUid := get_int F_uid request in
  let requestorUid := get_int F_requestor_uid request in
  let accept := get_bool F_accept request in
  let rsp := empty_packet |> set_int F_gid gid in
  let! ret := use_sql (hasGroup gid) in
  if ret =? 0 then pure (rsp |> set_int F_error GroupNotExists |> set_str F_message "群组不存在")
  else
    let! createTime := getCurrentDateTime in
    let! ret := use_sql (updateGroupApply (mkGroupApply requestorUid managerUid gid
                  GroupApplyType.Add FriendApplyStatus.Agree "" createTime)) in
    if ret =? -1 then pure (mysql_failed rsp)
    else
      let! ret := use_sql (insertGroupMember gid requestorUid
                    (mkGroupMember GroupRole.Member createTime 0 "")) in
      if ret =? -1 then pure (mysql_failed rsp)
      else
        let! ret := NotifyMemberReply gid managerUid requestorUid accept in
        if ret =? -1
        then pure (rsp |> set_int F_error GroupReplyFailed |> set_str F_message "通知群成员失败")
        else if negb accept
        then pure (rsp |> set_int F_error Success |> set_str F_message "拒绝该用户加入群组请求")
        else pure (rsp |> set_int F_error Success |> set_str F_message "同意加入群组").

Definition Quit (request : Packet) : Node Packet := pure empty_packet.

(** ** [FileService] *)

Definition Upload (request : Packet) : Node Packet :=
  let clientSeq := get_int F_seq request in
  let uid := get_int F_uid request in
  let rsp := empty_packet |> set_int F_seq clientSeq in
  let! hasUserMsgId := use_redis (getUserMsgId uid clientSeq) in
  if (hasUserMsgId : bool) then
    let! _ := use_redis (expireUserMsgId uid clientSeq 10) in
    pure (rsp |> set_int F_error RepeatMessage |> set_str F_message "重复消息")
  else
    let tmpType := get_str F_file_type request in
    if negb (bool_decide (tmpType = "TEXT")) && negb (bool_decide (tmpType = "IMAGE"))
    then pure (rsp |> set_int F_error FileTypeError |> set_str F_message "文件类型错误")
    else
      let! result := forwardUpload (mkUploadRequest uid clientSeq (get_str F_file_name request)
                       (bool_decide (tmpType = "IMAGE")) (get_str F_data request)) in
      match result with
      | UploadStatus true _ => pure (rsp |> set_int F_error Success)
      | UploadStatus false what =>
          pure (rsp |> set_int F_error RPCFailed |> set_str F_message ("RPC 失败: " +:+ what))
      | UploadThrew what =>
          pure (rsp |> set_int F_error InternalError |> set_str F_message ("系统异常: " +:+ what))
      end.

(** ** [Service]: dispatch *)

Abbreviation HandleType := (Packet -> Node Packet).

(** The first registration of an id stays. *)
Definition RegisterHandle (msgID : Z) (handle : HandleType) (group : list (Z * HandleType))
  : list (Z * HandleType) :=
  if existsb (fun e => e.1 =? msgID) group then group else group ++ [(msgID, handle)].

Definition serviceGroup : list (Z * HandleType) :=
  [] |> RegisterHandle (sid ID_ACK) Ack
     |> RegisterHandle (sid ID_TEXT_SEND_REQ) SendText
     |> RegisterHandle (sid ID_FILE_UPLOAD_REQ) Upload
     |> RegisterHandle (sid ID_NOTIFY_ADD_FRIEND_REQ) NotifyAddFriend
     |> RegisterHandle (sid ID_REPLY_ADD_FRIEND_REQ) ReplyAddFriend
     |> RegisterHandle (sid ID_PULL_FRIEND_LIST_REQ) PullFriendList
     |> RegisterHandle (sid ID_PULL_FRIEND_APPLY_LIST_REQ) PullFriendApplyList
     |> RegisterHandle (sid ID_PULL_SESSION_MESSAGE_LIST_REQ) PullSessionMessages
     |> RegisterHandle (sid ID_PULL_MESSAGE_LIST_REQ) PullMessages
     |> RegisterHandle (sid ID_GROUP_CREATE_REQ) Create
     |> RegisterHandle (sid ID_GROUP_NOTIFY_JOIN_REQ) NotifyJoin
     |> RegisterHandle (sid ID_GROUP_REPLY_JOIN_REQ) ReplyJoin
     |> RegisterHandle (sid ID_GROUP_TEXT_SEND_REQ) SendGroupText
     |> RegisterHandle (sid ID_FILE_SEND_REQ) SendFile.

Definition ExecuteGatewayCommand (msgID actorUid : Z) (request : Packet) : Node Packet :=
  if (actorUid <=? 0) || (msgID =? sid ID_LOGIN_INIT_REQ) || (msgID =? sid ID_PING_REQ) ||
     (msgID =? sid ID_USER_QUIT_REQ)
  then pure (MakeErrorPacket AuthenticationRequired "connection control command belongs to gateway")
  else match List.find (fun e => e.1 =? msgID) serviceGroup with
       | None => pure (MakeErrorPacket NotFound "")
       | Some e => e.2 (request |> set_int F_uid actorUid)
       end.
End Services.
