(* ===== verification/Files.v ===== *)
(** * The file server

    [FileWorker], [FileServiceImpl] and [FileServer]
    ([src/server/file/src/service/Service.cc]), and [FileRpc]
    ([src/server/message/src/service/FileRpc.cc]), through which a message node
    calls it.  The file system is modelled without symbolic links; how each
    call to it fares is an argument. *)

From S2P Require Import Prelude Pools Connections Node.

(** ** Strings as paths *)

Definition slash : ascii := "/".
Definition nul : ascii := ascii_of_nat 0.

(** What C sees of a string. *)
Fixpoint c_str (s : string) : string :=
  match s with
  | "" => ""
  | String c s => if decide (c = nul) then "" else String c (c_str s)
  end.

Definition absolute (path : string) : bool :=
  match path with String c _ => bool_decide (c = slash) | "" => false end.

Fixpoint ends_in_slash (path : string) : bool :=
  match path with
  | "" => false
  | String c path => if str_empty path then bool_decide (c = slash) else ends_in_slash path
  end.

(** [fs::path::operator/] *)
Definition path_join (a b : string) : string :=
  if absolute b then b else if str_empty a || ends_in_slash a then a +:+ b else a +:+ "/" +:+ b.

(** The names between the slashes. *)
Fixpoint names_of (path : string) : list string :=
  match path with
  | "" => [""]
  | String c path =>
      let names := names_of path in
      if decide (c = slash) then "" :: names
      else match names with n :: names => String c n :: names | [] => [] end
  end.

(** A name that stays in its directory. *)
Definition plain (name : string) : bool :=
  negb (bool_decide (name ∈ [""; "."; ".."])) &&
  str_forall (fun c => negb (bool_decide (c = slash)) && negb (bool_decide (c = nul))) name.

(** ** The file system *)

Inductive entry := File (content : string) | Dir.

#[export] Instance entry_eq_dec : EqDecision entry.
Proof. solve_decision. Defined.

(** A place is the names on the way from the root. *)
Abbreviation place := (list string).
Abbreviation fsys := (gmap (list string) entry).

Definition is_dir (fs : fsys) (l : place) : bool := bool_decide (l = []) || bool_decide (fs !! l = Some Dir).

Definition move (l : place) (name : string) : place :=
  if bool_decide (name ∈ [""; "."]) then l
  else if decide (name = "..") then removelast l else l ++ [name].

Fixpoint walk (fs : fsys) (l : place) (names : list string) : option place :=
  match names with
  | [] => Some l
  | n :: names => if is_dir fs l then walk fs (move l n) names else None
  end.

Definition resolve (fs : fsys) (cwd : place) (path : string) : option place :=
  walk fs (if absolute path then [] else cwd) (names_of (c_str path)).

(** [fs::exists] *)
Definition exists_ (fs : fsys) (cwd : place) (path : string) : bool :=
  match resolve fs cwd path with
  | Some l => is_dir fs l || bool_decide (is_Some (fs !! l))
  | None => false
  end.

(** [fs::create_directories]; [None]: it throws. *)
Fixpoint create_dirs (fs : fsys) (l : place) (names : list string) : option fsys :=
  match names with
  | [] => Some fs
  | n :: names =>
      if is_dir fs l then
        let l' := move l n in
        if is_dir fs l' then create_dirs fs l' names
        else match fs !! l' with
             | Some _ => None
             | None => create_dirs (<[l' := Dir]> fs) l' names
             end
      else None
  end.

Definition create_directories (fs : fsys) (cwd : place) (path : string) : option fsys :=
  create_dirs fs (if absolute path then [] else cwd) (names_of (c_str path)).

(** [std::ofstream(path, binary | app)]; [None]: it is not open. *)
Definition open_append (fs : fsys) (cwd : place) (path : string) : option (place * fsys) :=
  l ← resolve fs cwd path;
  if is_dir fs l then None
  else match fs !! l with
       | Some _ => Some (l, fs)
       | None => Some (l, <[l := File ""]> fs)
       end.

(** [ofs.write]: what does not fit on the device is lost, and nobody asks. *)
Definition append (room : nat) (l : place) (data : string) (fs : fsys) : fsys :=
  match fs !! l with
  | Some (File content) => <[l := File (content +:+ String.substring 0 room data)]> fs
  | _ => fs
  end.

(** ** Uploads *)

Record FileChunk := mkFileChunk {
  ch_seq : Z; ch_offset : Z; ch_total_size : Z; ch_image : bool; ch_data : string; ch_filename : string;
  ch_save_path : string; ch_timestamp : string }.

Record UploadMessage := mkUploadMessage { um_chunk : option FileChunk; um_user_id : Z }.

(** How the calls of one task fare. *)
Record disk := mkDisk { d_exists : bool; d_create : bool; d_open : bool; d_room : nat }.

Definition getSaveFilePath : string := "./".

Definition saveDir (uid : Z) : string := path_join getSaveFilePath (to_string uid).

(** The lambda of [Upload]. *)
Definition Process (d : disk) (cwd : place) (request : UploadMessage) (fs : fsys) : fsys :=
  match um_chunk request with
  | None => fs
  | Some fileChunk =>
      let uid := um_user_id request in
      if str_empty (ch_filename fileChunk) then fs
      else
        let dir := saveDir uid in
        let saveFilePath := path_join dir (ch_filename fileChunk) in
        if negb (d_exists d) then fs
        else
          let created :=
            if exists_ fs cwd dir then Some fs
            else if d_create d then create_directories fs cwd dir else None in
          match created with
          | None => fs
          | Some fs =>
              if negb (d_open d) then fs
              else match open_append fs cwd saveFilePath with
                   | None => fs
                   | Some (l, fs) => append (d_room d) l (ch_data fileChunk) fs
                   end
          end
  end.

Definition getFileType (filename : string) : string :=
  let fix after (s : string) : option string :=
    match s with
    | "" => None
    | String c s => match after s with
                    | Some r => Some r
                    | None => if decide (c = "."%char) then Some s else None
                    end
    end in
  default filename (after filename).

(** [UploadResponse]; [status] is [SUCCESS] unless it is set. *)
Record UploadResponse := mkUploadResponse { ur_seq : Z; ur_user_id : Z; ur_status : Z }.
Definition empty_response : UploadResponse := mkUploadResponse 0 0 0.

(** ** Workers *)

Record FileWorker := mkFileWorker { tasks : list UploadMessage; fw_stop : bool }.

(** A call of [FileServiceImpl::PushTask] is before one of these.  [routeCount]
    is a static variable without a lock, and the server library calls [Upload]
    from several threads: each read and each write of it is a step. *)
Inductive pc := Reading | Pushing (index : nat) | Counting | Storing (count : nat) | Comparing | Resetting | Returned.

Record call := mkCall { cl_task : UploadMessage; cl_at : pc }.

(** [FileServiceImpl] with its disk and the calls of [Upload], those in progress
    and those that have returned.  [processed], [pushed] and [astray] are only
    recorded: what the workers have processed, what was given to which worker,
    and whether a call has indexed [workers] out of range. *)
Record server := mkServer {
  workers : list FileWorker; routeCount : nat; files : fsys; calls : list call;
  processed : list (nat * (disk * UploadMessage)); pushed : list (nat * UploadMessage); astray : bool }.

Definition with_workers ws s := mkServer ws (routeCount s) (files s) (calls s) (processed s) (pushed s) (astray s).
Definition with_route r s := mkServer (workers s) r (files s) (calls s) (processed s) (pushed s) (astray s).
Definition with_calls cs s := mkServer (workers s) (routeCount s) (files s) cs (processed s) (pushed s) (astray s).
Definition give i q s := mkServer (workers s) (routeCount s) (files s) (calls s) (processed s) (pushed s ++ [(i, q)]) (astray s).
Definition go_astray s := mkServer (workers s) (routeCount s) (files s) (calls s) (processed s) (pushed s) true.

Definition FileServiceImpl (workerSize : nat) (fs : fsys) : server :=
  mkServer (replicate workerSize (mkFileWorker [] false)) 0 fs [] [] [] false.

(** [FileWorker::PushTask], under the mutex of the worker. *)
Definition push (task : UploadMessage) (w : FileWorker) : FileWorker := mkFileWorker (tasks w ++ [task]) (fw_stop w).

(** The next step of a call.  Outside [workers] the behaviour is undefined: the
    call goes no further here. *)
Definition PushTask (task : UploadMessage) (p : pc) (s : server) : pc * server :=
  match p with
  | Reading => (Pushing (routeCount s), s)
  | Pushing i =>
      match workers s !! i with
      | Some w => (Counting, give i task (with_workers (<[i := push task w]> (workers s)) s))
      | None => (Pushing i, go_astray s)
      end
  | Counting => (Storing (S (routeCount s)), s)
  | Storing count => (Comparing, with_route count s)
  | Comparing => (if (length (workers s) <=? routeCount s)%nat then Resetting else Returned, s)
  | Resetting => (Returned, with_route 0 s)
  | Returned => (Returned, s)
  end.

(** [Upload] copies the request and enters [PushTask]. *)
Definition Upload (request : UploadMessage) (s : server) : server :=
  with_calls (calls s ++ [mkCall request Reading]) s.

(** It answers [OK] and [SUCCESS] when [PushTask] returns. *)
Definition answer (c : call) : option UploadResponse :=
  match cl_at c with Returned => Some empty_response | _ => None end.

(** A step of the call of number [k]. *)
Definition proceed (k : nat) (s : server) : server :=
  match calls s !! k with
  | Some c =>
      let '(p, s') := PushTask (cl_task c) (cl_at c) s in
      with_calls (<[k := mkCall (cl_task c) p]> (calls s)) s'
  | None => s
  end.

(** A turn of the loop of worker [i]; the task stays in the queue, under the
    mutex, while it is processed. *)
Definition work (d : disk) (cwd : place) (i : nat) (s : server) : server :=
  match workers s !! i with
  | Some (mkFileWorker (task :: rest) false) =>
      mkServer (<[i := mkFileWorker rest false]> (workers s)) (routeCount s)
        (Process d cwd task (files s)) (calls s) (processed s ++ [(i, (d, task))]) (pushed s) (astray s)
  | _ => s
  end.

(** [~FileWorker] of worker [i]: what is queued is never processed. *)
Definition stop_worker (i : nat) (s : server) : server :=
  match workers s !! i with
  | Some w => with_workers (<[i := mkFileWorker (tasks w) true]> (workers s)) s
  | None => s
  end.

Inductive file_event := FUpload (request : UploadMessage) | FProceed (k : nat) | FWork (d : disk) (i : nat) | FStop (i : nat).

Definition file_step (cwd : place) (e : file_event) (s : server) : server :=
  match e with
  | FUpload request => Upload request s
  | FProceed k => proceed k s
  | FWork d i => work d cwd i s
  | FStop i => stop_worker i s
  end.

Definition file_run (cwd : place) (es : list file_event) (s : server) : server :=
  foldl (fun s e => file_step cwd e s) s es.

(** A call from its beginning to its end; [k] calls came before it. *)
Definition whole (k : nat) (request : UploadMessage) : list file_event :=
  FUpload request :: replicate 6 (FProceed k).

(** ** Paths of uploads *)

Lemma names_of_nonempty s : names_of s <> [].
Proof. induction s as [|c s IH]; simpl; [done|]. by destruct (decide _), (names_of s). Qed.

Abbreviation slash_free := (str_forall (fun c => negb (bool_decide (c = slash)))).
Abbreviation nul_free := (str_forall (fun c => negb (bool_decide (c = nul)))).

Lemma names_of_slash a b : slash_free a = true -> names_of (a +:+ "/" +:+ b) = a :: names_of b.
Proof.
  induction a as [|c a IH]; intros Ha; [reflexivity|]. simpl in Ha. boolp.
  change (names_of (String c (a +:+ "/" +:+ b)) = String c a :: names_of b). cbn [names_of].
  by rewrite IH, decide_False by done.
Qed.

Lemma names_of_plain a : slash_free a = true -> names_of a = [a].
Proof.
  induction a as [|c a IH]; intros Ha; [done|]. simpl in Ha. boolp. simpl. rewrite IH by done.
  by rewrite decide_False by done.
Qed.

Lemma c_str_free a : nul_free a = true -> c_str a = a.
Proof.
  induction a as [|c a IH]; intros Ha; [done|]. simpl in Ha. boolp. simpl. rewrite decide_False by done. by rewrite IH.
Qed.

Lemma nul_free_app a b : nul_free (a +:+ b) = nul_free a && nul_free b.
Proof. induction a as [|c a IH]; [done|]. simpl. by rewrite IH, andb_assoc. Qed.

Lemma plain_spec name :
  plain name = true -> name ∉ [""; "."; ".."] /\ slash_free name = true /\ nul_free name = true.
Proof.
  unfold plain. intros H%andb_true_iff. destruct H as [H1 H2]. apply negb_true_iff, bool_decide_eq_false in H1.
  split; [done|]. clear H1. induction name as [|c name IH]; [done|]. cbn [str_forall] in *.
  apply andb_true_iff in H2 as [[-> ->]%andb_true_iff H2]. by apply IH.
Qed.

Lemma to_string_nonempty z : to_string z <> "".
Proof.
  assert (forall n s, s <> "" -> pretty_N_go n s <> "") as Hgo.
  { intros n. induction (N.lt_wf_0 n) as [n _ IH]; intros s Hs.
    destruct (decide (n = 0%N)) as [->|Hn]; [by rewrite pretty_N_go_0|].
    rewrite pretty_N_go_step by lia. apply IH; [by apply N.div_lt; lia|done]. }
  destruct z as [|p|p]; [done| |done]. change (to_string (Z.pos p)) with (pretty_N_go (N.pos p) "").
  rewrite pretty_N_go_step by lia. by apply Hgo.
Qed.

Lemma plain_uid uid : plain (to_string uid) = true.
Proof.
  unfold plain. apply andb_true_iff. split; [|by apply pretty_forall].
  apply negb_true_iff, bool_decide_eq_false. intros Hin.
  assert (str_forall (fun c => negb (bool_decide (c = "."%char))) (to_string uid) = true) as Hd by (by apply pretty_forall).
  rewrite !elem_of_cons in Hin. destruct Hin as [E|[E|[E|Hin]]]; [|by rewrite E in Hd|by rewrite E in Hd|by apply not_elem_of_nil in Hin].
  by apply (to_string_nonempty uid).
Qed.

Lemma slash_free_absolute s : slash_free s = true -> absolute s = false.
Proof. destruct s; [done|]. cbn. intros [H _]%andb_true_iff. by apply negb_true_iff in H. Qed.

Lemma slash_free_end s : slash_free s = true -> ends_in_slash s = false.
Proof.
  induction s as [|c s IH]; [done|]. cbn. intros [H Hs]%andb_true_iff. destruct (str_empty s); [by apply negb_true_iff|auto].
Qed.

Lemma ends_in_slash_app a b : b <> "" -> ends_in_slash (a +:+ b) = ends_in_slash b.
Proof.
  intros Hb. induction a as [|c a IH]; [done|]. change (String c a +:+ b) with (String c (a +:+ b)). cbn.
  destruct (str_empty (a +:+ b)) eqn:E; [|exact IH]. apply str_empty_true in E. by destruct a, b.
Qed.

Lemma uid_spec uid :
  to_string uid <> "" /\ slash_free (to_string uid) = true /\ nul_free (to_string uid) = true.
Proof.
  destruct (plain_spec _ (plain_uid uid)) as (H & ? & ?). split; [|done]. intros E. apply H. rewrite E. set_solver.
Qed.

Lemma saveDir_eq uid : saveDir uid = "./" +:+ to_string uid.
Proof. unfold saveDir, path_join. by rewrite slash_free_absolute by apply uid_spec. Qed.

Lemma saveFile_eq uid name :
  slash_free name = true -> path_join (saveDir uid) name = "./" +:+ to_string uid +:+ "/" +:+ name.
Proof.
  intros Hn. unfold path_join. rewrite slash_free_absolute by done. rewrite saveDir_eq.
  destruct (uid_spec uid) as (H1 & H2 & _). rewrite ends_in_slash_app by done. rewrite slash_free_end by done.
  done.
Qed.

(** ** Places of uploads *)

Definition userDir (cwd : place) (uid : Z) : place := cwd ++ [to_string uid].
Definition userFile (cwd : place) (uid : Z) (name : string) : place := userDir cwd uid ++ [name].

Lemma move_plain l name : plain name = true -> move l name = l ++ [name].
Proof.
  intros H. destruct (plain_spec _ H) as [Hn _]. unfold move. rewrite bool_decide_eq_false_2 by set_solver.
  rewrite decide_False by set_solver. done.
Qed.

Lemma is_dir_snoc fs l name : is_dir fs (l ++ [name]) = bool_decide (fs !! (l ++ [name]) = Some Dir).
Proof. unfold is_dir. by rewrite bool_decide_eq_false_2 by (by destruct l). Qed.

Lemma is_dir_user fs cwd uid : is_dir fs (userDir cwd uid) = bool_decide (fs !! userDir cwd uid = Some Dir).
Proof. apply is_dir_snoc. Qed.

Lemma is_dir_file fs cwd uid name : is_dir fs (userFile cwd uid name) = bool_decide (fs !! userFile cwd uid name = Some Dir).
Proof. apply is_dir_snoc. Qed.

Lemma names_of_dir uid : names_of (c_str (saveDir uid)) = ["."; to_string uid].
Proof.
  destruct (uid_spec uid) as (_ & H2 & H3). rewrite saveDir_eq, c_str_free by done.
  change ("./" +:+ to_string uid) with ("." +:+ "/" +:+ to_string uid). rewrite names_of_slash by done.
  by rewrite names_of_plain.
Qed.

Lemma names_of_file uid name :
  plain name = true -> names_of (c_str (path_join (saveDir uid) name)) = ["."; to_string uid; name].
Proof.
  intros (_ & Hs & Hn)%plain_spec. destruct (uid_spec uid) as (_ & H2 & H3). rewrite saveFile_eq by done.
  rewrite c_str_free by (by rewrite !nul_free_app, Hn, H3).
  change ("./" +:+ ?x) with ("." +:+ "/" +:+ x). by rewrite !names_of_slash, names_of_plain.
Qed.

(** Nothing but uploads of users under [cwd]. *)
Record tidy (cwd : place) (fs : fsys) : Prop := mk_tidy {
  tidy_cwd : is_dir fs cwd = true;
  tidy_user uid : fs !! userDir cwd uid = None \/ fs !! userDir cwd uid = Some Dir;
  tidy_file uid name : plain name = true -> fs !! userFile cwd uid name <> Some Dir;
  tidy_parent uid name : plain name = true -> fs !! userDir cwd uid = None -> fs !! userFile cwd uid name = None }.

Definition contents (fs : fsys) (l : place) : string :=
  match fs !! l with Some (File content) => content | _ => "" end.

Lemma exists_saveDir cwd fs uid :
  tidy cwd fs -> exists_ fs cwd (saveDir uid) = is_dir fs (userDir cwd uid).
Proof.
  intros Ht. unfold exists_, resolve. replace (absolute (saveDir uid)) with false by (by rewrite saveDir_eq).
  rewrite names_of_dir. cbn [walk]. rewrite tidy_cwd by done. change (move cwd ".") with cwd. rewrite tidy_cwd by done.
  rewrite move_plain by apply plain_uid. fold (userDir cwd uid). rewrite is_dir_user.
  by destruct (tidy_user _ _ Ht uid) as [E|E]; rewrite E.
Qed.

Lemma create_saveDir cwd fs uid :
  tidy cwd fs -> create_directories fs cwd (saveDir uid) = Some (<[userDir cwd uid := Dir]> fs).
Proof.
  intros Ht. unfold create_directories. replace (absolute (saveDir uid)) with false by (by rewrite saveDir_eq).
  rewrite names_of_dir. cbn [create_dirs]. change (move cwd ".") with cwd. rewrite tidy_cwd by done.
  rewrite move_plain by apply plain_uid. fold (userDir cwd uid). rewrite is_dir_user.
  destruct (tidy_user _ _ Ht uid) as [E|E]; rewrite E; [done|]. rewrite bool_decide_eq_true_2 by done.
  by rewrite insert_id.
Qed.

Lemma open_userFile cwd fs uid name :
  tidy cwd fs -> plain name = true ->
  let fs1 := <[userDir cwd uid := Dir]> fs in
  open_append fs1 cwd (path_join (saveDir uid) name) =
    Some (userFile cwd uid name, <[userFile cwd uid name := File (contents fs (userFile cwd uid name))]> fs1).
Proof.
  intros Ht Hn. cbv zeta. unfold open_append, resolve.
  replace (absolute _) with false by (rewrite saveFile_eq by (by apply plain_spec); done).
  rewrite names_of_file by done. cbn [walk]. change (move cwd ".") with cwd.
  assert (forall x, is_dir (<[userDir cwd uid := x]> fs) cwd = true) as Hc.
  { intros x. pose proof (tidy_cwd _ _ Ht) as H. unfold is_dir in *. rewrite lookup_insert_ne; [done|].
    unfold userDir. intros E%(f_equal length). rewrite length_app in E. simpl in E. lia. }
  rewrite !Hc. rewrite move_plain by apply plain_uid. fold (userDir cwd uid).
  rewrite is_dir_user, lookup_insert_eq.
  rewrite bool_decide_eq_true_2 by done. cbn [mbind option_bind]. rewrite move_plain by done. fold (userFile cwd uid name).
  assert (userDir cwd uid <> userFile cwd uid name) as Hne.
  { unfold userFile. intros E%(f_equal length). rewrite length_app in E. simpl in E. lia. }
  rewrite is_dir_file, lookup_insert_ne by done.
  pose proof (tidy_file _ _ Ht uid name Hn) as Hf. rewrite bool_decide_eq_false_2 by done. unfold contents.
  destruct (fs !! userFile cwd uid name) as [[c|]|] eqn:E; [|congruence|done].
  rewrite (insert_id _ (userFile cwd uid name)); [done|]. by rewrite lookup_insert_ne.
Qed.

(** ** What a task does *)

Definition written (d : disk) (data : string) : string := String.substring 0 (d_room d) data.

(** Every branch of the lambda for a plain name. *)
Lemma Process_plain d cwd c uid fs :
  tidy cwd fs -> plain (ch_filename c) = true ->
  let l := userFile cwd uid (ch_filename c) in
  Process d cwd (mkUploadMessage (Some c) uid) fs =
    if negb (d_exists d) || negb (is_dir fs (userDir cwd uid) || d_create d) then fs
    else if negb (d_open d) then <[userDir cwd uid := Dir]> fs
    else <[l := File (contents fs l +:+ written d (ch_data c))]> (<[userDir cwd uid := Dir]> fs).
Proof.
  intros Ht Hp. cbv zeta. unfold Process. cbn [um_chunk um_user_id].
  assert (str_empty (ch_filename c) = false) as ->.
  { apply str_empty_false. intros E. destruct (plain_spec _ Hp) as [H _]. apply H. rewrite E. set_solver. }
  destruct (d_exists d); cbn [negb orb]; [|done]. rewrite exists_saveDir, create_saveDir by done.
  assert ((if is_dir fs (userDir cwd uid) then Some fs
           else if d_create d then Some (<[userDir cwd uid := Dir]> fs) else None) =
          if is_dir fs (userDir cwd uid) || d_create d then Some (<[userDir cwd uid := Dir]> fs) else None) as ->.
  { destruct (is_dir fs _) eqn:E; [|done]. rewrite is_dir_user in E. apply bool_decide_eq_true in E. cbn. by rewrite insert_id. }
  destruct (_ || _); cbn [negb]; [|done]. destruct (d_open d); cbn [negb]; [|done].
  rewrite open_userFile by done. unfold append. rewrite lookup_insert_eq, insert_insert_eq. done.
Qed.

Lemma userDir_ne_file cwd uid uid' name : userDir cwd uid <> userFile cwd uid' name.
Proof. unfold userFile, userDir. intros E%(f_equal length). rewrite !length_app in E. simpl in E. lia. Qed.

Lemma userDir_inj cwd uid uid' : userDir cwd uid = userDir cwd uid' -> uid = uid'.
Proof. unfold userDir. intros [= E]%app_inv_head. by apply pretty_Z_inj. Qed.

Lemma userFile_inj cwd uid uid' name name' :
  userFile cwd uid name = userFile cwd uid' name' -> uid = uid' /\ name = name'.
Proof.
  unfold userFile. intros [E [= ->]]%app_inj_tail. split; [|done]. by apply (userDir_inj cwd).
Qed.

Lemma userDir_ne_cwd cwd uid : userDir cwd uid <> cwd.
Proof. unfold userDir. intros E%(f_equal length). rewrite length_app in E. simpl in E. lia. Qed.

Lemma userFile_ne_cwd cwd uid name : userFile cwd uid name <> cwd.
Proof. unfold userFile, userDir. intros E%(f_equal length). rewrite !length_app in E. simpl in E. lia. Qed.

Lemma tidy_dir cwd fs uid : tidy cwd fs -> tidy cwd (<[userDir cwd uid := Dir]> fs).
Proof.
  intros [H1 H2 H3 H4]. split.
  - unfold is_dir in *. rewrite lookup_insert_ne by apply userDir_ne_cwd. done.
  - intros uid'. destruct (decide (uid = uid')) as [->|Hne]; [rewrite lookup_insert_eq; by right|].
    rewrite lookup_insert_ne; [done|]. by intros E%userDir_inj.
  - intros uid' name Hn. rewrite lookup_insert_ne by apply userDir_ne_file. auto.
  - intros uid' name Hn E. rewrite lookup_insert_ne by apply userDir_ne_file. apply H4; [done|].
    destruct (decide (uid = uid')) as [->|Hne]; [by rewrite lookup_insert_eq in E|].
    rewrite lookup_insert_ne in E; [done|]. by intros ->%userDir_inj.
Qed.

Lemma tidy_write cwd fs uid name content :
  tidy cwd fs -> fs !! userDir cwd uid = Some Dir -> tidy cwd (<[userFile cwd uid name := File content]> fs).
Proof.
  intros [H1 H2 H3 H4] Hd. split.
  - unfold is_dir in *. rewrite lookup_insert_ne by apply userFile_ne_cwd. done.
  - intros uid'. rewrite lookup_insert_ne by (apply not_eq_sym, userDir_ne_file). done.
  - intros uid' name' Hn. destruct (decide (userFile cwd uid name = userFile cwd uid' name')) as [<-|Hne];
      [by rewrite lookup_insert_eq|]. rewrite lookup_insert_ne by done. auto.
  - intros uid' name' Hn. rewrite lookup_insert_ne by (apply not_eq_sym, userDir_ne_file). intros E.
    rewrite lookup_insert_ne; [by apply H4|]. intros [-> _]%userFile_inj. congruence.
Qed.

(** A request for the file system as its users know it: a plain name, or
    nothing to do. *)
Definition well_named (request : UploadMessage) : bool :=
  match um_chunk request with
  | Some c => str_empty (ch_filename c) || plain (ch_filename c)
  | None => true
  end.

Definition is_for (uid : Z) (name : string) (request : UploadMessage) : bool :=
  match um_chunk request with
  | Some c => (um_user_id request =? uid) && bool_decide (ch_filename c = name)
  | None => false
  end.

Definition data_of (request : UploadMessage) : string :=
  match um_chunk request with Some c => ch_data c | None => "" end.

Definition good (d : disk) (request : UploadMessage) : bool :=
  d_exists d && d_create d && d_open d && (String.length (data_of request) <=? d_room d)%nat.

Definition str_prefix (p s : string) : Prop := exists t, s = p +:+ t.

Lemma substring_prefix n s : str_prefix (String.substring 0 n s) s.
Proof.
  revert n. induction s as [|c s IH]; intros [|n]; try (by exists (String c s)); try (by exists "").
  destruct (IH n) as [t E]. exists t. cbn. by rewrite E at 1.
Qed.

Lemma substring_all n s : (String.length s <= n)%nat -> String.substring 0 n s = s.
Proof. revert n. induction s as [|c s IH]; intros [|n] H; simpl in *; [done|done|lia|]. f_equal. apply IH. lia. Qed.

Lemma string_app_nil_r s : s +:+ "" = s.
Proof. induction s as [|c s IH]; [done|]. change (String c (s +:+ "") = String c s). by rewrite IH. Qed.

Lemma string_app_assoc a b c : (a +:+ b) +:+ c = a +:+ b +:+ c.
Proof.
  induction a as [|x a IH]; [done|]. change (String x ((a +:+ b) +:+ c) = String x (a +:+ b +:+ c)). by rewrite IH.
Qed.

(** What a task adds to its file. *)
Definition added (d : disk) (cwd : place) (request : UploadMessage) (fs : fsys) : string :=
  match um_chunk request with
  | Some c =>
      if d_exists d && (is_dir fs (userDir cwd (um_user_id request)) || d_create d) && d_open d
      then written d (ch_data c) else ""
  | None => ""
  end.

Lemma added_prefix d cwd request fs : str_prefix (added d cwd request fs) (data_of request).
Proof.
  unfold added, data_of. destruct (um_chunk request) as [c|]; [|by exists ""].
  destruct (_ && _); [apply substring_prefix|by eexists].
Qed.

Lemma added_good d cwd request fs : good d request = true -> added d cwd request fs = data_of request.
Proof.
  unfold good, added, data_of. intros [[[-> ->]%andb_true_iff ->]%andb_true_iff Hn%Nat.leb_le]%andb_true_iff.
  destruct (um_chunk request) as [c|]; [|done]. rewrite orb_true_r. by apply substring_all.
Qed.

(** One task adds that to its file and leaves every other file and place. *)
Lemma Process_spec d cwd request fs :
  tidy cwd fs -> well_named request = true ->
  let fs' := Process d cwd request fs in
  tidy cwd fs' /\
  (forall uid name, plain name = true ->
    contents fs' (userFile cwd uid name) =
      contents fs (userFile cwd uid name) +:+ (if is_for uid name request then added d cwd request fs else "")) /\
  (forall l, (forall uid, l <> userDir cwd uid) -> (forall uid name, l <> userFile cwd uid name) -> fs' !! l = fs !! l).
Proof.
  intros Ht Hw. cbv zeta. destruct request as [[c|] uid]; unfold well_named, is_for, added in *; cbn [um_chunk um_user_id] in *.
  2: { split_and!; [done| |done]. intros uid' name _. by rewrite string_app_nil_r. }
  destruct (str_empty (ch_filename c)) eqn:Ee.
  { apply str_empty_true in Ee. assert (Process d cwd (mkUploadMessage (Some c) uid) fs = fs) as ->.
    { unfold Process. cbn. by rewrite Ee. }
    split_and!; [done| |done]. intros uid' name Hn. rewrite Ee. destruct (plain_spec _ Hn) as [Hn' _].
    rewrite (bool_decide_eq_false_2 ("" = name)) by set_solver. by rewrite andb_false_r, string_app_nil_r. }
  rewrite Process_plain by done. destruct (d_exists d); cbn [negb orb andb].
  2: { split_and!; [done| |done]. intros uid' name _. by rewrite Tauto.if_same, string_app_nil_r. }
  destruct (is_dir fs (userDir cwd uid) || d_create d); cbn [negb orb andb].
  2: { split_and!; [done| |done]. intros uid' name _. by rewrite Tauto.if_same, string_app_nil_r. }
  assert (forall uid' name, contents (<[userDir cwd uid := Dir]> fs) (userFile cwd uid' name) =
    contents fs (userFile cwd uid' name)) as Hc.
  { intros uid' name. unfold contents. by rewrite lookup_insert_ne by apply userDir_ne_file. }
  destruct (d_open d); cbn [negb].
  2: { split_and!; [by apply tidy_dir| |].
    - intros uid' name _. by rewrite Tauto.if_same, string_app_nil_r.
    - intros l Hl _. rewrite lookup_insert_ne; [done|]. intros <-. by apply (Hl uid). }
  split_and!.
  - apply tidy_write; [by apply tidy_dir|by rewrite lookup_insert_eq].
  - intros uid' name Hn. destruct ((uid =? uid') && bool_decide (ch_filename c = name)) eqn:E.
    + boolp. subst. unfold contents at 1. by rewrite lookup_insert_eq.
    + rewrite string_app_nil_r, <-(Hc uid' name). unfold contents. rewrite lookup_insert_ne; [done|].
      intros [E1 E2]%userFile_inj. subst. by rewrite Z.eqb_refl, bool_decide_eq_true_2 in E.
  - intros l Hl Hf. rewrite !lookup_insert_ne; [done|intros <-; by apply (Hl uid)|intros <-; by apply (Hf uid (ch_filename c))].
Qed.

(** ** Runs *)

(** Every [n]-th element from the [i]-th. *)
Definition share {A} (n i : nat) (l : list A) : list A :=
  snd <$> filter (fun p => p.1 `mod` n = i)%nat (zip (seq 0 (length l)) l).

Lemma share_snoc {A} n i (l : list A) x :
  share n i (l ++ [x]) = share n i l ++ (if decide (length l `mod` n = i)%nat then [x] else []).
Proof.
  unfold share. rewrite length_app, seq_app. simpl. rewrite zip_with_app by by rewrite length_seq.
  rewrite filter_app, fmap_app. f_equal. cbn [zip_with]. rewrite filter_cons. cbn [fst]. by destruct (decide _).
Qed.

Lemma filter_all {A} (P : A -> Prop) `{!forall x, Decision (P x)} l : Forall P l -> filter P l = l.
Proof. induction 1 as [|x l Hx _ IH]; [done|]. by rewrite filter_cons, decide_True, IH. Qed.

Definition done_by (i : nat) (ps : list (nat * (disk * UploadMessage))) : list UploadMessage :=
  (fun p => p.2.2) <$> filter (fun p => p.1 = i) ps.

Lemma done_by_snoc i ps j d q :
  done_by i (ps ++ [(j, (d, q))]) = done_by i ps ++ (if decide (j = i) then [q] else []).
Proof. unfold done_by. rewrite filter_app, fmap_app, filter_cons. cbn [fst]. by destruct (decide _). Qed.

Definition uploads (es : list file_event) : list UploadMessage :=
  omap (fun e => match e with FUpload q => Some q | _ => None end) es.

Definition given (i : nat) (ps : list (nat * UploadMessage)) : list UploadMessage :=
  snd <$> filter (fun p => p.1 = i) ps.

Lemma given_snoc i ps j q : given i (ps ++ [(j, q)]) = given i ps ++ (if decide (j = i) then [q] else []).
Proof. unfold given. rewrite filter_app, fmap_app, filter_cons. cbn [fst]. by destruct (decide _). Qed.

(** Calls that have not reached a worker. *)
Definition before_push (p : pc) : bool := match p with Reading | Pushing _ => true | _ => false end.

Definition unpushed (cs : list call) : list UploadMessage := cl_task <$> filter (fun c => before_push (cl_at c) = true) cs.

#[local] Arguments unpushed _ : simpl never.

Lemma unpushed_cons c cs :
  unpushed (c :: cs) = (if before_push (cl_at c) then [cl_task c] else []) ++ unpushed cs.
Proof. unfold unpushed. rewrite filter_cons. by destruct (before_push (cl_at c)). Qed.

Lemma unpushed_app cs cs' : unpushed (cs ++ cs') = unpushed cs ++ unpushed cs'.
Proof. unfold unpushed. by rewrite filter_app, fmap_app. Qed.

Lemma unpushed_step cs k c p :
  cs !! k = Some c -> before_push (cl_at c) = before_push p -> unpushed (<[k := mkCall (cl_task c) p]> cs) = unpushed cs.
Proof.
  revert k. induction cs as [|c' cs IH]; intros [|k] E Hp; [done..| |]; cbn in E |- *; rewrite !unpushed_cons.
  - injection E as ->. cbn. by rewrite Hp.
  - f_equal. by apply IH.
Qed.

Lemma unpushed_push cs k c p :
  cs !! k = Some c -> before_push (cl_at c) = true -> before_push p = false ->
  cl_task c :: unpushed (<[k := mkCall (cl_task c) p]> cs) ≡ₚ unpushed cs.
Proof.
  revert k. induction cs as [|c' cs IH]; intros [|k] E Hc Hp; [done..| |]; cbn in E |- *; rewrite !unpushed_cons.
  - injection E as ->. cbn. by rewrite Hc, Hp.
  - rewrite <-(IH k E Hc Hp). apply Permutation_middle.
Qed.

Lemma tasks_kept (cs : list call) k c p : cs !! k = Some c -> cl_task <$> <[k := mkCall (cl_task c) p]> cs = cl_task <$> cs.
Proof.
  intros E. rewrite list_fmap_insert. simpl. apply list_insert_id. by rewrite list_lookup_fmap, E.
Qed.

(** Each worker has processed, or still has, what it was given; every upload was
    given to one worker or its call is on the way there. *)
Record shared (n : nat) (s : server) : Prop := mk_shared {
  sh_workers : length (workers s) = n;
  sh_given i w : workers s !! i = Some w -> done_by i (processed s) ++ tasks w = given i (pushed s);
  sh_index : Forall (fun x => x.1 < n)%nat (processed s);
  sh_pushed : Forall (fun x => x.1 < n)%nat (pushed s);
  sh_calls : (snd <$> pushed s) ++ unpushed (calls s) ≡ₚ cl_task <$> calls s }.

Lemma shared_start n fs : shared n (FileServiceImpl n fs).
Proof.
  split; simpl; [by rewrite length_replicate| |constructor..|done].
  intros i w [-> _]%lookup_replicate. done.
Qed.

Lemma upload_shared n q s : shared n s -> shared n (Upload q s).
Proof.
  intros [Hl Hg Hx Hp Hc]. split; simpl; [done..|].
  by rewrite unpushed_app, !fmap_app, app_assoc, Hc.
Qed.

Lemma push_shared n k i c w s :
  shared n s -> calls s !! k = Some c -> cl_at c = Pushing i -> workers s !! i = Some w ->
  shared n (with_calls (<[k := mkCall (cl_task c) Counting]> (calls s))
    (give i (cl_task c) (with_workers (<[i := push (cl_task c) w]> (workers s)) s))).
Proof.
  intros [Hl Hg Hx Hp Hc] Ec Ep Ew. pose proof (lookup_lt_Some _ _ _ Ew) as Hlt.
  split; simpl; [by rewrite length_insert| |done| |].
  - intros j w'. rewrite given_snoc. destruct (decide (i = j)) as [<-|Hne].
    + rewrite list_lookup_insert_eq by done. intros [= <-]. simpl. by rewrite app_assoc, (Hg _ _ Ew).
    + rewrite list_lookup_insert_ne, app_nil_r by done. apply Hg.
  - apply Forall_app. split; [done|]. repeat constructor. simpl. lia.
  - rewrite fmap_app, tasks_kept, <-app_assoc, <-Hc by done. apply Permutation_app_head. simpl.
    apply unpushed_push; [done|by rewrite Ep|done].
Qed.

Lemma proceed_shared n k s : shared n s -> shared n (proceed k s).
Proof.
  intros Hs. pose proof Hs as [Hl Hg Hx Hp Hc]. unfold proceed. destruct (calls s !! k) as [c|] eqn:Ec; [|done].
  assert (forall p s', before_push (cl_at c) = before_push p -> workers s' = workers s -> processed s' = processed s ->
    pushed s' = pushed s -> shared n (with_calls (<[k := mkCall (cl_task c) p]> (calls s)) s')) as Hkeep.
  { intros p s' Eb Ew Ep Eg. split; simpl; rewrite ?Ew, ?Ep, ?Eg; [done..|]. by rewrite tasks_kept, unpushed_step. }
  destruct (cl_at c) as [|i| |v| | |] eqn:Ea; simpl; try (by apply Hkeep).
  - destruct (workers s !! i) as [w|] eqn:Ew; [by apply push_shared|by apply Hkeep].
  - apply Hkeep; [|done..]. by destruct (_ <=? _)%nat.
Qed.

Lemma work_shared n d cwd i s : shared n s -> shared n (work d cwd i s).
Proof.
  intros [Hl Hg Hx Hp Hc]. unfold work. destruct (workers s !! i) as [[[|task rest] []]|] eqn:Ei; try done.
  pose proof (lookup_lt_Some _ _ _ Ei) as Hlt. split; simpl; [by rewrite length_insert| | |done..].
  2: { apply Forall_app. split; [done|]. constructor; [simpl; lia|constructor]. }
  intros j w Hj. rewrite done_by_snoc. destruct (decide (i = j)) as [<-|Hne].
  - rewrite list_lookup_insert_eq in Hj by lia. injection Hj as <-. rewrite <-app_assoc. apply (Hg _ _ Ei).
  - rewrite list_lookup_insert_ne in Hj by done. rewrite app_nil_r. by apply Hg.
Qed.

Lemma stop_shared n i s : shared n s -> shared n (stop_worker i s).
Proof.
  intros [Hl Hg Hx Hp Hc]. unfold stop_worker. destruct (workers s !! i) as [w|] eqn:Ei; [|done].
  pose proof (lookup_lt_Some _ _ _ Ei) as Hlt. split; simpl; [by rewrite length_insert| |done..].
  intros j w' Hj. destruct (decide (i = j)) as [<-|Hne].
  - rewrite list_lookup_insert_eq in Hj by lia. injection Hj as <-. by apply (Hg i w).
  - rewrite list_lookup_insert_ne in Hj by done. by apply Hg.
Qed.

Lemma step_shared n cwd e s : shared n s -> shared n (file_step cwd e s).
Proof. destruct e; [apply upload_shared|apply proceed_shared|apply work_shared|apply stop_shared]. Qed.

Lemma run_shared n cwd es s : shared n s -> shared n (file_run cwd es s).
Proof. revert s. induction es as [|e es IH]; intros s Hs; [done|]. by apply IH, step_shared. Qed.

Lemma proceed_same k s :
  files (proceed k s) = files s /\ processed (proceed k s) = processed s /\
  cl_task <$> calls (proceed k s) = cl_task <$> calls s.
Proof.
  unfold proceed. destruct (calls s !! k) as [c|] eqn:Ec; [|done].
  destruct (cl_at c) as [|i| | | | |]; simpl; try (by rewrite tasks_kept).
  destruct (workers s !! i); simpl; by rewrite tasks_kept.
Qed.

Lemma run_calls cwd es s : cl_task <$> calls (file_run cwd es s) = (cl_task <$> calls s) ++ uploads es.
Proof.
  revert s. induction es as [|e es IH]; intros s; [by rewrite app_nil_r|].
  change (file_run cwd (e :: es) s) with (file_run cwd es (file_step cwd e s)). rewrite IH. destruct e as [q|k|d i|i]; simpl.
  - by rewrite fmap_app, <-app_assoc.
  - by destruct (proceed_same k s) as (_ & _ & ->).
  - unfold work. by destruct (workers s !! i) as [[[|] []]|].
  - unfold stop_worker. by destruct (workers s !! i).
Qed.

(** ** Calls that do not overlap *)

Definition in_progress (c : call) : Prop := cl_at c <> Returned.

#[export] Instance in_progress_dec c : Decision (in_progress c).
Proof. unfold in_progress. destruct (cl_at c); [left|left|left|left|left|left|right]; congruence. Defined.

(** At no moment of the run are two calls in progress. *)
Definition one_at_a_time (cwd : place) (es : list file_event) (s : server) : Prop :=
  forall es1 es2, es = es1 ++ es2 -> (length (filter in_progress (calls (file_run cwd es1 s))) <= 1)%nat.

(** Where the counter is when [k] uploads have reached a worker and the last
    call is at [p]. *)
Definition counted (n k : nat) (p : pc) (r : nat) : Prop :=
  match p with
  | Reading | Returned => r = k `mod` n
  | Pushing i => r = k `mod` n /\ i = r
  | Counting => exists j, k = S j /\ r = j `mod` n
  | Storing v => exists j, k = S j /\ r = j `mod` n /\ v = S r
  | Comparing => exists j, k = S j /\ r = S (j `mod` n)
  | Resetting => exists j, k = S j /\ r = S (j `mod` n) /\ (n <= r)
  end%nat.

(** All calls but the last have returned, and the workers were given the uploads
    in turn. *)
Record serial (n : nat) (past : list call) (p : pc) (s : server) : Prop := mk_serial {
  se_calls : calls s = past /\ p = Returned \/ exists q, calls s = past ++ [mkCall q p];
  se_past : Forall (fun c => cl_at c = Returned) past;
  se_count : counted n (length (pushed s)) p (routeCount s);
  se_order : (snd <$> pushed s) ++ unpushed (calls s) = cl_task <$> calls s;
  se_turns : (fst <$> pushed s) = (fun j => j `mod` n)%nat <$> seq 0 (length (pushed s));
  se_inside : astray s = false }.

Lemma mod_next n j : (0 < n)%nat -> (S j `mod` n = (if n <=? S (j `mod` n) then 0 else S (j `mod` n)))%nat.
Proof.
  intros Hn. destruct (n <=? _)%nat eqn:E; [apply Nat.leb_le in E|apply Nat.leb_gt in E].
  - pose proof (Nat.mod_upper_bound j n ltac:(lia)).
    replace (S j)%nat with (n * S (j / n))%nat; [by rewrite Nat.mul_comm, Nat.Div0.mod_mul|].
    pose proof (Nat.div_mod_eq j n). nia.
  - replace (S j)%nat with (j + 1)%nat by lia. rewrite Nat.Div0.add_mod, (Nat.mod_small 1 n) by lia.
    rewrite (Nat.mod_small (_ + 1)); lia.
Qed.

Lemma unpushed_returned cs : Forall (fun c => cl_at c = Returned) cs -> unpushed cs = [].
Proof.
  unfold unpushed. induction 1 as [|c cs E _ IH]; [done|]. rewrite filter_cons, E. simpl. exact IH.
Qed.

Lemma no_progress cs : filter in_progress cs = [] -> Forall (fun c => cl_at c = Returned) cs.
Proof.
  induction cs as [|c cs IH]; [constructor|]. rewrite filter_cons. destruct (decide (in_progress c)) as [|H]; [done|].
  intros E. constructor; [|auto]. unfold in_progress in H. destruct (cl_at c); [exfalso; by apply H..|done].
Qed.

Lemma upload_serial n past p q s :
  serial n past p s -> (length (filter in_progress (calls (Upload q s))) <= 1)%nat -> serial n (calls s) Reading (Upload q s).
Proof.
  intros [Hc Hp Hr Ho Ht Hi] Hone. simpl in Hone. rewrite filter_app, length_app, filter_cons in Hone. cbn [cl_at] in Hone.
  rewrite decide_True in Hone by done. simpl in Hone.
  assert (Forall (fun c => cl_at c = Returned) (calls s)) as Hall.
  { apply no_progress. destruct (filter _ (calls s)); simpl in *; [done|lia]. }
  split; simpl; [right; by exists q|done| | |done..].
  - assert (p = Returned) as ->; [|exact Hr]. destruct Hc as [[_ ->]|[q' E]]; [done|]. rewrite E in Hall.
    apply Forall_app in Hall as [_ Hall]. by apply Forall_cons in Hall as [? _].
  - by rewrite unpushed_app, fmap_app, app_assoc, Ho.
Qed.

(** A step of the call in progress. *)
Lemma turn_serial n past q p s : (0 < n)%nat -> length (workers s) = n ->
  serial n past p s -> calls s = past ++ [mkCall q p] ->
  let '(p', s') := PushTask q p s in serial n past p' (with_calls (past ++ [mkCall q p']) s').
Proof.
  intros Hn Hl [_ Hp Hr Ho Ht Hi] Ec. rewrite Ec in Ho.
  rewrite unpushed_app, unpushed_returned, unpushed_cons, fmap_app in Ho by done. cbn in Ho.
  assert (forall p', unpushed (past ++ [mkCall q p']) = if before_push p' then [q] else []) as Hu.
  { intros p'. rewrite unpushed_app, unpushed_returned, unpushed_cons by done. apply app_nil_r. }
  assert (forall p' s', before_push p = before_push p' -> pushed s' = pushed s -> astray s' = astray s ->
    counted n (length (pushed s)) p' (routeCount s') -> serial n past p' (with_calls (past ++ [mkCall q p']) s')) as Hkeep.
  { intros p' s' Eb Eg Ea Hc. split; simpl; rewrite ?Eg, ?Ea; [right; by exists q|done..| |done|done].
    rewrite Hu, fmap_app, <-Eb. cbn. by rewrite app_nil_r in Ho. }
  destruct p as [|i| |v| | |]; simpl in Hr |- *.
  - by apply Hkeep.
  - destruct Hr as [Hr ->]. destruct (lookup_lt_is_Some_2 (workers s) (routeCount s)) as [w Ew].
    { rewrite Hl, Hr. apply Nat.mod_upper_bound. lia. }
    rewrite Ew.
    split; simpl; [right; by exists q|done| | | |done].
    + exists (length (pushed s)). rewrite length_app. simpl. split; [lia|done].
    + rewrite Hu, !fmap_app. cbn. rewrite app_nil_r. exact Ho.
    + rewrite length_app, fmap_app, Ht, seq_app, fmap_app. simpl. by rewrite Hr.
  - apply Hkeep; [done..|]. destruct Hr as (j & ? & ->). by exists j.
  - apply Hkeep; [done..|]. destruct Hr as (j & ? & -> & ->). by exists j.
  - destruct Hr as (j & Hk & Hr). rewrite Hl. destruct (n <=? routeCount s)%nat eqn:E.
    + apply Hkeep; [done..|]. exists j. split_and!; [done..|]. by apply Nat.leb_le.
    + apply Hkeep; [done..|]. simpl. rewrite Hk, mod_next, <-Hr, E by done. done.
  - apply Hkeep; [done..|]. destruct Hr as (j & Hk & Hr & Hle). simpl. rewrite Hk, mod_next, <-Hr by done.
    by apply Nat.leb_le in Hle as ->.
  - by apply Hkeep.
Qed.

Lemma proceed_returned k c s : calls s !! k = Some c -> cl_at c = Returned -> proceed k s = s.
Proof.
  intros E Ea. unfold proceed. rewrite E, Ea. simpl. rewrite list_insert_id; [by destruct s|]. rewrite E. destruct c. by simplify_eq/=.
Qed.

(** The call that came last. *)
Lemma proceed_last cs q p s :
  calls s = cs ++ [mkCall q p] ->
  proceed (length cs) s = let '(p', s') := PushTask q p s in with_calls (cs ++ [mkCall q p']) s'.
Proof.
  intros E. unfold proceed. rewrite E, lookup_app_r, Nat.sub_diag by done. cbn [lookup list_lookup cl_task cl_at].
  destruct (PushTask q p s). by rewrite insert_app_r_alt, Nat.sub_diag by done.
Qed.

Lemma proceed_serial n past p k s :
  (0 < n)%nat -> length (workers s) = n -> serial n past p s -> exists p', serial n past p' (proceed k s).
Proof.
  intros Hn Hl Hs. destruct (calls s !! k) as [c|] eqn:Ek.
  2: { exists p. unfold proceed. by rewrite Ek. }
  assert (c ∈ past -> exists p', serial n past p' (proceed k s)) as Hpast.
  { intros Hin. exists p. pose proof (se_past _ _ _ _ Hs) as Ha. rewrite Forall_forall in Ha.
    by rewrite (proceed_returned _ _ _ Ek (Ha _ Hin)). }
  destruct (se_calls _ _ _ _ Hs) as [[E _]|[q E]]; pose proof Ek as Ek'; rewrite E in Ek'.
  { apply Hpast. by eapply list_elem_of_lookup_2. }
  apply lookup_app_Some in Ek' as [Ek'|[Hle Ek']]; [apply Hpast; by eapply list_elem_of_lookup_2|].
  assert (k = length past) as ->.
  { apply lookup_lt_Some in Ek'. simpl in Ek'. lia. }
  pose proof (turn_serial n past q p s Hn Hl Hs E) as Ht. rewrite (proceed_last past q p s E).
  destruct (PushTask q p s) as [p' s']. by exists p'.
Qed.

Lemma run_serial n cwd fs es : (0 < n)%nat ->
  one_at_a_time cwd es (FileServiceImpl n fs) -> exists past p, serial n past p (file_run cwd es (FileServiceImpl n fs)).
Proof.
  intros Hn. induction es as [|e es IH] using rev_ind; intros Hone.
  { exists [], Returned. split; simpl; [by left|constructor|by rewrite Nat.Div0.mod_0_l|done..]. }
  destruct IH as (past & p & Hs). { intros es1 es2 E. apply (Hone es1 (es2 ++ [e])). by rewrite E, app_assoc. }
  pose proof (sh_workers _ _ (run_shared n cwd es _ (shared_start n fs))) as Hl.
  pose proof (Hone (es ++ [e]) [] ltac:(by rewrite app_nil_r)) as H1.
  unfold file_run in *. rewrite foldl_snoc in *. fold (file_run cwd es (FileServiceImpl n fs)) in *.
  destruct e as [q|k|d i|i]; simpl in *.
  - eexists _, _. by apply (upload_serial n past p).
  - exists past. by apply (proceed_serial n past p).
  - exists past, p. destruct Hs. unfold work. by destruct (workers _ !! i) as [[[|] []]|].
  - exists past, p. destruct Hs. unfold stop_worker. by destruct (workers _ !! i).
Qed.

(** The uploads a worker gets in turn. *)
Lemma given_share n i (ps : list (nat * UploadMessage)) :
  (fst <$> ps) = (fun j => j `mod` n)%nat <$> seq 0 (length ps) -> given i ps = share n i (snd <$> ps).
Proof.
  induction ps as [|[j q] ps IH] using rev_ind; [done|].
  rewrite !fmap_app, length_app, seq_app, fmap_app. simpl. intros [E [= ->]]%app_inj_tail.
  rewrite given_snoc, share_snoc, IH, length_fmap by done. done.
Qed.

(** One piece per processed request for the file, in the order of processing. *)
Definition piece_of (p : string) (x : nat * (disk * UploadMessage)) : Prop :=
  str_prefix p (data_of x.2.2) /\ (good x.2.1 x.2.2 = true -> p = data_of x.2.2).

Definition written_from (cwd : place) (fs : fsys) (s : server) : Prop :=
  tidy cwd (files s) /\
  (forall uid name, plain name = true ->
    exists ps, Forall2 piece_of ps (filter (fun x => is_for uid name x.2.2 = true) (processed s)) /\
      contents (files s) (userFile cwd uid name) = contents fs (userFile cwd uid name) +:+ String.concat "" ps) /\
  (forall l, (forall uid, l <> userDir cwd uid) -> (forall uid name, l <> userFile cwd uid name) -> files s !! l = fs !! l).

Lemma concat_snoc ps p : String.concat "" (ps ++ [p]) = String.concat "" ps +:+ p.
Proof.
  induction ps as [|q ps IH]; [simpl; done|]. destruct ps as [|q' ps]; [simpl; done|].
  change (String.concat "" ((q :: q' :: ps) ++ [p])) with (q +:+ String.concat "" ((q' :: ps) ++ [p])).
  rewrite IH. change (String.concat "" (q :: q' :: ps)) with (q +:+ String.concat "" (q' :: ps)). by rewrite string_app_assoc.
Qed.

Lemma work_written cwd fs d i s :
  written_from cwd fs s -> (forall w, w ∈ workers s -> Forall (fun q => well_named q = true) (tasks w)) ->
  written_from cwd fs (work d cwd i s).
Proof.
  intros (Ht & Hf & Ho) Hq. unfold work. destruct (workers s !! i) as [[[|task rest] []]|] eqn:Ei; try (by split_and!).
  assert (well_named task = true) as Hw.
  { specialize (Hq _ (list_elem_of_lookup_2 _ _ _ Ei)). simpl in Hq. by apply Forall_cons in Hq as [? _]. }
  destruct (Process_spec d cwd task (files s) Ht Hw) as (Ht' & Hf' & Ho'). split_and!; simpl.
  - done.
  - intros uid name Hn. destruct (Hf uid name Hn) as (ps & Hps & E). rewrite Hf', E by done.
    rewrite filter_app, filter_cons. cbn [snd]. destruct (is_for uid name task).
    + rewrite decide_True by done. exists (ps ++ [added d cwd task (files s)]). split.
      * apply Forall2_app; [done|]. constructor; [|constructor]. split; [apply added_prefix|apply added_good].
      * by rewrite concat_snoc, string_app_assoc.
    + rewrite decide_False by done. exists ps. by rewrite app_nil_r, string_app_nil_r.
  - intros l Hl Hl'. by rewrite Ho', Ho.
Qed.

(** What the workers have still to process was uploaded. *)
Lemma tasks_named n s :
  shared n s -> Forall (fun q => well_named q = true) (cl_task <$> calls s) ->
  forall w, w ∈ workers s -> Forall (fun q => well_named q = true) (tasks w).
Proof.
  intros [Hl Hg Hx Hp Hc] Hall w [i Ew]%list_elem_of_lookup. rewrite <-Hc in Hall. apply Forall_app in Hall as [Hall _].
  pose proof (Hg _ _ Ew) as E. apply (f_equal (Forall (fun q => well_named q = true))) in E.
  assert (Forall (fun q => well_named q = true) (given i (pushed s))) as Hi.
  { unfold given. rewrite Forall_forall in *. intros q ([j q'] & -> & [_ Hin]%list_elem_of_filter)%list_elem_of_fmap.
    apply Hall, list_elem_of_fmap. eauto. }
  rewrite <-E in Hi. by apply Forall_app in Hi as [_ ?].
Qed.

Lemma run_written n cwd fs es s :
  shared n s -> written_from cwd fs s ->
  Forall (fun q => well_named q = true) ((cl_task <$> calls s) ++ uploads es) -> written_from cwd fs (file_run cwd es s).
Proof.
  induction es as [|e es IH] using rev_ind; intros Hs Hw He; [done|].
  unfold uploads in He. rewrite omap_app, app_assoc in He. fold (uploads es) in He. apply Forall_app in He as [He _].
  unfold file_run. rewrite foldl_snoc. fold (file_run cwd es s). specialize (IH Hs Hw He).
  destruct e as [q|k|d i|i]; simpl; [exact IH| | |].
  - unfold written_from. destruct (proceed_same k (file_run cwd es s)) as (-> & -> & _). exact IH.
  - apply work_written; [done|]. apply (tasks_named n); [by apply run_shared|by rewrite run_calls].
  - unfold stop_worker. by destruct (workers _ !! i).
Qed.

Lemma start_written cwd n fs : tidy cwd fs -> written_from cwd fs (FileServiceImpl n fs).
Proof.
  intros Ht. split_and!; [done| |done]. intros uid name _. exists []. split; [constructor|]. by rewrite string_app_nil_r.
Qed.

(** C35: uploads, in any interleaving of the steps of the calls of [Upload],
    overlapping ones included, turns and ends of workers, and any failures of
    the disk, for plain file names.  As long as no call has indexed the workers
    out of range (what follows that is undefined): every upload was given to one
    worker or its call is on the way there; each worker has processed, or still
    queues, exactly what it was given, in order; a file is what it was, followed
    by one piece for each processed upload for it in the order of processing, a
    prefix of its data and all of it when its calls succeed; every other place
    is as it was.  When calls do not overlap, none indexes out of range, the
    uploads reach workers in the order of the calls, and worker [i] of [n] is
    given every [n]-th from the [i]-th on; when they do, one can
    ([push_astray]). *)
Theorem uploads_written n cwd fs es :
  (0 < n)%nat -> tidy cwd fs -> Forall (fun q => well_named q = true) (uploads es) ->
  let s := file_run cwd es (FileServiceImpl n fs) in
  (one_at_a_time cwd es (FileServiceImpl n fs) ->
    astray s = false /\ (snd <$> pushed s) ++ unpushed (calls s) = uploads es /\
    forall i, given i (pushed s) = share n i (snd <$> pushed s)) /\
  (astray s = false ->
    (snd <$> pushed s) ++ unpushed (calls s) ≡ₚ uploads es /\
    Forall (fun x => x.1 < length (workers s))%nat (pushed s) /\
    (forall i w, workers s !! i = Some w -> done_by i (processed s) ++ tasks w = given i (pushed s)) /\
    (forall uid name, plain name = true ->
      exists ps, Forall2 piece_of ps (filter (fun x => is_for uid name x.2.2 = true) (processed s)) /\
        contents (files s) (userFile cwd uid name) = contents fs (userFile cwd uid name) +:+ String.concat "" ps) /\
    (forall l, (forall uid, l <> userDir cwd uid) -> (forall uid name, l <> userFile cwd uid name) -> files s !! l = fs !! l)).
Proof.
  intros Hn Ht He. cbv zeta. pose proof (run_shared n cwd es _ (shared_start n fs)) as Hs.
  pose proof (run_calls cwd es (FileServiceImpl n fs)) as Hc. simpl in Hc. split.
  - intros (past & p & [_ _ _ Ho Htu Hi])%run_serial; [|done]. split_and!; [done|by rewrite Ho|].
    intros i. by apply given_share.
  - intros _. destruct (run_written n cwd fs es (FileServiceImpl n fs) (shared_start n fs) (start_written cwd n fs Ht) He) as (_ & Hf & Ho).
    destruct Hs as [Hl Hg _ Hp Hperm]. rewrite Hl. split_and!; [by rewrite Hperm, Hc|done..].
Qed.

(** With one worker the file is what it was, followed by the data in the order
    in which the calls came to the worker, once its queue is empty and when the
    disk was well. *)
Corollary one_worker_in_order cwd fs es uid name :
  tidy cwd fs -> Forall (fun q => well_named q = true) (uploads es) -> plain name = true ->
  let s := file_run cwd es (FileServiceImpl 1 fs) in
  Forall (fun w => tasks w = []) (workers s) -> Forall (fun x => good x.2.1 x.2.2 = true) (processed s) ->
  contents (files s) (userFile cwd uid name) =
    contents fs (userFile cwd uid name) +:+
    String.concat "" (data_of <$> filter (fun q => is_for uid name q = true) (snd <$> pushed s)).
Proof.
  intros Ht He Hp. cbv zeta. intros Hq Hg.
  pose proof (run_shared 1 cwd es _ (shared_start 1 fs)) as Hs.
  destruct (run_written 1 cwd fs es (FileServiceImpl 1 fs) (shared_start 1 fs) (start_written cwd 1 fs Ht) He) as (_ & Hf & _).
  destruct (Hf uid name Hp) as (ps & Hps & ->). f_equal. f_equal.
  revert Hs Hq Hg Hps. generalize (file_run cwd es (FileServiceImpl 1 fs)). intros s Hs Hq Hg Hps.
  destruct (lookup_lt_is_Some_2 (workers s) 0) as [w Ew]; [rewrite (sh_workers _ _ Hs); lia|].
  pose proof (sh_given _ _ Hs 0 w Ew) as Hd. rewrite Forall_forall in Hq.
  rewrite (Hq w), app_nil_r in Hd by (by eapply list_elem_of_lookup_2).
  unfold done_by, given in Hd. rewrite (filter_all _ (processed s)), (filter_all _ (pushed s)) in Hd;
    [|apply (Forall_impl _ _ _ (sh_pushed _ _ Hs)); simpl; intros; lia|apply (Forall_impl _ _ _ (sh_index _ _ Hs)); simpl; intros; lia].
  rewrite <-Hd. revert ps Hps. clear -Hg. induction (processed s) as [|x l IH]; intros ps Hps; [by apply Forall2_nil_inv_r in Hps as ->|].
  apply Forall_cons in Hg as [Hx Hg]. rewrite filter_cons in Hps. rewrite fmap_cons, filter_cons.
  destruct (decide (is_for uid name x.2.2 = true)); [|by apply IH].
  apply Forall2_cons_inv_r in Hps as (p & ps' & [_ Hgood] & Hps & ->). simpl. f_equal; [by apply Hgood|by apply IH].
Qed.

(** The answer comes first: nothing is written by then, and a stopped worker
    never writes what it has queued. *)
Lemma answered_first c s p s' :
  PushTask (cl_task c) (cl_at c) s = (p, s') -> p = Returned ->
  answer (mkCall (cl_task c) p) = Some empty_response /\ files s' = files s /\ processed s' = processed s.
Proof.
  intros E ->. split; [done|]. destruct (cl_at c); simpl in E; try (injection E as <-; done); try done.
  - by destruct (workers s !! index).
  - by destruct (_ <=? _)%nat; simplify_eq.
Qed.

#[local] Ltac unfold_step :=
  cbv beta iota delta [Upload PushTask with_calls with_route with_workers give go_astray workers routeCount files calls
    processed pushed astray].

(** A call with no step of another in between. *)
Lemma whole_run cwd q s w :
  workers s !! routeCount s = Some w ->
  file_run cwd (whole (length (calls s)) q) s =
    mkServer (<[routeCount s := push q w]> (workers s))
      (if length (workers s) <=? S (routeCount s) then 0 else S (routeCount s))%nat
      (files s) (calls s ++ [mkCall q Returned]) (processed s) (pushed s ++ [(routeCount s, q)]) (astray s).
Proof.
  destruct s as [ws r fs cs ps gs a]. intros Ew. cbn in Ew. unfold whole, file_run. cbn [foldl replicate file_step].
  unfold_step.
  do 5 (erewrite (proceed_last cs q _ (mkServer _ _ _ _ _ _ _)) by reflexivity; unfold_step; rewrite ?Ew, ?length_insert).
  destruct (length ws <=? S r)%nat; by (erewrite (proceed_last cs q _ (mkServer _ _ _ _ _ _ _)) by reflexivity; unfold_step).
Qed.

(** Two calls at a time: when the counter is at the last worker, a call that has
    counted and not yet compared lets the next one index out of range; one after
    the other they do not. *)
Theorem push_astray q1 q2 cwd s :
  calls s = [] -> astray s = false -> S (routeCount s) = length (workers s) ->
  astray (file_run cwd (whole 0 q1 ++ whole 1 q2) s) = false /\
  astray (file_run cwd ([FUpload q1] ++ replicate 4 (FProceed 0) ++ [FUpload q2; FProceed 1; FProceed 1]) s) = true.
Proof.
  intros Ec Ea Hr. destruct (lookup_lt_is_Some_2 (workers s) (routeCount s)) as [w Ew]; [lia|]. split.
  - unfold file_run. rewrite foldl_app. fold (file_run cwd (whole 0 q1) s). pose proof (whole_run cwd q1 s w Ew) as E.
    rewrite Ec in E. cbn [length] in E. rewrite E, (proj2 (Nat.leb_le _ _)) by lia. cbn [app].
    destruct (lookup_lt_is_Some_2 (<[routeCount s := push q1 w]> (workers s)) 0) as [w0 E0]; [rewrite length_insert; lia|].
    set (s' := mkServer _ _ _ _ _ _ _). pose proof (whole_run cwd q2 s' w0 E0) as E'. cbn [length calls s'] in E'.
    unfold file_run in E'. by rewrite E'.
  - destruct s as [ws r fs cs ps gs a]. cbn in *. subst cs a. unfold file_run. cbn [foldl replicate app file_step].
    unfold_step.
    repeat (erewrite (proceed_last [] q1 _ (mkServer _ _ _ _ _ _ _)) by reflexivity; unfold_step; rewrite ?Ew).
    repeat (erewrite (proceed_last [mkCall q1 Comparing] q2 _ (mkServer _ _ _ _ _ _ _)) by reflexivity; unfold_step).
    rewrite (proj2 (lookup_ge_None _ _)); [done|]. rewrite length_insert. lia.
Qed.

(** ** The end of a worker

    [~FileWorker] sets the flag and notifies without the mutex: between the
    moment the worker finds nothing to do and the moment it waits, the
    notification is lost. *)
Module Farewell.

Inductive worker := WTest | WLook | WGoing | WAsleep | WDone.
Inductive owner := DFlag | DNotify | DJoin | DDone.
Inductive who := Worker | Owner.

(** The queue is empty. *)
Record state := mkState { w_at : worker; o_at : owner; flag : bool }.

Definition step (x : who) (s : state) : option state :=
  let '(mkState w o f) := s in
  match x with
  | Worker =>
      match w with
      | WTest => Some (mkState (if f then WDone else WLook) o f)
      | WLook => Some (mkState (if f then WDone else WGoing) o f)
      | WGoing => Some (mkState WAsleep o f)
      | WAsleep | WDone => None
      end
  | Owner =>
      match o with
      | DFlag => Some (mkState w DNotify true)
      | DNotify => Some (mkState (match w with WAsleep => WLook | _ => w end) DJoin f)
      | DJoin => match w with WDone => Some (mkState w DDone f) | _ => None end
      | DDone => None
      end
  end.

Definition started : state := mkState WTest DFlag false.

Definition agreed (s : state) : Prop :=
  (flag s = true <-> o_at s <> DFlag) /\ (o_at s = DDone -> w_at s = WDone).

Lemma agreed_step x s s' : agreed s -> step x s = Some s' -> agreed s'.
Proof.
  intros Hs E. destruct x, s as [w o f]; unfold agreed in *; destruct w, o; simpl in *; simplify_eq; simpl; intuition congruence.
Qed.

(** Both threads end, or the worker sleeps for ever (unless it wakes for no
    reason) and the destructor waits for it.  The latter happens. *)
Theorem worker_ends_or_sleeps s :
  rtc (moves step) started s ->
  (stuck step s -> o_at s = DDone /\ w_at s = WDone \/ o_at s = DJoin /\ w_at s = WAsleep) /\
  (exists s', rtc (moves step) started s' /\ o_at s' = DJoin /\ w_at s' = WAsleep /\ stuck step s').
Proof.
  intros Hr. split.
  - intros Hstuck.
    assert (agreed s) as [_ Hd] by (revert Hr; apply (moves_invariant step agreed started s agreed_step); by repeat split).
    pose proof (Hstuck Worker) as HW. pose proof (Hstuck Owner) as HO.
    destruct s as [w o f]; destruct w, o; simpl in *; try done; auto; by specialize (Hd eq_refl).
  - exists (mkState WAsleep DJoin true). split; [|split; [done|split; [done|by intros []]]].
    by apply (schedule_moves step [Worker; Worker; Owner; Owner; Worker]).
Qed.
End Farewell.

(** ** [FileServer] *)

(** [service] is there while the server runs. *)
Record FileServer := mkFileServer { stopEnable : bool; workerSize : nat; service : option server }.

(** The limit is applied to the parameter, after the member was set from it. *)
Definition NewFileServer (size hardware_concurrency : nat) : FileServer * nat :=
  (mkFileServer true size None, if (hardware_concurrency <? size)%nat then hardware_concurrency else size).

Definition Run (fs : fsys) (f : FileServer) : FileServer :=
  mkFileServer false (workerSize f) (Some (FileServiceImpl (workerSize f) fs)).

(** The destructors of the workers run one after the other; the flag stays. *)
Definition Stop (f : FileServer) : FileServer :=
  mkFileServer (stopEnable f) (workerSize f) None.

Definition stopped (f : FileServer) : bool := stopEnable f.

(** A server that was stopped says that it is not, and has as many workers as
    it was asked for. *)
Lemma server_flags size cores fs :
  let f := (NewFileServer size cores).1 in
  stopped f = true /\ stopped (Stop (Run fs f)) = false /\
  exists s, service (Run fs f) = Some s /\ length (workers s) = size.
Proof. cbv zeta. split_and!; [done..|]. eexists. split; [done|]. simpl. by rewrite length_replicate. Qed.

(** ** The message node's side *)

(** [FileRpc::FileRpc]: without one of the three settings there is no pool. *)
Definition FileRpc (channels : option (list bool)) : option RpcPool := NewRpcPool <$> channels.

(** The chunk [FileService::Upload] builds: every other field has its default. *)
Definition message_of (q : UploadRequest) : UploadMessage :=
  mkUploadMessage (Some (mkFileChunk (up_seq q) 0 0 (up_image q) (up_data q) (up_filename q) "" "")) (up_user_id q).

(** [FileRpc::forwardUpload]; [None]: the missing pool is dereferenced. *)
Definition forwardUpload (rpc : UploadMessage -> upload_result) (req : UploadRequest) (pool : option RpcPool)
  : option (upload_result * option RpcPool) :=
  p ← pool;
  match GetConnection (channelQueue p) with
  | (None, q) => Some (UploadStatus false "No available connection", Some (mkRpcPool q (poolSize p)))
  | (Some stub, q) => Some (rpc (message_of req), Some (mkRpcPool (ReturnConnection stub q) (poolSize p)))
  end.

(** The stub is given back on every path, and the answer is the server's
    whenever there is a stub. *)
Theorem forward_upload_spec rpc req p :
  cp_stop (channelQueue p) = false ->
  exists r p', forwardUpload rpc req (Some p) = Some (r, Some p') /\
    cp_free (channelQueue p') ≡ₚ cp_free (channelQueue p) /\ cp_stop (channelQueue p') = false /\
    r = match cp_free (channelQueue p) with
        | [] => UploadStatus false "No available connection"
        | _ => rpc (message_of req)
        end.
Proof.
  destruct p as [[l stop] n]. simpl. intros ->. unfold forwardUpload, GetConnection, ReturnConnection. cbn.
  destruct l as [|c l]; cbn; do 2 eexists; split_and!; try done. cbn. by rewrite Permutation_app_comm.
Qed.

(** ** Samples *)
Module Samples.

Definition here : place := ["srv"].
Definition empty : fsys := {[ here := Dir ]}.
Definition well : disk := mkDisk true true true 1000.
Definition chunk (name data : string) : FileChunk := mkFileChunk 1 0 0 false data name "" "".
Definition put (uid : Z) (name data : string) : UploadMessage := mkUploadMessage (Some (chunk name data)) uid.

(** Calls one after the other. *)
Fixpoint in_turn (k : nat) (qs : list UploadMessage) : list file_event :=
  match qs with q :: qs => whole k q ++ in_turn (S k) qs | [] => [] end.

(** The two workers of [main]: the second chunk can be written first. *)
Example chunks_swapped :
  files (file_run here (in_turn 0 [put 5 "a.txt" "one "; put 5 "a.txt" "two "] ++ [FWork well 1; FWork well 0])
    (FileServiceImpl 2 empty)) !! userFile here 5 "a.txt" = Some (File "two one ").
Proof. vm_compute. reflexivity. Qed.

(** A name can leave the directory of its user, and an absolute one names any
    file. *)
Example name_escapes :
  let s := file_run here (in_turn 0 [put 7 "notes" "mine"; put 5 "../7/notes" " and yours"; put 5 "/etc" "x"] ++
                          [FWork well 0; FWork well 0; FWork well 0]) (FileServiceImpl 1 empty) in
  files s !! userFile here 7 "notes" = Some (File "mine and yours") /\ files s !! ["etc"] = Some (File "x").
Proof. vm_compute. done. Qed.

(** A chunk sent again is stored again: [seq] and [offset] are not read. *)
Example chunk_repeated :
  files (file_run here (in_turn 0 [put 5 "a" "x"; put 5 "a" "x"] ++ [FWork well 0; FWork well 0]) (FileServiceImpl 1 empty))
    !! userFile here 5 "a" = Some (File "xx").
Proof. vm_compute. reflexivity. Qed.

(** Answered, queued, lost. *)
Example stopped_before_writing :
  files (file_run here (in_turn 0 [put 5 "a" "x"] ++ [FStop 0; FWork well 0]) (FileServiceImpl 1 empty)) = empty.
Proof. vm_compute. reflexivity. Qed.

(** What is written is the data and no more: a chunk of [n] bytes makes a file of
    [n] bytes. *)
Example chunk_size :
  String.length (contents (files (file_run here (in_turn 0 [put 123 "large.bin" "AAAA"] ++ [FWork well 0]) (FileServiceImpl 1 empty)))
    (userFile here 123 "large.bin")) = 4%nat.
Proof. vm_compute. reflexivity. Qed.

Lemma tidy_empty : tidy here empty.
Proof.
  split.
  - done.
  - intros uid. left. unfold empty. rewrite lookup_singleton_ne; [done|]. apply not_eq_sym, userDir_ne_cwd.
  - intros uid name _. unfold empty. rewrite lookup_singleton_ne; [done|]. apply not_eq_sym, userFile_ne_cwd.
  - intros uid name _ _. unfold empty. rewrite lookup_singleton_ne; [done|]. apply not_eq_sym, userFile_ne_cwd.
Qed.

(** Two calls at a time on two workers: both read the same index, so one worker
    gets both; the counter misses one of them. *)
Definition together : list file_event :=
  [FUpload (put 5 "a" "x"); FUpload (put 5 "a" "y"); FProceed 0; FProceed 1; FProceed 1; FProceed 0; FProceed 0; FProceed 1;
   FProceed 0; FProceed 1; FProceed 0; FProceed 1; FWork well 0; FWork well 0].

(** The same two uploads one after the other: a worker each. *)
Definition apart : list file_event := in_turn 0 [put 5 "a" "x"; put 5 "a" "y"] ++ [FWork well 1; FWork well 0].

Lemma apart_serial : one_at_a_time here apart (FileServiceImpl 2 empty).
Proof.
  intros es1 es2 E.
  assert (forallb (fun k => length (filter in_progress (calls (file_run here (take k apart) (FileServiceImpl 2 empty)))) <=? 1)%nat
    (seq 0 17) = true) as H by (vm_compute; reflexivity).
  rewrite forallb_forall in H. specialize (H (length es1)). rewrite E, take_app_length in H. apply Nat.leb_le, H.
  apply in_seq. apply (f_equal length) in E. rewrite length_app in E. change (length apart) with 16%nat in E. lia.
Qed.

Lemma uploads_written_witness :
  let s := file_run here together (FileServiceImpl 2 empty) in
  astray s = false /\ given 0 (pushed s) = [put 5 "a" "y"; put 5 "a" "x"] /\
  (snd <$> pushed s) ++ unpushed (calls s) ≡ₚ [put 5 "a" "x"; put 5 "a" "y"] /\
  exists ps, Forall2 piece_of ps (filter (fun x => is_for 5 "a" x.2.2 = true) (processed s)) /\
    contents (files s) (userFile here 5 "a") = contents empty (userFile here 5 "a") +:+ String.concat "" ps /\
    given 1 (pushed (file_run here apart (FileServiceImpl 2 empty))) = [put 5 "a" "y"].
Proof.
  cbv zeta. split; [by vm_compute|split; [by vm_compute|]].
  destruct (uploads_written 2 here empty together ltac:(lia) tidy_empty ltac:(repeat constructor)) as [_ H].
  destruct (H ltac:(by vm_compute)) as (H1 & _ & _ & H2 & _). split; [exact H1|].
  destruct (H2 5 "a" eq_refl) as (ps & Hps & E). exists ps. split; [exact Hps|]. split; [exact E|].
  destruct (uploads_written 2 here empty apart ltac:(lia) tidy_empty ltac:(repeat constructor)) as [Ha _].
  destruct (Ha apart_serial) as (_ & _ & Ht). rewrite Ht. by vm_compute.
Defined.

Example apart_shares :
  let s := file_run here apart (FileServiceImpl 2 empty) in
  pushed s = [(0%nat, put 5 "a" "x"); (1%nat, put 5 "a" "y")] /\ contents (files s) (userFile here 5 "a") = "yx".
Proof. vm_compute. done. Qed.
End Samples.
