(* ===== verification/Reactor.v ===== *)
(** * The gateway streams of a message node

    [GatewayStreamReactor] of [src/server/message/src/service/GatewayStreamService.cc]:
    registration, commands, the task a command becomes, the end of a stream; and
    the node as a whole, one step per callback of gRPC or task of a worker. *)

From S2P Require Import Prelude Const Packet Redis Store Mysql Messages Pools Transport Node Services.

Section Reactor.
Context `{Collation} `{StdHash} `{Faults} `{PacketCodec} `{E : Env}.

(** ** A command in the worker pool *)

(** [response] with its fields and the frame around it. *)
Definition result_frame (command : CommandEnvelope) (error : Z) (retryable : bool) (packet : Packet)
  : MessageToGatewayFrame :=
  MCommandResult (mkCommandResult (ce_request_id command)
    (uint32 (getServiceResponseId (ce_service_id command))) error retryable (SerializeToString packet)).

Definition reply (t : task) (error : Z) (retryable : bool) (packet : Packet) : Node unit :=
  let! _ := Reply (tk_gatewayId t) (tk_instanceId t) (tk_reactor t)
              (result_frame (tk_command t) error retryable packet) in
  pure tt.

(** [RequestContext::WithTimeout] and [Expired]: at least a millisecond. *)
Definition WithTimeout (timeout_ms : Z) : Node Z :=
  let! now := steady_now in
  pure (now + Z.max timeout_ms 1 * 1000000).
Definition Expired (deadline : Z) : Node bool :=
  let! now := steady_now in
  pure (deadline <=? now).

(** The lease names the stream and the connection the command came from. *)
Definition holds_lease (t : task) (l : SessionLease) : bool :=
  negb (lease_empty l) && bool_decide (gatewayId l = tk_gatewayId t) &&
  bool_decide (instanceId l = tk_instanceId t) &&
  bool_decide (connectionId l = ce_connection_id (tk_command t)) &&
  (generation l =? ce_connection_generation (tk_command t)).

Definition text_envelope (protocolId : Z) (a : AcceptedText) (recipientUid : Z) : DeliveryEnvelope :=
  mkDeliveryEnvelope
    (to_string (get_int F_message_id (at_response a)) +:+ ":" +:+ to_string recipientUid)
    recipientUid "" 0 protocolId (get_int F_message_id (at_response a))
    (get_int F_conversation_id (at_response a)) (get_int F_conversation_seq (at_response a))
    (SerializeToString (at_delivery a)).

(** The answer to a text, then its deliveries. *)
Definition finish_text (t : task) (protocolId : Z) (a : AcceptedText) : Node unit :=
  do! reply t (TcpPacketError (at_response a)) (get_bool F_retryable (at_response a)) (at_response a) in
  if at_shouldDeliver a then
    for_each (at_recipientUids a) (fun recipientUid =>
      let! _ := DeliverToUser recipientUid (text_envelope protocolId a recipientUid) in
      pure tt)
  else pure tt.

(** The command once its sender is known to hold the lease. *)
Definition execute (t : task) : Node unit :=
  let command := tk_command t in
  match ParseFromString (ce_packet command) with
  | None => reply t JsonParser false (MakeErrorPacket JsonParser "")
  | Some packet =>
      let packet := packet |> set_int F_uid (ce_actor_uid command) in
      if ce_service_id command =? sid ID_TEXT_SEND_REQ then
        let! acceptedText := AcceptText packet in
        finish_text t (sid ID_TEXT_SEND_REQ) acceptedText
      else if ce_service_id command =? sid ID_GROUP_TEXT_SEND_REQ then
        let! acceptedText := AcceptGroupText packet in
        finish_text t (sid ID_GROUP_TEXT_SEND_REQ) acceptedText
      else
        let! packetResponse := ExecuteGatewayCommand (ce_service_id command) (ce_actor_uid command) packet in
        reply t (TcpPacketError packetResponse) (isRetryableError (TcpPacketError packetResponse))
          packetResponse
  end.

(** After the deadline check. *)
Definition authorize (t : task) : Node unit :=
  let! actorLease := use_redis (getSessionLease (ce_actor_uid (tk_command t))) in
  if holds_lease t actorLease then execute t
  else reply t AuthenticationRequired false
         (MakeErrorPacket AuthenticationRequired "connection generation is no longer current").

(** The lambda given to [PostBackgroundTask]. *)
Definition run_task (t : task) : Node unit :=
  let! now := NowUnixMilliseconds in
  let! deadline := WithTimeout (ce_deadline_unix_ms (tk_command t) - now) in
  let! expired := Expired deadline in
  if (expired : bool)
  then reply t DeadlineExceeded true
         (MakeErrorPacket DeadlineExceeded "command expired while waiting for a message worker")
  else authorize t.

(** ** The callbacks of a stream *)

Definition enqueue_ (r : nat) (frame : MessageToGatewayFrame) : Node unit :=
  let! _ := reactor_enqueue r frame in pure tt.

Definition update_reactor (r : nat) (f : reactor -> reactor) : Node unit :=
  writes (fun w => with_reactors (alter f r (reactors w)) w).

(** [PostBackgroundTask]: the caller has no deadline of its own. *)
Definition PostBackgroundTask (t : task) : Node bool := fun w =>
  let '(ok, p) := Post t None (workers w) in (ok, with_workers p w).

Definition HandleRegister (r : nat) (ra : reactor) (request : RegisterGateway) : Node unit :=
  do! update_reactor r (fun ra => mkReactor (rg_gateway_id request) (rg_instance_id request)
        (ra_peer ra) (rg_stream_epoch request) (ra_registered ra) (ra_writer ra)) in
  let! isDraining := reads draining in
  let valid := (rg_protocol_version request =? 1) && negb (str_empty (rg_gateway_id request)) &&
    negb (str_empty (rg_instance_id request)) && negb isDraining &&
    (negb require_peer_identity || bool_decide (ra_peer ra = rg_gateway_id request)) in
  do! (if valid then
         do! Register (rg_gateway_id request) (rg_instance_id request) r in
         update_reactor r (fun ra => mkReactor (ra_gatewayId ra) (ra_instanceId ra) (ra_peer ra)
           (ra_streamEpoch ra) true (ra_writer ra))
       else pure tt) in
  enqueue_ r (MRegisterResult (mkRegisterResult valid message_node_id (rg_stream_epoch request)
    (if valid then "" else "unsupported protocol or gateway identity does not match mTLS peer"))).

Definition HandleCommand (r : nat) (ra : reactor) (command : CommandEnvelope) : Node unit :=
  if negb (ra_registered ra) || str_empty (ce_request_id command) then
    enqueue_ r (result_frame command AuthenticationRequired false
      (MakeErrorPacket AuthenticationRequired "gateway stream must register before sending commands"))
  else
    let! now := NowUnixMilliseconds in
    if ce_deadline_unix_ms command <=? now then
      enqueue_ r (result_frame command DeadlineExceeded true
        (MakeErrorPacket DeadlineExceeded "command deadline already elapsed"))
    else
      let! accepted := PostBackgroundTask (mkNodeTask (ra_gatewayId ra) (ra_instanceId ra) r command) in
      if (accepted : bool) then pure tt
      else enqueue_ r (result_frame command ResourceExhausted true
             (MakeErrorPacket ResourceExhausted "message worker queue is full")).

Definition FinishOnce (r : nat) : Node unit :=
  update_reactor r (fun ra => set_writer (StopWriter (ra_writer ra)) ra).

(** [None]: the read failed. *)
Definition OnReadDone (r : nat) (frame : option GatewayToMessageFrame) : Node unit :=
  let! found := reads (fun w => reactors w !! r) in
  match found, frame with
  | None, _ => pure tt
  | Some _, None => FinishOnce r
  | Some ra, Some (GRegister request) => HandleRegister r ra request
  | Some ra, Some (GCommand command) => HandleCommand r ra command
  | Some _, Some (GHeartbeat sent_at sequence) => enqueue_ r (MHeartbeatAck sent_at sequence)
  | Some _, Some (GDeliveryAck _) | Some _, Some GEmpty => pure tt
  end.

(** A write completes only if one was started. *)
Definition OnWriteCompleted (r : nat) (ok : bool) : Node unit :=
  update_reactor r (fun ra =>
    if w_inFlight (ra_writer ra) then set_writer (OnWriteDone ok (ra_writer ra)) ra else ra).

(** [OnDone]: leave the table, then [delete this]. *)
Definition OnDone (r : nat) : Node unit :=
  let! found := reads (fun w => reactors w !! r) in
  match found with
  | None => pure tt
  | Some ra =>
      do! Unregister (ra_gatewayId ra) (ra_instanceId ra) r in
      writes (fun w => with_reactors (delete r (reactors w)) w)
  end.

(** A new stream gets an address no live reactor has. *)
Definition Connect (r : nat) (peer : string) : Node unit :=
  writes (fun w => match reactors w !! r with
                   | Some _ => w
                   | None => with_reactors (<[r := new_reactor peer]> (reactors w)) w
                   end).

(** A worker takes a task, runs it and is free again. *)
Definition work (now : Z) : Node unit := fun w =>
  if decide (length (p_running (workers w)) < p_workers (workers w))%nat then
    match PopTask now (workers w) with
    | (None, p) => (tt, with_workers p w)
    | (Some t, p) =>
        let '(_, w) := run_task t (with_workers p w) in
        (tt, with_workers (CompleteTask (length (p_running p) - 1) (workers w)) w)
    end
  else (tt, w).

(** ** The node *)

Inductive node_event :=
  | EConnect (r : nat) (peer : string)
  | ERead (r : nat) (frame : option GatewayToMessageFrame)
  | EWritten (r : nat) (ok : bool)
  | EDone (r : nat)
  | EWork (now : Z)
  | EDrain (reason : string)
  | EAttach (present : bool)
  | EOthers (s : store) (r : redis).

(** [EOthers]: other processes have used the same MySQL and Redis servers. *)
Definition node_step (e : node_event) : Node unit :=
  match e with
  | EConnect r peer => Connect r peer
  | ERead r frame => OnReadDone r frame
  | EWritten r ok => OnWriteCompleted r ok
  | EDone r => OnDone r
  | EWork now => work now
  | EDrain reason => DrainAll reason
  | EAttach b => SetGatewayStreamService b
  | EOthers s r => writes (fun w => with_cache r (with_sql s w))
  end.

Definition node_run (es : list node_event) (w : node) : node :=
  foldl (fun w e => (node_step e w).2) w es.

(** A node that has just started. *)
Definition new_node (s : store) (r : redis) (threads max : nat) : node :=
  mkNode s r 0 ∅ ∅ false false true (NewThreadPool threads max).
End Reactor.
