(* ===== verification/Deadlines.v ===== *)
(** * Request contexts and their deadlines

    [src/server/public/include/RequestContext.h]: a request's deadline on the
    monotonic clock, what is left of it, the thread-local scope through which
    the pools and the RPC clients find it; [ApplyDeadline] of
    [src/server/gate/src/service/StateClient.cc] (the same lines open
    [ActiveService] of [src/server/state/src/service/imRpc.cc]); what
    [ThreadPool.cc] does with a deadline, and the statistics of the pool.
    Times are nanoseconds, as in [steady_clock] and [system_clock] of libstdc++;
    time-outs are milliseconds.  A thread is the sequence of its scopes, waits
    and posts; its clock readings are numbered. *)

From S2P Require Import Prelude Redis Store Mysql Messages Pools Transport Node Services Reactor.

(** ** Contexts *)

(** [Deadline::max()] and [std::chrono::milliseconds::max()]. *)
Definition deadline_max : Z := 2 ^ 63 - 1.
Definition milliseconds_max : Z := 2 ^ 63 - 1.
Definition per_ms : Z := 1000000.

Inductive RequestSource := Tcp | Rpc | Internal.

Record RequestContext := mkContext {
  startedAt : Z; cx_requestId : string; cx_operation : string; source : RequestSource; cx_actor : Z; deadline : Z }.

(** [RequestContext()] *)
Definition no_request (now : Z) : RequestContext := mkContext now "" "" Internal 0 deadline_max.

(** The deadline is an argument of the constructor, which then reads the clock
    again. *)
Definition WithTimeout (requestId operation : string) (source : RequestSource) (actor timeout now later : Z)
  : RequestContext :=
  let timeout := Z.max timeout 1 in
  mkContext later requestId operation source actor (now + timeout * per_ms).

(** [next.fetch_add(1)] of an unsigned counter that starts at one. *)
Definition NextRequestId (next : Z) : string * Z := (to_string next, uint64 (next + 1)).

Definition Expired (now : Z) (c : RequestContext) : bool :=
  negb (deadline c =? deadline_max) && (deadline c <=? now).

(** [duration_cast<milliseconds>] drops what is less than a millisecond. *)
Definition to_ms (ns : Z) : Z := Z.quot ns per_ms.

Definition Remaining (now : Z) (c : RequestContext) : Z :=
  if deadline c =? deadline_max then milliseconds_max
  else Z.max (to_ms (deadline c - now)) 0.

Definition SystemDeadline (now system_now : Z) (c : RequestContext) : Z :=
  let remaining := Remaining now c in
  if remaining =? milliseconds_max then deadline_max else system_now + remaining * per_ms.

(** ** What a thread does with them *)

(** Scopes, waits for a pooled connection or an RPC, tasks given to a thread
    pool, exceptions and the places where they are caught. *)
Inductive code :=
  | Nothing
  | Then (first second : code)
  | Raise (what : string)
  | Caught (body : code)
  | Within (context : RequestContext) (body : code)
  | WaitFor (fallback : Z)
  | Give (task : code).

(** [current] of the thread, its clock readings so far, the deadlines its waits
    used, the tasks it posted with their deadlines. *)
Record thread := mkThread {
  current : option RequestContext; readings : nat; waits : list Z; posted : list (code * Z) }.

Definition with_current (c : option RequestContext) (t : thread) : thread :=
  mkThread c (readings t) (waits t) (posted t).

Section Thread.
(** The monotonic clock of the thread: its [n]-th reading. *)
Variable clock : nat -> Z.

Definition read_clock : ST thread Z := fun t =>
  (Ok (clock (readings t)), mkThread (current t) (S (readings t)) (waits t) (posted t)).

Definition CurrentDeadline (t : thread) : Z :=
  match current t with None => deadline_max | Some c => deadline c end.

Definition CurrentDeadlineOr (fallback : Z) : ST thread Z := fun t =>
  let d := CurrentDeadline t in
  if d =? deadline_max then (let* now := read_clock in ret (now + fallback * per_ms)) t else (Ok d, t).

(** The constructor and the destructor, which an exception runs as well. *)
Definition RequestContextScope {A} (c : RequestContext) (body : ST thread A) : ST thread A := fun t =>
  let previous := current t in
  let '(o, t') := body (with_current (Some c) t) in
  (o, with_current previous t').

Definition waiting (d : Z) : ST thread unit :=
  modify (fun t => mkThread (current t) (readings t) (waits t ++ [d]) (posted t)).
(** [Post] *)
Definition give (task : code) : ST thread unit :=
  modify (fun t => mkThread (current t) (readings t) (waits t) (posted t ++ [(task, CurrentDeadline t)])).

Fixpoint perform (c : code) : ST thread unit :=
  match c with
  | Nothing => ret tt
  | Then a b => do* perform a in perform b
  | Raise what => throw what
  | Caught body => catch (perform body) (fun _ => ret tt)
  | Within context body => RequestContextScope context (perform body)
  | WaitFor fallback => let* d := CurrentDeadlineOr fallback in waiting d
  | Give task => give task
  end.

(** A worker of a thread pool: one task after the other, none of which lets an
    exception out. *)
Fixpoint WorkerLoop (tasks : list code) : ST thread unit :=
  match tasks with
  | [] => ret tt
  | task :: tasks => do* catch (perform task) (fun _ => ret tt) in WorkerLoop tasks
  end.

(** ** The same with the context passed down

    [n] readings of the clock so far; the result says whether the code raised,
    and gives the readings, the deadlines of its waits and its posts. *)
Definition deadline_of (c : option RequestContext) : Z :=
  match c with None => deadline_max | Some c => deadline c end.

Fixpoint passing (c : option RequestContext) (p : code) (n : nat)
  : option string * nat * list Z * list (code * Z) :=
  match p with
  | Nothing => (None, n, [], [])
  | Raise what => (Some what, n, [], [])
  | Then a b =>
      match passing c a n with
      | (None, n, ws, ps) =>
          let '(r, n, ws', ps') := passing c b n in (r, n, ws ++ ws', ps ++ ps')
      | r => r
      end
  | Caught body => let '(_, n, ws, ps) := passing c body n in (None, n, ws, ps)
  | Within context body => passing (Some context) body n
  | WaitFor fallback =>
      if deadline_of c =? deadline_max then (None, S n, [clock n + fallback * per_ms], [])
      else (None, n, [deadline_of c], [])
  | Give task => (None, n, [], [(task, deadline_of c)])
  end.

Fixpoint passing_all (tasks : list code) (n : nat) : nat * list Z * list (code * Z) :=
  match tasks with
  | [] => (n, [], [])
  | task :: tasks =>
      let '(_, n, ws, ps) := passing None task n in
      let '(n, ws', ps') := passing_all tasks n in (n, ws ++ ws', ps ++ ps')
  end.

Definition ended (r : option string) : outcome unit :=
  match r with None => Ok tt | Some what => Throw what end.

(** A thread after some code: the same context as before. *)
Definition went (t : thread) (r : option string * nat * list Z * list (code * Z)) : outcome unit * thread :=
  let '(r, n, ws, ps) := r in (ended r, mkThread (current t) n (waits t ++ ws) (posted t ++ ps)).

Lemma perform_passing p t : perform p t = went t (passing (current t) p (readings t)).
Proof.
  revert t. induction p as [|a IHa b IHb|what|body IH|context body IH|fallback|task]; intros t; simpl.
  - unfold ret. rewrite !app_nil_r. by destruct t.
  - unfold bind. rewrite IHa. destruct (passing (current t) a (readings t)) as [[[[what|] n] ws] ps]; simpl; [done|].
    rewrite IHb. simpl. destruct (passing _ b n) as [[[r n'] ws'] ps']. simpl. by rewrite !app_assoc.
  - unfold throw. rewrite !app_nil_r. by destruct t.
  - unfold catch. rewrite IH. by destruct (passing (current t) body (readings t)) as [[[[what|] n] ws] ps].
  - unfold RequestContextScope. rewrite IH. simpl.
    by destruct (passing (Some context) body (readings t)) as [[[r n] ws] ps].
  - unfold bind, CurrentDeadlineOr, CurrentDeadline. fold (deadline_of (current t)).
    by destruct (deadline_of (current t) =? deadline_max); simpl; rewrite app_nil_r.
  - unfold CurrentDeadline, deadline_of. by rewrite app_nil_r.
Qed.

Lemma worker_passing tasks t : current t = None ->
  WorkerLoop tasks t =
  (Ok tt, let '(n, ws, ps) := passing_all tasks (readings t) in mkThread None n (waits t ++ ws) (posted t ++ ps)).
Proof.
  revert t. induction tasks as [|task tasks IH]; intros t Hc; simpl.
  { unfold ret. rewrite !app_nil_r. destruct t. simpl in *. by subst. }
  unfold bind, catch. rewrite perform_passing, Hc.
  destruct (passing None task (readings t)) as [[[r n] ws] ps]. unfold went.
  transitivity (WorkerLoop tasks (mkThread None n (waits t ++ ws) (posted t ++ ps))).
  { by destruct r; simpl; rewrite Hc. }
  rewrite IH by done. simpl. destruct (passing_all tasks n) as [[n' ws'] ps']. by rewrite !app_assoc.
Qed.

(** C36: request contexts.  A thread that finds its request through the scopes
    uses, waits and posts tasks with exactly the deadlines it would have if the
    context were passed down to every call, whatever is nested, raised or
    caught, and leaves the scope as it found it; a worker that starts without a
    request runs each task without one. *)
Theorem scopes_pass_contexts p tasks t :
  perform p t = went t (passing (current t) p (readings t)) /\
  (current t = None -> WorkerLoop tasks t =
    (Ok tt, let '(n, ws, ps) := passing_all tasks (readings t) in mkThread None n (waits t ++ ws) (posted t ++ ps))).
Proof. split; [apply perform_passing|apply worker_passing]. Qed.

(** ** No wait without an end *)

(** The contexts of a piece of code all have a deadline, and its waits a
    time-out that fits the clock. *)
Fixpoint limited (p : code) : Prop :=
  match p with
  | Nothing | Raise _ | Give _ => True
  | Then a b => limited a /\ limited b
  | Caught body => limited body
  | Within context body => deadline context < deadline_max /\ limited body
  | WaitFor fallback => forall n, clock n + fallback * per_ms < deadline_max
  end.

Lemma waits_end p c n : limited p -> deadline_of c <= deadline_max ->
  Forall (fun d => d < deadline_max) (passing c p n).1.2.
Proof.
  revert c n. induction p as [|a IHa b IHb|what|body IH|context body IH|fallback|task];
    intros c n Hl Hc; simpl in *; try apply Forall_nil_2.
  - destruct Hl as [Ha Hb]. specialize (IHa c n Ha Hc).
    destruct (passing c a n) as [[[[what|] n'] ws] ps]; simpl in *; [done|].
    specialize (IHb c n' Hb Hc). destruct (passing c b n') as [[[r n''] ws'] ps']; simpl in *.
    by apply Forall_app_2.
  - specialize (IH c n Hl Hc). by destruct (passing c body n) as [[[r n'] ws] ps].
  - apply IH; simpl; [tauto|lia].
  - destruct (Z.eqb_spec (deadline_of c) deadline_max); simpl; apply Forall_singleton; [apply Hl|lia].
Qed.

Lemma worker_waits_end tasks n : Forall limited tasks ->
  Forall (fun d => d < deadline_max) (passing_all tasks n).1.2.
Proof.
  intros Hl. revert n. induction Hl as [|task tasks Ht _ IH]; intros n; simpl; [apply Forall_nil_2|].
  pose proof (waits_end task None n Ht ltac:(done)) as Hw.
  destruct (passing None task n) as [[[r n'] ws] ps]. specialize (IH n').
  destruct (passing_all tasks n') as [[n'' ws'] ps']. by apply Forall_app_2.
Qed.
End Thread.

(** ** What is left *)

Lemma to_ms_bounds ns : 0 <= ns -> 0 <= to_ms ns * per_ms <= ns.
Proof.
  intros H. unfold to_ms, per_ms. pose proof (Z.quot_pos ns 1000000 H ltac:(lia)).
  pose proof (Z.mul_quot_le ns 1000000 H ltac:(lia)). lia.
Qed.

Lemma to_ms_neg ns : ns <= 0 -> to_ms ns <= 0.
Proof.
  intros H. unfold to_ms, per_ms. replace ns with (- - ns) by lia. rewrite Z.quot_opp_l by lia.
  pose proof (Z.quot_pos (- ns) 1000000 ltac:(lia) ltac:(lia)). lia.
Qed.

Lemma remaining_within now c : deadline c <> deadline_max ->
  0 <= Remaining now c /\ Remaining now c * per_ms <= Z.max 0 (deadline c - now) < (Remaining now c + 1) * per_ms.
Proof.
  intros H. unfold Remaining. rewrite (proj2 (Z.eqb_neq _ _) H).
  destruct (Z.le_gt_cases (deadline c - now) 0) as [Hs|Hs].
  - pose proof (to_ms_neg _ Hs). unfold per_ms in *. lia.
  - pose proof (to_ms_bounds (deadline c - now) ltac:(lia)).
    pose proof (Z.mul_succ_quot_gt (deadline c - now) 1000000 ltac:(lia) ltac:(lia)).
    unfold to_ms, per_ms in *. lia.
Qed.

(** A context that has expired has nothing left; one with nothing left expires
    within the next millisecond; one without a deadline never does. *)
Lemma expired_remaining now c :
  (deadline c = deadline_max -> Expired now c = false /\ Remaining now c = milliseconds_max) /\
  (Expired now c = true -> Remaining now c = 0) /\
  (deadline c <> deadline_max -> Remaining now c = 0 -> Expired (now + per_ms) c = true).
Proof.
  split; [|split].
  - intros E. unfold Expired, Remaining. by rewrite E.
  - unfold Expired. intros [Hd He]%andb_prop. apply negb_true_iff, Z.eqb_neq in Hd. apply Z.leb_le in He.
    pose proof (remaining_within now c Hd). unfold per_ms in *. lia.
  - intros Hd Hr. pose proof (remaining_within now c Hd). unfold Expired.
    rewrite (proj2 (Z.eqb_neq _ _) Hd). simpl. apply Z.leb_le. unfold per_ms in *. lia.
Qed.

(** ** The deadline of an RPC *)

(** [ApplyDeadline]: a second when the thread has no request. *)
Definition ApplyDeadline (c : option RequestContext) (now later system_now : Z) : Z :=
  let d := if deadline_of c =? deadline_max then now + 1000 * per_ms else deadline_of c in
  system_now + Z.max (to_ms (d - later)) 0 * per_ms.

(** The budget of a request.  An RPC made with a request's context, at any later
    time, gets at most what is left of the time-out, and nothing once it is used
    up, which is when the context has expired; without a request it gets at most
    a second. *)
Theorem request_budget requestId operation source actor timeout start started now later system_now :
  start <= now <= later ->
  0 <= start -> Z.max timeout 1 * per_ms < deadline_max - start ->
  let c := WithTimeout requestId operation source actor timeout start started in
  let budget := Z.max timeout 1 * per_ms in
  let rest := Z.max 0 (budget - (later - start)) in
  system_now <= ApplyDeadline (Some c) now later system_now <= system_now + rest /\
  system_now <= SystemDeadline later system_now c <= system_now + rest /\
  (Expired later c = true <-> rest = 0) /\
  (Expired start c = false) /\
  ApplyDeadline None now later system_now <= system_now + 1000 * per_ms.
Proof.
  intros Ho Hs Hfit c budget rest.
  assert (deadline c = start + budget) as Ed by done.
  assert (0 < budget < deadline_max - start) as Hb by (split; [unfold budget, per_ms; lia|exact Hfit]).
  clearbody c budget. clear Hfit. assert (deadline c <> deadline_max) as Hd by lia.
  pose proof (remaining_within later c Hd) as Hr.
  assert (Remaining later c <> milliseconds_max) as Hm.
  { intros E. rewrite E in Hr. unfold milliseconds_max, deadline_max, per_ms in *. lia. }
  split; [|split; [|split; [|split]]].
  - unfold ApplyDeadline, deadline_of. rewrite (proj2 (Z.eqb_neq _ _) Hd).
    unfold Remaining in Hr. rewrite (proj2 (Z.eqb_neq _ _) Hd) in Hr. unfold rest, per_ms in *. lia.
  - unfold SystemDeadline. rewrite (proj2 (Z.eqb_neq _ _) Hm). unfold rest, per_ms in *. lia.
  - unfold Expired. rewrite (proj2 (Z.eqb_neq _ _) Hd). simpl. rewrite Z.leb_le. unfold rest. lia.
  - unfold Expired. rewrite (proj2 (Z.eqb_neq _ _) Hd). simpl. apply Z.leb_gt. lia.
  - unfold ApplyDeadline, deadline_of. rewrite Z.eqb_refl.
    destruct (Z.le_gt_cases (now + 1000 * per_ms - later) 0) as [H|H].
    + pose proof (to_ms_neg _ H). unfold per_ms in *. lia.
    + pose proof (to_ms_bounds (now + 1000 * per_ms - later) ltac:(lia)). unfold per_ms in *. lia.
Qed.

Lemma request_budget_witness :
  5 <= 7 <= 9 /\ ApplyDeadline (Some (WithTimeout "r" "text" Rpc 1001 3000 5 6)) 7 9 100 <= 100 + 3000000000 - 4.
Proof.
  split; [lia|].
  pose proof (request_budget "r" "text" Rpc 1001 3000 5 6 7 9 100 ltac:(lia) ltac:(lia) ltac:(vm_compute; reflexivity)) as H.
  destruct H as (H & _). etransitivity; [apply H|]. vm_compute. intros E. discriminate E.
Defined.

(** ** Request ids *)

(** The ids given out, one after the other. *)
Fixpoint request_ids (k : nat) (next : Z) : list string :=
  match k with
  | O => []
  | S k => let '(id, next) := NextRequestId next in id :: request_ids k next
  end.

Lemma request_ids_are k next : 0 <= next -> next + Z.of_nat k <= 2 ^ 64 ->
  request_ids k next = (fun i => to_string (next + Z.of_nat i)) <$> seq 0 k.
Proof.
  revert next. induction k as [|k IH]; intros next Hn Hk; [done|].
  cbn [request_ids NextRequestId seq]. rewrite fmap_cons. simpl Z.of_nat. rewrite Z.add_0_r. f_equal.
  destruct k as [|k]; [done|].
  assert (uint64 (next + 1) = next + 1) as -> by (apply wrapU_small; lia).
  rewrite IH by lia. rewrite <- fmap_S_seq, <- list_fmap_compose. apply list_fmap_ext. intros i j _. simpl.
  f_equal. lia.
Qed.

(** No id is given out twice before the counter has gone round. *)
Lemma request_ids_distinct k : Z.of_nat k < 2 ^ 64 -> NoDup (request_ids k 1).
Proof.
  intros Hk. rewrite request_ids_are by lia. apply NoDup_fmap_2; [|apply NoDup_seq].
  intros i j E%(inj to_string). lia.
Qed.

(** ** The command of a message node

    The context of a command as the worker makes it: the deadline of [Reactor]. *)
Section Command.
Context `{Collation} `{StdHash} `{Faults} `{PacketCodec} `{E : Env}.

Lemma reactor_deadline timeout requestId operation actor later w :
  (Reactor.WithTimeout timeout w).1 =
  deadline (WithTimeout requestId operation Rpc actor timeout (steady_now w).1 later).
Proof. done. Qed.

Lemma reactor_expired c w : deadline c <> deadline_max ->
  (Reactor.Expired (deadline c) w).1 = Expired (steady_now w).1 c.
Proof. intros Hd. unfold Expired. by rewrite (proj2 (Z.eqb_neq _ _) Hd). Qed.
End Command.

(** The budget of a command is read off the system clock when a worker starts
    it: a clock set back while the command waits gives the time back. *)
Definition command_deadline (deadline_unix_ms unix_ms now : Z) : Z :=
  deadline (WithTimeout "" "" Rpc 0 (deadline_unix_ms - unix_ms) now now).

Lemma budget_follows_system_clock deadline_unix_ms unix_ms back now :
  0 <= back -> unix_ms < deadline_unix_ms ->
  command_deadline deadline_unix_ms (unix_ms - back) now = command_deadline deadline_unix_ms unix_ms now + back * per_ms.
Proof. intros Hb Hu. unfold command_deadline, WithTimeout, deadline, per_ms. lia. Qed.

(** ** Runs *)

Definition request (id : string) (ms : Z) : RequestContext := WithTimeout id "text" Rpc 1001 ms 0 0.

(** A task that raises inside its scope, then one that waits without a request:
    the second has a second, not the deadline of the first; a task posted inside
    a scope carries its deadline and runs without it. *)
Example scopes_of_a_worker :
  let t := (WorkerLoop (fun n => 10 * Z.of_nat n)
    [Then (Within (request "1" 50) (Then (WaitFor 1000) (Then (Give (WaitFor 7)) (Raise "down")))) (WaitFor 1);
     Within (request "2" 80) (Then (Caught (Within (request "3" 20) (Then (WaitFor 1) (Raise "down")))) (WaitFor 1));
     WaitFor 1000]
    (mkThread None 0 [] [])).2 in
  current t = None /\ waits t = [50000000; 20000000; 80000000; 1000000000] /\
  posted t = [(WaitFor 7, 50000000)].
Proof. by vm_compute. Qed.
