(* ===== verification/Streams.v ===== *)
(** * What the tasks of a message node send

    A relation between the states before and after any operation of a handler:
    it writes frames of a given kind to streams and leaves the streams
    themselves alone.  Every handler only sends deliveries; a task also sends
    its one answer. *)

From S2P Require Import Prelude Const Packet Redis Store Mysql Messages Pools Transport Node Services Reactor.

(** ** Frames of a stream *)

(** Everything a reactor has accepted: sent, then queued. *)
Definition frames (ra : reactor) : list MessageToGatewayFrame :=
  w_sent (ra_writer ra) ++ w_queue (ra_writer ra).

Definition full (ra : reactor) : Prop :=
  w_stopped (ra_writer ra) = true \/ (kMaxStreamQueue <= length (w_queue (ra_writer ra)))%nat.

Lemma Enqueue_cases f (wr : writer MessageToGatewayFrame) ra :
  let '(ok, wr') := Enqueue f wr in
  let ra0 := set_writer wr ra in
  let ra1 := set_writer wr' ra in
  (ok = true /\ frames ra1 = frames ra0 ++ [f] /\ ~ full ra0 \/
   ok = false /\ wr' = wr /\ full ra0) /\
  w_stopped wr' = w_stopped wr /\
  (length (w_queue wr) <= length (w_queue wr'))%nat.
Proof.
  unfold Enqueue. destruct (w_stopped wr || _) eqn:E.
  - split; [|split; [done|lia]]. right. split; [done|]. split; [done|]. apply orb_true_iff in E as [E|E].
    + by left.
    + right. by boolp.
  - boolp. assert (~ full (set_writer wr ra)) as Hf by (intros [?|?]; simpl in *; [congruence|lia]).
    destruct (w_inFlight wr); simpl.
    + split; [|split; [done|rewrite length_app; lia]]. left. unfold frames. simpl. by rewrite app_assoc.
    + destruct (w_queue wr) as [|x q] eqn:Eq; simpl.
      * split; [|split; [done|lia]]. left. unfold frames. simpl. rewrite Eq, !app_nil_r. done.
      * split; [|split; [done|rewrite length_app; simpl; lia]]. left. unfold frames. simpl.
        rewrite Eq, <- !app_assoc. done.
Qed.

(** ** The relation *)

(** [ra'] is [ra] with more frames, all satisfying [P]. *)
Definition appends (P : MessageToGatewayFrame -> Prop) (ra ra' : reactor) : Prop :=
  ra' = set_writer (ra_writer ra') ra /\
  (exists l, frames ra' = frames ra ++ l /\ Forall P l) /\
  w_stopped (ra_writer ra') = w_stopped (ra_writer ra) /\
  (length (w_queue (ra_writer ra)) <= length (w_queue (ra_writer ra')))%nat.

(** Every registered stream belongs to a live reactor. *)
Definition streams_live (w : node) : Prop :=
  forall g st, streams w !! g = Some st -> is_Some (reactors w !! st_reactor st).

Record sends (P : nat -> MessageToGatewayFrame -> Prop) (w w' : node) : Prop := {
  sn_streams : streams w' = streams w;
  sn_draining : draining w' = draining w;
  sn_attached : attached w' = attached w;
  sn_workers : workers w' = workers w;
  sn_reactors : forall r, option_Forall2 (appends (P r)) (reactors w !! r) (reactors w' !! r);
  sn_dangling : streams_live w -> dangling w' = dangling w }.

Lemma appends_refl P ra : appends P ra ra.
Proof.
  split; [by destruct ra|]. split; [|split; [done|lia]]. exists []. by rewrite app_nil_r.
Qed.

Lemma appends_trans P ra1 ra2 ra3 : appends P ra1 ra2 -> appends P ra2 ra3 -> appends P ra1 ra3.
Proof.
  intros (H1 & (l1 & E1 & F1) & S1 & L1) (H2 & (l2 & E2 & F2) & S2 & L2).
  split; [rewrite H2; rewrite H1 at 1; done|]. split; [|split; [congruence|lia]].
  exists (l1 ++ l2). rewrite E2, E1, app_assoc. split; [done|]. by apply Forall_app.
Qed.

Lemma appends_full P ra ra' : appends P ra ra' -> full ra -> full ra'.
Proof. intros (_ & _ & Hs & Hl) [Hf|Hf]; [left; congruence|right; lia]. Qed.

Lemma sends_live P w w' : sends P w w' -> streams_live w -> streams_live w'.
Proof.
  intros Hs Hl g st Hg. rewrite (sn_streams _ _ _ Hs) in Hg. specialize (Hl g st Hg) as [ra Hra].
  pose proof (sn_reactors _ _ _ Hs (st_reactor st)) as Hr. rewrite Hra in Hr. inversion Hr. eauto.
Qed.

Lemma sends_refl P w w' :
  streams w' = streams w -> draining w' = draining w -> attached w' = attached w ->
  workers w' = workers w -> reactors w' = reactors w -> dangling w' = dangling w -> sends P w w'.
Proof.
  intros E1 E2 E3 E4 E5 E6. split; try done. intros r. rewrite E5.
  destruct (reactors w !! r); constructor. apply appends_refl.
Qed.

Lemma sends_trans P w1 w2 w3 : sends P w1 w2 -> sends P w2 w3 -> sends P w1 w3.
Proof.
  intros H1 H2. pose proof (sends_live _ _ _ H1) as Hlive.
  destruct H1 as [A1 A2 A3 A4 A5 A6], H2 as [B1 B2 B3 B4 B5 B6]. split; try congruence.
  - intros r. specialize (A5 r). specialize (B5 r). inversion A5 as [ra1 ra2 Ha X1 X2|X1 X2].
    + rewrite <- X2 in B5. inversion B5 as [? ra3 Hb Y1 Y2|]; subst.
      constructor. by eapply appends_trans.
    + rewrite <- X2 in B5. inversion B5. constructor.
  - intros Hl. rewrite B6; [by apply A6|]. by apply Hlive.
Qed.

(** [m] sends frames satisfying [P] and nothing else, from any state. *)
Definition only_sends (P : nat -> MessageToGatewayFrame -> Prop) {A} (m : Node A) : Prop :=
  forall w, sends P w (m w).2.

Section Rules.
Context (P : nat -> MessageToGatewayFrame -> Prop).

Lemma only_sends_pure {A} (a : A) : only_sends P (pure a).
Proof. intros w. by apply sends_refl. Qed.
Lemma only_sends_reads {A} (f : node -> A) : only_sends P (reads f).
Proof. intros w. by apply sends_refl. Qed.
Lemma only_sends_bind {A B} (m : Node A) (k : A -> Node B) :
  only_sends P m -> (forall a, only_sends P (k a)) -> only_sends P (seq_bind m k).
Proof.
  intros Hm Hk w. unfold seq_bind. specialize (Hm w). destruct (m w) as [a w1].
  by eapply sends_trans; [|apply Hk].
Qed.
Lemma only_sends_for_each {A} (l : list A) f :
  (forall x, only_sends P (f x)) -> only_sends P (for_each l f).
Proof.
  intros Hf. induction l as [|x l IH]; simpl; [apply only_sends_pure|]. by apply only_sends_bind.
Qed.
Lemma only_sends_use_sql {A} (f : store -> A * store) : only_sends P (use_sql f).
Proof. intros w. unfold use_sql. destruct (f _). by apply sends_refl. Qed.

Context `{Env}.
Lemma only_sends_use_redis {A} (f : call -> redis -> A * redis) : only_sends P (use_redis f).
Proof. intros w. unfold use_redis. destruct (f _ _). by apply sends_refl. Qed.
Lemma only_sends_new_id g : only_sends P (new_id g).
Proof. intros w. unfold new_id. destruct (g _ _ _). by apply sends_refl. Qed.
Lemma only_sends_date_time : only_sends P getCurrentDateTime.
Proof. intros w. by apply sends_refl. Qed.
Lemma only_sends_unix : only_sends P NowUnixMilliseconds.
Proof. intros w. by apply sends_refl. Qed.
Lemma only_sends_steady : only_sends P steady_now.
Proof. intros w. by apply sends_refl. Qed.
Lemma only_sends_forward q : only_sends P (forwardUpload q).
Proof. intros w. by apply sends_refl. Qed.

End Rules.

Create HintDb sends.
#[export] Hint Resolve only_sends_pure only_sends_reads only_sends_use_sql only_sends_use_redis only_sends_new_id only_sends_date_time only_sends_unix
  only_sends_steady only_sends_forward : sends.

(** The shape of a handler: binds, tests and matches around known calls. *)
Ltac sends :=
  repeat match goal with
  | |- only_sends _ (pure _) => apply only_sends_pure
  | |- only_sends _ (seq_bind _ _) => apply only_sends_bind; [|intros ?]
  | |- only_sends _ (for_each _ _) => apply only_sends_for_each; intros ?
  | |- only_sends _ _ => solve [eauto with sends]
  | |- only_sends _ _ => progress cbv zeta
  | |- only_sends _ _ => case_match
  end.

(** ** Writing to one stream *)

Section Sending.
Context `{Collation} `{StdHash} `{Faults} `{PacketCodec} `{E : Env}.

(** One frame to a registered stream. *)
Lemma enqueue_sends (P : nat -> MessageToGatewayFrame -> Prop) g st frame w :
  streams w !! g = Some st -> P (st_reactor st) frame ->
  sends P w (reactor_enqueue (st_reactor st) frame w).2.
Proof.
  intros Hg HP. unfold reactor_enqueue. destruct (reactors w !! st_reactor st) as [ra|] eqn:Er.
  - pose proof (Enqueue_cases frame (ra_writer ra) ra) as Hc.
    destruct (Enqueue frame (ra_writer ra)) as [ok wr]. destruct Hc as (Hc & Hs & Hl). simpl.
    split; try done. intros r. simpl. destruct (decide (r = st_reactor st)) as [->|Hne].
    + rewrite lookup_insert_eq, Er. constructor. split; [done|]. split; [|done].
      assert (set_writer (ra_writer ra) ra = ra) as Hra by by destruct ra.
      destruct Hc as [(-> & Hf & _)|(-> & -> & _)]; simpl in *; rewrite ?Hra in *.
      * exists [frame]. split; [done|]. by constructor.
      * exists []. by rewrite app_nil_r.
    + rewrite lookup_insert_ne by done. destruct (reactors w !! r); constructor. apply appends_refl.
  - split; try done.
    + intros r. simpl. destruct (reactors w !! r); constructor. apply appends_refl.
    + intros Hlive. destruct (Hlive _ _ Hg) as [ra Hra]. congruence.
Qed.

Definition delivers (_ : nat) (frame : MessageToGatewayFrame) : Prop :=
  match frame with MDelivery _ => True | _ => False end.

Lemma Deliver_sends lease e : only_sends delivers (Deliver lease e).
Proof.
  intros w. unfold Deliver, seq_bind, reads. destruct (streams w !! gatewayId lease) as [st|] eqn:Eg.
  - destruct (decide _); [by eapply enqueue_sends|by apply sends_refl].
  - by apply sends_refl.
Qed.
Hint Resolve Deliver_sends : sends.

Lemma DeliverToUser_sends uid e : only_sends delivers (DeliverToUser uid e).
Proof. unfold DeliverToUser. sends. Qed.
Hint Resolve DeliverToUser_sends : sends.

Lemma SendGateway_sends uid p id a b c d : only_sends delivers (SendGateway uid p id a b c d).
Proof. unfold SendGateway. sends. Qed.
Hint Resolve SendGateway_sends : sends.

(** Handlers send nothing but deliveries. *)
Lemma AcceptText_sends q : only_sends delivers (AcceptText q).
Proof. unfold AcceptText. sends. Qed.
Lemma AcceptGroupText_sends q : only_sends delivers (AcceptGroupText q).
Proof. unfold AcceptGroupText. sends. Qed.
Hint Resolve AcceptText_sends AcceptGroupText_sends : sends.

Lemma friend_infos_sends l rsp : only_sends delivers (friend_infos l rsp).
Proof. revert rsp. induction l as [|f l IH]; intros rsp; simpl; sends; apply IH. Qed.
Hint Resolve friend_infos_sends : sends.

Ltac handler := intros q; unfold Ack, SendText, Upload, NotifyAddFriend, StoreNotifyAddFriend,
  ReplyAddFriend, StoreReplyAddFriend, PullFriendList, PullFriendApplyList, PullSessionMessages,
  PullMessages, Create, NotifyJoin, NotifyMemberJoin, ReplyJoin, NotifyMemberReply, SendGroupText,
  SendFile, Acknowledge; sends.

Definition sends_deliveries (e : Z * (Packet -> Node Packet)) : Prop :=
  forall q, only_sends delivers (e.2 q).

Lemma RegisterHandle_sends id h g :
  Forall sends_deliveries g -> (forall q, only_sends delivers (h q)) ->
  Forall sends_deliveries (RegisterHandle id h g).
Proof.
  intros Hg Hh. unfold RegisterHandle. destruct (existsb _ _); [done|].
  apply Forall_app. split; [done|]. by constructor.
Qed.

Lemma handlers_send : Forall sends_deliveries serviceGroup.
Proof.
  unfold serviceGroup. do 14 (apply RegisterHandle_sends; [|handler]). constructor.
Qed.

Lemma ExecuteGatewayCommand_sends id uid q :
  only_sends delivers (ExecuteGatewayCommand id uid q).
Proof.
  unfold ExecuteGatewayCommand. destruct (_ || _); [sends|].
  destruct (List.find _ _) as [e|] eqn:Ef; [|sends].
  apply List.find_some in Ef as [Hin _]. apply list_elem_of_In in Hin.
  pose proof handlers_send as Hall. rewrite Forall_forall in Hall. by apply Hall.
Qed.
End Sending.
