(* ===== verification/Commands.v ===== *)
(** * What a message node promises to its gateways

    Every command that reaches the workers gets one answer, on the stream it came
    from; a connection whose lease was superseded changes nothing. *)

From S2P Require Import Prelude Const Packet Redis Store Mysql Messages Ledger History Pools.
From S2P Require Import Transport Node Services Reactor Streams.

(** ** Answers *)

Definition frame_result (f : MessageToGatewayFrame) : option CommandResult :=
  match f with MCommandResult r => Some r | _ => None end.

(** The answers a stream has accepted. *)
Definition results (r : nat) (w : node) : list CommandResult :=
  match reactors w !! r with
  | Some ra => omap frame_result (frames ra)
  | None => []
  end.

(** The stream of the task is gone, stopped or full. *)
Definition unreachable (t : task) (w : node) : Prop :=
  streams w !! tk_gatewayId t <> Some (mkStream (tk_instanceId t) (tk_reactor t)) \/
  match reactors w !! tk_reactor t with
  | Some ra => full ra
  | None => True
  end.

Section Answers.
Context `{Collation} `{StdHash} `{Faults} `{PacketCodec} `{E : Env}.

Lemma sends_results w w' r : sends delivers w w' -> results r w' = results r w.
Proof.
  intros Hs. unfold results. pose proof (sn_reactors _ _ _ Hs r) as Hr.
  destruct Hr as [ra ra' (_ & (l & -> & Hl) & _)|]; [|done].
  rewrite omap_app. rewrite <- (app_nil_r (omap _ (frames ra))) at 2. f_equal.
  induction Hl as [|f l Hf _ IH]; [done|]. by destruct f.
Qed.

Lemma sends_unreachable P t w w' : sends P w w' -> unreachable t w -> unreachable t w'.
Proof.
  intros Hs [Hu|Hu]; [left|right].
  - by rewrite (sn_streams _ _ _ Hs).
  - pose proof (sn_reactors _ _ _ Hs (tk_reactor t)) as Hr.
    destruct Hr as [ra ra' Ha|]; [by eapply appends_full|done].
Qed.

(** [m] answers the task once. *)
Definition answers_once (t : task) (m : Node unit) : Prop := forall w,
  let w' := (m w).2 in
  (forall r, r <> tk_reactor t -> results r w' = results r w) /\
  exists res, cr_request_id res = ce_request_id (tk_command t) /\
    cr_response_service_id res = uint32 (getServiceResponseId (ce_service_id (tk_command t))) /\
    (results (tk_reactor t) w' = results (tk_reactor t) w ++ [res] \/
     results (tk_reactor t) w' = results (tk_reactor t) w /\ unreachable t w').

Lemma reply_once t error retryable packet : answers_once t (reply t error retryable packet).
Proof.
  intros w. unfold reply, Reply, seq_bind, reads, pure.
  set (frame := result_frame _ _ _ _). set (res := mkCommandResult (ce_request_id (tk_command t))
    (uint32 (getServiceResponseId (ce_service_id (tk_command t)))) error retryable (SerializeToString packet)).
  assert (forall w', w' = w -> streams w !! tk_gatewayId t <> Some (mkStream (tk_instanceId t) (tk_reactor t)) ->
    (forall r, r <> tk_reactor t -> results r w' = results r w) /\
    exists res, cr_request_id res = ce_request_id (tk_command t) /\
      cr_response_service_id res = uint32 (getServiceResponseId (ce_service_id (tk_command t))) /\
      (results (tk_reactor t) w' = results (tk_reactor t) w ++ [res] \/
       results (tk_reactor t) w' = results (tk_reactor t) w /\ unreachable t w')) as Hgone.
  { intros w' -> Hne. split; [done|]. exists res. split; [done|]. split; [done|]. right.
    split; [done|]. by left. }
  destruct (streams w !! tk_gatewayId t) as [[inst ad]|] eqn:Eg; simpl; [|apply (Hgone w); done].
  destruct (decide (inst = tk_instanceId t)) as [->|Hi]; simpl; [|apply (Hgone w); congruence].
  destruct (decide (ad = tk_reactor t)) as [->|Ha]; simpl; [|apply (Hgone w); congruence].
  clear Hgone. unfold reactor_enqueue. destruct (reactors w !! tk_reactor t) as [ra|] eqn:Er.
  - pose proof (Enqueue_cases frame (ra_writer ra) ra) as Hc.
    assert (set_writer (ra_writer ra) ra = ra) as Hra by by destruct ra. simpl in Hc. rewrite Hra in Hc.
    destruct (Enqueue frame (ra_writer ra)) as [ok wr]. destruct Hc as (Hc & _). simpl. split.
    + intros r Hne. unfold results. simpl. by rewrite lookup_insert_ne.
    + exists res. split; [done|]. split; [done|]. unfold results, unreachable. simpl.
      rewrite lookup_insert_eq, Er. destruct Hc as [(_ & -> & _)|(_ & -> & Hf)].
      * left. by rewrite omap_app.
      * right. rewrite Hra. split; [done|]. by right.
  - simpl. split; [done|]. exists res. split; [done|]. split; [done|]. right.
    split; [done|]. right. simpl. by rewrite Er.
Qed.

Lemma once_after {A} t (m : Node A) k :
  only_sends delivers m -> (forall a, answers_once t (k a)) -> answers_once t (seq_bind m k).
Proof.
  intros Hm Hk w. unfold seq_bind. specialize (Hm w). destruct (m w) as [a w1]. simpl in Hm.
  destruct (Hk a w1) as (Ho & res & Hid & Hsv & Hres). split.
  - intros r Hr. rewrite Ho by done. by apply sends_results.
  - exists res. split; [done|]. split; [done|]. by rewrite <- (sends_results _ _ _ Hm).
Qed.

Lemma once_before t (m : Node unit) (k : unit -> Node unit) :
  answers_once t m -> (forall a, only_sends delivers (k a)) -> answers_once t (seq_bind m k).
Proof.
  intros Hm Hk w. unfold seq_bind. specialize (Hm w). destruct (m w) as [a w1]. simpl in Hm.
  destruct Hm as (Ho & res & Hid & Hsv & Hres). specialize (Hk a w1). split.
  - intros r Hr. rewrite <- (Ho r Hr). by apply sends_results.
  - exists res. split; [done|]. split; [done|]. rewrite (sends_results _ _ _ Hk).
    destruct Hres as [Hres|[Hres Hu]]; [by left|]. right. split; [done|]. by eapply sends_unreachable.
Qed.
End Answers.

Section CommandTheorems.
Context `{Collation} `{StdHash} `{Faults} `{PacketCodec} `{E : Env}.

Lemma finish_text_once t id a : answers_once t (finish_text t id a).
Proof.
  unfold finish_text. apply once_before; [apply reply_once|]. intros [].
  destruct (at_shouldDeliver a); [|apply only_sends_pure].
  apply only_sends_for_each. intros uid. apply only_sends_bind; [apply DeliverToUser_sends|].
  intros ?. apply only_sends_pure.
Qed.

Lemma execute_once t : answers_once t (execute t).
Proof.
  unfold execute. destruct (ParseFromString _); [|apply reply_once]. cbv zeta.
  destruct (_ =? _); [|destruct (_ =? _)].
  - apply once_after; [apply AcceptText_sends|]. intros a. apply finish_text_once.
  - apply once_after; [apply AcceptGroupText_sends|]. intros a. apply finish_text_once.
  - apply once_after; [apply ExecuteGatewayCommand_sends|]. intros a. apply reply_once.
Qed.

Lemma authorize_once t : answers_once t (authorize t).
Proof.
  unfold authorize. apply once_after; [apply only_sends_use_redis|]. intros l.
  destruct (holds_lease t l); [apply execute_once|apply reply_once].
Qed.

(** C15: a command that reaches the workers is answered once, to its sender.
    Whatever the command is and whatever fails, running its task adds exactly
    one result, with the request id of the command and the response id of its
    service, to the stream it came from, and none to any other; the result is
    missing only if at the end that stream is no longer the registered one, has
    stopped or has a full queue. *)
Theorem command_answered_once t w :
  let w' := (run_task t w).2 in
  (forall r, r <> tk_reactor t -> results r w' = results r w) /\
  exists res, cr_request_id res = ce_request_id (tk_command t) /\
    cr_response_service_id res = uint32 (getServiceResponseId (ce_service_id (tk_command t))) /\
    (results (tk_reactor t) w' = results (tk_reactor t) w ++ [res] \/
     results (tk_reactor t) w' = results (tk_reactor t) w /\ unreachable t w').
Proof.
  assert (answers_once t (run_task t)) as Ho; [|apply Ho].
  unfold run_task, WithTimeout, Expired.
  apply once_after; [sends|]. intros now. apply once_after; [sends|]. intros d.
  apply once_after; [sends|]. intros [|]; [apply reply_once|apply authorize_once].
Qed.

(** ** Superseded connections *)

(** Only the stream of the task changes, by at most one refusal. *)
Definition refused (t : task) (w w' : node) : Prop :=
  sql w' = sql w /\ cache w' = cache w /\ streams w' = streams w /\
  (forall r, r <> tk_reactor t -> reactors w' !! r = reactors w !! r) /\
  (results (tk_reactor t) w' = results (tk_reactor t) w \/
   exists res, results (tk_reactor t) w' = results (tk_reactor t) w ++ [res] /\
     (cr_error res = AuthenticationRequired \/ cr_error res = DeadlineExceeded)).

Lemma reply_refuses t (error : Z) retryable packet w0 w :
  sql w = sql w0 -> cache w = cache w0 -> streams w = streams w0 -> reactors w = reactors w0 ->
  error = AuthenticationRequired \/ error = DeadlineExceeded ->
  refused t w0 (reply t error retryable packet w).2.
Proof.
  intros E1 E2 E3 E4 He. unfold refused, results. rewrite <- E1, <- E2, <- E3, <- E4.
  unfold reply, Reply, seq_bind, reads, pure.
  destruct (streams w !! tk_gatewayId t) as [st|]; simpl; [|by repeat split; auto].
  destruct (decide _); simpl; [|by repeat split; auto]. destruct (decide _); simpl; [|by repeat split; auto].
  unfold reactor_enqueue. destruct (reactors w !! tk_reactor t) as [ra|] eqn:Er.
  2: { simpl. rewrite Er. by repeat split; auto. }
  set (frame := result_frame _ _ _ _).
  pose proof (Enqueue_cases frame (ra_writer ra) ra) as Hc.
  assert (set_writer (ra_writer ra) ra = ra) as Hra by by destruct ra. simpl in Hc. rewrite Hra in Hc.
  destruct (Enqueue frame (ra_writer ra)) as [ok wr]. destruct Hc as (Hc & _). simpl.
  split; [done|]. split; [done|]. split; [done|]. split.
  { intros r Hr. by rewrite lookup_insert_ne. }
  rewrite lookup_insert_eq. destruct Hc as [(_ & -> & _)|(_ & -> & _)].
  - right. rewrite omap_app. eexists. split; [done|]. exact He.
  - left. by rewrite Hra.
Qed.

Lemma getSessionLease_pure uid c r : (getSessionLease uid c r).2 = r.
Proof.
  unfold getSessionLease, Redis.executeTemplate. destruct (uid <=? 0); [done|].
  destruct (c_fault c); [|done|]; (destruct (GET _ _ r) as [[]|]; done).
Qed.

Lemma use_lease uid w :
  use_redis (getSessionLease uid) w =
    ((getSessionLease uid (redis_call (calls w)) (cache w)).1, with_cache (cache w) w).
Proof.
  unfold use_redis. pose proof (getSessionLease_pure uid (redis_call (calls w)) (cache w)) as Hp.
  destruct (getSessionLease _ _ _) as [l r]. simpl in *. by subst.
Qed.

Lemma run_task_refused t w :
  (forall c, holds_lease t (getSessionLease (ce_actor_uid (tk_command t)) c (cache w)).1 = false) ->
  refused t w (run_task t w).2.
Proof.
  intros Hno. unfold run_task, WithTimeout, Expired, NowUnixMilliseconds, steady_now, seq_bind, pure.
  set (w1 := with_cache _ (with_cache _ (with_cache _ w))).
  destruct (_ <=? _); [by apply reply_refuses; auto|].
  unfold authorize, seq_bind. rewrite use_lease. rewrite Hno. apply reply_refuses; auto.
Qed.

(** C9: commands of a superseded connection are refused for good.  Once a
    second login of the user has returned its generation, a command carrying
    the generation and connection of the first changes neither MySQL nor Redis
    nor any stream but the one it came from, where it is answered with
    AuthenticationRequired (or DeadlineExceeded) or not at all; whatever the
    users did in between and afterwards, whatever failed and whatever the
    command asks. *)
Theorem superseded_command_refused uid n0 r0 h1 g i cn t c h2 g' i' cn' t' c' h3 tk w :
  lease_inv uid n0 r0 ->
  let '(gen1, r1) := bindSessionLease uid g i cn t c (lease_run h1 r0) in
  let '(gen2, r2) := bindSessionLease uid g' i' cn' t' c' (lease_run h2 r1) in
  0 < gen1 -> 0 < gen2 -> cache w = lease_run h3 r2 ->
  tk_gatewayId tk = g -> tk_instanceId tk = i -> ce_connection_id (tk_command tk) = cn ->
  ce_connection_generation (tk_command tk) = gen1 -> ce_actor_uid (tk_command tk) = uid ->
  refused tk w (run_task tk w).2.
Proof.
  intros Hinv0. pose proof (superseded_fenced uid n0 r0 h1 g i cn t c h2 g' i' cn' t' c' h3 Hinv0) as Hs.
  destruct (bindSessionLease _ _ _ _ _ c _) as [gen1 r1].
  destruct (bindSessionLease _ _ _ _ _ c' _) as [gen2 r2].
  intros Hg1 Hg2 Hw E1 E2 E3 E4 E5. destruct (Hs Hg1 Hg2) as (_ & k & Hk & Hf).
  apply run_task_refused. intros c0. rewrite Hw, E5.
  destruct (fenced_old_lease uid k (mkLease g i cn gen1) _ Hf Hk Hg1 c0 0) as (Hne & _).
  destruct (holds_lease _ _) eqn:Eh; [|done]. exfalso. apply Hne.
  unfold holds_lease in Eh. boolp. destruct (getSessionLease _ _ _).1. simpl in *. congruence.
Qed.
End CommandTheorems.

(** A concrete node for the witnesses. *)
Module Calm.
Definition env : Env := {|
  redis_call n := mkCall FNone 100; id_calls n := [mkCall FNone (epoch + 5)];
  date_time n := "2026-01-01 00:00:00"; unix_ms n := 1000; steady_ns n := 0; machine_id := 1;
  forward_upload n q := UploadStatus true ""; message_node_id := "message-1";
  require_peer_identity := false |}.
Definition old_task : task :=
  mkNodeTask "gw-a" "i1" 1 (mkCommandEnvelope "q1" 7 "c1" 1 (sid ID_TEXT_SEND_REQ) 0 5000 "").
Definition r1 : redis := (bindSessionLease 7 "gw-a" "i1" "c1" 60 (ok_at 0) ∅).2.
Definition r2 : redis := (bindSessionLease 7 "gw-b" "i2" "c2" 60 (ok_at 10) r1).2.
Definition after_login : node := new_node Sample.start r2 2 16.
End Calm.

Lemma superseded_command_refused_witness :
  refused Calm.old_task Calm.after_login
    (run_task (H := Sample.exact) (H0 := Sample.no_hash) (H1 := Sample.no_faults)
       (H2 := bits_codec) (E := Calm.env) Calm.old_task Calm.after_login).2.
Proof.
  exact (superseded_command_refused (H := Sample.exact) (H0 := Sample.no_hash)
    (H1 := Sample.no_faults) (H2 := bits_codec) (E := Calm.env)
    7 0 ∅ [] "gw-a" "i1" "c1" 60 (ok_at 0) [] "gw-b" "i2" "c2" 60 (ok_at 10) []
    Calm.old_task Calm.after_login (lease_inv_empty 7) eq_refl eq_refl eq_refl
    eq_refl eq_refl eq_refl eq_refl eq_refl).
Defined.
