(* ===== verification/Delivery.v ===== *)
(** * Accepted texts and their deliveries

    What [AcceptText], [AcceptGroupText] and [DeliverToUser] achieve: an accepted
    text is durable and is offered for delivery once, and a delivery carries the
    route Redis gave. *)

From S2P Require Import Prelude Const Packet Redis Store Mysql Messages Ledger History Pools.
From S2P Require Import Transport Node Services Reactor Streams Commands.

(** A text command of either kind. *)
Definition accept_request `{Collation} `{StdHash} `{Faults} `{Env} (group : bool) (request : Packet)
  : Node AcceptedText :=
  if group then AcceptGroupText request else AcceptText request.

(** The target a request names. *)
Definition request_target (group : bool) (request : Packet) : target :=
  if group then ToGroup (if has_int F_gid request then get_int F_gid request
                         else if has_int F_group_id request then get_int F_group_id request else 0)
  else ToUser (get_int F_to request).

Section Durable.
Context `{Collation} `{StdHash} `{Faults} `{E : Env}.

(** Whether a command was new, and to whom it goes. *)
Lemma accept_spec_new sender t cid content now n d :
  ledger_ok n d ->
  let '(r, _, _) := accept_spec sender t cid content now d n in
  ar_error r = Success ->
  (ar_duplicate r = false <-> messages d !! ar_messageId r = None) /\
  match t with
  | ToUser _ => True
  | ToGroup gid => ar_recipientUids r = other_members gid sender d
  end.
Proof.
  intros Hok.
  assert (forall base c receiver to d1, ar_duplicate base = false ->
    let '(r, _, _) := command_spec base sender receiver c cid content now to d d1 n in
    ar_error r = Success ->
    (ar_duplicate r = false <-> messages d !! ar_messageId r = None) /\ ar_recipientUids r = to) as Hcmd.
  { intros base c receiver to d1 Hb. unfold command_spec.
    destruct (find_client sender cid d) as [[id m]|] eqn:Ef.
    - destruct (same_command _ _ _ _); [|by intros ?]. intros _. simpl. split; [|done].
      apply find_client_Some in Ef as (Hm & _). rewrite Hm. done.
    - intros _. simpl. split; [|done]. rewrite Hb. split; [|done]. intros _.
      destruct (messages d !! n) as [m|] eqn:Em; [|done]. exfalso.
      pose proof (lo_fresh _ _ Hok n m Em). lia. }
  destruct t as [receiver|gid]; simpl.
  - unfold direct_spec. destruct (_ <$> _) as [c|]; [|done].
    specialize (Hcmd (set_conversation c no_accept) c receiver []
      (join (direct_rows c sender receiver) (open_conversation c 1 c now d)) eq_refl).
    destruct (command_spec _ _ _ _ _ _ _ _ _ _ _) as [[r ?] ?]. intros He. by destruct (Hcmd He).
  - unfold group_spec. destruct (groupInfo d !! gid) as [gi|]; [|done].
    destruct (groupMembers d !! (gid, sender)) as [gm|]; [|done].
    destruct (gm_speech gm =? 0); [|done]. cbv zeta. apply Hcmd. done.
Qed.

(** The data access object's part of accepting a text. *)
Lemma accept_text_stored sender t cid content now s :
  saved s = None -> ledger_ok (next_message s) (db s) ->
  let '(r, s') := accept_text sender t cid content now s in
  good (next_message s) (db s) s' /\
  (ar_error r = Success ->
   (exists m, messages (db s') !! ar_messageId r = Some m /\
      command_row r sender (target_id t) cid content m) /\
   (ar_duplicate r = false <-> messages (db s) !! ar_messageId r = None) /\
   match t with ToUser _ => True | ToGroup gid => ar_recipientUids r = other_members gid sender (db s) end).
Proof.
  intros Hs Hok. pose proof (accept_success sender t cid content now s Hs Hok) as Ha.
  pose proof (accept_implements sender t cid content now s Hs Hok) as Hi.
  pose proof (accept_spec_new sender t cid content now _ _ Hok) as Hn.
  destruct (accept_text _ _ _ _ _ s) as [r s']. destruct Ha as [Hg Ha]. split; [done|].
  intros He. split; [by destruct (Ha He)|].
  destruct (accept_spec _ _ _ _ _ _ _) as [[r0 d1] n1].
  destruct Hi as (_ & _ & [(-> & _)|(He' & _)]); [by apply Hn|]. by rewrite He' in He.
Qed.

(** The response as a function of the stored result. *)
Lemma accept_response_fields failed r rsp :
  get_int F_error (accept_response failed r rsp) = ar_error r /\
  (ar_error r = Success ->
   get_int F_message_id (accept_response failed r rsp) = ar_messageId r /\
   get_int F_conversation_id (accept_response failed r rsp) = ar_conversationId r /\
   get_int F_conversation_seq (accept_response failed r rsp) = ar_conversationSeq r).
Proof.
  unfold accept_response. destruct (ar_error r =? Success) eqn:Ee; simpl.
  - split; [by pkt|]. intros _. repeat split; by pkt.
  - boolp. split; [|done]. by pkt.
Qed.
End Durable.

Section AcceptTheorems.
Context `{Collation} `{StdHash} `{Faults} `{E : Env}.

(** Both kinds of command run the same way. *)
Lemma accept_request_run group request w :
  (exists what rsp, accept_request group request w = (reject what rsp, w)) \/
  exists failed rsp q,
    get_str F_data q = get_str F_data request /\ get_int F_from q = get_int F_uid request /\
    let now := date_time (calls w) in
    let cid := client_message_id request in
    let '(r, s') := accept_text (get_int F_uid request) (request_target group request) cid
                      (get_str F_data request) now (sql w) in
    accept_request group request w =
      (if ar_error r =? Success
       then mkAcceptedText (accept_response failed r rsp) (accept_delivery cid now r q)
              (match request_target group request with
               | ToUser u => [u] | ToGroup _ => ar_recipientUids r end) (negb (ar_duplicate r))
       else mkAcceptedText (accept_response failed r rsp) empty_packet [] false,
       with_sql s' (with_cache (cache w) w)).
Proof.
  destruct group; simpl.
  - unfold AcceptGroupText. cbv zeta. destruct (_ || _); [left; by eexists _, _|].
    right. exists "persistent group message accept failed". eexists _, _. split; [|split]; cycle 2.
    + unfold seq_bind, getCurrentDateTime, use_sql, pure. simpl.
      destruct (acceptGroupText _ _ _ _ _ _) as [r s']. simpl. destruct (ar_error r =? 0); simpl; reflexivity.
    + by pkt.
    + by pkt.
  - unfold AcceptText. cbv zeta. destruct (_ || _); [left; by eexists _, _|].
    right. exists "persistent message accept failed". eexists _, _. split; [|split]; cycle 2.
    + unfold seq_bind, getCurrentDateTime, use_sql, pure. simpl.
      destruct (acceptDirectText _ _ _ _ _ _) as [r s']. simpl. destruct (ar_error r =? 0); simpl; reflexivity.
    + by pkt.
    + by pkt.
Qed.

(** What an accepted text leaves in the tables and offers for delivery. *)
Lemma accept_request_stored group request w :
  saved (sql w) = None -> ledger_ok (next_message (sql w)) (db (sql w)) ->
  let '(a, w') := accept_request group request w in
  let rsp := at_response a in
  (get_int F_error rsp = Success ->
   exists m, messages (db (sql w')) !! get_int F_message_id rsp = Some m /\
     m_senderId m = get_int F_uid request /\
     m_receiverId m = target_id (request_target group request) /\
     m_content m = get_str F_data request /\
     at_place m (get_int F_conversation_id rsp) (get_int F_conversation_seq rsp) /\
     get_int F_message_id (at_delivery a) = get_int F_message_id rsp /\
     get_int F_conversation_id (at_delivery a) = get_int F_conversation_id rsp /\
     get_int F_conversation_seq (at_delivery a) = get_int F_conversation_seq rsp /\
     get_str F_data (at_delivery a) = m_content m /\
     get_int F_from (at_delivery a) = m_senderId m /\
     at_recipientUids a = match request_target group request with
                          | ToUser u => [u]
                          | ToGroup g => other_members g (m_senderId m) (db (sql w))
                          end /\
     (at_shouldDeliver a = true <-> messages (db (sql w)) !! get_int F_message_id rsp = None)) /\
  (get_int F_error rsp <> Success -> at_shouldDeliver a = false).
Proof.
  intros Hs Hok. destruct (accept_request_run group request w)
    as [(what & rsp & ->)|(failed & rsp & q & Hd & Hf & Hrun)].
  { simpl. split; [|done]. by pkt. }
  cbv zeta in Hrun.
  pose proof (accept_text_stored (get_int F_uid request) (request_target group request)
    (client_message_id request) (get_str F_data request) (date_time (calls w)) (sql w) Hs Hok) as Ha.
  destruct (accept_text _ _ _ _ _ _) as [r s']. rewrite Hrun. destruct Ha as [_ Ha].
  destruct (accept_response_fields failed r rsp) as [Fe Ff].
  destruct (ar_error r =? Success) eqn:Ee; boolp; cbn [at_response at_delivery at_recipientUids
    at_shouldDeliver]; rewrite Fe; [|split; [done|done]].
  split; [|done]. intros _. destruct (Ff Ee) as (-> & -> & ->).
  destruct (Ha Ee) as ((m & Hm & (R1 & R2 & _ & R4 & R5 & _)) & Hnew & Hto).
  exists m. unfold accept_delivery. split; [done|]. split; [done|]. split; [done|]. split; [done|].
  split; [done|]. split; [by pkt|]. split; [by pkt|]. split; [by pkt|].
  split; [pkt; by rewrite Hd|]. split; [pkt; by rewrite Hf|]. split.
  - destruct (request_target group request); [done|]. by rewrite Hto, R1.
  - rewrite <- Hnew. by destruct (ar_duplicate r).
Qed.
End AcceptTheorems.

(** ** Deliveries follow the lease *)

Section Route.
Context `{E : Env}.

(** One attempt along a lease. *)
Lemma Deliver_cases l e w :
  let '(ok, w') := Deliver l e w in
  (ok = true /\ exists st ra wr, streams w !! gatewayId l = Some st /\ st_instanceId st = instanceId l /\
     reactors w !! st_reactor st = Some ra /\
     w' = with_reactors (<[st_reactor st := set_writer wr ra]> (reactors w)) w /\
     frames (set_writer wr ra) = frames ra ++ [MDelivery e]) \/
  (ok = false /\ reactors w' = reactors w /\ streams w' = streams w /\ cache w' = cache w /\
   calls w' = calls w /\
   forall st ra, streams w !! gatewayId l = Some st -> st_instanceId st = instanceId l ->
     reactors w !! st_reactor st = Some ra -> full ra).
Proof.
  unfold Deliver, seq_bind, reads, pure.
  destruct (streams w !! gatewayId l) as [st|] eqn:Es; [|right; repeat split; done].
  destruct (decide _) as [Hi|Hi]; [|right; repeat split; try done; intros; by simplify_eq].
  unfold reactor_enqueue. destruct (reactors w !! st_reactor st) as [ra|] eqn:Er.
  - pose proof (Enqueue_cases (MDelivery e) (ra_writer ra) ra) as Hc.
    assert (set_writer (ra_writer ra) ra = ra) as Hra by by destruct ra. simpl in Hc. rewrite Hra in Hc.
    destruct (Enqueue (MDelivery e) (ra_writer ra)) as [ok wr].
    destruct Hc as ([(-> & Hf & _)|(-> & -> & Hf)] & _); [left|right].
    + split; [done|]. by exists st, ra, wr.
    + rewrite Hra. split; [done|]. split; [by apply insert_id|].
      repeat split; try done. intros; by simplify_eq.
  - right. repeat split; try done. intros; by simplify_eq.
Qed.

(** C25: a delivery follows the lease.  [DeliverToUser] reports success exactly
    when it has appended the envelope, addressed to the connection and the
    generation of a lease Redis holds for the recipient, to the stream
    registered for the gateway instance that lease names; otherwise it has
    written to no stream.  If Redis answers, and the stream of the lease is
    registered, live and has room, it succeeds. *)
Theorem delivery_route uid e w :
  let held l := exists now, 0 < uid /\ GET now (leaseKey uid) (cache w) = Some (VLease l) in
  let '(ok, w') := DeliverToUser uid e w in
  (ok = true -> exists l st ra ra', held l /\ streams w !! gatewayId l = Some st /\
     st_instanceId st = instanceId l /\ reactors w !! st_reactor st = Some ra /\
     reactors w' = <[st_reactor st := ra']> (reactors w) /\
     frames ra' = frames ra ++ [MDelivery (set_route uid (connectionId l) (generation l) e)]) /\
  (ok = false -> reactors w' = reactors w) /\
  (forall l st ra, 0 < uid -> c_fault (redis_call (calls w)) = FNone ->
     GET (c_now (redis_call (calls w))) (leaseKey uid) (cache w) = Some (VLease l) ->
     lease_empty l = false -> streams w !! gatewayId l = Some st -> st_instanceId st = instanceId l ->
     reactors w !! st_reactor st = Some ra -> ~ full ra -> ok = true).
Proof.
  set (held l := exists now, 0 < uid /\ GET now (leaseKey uid) (cache w) = Some (VLease l)).
  assert (forall c, let l := (getSessionLease uid c (cache w)).1 in
    lease_empty l = false -> held l) as Hheld.
  { intros c. unfold getSessionLease, Redis.executeTemplate, held.
    destruct (uid <=? 0) eqn:Eu; boolp; [done|]. destruct (c_fault c); [|done|].
    - destruct (GET (c_now c) _ _) as [[]|] eqn:Eg; try done. intros _. exists (c_now c).
      split; [lia|done].
    - destruct (GET (c_now c) _ _) as [[]|] eqn:Eg; done. }
  cbv zeta. fold held. unfold DeliverToUser, seq_bind at 1. rewrite use_lease.
  set (l1 := (getSessionLease uid (redis_call (calls w)) (cache w)).1).
  set (w1 := with_cache (cache w) w).
  assert (forall l, 0 < uid -> c_fault (redis_call (calls w)) = FNone ->
     GET (c_now (redis_call (calls w))) (leaseKey uid) (cache w) = Some (VLease l) -> l1 = l) as Hl1.
  { intros l Hu Hf Hg. unfold l1, getSessionLease, Redis.executeTemplate.
    destruct (uid <=? 0) eqn:Eu; boolp; [lia|]. by rewrite Hf, Hg. }
  destruct (lease_empty l1) eqn:El1.
  { split; [done|]. split; [done|]. intros l st ra Hu Hf Hg Hne. rewrite <- (Hl1 l Hu Hf Hg) in Hne.
    congruence. }
  unfold seq_bind at 1.
  pose proof (Deliver_cases l1 (set_route uid (connectionId l1) (generation l1) e) w1) as Hd1.
  destruct (Deliver l1 _ w1) as [[|] w2].
  { destruct Hd1 as [(_ & st & ra & wr & A1 & A2 & A3 & -> & A5)|[? _]]; [|done]. simpl.
    split; [|by split]. intros _. exists l1, st, ra, (set_writer wr ra). by eauto 10. }
  destruct Hd1 as [[? _]|(_ & B1 & B2 & B3 & B4 & B5)]; [done|].
  assert (forall l st ra, 0 < uid -> c_fault (redis_call (calls w)) = FNone ->
     GET (c_now (redis_call (calls w))) (leaseKey uid) (cache w) = Some (VLease l) ->
     lease_empty l = false -> streams w !! gatewayId l = Some st -> st_instanceId st = instanceId l ->
     reactors w !! st_reactor st = Some ra -> ~ full ra -> false = true) as Hcontra.
  { intros l st ra Hu Hf Hg _ C1 C2 C3 C4. rewrite <- (Hl1 l Hu Hf Hg) in C1, C2.
    exfalso. apply C4. by apply (B5 st ra). }
  unfold seq_bind at 1. rewrite use_lease, B3. simpl.
  set (l2 := (getSessionLease uid (redis_call (calls w2)) (cache w)).1).
  destruct (lease_empty l2) eqn:El2; simpl; [split; [done|]; split; [by intros _|done]|].
  destruct (same_lease l2 l1) eqn:Esame; simpl; [split; [done|]; split; [by intros _|done]|].
  set (w3 := with_cache (cache w) w2).
  pose proof (Deliver_cases l2 (set_route uid (connectionId l2) (generation l2)
    (set_route uid (connectionId l1) (generation l1) e)) w3) as Hd2.
  destruct (Deliver l2 _ w3) as [[|] w4].
  - destruct Hd2 as [(_ & st & ra & wr & A1 & A2 & A3 & -> & A5)|[? _]]; [|done]. simpl.
    split; [|by split]. intros _. exists l2, st, ra, (set_writer wr ra). simpl in *. rewrite B1, B2 in *.
    split; [by apply (Hheld (redis_call (calls w2)))|]. done.
  - destruct Hd2 as [[? _]|(_ & D1 & _)]; [done|]. split; [done|]. split; [|done].
    intros _. rewrite D1. simpl. by rewrite B1.
Qed.
End Route.

(** ** What is written to the streams

    [logged l w w']: of the state that streams depend on, an operation changed
    only the frames of the reactors, by those in [l], which names the reactor of
    each. *)

Abbreviation log := (list (nat * MessageToGatewayFrame)).
Definition frames_for (r : nat) (l : log) : list MessageToGatewayFrame := snd <$> filter (fun x => x.1 = r) l.

(** The reactor has accepted [fs] in addition. *)
Record grown (fs : list MessageToGatewayFrame) (ra ra' : reactor) : Prop := {
  gr_rest : ra' = set_writer (ra_writer ra') ra;
  gr_frames : frames ra' = frames ra ++ fs;
  gr_stopped : w_stopped (ra_writer ra') = w_stopped (ra_writer ra);
  gr_queue : (length (w_queue (ra_writer ra)) <= length (w_queue (ra_writer ra')) <=
              length (w_queue (ra_writer ra)) + length fs)%nat }.

Record logged (l : log) (w w' : node) : Prop := {
  lg_streams : streams w' = streams w;
  lg_cache : cache w' = cache w;
  lg_calls : (calls w <= calls w')%nat;
  lg_reactors : forall r, option_Forall2 (grown (frames_for r l)) (reactors w !! r) (reactors w' !! r) }.

Lemma frames_for_app r l1 l2 : frames_for r (l1 ++ l2) = frames_for r l1 ++ frames_for r l2.
Proof. unfold frames_for. by rewrite filter_app, fmap_app. Qed.

Lemma length_frames_for r l : (length (frames_for r l) <= length l)%nat.
Proof. unfold frames_for. rewrite length_fmap. apply length_filter. Qed.

Lemma grown_refl ra : grown [] ra ra.
Proof. split; [by destruct ra|by rewrite app_nil_r|done|simpl; lia]. Qed.

Lemma grown_trans l1 l2 ra1 ra2 ra3 : grown l1 ra1 ra2 -> grown l2 ra2 ra3 -> grown (l1 ++ l2) ra1 ra3.
Proof.
  intros [A1 A2 A3 A4] [B1 B2 B3 B4]. split.
  - rewrite B1, A1. done.
  - by rewrite B2, A2, app_assoc.
  - congruence.
  - rewrite length_app. lia.
Qed.

Lemma logged_nil w w' : streams w' = streams w -> cache w' = cache w -> (calls w <= calls w')%nat ->
  reactors w' = reactors w -> logged [] w w'.
Proof. intros E1 E2 E3 E4. split; try done. intros r. rewrite E4. destruct (reactors w !! r); constructor. apply grown_refl. Qed.

Lemma logged_trans l1 l2 w1 w2 w3 : logged l1 w1 w2 -> logged l2 w2 w3 -> logged (l1 ++ l2) w1 w3.
Proof.
  intros [A1 A2 A3 A4] [B1 B2 B3 B4]. split; [congruence|congruence|lia|]. intros r. rewrite frames_for_app.
  specialize (A4 r). specialize (B4 r). destruct A4 as [ra1 ra2 Ha|]; inversion B4; subst; constructor. by eapply grown_trans.
Qed.

(** One frame to a stream: appended, or the stream is full. *)
Lemma enqueue_logged r f w :
  let '(ok, w') := reactor_enqueue r f w in
  (ok = true /\ logged [(r, f)] w w' /\ exists ra, reactors w !! r = Some ra /\ ~ full ra) \/
  (ok = false /\ logged [] w w' /\ forall ra, reactors w !! r = Some ra -> full ra).
Proof.
  unfold reactor_enqueue. destruct (reactors w !! r) as [ra|] eqn:Er.
  2:{ right. split; [done|]. split; [by apply logged_nil|done]. }
  pose proof (Enqueue_cases f (ra_writer ra) ra) as Hc.
  assert (set_writer (ra_writer ra) ra = ra) as Hra by by destruct ra. simpl in Hc. rewrite Hra in Hc.
  destruct (Enqueue f (ra_writer ra)) as [ok wr] eqn:Ee.
  destruct Hc as ([(-> & Hf & Hroom)|(-> & -> & Hfull)] & Hs & Hl); [left|right].
  - split; [done|]. split; [|by exists ra]. split; try done. intros r'. simpl. destruct (decide (r' = r)) as [->|Hne].
    + rewrite lookup_insert_eq, Er. unfold frames_for. rewrite filter_cons_True by done. constructor.
      split; [by destruct ra|exact Hf|exact Hs|]. simpl. split; [exact Hl|]. revert Ee. unfold Enqueue.
      destruct (_ || _); [done|]. destruct (w_inFlight _); [|destruct (w_queue (ra_writer ra)) eqn:Eq];
        intros [= <-]; cbn [w_queue]; rewrite ?length_app, ?Eq; simpl; rewrite ?length_app; simpl; lia.
    + rewrite lookup_insert_ne by done. unfold frames_for. rewrite filter_cons_False by (simpl; congruence).
      destruct (reactors w !! r'); constructor. apply grown_refl.
  - split; [done|]. split; [|intros ? [= <-]; done]. rewrite Hra, insert_id by done. by apply logged_nil.
Qed.

Section Logs.
Context `{Collation} `{StdHash} `{Faults} `{PacketCodec} `{E : Env}.

(** [GET] finds the lease, the stream of its gateway is registered, and its live
    reactor has room for [k] frames; Redis answers until the call [until]. *)
Definition listens (k until : nat) (uid : Z) (w : node) : Prop :=
  exists l st ra, 0 < uid /\ lease_empty l = false /\
    (forall n, (calls w <= n < until)%nat -> c_fault (redis_call n) = FNone /\
       GET (c_now (redis_call n)) (leaseKey uid) (cache w) = Some (VLease l)) /\
    streams w !! gatewayId l = Some st /\ st_instanceId st = instanceId l /\ reactors w !! st_reactor st = Some ra /\
    w_stopped (ra_writer ra) = false /\ (length (w_queue (ra_writer ra)) + k <= kMaxStreamQueue)%nat.

Lemma listens_later l k until uid w w' : logged l w w' -> listens (length l + k) until uid w -> listens k until uid w'.
Proof.
  intros [Es Ec El Er] (le & st & ra & Hu & Hne & Hget & Hst & Hi & Hra & Hstop & Hq). specialize (Er (st_reactor st)).
  rewrite Hra in Er. inversion Er as [? ra' [G1 G2 G3 G4] E1 E2|]; subst. exists le, st, ra'. rewrite Es, Ec, G3.
  do 2 (split; [done|]). split; [intros n Hn; apply Hget; lia|]. do 4 (split; [done|]).
  pose proof (length_frames_for (st_reactor st) l). lia.
Qed.

Lemma listens_less k k' until until' uid w : (k <= k')%nat -> (until <= until')%nat -> listens k' until' uid w -> listens k until uid w.
Proof.
  intros Hk Ht (le & st & ra & Hu & Hne & Hget & ? & ? & ? & ? & ?). exists le, st, ra.
  do 2 (split; [done|]). split; [intros n Hn; apply Hget; lia|]. split_and!; (done || lia).
Qed.

(** A frame for [uid] along a lease Redis holds, or none. *)
Definition along (uid : Z) (e : DeliveryEnvelope) (w : node) (o : option (nat * MessageToGatewayFrame)) : Prop :=
  forall r f, o = Some (r, f) -> exists l st now, 0 < uid /\ GET now (leaseKey uid) (cache w) = Some (VLease l) /\
    streams w !! gatewayId l = Some st /\ st_instanceId st = instanceId l /\ r = st_reactor st /\
    f = MDelivery (set_route uid (connectionId l) (generation l) e).

Lemma along_later l uid e w w' o : logged l w w' -> along uid e w' o -> along uid e w o.
Proof. intros [Es Ec _ _] Ha r f Ho. specialize (Ha r f Ho). by rewrite Es, Ec in Ha. Qed.

Lemma Deliver_logged l e w :
  let '(ok, w') := Deliver l e w in
  sql w' = sql w /\ calls w' = calls w /\
  ((ok = true /\ exists st, streams w !! gatewayId l = Some st /\ st_instanceId st = instanceId l /\
      logged [(st_reactor st, MDelivery e)] w w') \/
   (ok = false /\ logged [] w w' /\ forall st ra, streams w !! gatewayId l = Some st -> st_instanceId st = instanceId l ->
      reactors w !! st_reactor st = Some ra -> full ra)).
Proof.
  unfold Deliver, seq_bind, reads, pure.
  destruct (streams w !! gatewayId l) as [st|] eqn:Es; [|split_and!; try done; right; split_and!; [done|by apply logged_nil|intros; congruence] ].
  destruct (decide _) as [Hi|Hi]; [|split_and!; try done; right; split_and!; [done|by apply logged_nil|intros; congruence] ].
  pose proof (enqueue_logged (st_reactor st) (MDelivery e) w) as He. unfold reactor_enqueue in *.
  destruct (reactors w !! st_reactor st) as [ra|] eqn:Er; [destruct (Enqueue _ _) as [ok wr]|]; (do 2 (split; [done|]));
    (destruct He as [(Eok & Hl & _)|(Eok & Hl & Hf)];
     [left; split; [exact Eok|by exists st]|right; split_and!; [exact Eok|exact Hl|intros; simplify_eq; auto] ]).
Qed.

Lemma getSessionLease_held uid c r l : (getSessionLease uid c r).1 = l -> lease_empty l = false ->
  0 < uid /\ GET (c_now c) (leaseKey uid) r = Some (VLease l).
Proof.
  intros <-. unfold getSessionLease, Redis.executeTemplate. destruct (uid <=? 0) eqn:Eu; boolp; [done|].
  destruct (c_fault c); [|done|]; (destruct (GET (c_now c) _ _) as [ [] |]; try done; intros _; by split).
Qed.

Lemma getSessionLease_found uid c r l : 0 < uid -> c_fault c = FNone ->
  GET (c_now c) (leaseKey uid) r = Some (VLease l) -> (getSessionLease uid c r).1 = l.
Proof.
  intros Hu Hf Hg. unfold getSessionLease, Redis.executeTemplate. rewrite (proj2 (Z.leb_gt _ _)) by done.
  by rewrite Hf, Hg.
Qed.

Lemma DeliverToUser_logged uid e w :
  let w' := (DeliverToUser uid e w).2 in
  sql w' = sql w /\ exists o, logged (option_list o) w w' /\ along uid e w o /\ (listens 1 (calls w') uid w -> is_Some o).
Proof.
  set (Q := fun w' => sql w' = sql w /\ exists o, logged (option_list o) w w' /\ along uid e w o /\
    (listens 1 (calls w') uid w -> is_Some o)).
  change (Q (DeliverToUser uid e w).2). unfold DeliverToUser, seq_bind at 1. rewrite use_lease.
  set (w1 := with_cache (cache w) w). assert (logged [] w w1) as L1 by (apply logged_nil; simpl; (done || lia)).
  destruct (getSessionLease uid (redis_call (calls w)) (cache w)).1 as [gw inst cn gen] eqn:El.
  set (l1 := mkLease gw inst cn gen) in *.
  assert (forall w' , (S (calls w) <= calls w')%nat -> listens 1 (calls w') uid w -> lease_empty l1 = false /\
    exists st ra, streams w !! gatewayId l1 = Some st /\ st_instanceId st = instanceId l1 /\ reactors w !! st_reactor st = Some ra /\ ~ full ra) as Hlis.
  { intros w' Hc (l & st & ra & Hu & Hne & Hget & Hst & Hi & Hra & Hstop & Hq). destruct (Hget (calls w)) as [Hf Hg]; [lia|].
    rewrite (getSessionLease_found _ _ _ l Hu Hf Hg) in El. subst l. split; [done|]. exists st, ra. split_and!; try done.
    intros [?|?]; [congruence|lia]. }
  destruct (lease_empty l1) eqn:En.
  { split; [done|]. exists None. split; [done|]. split; [done|]. intros Hl. by destruct (Hlis w1 (le_n _) Hl). }
  pose proof (getSessionLease_held _ _ _ _ El En) as [Hu Hg]. unfold seq_bind at 1.
  pose proof (Deliver_logged l1 (set_route uid (connectionId l1) (generation l1) e) w1) as Hd.
  destruct (Deliver l1 _ w1) as [ok w2]. destruct Hd as (S2 & C2 & [(-> & st & Hst & Hi & L2)|(-> & L2 & Hfull)]).
  { split; [done|]. eexists (Some _). split; [exact (logged_trans _ _ _ _ _ L1 L2)|]. split; [|done].
    intros r f [= <- <-]. by exists l1, st, (c_now (redis_call (calls w))). }
  assert (forall w', (S (calls w) <= calls w')%nat -> listens 1 (calls w') uid w -> False) as Hno.
  { intros w' Hc Hl. destruct (Hlis w' Hc Hl) as (_ & st & ra & ? & ? & ? & Hroom). apply Hroom. by apply (Hfull st ra). }
  unfold seq_bind at 1. rewrite use_lease. set (w3 := with_cache (cache w2) w2).
  assert (logged [] w w3) as L3 by (eapply (logged_trans [] []); [exact L1|]; eapply (logged_trans [] []); [exact L2|]; apply logged_nil; simpl; (done || lia)).
  pose proof (lg_calls _ _ _ L3) as C3.
  destruct (getSessionLease uid (redis_call (calls w2)) (cache w2)).1 as [gw2 inst2 cn2 gen2] eqn:El2.
  set (l2 := mkLease gw2 inst2 cn2 gen2) in *. cbn [snd].
  assert (S (calls w) <= calls w3)%nat as C3' by (simpl; rewrite C2; simpl; lia).
  destruct (lease_empty l2) eqn:En2; [|destruct (same_lease l2 l1)];
    try (split; [done|]; exists None; split; [done|]; split; [done|]; intros Hl; by destruct (Hno _ C3' Hl)).
  cbn [orb]. pose proof (getSessionLease_held _ _ _ _ El2 En2) as [_ Hg2]. rewrite (lg_cache _ _ _ L2) in Hg2.
  pose proof (Deliver_logged l2 (set_route uid (connectionId l2) (generation l2) (set_route uid (connectionId l1) (generation l1) e)) w3) as Hd.
  destruct (Deliver l2 _ w3) as [ok w4]. destruct Hd as (S4 & C4 & [(-> & st & Hst & Hi & L4)|(-> & L4 & _)]); cbn [snd].
  - split; [by rewrite S4|]. eexists (Some _). split; [exact (logged_trans _ _ _ _ _ L3 L4)|]. split; [|done].
    intros r f [= <- <-]. exists l2, st, (c_now (redis_call (calls w2))). rewrite (lg_streams _ _ _ L3) in Hst. by split_and!.
  - split; [by rewrite S4|]. exists None. split; [exact (logged_trans _ _ _ _ _ L3 L4)|]. split; [done|].
    intros Hl. destruct (Hno w4); [lia|done].
Qed.

(** The answer: on the stream the command came from, unless that is gone or full. *)
Definition answered_by (t : task) (rsp : Packet) (error : Z) (retryable : bool) (w : node)
    (o : option (nat * MessageToGatewayFrame)) : Prop :=
  o = Some (tk_reactor t, result_frame (tk_command t) error retryable rsp) \/ o = None /\ unreachable t w.

Lemma answered_by_later t rsp error retryable w w' o : logged [] w w' ->
  answered_by t rsp error retryable w' o -> answered_by t rsp error retryable w o.
Proof.
  intros [E1 _ _ E4] [->|[-> Hu]]; [by left|right]. split; [done|]. destruct Hu as [Hu|Hu]; [left; by rewrite <-E1|right].
  specialize (E4 (tk_reactor t)). destruct E4 as [ra ra' [_ _ G3 G4]|]; [|done]. simpl in G4.
  destruct Hu as [Hu|Hu]; [left; congruence|right; lia].
Qed.

Lemma reply_logged t error retryable packet w :
  let w' := (reply t error retryable packet w).2 in
  sql w' = sql w /\ exists o, logged (option_list o) w w' /\ answered_by t packet error retryable w o.
Proof.
  unfold reply, Reply, seq_bind, reads, pure.
  assert (unreachable t w -> sql w = sql w /\ exists o, logged (option_list o) w w /\ answered_by t packet error retryable w o) as Hno.
  { intros Hu. split; [done|]. exists None. split; [by apply logged_nil|by right]. }
  destruct (streams w !! tk_gatewayId t) as [st|] eqn:Es; [|apply Hno; left; by rewrite Es].
  destruct (decide _) as [Hi|Hi]; [|apply Hno; left; rewrite Es; by intros [= ->] ].
  destruct (decide _) as [Hr|Hr]; [|apply Hno; left; rewrite Es; by intros [= ->] ].
  pose proof (enqueue_logged (tk_reactor t) (result_frame (tk_command t) error retryable packet) w) as He.
  assert (sql (reactor_enqueue (tk_reactor t) (result_frame (tk_command t) error retryable packet) w).2 = sql w) as Esql
    by (unfold reactor_enqueue; destruct (reactors w !! _); [by destruct (Enqueue _ _)|done]).
  destruct (reactor_enqueue _ _ w) as [ok w']. split; [done|].
  destruct He as [(_ & Hl & _)|(_ & Hl & Hf)]; [eexists (Some _); split; [exact Hl|by left]|].
  exists None. split; [exact Hl|]. right. split; [done|]. right. destruct (reactors w !! tk_reactor t) as [ra|]; [by apply Hf|done].
Qed.

(** An envelope for a recipient: at most one frame, along the recipient's lease,
    and one for a recipient who listens. *)
Definition offered (k until : nat) (e : Z -> DeliveryEnvelope) (w : node) (uid : Z)
    (o : option (nat * MessageToGatewayFrame)) : Prop :=
  along uid (e uid) w o /\ (listens k until uid w -> is_Some o).

Lemma offered_later l k until until' e w w' uid o : (until' <= until)%nat -> logged l w w' ->
  offered k until' e w' uid o -> offered (length l + k) until e w uid o.
Proof.
  intros Hu Hl [Ha Hn]. split; [by eapply along_later|]. intros Hlis. apply Hn.
  apply (listens_less k k until' until); [done|done|]. by eapply listens_later.
Qed.

Lemma offered_more k k' until e w uid o : (k <= k')%nat -> offered k until e w uid o -> offered k' until e w uid o.
Proof. intros Hk [Ha Hn]. split; [done|]. intros Hl. apply Hn. by apply (listens_less k k' until until). Qed.

Lemma deliver_all_logged e uids w :
  let w' := (for_each uids (fun uid => let! _ := DeliverToUser uid (e uid) in pure tt) w).2 in
  sql w' = sql w /\ exists outs, logged (omap id outs) w w' /\
    Forall2 (offered (length uids) (calls w') e w) uids outs.
Proof.
  revert w. induction uids as [|uid uids IH]; intros w.
  { split; [done|]. exists []. split; [by apply logged_nil|constructor]. }
  cbn [for_each]. unfold seq_bind. pose proof (DeliverToUser_logged uid (e uid) w) as (S1 & o & L1 & A1 & R1).
  destruct (DeliverToUser uid (e uid) w) as [ok w1]. cbn [snd pure] in *.
  destruct (IH w1) as (S2 & outs & L2 & F2).
  set (w2 := (for_each uids _ w1).2) in *. split; [by rewrite S2|]. exists (o :: outs).
  pose proof (lg_calls _ _ _ L2) as Hc. split; [by destruct o; apply (logged_trans _ _ _ _ _ L1 L2)|].
  constructor.
  - split; [done|]. intros Hl. apply R1. apply (listens_less 1 (length (uid :: uids)) (calls w1) (calls w2)); [simpl; lia|done|done].
  - eapply Forall2_impl; [exact F2|]. intros u x Hx. apply (offered_more (length (option_list o) + length uids)); [destruct o; simpl; lia|].
    by apply (offered_later _ _ _ (calls w2) _ _ w1).
Qed.

(** Everything [finish_text] sends: the answer, then the deliveries. *)
Definition recipients (a : AcceptedText) : list Z := if at_shouldDeliver a then at_recipientUids a else [].

Lemma finish_text_logged t id a w :
  let w' := (finish_text t id a w).2 in
  sql w' = sql w /\ exists answer outs, logged (option_list answer ++ omap Datatypes.id outs) w w' /\
    answered_by t (at_response a) (TcpPacketError (at_response a)) (get_bool F_retryable (at_response a)) w answer /\
    Forall2 (offered (S (length (recipients a))) (calls w') (text_envelope id a) w) (recipients a) outs.
Proof.
  cbv zeta. generalize (eq_refl (finish_text t id a w).2). generalize (finish_text t id a w).2 at 1 3 4 5. intros w' Ew.
  unfold finish_text, seq_bind at 1 in Ew.
  pose proof (reply_logged t (TcpPacketError (at_response a)) (get_bool F_retryable (at_response a)) (at_response a) w) as (S1 & o & L1 & A1).
  destruct (reply _ _ _ _ w) as [ [] w1]. cbn [snd] in *. unfold recipients. destruct (at_shouldDeliver a).
  - destruct (deliver_all_logged (text_envelope id a) (at_recipientUids a) w1) as (S2 & outs & L2 & F2).
    set (w2 := (for_each _ _ w1).2) in *. change (w' = w2) in Ew. subst w'. split; [by rewrite S2|]. exists o, outs.
    split; [by apply (logged_trans _ _ _ _ _ L1 L2)|]. split; [done|]. eapply Forall2_impl; [exact F2|]. intros u x Hx.
    apply (offered_more (length (option_list o) + length (at_recipientUids a))); [destruct o; simpl; lia|].
    by apply (offered_later _ _ _ (calls w2) _ _ w1).
  - subst w'. split; [done|]. exists o, []. rewrite app_nil_r. split; [done|]. split; [done|constructor].
Qed.

Lemma accept_request_logged group request w : logged [] w (accept_request group request w).2.
Proof.
  destruct (accept_request_run group request w) as [(what & rsp & ->)|(failed & rsp & q & _ & _ & Hrun)]; [by apply logged_nil|].
  cbv zeta in Hrun. destruct (accept_text _ _ _ _ _ _) as [r s']. rewrite Hrun. by apply logged_nil; simpl; (done || lia).
Qed.

(** The task of a text command. *)
Definition text_service (group : bool) : Z := sid (if group then ID_GROUP_TEXT_SEND_REQ else ID_TEXT_SEND_REQ).

Lemma execute_text group t q w :
  ParseFromString (ce_packet (tk_command t)) = Some q -> ce_service_id (tk_command t) = text_service group ->
  execute t w = let '(a, w1) := accept_request group (set_int F_uid (ce_actor_uid (tk_command t)) q) w in
                finish_text t (text_service group) a w1.
Proof.
  intros Hp Hs. unfold execute. rewrite Hp, Hs. unfold accept_request, text_service. destruct group.
  - change (sid ID_GROUP_TEXT_SEND_REQ =? sid ID_TEXT_SEND_REQ) with false.
    change (sid ID_GROUP_TEXT_SEND_REQ =? sid ID_GROUP_TEXT_SEND_REQ) with true. done.
  - change (sid ID_TEXT_SEND_REQ =? sid ID_TEXT_SEND_REQ) with true. done.
Qed.
(** C5: an accepted text.  Whatever fails, all that the execution of a text
    command sends is one answer to the stream it came from (missing only if that
    stream cannot be reached) and deliveries.  If the answer is [Success], the
    message it names is stored with the sender, the target, the text, the
    conversation and the place the answer gives; and if it was not stored
    before, the envelope of just this message is offered once to the one
    recipient, or to every other member of the group: along the recipient's
    lease, and certainly when that can be read and its stream takes the frame.
    For a repeated or a refused text nothing is delivered. *)
Theorem accepted_text_durable group t q w :
  saved (sql w) = None -> ledger_ok (next_message (sql w)) (db (sql w)) ->
  ParseFromString (ce_packet (tk_command t)) = Some q -> ce_service_id (tk_command t) = text_service group ->
  let sender := ce_actor_uid (tk_command t) in
  let target := request_target group q in
  let w' := (execute t w).2 in
  exists a answer outs,
    let rsp := at_response a in
    let id := get_int F_message_id rsp in
    logged (option_list answer ++ omap Datatypes.id outs) w w' /\
    answered_by t rsp (TcpPacketError rsp) (get_bool F_retryable rsp) w answer /\
    (get_int F_error rsp <> Success -> outs = []) /\
    (get_int F_error rsp = Success -> exists m,
       messages (db (sql w')) !! id = Some m /\ m_senderId m = sender /\ m_receiverId m = target_id target /\
       m_content m = get_str F_data q /\ at_place m (get_int F_conversation_id rsp) (get_int F_conversation_seq rsp) /\
       get_int F_message_id (at_delivery a) = id /\
       get_int F_conversation_id (at_delivery a) = get_int F_conversation_id rsp /\
       get_int F_conversation_seq (at_delivery a) = get_int F_conversation_seq rsp /\
       get_str F_data (at_delivery a) = m_content m /\ get_int F_from (at_delivery a) = sender /\
       (is_Some (messages (db (sql w)) !! id) -> outs = []) /\
       (messages (db (sql w)) !! id = None ->
          let uids := match target with ToUser u => [u] | ToGroup g => other_members g sender (db (sql w)) end in
          Forall2 (offered (S (length uids)) (calls w') (text_envelope (text_service group) a) w) uids outs)).
Proof.
  intros Hs Hok Hp Hsv. cbv zeta. rewrite (execute_text group t q w Hp Hsv). set (request := set_int F_uid _ q).
  assert (get_int F_uid request = ce_actor_uid (tk_command t) /\ request_target group request = request_target group q /\
    get_str F_data request = get_str F_data q) as (Eu & Et & Ed) by (subst request; unfold request_target; split_and!; by pkt).
  pose proof (accept_request_stored group request w Hs Hok) as Ha. pose proof (accept_request_logged group request w) as L1.
  destruct (accept_request group request w) as [a w1]. destruct Ha as [Hyes Hno]. rewrite Eu, Et, Ed in Hyes. cbn [snd] in L1.
  destruct (finish_text_logged t (text_service group) a w1) as (S2 & answer & outs & L2 & A2 & F2).
  set (w2 := (finish_text t _ a w1).2) in *. exists a, answer, outs.
  split; [exact (logged_trans _ _ _ _ _ L1 L2)|]. split; [|split].
  - by eapply answered_by_later.
  - intros He. unfold recipients in F2. rewrite Hno in F2 by done. by apply Forall2_nil_inv_l in F2.
  - intros He. destruct (Hyes He) as (m & H1' & H2' & H3' & H4' & H5' & H6' & H7' & H8' & H9' & H10' & Hto & Hnew).
    exists m. rewrite S2. do 9 (split; [done|]). split; [congruence|]. unfold recipients in F2. split.
    + intros [m0 Hm0]. destruct (at_shouldDeliver a); [|by apply Forall2_nil_inv_l in F2].
      rewrite (proj1 Hnew eq_refl) in Hm0. done.
    + intros Hn. rewrite (proj2 Hnew Hn), Hto in F2. rewrite H2' in F2. eapply Forall2_impl; [exact F2|].
      intros u x Hx. by apply (offered_later [] _ _ (calls w2) _ _ w1).
Qed.
End Logs.

(** ** A text to a friend who is connected *)

Module Hello.
#[local] Existing Instances Sample.exact Sample.no_hash Sample.no_faults bits_codec Calm.env.

Definition request : Packet :=
  empty_packet |> set_int F_to 1002 |> set_str F_data "hi" |> set_str F_client_message_id "k1".
Definition leases : redis :=
  (bindSessionLease 1002 "gw-a" "i1" "c2" 60 (ok_at 0) (bindSessionLease 1001 "gw-a" "i1" "c1" 60 (ok_at 0) ∅).2).2.
Definition w : node :=
  with_reactors {[ 1%nat := new_reactor "gw-a" ]} (with_streams {[ "gw-a" := mkStream "i1" 1 ]} (new_node Sample.start leases 2 16)).
Definition job : task := mkNodeTask "gw-a" "i1" 1
  (mkCommandEnvelope "q1" 1001 "c1" 1 (text_service false) 0 5000 (SerializeToString request)).
Definition after : node := (execute job w).2.

(** The answer and the delivery. *)
Lemma two_frames : (fun ra => (fun f => match f with
    | MCommandResult r => (cr_request_id r, cr_error r) | MDelivery d => (de_expected_connection_id d, de_recipient_uid d) | _ => ("", 0) end)
    <$> frames ra) <$> reactors after !! 1%nat = Some [("q1", ec Success); ("c2", 1002)].
Proof. by vm_compute. Qed.

Lemma accepted_text_durable_witness : exists a answer outs,
  logged (option_list answer ++ omap Datatypes.id outs) w after /\
  (get_int F_error (at_response a) = Success -> exists m,
     messages (db (sql after)) !! get_int F_message_id (at_response a) = Some m /\ m_senderId m = 1001 /\
     m_receiverId m = 1002 /\ m_content m = "hi").
Proof.
  destruct (accepted_text_durable false job request w) as (a & answer & outs & Hl & _ & _ & Hyes).
  - reflexivity.
  - apply (friends_db_ok (H := Sample.exact)).
  - apply (parse_serialize (PacketCodec := bits_codec)).
  - reflexivity.
  - exists a, answer, outs. split; [exact Hl|]. intros He.
    destruct (Hyes He) as (m & Hm & Hs & Hr & Hc & _). exists m. split; [exact Hm|]. split; [exact Hs|]. split; [exact Hr|exact Hc].
Defined.
End Hello.
