(* ===== verification/Registry.v ===== *)
(** * The table of gateway streams

    [streams] holds raw pointers to reactors that delete themselves: when every
    one of them is alive, when not, and what draining does to the table. *)

From S2P Require Import Prelude Const Packet Redis Store Mysql Messages History Pools Transport.
From S2P Require Import Node Services Reactor Streams Commands.

Section Registry.
Context `{Collation} `{StdHash} `{Faults} `{PacketCodec} `{E : Env}.

(** Each registered stream belongs to a live reactor that knows itself by the
    same names, and no deleted reactor was used. *)
Definition registry_ok (w : node) : Prop :=
  dangling w = false /\
  forall g st, streams w !! g = Some st -> exists ra, reactors w !! st_reactor st = Some ra /\
    ra_gatewayId ra = g /\ ra_instanceId ra = st_instanceId st /\ ra_registered ra = true.

(** A registered stream that registers again repeats its names. *)
Definition repeats (w : node) (e : node_event) : Prop :=
  match e with
  | ERead r (Some (GRegister q)) => forall ra, reactors w !! r = Some ra -> ra_registered ra = true ->
      rg_gateway_id q = ra_gatewayId ra /\ rg_instance_id q = ra_instanceId ra
  | _ => True
  end.

Fixpoint steadfast (es : list node_event) (w : node) : Prop :=
  match es with
  | [] => True
  | e :: es => repeats w e /\ steadfast es (node_step e w).2
  end.

(** ** What preserves the table *)

Lemma registry_live w : registry_ok w -> streams_live w.
Proof. intros [_ Hr] g st Hg. destruct (Hr g st Hg) as (ra & -> & _). by eexists. Qed.

Lemma sends_registry P w w' : sends P w w' -> registry_ok w -> registry_ok w'.
Proof.
  intros Hs Hok. pose proof (registry_live w Hok) as Hl. destruct Hok as [Hd Hr]. split.
  - by rewrite (sn_dangling _ _ _ Hs).
  - intros g st Hg. rewrite (sn_streams _ _ _ Hs) in Hg. destruct (Hr g st Hg) as (ra & Hra & A & B & C).
    pose proof (sn_reactors _ _ _ Hs (st_reactor st)) as Hx. rewrite Hra in Hx.
    inversion Hx as [? ra' (Heq & _) E1 E2|]; subst. exists ra'. split; [done|]. rewrite Heq. done.
Qed.

(** Writing to a live reactor. *)
Lemma update_writer_registry r (f : reactor -> reactor) w :
  (forall ra, ra_gatewayId (f ra) = ra_gatewayId ra /\ ra_instanceId (f ra) = ra_instanceId ra /\
     ra_registered (f ra) = ra_registered ra) ->
  registry_ok w -> registry_ok (with_reactors (alter f r (reactors w)) w).
Proof.
  intros Hf [Hd Hr]. split; [done|]. intros g st Hg. destruct (Hr g st Hg) as (ra & Hra & A & B & C).
  simpl. destruct (decide (r = st_reactor st)) as [->|Hne].
  - exists (f ra). rewrite lookup_alter_eq, Hra. destruct (Hf ra) as (-> & -> & ->). done.
  - exists ra. by rewrite lookup_alter_ne.
Qed.

Lemma enqueue_registry r ra frame w :
  reactors w !! r = Some ra -> registry_ok w -> registry_ok (reactor_enqueue r frame w).2.
Proof.
  intros Hra Hok. unfold reactor_enqueue. rewrite Hra. destruct (Enqueue _ _) as [ok wr]. simpl.
  replace (<[r := set_writer wr ra]> (reactors w)) with (alter (set_writer wr) r (reactors w)).
  - by apply update_writer_registry.
  - apply map_eq. intros k. destruct (decide (r = k)) as [<-|Hne].
    + by rewrite lookup_alter_eq, Hra, lookup_insert_eq.
    + by rewrite lookup_alter_ne, lookup_insert_ne.
Qed.

Lemma answer_registry r ra frame w :
  reactors w !! r = Some ra -> registry_ok w -> registry_ok (enqueue_ r frame w).2.
Proof.
  intros Hra Hok. unfold enqueue_, seq_bind, pure.
  pose proof (enqueue_registry r ra frame w Hra Hok) as Hx. by destruct (reactor_enqueue r frame w).
Qed.

Definition anything (_ : nat) (_ : MessageToGatewayFrame) : Prop := True.

Lemma sends_anything P w w' : sends P w w' -> sends anything w w'.
Proof.
  intros [A1 A2 A3 A4 A5 A6]. split; try done. intros r. destruct (A5 r) as [ra ra' (H1' & (l & H2' & _) & H3')|];
    constructor. split; [done|]. split; [|done]. exists l. split; [done|]. apply Forall_true. done.
Qed.

Lemma only_sends_anything P {A} (m : Node A) : only_sends P m -> only_sends anything m.
Proof. intros Hm w. eapply sends_anything, Hm. Qed.

Lemma reply_sends t (error : Z) retryable packet : only_sends anything (reply t error retryable packet).
Proof.
  unfold reply. apply only_sends_bind; [|intros; apply only_sends_pure]. intros w.
  unfold Reply, seq_bind, reads. destruct (streams w !! tk_gatewayId t) as [st|] eqn:Es.
  - destruct (decide _); [|by apply sends_refl]. destruct (decide _) as [<-|]; [|by apply sends_refl].
    by eapply enqueue_sends.
  - by apply sends_refl.
Qed.

Lemma run_task_sends t : only_sends anything (run_task t).
Proof.
  assert (forall id a, only_sends anything (finish_text t id a)) as Hf.
  { intros id a. unfold finish_text. apply only_sends_bind; [apply reply_sends|]. intros [].
    eapply only_sends_anything. destruct (at_shouldDeliver a); [|apply only_sends_pure].
    apply only_sends_for_each. intros uid. apply only_sends_bind; [apply DeliverToUser_sends|].
    intros ?. apply only_sends_pure. }
  assert (only_sends anything (authorize t)) as Ha.
  { unfold authorize. apply only_sends_bind; [apply only_sends_use_redis|]. intros l.
    destruct (holds_lease t l); [|apply reply_sends]. unfold execute.
    destruct (ParseFromString _); [|apply reply_sends]. cbv zeta.
    destruct (_ =? _); [|destruct (_ =? _)]; (apply only_sends_bind;
      [eapply only_sends_anything; first [apply AcceptText_sends|apply AcceptGroupText_sends
        |apply ExecuteGatewayCommand_sends]|]); intros a; [apply Hf..|apply reply_sends]. }
  unfold run_task, WithTimeout, Expired. sends; apply reply_sends.
Qed.

Lemma drain_sends reason l w :
  (forall kv, kv ∈ l -> exists g, streams w !! g = Some kv.2) ->
  sends anything w (for_each l (fun kv : string * RegisteredStream =>
    let! _ := reactor_enqueue (st_reactor kv.2) (MDrainNotice message_node_id reason) in pure tt) w).2.
Proof.
  revert w. induction l as [|kv l IH]; intros w Hl; [by apply sends_refl|]. simpl.
  destruct (Hl kv) as [g Hg]; [by left|].
  pose proof (enqueue_sends anything g kv.2 (MDrainNotice message_node_id reason) w Hg I) as Hs.
  unfold seq_bind, pure in *. destruct (reactor_enqueue _ _ w) as [ok w1]. simpl in Hs.
  eapply sends_trans; [exact Hs|]. apply IH. intros kv' Hin.
  rewrite (sn_streams _ _ _ Hs). apply Hl. by right.
Qed.

(** ** Every step *)

Lemma registry_workers p w : registry_ok w -> registry_ok (with_workers p w).
Proof. done. Qed.

Lemma register_registry r ra q w :
  reactors w !! r = Some ra -> repeats w (ERead r (Some (GRegister q))) ->
  registry_ok w -> registry_ok (HandleRegister r ra q w).2.
Proof.
  intros Hra Hrep [Hd Hr]. specialize (Hrep ra Hra).
  unfold HandleRegister, update_reactor, Register, reads, seq_bind, writes.
  set (ra1 := mkReactor (rg_gateway_id q) (rg_instance_id q) (ra_peer ra) (rg_stream_epoch q)
                (ra_registered ra) (ra_writer ra)).
  set (w1 := with_reactors (alter _ r (reactors w)) w).
  assert (reactors w1 !! r = Some ra1) as Hra1 by (unfold w1; simpl; by rewrite lookup_alter_eq, Hra).
  assert (registry_ok w1) as Hok1.
  { split; [done|]. intros g st Hg. destruct (Hr g st Hg) as (ra' & Hra' & A & B & C).
    destruct (decide (st_reactor st = r)) as [Heq|Hne].
    - rewrite Heq in *. rewrite Hra in Hra'. injection Hra' as <-. exists ra1. split; [done|].
      destruct (Hrep C) as [Q1 Q2]. unfold ra1. simpl. by rewrite Q1, Q2.
    - exists ra'. unfold w1. simpl. by rewrite lookup_alter_ne. }
  set (valid := (_ && _)). destruct valid.
  - pose (w2 := with_reactors (alter (fun ra => mkReactor (ra_gatewayId ra) (ra_instanceId ra) (ra_peer ra)
      (ra_streamEpoch ra) true (ra_writer ra)) r (reactors w1))
      (with_streams (<[rg_gateway_id q := mkStream (rg_instance_id q) r]> (streams w1)) w1)).
    assert (reactors w2 !! r = Some (mkReactor (rg_gateway_id q) (rg_instance_id q) (ra_peer ra)
      (rg_stream_epoch q) true (ra_writer ra))) as Hra2.
    { unfold w2. cbn [reactors with_reactors with_streams]. by rewrite lookup_alter_eq, Hra1. }
    assert (registry_ok w2) as Hok2.
    { split; [done|]. intros g st. unfold w2 at 1. cbn [streams with_reactors with_streams].
      intros Hg. destruct (decide (st_reactor st = r)) as [Heq|Hne].
      - rewrite Heq. eexists. split; [exact Hra2|].
        destruct (decide (rg_gateway_id q = g)) as [<-|Hne].
        + rewrite lookup_insert_eq in Hg. injection Hg as <-. done.
        + rewrite lookup_insert_ne in Hg by done. destruct Hok1 as [_ Hr1].
          destruct (Hr1 g st Hg) as (ra' & Hra' & A & B & _). rewrite Heq, Hra1 in Hra'.
          injection Hra' as <-. done.
      - rewrite lookup_insert_ne in Hg by (intros <-; rewrite lookup_insert_eq in Hg; by injection Hg as <-).
        destruct Hok1 as [_ Hr1]. destruct (Hr1 g st Hg) as (ra' & Hra' & ABC). exists ra'.
        split; [|done]. unfold w2. cbn [reactors with_reactors with_streams]. by rewrite lookup_alter_ne. }
    exact (answer_registry r _ _ w2 Hra2 Hok2).
  - exact (answer_registry r _ _ w1 Hra1 Hok1).
Qed.

Lemma command_registry r ra c w :
  reactors w !! r = Some ra -> registry_ok w -> registry_ok (HandleCommand r ra c w).2.
Proof.
  intros Hra Hok. unfold HandleCommand. destruct (_ || _); [by apply (answer_registry r ra)|].
  unfold NowUnixMilliseconds. unfold seq_bind at 1.
  destruct (_ <=? _); [by apply (answer_registry r ra)|].
  unfold PostBackgroundTask, seq_bind at 1. destruct (Post _ _ _) as [[|] p]; [done|].
  by apply (answer_registry r ra).
Qed.

Lemma done_registry r w : registry_ok w -> registry_ok (OnDone r w).2.
Proof.
  intros [Hd Hr]. unfold OnDone, Unregister, seq_bind, reads, writes, pure.
  destruct (reactors w !! r) as [ra|] eqn:Hra; [|done].
  set (w1 := match streams w !! ra_gatewayId ra with Some _ => _ | None => w end).
  assert (dangling w1 = false /\ reactors w1 = reactors w /\
    forall g st, streams w1 !! g = Some st -> streams w !! g = Some st /\ st_reactor st <> r) as (D1 & D2 & D3).
  { assert (forall g st, streams w !! g = Some st -> st_reactor st = r ->
      g = ra_gatewayId ra /\ st_instanceId st = ra_instanceId ra) as Hown.
    { intros g st Hg <-. destruct (Hr g st Hg) as (ra' & Hra' & A & B & _).
      rewrite Hra in Hra'. injection Hra' as <-. done. }
    unfold w1. destruct (streams w !! ra_gatewayId ra) as [st0|] eqn:E0.
    - destruct (decide _) as [Hi|Hi]; [destruct (decide _) as [Hp|Hp]|].
      + split; [done|]. split; [done|]. intros g st. simpl. intros Hg.
        apply lookup_delete_Some in Hg as [Hne Hg]. split; [done|]. intros Heq.
        by destruct (Hown g st Hg Heq) as [-> _].
      + split; [done|]. split; [done|]. intros g st Hg. split; [done|]. intros Heq.
        destruct (Hown g st Hg Heq) as [-> _]. congruence.
      + split; [done|]. split; [done|]. intros g st Hg. split; [done|]. intros Heq.
        destruct (Hown g st Hg Heq) as [-> ?]. congruence.
    - split; [done|]. split; [done|]. intros g st Hg. split; [done|]. intros Heq.
      destruct (Hown g st Hg Heq) as [-> _]. congruence. }
  split; [done|]. simpl. intros g st Hg. destruct (D3 g st Hg) as [Hg' Hne].
  destruct (Hr g st Hg') as (ra' & Hra' & ABC). exists ra'. split; [|done].
  rewrite D2, lookup_delete_ne by done. done.
Qed.

Lemma step_registry e w : repeats w e -> registry_ok w -> registry_ok (node_step e w).2.
Proof.
  intros Hrep Hok. destruct e as [r peer|r frame|r ok|r|now|reason|b|s rd]; simpl.
  - destruct (reactors w !! r) as [ra|] eqn:Hr0; [done|]. destruct Hok as [Hd Hr]. split; [done|].
    intros g st Hg. destruct (Hr g st Hg) as (ra & Hra & ABC). exists ra. split; [|done]. simpl.
    rewrite lookup_insert_ne; [done|]. intros ->. congruence.
  - unfold OnReadDone. unfold seq_bind at 1. unfold reads.
    destruct (reactors w !! r) as [ra|] eqn:Hra; [|by destruct frame].
    destruct frame as [[q|c|a|sent sequence|]|]; try done.
    + by apply register_registry.
    + by apply command_registry.
    + by apply (answer_registry r ra).
    + by apply update_writer_registry.
  - apply update_writer_registry; [|done]. intros ra. by destruct (w_inFlight (ra_writer ra)).
  - by apply done_registry.
  - unfold work. destruct (decide _); [|done]. destruct (PopTask now (workers w)) as [[t|] p]; [|done].
    pose proof (run_task_sends t (with_workers p w)) as Hs. destruct (run_task t _) as [[] w1].
    apply registry_workers. by apply (sends_registry _ _ _ Hs).
  - unfold DrainAll, seq_bind, writes, reads.
    eapply sends_registry; [apply drain_sends|done].
    intros [g st] Hin. exists g. by apply elem_of_map_to_list in Hin.
  - done.
  - done.
Qed.

Lemma run_registry es w : steadfast es w -> registry_ok w -> registry_ok (node_run es w).
Proof.
  revert w. induction es as [|e es IH]; intros w; [done|]. intros [Hrep Hst] Hok.
  apply IH; [done|]. by apply step_registry.
Qed.

(** No stream dangles.  Whatever streams connect, register, fail, are
    replaced and end, whatever commands run and whatever Redis and MySQL do: if
    a stream that registers again repeats its names, then every stream in the
    table belongs to a live reactor registered under these names, and no
    deleted reactor is ever used. *)
Theorem streams_never_dangle es s rd threads max :
  steadfast es (new_node s rd threads max) ->
  let w := node_run es (new_node s rd threads max) in
  dangling w = false /\
  forall g st, streams w !! g = Some st -> exists ra, reactors w !! st_reactor st = Some ra /\
    ra_gatewayId ra = g /\ ra_instanceId ra = st_instanceId st /\ ra_registered ra = true.
Proof.
  intros Hst. apply (run_registry es _ Hst). split; [done|]. intros g st Hg.
  unfold new_node in Hg. cbn [streams] in Hg. by rewrite lookup_empty in Hg.
Qed.
End Registry.

(** Two gateways; the first reconnects before its old stream has ended. *)
Module Reconnect.
Definition hello (g i : string) : GatewayToMessageFrame := GRegister (mkRegisterGateway 1 g i 1 64).
Definition events : list node_event :=
  [EConnect 1 "p"; ERead 1 (Some (hello "gw-a" "i1")); EConnect 2 "p";
   ERead 2 (Some (hello "gw-a" "i1")); EWritten 1 false; EDone 1; EDrain "bye"].
(** A registered stream that registers again under no name, then ends. *)
Definition renaming : list node_event :=
  [EConnect 1 "p"; ERead 1 (Some (hello "gw-a" "i1")); ERead 1 (Some (hello "" "")); EDone 1;
   EDrain "bye"].
End Reconnect.

Lemma streams_never_dangle_witness :
  let w := node_run (H := Sample.exact) (H0 := Sample.no_hash) (H1 := Sample.no_faults)
             (H2 := bits_codec) (E := Calm.env) Reconnect.events (new_node Sample.start ∅ 2 16) in
  dangling w = false /\
  forall g st, streams w !! g = Some st -> exists ra, reactors w !! st_reactor st = Some ra /\
    ra_gatewayId ra = g /\ ra_instanceId ra = st_instanceId st /\ ra_registered ra = true.
Proof.
  refine (streams_never_dangle (H := Sample.exact) (H0 := Sample.no_hash) (H1 := Sample.no_faults)
    (H2 := bits_codec) (E := Calm.env) Reconnect.events Sample.start ∅ 2 16 _).
  unfold Reconnect.events, Reconnect.hello. cbn [steadfast repeats].
  split; [done|]. split; [intros ra; vm_compute; intros [= <-]; discriminate|].
  split; [done|]. split; [intros ra; vm_compute; intros [= <-]; discriminate|]. done.
Defined.

(** A stream that registers a second time under other names leaves a
    dangling pointer.  After such a second frame, even a refused one, the entry
    of the first registration survives the end of the stream: the table names a
    reactor that is gone, and the next use of the entry (here the drain notice)
    touches it. *)
Theorem reregistration_dangles :
  let run := node_run (H := Sample.exact) (H0 := Sample.no_hash) (H1 := Sample.no_faults)
               (H2 := bits_codec) (E := Calm.env) in
  let w := run (take 4 Reconnect.renaming) (new_node Sample.start ∅ 2 16) in
  streams w !! "gw-a" = Some (mkStream "i1" 1) /\ reactors w !! 1%nat = None /\
  dangling (run Reconnect.renaming (new_node Sample.start ∅ 2 16)) = true.
Proof. vm_compute. repeat split. Qed.

(** ** Draining *)

Section Drain.
Context `{Collation} `{StdHash} `{Faults} `{PacketCodec} `{E : Env}.

(** The table only loses entries, for good. *)
Definition shrinks (w w' : node) : Prop :=
  draining w = true -> draining w' = true /\ forall g st, streams w' !! g = Some st -> streams w !! g = Some st.

Lemma sends_shrinks P w w' : sends P w w' -> shrinks w w'.
Proof. intros Hs Hd. split; [by rewrite (sn_draining _ _ _ Hs)|]. by rewrite (sn_streams _ _ _ Hs). Qed.

Lemma shrinks_trans w1 w2 w3 : shrinks w1 w2 -> shrinks w2 w3 -> shrinks w1 w3.
Proof.
  intros H12 H23 Hd. destruct (H12 Hd) as [Hd2 S2]. destruct (H23 Hd2) as [Hd3 S3]. split; [done|].
  intros g st Hg. auto.
Qed.

Lemma shrinks_enqueue r frame w : shrinks w (reactor_enqueue r frame w).2.
Proof.
  intros Hd. unfold reactor_enqueue. destruct (reactors w !! r) as [ra|]; [|done].
  by destruct (Enqueue _ _).
Qed.

Lemma shrinks_answer r frame w w0 : shrinks w w0 -> shrinks w (enqueue_ r frame w0).2.
Proof.
  intros Hw. eapply shrinks_trans; [exact Hw|]. unfold enqueue_, seq_bind, pure.
  pose proof (shrinks_enqueue r frame w0) as Hs. by destruct (reactor_enqueue r frame w0).
Qed.

Lemma register_shrinks r ra q w : shrinks w (HandleRegister r ra q w).2.
Proof.
  intros Hd. unfold HandleRegister, update_reactor, writes, reads, seq_bind, pure.
  cbn [draining with_reactors]. rewrite Hd, !andb_false_r. cbn [negb andb].
  match goal with |- context [enqueue_ r ?f] =>
    exact (shrinks_answer r f w (with_reactors _ w) (fun h => conj h (fun g st x => x)) Hd) end.
Qed.

Lemma step_shrinks e w : shrinks w (node_step e w).2.
Proof.
  destruct e as [r peer|r frame|r ok|r|now|reason|b|s rd]; simpl; intros Hd.
  - by destruct (reactors w !! r).
  - revert Hd. change (shrinks w (OnReadDone r frame w).2).
    unfold OnReadDone, seq_bind at 1, reads.
    destruct (reactors w !! r) as [ra|]; [|by destruct frame].
    destruct frame as [[q|c|a|sent sequence|]|]; try done.
    + apply register_shrinks.
    + unfold HandleCommand. destruct (_ || _); [by apply shrinks_answer|].
      unfold NowUnixMilliseconds, seq_bind at 1. destruct (_ <=? _); [by apply shrinks_answer|].
      unfold PostBackgroundTask, seq_bind at 1. destruct (Post _ _ _) as [[|] p]; [done|].
      by apply shrinks_answer.
    + by apply shrinks_answer.
  - done.
  - revert Hd. change (shrinks w (OnDone r w).2). unfold OnDone, Unregister, seq_bind, reads, writes, pure.
    destruct (reactors w !! r) as [ra|]; [|done]. intros Hd. simpl.
    destruct (streams w !! ra_gatewayId ra) as [st|]; [|done].
    destruct (decide _); [|done]. destruct (decide _); [|done]. split; [done|]. simpl.
    intros g st' Hg. by apply lookup_delete_Some in Hg as [_ Hg].
  - unfold work. destruct (decide _); [|done]. destruct (PopTask now (workers w)) as [[t|] p]; [|done].
    pose proof (sends_shrinks _ _ _ (run_task_sends t (with_workers p w)) Hd) as Hs.
    by destruct (run_task t _) as [[] w1].
  - unfold DrainAll, seq_bind, writes, reads.
    assert (sends anything (with_draining w) (for_each (map_to_list (streams w))
      (fun kv : string * RegisteredStream =>
         let! _ := reactor_enqueue (st_reactor kv.2) (MDrainNotice message_node_id reason) in pure tt)
      (with_draining w)).2) as Hs.
    { apply drain_sends. intros [g st] Hin. exists g. by apply elem_of_map_to_list in Hin. }
    by apply (sends_shrinks _ _ _ Hs).
  - done.
  - done.
Qed.

(** A draining node admits no gateway.  From the moment of [DrainAll] on,
    whatever happens, no stream enters the table: later tables only contain
    streams registered before it. *)
Theorem drained_admits_no_stream reason es w g st :
  streams (node_run es (DrainAll reason w).2) !! g = Some st -> streams w !! g = Some st.
Proof.
  assert (forall es w, draining w = true -> shrinks w (node_run es w)) as Hrun.
  { clear. intros es. induction es as [|e es IH]; intros w Hd; [by intros ?|].
    pose proof (step_shrinks e w) as Hs. eapply shrinks_trans; [exact Hs|].
    apply IH. by apply Hs. }
  assert (draining (DrainAll reason w).2 = true /\ streams (DrainAll reason w).2 = streams w) as [Hd Hst].
  { unfold DrainAll, seq_bind, writes, reads.
    assert (sends anything (with_draining w) (for_each (map_to_list (streams w))
      (fun kv : string * RegisteredStream =>
         let! _ := reactor_enqueue (st_reactor kv.2) (MDrainNotice message_node_id reason) in pure tt)
      (with_draining w)).2) as Hs.
    { apply drain_sends. intros [g' st'] Hin. exists g'. by apply elem_of_map_to_list in Hin. }
    split; [apply (sn_draining _ _ _ Hs)|apply (sn_streams _ _ _ Hs)]. }
  intros Hg. destruct (Hrun es _ Hd Hd) as [_ Hs]. rewrite <- Hst. by apply Hs.
Qed.
End Drain.

Lemma drained_admits_no_stream_witness :
  streams (node_run (H := Sample.exact) (H0 := Sample.no_hash) (H1 := Sample.no_faults)
    (H2 := bits_codec) (E := Calm.env)
    [EConnect 1 "p"; ERead 1 (Some (Reconnect.hello "gw-a" "i1"))] (new_node Sample.start ∅ 2 16))
    !! "gw-a" = Some (mkStream "i1" 1).
Proof.
  apply (drained_admits_no_stream (H := Sample.exact) (H0 := Sample.no_hash) (H1 := Sample.no_faults)
    (H2 := bits_codec) (E := Calm.env) "bye"
    [EConnect 2 "p"; ERead 2 (Some (Reconnect.hello "gw-b" "i2"))]).
  vm_compute. reflexivity.
Defined.
