(* ===== verification/Social.v ===== *)
(** * Friends, groups and late commands

    What the handlers of [Friend.cc] and [Group.cc] do when nothing fails, and
    what becomes of a command that waits too long. *)

From S2P Require Import Prelude Const Packet Redis Store Mysql Messages History Pools Transport.
From S2P Require Import Node Services Reactor Streams Commands.

(** ** Statements that do not fail *)

Section Calm.
Context `{Faults}.
Context (calm : forall n, fault_at n = FNone).

Lemma calm_update {A} (u : DB -> option (A * DB)) s :
  update u s = match u (db s) with
               | Some (a, d) => (Ok a, tock (with_db d s))
               | None => (Throw "statement refused", tock s)
               end.
Proof. unfold update, statement. rewrite calm. by destruct (u (db s)) as [[a d]|]. Qed.

Lemma calm_select {A} (q : DB -> A) s : select q s = (Ok (q (db s)), tock s).
Proof. unfold select, statement. by rewrite calm. Qed.

(** An operation that is one query. *)
Lemma calm_query {A} `{DefaultForType A} (q : DB -> A) s :
  executeTemplate (select q) s = (q (db s), tock (tock s)).
Proof. unfold executeTemplate. by rewrite calm, calm_select. Qed.

(** An operation that is one change and returns 0. *)
Lemma calm_change (u : DB -> option (unit * DB)) s :
  saved s = None ->
  executeTemplate (do* update u in ret 0) s =
    match u (db s) with
    | Some (_, d) => (0, tock (with_db d (tock s)))
    | None => (-1, tock (tock s))
    end.
Proof.
  intros Hs. unfold executeTemplate, bind. rewrite calm, calm_update. simpl.
  destruct (u (db s)) as [[[] d]|]; [done|]. by rewrite undo_None.
Qed.

(** Two changes in a row. *)
Lemma calm_changes (u v : DB -> option (unit * DB)) s d1 d2 :
  u (db s) = Some (tt, d1) -> v d1 = Some (tt, d2) ->
  exists s', executeTemplate (do* update u in do* update v in ret 0) s = (0, s') /\
    db s' = d2 /\ saved s' = saved s.
Proof.
  intros Hu Hv. unfold executeTemplate, bind. rewrite calm, calm_update. simpl. rewrite Hu.
  rewrite calm_update. simpl. rewrite Hv. by eexists.
Qed.
End Calm.

Section Social.
Context `{Collation} `{StdHash} `{Faults} `{PacketCodec} `{E : Env}.

(** ** Notifications leave MySQL alone *)

Definition sql_is (s : store) (w : node) : Prop := sql w = s.

Lemma always_use_redis s {A} (f : call -> redis -> A * redis) : always (sql_is s) (use_redis f).
Proof. intros w Hw. unfold use_redis. by destruct (f _ _). Qed.
Lemma always_new_id s g : always (sql_is s) (new_id g).
Proof. intros w Hw. unfold new_id. by destruct (g _ _ _). Qed.
Lemma always_enqueue s r frame : always (sql_is s) (reactor_enqueue r frame).
Proof.
  intros w Hw. unfold reactor_enqueue. destruct (reactors w !! r); [|done]. by destruct (Enqueue _ _).
Qed.
Hint Resolve always_use_redis always_new_id always_enqueue : always.

Ltac always :=
  repeat match goal with
  | |- always _ (seq_bind _ _) => apply always_bind; [|intros ?]
  | |- always _ (for_each _ _) => apply always_for_each; intros ? ?
  | |- always _ _ => solve [auto with always]
  | |- always _ _ => case_match
  end.

Lemma always_Deliver s l e : always (sql_is s) (Deliver l e).
Proof. unfold Deliver. always. Qed.
Hint Resolve always_Deliver : always.
Lemma always_DeliverToUser s uid e : always (sql_is s) (DeliverToUser uid e).
Proof. unfold DeliverToUser. cbv zeta. always. Qed.
Hint Resolve always_DeliverToUser : always.
Lemma always_SendGateway s uid p id a b c d : always (sql_is s) (SendGateway uid p id a b c d).
Proof. unfold SendGateway. always. Qed.
Hint Resolve always_SendGateway : always.

(** [Group.cc]'s loop, once the members are known. *)
Lemma NotifyMemberReply_sql (calm : forall n, fault_at n = FNone) gid m r accept w :
  let '(ret, w') := NotifyMemberReply gid m r accept w in
  ret = 0 /\ db (sql w') = db (sql w).
Proof.
  unfold NotifyMemberReply. unfold seq_bind at 1. unfold use_sql, getGroupMemberList.
  rewrite (calm_query calm). unfold seq_bind at 1.
  set (loop := for_each _ _). set (w1 := with_sql _ w).
  assert (always (sql_is (sql w1)) loop) as Ha by (unfold loop; cbv zeta; always).
  specialize (Ha w1 eq_refl). destruct (loop w1) as [[] w2]. simpl in *. by rewrite Ha.
Qed.

(** A refused applicant joins the group all the same.  When nothing fails,
    any user at all may answer a request to join an existing group: whether the
    answer says accept or not, the applicant becomes a member, the stored
    application says Agree, and only the text of the response differs. *)
Theorem refused_applicant_joins request w :
  (forall n, fault_at n = FNone) -> saved (sql w) = None ->
  let gid := get_int F_gid request in
  let requestor := get_int F_requestor_uid request in
  is_Some (groupInfo (db (sql w)) !! gid) -> groupMembers (db (sql w)) !! (gid, requestor) = None ->
  bigint_unsigned gid = true -> bigint_unsigned requestor = true ->
  bigint_unsigned (get_int F_uid request) = true ->
  let '(rsp, w') := ReplyJoin request w in
  get_int F_error rsp = Success /\
  get_str F_message rsp = (if get_bool F_accept request then "同意加入群组" else "拒绝该用户加入群组请求") /\
  (exists time, groupMembers (db (sql w')) !! (gid, requestor) = Some (mkGroupMember GroupRole.Member time 0 "")) /\
  (forall a, groupApplys (db (sql w)) !! (requestor, gid) = Some a ->
   exists a', groupApplys (db (sql w')) !! (requestor, gid) = Some a' /\ ga_status a' = FriendApplyStatus.Agree).
Proof.
  intros calm Hs gid requestor Hg Hm Hb1 Hb2 Hb3. unfold ReplyJoin. cbv zeta. fold gid requestor.
  unfold seq_bind at 1. unfold use_sql at 1. unfold hasGroup. rewrite (calm_query calm).
  rewrite bool_decide_true by done. change (b2z true =? 0) with false. cbn iota.
  unfold seq_bind at 1. unfold getCurrentDateTime. unfold seq_bind at 1. unfold use_sql at 1.
  cbn [sql with_cache with_sql]. unfold updateGroupApply. rewrite (calm_change calm) by done.
  cbn [db tock with_sql ga_handler ga_requestor ga_gid]. rewrite Hb3, andb_false_r. cbn iota zeta.
  change (0 =? -1) with false. cbn iota.
  unfold seq_bind at 1. unfold use_sql at 1. cbn [sql with_cache with_sql].
  unfold insertGroupMember. rewrite (calm_change calm) by done. rewrite Hb1, Hb2.
  cbn [negb andb db with_db tock groupMembers set_groupApplys]. unfold insert_row. rewrite Hm.
  cbn iota zeta. change (0 =? -1) with false. cbn [fmap option_fmap option_map].
  unfold seq_bind at 1. set (w1 := with_sql _ _).
  pose proof (NotifyMemberReply_sql calm gid (get_int F_uid request) requestor
                (get_bool F_accept request) w1) as Hn.
  change (0 =? -1) with false. cbn iota.
  cbv beta. destruct (NotifyMemberReply _ _ _ _ w1) as [ret w2]. destruct Hn as [-> Hdb].
  change (0 =? -1) with false. cbn iota.
  assert ((exists time, groupMembers (db (sql w2)) !! (gid, requestor) =
             Some (mkGroupMember GroupRole.Member time 0 "")) /\
          (forall a, groupApplys (db (sql w)) !! (requestor, gid) = Some a ->
           exists a', groupApplys (db (sql w2)) !! (requestor, gid) = Some a' /\
             ga_status a' = FriendApplyStatus.Agree)) as [T1 T2].
  { rewrite Hdb. unfold w1. cbn. split.
    - eexists. by rewrite lookup_insert_eq.
    - intros a Ha. rewrite lookup_alter_eq, Ha. by eexists. }
  destruct (get_bool F_accept request); simpl; (split; [by pkt|split; [by pkt|by split]]).
Qed.

(** ** Friends *)

Lemma calm_insertFriend (calm : forall n, fault_at n = FNone) f now s :
  fr_uidA f <> fr_uidB f ->
  friends (db s) !! (fr_uidA f, fr_uidB f) = None -> friends (db s) !! (fr_uidB f, fr_uidA f) = None ->
  exists s', insertFriend f now s = (0, s') /\ saved s' = saved s /\
    friends (db s') = <[(fr_uidB f, fr_uidA f) := mkFriend (fr_uidB f) (fr_uidA f) (fr_sessionId f) now]>
      (<[(fr_uidA f, fr_uidB f) := mkFriend (fr_uidA f) (fr_uidB f) (fr_sessionId f) now]> (friends (db s))).
Proof.
  intros Hne Ha Hb. unfold insertFriend.
  destruct (calm_changes calm
    (insert_friend (mkFriend (fr_uidA f) (fr_uidB f) (fr_sessionId f) now))
    (insert_friend (mkFriend (fr_uidB f) (fr_uidA f) (fr_sessionId f) now)) s
    (set_friends (<[(fr_uidA f, fr_uidB f) := mkFriend (fr_uidA f) (fr_uidB f) (fr_sessionId f) now]>
       (friends (db s))) (db s))
    (set_friends (<[(fr_uidB f, fr_uidA f) := mkFriend (fr_uidB f) (fr_uidA f) (fr_sessionId f) now]>
      (<[(fr_uidA f, fr_uidB f) := mkFriend (fr_uidA f) (fr_uidB f) (fr_sessionId f) now]>
       (friends (db s)))) (db s))) as (s' & -> & Hd & Hs).
  - unfold insert_friend, insert_row. simpl. by rewrite Ha.
  - unfold insert_friend, insert_row. simpl. rewrite lookup_insert_ne by congruence. by rewrite Hb.
  - exists s'. split; [done|]. split; [done|]. by rewrite Hd.
Qed.

Lemma calm_updateApply (calm : forall n, fault_at n = FNone) a s :
  exists s', updateFriendApplyStatus a s = (0, s') /\ saved s' = saved s /\ friends (db s') = friends (db s).
Proof.
  unfold updateFriendApplyStatus. edestruct (calm_changes calm (update_apply a) (update_apply (mirror_apply a)) s)
    as (s' & -> & Hd & Hs); [reflexivity|reflexivity|]. exists s'. by rewrite Hd.
Qed.

(** The session id of a new friendship reaches the applicant truncated.
    When nothing fails, accepting a friend makes both users friends under one
    generated session id, whether or not there was an application; but the key
    the function returns, which is pushed to the applicant, is that id cut to 32
    bits, so for every id from 2^31 on (in effect all of them) it is another
    number. *)
Theorem friend_session_key_truncated request w :
  (forall n, fault_at n = FNone) ->
  let a := uint64 (get_int F_uid request) in
  let b := uint64 (get_int F_to request) in
  a <> b -> friends (db (sql w)) !! (a, b) = None -> friends (db (sql w)) !! (b, a) = None ->
  get_bool F_accept request = true ->
  let '(key, w') := StoreReplyAddFriend request w in
  exists id time,
    friends (db (sql w')) !! (a, b) = Some (mkFriend a b (uint64 id) time) /\
    friends (db (sql w')) !! (b, a) = Some (mkFriend b a (uint64 id) time) /\
    key = int32 id /\ (2 ^ 31 <= id -> key <> id).
Proof.
  intros calm a b Hne Ha Hb Hacc. unfold StoreReplyAddFriend. cbv zeta. fold a b. rewrite Hacc.
  unfold seq_bind at 1, getCurrentDateTime. unfold seq_bind at 1, new_id.
  cbn [calls cache with_cache].
  destruct (generateSessionId _ _ _) as [id r]. cbn [calls cache with_cache].
  unfold seq_bind at 1. cbv beta iota. unfold seq_bind at 1, use_sql at 1. cbn [sql with_cache].
  set (time := date_time _). set (now := date_time _).
  destruct (calm_insertFriend calm (mkFriend a b (uint64 id) time) now (sql w) Hne Ha Hb)
    as (s1 & -> & Hs1 & Hf1). simpl in Hf1. cbn iota. change (0 =? -1) with false. cbn iota.
  unfold seq_bind at 1, use_sql at 1. cbn [sql with_sql].
  destruct (calm_updateApply calm (mkFriendApply a b (get_str F_reply_message request)
    FriendApplyStatus.Agree time) s1) as (s2 & -> & Hs2 & Hf2).
  change (0 =? -1) with false. cbn. exists id, now. rewrite Hf2, Hf1.
  rewrite lookup_insert_ne, !lookup_insert_eq by congruence. repeat split.
  intros Hid Heq. pose proof (wrapS_range 32 id). unfold int32 in Heq. lia.
Qed.

(** ** Late commands *)

(** Waiting for a worker never expires a command.  However long ago its
    deadline passed, the context of the task is given at least a millisecond
    from now, so the check that follows passes whenever it is reached within
    that millisecond, and the command is authorised and executed as if in time. *)
Theorem late_command_executed t w :
  steady_ns (S (S (calls w))) < steady_ns (S (calls w)) + 1000000 ->
  run_task t w = authorize t (with_cache (cache w) (with_cache (cache w) (with_cache (cache w) w))).
Proof.
  intros Hclock. unfold run_task, WithTimeout, Expired, NowUnixMilliseconds, steady_now, seq_bind, pure.
  cbn [calls with_cache cache].
  destruct (_ <=? _) eqn:Ee; [|done]. boolp. lia.
Qed.
End Social.

Module Applicant.
Definition group_db : DB :=
  set_groupInfo {[ 3001 := mkGroupInfo 93001 "g" "" ]}
    (set_groupApplys {[ (1002, 3001) := mkGroupApply 1002 0 3001 1 0 "please" "" ]} empty_db).
Definition w : node := new_node (mkStore group_db None 1 1 0) ∅ 2 16.
(** Sent by a user with no role in the group. *)
Definition refusal : Packet :=
  empty_packet |> set_int F_uid 5 |> set_int F_gid 3001 |> set_int F_requestor_uid 1002
               |> set_bool F_accept false.
Definition accept_friend : Packet :=
  empty_packet |> set_int F_uid 5 |> set_int F_to 6 |> set_bool F_accept true.
End Applicant.

Lemma refused_applicant_joins_witness :
  let '(rsp, w') := ReplyJoin (H1 := Sample.no_faults) (H2 := bits_codec) (E := Calm.env)
                      Applicant.refusal Applicant.w in
  get_int F_error rsp = Success /\
  get_str F_message rsp = (if get_bool F_accept Applicant.refusal then "同意加入群组" else "拒绝该用户加入群组请求") /\
  (exists time, groupMembers (db (sql w')) !! (get_int F_gid Applicant.refusal, get_int F_requestor_uid Applicant.refusal)
     = Some (mkGroupMember GroupRole.Member time 0 "")) /\
  (forall a, groupApplys (db (sql Applicant.w)) !! (get_int F_requestor_uid Applicant.refusal, get_int F_gid Applicant.refusal) = Some a ->
   exists a', groupApplys (db (sql w')) !! (get_int F_requestor_uid Applicant.refusal, get_int F_gid Applicant.refusal) = Some a' /\
     ga_status a' = FriendApplyStatus.Agree).
Proof.
  exact (refused_applicant_joins (H1 := Sample.no_faults) (H2 := bits_codec) (E := Calm.env)
    Applicant.refusal Applicant.w (fun n => eq_refl) eq_refl (ex_intro _ _ eq_refl) eq_refl
    eq_refl eq_refl eq_refl).
Defined.

Lemma friend_session_key_truncated_witness :
  let '(key, w') := StoreReplyAddFriend (H1 := Sample.no_faults) (E := Calm.env)
                      Applicant.accept_friend Applicant.w in
  exists id time,
    friends (db (sql w')) !! (5, 6) = Some (mkFriend 5 6 (uint64 id) time) /\
    friends (db (sql w')) !! (6, 5) = Some (mkFriend 6 5 (uint64 id) time) /\
    key = int32 id /\ (2 ^ 31 <= id -> key <> id).
Proof.
  refine (friend_session_key_truncated (H1 := Sample.no_faults) (E := Calm.env)
    Applicant.accept_friend Applicant.w (fun n => eq_refl) _ eq_refl eq_refl eq_refl).
  discriminate.
Defined.

Lemma late_command_executed_witness :
  run_task (H := Sample.exact) (H0 := Sample.no_hash) (H1 := Sample.no_faults) (H2 := bits_codec)
    (E := Calm.env) Calm.old_task Calm.after_login =
  authorize (H := Sample.exact) (H0 := Sample.no_hash) (H1 := Sample.no_faults) (H2 := bits_codec)
    (E := Calm.env) Calm.old_task
    (with_cache Calm.r2 (with_cache Calm.r2 (with_cache Calm.r2 Calm.after_login))).
Proof.
  apply (late_command_executed (H := Sample.exact) (H0 := Sample.no_hash) (H1 := Sample.no_faults)
    (H2 := bits_codec) (E := Calm.env) Calm.old_task Calm.after_login). reflexivity.
Defined.
