(* ===== verification/Links.v ===== *)
(** * The gateway's links to the message nodes

    [MessageLink] and [MessageLinkManager] of [src/server/gateway/src/MessageLink.cc]:
    forwarding a command, matching its result, time-outs, retries after a broken
    stream, reconnection and changes of the topology.  An operation that takes a
    mutex several times is a thread: [thread_step] is what it does between two
    of its lock sections, so a run interleaves the sections of all of them. *)

From S2P Require Import Prelude Const Packet Store Pools Transport.

(** ** State *)

(** [MessageLinkManager::Node] *)
Record MessageNode := mkMessageNode { mn_id : string; mn_host : string; mn_port : Z }.

#[export] Instance MessageNode_eq_dec : EqDecision MessageNode.
Proof. solve_decision. Defined.

(** A [MessageLink]; [stopped] is the one of its writer. *)
Record link := mkLink {
  lk_node : MessageNode; lk_writer : writer GatewayToMessageFrame; lk_healthy : bool;
  lk_inflight : Z; lk_lastReadAt : Z }.

(** A callback is known by a number. *)
Record PendingCommand := mkPending {
  pn_command : CommandEnvelope; pn_callback : nat; pn_linkId : string; pn_attempts : Z }.

Record TopologySnapshot := mkTopology { tp_version : Z; tp_changed : bool; tp_nodes : list MessageNode }.

(** What is left of an operation in progress. *)
Inductive thread :=
  | TInsert (lid : nat) (command : CommandEnvelope) (callback : nat)
  | TSend (lid : nat) (command : CommandEnvelope) (callback : nat)
  | TCount (lid : nat)
  | TReject (requestId : string)
  | TRetryAll (node : string)
  | TRetry (node : string) (requestIds : list string)
  | TRetrySend (node : string) (failed : PendingCommand) (requestId : string) (rest : list string)
  | TRetryMove (node : string) (lid : nat) (requestId : string) (rest : list string)
  | TBackoff (node : string).

(** The links are shared objects, known by a number.  Three fields only record
    what happened: [accepted], the callbacks [Forward] has taken with their
    request ids; [called], the callbacks that ran with their results; [sent], the
    command frames a link has taken, the flag telling a retry. *)
Record manager := mkManager {
  configuredNodes : gmap string MessageNode; links : gmap string nat; objects : gmap nat link;
  next_link : nat; reconnectAttempts : gmap string Z; pending : gmap string PendingCommand;
  stopping : bool; topologyVersion : Z;
  accepted : list (nat * string); called : list (nat * CommandResult);
  sent : list (nat * CommandEnvelope * bool); threads : list thread }.

Definition with_configured x m := mkManager x (links m) (objects m) (next_link m) (reconnectAttempts m)
  (pending m) (stopping m) (topologyVersion m) (accepted m) (called m) (sent m) (threads m).
Definition with_links x m := mkManager (configuredNodes m) x (objects m) (next_link m) (reconnectAttempts m)
  (pending m) (stopping m) (topologyVersion m) (accepted m) (called m) (sent m) (threads m).
Definition with_objects x m := mkManager (configuredNodes m) (links m) x (next_link m) (reconnectAttempts m)
  (pending m) (stopping m) (topologyVersion m) (accepted m) (called m) (sent m) (threads m).
Definition with_next x m := mkManager (configuredNodes m) (links m) (objects m) x (reconnectAttempts m)
  (pending m) (stopping m) (topologyVersion m) (accepted m) (called m) (sent m) (threads m).
Definition with_attempts x m := mkManager (configuredNodes m) (links m) (objects m) (next_link m) x
  (pending m) (stopping m) (topologyVersion m) (accepted m) (called m) (sent m) (threads m).
Definition with_pending x m := mkManager (configuredNodes m) (links m) (objects m) (next_link m)
  (reconnectAttempts m) x (stopping m) (topologyVersion m) (accepted m) (called m) (sent m) (threads m).
Definition with_stopping x m := mkManager (configuredNodes m) (links m) (objects m) (next_link m)
  (reconnectAttempts m) (pending m) x (topologyVersion m) (accepted m) (called m) (sent m) (threads m).
Definition with_version x m := mkManager (configuredNodes m) (links m) (objects m) (next_link m)
  (reconnectAttempts m) (pending m) (stopping m) x (accepted m) (called m) (sent m) (threads m).
Definition with_accepted x m := mkManager (configuredNodes m) (links m) (objects m) (next_link m)
  (reconnectAttempts m) (pending m) (stopping m) (topologyVersion m) x (called m) (sent m) (threads m).
Definition with_called x m := mkManager (configuredNodes m) (links m) (objects m) (next_link m)
  (reconnectAttempts m) (pending m) (stopping m) (topologyVersion m) (accepted m) x (sent m) (threads m).
Definition with_sent x m := mkManager (configuredNodes m) (links m) (objects m) (next_link m)
  (reconnectAttempts m) (pending m) (stopping m) (topologyVersion m) (accepted m) (called m) x (threads m).
Definition with_threads x m := mkManager (configuredNodes m) (links m) (objects m) (next_link m)
  (reconnectAttempts m) (pending m) (stopping m) (topologyVersion m) (accepted m) (called m) (sent m) x.

Abbreviation Manager := (State manager).

(** The order in which a hash table is visited is not specified. *)
Class IterationOrder := {
  iter : forall {A}, gmap string A -> list (string * A);
  iter_perm : forall {A} (m : gmap string A), iter m ≡ₚ map_to_list m }.

(** The gateway's own names. *)
Class GatewayIdentity := { gateway_id : string; instance_id : string }.

Definition CanRetryOnAnotherMessageNode (serviceId : Z) : bool :=
  bool_decide (serviceId ∈ sid <$> [ID_TEXT_SEND_REQ; ID_GROUP_TEXT_SEND_REQ; ID_PULL_FRIEND_LIST_REQ;
    ID_PULL_FRIEND_APPLY_LIST_REQ; ID_PULL_SESSION_MESSAGE_LIST_REQ; ID_PULL_MESSAGE_LIST_REQ; ID_ACK]).

Section Operations.
Context `{StdHash} `{PacketCodec} `{IterationOrder} `{GatewayIdentity}.

(** ** [MessageLink] *)

Definition update_link (lid : nat) (f : link -> link) : Manager unit :=
  writes (fun m => with_objects (alter f lid (objects m)) m).

Definition set_healthy (b : bool) (l : link) : link :=
  mkLink (lk_node l) (lk_writer l) b (lk_inflight l) (lk_lastReadAt l).
Definition set_link_writer (w : writer GatewayToMessageFrame) (l : link) : link :=
  mkLink (lk_node l) w (lk_healthy l) (lk_inflight l) (lk_lastReadAt l).
Definition set_inflight (n : Z) (l : link) : link :=
  mkLink (lk_node l) (lk_writer l) (lk_healthy l) n (lk_lastReadAt l).
Definition set_lastReadAt (t : Z) (l : link) : link :=
  mkLink (lk_node l) (lk_writer l) (lk_healthy l) (lk_inflight l) t.

Definition link_enqueue (lid : nat) (frame : GatewayToMessageFrame) : Manager bool := fun m =>
  match objects m !! lid with
  | None => (false, m)
  | Some l =>
      let '(ok, w) := Enqueue frame (lk_writer l) in
      (ok, with_objects (<[lid := set_link_writer w l]> (objects m)) m)
  end.

(** [Stop], a failed read or write, [OnDone]: stopped and unhealthy. *)
Definition halt (l : link) : link := set_healthy false (set_link_writer (StopWriter (lk_writer l)) l).

Definition StopLink (lid : nat) : Manager unit :=
  update_link lid (fun l => if w_stopped (lk_writer l) then l else halt l).

(** [healthy] is lowered before [Stop] and in any case. *)
Definition Drain (lid : nat) : Manager unit :=
  do! update_link lid (set_healthy false) in
  StopLink lid.

Definition Heartbeat (lid : nat) (now sequence : Z) : Manager unit :=
  let! _ := link_enqueue lid (GHeartbeat now sequence) in pure tt.

Definition IncrementInflight (lid : nat) : Manager unit :=
  update_link lid (fun l => set_inflight (lk_inflight l + 1) l).
Definition DecrementInflight (lid : nat) : Manager unit :=
  update_link lid (fun l => if 0 <? lk_inflight l then set_inflight (lk_inflight l - 1) l else l).

(** ** Choosing a link *)

Definition healthy_links (excluded : string) (m : manager) : list (string * nat) :=
  List.filter (fun kv => negb (bool_decide (kv.1 = excluded)) &&
    match objects m !! kv.2 with Some l => lk_healthy l | None => false end) (iter (links m)).

Definition HealthyLinkCount (m : manager) : nat :=
  length (List.filter (fun kv : string * nat => match objects m !! kv.2 with Some l => lk_healthy l | None => false end)
    (iter (links m))).

Definition Ready (m : manager) : bool := (0 <? HealthyLinkCount m)%nat.

(** [Id()] of the link. *)
Definition link_id (m : manager) (lid : nat) : string :=
  match objects m !! lid with Some l => mn_id (lk_node l) | None => "" end.
Definition link_inflight (m : manager) (lid : nat) : Z :=
  match objects m !! lid with Some l => lk_inflight l | None => 0 end.

Definition score (conversationId : Z) (node : string) : Z :=
  std_hash (to_string conversationId +:+ ":" +:+ node).

(** The first of the highest scores. *)
Definition best_of (f : nat -> Z) (l : list nat) : option nat :=
  foldl (fun selected x => match selected with
                           | None => Some x
                           | Some y => if f x >? f y then Some x else Some y
                           end) None l.

(** [std::min_element]: the first of the lowest values is the first of the
    highest negated values. *)
Definition SelectLink (conversationId : Z) (excluded : string) (m : manager) : option nat :=
  let healthy := snd <$> healthy_links excluded m in
  if 0 <? conversationId
  then best_of (fun lid => score conversationId (link_id m lid)) healthy
  else best_of (fun lid => - link_inflight m lid) healthy.

(** ** Results *)

Definition error_result (command : CommandEnvelope) (requestId : string) (error : ErrorCodes)
    (what : string) : CommandResult :=
  mkCommandResult requestId (uint32 (getServiceResponseId (ce_service_id command))) error true
    (SerializeToString (MakeErrorPacket error what)).

(** Erase a pending command and run its callback. *)
Definition complete (requestId : string) (result : PendingCommand -> CommandResult) : Manager bool := fun m =>
  match pending m !! requestId with
  | None => (false, m)
  | Some p => (true, with_called (called m ++ [(pn_callback p, result p)])
                       (with_pending (delete requestId (pending m)) m))
  end.

Definition ExpirePending (requestId : string) : Manager unit :=
  let! _ := complete requestId (fun p =>
    error_result (pn_command p) requestId DeadlineExceeded "message command deadline exceeded") in
  pure tt.

(** ** Forwarding *)

Definition spawn (t : thread) : Manager unit := writes (fun m => with_threads (threads m ++ [t]) m).

(** [Forward] up to the choice of a link; [None] when it returns false. *)
Definition ForwardBegin (now : Z) (command : CommandEnvelope) (callback : nat) : Manager (option thread) :=
  if str_empty (ce_request_id command) then pure None
  else if ce_deadline_unix_ms command <=? now then pure None
  else
    let! link := reads (SelectLink (ce_conversation_id command) "") in
    match link with
    | None => pure None
    | Some lid => pure (Some (TInsert lid command callback))
    end.

(** ** Reconnecting *)

Definition reconnect_delay (attempt jitter : Z) : Z :=
  let exponent := Z.min attempt 6 in
  let delay := Z.min (200 * 2 ^ exponent) 10000 in
  delay + jitter.

(** The largest jitter drawn for an attempt. *)
Definition jitter_max (attempt : Z) : Z :=
  Z.max 1 (Z.min (200 * 2 ^ Z.min attempt 6) 10000 / 4).

(** [StartLink], with the registration frame of [MessageLink::Start]. *)
Definition StartLink (now : Z) (node : MessageNode) : Manager unit := fun m =>
  let lid := next_link m in
  let m := match links m !! mn_id node with
           | Some old => (StopLink old m).2
           | None => m
           end in
  let m := with_next (S lid) (with_links (<[mn_id node := lid]> (links m))
             (with_objects (<[lid := mkLink node new_writer false 0 now]> (objects m)) m)) in
  let '(_, m) := link_enqueue lid (GRegister (mkRegisterGateway 1 gateway_id instance_id (uint64 now)
                                               (Z.of_nat kMaxStreamQueue))) m in
  (tt, m).

(** The timer [OnLinkDone] has started, when it fires. *)
Definition Reconnect (now : Z) (node : MessageNode) : Manager unit := fun m =>
  if stopping m then (tt, m)
  else match configuredNodes m !! mn_id node with
       | Some c =>
           if bool_decide (is_Some (links m !! mn_id node)) ||
              negb (bool_decide (mn_host c = mn_host node)) || negb (mn_port c =? mn_port node)
           then (tt, m)
           else StartLink now node m
       | None => (tt, m)
       end.

(** [OnLinkDone] up to [RetryPending], which its thread goes on with. *)
Definition OnLinkDone (node : string) (lid : nat) : Manager unit := fun m =>
  if stopping m then (tt, m)
  else match links m !! node with
       | Some l =>
           if decide (l = lid) then
             let m := with_links (delete node (links m)) m in
             match configuredNodes m !! node with
             | Some _ => spawn (TRetryAll node) m
             | None => (tt, m)
             end
           else (tt, m)
       | None => (tt, m)
       end.

(** ** Threads *)

Definition set_attempts (n : Z) (p : PendingCommand) : PendingCommand :=
  mkPending (pn_command p) (pn_callback p) (pn_linkId p) n.
Definition set_link (id : string) (p : PendingCommand) : PendingCommand :=
  mkPending (pn_command p) (pn_callback p) id (pn_attempts p).

(** A command frame handed to a link. *)
Definition send_command (lid : nat) (p : PendingCommand) (again : bool) : Manager bool :=
  let! ok := link_enqueue lid (GCommand (pn_command p)) in
  do! (if (ok : bool) then writes (fun m => with_sent (sent m ++ [(pn_callback p, pn_command p, again)]) m) else pure tt) in
  pure ok.

(** One lock section; the result is what remains to be done. *)
Definition thread_step (now : Z) (t : thread) : Manager (option thread) :=
  match t with
  | TInsert lid command cb => fun m =>
      let id := ce_request_id command in
      match pending m !! id with
      | Some _ => (None, m)
      | None =>
          (Some (TSend lid command cb),
           with_accepted (accepted m ++ [(cb, id)])
             (with_pending (<[id := mkPending command cb (link_id m lid) 0]> (pending m)) m))
      end
  | TSend lid command cb =>
      let! ok := send_command lid (mkPending command cb "" 0) false in
      pure (Some (if (ok : bool) then TCount lid else TReject (ce_request_id command)))
  | TCount lid => do! IncrementInflight lid in pure None
  | TReject id =>
      let! _ := complete id (fun p =>
        error_result (pn_command p) id ResourceExhausted "message stream queue is full") in
      pure None
  | TRetryAll node => fun m =>
      (Some (TRetry node (fst <$> List.filter (fun kv => bool_decide (pn_linkId kv.2 = node))
                            (iter (pending m)))), m)
  | TRetry node [] => pure (Some (TBackoff node))
  | TRetry node (id :: rest) => fun m =>
      match pending m !! id with
      | None => (Some (TRetry node rest), m)
      | Some p =>
          if (1 <=? pn_attempts p) ||
             negb (CanRetryOnAnotherMessageNode (ce_service_id (pn_command p)))
          then (Some (TRetry node rest), m)
          else
            let p := set_attempts (pn_attempts p + 1) p in
            (Some (TRetrySend node p id rest), with_pending (<[id := p]> (pending m)) m)
      end
  | TRetrySend node failed id rest =>
      if (0 <? ce_deadline_unix_ms (pn_command failed)) && (ce_deadline_unix_ms (pn_command failed) <=? now)
      then pure (Some (TRetry node rest))
      else
        let! retry := reads (SelectLink (ce_conversation_id (pn_command failed)) node) in
        match retry with
        | None => pure (Some (TRetry node rest))
        | Some lid =>
            let! ok := send_command lid failed true in
            if (ok : bool) then do! IncrementInflight lid in pure (Some (TRetryMove node lid id rest))
            else pure (Some (TRetry node rest))
        end
  | TRetryMove node lid id rest => fun m =>
      (Some (TRetry node rest),
       match pending m !! id with
       | Some p => with_pending (<[id := set_link (link_id m lid) p]> (pending m)) m
       | None => m
       end)
  | TBackoff node => fun m =>
      (None, with_attempts (<[node := default 0 (reconnectAttempts m !! node) + 1]> (reconnectAttempts m)) m)
  end.

(** An operation run to its end without interruption. *)
Fixpoint run_thread (fuel : nat) (now : Z) (t : thread) : Manager unit :=
  match fuel with
  | O => pure tt
  | S fuel =>
      let! next := thread_step now t in
      match next with
      | Some t => run_thread fuel now t
      | None => pure tt
      end
  end.

(** [Forward] and whether it has taken the command, nobody interfering. *)
Definition Forward (now : Z) (command : CommandEnvelope) (callback : nat) : Manager bool :=
  let! start := ForwardBegin now command callback in
  match start with
  | None => pure false
  | Some t =>
      let! taken := reads (fun m => bool_decide (pending m !! ce_request_id command = None)) in
      do! run_thread 4 now t in
      pure taken
  end.

(** ** Frames of a link *)

Definition HandleResult (node : string) (r : CommandResult) : Manager unit :=
  let! _ := complete (cr_request_id r) (fun _ => r) in
  let! found := reads (fun m => links m !! node) in
  match found with
  | Some lid => DecrementInflight lid
  | None => pure tt
  end.

(** [handler]: what the delivery handler returned, if one is installed. *)
Definition HandleDelivery (node : string) (handler : option DeliveryStatus) (d : DeliveryEnvelope)
  : Manager unit :=
  let status := default DELIVERY_STATUS_OFFLINE handler in
  let! found := reads (fun m => links m !! node) in
  match found with
  | Some lid =>
      let! _ := link_enqueue lid
        (GDeliveryAck (mkDeliveryAck (de_delivery_id d) status gateway_id instance_id)) in
      pure tt
  | None => pure tt
  end.

Definition OnFrame (node : string) (handler : option DeliveryStatus) (frame : MessageToGatewayFrame)
  : Manager unit :=
  match frame with
  | MCommandResult r => HandleResult node r
  | MRegisterResult r =>
      if rr_accepted r then writes (fun m => with_attempts (<[node := 0]> (reconnectAttempts m)) m)
      else pure tt
  | MHeartbeatAck _ _ => pure tt
  | MDrainNotice _ _ =>
      let! found := reads (fun m => links m !! node) in
      match found with
      | Some lid => Drain lid
      | None => pure tt
      end
  | MDelivery d => HandleDelivery node handler d
  | MEmpty => pure tt
  end.

(** [MessageLink::OnReadDone]; [None]: the read failed. *)
Definition OnReadDone (now : Z) (lid : nat) (handler : option DeliveryStatus)
    (frame : option MessageToGatewayFrame) : Manager unit :=
  match frame with
  | None => update_link lid halt
  | Some f =>
      do! update_link lid (set_lastReadAt now) in
      do! match f with
          | MRegisterResult r => update_link lid (set_healthy (rr_accepted r))
          | _ => pure tt
          end in
      let! node := reads (fun m => link_id m lid) in
      OnFrame node handler f
  end.

Definition OnWriteCompleted (lid : nat) (ok : bool) : Manager unit :=
  update_link lid (fun l =>
    if w_inFlight (lk_writer l) then
      if ok then set_link_writer (OnWriteDone true (lk_writer l)) l else halt l
    else l).

(** [MessageLink::OnDone]; the manager's part is posted and runs later. *)
Definition OnDone (lid : nat) : Manager unit := update_link lid halt.

(** ** Topology *)

Definition desired (s : TopologySnapshot) : gmap string MessageNode :=
  foldl (fun t n => <[mn_id n := n]> t) ∅ (tp_nodes s).

(** A link goes when its node is not wanted or wanted elsewhere. *)
Definition outdated (want configured : gmap string MessageNode) (node : string) : bool :=
  match want !! node with
  | None => true
  | Some w => match configured !! node with
              | Some c => negb (bool_decide (mn_host w = mn_host c)) || negb (mn_port w =? mn_port c)
              | None => false
              end
  end.

(** The loop under [linksMutex]: the removed links, and the new tables. *)
Definition remove_outdated (s : TopologySnapshot) (m : manager) : list nat * manager :=
  let gone := List.filter (fun kv => outdated (desired s) (configuredNodes m) kv.1) (iter (links m)) in
  (snd <$> gone,
   with_configured (desired s)
     (with_attempts (foldl (fun t kv => delete kv.1 t) (reconnectAttempts m) gone)
        (with_links (foldl (fun t kv => delete kv.1 t) (links m) gone) m))).

Definition ApplyTopology (now : Z) (s : TopologySnapshot) : Manager unit :=
  do! writes (fun m => if tp_changed s && negb (tp_version s =? 0)
                       then with_version (tp_version s) m else m) in
  let! removed := remove_outdated s in
  do! for_each removed StopLink in
  for_each (tp_nodes s) (fun node => fun m =>
    match links m !! mn_id node with
    | Some _ => (tt, m)
    | None => StartLink now node m
    end).

(** A round of [TopologyLoop] after the topology: heartbeats, then silent links
    are stopped. *)
Definition watch_links (now sequence : Z) : Manager unit :=
  let! current := reads (fun m => snd <$> iter (links m)) in
  for_each current (fun lid =>
    let! l := reads (fun m => objects m !! lid) in
    match l with
    | None => pure tt
    | Some l =>
        do! (if lk_healthy l then Heartbeat lid now sequence else pure tt) in
        if 30000 <? now - lk_lastReadAt l then StopLink lid else pure tt
    end).

(** ** Shutdown *)

Definition StopManager : Manager unit := fun m =>
  if stopping m then (tt, m)
  else
    let m := with_stopping true m in
    let '(_, m) := for_each (snd <$> iter (links m)) StopLink m in
    let abandoned := iter (pending m) in
    (tt, with_called (called m ++ ((fun kv => (pn_callback kv.2,
            error_result (pn_command kv.2) (ce_request_id (pn_command kv.2)) DependencyUnavailable
              "message links are stopping")) <$> abandoned))
           (with_pending ∅ m)).

(** ** Runs *)

Inductive manager_event :=
  | LForward (now : Z) (command : CommandEnvelope) (callback : nat)
  | LThread (now : Z) (i : nat)
  | LRead (now : Z) (lid : nat) (handler : option DeliveryStatus) (frame : option MessageToGatewayFrame)
  | LWritten (lid : nat) (ok : bool)
  | LDone (lid : nat)
  | LLinkDone (node : string) (lid : nat)
  | LExpire (requestId : string)
  | LReconnect (now : Z) (node : MessageNode)
  | LTopology (now : Z) (s : TopologySnapshot)
  | LWatch (now sequence : Z)
  | LStop.

Definition manager_step (e : manager_event) : Manager unit :=
  match e with
  | LForward now command cb =>
      let! start := ForwardBegin now command cb in
      match start with Some t => spawn t | None => pure tt end
  | LThread now i => fun m =>
      match threads m !! i with
      | None => (tt, m)
      | Some t =>
          let '(next, m) := thread_step now t m in
          (tt, with_threads (take i (threads m) ++ option_list next ++ drop (S i) (threads m)) m)
      end
  | LRead now lid handler frame => OnReadDone now lid handler frame
  | LWritten lid ok => OnWriteCompleted lid ok
  | LDone lid => OnDone lid
  | LLinkDone node lid => OnLinkDone node lid
  | LExpire id => ExpirePending id
  | LReconnect now node => Reconnect now node
  | LTopology now s => ApplyTopology now s
  | LWatch now sequence => watch_links now sequence
  | LStop => StopManager
  end.

Definition manager_run (es : list manager_event) (m : manager) : manager :=
  foldl (fun m e => (manager_step e m).2) m es.

Definition new_manager : manager := mkManager ∅ ∅ ∅ 0 ∅ ∅ false 0 [] [] [] [].
End Operations.
