(* ===== verification/LinkLife.v ===== *)
(** * The life of a link object

    [MessageLink] ([src/server/gateway/src/MessageLink.cc]) as a gRPC reactor:
    the hold that keeps the call open, the reads and writes in flight, and the
    places that keep the object alive: [links] and, for one second,
    [retiredLinks].  gRPC, as it documents itself, calls [OnDone] once, when the
    call has started, no read or write is in flight and no hold is left. *)

From S2P Require Import Prelude.

(** [lf_holds]: added less removed, as gRPC counts; [lf_hold]: [externalHold];
    [lf_misused]: a callback ran on the object after it was destroyed. *)
Record life := mkLife {
  lf_started : bool; lf_stopped : bool; lf_healthy : bool; lf_cancelled : bool; lf_hold : bool; lf_holds : Z;
  lf_reading : bool; lf_writing : bool; lf_queued : nat; lf_done : bool;
  lf_listed : bool; lf_retired : nat; lf_misused : bool }.

(** [std::make_shared<MessageLink>], put into [links]. *)
Definition born : life := mkLife false false false false false 0 false false 0 false true 0 false.

Definition alive (l : life) : bool := lf_listed l || negb (lf_retired l =? 0)%nat.

Definition ReleaseHold (l : life) : life :=
  if lf_hold l
  then mkLife (lf_started l) (lf_stopped l) (lf_healthy l) (lf_cancelled l) false (lf_holds l - 1) (lf_reading l)
         (lf_writing l) (lf_queued l) (lf_done l) (lf_listed l) (lf_retired l) (lf_misused l)
  else l.

Definition halted (l : life) : life :=
  mkLife (lf_started l) true false (lf_cancelled l) (lf_hold l) (lf_holds l) (lf_reading l) (lf_writing l) (lf_queued l)
    (lf_done l) (lf_listed l) (lf_retired l) (lf_misused l).

Definition TryCancel (l : life) : life :=
  mkLife (lf_started l) (lf_stopped l) (lf_healthy l) true (lf_hold l) (lf_holds l) (lf_reading l) (lf_writing l)
    (lf_queued l) (lf_done l) (lf_listed l) (lf_retired l) (lf_misused l).

Definition Stop (l : life) : life := if lf_stopped l then l else ReleaseHold (TryCancel (halted l)).

(** [Enqueue] of a frame: one write at a time. *)
Definition Enqueue (l : life) : life :=
  if lf_stopped l then l
  else mkLife (lf_started l) (lf_stopped l) (lf_healthy l) (lf_cancelled l) (lf_hold l) (lf_holds l) (lf_reading l) true
         (if lf_writing l then S (lf_queued l) else lf_queued l) (lf_done l) (lf_listed l) (lf_retired l) (lf_misused l).

(** [Start]: the hold, the first read, the registration, the call. *)
Definition Start (l : life) : life :=
  let l := mkLife (lf_started l) (lf_stopped l) (lf_healthy l) (lf_cancelled l) true (lf_holds l + 1) true (lf_writing l)
             (lf_queued l) (lf_done l) (lf_listed l) (lf_retired l) (lf_misused l) in
  let l := Enqueue l in
  mkLife true (lf_stopped l) (lf_healthy l) (lf_cancelled l) (lf_hold l) (lf_holds l) (lf_reading l) (lf_writing l)
    (lf_queued l) (lf_done l) (lf_listed l) (lf_retired l) (lf_misused l).

Definition set_reading (b : bool) (l : life) : life :=
  mkLife (lf_started l) (lf_stopped l) (lf_healthy l) (lf_cancelled l) (lf_hold l) (lf_holds l) b (lf_writing l)
    (lf_queued l) (lf_done l) (lf_listed l) (lf_retired l) (lf_misused l).
Definition set_writes (b : bool) (n : nat) (l : life) : life :=
  mkLife (lf_started l) (lf_stopped l) (lf_healthy l) (lf_cancelled l) (lf_hold l) (lf_holds l) (lf_reading l) b
    n (lf_done l) (lf_listed l) (lf_retired l) (lf_misused l).
Definition set_life_healthy (b : bool) (l : life) : life :=
  mkLife (lf_started l) (lf_stopped l) b (lf_cancelled l) (lf_hold l) (lf_holds l) (lf_reading l) (lf_writing l)
    (lf_queued l) (lf_done l) (lf_listed l) (lf_retired l) (lf_misused l).

(** A callback of gRPC uses the object. *)
Definition used (l : life) : life :=
  mkLife (lf_started l) (lf_stopped l) (lf_healthy l) (lf_cancelled l) (lf_hold l) (lf_holds l) (lf_reading l) (lf_writing l)
    (lf_queued l) (lf_done l) (lf_listed l) (lf_retired l) (lf_misused l || negb (alive l)).

(** [OnReadDone]; [registered]: the frame answers the registration. *)
Definition OnReadDone (ok : bool) (registered : option bool) (l : life) : life :=
  if ok then match registered with Some accepted => set_life_healthy accepted l | None => l end
  else ReleaseHold (halted (set_reading false l)).

Definition OnWriteDone (ok : bool) (l : life) : life :=
  if ok then match lf_queued l with
             | O => set_writes false 0 l
             | S n => set_writes true n l
             end
  else ReleaseHold (halted (set_writes false (lf_queued l) l)).

Definition OnDone (l : life) : life :=
  let l := halted l in
  mkLife (lf_started l) (lf_stopped l) (lf_healthy l) (lf_cancelled l) (lf_hold l) (lf_holds l) (lf_reading l) (lf_writing l)
    (lf_queued l) true (lf_listed l) (lf_retired l) (lf_misused l).

(** Taken out of [links], with [RetireLink]. *)
Definition RetireLink (l : life) : life :=
  mkLife (lf_started l) (lf_stopped l) (lf_healthy l) (lf_cancelled l) (lf_hold l) (lf_holds l) (lf_reading l) (lf_writing l)
    (lf_queued l) (lf_done l) false (S (lf_retired l)) (lf_misused l).

(** The timer of [RetireLink]: [std::erase] removes every entry of the link. *)
Definition retire_timer (l : life) : life :=
  mkLife (lf_started l) (lf_stopped l) (lf_healthy l) (lf_cancelled l) (lf_hold l) (lf_holds l) (lf_reading l) (lf_writing l)
    (lf_queued l) (lf_done l) (lf_listed l) 0 (lf_misused l).

(** ** Steps *)

Inductive life_event :=
  | LStart | LStop | LEnqueue | LRead (ok : bool) (registered : option bool) | LWrite (ok : bool) | LDone | LRetire | LTimer.

(** What the manager and gRPC may do when. *)
Definition life_step (e : life_event) (l : life) : option life :=
  match e with
  | LStart => if lf_started l then None else Some (Start l)
  | LStop => if alive l then Some (Stop l) else None
  | LEnqueue => if alive l && lf_started l then Some (Enqueue l) else None
  | LRead ok registered => if lf_started l && lf_reading l then Some (OnReadDone ok registered (used l)) else None
  | LWrite ok => if lf_started l && lf_writing l then Some (OnWriteDone ok (used l)) else None
  | LDone =>
      if lf_started l && (lf_holds l =? 0) && negb (lf_reading l) && negb (lf_writing l) && negb (lf_done l)
      then Some (OnDone (used l)) else None
  | LRetire => if lf_listed l then Some (RetireLink l) else None
  | LTimer => if (lf_retired l =? 0)%nat then None else Some (retire_timer l)
  end.

(** ** The hold *)

Record held (l : life) : Prop := mk_held {
  hd_balance : lf_holds l = if lf_hold l then 1 else 0;
  hd_before : lf_started l = false -> lf_hold l = false /\ lf_reading l = false /\ lf_writing l = false /\ lf_queued l = 0%nat;
  hd_read : lf_started l = true -> lf_reading l = true \/ lf_hold l = false;
  hd_halted : lf_started l = true -> lf_reading l = false -> lf_stopped l = true;
  hd_done : lf_done l = true ->
    lf_started l = true /\ lf_stopped l = true /\ lf_hold l = false /\ lf_reading l = false /\ lf_writing l = false }.

Ltac each_life := repeat case_match; simplify_eq; simpl in *; split; simpl in *; boolp; intuition (congruence || lia).

Lemma held_step e l l' : held l -> life_step e l = Some l' -> held l'.
Proof.
  intros [H1 H2 H3 H4 H5] E. destruct l as [st sp he ca ho hs re wr qu dn li rt mi].
  destruct st, sp, ho, re, wr, dn; simpl in *; try (exfalso; intuition congruence); destruct e as [| | |[] rg|[]| | |]; simpl in E; unfold Stop, Start, Enqueue, OnReadDone, OnWriteDone, used, ReleaseHold, halted, TryCancel,
    OnDone, RetireLink, retire_timer, set_reading, set_writes, set_life_healthy in *; simpl in *; each_life.
Qed.

Lemma held_born : held born.
Proof. by split. Qed.

Lemma held_moves s s' : held s -> rtc (moves life_step) s s' -> held s'.
Proof. apply moves_invariant. apply held_step. Qed.

(** The hold is added once and removed at most once, in any interleaving of
    [Stop], failed reads, failed writes and the end; and from any moment after
    [Start] at most three callbacks of a failing transport lead to [OnDone]. *)
Theorem hold_released_once l :
  rtc (moves life_step) born l ->
  lf_holds l = (if lf_hold l then 1 else 0) /\
  (lf_started l = true -> lf_done l = false ->
   exists es l', Forall (fun e => e = LRead false None \/ e = LWrite false \/ e = LDone) es /\ (length es <= 3)%nat /\
     schedule life_step es l = Some l' /\ lf_done l' = true /\ lf_holds l' = 0).
Proof.
  intros Hr. pose proof (held_moves _ _ held_born Hr) as [H1 H2 H3 H4 H5]. split; [done|]. intros Hs Hd.
  destruct l as [st sp he ca ho hs re wr qu dn li rt mi]. simpl in *. subst st dn hs.
  specialize (H3 eq_refl). clear -H3.
  destruct re; [exists (LRead false None :: if wr then [LWrite false; LDone] else [LDone])
               |assert (ho = false) as -> by (by destruct H3); exists (if wr then [LWrite false; LDone] else [LDone])];
    destruct wr; try destruct ho; eexists; (split; [repeat first [apply Forall_nil_2|apply Forall_cons_2; [tauto|]]|]);
    (split; [simpl; lia|]); (split; [vm_compute; reflexivity|vm_compute; done]).
Qed.

(** ** Destruction *)

Definition patient (e : life_event) (l : life) : option life :=
  match e with LTimer => if lf_done l then life_step LTimer l else None | _ => life_step e l end.

Definition unharmed (l : life) : Prop := held l /\ lf_misused l = false /\ (lf_done l = false -> alive l = true).

Lemma unharmed_step e l l' : unharmed l -> patient e l = Some l' -> unharmed l'.
Proof.
  intros (Hh & Hm & Ha) E. split; [|].
  { apply (held_step e l); [done|]. destruct e; try exact E. simpl in E |- *. by destruct (lf_done l). }
  destruct Hh as [H1 H2 H3 H4 H5]. destruct l as [st sp he ca ho hs re wr qu dn li rt mi]. simpl in *. subst mi.
  destruct dn; [destruct (H5 eq_refl) as (-> & -> & -> & -> & ->)|specialize (Ha eq_refl)].
  - destruct e; simpl in E; repeat case_match; simplify_eq; unfold alive in *; simpl in *;
      rewrite ?andb_false_r in *; simpl in *; simplify_eq; by split.
  - destruct e as [| | |[] rg|[]| | |]; simpl in E;
      unfold Stop, Start, Enqueue, OnReadDone, OnWriteDone, used, ReleaseHold, halted, TryCancel,
        OnDone, RetireLink, set_reading, set_writes, set_life_healthy in *; simpl in *;
      unfold alive in *; simpl in *; rewrite ?Ha in E; repeat case_match; simplify_eq; simpl in *; split; intros; simpl in *;
      rewrite ?Ha, ?orb_true_r; try done; try congruence; unfold alive; simpl; rewrite ?orb_true_r; done.
Qed.

(** If the object outlives [OnDone] no callback runs on a destroyed one; but the
    timer of [RetireLink] does not wait for it, and then one does. *)
Theorem link_destroyed_early :
  (forall l, rtc (moves patient) born l -> lf_misused l = false) /\
  (exists l, schedule life_step [LStart; LRetire; LStop; LTimer; LRead false None] born = Some l /\ lf_misused l = true).
Proof.
  split.
  - intros l Hr. assert (unharmed l) as (_ & H & _); [|done]. revert Hr.
    apply (moves_invariant patient unharmed born l unharmed_step). split; [apply held_born|by split].
  - eexists. split; [vm_compute; reflexivity|vm_compute; reflexivity].
Qed.
