(* ===== verification/Forwarding.v ===== *)
(** * Every forwarded command is answered once

    In any interleaving of forwards, results, time-outs, broken links, retries,
    changes of topology and shutdown. *)

From S2P Require Import Prelude Const Packet Store Pools Transport Links.

(** ** What the operations on links leave alone *)

Section Ledger.
Context `{StdHash} `{PacketCodec} `{IterationOrder} `{GatewayIdentity}.

(** The books of the manager: everything but the links and the tables of nodes. *)
Definition books (m : manager) :=
  (pending m, accepted m, called m, sent m, threads m).

Definition keeps_books {A} (op : Manager A) : Prop := forall b, always (fun m => books m = b) op.

Lemma keeps_books_bind {A B} (m : Manager A) (k : A -> Manager B) :
  keeps_books m -> (forall a, keeps_books (k a)) -> keeps_books (seq_bind m k).
Proof. intros Hm Hk b. apply always_bind; [apply Hm|]. intros a. apply Hk. Qed.
Lemma keeps_pure {A} (a : A) : keeps_books (pure a).
Proof. intros b. apply always_pure. Qed.
Lemma keeps_reads {A} (f : manager -> A) : keeps_books (reads f).
Proof. intros b. apply always_reads. Qed.
Lemma keeps_for_each {A} (l : list A) f : (forall x, keeps_books (f x)) -> keeps_books (for_each l f).
Proof. intros Hf b. apply always_for_each. intros x _. apply Hf. Qed.
Lemma keeps_writes f : (forall m, books (f m) = books m) -> keeps_books (writes f).
Proof. intros Hf b. apply always_writes. intros m <-. apply Hf. Qed.
Lemma keeps_update_link lid f : keeps_books (update_link lid f).
Proof. by apply keeps_writes. Qed.
Lemma keeps_link_enqueue lid frame : keeps_books (link_enqueue lid frame).
Proof.
  intros b m <-. unfold link_enqueue. destruct (objects m !! lid); [|done]. by destruct (Enqueue _ _).
Qed.
Lemma keeps_StopLink lid : keeps_books (StopLink lid).
Proof. apply keeps_update_link. Qed.
Hint Resolve keeps_pure keeps_reads keeps_update_link keeps_link_enqueue keeps_StopLink : books.

Ltac books :=
  repeat match goal with
  | |- keeps_books (seq_bind _ _) => apply keeps_books_bind; [|intros ?]
  | |- keeps_books (for_each _ _) => apply keeps_for_each; intros ?
  | |- keeps_books (writes _) => apply keeps_writes; intros ?; try done
  | |- keeps_books _ => solve [auto with books]
  | |- keeps_books _ => case_match
  end.

Lemma keeps_Drain lid : keeps_books (Drain lid).
Proof. unfold Drain. books. Qed.
Lemma keeps_IncrementInflight lid : keeps_books (IncrementInflight lid).
Proof. apply keeps_update_link. Qed.
Lemma keeps_DecrementInflight lid : keeps_books (DecrementInflight lid).
Proof. apply keeps_update_link. Qed.
Hint Resolve keeps_Drain keeps_IncrementInflight keeps_DecrementInflight : books.

Lemma keeps_StartLink now node : keeps_books (StartLink now node).
Proof.
  intros b m <-. unfold StartLink.
  set (m1 := match links m !! mn_id node with Some _ => _ | None => _ end).
  assert (books m1 = books m) as Hm1.
  { unfold m1. destruct (links m !! _); [|done]. by apply keeps_StopLink. }
  set (m2 := with_next _ _).
  pose proof (keeps_link_enqueue (next_link m) (GRegister (mkRegisterGateway 1 gateway_id instance_id
    (uint64 now) (Z.of_nat kMaxStreamQueue))) (books m2) m2 eq_refl) as Hm2.
  destruct (link_enqueue _ _ m2) as [ok m3]. simpl in *. by rewrite Hm2, <- Hm1.
Qed.
Hint Resolve keeps_StartLink : books.

Lemma keeps_Reconnect now node : keeps_books (Reconnect now node).
Proof.
  intros b m <-. unfold Reconnect. destruct (stopping m); [done|].
  destruct (configuredNodes m !! _); [|done]. destruct (_ || _); [done|]. by apply keeps_StartLink.
Qed.

Lemma keeps_ApplyTopology now s : keeps_books (ApplyTopology now s).
Proof.
  unfold ApplyTopology. apply keeps_books_bind; [apply keeps_writes; intros m; by destruct (_ && _)|].
  intros _. apply keeps_books_bind; [intros b m <-; done|]. intros removed.
  apply keeps_books_bind; [books|]. intros _. apply keeps_for_each. intros node b m <-.
  destruct (links m !! _); [done|]. by apply keeps_StartLink.
Qed.

Lemma keeps_watch now sequence : keeps_books (watch_links now sequence).
Proof. unfold watch_links, Heartbeat. books. Qed.

Lemma keeps_HandleDelivery node h d : keeps_books (HandleDelivery node h d).
Proof. unfold HandleDelivery. books. Qed.
End Ledger.
#[export] Hint Resolve keeps_pure keeps_reads keeps_update_link keeps_link_enqueue keeps_StopLink
  keeps_Drain keeps_IncrementInflight keeps_DecrementInflight keeps_StartLink : books.
Ltac books :=
  repeat match goal with
  | |- keeps_books (seq_bind _ _) => apply keeps_books_bind; [|intros ?]
  | |- keeps_books (for_each _ _) => apply keeps_for_each; intros ?
  | |- keeps_books (writes _) => apply keeps_writes; intros ?; try done
  | |- keeps_books _ => solve [auto with books]
  | |- keeps_books _ => case_match
  end.

(** ** The books balance *)

(** A callback with the request id it answers. *)
Definition answered (e : nat * CommandResult) : nat * string := (e.1, cr_request_id e.2).
Definition waiting (kv : string * PendingCommand) : nat * string := (pn_callback kv.2, kv.1).

(** Everything accepted has either been answered or is pending; a pending
    command is filed under its own request id. *)
Definition balanced (m : manager) : Prop :=
  accepted m ≡ₚ (answered <$> called m) ++ (waiting <$> map_to_list (pending m)) /\
  forall id p, pending m !! id = Some p -> ce_request_id (pn_command p) = id.

Section Balance.
Context `{StdHash} `{PacketCodec} `{IterationOrder} `{GatewayIdentity}.

Lemma balanced_books m m' : books m' = books m -> balanced m -> balanced m'.
Proof. unfold books, balanced. intros [= -> -> -> _ _]. done. Qed.

Lemma balanced_keeps {A} (op : Manager A) m : keeps_books op -> balanced m -> balanced (op m).2.
Proof. intros Hk. by apply balanced_books, Hk. Qed.

(** A pending command is replaced by one with the same callback and command. *)
Lemma balanced_replace id p p' m :
  pending m !! id = Some p -> pn_callback p' = pn_callback p -> pn_command p' = pn_command p ->
  balanced m -> balanced (with_pending (<[id := p']> (pending m)) m).
Proof.
  intros Hp Hc Hcmd [Hb Hk]. split; simpl.
  - rewrite Hb. apply Permutation_app_head. rewrite <- insert_delete_eq, map_to_list_insert by apply lookup_delete_eq.
    rewrite <- (map_to_list_delete (pending m) id p) by done. simpl. unfold waiting at 1 3. simpl. by rewrite Hc.
  - intros id' q. destruct (decide (id = id')) as [<-|Hne].
    + rewrite lookup_insert_eq. intros [= <-]. rewrite Hcmd. by apply Hk.
    + rewrite lookup_insert_ne by done. apply Hk.
Qed.

Lemma complete_balanced id f m :
  (forall p, ce_request_id (pn_command p) = id -> cr_request_id (f p) = id) ->
  balanced m -> balanced (complete id f m).2.
Proof.
  intros Hf [Hb Hk]. unfold complete. destruct (pending m !! id) as [p|] eqn:Hp; [|done]. split; simpl.
  - rewrite Hb. rewrite fmap_app, <- app_assoc. apply Permutation_app_head.
    rewrite <- (map_to_list_delete (pending m) id p) by done. simpl. unfold answered, waiting at 1. simpl.
    by rewrite (Hf p (Hk _ _ Hp)).
  - intros id' q Hq. apply lookup_delete_Some in Hq as [_ Hq]. by apply Hk.
Qed.

Lemma send_command_books lid p again m :
  let '(ok, m') := send_command lid p again m in
  books m' = (pending m, accepted m, called m,
    sent m ++ (if ok then [(pn_callback p, pn_command p, again)] else []), threads m).
Proof.
  unfold send_command, seq_bind. pose proof (keeps_link_enqueue lid (GCommand (pn_command p)) (books m) m eq_refl) as Hk.
  destruct (link_enqueue _ _ m) as [ok m1]. simpl in Hk. unfold books in *.
  injection Hk as E1 E2 E3 E4 E5. destruct ok; simpl; rewrite ?app_nil_r; congruence.
Qed.

(** What a lock section does to the books. *)
Lemma thread_step_balanced now t m : balanced m -> balanced (thread_step now t m).2.
Proof.
  intros Hb. destruct t as [lid c cb|lid c cb|lid|id|node|node [|id rest]|node p id rest|node lid id rest|node]; simpl.
  - destruct (pending m !! ce_request_id c) eqn:Hp; [done|]. destruct Hb as [Hb Hk]. split; simpl.
    + rewrite map_to_list_insert by done. simpl. rewrite Hb, <- app_assoc. apply Permutation_app_head.
      unfold waiting at 2. simpl. rewrite Permutation_app_comm. done.
    + intros id q. destruct (decide (ce_request_id c = id)) as [<-|Hne].
      * rewrite lookup_insert_eq. by intros [= <-].
      * rewrite lookup_insert_ne by done. apply Hk.
  - unfold seq_bind. pose proof (send_command_books lid (mkPending c cb "" 0) false m) as Hs.
    destruct (send_command _ _ _ m) as [ok m1]. simpl. unfold books in Hs. injection Hs as E1 E2 E3 _ _.
    unfold balanced. by rewrite E1, E2, E3.
  - exact (balanced_keeps (IncrementInflight lid) m (keeps_IncrementInflight lid) Hb).
  - unfold seq_bind. pose proof (complete_balanced id (fun p =>
      error_result (pn_command p) id ResourceExhausted "message stream queue is full") m ltac:(done) Hb) as Hc.
    by destruct (complete _ _ m).
  - done.
  - done.
  - destruct (pending m !! id) as [p|] eqn:Hp; [|done]. destruct (_ || _); [done|].
    by apply (balanced_replace id p).
  - destruct (_ && _); [done|]. unfold seq_bind, reads. destruct (SelectLink _ _ m) as [lid|]; [|done].
    pose proof (send_command_books lid p true m) as Hs. destruct (send_command _ _ _ m) as [ok m1].
    unfold books in Hs. injection Hs as E1 E2 E3 _ _.
    assert (balanced m1) as Hb1 by (unfold balanced; by rewrite E1, E2, E3).
    destruct ok; [|done].
    exact (balanced_keeps (IncrementInflight lid) m1 (keeps_IncrementInflight lid) Hb1).
  - destruct (pending m !! id) as [p|] eqn:Hp; [|done]. by apply (balanced_replace id p).
  - done.
Qed.

Lemma balanced_stop m : balanced m -> balanced (StopManager m).2.
Proof.
  intros Hb. unfold StopManager. destruct (stopping m); [done|].
  assert (keeps_books (for_each (snd <$> iter (links (with_stopping true m))) StopLink)) as Hk by books.
  pose proof (balanced_keeps _ (with_stopping true m) Hk Hb) as Hb1. clear Hk.
  destruct (for_each _ _ _) as [[] m1]. simpl in Hb1. destruct Hb1 as [Hb1 Hk1]. split; simpl.
  - rewrite Hb1, map_to_list_empty. simpl. rewrite app_nil_r, fmap_app. apply Permutation_app_head.
    rewrite <- list_fmap_compose. rewrite <- (iter_perm (pending m1)).
    assert (forall kv, kv ∈ iter (pending m1) -> waiting kv = (answered ∘ (fun kv : string * PendingCommand =>
      (pn_callback kv.2, error_result (pn_command kv.2) (ce_request_id (pn_command kv.2))
        DependencyUnavailable "message links are stopping"))) kv) as Heq.
    { intros [id p] Hin. rewrite iter_perm in Hin. apply elem_of_map_to_list in Hin.
      unfold waiting, answered. simpl. by rewrite (Hk1 _ _ Hin). }
    clear -Heq. induction (iter (pending m1)) as [|kv l IH]; [done|]. simpl.
    rewrite (Heq kv) by left. constructor. apply IH. intros kv' Hin. apply Heq. by right.
  - intros id p. by rewrite lookup_empty.
Qed.

Lemma step_balanced e m : balanced m -> balanced (manager_step e m).2.
Proof.
  intros Hb. destruct e as [now c cb|now i|now lid h f|lid ok|lid|node lid|id|now node|now s|now sq|]; simpl.
  - unfold seq_bind, ForwardBegin. destruct (str_empty _); [done|]. destruct (_ <=? _); [done|].
    unfold seq_bind, reads. by destruct (SelectLink _ _ m).
  - destruct (threads m !! i) as [t|]; [|done].
    pose proof (thread_step_balanced now t m Hb) as Ht. by destruct (thread_step now t m) as [next m1].
  - unfold OnReadDone. destruct f as [f|]; [|by apply (balanced_keeps _ m (keeps_update_link lid halt))].
    unfold seq_bind at 1. set (m1 := (update_link lid (set_lastReadAt now) m).2).
    assert (balanced m1) as Hb1 by by apply (balanced_keeps _ m (keeps_update_link _ _)).
    change (update_link lid (set_lastReadAt now) m) with (tt, m1). cbn iota.
    unfold seq_bind at 1.
    assert (exists m2, (match f with MRegisterResult r => update_link lid (set_healthy (rr_accepted r))
      | _ => pure tt end) m1 = (tt, m2) /\ balanced m2) as (m2 & -> & Hb2).
    { destruct f; eexists; (split; [reflexivity|]); done. }
    cbn iota. unfold seq_bind, reads. cbn iota. destruct f as [r|r|d|a b|a b|]; simpl.
    + destruct (rr_accepted r); done.
    + unfold HandleResult, seq_bind, reads.
      pose proof (complete_balanced (cr_request_id r) (fun _ => r) m2 ltac:(done) Hb2) as Hc.
      destruct (complete _ _ m2) as [b m3]. simpl in Hc. destruct (links m3 !! _); [|done].
      apply (balanced_keeps _ m3 (keeps_DecrementInflight _) Hc).
    + apply balanced_keeps; [apply keeps_HandleDelivery|done].
    + done.
    + unfold seq_bind, reads. destruct (links m2 !! _); [|done].
      apply balanced_keeps; [apply keeps_Drain|done].
    + done.
  - by apply (balanced_keeps _ m (keeps_update_link _ _)).
  - by apply (balanced_keeps _ m (keeps_update_link _ _)).
  - unfold OnLinkDone. destruct (stopping m); [done|]. destruct (links m !! node); [|done].
    destruct (decide _); [|done]. simpl. by destruct (configuredNodes m !! node).
  - unfold ExpirePending, seq_bind.
    pose proof (complete_balanced id (fun p => error_result (pn_command p) id DeadlineExceeded
      "message command deadline exceeded") m ltac:(done) Hb) as Hc. by destruct (complete _ _ m).
  - apply balanced_keeps; [apply keeps_Reconnect|done].
  - apply balanced_keeps; [apply keeps_ApplyTopology|done].
  - apply balanced_keeps; [apply keeps_watch|done].
  - by apply balanced_stop.
Qed.

Lemma run_balanced es m : balanced m -> balanced (manager_run es m).
Proof.
  revert m. induction es as [|e es IH]; intros m Hb; [done|]. by apply IH, step_balanced.
Qed.

Lemma new_manager_balanced : balanced new_manager.
Proof. split; [done|]. intros id p. unfold new_manager. simpl. by rewrite lookup_empty. Qed.

(** C7: every command the gateway forwards is answered exactly once.  In any
    interleaving of the gateway's operations, down to their lock sections, the
    callbacks accepted by [Forward] are, each as often as it was accepted, those
    that have run and those still pending: none is lost and none runs twice;
    each ran with a result for its own request id; and shutdown answers all that
    are pending. *)
Theorem forwarded_answered_once es :
  let m := manager_run es new_manager in
  accepted m ≡ₚ (answered <$> called m) ++ (waiting <$> map_to_list (pending m)) /\
  (stopping m = false -> accepted (StopManager m).2 ≡ₚ answered <$> called (StopManager m).2).
Proof.
  cbv zeta. pose proof (run_balanced es _ new_manager_balanced) as Hb. set (m := manager_run _ _) in *.
  split; [apply Hb|]. intros Hs. pose proof (balanced_stop m Hb) as [Hb2 _]. rewrite Hb2.
  unfold StopManager. rewrite Hs. destruct (for_each _ _ _) as [[] m1]. simpl.
  by rewrite map_to_list_empty, app_nil_r.
Qed.
End Balance.

(** ** At most one retry *)

(** The callbacks of the threads about to insert, to send and to send again. *)
Definition inserting (t : thread) : option nat :=
  match t with TInsert _ _ cb => Some cb | _ => None end.
Definition sending (t : thread) : option nat :=
  match t with TSend _ _ cb => Some cb | _ => None end.
Definition resending (t : thread) : option nat :=
  match t with TRetrySend _ p _ _ => Some (pn_callback p) | _ => None end.

(** The callbacks of the commands sent for the first time, and again. *)
Definition sent_first (e : nat * CommandEnvelope * bool) : option nat :=
  if e.2 then None else Some e.1.1.
Definition sent_again (e : nat * CommandEnvelope * bool) : option nat :=
  if e.2 then Some e.1.1 else None.

Definition may_retry (c : CommandEnvelope) : Prop :=
  CanRetryOnAnotherMessageNode (ce_service_id c) = true.

(** [cs]: the callbacks still to be forwarded. *)
Record retry_ok (cs : list nat) (pend : gmap string PendingCommand) (acc : list (nat * string))
    (snt : list (nat * CommandEnvelope * bool)) (ts : list thread) : Prop := {
  ro_fresh : NoDup (cs ++ omap inserting ts ++ acc.*1);
  ro_first : NoDup (omap sent_first snt ++ omap sending ts);
  ro_first_acc : forall cb, cb ∈ omap sent_first snt ++ omap sending ts -> cb ∈ acc.*1;
  ro_again : NoDup (omap sent_again snt ++ omap resending ts);
  ro_claimed : forall cb, cb ∈ omap sent_again snt ++ omap resending ts -> cb ∈ acc.*1 /\
    forall id p, pend !! id = Some p -> pn_callback p = cb -> 1 <= pn_attempts p;
  ro_allowed : forall e, e ∈ snt -> e.2 = true -> may_retry e.1.2;
  ro_threads : forall n p id l, TRetrySend n p id l ∈ ts -> may_retry (pn_command p);
  ro_attempts : forall id p, pend !! id = Some p -> 0 <= pn_attempts p }.

Definition books_ok (cs : list nat) (m : manager) : Prop :=
  balanced m /\ retry_ok cs (pending m) (accepted m) (sent m) (threads m).

Section Retry.
Context `{StdHash} `{PacketCodec} `{IterationOrder} `{GatewayIdentity}.

Lemma retry_perm cs pend acc snt ts ts' :
  ts ≡ₚ ts' -> retry_ok cs pend acc snt ts -> retry_ok cs pend acc snt ts'.
Proof.
  intros Hp [A B C D E F G I]. split; try done.
  - by rewrite <- Hp.
  - by rewrite <- Hp.
  - intros cb. rewrite <- Hp. apply C.
  - by rewrite <- Hp.
  - intros cb. rewrite <- Hp. apply E.
  - intros n p id l. rewrite <- Hp. apply G.
Qed.

(** A thread that is none of the three kinds may come and go. *)
Lemma retry_idle cs pend acc snt t ts :
  inserting t = None -> sending t = None -> resending t = None ->
  retry_ok cs pend acc snt (t :: ts) <-> retry_ok cs pend acc snt ts.
Proof.
  intros E1 E2 E3. split; intros [A B C D E F G I]; simpl in *; rewrite ?E1, ?E2, ?E3 in *;
    (split; simpl; rewrite ?E1, ?E2, ?E3; try done).
  - intros n p id l Hin. apply (G n p id l). by right.
  - intros n p id l Hin. apply elem_of_cons in Hin as [<-|Hin]; [done|]. by apply (G n p id l).
Qed.

(** Commands may leave the pending table, or change what is not counted. *)
Lemma retry_pending cs pend pend' acc snt ts :
  (forall id p, pend' !! id = Some p -> exists p', pend !! id = Some p' /\
     pn_callback p = pn_callback p' /\ pn_attempts p = pn_attempts p') ->
  retry_ok cs pend acc snt ts -> retry_ok cs pend' acc snt ts.
Proof.
  intros Hp [A B C D E F G I]. split; try done.
  - intros cb Hin. destruct (E cb Hin) as [Ha Hc]. split; [done|]. intros id p Hid Hcb.
    destruct (Hp id p Hid) as (p' & Hp' & E1 & E2). rewrite E2. apply (Hc id p'); congruence.
  - intros id p Hid. destruct (Hp id p Hid) as (p' & Hp' & _ & ->). by apply (I id p').
Qed.

(** Callbacks that turn out not to be forwarded are forgotten. *)
Lemma retry_drop cs cb pend acc snt ts : retry_ok (cb :: cs) pend acc snt ts -> retry_ok cs pend acc snt ts.
Proof. intros [A B C D E F G I]. split; try done. simpl in A. by apply NoDup_cons in A as [_ A]. Qed.

Lemma retry_insert_thread cs cb lid c pend acc snt ts :
  retry_ok (cb :: cs) pend acc snt ts -> retry_ok cs pend acc snt (TInsert lid c cb :: ts).
Proof.
  intros [A B C D E F G I]. split; try done; simpl.
  - by rewrite <- Permutation_middle.
  - intros n p id l Hin. apply elem_of_cons in Hin as [?|Hin]; [done|]. by apply (G n p id l).
Qed.

(** The moves of a command: from its forwarder to a link, and again. *)
Lemma retry_inserted cs cb lid c lid' id link pend acc snt ts :
  pend !! id = None ->
  retry_ok cs pend acc snt (TInsert lid c cb :: ts) ->
  retry_ok cs (<[id := mkPending c cb link 0]> pend) (acc ++ [(cb, id)]) snt (TSend lid' c cb :: ts).
Proof.
  intros Hid [A B C D E F G I]. simpl in *.
  assert (cb ∉ acc.*1) as Hcb.
  { apply NoDup_app in A as (_ & _ & A). apply NoDup_cons in A as [A _]. intros Hin. apply A.
    apply elem_of_app. by right. }
  split; simpl; try done.
  - change (NoDup (cs ++ omap inserting ts ++ (acc ++ [(cb, id)]).*1)).
    rewrite fmap_app, (app_assoc (omap inserting ts)).
    rewrite (Permutation_app_comm (omap inserting ts ++ acc.*1)). exact A.
  - rewrite <- Permutation_middle. apply NoDup_cons. split; [|done]. intros Hin. by apply Hcb, C.
  - intros x. rewrite <- Permutation_middle. intros Hin. rewrite fmap_app. apply elem_of_app.
    apply elem_of_cons in Hin as [->|Hin]; [right; by left|left; by apply C].
  - intros x Hin. destruct (E x Hin) as [Ha Hc]. split; [rewrite fmap_app; apply elem_of_app; by left|].
    intros id' p. destruct (decide (id = id')) as [<-|Hne].
    + rewrite lookup_insert_eq. intros [= <-]. simpl. intros ->. done.
    + rewrite lookup_insert_ne by done. apply Hc.
  - intros n p id' l Hin. apply elem_of_cons in Hin as [?|Hin]; [done|]. apply (G n p id' l). by right.
  - intros id' p. destruct (decide (id = id')) as [<-|Hne].
    + rewrite lookup_insert_eq. by intros [= <-].
    + rewrite lookup_insert_ne by done. apply I.
Qed.

Lemma retry_sent cs cb lid c pend acc snt ts (ok : bool) :
  retry_ok cs pend acc snt (TSend lid c cb :: ts) ->
  retry_ok cs pend acc (snt ++ (if ok then [(cb, c, false)] else [])) ts.
Proof.
  intros [A B C D E F G I]. simpl in *.
  assert (retry_ok cs pend acc snt ts) as Hno.
  { split; try done.
    - rewrite <- Permutation_middle in B. by apply NoDup_cons in B as [_ B].
    - intros x Hin. apply C. rewrite <- Permutation_middle. by right.
    - intros n p id l Hin. apply (G n p id l). by right. }
  destruct ok; [|by rewrite app_nil_r]. destruct Hno as [A' B' C' D' E' F' G' I'].
  split; try done; rewrite ?omap_app; simpl.
  - by rewrite <- app_assoc.
  - intros x. rewrite <- app_assoc. apply C.
  - by rewrite app_nil_r.
  - intros x. rewrite app_nil_r. apply E.
  - intros e Hin. apply elem_of_app in Hin as [Hin|Hin]; [by apply F|].
    apply list_elem_of_singleton in Hin as ->. done.
Qed.

Lemma retry_claimed cs node p id rest pend acc snt ts :
  pend !! id = Some p -> pn_attempts p < 1 -> may_retry (pn_command p) ->
  (pn_callback p) ∈ acc.*1 ->
  (forall id' p', pend !! id' = Some p' -> pn_callback p' = pn_callback p -> id' = id) ->
  retry_ok cs pend acc snt ts ->
  retry_ok cs (<[id := set_attempts (pn_attempts p + 1) p]> pend) acc snt
    (TRetrySend node (set_attempts (pn_attempts p + 1) p) id rest :: ts).
Proof.
  intros Hp Ha Hm Hacc Huniq [A B C D E F G I]. pose proof (I id p Hp) as Ha0.
  assert (pn_callback p ∉ omap sent_again snt ++ omap resending ts) as Hnew.
  { intros Hin. destruct (E _ Hin) as [_ Hc]. specialize (Hc id p Hp eq_refl). lia. }
  split; simpl; try done.
  - rewrite <- Permutation_middle. by apply NoDup_cons.
  - intros x. rewrite <- Permutation_middle. intros Hin. apply elem_of_cons in Hin as [->|Hin].
    + split; [done|]. intros id' p'. destruct (decide (id = id')) as [<-|Hne].
      * rewrite lookup_insert_eq. intros [= <-] _. simpl. lia.
      * rewrite lookup_insert_ne by done. intros Hp' Hcb. by destruct Hne, (Huniq id' p').
    + destruct (E x Hin) as [Hx Hc]. split; [done|]. intros id' p'.
      destruct (decide (id = id')) as [<-|Hne].
      * rewrite lookup_insert_eq. intros [= <-] _. simpl. lia.
      * rewrite lookup_insert_ne by done. apply Hc.
  - intros n q id' l Hin. apply elem_of_cons in Hin as [[= -> -> -> ->]|Hin]; [done|].
    by apply (G n q id' l).
  - intros id' p'. destruct (decide (id = id')) as [<-|Hne].
    + rewrite lookup_insert_eq. intros [= <-]. simpl. lia.
    + rewrite lookup_insert_ne by done. apply I.
Qed.

Lemma retry_resent cs node p id rest pend acc snt ts (ok : bool) :
  retry_ok cs pend acc snt (TRetrySend node p id rest :: ts) ->
  retry_ok cs pend acc (snt ++ (if ok then [(pn_callback p, pn_command p, true)] else [])) ts.
Proof.
  intros [A B C D E F G I]. simpl in *.
  assert (retry_ok cs pend acc snt ts) as Hno.
  { split; try done.
    - rewrite <- Permutation_middle in D. by apply NoDup_cons in D as [_ D].
    - intros x Hin. apply E. rewrite <- Permutation_middle. by right.
    - intros n q id' l Hin. apply (G n q id' l). by right. }
  destruct ok; [|by rewrite app_nil_r]. destruct Hno as [A' B' C' D' E' F' G' I'].
  split; try done; rewrite ?omap_app; simpl.
  - by rewrite app_nil_r.
  - intros x. rewrite app_nil_r. apply C'.
  - by rewrite <- app_assoc.
  - intros x. rewrite <- app_assoc. apply E.
  - intros e Hin. apply elem_of_app in Hin as [Hin|Hin]; [by apply F|].
    apply list_elem_of_singleton in Hin as ->. simpl. intros _. apply (G node p id rest). by left.
Qed.

(** In balanced books distinct callbacks are pending under distinct ids. *)
Lemma pending_accepted m id p : balanced m -> pending m !! id = Some p -> (pn_callback p, id) ∈ accepted m.
Proof.
  intros [Hb _] Hp. rewrite Hb. apply elem_of_app. right. apply list_elem_of_fmap.
  exists (id, p). split; [done|]. by apply elem_of_map_to_list.
Qed.

Lemma pending_unique m cs id p id' p' :
  books_ok cs m -> pending m !! id = Some p -> pending m !! id' = Some p' ->
  pn_callback p' = pn_callback p -> id' = id.
Proof.
  intros [Hb Hr] Hp Hp' Hcb. pose proof (ro_fresh _ _ _ _ _ Hr) as Hn.
  apply NoDup_app in Hn as (_ & _ & Hn). apply NoDup_app in Hn as (_ & _ & Hn).
  pose proof (pending_accepted m id p Hb Hp) as H1'. pose proof (pending_accepted m id' p' Hb Hp') as H2'.
  apply list_elem_of_lookup in H1' as [i Hi]. apply list_elem_of_lookup in H2' as [j Hj].
  assert (i = j) as ->; [|congruence].
  eapply (NoDup_lookup _ _ _ (pn_callback p) Hn).
  - by rewrite list_lookup_fmap, Hi.
  - rewrite list_lookup_fmap, Hj. simpl. by rewrite Hcb.
Qed.

(** One lock section of a thread, the others standing by. *)
Lemma thread_step_retry now t cs m ts :
  balanced m -> retry_ok cs (pending m) (accepted m) (sent m) (t :: ts) ->
  let '(next, m') := thread_step now t m in
  threads m' = threads m /\
  retry_ok cs (pending m') (accepted m') (sent m') (option_list next ++ ts).
Proof.
  intros Hb Hr. destruct t as [lid c cb|lid c cb|lid|id|node|node [|id rest]|node p id rest|node lid id rest|node];
    cbn [thread_step].
  - destruct (pending m !! ce_request_id c) eqn:Hp; simpl.
    + split; [done|]. destruct Hr as [A B C D E F G I]. split; try done.
      * simpl in A. rewrite <- Permutation_middle in A. by apply NoDup_cons in A as [_ A].
      * intros n q id l Hin. apply (G n q id l). by right.
    + split; [done|]. by apply (retry_inserted cs cb lid c).
  - unfold seq_bind. pose proof (send_command_books lid (mkPending c cb "" 0) false m) as Hs.
    destruct (send_command _ _ _ m) as [ok m1]. simpl. unfold books in Hs. injection Hs as E1 E2 _ E4 E5.
    rewrite E1, E2, E4, E5. split; [done|].
    pose proof (retry_sent cs cb lid c _ _ _ _ ok Hr) as Hr1. simpl. by destruct ok; apply retry_idle.
  - simpl. split; [done|]. by apply retry_idle in Hr.
  - unfold seq_bind, complete. apply retry_idle in Hr; [|done..].
    destruct (pending m !! id) as [p|] eqn:Hp; simpl; (split; [done|]); [|done].
    eapply retry_pending; [|exact Hr]. intros id' q Hq. apply lookup_delete_Some in Hq as [_ Hq]. eauto.
  - simpl. split; [done|]. apply retry_idle; [done..|]. by apply retry_idle in Hr.
  - simpl. split; [done|]. apply retry_idle; [done..|]. by apply retry_idle in Hr.
  - apply retry_idle in Hr; [|done..]. destruct (pending m !! id) as [p|] eqn:Hp; simpl.
    2: { split; [done|]. by apply retry_idle. }
    destruct (1 <=? pn_attempts p) eqn:Ea; simpl; [split; [done|]; by apply retry_idle|].
    destruct (CanRetryOnAnotherMessageNode _) eqn:Ec; simpl; [|split; [done|]; by apply retry_idle].
    boolp. split; [done|]. apply (retry_claimed cs node p id rest); try done.
    + apply list_elem_of_fmap. exists (pn_callback p, id). split; [done|]. by apply pending_accepted.
    + intros id' p' Hp' Hcb. by apply (pending_unique (with_threads ts m) cs id p id' p').
  - assert (retry_ok cs (pending m) (accepted m) (sent m) (TRetry node rest :: ts)) as Hskip.
    { apply retry_idle; [done..|]. pose proof (retry_resent cs node p id rest _ _ _ _ false Hr) as Hx.
      by rewrite app_nil_r in Hx. }
    destruct (_ && _); [by split|]. unfold seq_bind, reads. destruct (SelectLink _ _ m) as [lid|]; [|by split].
    pose proof (send_command_books lid p true m) as Hs. destruct (send_command _ _ _ m) as [ok m1].
    unfold books in Hs. injection Hs as E1 E2 _ E4 E5.
    destruct ok; simpl; rewrite E1, E2, E4, E5; (split; [done|]); apply retry_idle; try done.
    + exact (retry_resent cs node p id rest _ _ _ _ true Hr).
    + rewrite app_nil_r. by apply retry_idle in Hskip.
  - apply retry_idle in Hr; [|done..]. simpl.
    destruct (pending m !! id) as [p|] eqn:Hp; simpl; (split; [done|]); apply retry_idle; try done.
    eapply retry_pending; [|exact Hr]. intros id' q. destruct (decide (id = id')) as [<-|Hne].
    + rewrite lookup_insert_eq. intros [= <-]. exists p. by split.
    + rewrite lookup_insert_ne by done. eauto.
  - simpl. split; [done|]. by apply retry_idle in Hr.
Qed.

(** ** Whole runs *)

Definition event_callback (e : manager_event) : list nat :=
  match e with LForward _ _ cb => [cb] | _ => [] end.

Lemma books_ok_keeps {A} cs (op : Manager A) m : keeps_books op -> books_ok cs m -> books_ok cs (op m).2.
Proof.
  intros Hk [Hb Hr]. split; [by apply balanced_keeps|].
  specialize (Hk (books m) m eq_refl). unfold books in Hk. injection Hk as -> -> _ -> ->. done.
Qed.

Lemma books_ok_complete cs id f m :
  (forall p, ce_request_id (pn_command p) = id -> cr_request_id (f p) = id) ->
  books_ok cs m -> books_ok cs (complete id f m).2.
Proof.
  intros Hf [Hb Hr]. split; [by apply complete_balanced|]. unfold complete.
  destruct (pending m !! id); simpl; [|done]. eapply retry_pending; [|exact Hr].
  intros id' q Hq. apply lookup_delete_Some in Hq as [_ Hq]. eauto.
Qed.

Lemma books_ok_spawn cs t m :
  inserting t = None -> sending t = None -> resending t = None ->
  books_ok cs m -> books_ok cs (spawn t m).2.
Proof.
  intros E1 E2 E3 [Hb Hr]. split; [done|]. simpl. apply (retry_perm _ _ _ _ (t :: threads m)).
  - by rewrite <- Permutation_cons_append.
  - by apply retry_idle.
Qed.

Lemma step_retry e cs m : books_ok (event_callback e ++ cs) m -> books_ok cs (manager_step e m).2.
Proof.
  intros Hok. destruct e as [now c cb|now i|now lid h f|lid ok|lid|node lid|id|now node|now s|now sq|]; simpl in *.
  - assert (books_ok cs m) as Hdrop by (destruct Hok as [Hb Hr]; split; [done|]; by eapply retry_drop).
    unfold seq_bind, ForwardBegin. destruct (str_empty _); [done|]. destruct (_ <=? _); [done|].
    unfold seq_bind, reads. destruct (SelectLink _ _ m) as [lid|]; [|done]. destruct Hok as [Hb Hr].
    split; [done|]. simpl. apply (retry_perm _ _ _ _ (TInsert lid c cb :: threads m)).
    + by rewrite <- Permutation_cons_append.
    + by apply retry_insert_thread.
  - destruct (threads m !! i) as [t|] eqn:Ht; [|done]. destruct Hok as [Hb Hr].
    set (rest := take i (threads m) ++ drop (S i) (threads m)).
    assert (threads m ≡ₚ t :: rest) as Hp.
    { rewrite <- (take_drop_middle _ _ _ Ht) at 1. by rewrite <- Permutation_middle. }
    pose proof (thread_step_retry now t cs m rest Hb (retry_perm _ _ _ _ _ _ Hp Hr)) as Hs.
    pose proof (thread_step_balanced now t m Hb) as Hb1.
    destruct (thread_step now t m) as [next m1]. destruct Hs as [E5 Hs]. simpl. split; [done|]. simpl.
    rewrite E5. eapply retry_perm; [|exact Hs]. unfold rest. rewrite !app_assoc.
    apply Permutation_app_tail, Permutation_app_comm.
  - unfold OnReadDone. destruct f as [f|]; [|by apply (books_ok_keeps _ _ m (keeps_update_link lid halt))].
    unfold seq_bind at 1. set (m1 := (update_link lid (set_lastReadAt now) m).2).
    assert (books_ok cs m1) as Hb1 by by apply (books_ok_keeps _ _ m (keeps_update_link _ _)).
    change (update_link lid (set_lastReadAt now) m) with (tt, m1). cbn iota.
    unfold seq_bind at 1.
    assert (exists m2, (match f with MRegisterResult r => update_link lid (set_healthy (rr_accepted r))
      | _ => pure tt end) m1 = (tt, m2) /\ books_ok cs m2) as (m2 & -> & Hb2).
    { destruct f; eexists; (split; [reflexivity|]); done. }
    cbn iota. unfold seq_bind, reads. cbn iota. destruct f as [r|r|d|a b|a b|]; simpl.
    + destruct (rr_accepted r); done.
    + unfold HandleResult, seq_bind, reads.
      pose proof (books_ok_complete cs (cr_request_id r) (fun _ => r) m2 ltac:(done) Hb2) as Hc.
      destruct (complete _ _ m2) as [b m3]. simpl in Hc. destruct (links m3 !! _); [|done].
      apply (books_ok_keeps _ _ m3 (keeps_DecrementInflight _) Hc).
    + apply books_ok_keeps; [apply keeps_HandleDelivery|done].
    + done.
    + unfold seq_bind, reads. destruct (links m2 !! _); [|done].
      apply books_ok_keeps; [apply keeps_Drain|done].
    + done.
  - by apply (books_ok_keeps _ _ m (keeps_update_link _ _)).
  - by apply (books_ok_keeps _ _ m (keeps_update_link _ _)).
  - unfold OnLinkDone. destruct (stopping m); [done|]. destruct (links m !! node); [|done].
    destruct (decide _); [|done]. simpl. destruct (configuredNodes m !! node); [|done].
    by apply books_ok_spawn.
  - unfold ExpirePending, seq_bind.
    pose proof (books_ok_complete cs id (fun p => error_result (pn_command p) id DeadlineExceeded
      "message command deadline exceeded") m ltac:(done) Hok) as Hc. by destruct (complete _ _ m).
  - apply books_ok_keeps; [apply keeps_Reconnect|done].
  - apply books_ok_keeps; [apply keeps_ApplyTopology|done].
  - apply books_ok_keeps; [apply keeps_watch|done].
  - split; [apply balanced_stop; apply Hok|]. unfold StopManager. destruct (stopping m); [apply Hok|].
    assert (keeps_books (for_each (snd <$> iter (links (with_stopping true m))) StopLink)) as Hk by books.
    pose proof (books_ok_keeps cs _ (with_stopping true m) Hk Hok) as [_ Hr]. clear Hk.
    destruct (for_each _ _ _) as [[] m1]. simpl in *. eapply retry_pending; [|exact Hr].
    intros id q. by rewrite lookup_empty.
Qed.

Lemma run_retry es m : books_ok (es ≫= event_callback) m -> books_ok [] (manager_run es m).
Proof.
  revert m. induction es as [|e es IH]; intros m Hok; [done|]. apply IH. by apply step_retry.
Qed.

(** C33: a command is sent once and retried at most once.  In any interleaving,
    if every call of [Forward] brings its own callback: no command is handed to
    the links for the first time twice, none is handed to them again more than
    once, only commands of services that may run twice are handed again, and
    all of them were accepted. *)
Theorem command_retried_at_most_once es :
  NoDup (es ≫= event_callback) ->
  let m := manager_run es new_manager in
  NoDup (omap sent_first (sent m)) /\ NoDup (omap sent_again (sent m)) /\
  (forall cb c, (cb, c, true) ∈ sent m -> may_retry c) /\
  (forall e, e ∈ sent m -> e.1.1 ∈ (accepted m).*1).
Proof.
  intros Hn. assert (books_ok (es ≫= event_callback) new_manager) as H0'.
  { split; [apply new_manager_balanced|]. split; simpl; try (by constructor); try done.
    1: by rewrite app_nil_r.
    all: intros; try match goal with Hin : _ ∈ [] |- _ => by apply elem_of_nil in Hin end. }
  destruct (run_retry es _ H0') as [_ [A B C D E F G I]]. cbv zeta.
  set (m := manager_run es new_manager) in *.
  split; [by apply NoDup_app in B as [B _]|]. split; [by apply NoDup_app in D as [D _]|]. split.
  - intros cb c Hin. by apply (F (cb, c, true)).
  - intros [[cb c] again] Hin. simpl. destruct again.
    + apply E. apply elem_of_app. left. apply list_elem_of_omap. exists (cb, c, true). done.
    + apply C. apply elem_of_app. left. apply list_elem_of_omap. exists (cb, c, false). done.
Qed.
End Retry.

(** ** Two message nodes, the first of which breaks *)

Module TwoNodes.
Definition map_order : IterationOrder :=
  {| iter := fun A m => map_to_list m; iter_perm := fun A m => reflexivity (map_to_list m) |}.
Definition hash : StdHash :=
  fun s => foldl (fun h c => (31 * h + Z.of_N (N_of_ascii c)) mod 2 ^ 64) 7 (String.list_ascii_of_string s).
Definition identity : GatewayIdentity := {| gateway_id := "g1"; instance_id := "i1" |}.
#[local] Existing Instances map_order hash identity bits_codec.

Definition nodes : TopologySnapshot :=
  mkTopology 1 true [mkMessageNode "m1" "10.0.0.1" 9001; mkMessageNode "m2" "10.0.0.2" 9001].
Definition up (lid : nat) : manager_event :=
  LRead 1000 lid None (Some (MRegisterResult (mkRegisterResult true "" 1 ""))).
Definition command (id : string) : CommandEnvelope :=
  mkCommandEnvelope id 7 "c" 1 (sid ID_TEXT_SEND_REQ) 0 5000 "".

(** The command goes to the first link, which breaks, and then to the second,
    which answers. *)
Definition story : list manager_event :=
  [LTopology 0 nodes; up 0; up 1; LForward 2000 (command "r") 3; LThread 2000 0; LThread 2000 0; LThread 2000 0;
   LRead 2100 0 None None; LLinkDone "m1" 0; LThread 2100 0; LThread 2100 0; LThread 2100 0;
   LThread 2100 0; LThread 2100 0; LThread 2100 0;
   LRead 2200 1 None (Some (MCommandResult (mkCommandResult "r" 0 0 false "")))].

Lemma command_retried_at_most_once_witness :
  let m := manager_run story new_manager in
  sent m = [(3%nat, command "r", false); (3%nat, command "r", true)] /\
  called m = [(3%nat, mkCommandResult "r" 0 0 false "")] /\
  NoDup (omap sent_first (sent m)) /\ NoDup (omap sent_again (sent m)) /\
  (forall cb c, (cb, c, true) ∈ sent m -> may_retry c) /\
  (forall e, e ∈ sent m -> e.1.1 ∈ (accepted m).*1).
Proof.
  split; [by vm_compute|]. split; [by vm_compute|].
  apply (command_retried_at_most_once (H1 := map_order) story). simpl. repeat constructor. by intros ?%elem_of_nil.
Defined.
End TwoNodes.
