(* ===== verification/Routing.v ===== *)
(** * Links, routes and topology

    Which link a command takes, what a change of topology leaves, and what
    happens to the commands of a link that is taken away. *)

From S2P Require Import Prelude Const Packet Store Pools Transport Links Forwarding.

(** ** The best of a list *)

Lemma best_of_spec f (l : list nat) :
  match best_of f l with
  | None => l = []
  | Some x => x ∈ l /\ forall y, y ∈ l -> f y <= f x
  end.
Proof.
  unfold best_of.
  assert (forall s, match foldl (fun selected x => match selected with
             | None => Some x | Some y => if f x >? f y then Some x else Some y end) s l with
    | None => s = None /\ l = []
    | Some x => (s = Some x \/ x ∈ l) /\ (forall y, s = Some y -> f y <= f x) /\ (forall y, y ∈ l -> f y <= f x)
    end) as Hgen.
  { induction l as [|a l IH]; intros s; simpl.
    - destruct s as [x|]; [|done]. split; [by left|]. split; [intros y [= ->]; lia|].
      intros y Hy. by apply elem_of_nil in Hy.
    - specialize (IH (match s with None => Some a | Some y => if f a >? f y then Some a else Some y end)).
      destruct (foldl _ _ l) as [x|].
      + destruct IH as (Hin & Hs & Hl). split; [|split].
        * destruct Hin as [Hin|Hin]; [|right; by right].
          destruct s as [y|]; [|injection Hin as ->; right; left].
          destruct (f a >? f y); injection Hin as ->; [right; left|by left].
        * intros y ->. destruct (f a >? f y) eqn:E; [|by apply Hs].
          rewrite Z.gtb_lt in E. specialize (Hs a eq_refl). lia.
        * intros y Hy. apply elem_of_cons in Hy as [->|Hy]; [|by apply Hl].
          destruct s as [z|]; [|by apply Hs]. destruct (f a >? f z) eqn:E; [by apply Hs|].
          rewrite Z.gtb_ltb, Z.ltb_ge in E. specialize (Hs z eq_refl). lia.
      + destruct IH as [IH _]. destruct s as [y|]; [by destruct (f a >? f y)|done]. }
  specialize (Hgen None). destruct (foldl _ _ l) as [x|]; [|by destruct Hgen].
  destruct Hgen as ([?|Hin] & _ & Hl); [done|]. by split.
Qed.

Section Select.
Context `{StdHash} `{PacketCodec} `{IterationOrder} `{GatewayIdentity}.

Lemma elem_of_iter {A} (m : gmap string A) k a : (k, a) ∈ iter m <-> m !! k = Some a.
Proof. by rewrite iter_perm, elem_of_map_to_list. Qed.

(** A link a command may take. *)
Definition usable (m : manager) (excluded node : string) (lid : nat) : Prop :=
  links m !! node = Some lid /\ node <> excluded /\
  exists l, objects m !! lid = Some l /\ lk_healthy l = true.

Lemma elem_of_healthy m excluded node lid :
  (node, lid) ∈ healthy_links excluded m <-> usable m excluded node lid.
Proof.
  unfold healthy_links, usable.
  rewrite list_elem_of_In, List.filter_In, <- list_elem_of_In, elem_of_iter. simpl. split.
  - intros [Hl Hb]. boolp. destruct (objects m !! lid) as [l|]; [|done]. eauto.
  - intros (Hl & Hne & l & -> & Hh). split; [done|]. rewrite Hh, andb_true_r.
    by rewrite bool_decide_false.
Qed.

Lemma SelectLink_cases c excluded m :
  match SelectLink c excluded m with
  | None => forall node lid, ~ usable m excluded node lid
  | Some lid => (exists node, usable m excluded node lid) /\
      (0 < c -> forall node' lid', usable m excluded node' lid' ->
         score c (link_id m lid') <= score c (link_id m lid)) /\
      (c <= 0 -> forall node' lid', usable m excluded node' lid' ->
         link_inflight m lid <= link_inflight m lid')
  end.
Proof.
  assert (forall lid, lid ∈ snd <$> healthy_links excluded m <-> exists node, usable m excluded node lid) as Hin.
  { intros lid. rewrite list_elem_of_fmap. split.
    - intros ([node l] & -> & Hh). exists node. by apply elem_of_healthy.
    - intros [node Hu]. exists (node, lid). split; [done|]. by apply elem_of_healthy. }
  unfold SelectLink. destruct (0 <? c) eqn:Ec; boolp.
  - pose proof (best_of_spec (fun lid => score c (link_id m lid)) (snd <$> healthy_links excluded m)) as Hb.
    destruct (best_of _ _) as [lid|].
    + destruct Hb as [Hl Hb]. split; [by apply Hin|]. split; [|lia].
      intros _ node' lid' Hu. apply Hb, Hin. by exists node'.
    + intros node lid Hu. assert (lid ∈ snd <$> healthy_links excluded m) as Hx by (apply Hin; by exists node).
      rewrite Hb in Hx. by apply elem_of_nil in Hx.
  - pose proof (best_of_spec (fun lid => - link_inflight m lid) (snd <$> healthy_links excluded m)) as Hb.
    destruct (best_of _ _) as [lid|].
    + destruct Hb as [Hl Hb]. split; [by apply Hin|]. split; [lia|].
      intros _ node' lid' Hu. specialize (Hb lid'). rewrite Hin in Hb. specialize (Hb (ex_intro _ node' Hu)). lia.
    + intros node lid Hu. assert (lid ∈ snd <$> healthy_links excluded m) as Hx by (apply Hin; by exists node).
      rewrite Hb in Hx. by apply elem_of_nil in Hx.
Qed.

(** A command takes a usable link, and the right one.  The choice is a
    registered, healthy link of a node that is not excluded, and there is one
    unless no such link exists; with a conversation it has the highest hash of
    conversation and node, without one the fewest commands in flight. *)
Theorem select_link_best c excluded m :
  match SelectLink c excluded m with
  | None => forall node lid, ~ usable m excluded node lid
  | Some lid => (exists node, usable m excluded node lid) /\
      (0 < c -> forall node' lid', usable m excluded node' lid' ->
         score c (link_id m lid') <= score c (link_id m lid)) /\
      (c <= 0 -> forall node' lid', usable m excluded node' lid' ->
         link_inflight m lid <= link_inflight m lid')
  end.
Proof. apply SelectLink_cases. Qed.

(** A conversation keeps its link while that link is usable.  Whatever
    other nodes break, leave or are restarted between two commands of one
    conversation: if no two usable nodes have the same hash for it, the second
    command takes the same link as the first as long as the usable links are
    among those of the first and include the one chosen.  So losing a node moves
    only the conversations it served. *)
Theorem conversation_keeps_link c excluded excluded' m m' lid :
  0 < c -> SelectLink c excluded m = Some lid ->
  (exists node, usable m' excluded' node lid) -> link_id m' lid = link_id m lid ->
  (forall node' lid', usable m' excluded' node' lid' ->
     (exists node, usable m excluded node lid') /\ link_id m' lid' = link_id m lid') ->
  (forall n1 l1 n2 l2, usable m excluded n1 l1 -> usable m excluded n2 l2 ->
     score c (link_id m l1) = score c (link_id m l2) -> l1 = l2) ->
  SelectLink c excluded' m' = Some lid.
Proof.
  intros Hc Hs [n Hu] Hid Hsub Hinj. pose proof (SelectLink_cases c excluded m) as H1'. rewrite Hs in H1'.
  destruct H1' as ([n1 Hu1] & Hbest & _). pose proof (SelectLink_cases c excluded' m') as H2'.
  destruct (SelectLink c excluded' m') as [lid'|]; [|by destruct (H2' n lid)].
  destruct H2' as ([n2 Hu2] & Hbest' & _). f_equal.
  destruct (Hsub n2 lid' Hu2) as [[n3 Hu3] Hid']. apply (Hinj n3 lid' n1 lid Hu3 Hu1).
  specialize (Hbest Hc n3 lid' Hu3). specialize (Hbest' Hc n lid Hu). rewrite Hid, Hid' in Hbest'. lia.
Qed.
End Select.

(** ** The table of links *)

Section Topology.
Context `{StdHash} `{PacketCodec} `{IterationOrder} `{GatewayIdentity}.

(** Every entry is a link to its node; numbers are not reused. *)
Definition table_ok (m : manager) : Prop :=
  (forall node lid, links m !! node = Some lid ->
     exists l, objects m !! lid = Some l /\ mn_id (lk_node l) = node) /\
  (forall lid l, objects m !! lid = Some l -> (lid < next_link m)%nat).

Lemma table_update lid f m :
  (forall l, lk_node (f l) = lk_node l) -> table_ok m -> table_ok (update_link lid f m).2.
Proof.
  intros Hf [Ha Hb]. split; simpl.
  - intros node lid' Hl. destruct (Ha node lid' Hl) as (l & Hl' & Hn).
    destruct (decide (lid = lid')) as [<-|Hne].
    + exists (f l). rewrite lookup_alter_eq, Hl', Hf. done.
    + exists l. by rewrite lookup_alter_ne.
  - intros lid' l. destruct (decide (lid = lid')) as [<-|Hne].
    + rewrite lookup_alter_eq. destruct (objects m !! lid) as [l'|] eqn:E; [|done]. intros _. by apply (Hb lid l').
    + rewrite lookup_alter_ne by done. apply Hb.
Qed.

Lemma link_enqueue_alter lid frame m :
  (link_enqueue lid frame m).2 =
    with_objects (alter (fun l => set_link_writer (Enqueue frame (lk_writer l)).2 l) lid (objects m)) m \/
  objects m !! lid = None /\ (link_enqueue lid frame m).2 = m.
Proof.
  unfold link_enqueue. destruct (objects m !! lid) as [l|] eqn:E; [left|by right].
  destruct (Enqueue frame (lk_writer l)) as [ok w] eqn:Ew. simpl. f_equal. apply map_eq. intros k.
  destruct (decide (lid = k)) as [<-|Hne].
  - rewrite lookup_insert_eq, lookup_alter_eq, E. simpl. by rewrite Ew.
  - by rewrite lookup_insert_ne, lookup_alter_ne.
Qed.

Lemma table_enqueue lid frame m : table_ok m -> table_ok (link_enqueue lid frame m).2.
Proof.
  intros Hok. destruct (link_enqueue_alter lid frame m) as [->|[_ ->]]; [|done].
  by apply (table_update lid (fun l => set_link_writer (Enqueue frame (lk_writer l)).2 l) m).
Qed.

Lemma table_link_enqueue lid frame : always table_ok (link_enqueue lid frame).
Proof. intros m. apply table_enqueue. Qed.

Lemma table_stop lid m : table_ok m -> table_ok (StopLink lid m).2.
Proof. apply table_update. intros l. by destruct (w_stopped _). Qed.

(** Fewer entries are fine. *)
Lemma table_fewer m m' :
  (forall node lid, links m' !! node = Some lid -> links m !! node = Some lid) ->
  objects m' = objects m -> next_link m' = next_link m -> table_ok m -> table_ok m'.
Proof.
  intros Hl Ho Hn [Ha Hb]. split.
  - intros node lid Hx. rewrite Ho. by apply Ha, Hl.
  - intros lid l. rewrite Ho, Hn. apply Hb.
Qed.

(** [StartLink] in full: a fresh link replaces the one in the table. *)
Definition replace_old (node : MessageNode) (m : manager) : manager :=
  match links m !! mn_id node with
  | Some old => (StopLink old m).2
  | None => m
  end.

Lemma StartLink_effect now node m :
  exists l, lk_node l = node /\ lk_healthy l = false /\
  let m' := (StartLink now node m).2 in
  configuredNodes m' = configuredNodes m /\ next_link m' = S (next_link m) /\
  links m' = <[mn_id node := next_link m]> (links m) /\
  objects m' = <[next_link m := l]> (objects (replace_old node m)).
Proof.
  unfold StartLink. fold (replace_old node m).
  assert (links (replace_old node m) = links m /\ configuredNodes (replace_old node m) = configuredNodes m)
    as [L1 C1] by (unfold replace_old; by destruct (links m !! mn_id node)).
  unfold link_enqueue. simpl. rewrite lookup_insert_eq.
  destruct (Enqueue _ _) as [ok w]. simpl. rewrite L1, C1.
  eexists. split; [|split; [|split; [done|split; [done|split; [done|]]]]].
  3: by rewrite insert_insert_eq.
  all: done.
Qed.

Lemma table_StartLink now node m : table_ok m -> table_ok (StartLink now node m).2.
Proof.
  intros Hok. destruct (StartLink_effect now node m) as (l & Hn & _ & _ & EN & EL & EO).
  assert (table_ok (replace_old node m)) as [Ha Hb].
  { unfold replace_old. destruct (links m !! mn_id node); [by apply table_stop|done]. }
  assert (links (replace_old node m) = links m /\ next_link (replace_old node m) = next_link m)
    as [L1 N1] by (unfold replace_old; by destruct (links m !! mn_id node)).
  split; rewrite ?EL, ?EN, ?EO.
  - intros n lid. destruct (decide (mn_id node = n)) as [<-|Hne].
    + rewrite lookup_insert_eq. intros [= <-]. exists l. by rewrite lookup_insert_eq, Hn.
    + rewrite lookup_insert_ne by done. intros Hl. rewrite <- L1 in Hl.
      destruct (Ha n lid Hl) as (l' & Ho & Hi). exists l'. rewrite lookup_insert_ne; [done|].
      specialize (Hb lid l' Ho). lia.
  - intros lid l'. destruct (decide (next_link m = lid)) as [<-|Hne].
    + intros _. lia.
    + rewrite lookup_insert_ne by done. intros Hl. specialize (Hb lid l' Hl). lia.
Qed.

(** ** The table is kept by every operation *)

Lemma always_update_link lid f : (forall l, lk_node (f l) = lk_node l) -> always table_ok (update_link lid f).
Proof. intros Hf m. by apply table_update. Qed.
Lemma always_StopLink lid : always table_ok (StopLink lid).
Proof. intros m. apply table_stop. Qed.
Lemma always_StartLink now node : always table_ok (StartLink now node).
Proof. intros m. apply table_StartLink. Qed.

(** Operations on the books leave the table. *)
Lemma table_writes f :
  (forall m, links (f m) = links m /\ objects (f m) = objects m /\ next_link (f m) = next_link m) ->
  always table_ok (writes f).
Proof.
  intros Hf. apply always_writes. intros m Hok. destruct (Hf m) as (E1 & E2 & E3).
  apply (table_fewer m); try done. by rewrite E1.
Qed.

Lemma table_complete id f : always table_ok (complete id f).
Proof. intros m Hok. unfold complete. by destruct (pending m !! id). Qed.
Hint Resolve always_update_link always_StopLink always_StartLink table_complete table_link_enqueue : table.

Ltac table :=
  repeat match goal with
  | |- always table_ok (seq_bind _ _) => apply always_bind; [|intros ?]
  | |- always table_ok (for_each _ _) => apply always_for_each; intros ? _
  | |- always table_ok (writes _) => apply table_writes; intros ?; done
  | |- always table_ok (pure _) => apply always_pure
  | |- always table_ok (reads _) => apply always_reads
  | |- always table_ok (update_link _ _) => apply always_update_link; intros ?; try done; try by case_match
  | |- always table_ok _ => solve [auto with table]
  | |- always table_ok _ => case_match
  end.

Lemma table_thread now t : always table_ok (thread_step now t).
Proof.
  destruct t as [lid c cb|lid c cb|lid|id|node|node [|id rest]|node p id rest|node lid id rest|node];
    cbn [thread_step]; unfold send_command, IncrementInflight; table;
    intros m Hok; simpl; try done; repeat case_match; done.
Qed.

Lemma table_remove_outdated s m : table_ok m -> table_ok (remove_outdated s m).2.
Proof.
  apply table_fewer; [|done..]. intros node lid. simpl. set (gone := List.filter _ _). clearbody gone.
  revert node lid. generalize (links m). induction gone as [|kv gone IH]; intros t node lid; simpl; [done|].
  intros Hl. apply IH in Hl. by apply lookup_delete_Some in Hl as [_ Hl].
Qed.

Lemma table_ApplyTopology now s : always table_ok (ApplyTopology now s).
Proof.
  unfold ApplyTopology. table.
  - intros m. apply table_remove_outdated.
  - intros m Hok. destruct (links m !! _); [done|]. by apply always_StartLink.
Qed.

Lemma table_OnFrame node h f : always table_ok (OnFrame node h f).
Proof.
  destruct f; simpl; unfold HandleResult, HandleDelivery, Drain, DecrementInflight; table.
Qed.

Lemma table_step e : always table_ok (manager_step e).
Proof.
  destruct e as [now c cb|now i|now lid h f|lid ok|lid|node lid|id|now node|now s|now sq|]; simpl.
  - unfold ForwardBegin, spawn. table.
  - intros m Hok. destruct (threads m !! i) as [t|]; [|done].
    pose proof (table_thread now t m Hok) as Ht. by destruct (thread_step now t m).
  - unfold OnReadDone. table. apply table_OnFrame.
  - unfold OnWriteCompleted. apply always_update_link. intros l. destruct (w_inFlight _); [by destruct ok|done].
  - unfold OnDone. table.
  - intros m Hok. unfold OnLinkDone. destruct (stopping m); [done|]. destruct (links m !! node); [|done].
    destruct (decide _); [|done]. assert (table_ok (with_links (delete node (links m)) m)) as Hd.
    { apply (table_fewer m); try done. intros k x Hk. simpl in Hk. by apply lookup_delete_Some in Hk as [_ Hk]. }
    simpl. by destruct (configuredNodes m !! node).
  - unfold ExpirePending. table.
  - intros m Hok. unfold Reconnect. destruct (stopping m); [done|]. destruct (configuredNodes m !! _); [|done].
    destruct (_ || _); [done|]. by apply always_StartLink.
  - apply table_ApplyTopology.
  - unfold watch_links, Heartbeat. table.
  - intros m Hok. unfold StopManager. destruct (stopping m); [done|].
    assert (always table_ok (for_each (snd <$> iter (links (with_stopping true m))) StopLink)) as Hs by table.
    specialize (Hs (with_stopping true m) Hok). by destruct (for_each _ _ _).
Qed.

Lemma table_run es m : table_ok m -> table_ok (manager_run es m).
Proof. revert m. induction es as [|e es IH]; intros m Hok; [done|]. by apply IH, table_step. Qed.

Lemma new_table : table_ok new_manager.
Proof. split; intros ? ?; unfold new_manager; simpl; by rewrite lookup_empty. Qed.

(** ** What a topology leaves *)

Lemma delete_fold (gone : list (string * nat)) (t : gmap string nat) node lid :
  foldl (fun t kv => delete kv.1 t) t gone !! node = Some lid <->
  t !! node = Some lid /\ node ∉ gone.*1.
Proof.
  revert t. induction gone as [|kv gone IH]; intros t; simpl.
  - split; [|by intros [? _]]. intros Ht. split; [done|]. apply not_elem_of_nil.
  - rewrite IH, lookup_delete_Some, not_elem_of_cons. intuition congruence.
Qed.

Lemma remove_outdated_effect s m :
  let '(removed, m') := remove_outdated s m in
  (forall lid, lid ∈ removed <-> exists node, links m !! node = Some lid /\
     outdated (desired s) (configuredNodes m) node = true) /\
  (forall node lid, links m' !! node = Some lid <-> links m !! node = Some lid /\
     outdated (desired s) (configuredNodes m) node = false) /\
  configuredNodes m' = desired s /\ objects m' = objects m /\ next_link m' = next_link m.
Proof.
  unfold remove_outdated.
  set (out := fun kv : string * nat => outdated (desired s) (configuredNodes m) kv.1).
  assert (forall kv, kv ∈ List.filter out (iter (links m)) <->
    links m !! kv.1 = Some kv.2 /\ outdated (desired s) (configuredNodes m) kv.1 = true) as Hin.
  { intros [n lid]. by rewrite list_elem_of_In, List.filter_In, <- list_elem_of_In, elem_of_iter. }
  fold out. split; [|split; [|done]].
  - intros lid. rewrite list_elem_of_fmap. split.
    + intros ([n l] & -> & Hkv). exists n. by apply Hin in Hkv.
    + intros [n Hn]. exists (n, lid). split; [done|]. by apply Hin.
  - intros node lid. simpl. rewrite delete_fold. split; intros [Hl Hx]; (split; [done|]).
    + destruct (outdated _ _ node) eqn:Eo; [|done]. destruct Hx. apply list_elem_of_fmap.
      exists (node, lid). split; [done|]. by apply Hin.
    + intros Hg. apply list_elem_of_fmap in Hg as ([n l] & -> & Hkv). apply Hin in Hkv as [_ Hkv].
      simpl in *. congruence.
Qed.

(** A link that takes no more frames. *)
Definition stopped_link (l : link) : Prop := w_stopped (lk_writer l) = true.

Lemma stops_effect lids m :
  let m' := (for_each lids StopLink m).2 in
  links m' = links m /\ configuredNodes m' = configuredNodes m /\ next_link m' = next_link m /\
  (forall lid, lid ∉ lids -> objects m' !! lid = objects m !! lid) /\
  (forall lid l, lid ∈ lids -> objects m' !! lid = Some l -> stopped_link l) /\
  (forall lid, is_Some (objects m !! lid) -> is_Some (objects m' !! lid)).
Proof.
  revert m. induction lids as [|x lids IH]; intros m.
  - do 4 (split; [done|]). split; [|done]. intros lid l Hin. by apply elem_of_nil in Hin.
  - cbn [for_each]. unfold seq_bind. destruct (StopLink x m) as [u m1] eqn:E1.
    unfold StopLink, update_link, writes in E1. injection E1 as <- <-.
    set (m1 := with_objects _ m). destruct (IH m1) as (L & C & N & Ho & Hs & Hk).
    unfold m1 in L, C, N. simpl in L, C, N.
    split; [done|]. split; [done|]. split; [done|]. split; [|split].
    + intros lid Hin. apply not_elem_of_cons in Hin as [Hne Hin]. rewrite Ho by done.
      unfold m1. simpl. by rewrite lookup_alter_ne.
    + intros lid l Hin. destruct (decide (lid ∈ lids)) as [Hl|Hl]; [by apply Hs|].
      apply elem_of_cons in Hin as [->|Hin]; [|done]. rewrite Ho by done. unfold m1. simpl.
      rewrite lookup_alter_eq. destruct (objects m !! x) as [l'|]; [|done]. simpl. intros [= <-].
      unfold stopped_link. by destruct (w_stopped (lk_writer l')) eqn:E.
    + intros lid Hl. apply Hk. unfold m1. simpl. destruct (decide (x = lid)) as [<-|Hne].
      * rewrite lookup_alter_eq. by apply fmap_is_Some.
      * by rewrite lookup_alter_ne.
Qed.

(** Starting the links that are missing. *)
Definition start_missing (now : Z) (node : MessageNode) : Manager unit := fun m =>
  match links m !! mn_id node with
  | Some _ => (tt, m)
  | None => StartLink now node m
  end.

Lemma starts_effect now nodes m :
  table_ok m ->
  let m' := (for_each nodes (start_missing now) m).2 in
  configuredNodes m' = configuredNodes m /\
  (forall lid l, objects m !! lid = Some l -> objects m' !! lid = Some l) /\
  (forall node lid, links m !! node = Some lid -> links m' !! node = Some lid) /\
  (forall node lid, links m' !! node = Some lid -> links m !! node = Some lid \/
     (next_link m <= lid)%nat /\ exists l, objects m' !! lid = Some l /\ lk_node l ∈ nodes /\
       mn_id (lk_node l) = node /\ lk_healthy l = false) /\
  (forall n, n ∈ nodes -> is_Some (links m' !! mn_id n)).
Proof.
  revert m. induction nodes as [|n nodes IH]; intros m Hok.
  - cbv zeta. simpl. repeat (split; [by eauto|]). intros n Hin. by apply elem_of_nil in Hin.
  - cbn [for_each]. unfold seq_bind. destruct (start_missing now n m) as [u m1] eqn:E1.
    assert (table_ok m1 /\ configuredNodes m1 = configuredNodes m /\ (next_link m <= next_link m1)%nat /\
      (forall lid l, objects m !! lid = Some l -> objects m1 !! lid = Some l) /\
      (forall node lid, links m !! node = Some lid -> links m1 !! node = Some lid) /\
      (forall node lid, links m1 !! node = Some lid -> links m !! node = Some lid \/
        node = mn_id n /\ (next_link m <= lid)%nat /\ exists l, objects m1 !! lid = Some l /\ lk_node l = n /\
          lk_healthy l = false) /\ is_Some (links m1 !! mn_id n)) as (T1 & C1 & N1 & O1 & L1 & R1 & S1).
    { unfold start_missing in E1. destruct (links m !! mn_id n) as [lid|] eqn:El.
      - injection E1 as <- <-. do 6 (split; [by eauto|]). eauto.
      - pose proof (table_StartLink now n m Hok) as T. destruct (StartLink_effect now n m) as (l & Hn & Hh & C & N & L & O).
        rewrite E1 in *. simpl in *. unfold replace_old in O. rewrite El in O.
        split; [done|]. split; [done|]. split; [lia|]. rewrite L, O. split; [|split; [|split]].
        + intros lid l' Ho. rewrite lookup_insert_ne; [done|]. destruct Hok as [_ Hb]. specialize (Hb _ _ Ho). lia.
        + intros node lid Hl. rewrite lookup_insert_ne; [done|congruence].
        + intros node lid. destruct (decide (mn_id n = node)) as [<-|Hne].
          * rewrite lookup_insert_eq. intros [= <-]. right. split; [done|]. split; [done|]. exists l.
            by rewrite lookup_insert_eq.
          * rewrite lookup_insert_ne by done. by left.
        + by rewrite lookup_insert_eq. }
    destruct (IH m1 T1) as (C2 & O2 & L2 & R2 & S2).
    split; [congruence|]. split; [by eauto|]. split; [by eauto|]. split.
    + intros node lid Hl. destruct (R2 node lid Hl) as [Hl1|(Hle & l & Ho & Hn & Hi & Hh)].
      * destruct (R1 node lid Hl1) as [?|(-> & Hle & l & Ho & <- & Hh)]; [by left|]. right. split; [done|].
        exists l. split; [by apply O2|]. split; [by left|done].
      * right. split; [lia|]. exists l. split; [done|]. split; [by right|done].
    + intros n' Hin. apply elem_of_cons in Hin as [->|Hin]; [|by apply S2].
      destruct S1 as [lid Hl]. exists lid. by apply L2.
Qed.

Lemma desired_dom s node : is_Some (desired s !! node) <-> exists n, n ∈ tp_nodes s /\ mn_id n = node.
Proof.
  unfold desired. assert (forall l (t : gmap string MessageNode),
    is_Some (foldl (fun t n => <[mn_id n := n]> t) t l !! node) <->
    is_Some (t !! node) \/ exists n, n ∈ l /\ mn_id n = node) as Hgen.
  { induction l as [|n l IH]; intros t; simpl.
    - split; [by left|]. intros [?|(n & Hn & _)]; [done|by apply elem_of_nil in Hn].
    - rewrite IH. setoid_rewrite elem_of_cons. destruct (decide (mn_id n = node)) as [<-|Hne].
      + rewrite lookup_insert_eq. split; [intros _; right; exists n; by split; [left|]|by left].
      + rewrite lookup_insert_ne by done. split.
        * intros [?|(n' & Hin & Hn)]; [by left|right; exists n'; by split; [right|]].
        * intros [?|(n' & [->|Hin] & Hn)]; [by left|done|right; by exists n']. }
  rewrite Hgen. split; [|by right]. intros [Hs|?]; [|done]. rewrite lookup_empty in Hs. by destruct Hs.
Qed.

Lemma table_injective m node node' lid :
  table_ok m -> links m !! node = Some lid -> links m !! node' = Some lid -> node = node'.
Proof.
  intros [Ha _] H1' H2'. destruct (Ha _ _ H1') as (l & Hl & <-). destruct (Ha _ _ H2') as (l' & Hl' & <-).
  congruence.
Qed.

(** The whole change of topology. *)
Lemma ApplyTopology_effect now s m :
  table_ok m ->
  let m' := (ApplyTopology now s m).2 in
  let gone := outdated (desired s) (configuredNodes m) in
  configuredNodes m' = desired s /\
  (forall node, is_Some (links m' !! node) <-> exists n, n ∈ tp_nodes s /\ mn_id n = node) /\
  (forall node lid, links m !! node = Some lid -> gone node = false ->
     links m' !! node = Some lid /\ objects m' !! lid = objects m !! lid) /\
  (forall node lid, links m !! node = Some lid -> gone node = true ->
     (exists l, objects m' !! lid = Some l /\ stopped_link l) /\ forall node', links m' !! node' <> Some lid) /\
  (forall node lid, links m' !! node = Some lid -> links m !! node = Some lid \/
     objects m !! lid = None /\ exists l, objects m' !! lid = Some l /\ lk_node l ∈ tp_nodes s /\
       mn_id (lk_node l) = node /\ lk_healthy l = false).
Proof.
  intros Hok. pose proof (table_ApplyTopology now s m Hok) as [Hend _]. cbv zeta. revert Hend.
  unfold ApplyTopology, seq_bind, writes.
  set (m0 := if tp_changed s && _ then _ else _).
  assert (table_ok m0 /\ links m0 = links m /\ objects m0 = objects m /\ next_link m0 = next_link m /\
    configuredNodes m0 = configuredNodes m) as (T0 & L0 & O0 & N0 & C0) by (unfold m0; by destruct (_ && _)).
  pose proof (table_remove_outdated s m0 T0) as T1. pose proof (remove_outdated_effect s m0) as E1.
  destruct (remove_outdated s m0) as [removed m1]. simpl in T1. rewrite L0, C0, O0, N0 in E1.
  destruct E1 as (R1 & L1 & C1 & O1 & N1).
  assert (always table_ok (for_each removed StopLink)) as T2 by (apply always_for_each; intros ? _; auto with table).
  specialize (T2 m1 T1). destruct (stops_effect removed m1) as (L2 & C2 & N2 & K2 & S2 & A2).
  destruct (for_each removed StopLink m1) as [u m2]. simpl in T2, L2, C2, N2, K2, S2, A2.
  fold (start_missing now). destruct (starts_effect now (tp_nodes s) m2 T2) as (C3 & O3 & L3 & R3 & S3).
  set (m3 := (for_each (tp_nodes s) (start_missing now) m2).2) in *. intros Hend.
  assert (forall lid, objects m !! lid = None -> objects m2 !! lid = None) as Hnone.
  { intros lid Hl. destruct (decide (lid ∈ removed)) as [Hin|Hin]; [|by rewrite K2, O1].
    apply R1 in Hin as (n & Hn & _). destruct Hok as [Ha _]. destruct (Ha n lid Hn) as (? & ? & _). congruence. }
  split; [congruence|]. split; [|split; [|split]].
  - intros node. split; [|by intros (n & Hin & <-); apply S3]. intros [lid Hl].
    destruct (R3 node lid Hl) as [Hl2|(_ & l & _ & Hin & Hn & _)]; [|by exists (lk_node l)].
    rewrite L2 in Hl2. apply L1 in Hl2 as [_ Hout]. apply desired_dom. unfold outdated in Hout.
    by destruct (desired s !! node).
  - intros node lid Hl Hg. assert (links m2 !! node = Some lid) as Hl2 by (rewrite L2; by apply L1).
    split; [by apply L3|]. assert (lid ∉ removed) as Hnot.
    { intros Hin. apply R1 in Hin as (n & Hn & Hx). rewrite (table_injective m n node lid) in Hx; congruence. }
    destruct Hok as [Ha _]. destruct (Ha node lid Hl) as (l & Ho & _). rewrite Ho. apply O3. by rewrite K2, O1.
  - intros node lid Hl Hg. assert (lid ∈ removed) as Hin by (apply R1; eauto).
    destruct Hok as [Ha Hb]. destruct (Ha node lid Hl) as (l & Ho & Hn).
    destruct (A2 lid) as [l2 Hl2]; [by rewrite O1, Ho|].
    split; [exists l2; split; [by apply O3|by apply (S2 lid)]|].
    intros node' Hl'. destruct (R3 node' lid Hl') as [Hx|(Hle & _)].
    + rewrite L2 in Hx. apply L1 in Hx as [Hx Hout].
      rewrite (table_injective m node' node lid) in Hout by (done || by split). congruence.
    + specialize (Hb lid l Ho). lia.
  - intros node lid Hl. destruct (R3 node lid Hl) as [Hl2|(Hle & l & Ho & Hin & Hn & Hh)].
    + left. rewrite L2 in Hl2. by apply L1 in Hl2 as [? _].
    + right. split; [|by exists l]. destruct (objects m !! lid) as [l0|] eqn:E; [|done].
      destruct Hok as [_ Hb]. specialize (Hb lid l0 E). lia.
Qed.

(** A change of topology is applied exactly.  In any reachable state the
    nodes of the snapshot become the configured ones and exactly they have
    links; a link whose node stays at its address is kept untouched; a link whose
    node is gone or has moved leaves the table and takes no more frames; every
    other link is new, to a node of the snapshot, and unhealthy until that node
    has accepted it. *)
Theorem topology_applied es now s :
  let m := manager_run es new_manager in
  let m' := (ApplyTopology now s m).2 in
  let gone := outdated (desired s) (configuredNodes m) in
  configuredNodes m' = desired s /\
  (forall node, is_Some (links m' !! node) <-> exists n, n ∈ tp_nodes s /\ mn_id n = node) /\
  (forall node lid, links m !! node = Some lid -> gone node = false ->
     links m' !! node = Some lid /\ objects m' !! lid = objects m !! lid) /\
  (forall node lid, links m !! node = Some lid -> gone node = true ->
     (exists l, objects m' !! lid = Some l /\ stopped_link l) /\ forall node', links m' !! node' <> Some lid) /\
  (forall node lid, links m' !! node = Some lid -> links m !! node = Some lid \/
     objects m !! lid = None /\ exists l, objects m' !! lid = Some l /\ lk_node l ∈ tp_nodes s /\
       mn_id (lk_node l) = node /\ lk_healthy l = false).
Proof. cbv zeta. apply ApplyTopology_effect, table_run, new_table. Qed.

(** The commands of a link that a topology takes away are not retried.
    When the stream of a removed link is done, nothing happens at all: its
    commands stay filed under their node, none is sent again and no retry is
    started, so each waits for its deadline.  (A broken link of a configured node
    does start one: the second part.) *)
Theorem removed_link_not_retried es now s node lid :
  let m := manager_run es new_manager in
  let m' := (ApplyTopology now s m).2 in
  links m !! node = Some lid ->
  (outdated (desired s) (configuredNodes m) node = true ->
     (OnLinkDone node lid m').2 = m' /\ books m' = books m) /\
  (stopping m = false -> is_Some (configuredNodes m !! node) ->
     threads (OnLinkDone node lid m).2 = threads m ++ [TRetryAll node]).
Proof.
  cbv zeta. intros Hl. split.
  - intros Hg. pose proof (ApplyTopology_effect now s _ (table_run es _ new_table)) as (_ & _ & _ & Hgone & _).
    destruct (Hgone node lid Hl Hg) as [_ Hnot]. split; [|exact (keeps_ApplyTopology now s _ _ eq_refl)].
    specialize (Hnot node). unfold OnLinkDone. set (m' := (ApplyTopology now s _).2) in *. clearbody m'.
    destruct (stopping m'); [done|]. destruct (links m' !! node) as [l|]; [|done].
    destruct (decide (l = lid)) as [->|]; [congruence|done].
  - intros Hs [n Hn]. unfold OnLinkDone. rewrite Hs, Hl, decide_True by done. simpl. by rewrite Hn.
Qed.
End Topology.

(** ** Reconnecting backs off *)

(** From 200 ms, doubling, to at most 10 s and a quarter of it as jitter. *)
Lemma reconnect_delay_bounds attempt jitter :
  0 <= attempt -> 0 <= jitter <= jitter_max attempt -> 200 <= reconnect_delay attempt jitter <= 12500.
Proof.
  unfold reconnect_delay, jitter_max. cbv zeta. intros Ha Hj.
  assert (200 <= Z.min (200 * 2 ^ Z.min attempt 6) 10000).
  { assert (1 <= 2 ^ Z.min attempt 6); [|lia]. apply (Z.pow_le_mono_r 2 0 (Z.min attempt 6)); lia. }
  assert (Z.min (200 * 2 ^ Z.min attempt 6) 10000 / 4 <= 2500); [|lia].
  apply (Z.div_le_mono _ 10000 4); lia.
Qed.

(** ** Three nodes, of which one breaks *)

Module ThreeNodes.
#[local] Existing Instances TwoNodes.map_order TwoNodes.hash TwoNodes.identity bits_codec.

Definition nodes : TopologySnapshot :=
  mkTopology 1 true [mkMessageNode "m1" "10.0.0.1" 9001; mkMessageNode "m2" "10.0.0.2" 9001;
                     mkMessageNode "m3" "10.0.0.3" 9001].
Definition up (lid : nat) : manager_event :=
  LRead 1000 lid None (Some (MRegisterResult (mkRegisterResult true "" 1 ""))).
Definition started : list manager_event := [LTopology 0 nodes; up 0; up 1; up 2].
Definition before : manager := manager_run started new_manager.
Definition after : manager := manager_run (started ++ [LRead 2000 0 None None]) new_manager.

Lemma links_before : healthy_links "" before = [("m3", 2%nat); ("m1", 0%nat); ("m2", 1%nat)].
Proof. by vm_compute. Qed.
Lemma links_after : healthy_links "" after = [("m3", 2%nat); ("m2", 1%nat)].
Proof. by vm_compute. Qed.
Lemma usable_before node lid : usable before "" node lid <->
  (node, lid) = ("m3", 2%nat) \/ (node, lid) = ("m1", 0%nat) \/ (node, lid) = ("m2", 1%nat).
Proof. rewrite <- elem_of_healthy, links_before, !elem_of_cons, elem_of_nil. tauto. Qed.
Lemma usable_after node lid : usable after "" node lid <->
  (node, lid) = ("m3", 2%nat) \/ (node, lid) = ("m2", 1%nat).
Proof. rewrite <- elem_of_healthy, links_after, !elem_of_cons, elem_of_nil. tauto. Qed.

(** Conversation 5 is served by the third link, before and after the first breaks. *)
Lemma conversation_keeps_link_witness :
  SelectLink 5 "" before = Some 2%nat /\ SelectLink 5 "" after = Some 2%nat.
Proof.
  split; [by vm_compute|].
  apply (conversation_keeps_link (H1 := TwoNodes.map_order) 5 "" "" before after 2%nat).
  - lia.
  - by vm_compute.
  - exists "m3". apply usable_after. by left.
  - by vm_compute.
  - intros n l Hu. apply usable_after in Hu as [[= -> ->]|[= -> ->]]; (split; [|by vm_compute]);
      eexists; apply usable_before; eauto.
  - intros n1 l1 n2 l2 Hu1 Hu2. apply usable_before in Hu1, Hu2.
    destruct Hu1 as [[= -> ->]|[[= -> ->]|[= -> ->]]], Hu2 as [[= -> ->]|[[= -> ->]|[= -> ->]]];
      try done; intros He; vm_compute in He; discriminate He.
Defined.

(** A topology without the third node: its command is left where it is. *)
Definition waiting_command : list manager_event :=
  started ++ [LForward 2000 (TwoNodes.command "r") 3; LThread 2000 0; LThread 2000 0; LThread 2000 0].
Definition smaller : TopologySnapshot :=
  mkTopology 2 true [mkMessageNode "m1" "10.0.0.1" 9001; mkMessageNode "m2" "10.0.0.2" 9001].

Lemma removed_link_not_retried_witness :
  let m := manager_run waiting_command new_manager in
  let m' := (ApplyTopology 3000 smaller m).2 in
  (pn_linkId <$> (pending m' !! "r")) = Some "m3" /\ links m' !! "m3" = None /\ threads m' = [] /\
  (OnLinkDone "m3" 2 m').2 = m'.
Proof.
  cbv zeta. do 3 (split; [by vm_compute|]).
  refine (proj1 (proj1 (removed_link_not_retried (H1 := TwoNodes.map_order) waiting_command 3000 smaller "m3" 2 _) _));
    by vm_compute.
Defined.
End ThreeNodes.
