(* ===== verification/Outbox.v ===== *)
(** * The sending side of a client connection

    The part of [GatewaySession] ([src/server/gateway/src/GatewaySession.cc]) that
    writes: the queue and its bound, the write loop, and the frames that are sent
    again until the client acknowledges them.  What runs on the strand runs one
    handler at a time; [SendRaw] and [SendReliable] are called from any thread,
    and [sender_step] is what such a call does between two accesses to shared
    state. *)

From S2P Require Import Prelude Const Packet Frame.

Definition kMaxQueuedWrites : Z := PROTOCOL_QUEUE_MAX_SIZE.

(** ** State *)

(** [ReliableWrite]; a timer is known by a number. *)
Record ReliableWrite := mkReliable {
  rw_packet : string; rw_protocolId : Z; rw_attempts : Z; rw_timer : option nat }.

(** A wait on a [steady_timer]: running, over (its handler will be told so), or
    cancelled, by [cancel] or by the timer's destruction. *)
Inductive wait_state := Waiting | Over | Cancelled.

(** What is posted to the strand. *)
Inductive posted :=
  | PWrite (frame : list ascii)
  | PReliable (packet : string) (protocolId ackSeq : Z)
  | PClose.

(** [writeActive] and where [WriteLoop] stands: none, spawned, or in
    [async_write]. *)
Inductive write_loop := WNone | WStarting | WWriting (frame : list ascii).

(** A call of [SendReliable] in progress ([SendRaw] when [ackSeq] is not positive). *)
Inductive sender :=
  | SCheck (packet : string) (protocolId ackSeq : Z)
  | SReserve (packet : string) (protocolId ackSeq : Z)
  | SPost (packet : string) (protocolId ackSeq : Z)
  | SGiveBack
  | SReliable (packet : string) (protocolId ackSeq : Z).

(** Three fields only record what happened: [written], the frames written to the
    socket; [taken], the frames posted; [copies], the acknowledgement numbers
    sent reliably with the number of the attempt. *)
Record outbox := mkOutbox {
  closed : bool; queuedWrites : Z; writeQueue : list (list ascii); writing : write_loop;
  closeAfterWrite : bool; reliableWrites : gmap Z ReliableWrite;
  timers : gmap nat (Z * wait_state); next_timer : nat; strand : list posted;
  senders : list sender; written : list (list ascii); taken : list (list ascii);
  copies : list (Z * Z) }.

Definition new_outbox : outbox := mkOutbox false 0 [] WNone false ∅ ∅ 0 [] [] [] [] [].

Definition o_closed x o := mkOutbox x (queuedWrites o) (writeQueue o) (writing o) (closeAfterWrite o)
  (reliableWrites o) (timers o) (next_timer o) (strand o) (senders o) (written o) (taken o) (copies o).
Definition o_queuedWrites x o := mkOutbox (closed o) x (writeQueue o) (writing o) (closeAfterWrite o)
  (reliableWrites o) (timers o) (next_timer o) (strand o) (senders o) (written o) (taken o) (copies o).
Definition o_writeQueue x o := mkOutbox (closed o) (queuedWrites o) x (writing o) (closeAfterWrite o)
  (reliableWrites o) (timers o) (next_timer o) (strand o) (senders o) (written o) (taken o) (copies o).
Definition o_writing x o := mkOutbox (closed o) (queuedWrites o) (writeQueue o) x (closeAfterWrite o)
  (reliableWrites o) (timers o) (next_timer o) (strand o) (senders o) (written o) (taken o) (copies o).
Definition o_closeAfterWrite x o := mkOutbox (closed o) (queuedWrites o) (writeQueue o) (writing o) x
  (reliableWrites o) (timers o) (next_timer o) (strand o) (senders o) (written o) (taken o) (copies o).
Definition o_reliableWrites x o := mkOutbox (closed o) (queuedWrites o) (writeQueue o) (writing o)
  (closeAfterWrite o) x (timers o) (next_timer o) (strand o) (senders o) (written o) (taken o) (copies
  o).
Definition o_timers x o := mkOutbox (closed o) (queuedWrites o) (writeQueue o) (writing o)
  (closeAfterWrite o) (reliableWrites o) x (next_timer o) (strand o) (senders o) (written o) (taken o)
  (copies o).
Definition o_next_timer x o := mkOutbox (closed o) (queuedWrites o) (writeQueue o) (writing o)
  (closeAfterWrite o) (reliableWrites o) (timers o) x (strand o) (senders o) (written o) (taken o)
  (copies o).
Definition o_strand x o := mkOutbox (closed o) (queuedWrites o) (writeQueue o) (writing o)
  (closeAfterWrite o) (reliableWrites o) (timers o) (next_timer o) x (senders o) (written o) (taken o)
  (copies o).
Definition o_senders x o := mkOutbox (closed o) (queuedWrites o) (writeQueue o) (writing o)
  (closeAfterWrite o) (reliableWrites o) (timers o) (next_timer o) (strand o) x (written o) (taken o)
  (copies o).
Definition o_written x o := mkOutbox (closed o) (queuedWrites o) (writeQueue o) (writing o)
  (closeAfterWrite o) (reliableWrites o) (timers o) (next_timer o) (strand o) (senders o) x (taken o)
  (copies o).
Definition o_taken x o := mkOutbox (closed o) (queuedWrites o) (writeQueue o) (writing o)
  (closeAfterWrite o) (reliableWrites o) (timers o) (next_timer o) (strand o) (senders o) (written o) x
  (copies o).
Definition o_copies x o := mkOutbox (closed o) (queuedWrites o) (writeQueue o) (writing o)
  (closeAfterWrite o) (reliableWrites o) (timers o) (next_timer o) (strand o) (senders o) (written o)
  (taken o) x.

Abbreviation Outbox := (State outbox).

(** ** Sending *)

Definition count (n : Z) : Outbox unit := writes (fun o => o_queuedWrites (queuedWrites o + n) o).
Definition post (p : posted) : Outbox unit := writes (fun o => o_strand (strand o ++ [p]) o).
Definition post_frame (packet : string) (protocolId : Z) : Outbox unit :=
  do! writes (fun o => o_taken (taken o ++ [EncodeFrame protocolId packet]) o) in
  post (PWrite (EncodeFrame protocolId packet)).

Definition Close : Outbox unit := post PClose.

Definition SendRaw (packet : string) (protocolId : Z) : Outbox bool :=
  let! c := reads closed in
  if (c : bool) then pure false
  else
    do! count 1 in
    let! queued := reads queuedWrites in
    if kMaxQueuedWrites <? queued then
      do! count (-1) in
      do! Close in
      pure false
    else
      do! post_frame packet protocolId in
      pure true.

Definition SendReliable (packet : string) (protocolId ackSeq : Z) : Outbox bool :=
  if ackSeq <=? 0 then SendRaw packet protocolId
  else
    let! sent := SendRaw packet protocolId in
    if (sent : bool) then
      do! post (PReliable packet protocolId ackSeq) in
      pure true
    else pure false.

(** The same calls by sections: what remains to be done, or the result. *)
Definition sender_step (t : sender) : Outbox (sender + bool) :=
  match t with
  | SCheck packet id ack =>
      let! c := reads closed in
      pure (if (c : bool) then inr false else inl (SReserve packet id ack))
  | SReserve packet id ack =>
      do! count 1 in
      let! queued := reads queuedWrites in
      pure (inl (if kMaxQueuedWrites <? queued then SGiveBack else SPost packet id ack))
  | SPost packet id ack =>
      do! post_frame packet id in
      pure (if ack <=? 0 then inr true else inl (SReliable packet id ack))
  | SGiveBack =>
      do! count (-1) in
      do! Close in
      pure (inr false)
  | SReliable packet id ack =>
      do! post (PReliable packet id ack) in
      pure (inr true)
  end.

Fixpoint run_sender (fuel : nat) (t : sender) : Outbox bool :=
  match fuel with
  | O => pure false
  | S fuel =>
      let! next := sender_step t in
      match next with
      | inl t => run_sender fuel t
      | inr b => pure b
      end
  end.

(** Without interruption the sections are the function. *)
Lemma sections_agree packet id ack o :
  run_sender 4 (SCheck packet id ack) o = SendReliable packet id ack o.
Proof.
  unfold SendReliable, SendRaw. destruct o as [c n q w ca rel ts nt st se wr tk co].
  destruct (ack <=? 0) eqn:Ea; unfold seq_bind, reads; simpl; destruct c; simpl; try done;
    unfold seq_bind, reads, count, writes; simpl; destruct (kMaxQueuedWrites <? n + 1) eqn:Ef; simpl; try done;
    unfold seq_bind, post_frame, post, writes; simpl; rewrite Ea; done.
Qed.

(** ** Timers *)

(** [cancel], or destruction of the timer: no effect on a wait that is over. *)
Definition cancel_timer (t : nat) : Outbox unit :=
  writes (fun o => o_timers (alter (fun w => match w.2 with Waiting => (w.1, Cancelled) | _ => w end) t (timers o)) o).

Definition cancel_write (rw : ReliableWrite) : Outbox unit :=
  match rw_timer rw with Some t => cancel_timer t | None => pure tt end.

(** Removing an entry destroys its timer. *)
Definition erase_write (ackSeq : Z) : Outbox unit := fun o =>
  match reliableWrites o !! ackSeq with
  | None => (tt, o)
  | Some rw =>
      let '(_, o) := cancel_write rw o in
      (tt, o_reliableWrites (delete ackSeq (reliableWrites o)) o)
  end.

Definition set_timer (t : option nat) (rw : ReliableWrite) : ReliableWrite :=
  mkReliable (rw_packet rw) (rw_protocolId rw) (rw_attempts rw) t.
Definition set_tries (n : Z) (rw : ReliableWrite) : ReliableWrite :=
  mkReliable (rw_packet rw) (rw_protocolId rw) n (rw_timer rw).

Definition ArmReliableWrite (ackSeq : Z) : Outbox unit := fun o =>
  match reliableWrites o !! ackSeq with
  | None => (tt, o)
  | Some rw =>
      if closed o then (tt, o)
      else
        let '(_, o) := cancel_write rw o in
        let t := next_timer o in
        (tt, o_next_timer (S t) (o_timers (<[t := (ackSeq, Waiting)]> (timers o))
               (o_reliableWrites (<[ackSeq := set_timer (Some t) rw]> (reliableWrites o)) o)))
  end.

Definition AcknowledgeTransport (ackSeq : Z) : Outbox unit := erase_write ackSeq.

(** ** Handlers *)

Definition CloseInContext : Outbox unit := fun o =>
  if closed o then (tt, o)
  else
    let '(_, o) := for_each (snd <$> map_to_list (reliableWrites o)) cancel_write (o_closed true o) in
    (tt, o_reliableWrites ∅ o).

(** The handler [ArmReliableWrite] installs, told that the wait is over. *)
Definition on_timer (ackSeq : Z) : Outbox unit :=
  let! found := reads (fun o => reliableWrites o !! ackSeq) in
  match found with
  | None => pure tt
  | Some rw =>
      if 3 <=? rw_attempts rw then erase_write ackSeq
      else
        let rw := set_tries (rw_attempts rw + 1) rw in
        do! writes (fun o => o_reliableWrites (<[ackSeq := rw]> (reliableWrites o)) o) in
        let! sent := SendRaw (rw_packet rw) (rw_protocolId rw) in
        if (sent : bool) then
          do! writes (fun o => o_copies (copies o ++ [(ackSeq, rw_attempts rw)]) o) in
          ArmReliableWrite ackSeq
        else erase_write ackSeq
  end.

Definition run_timer (t : nat) : Outbox unit := fun o =>
  match timers o !! t with
  | Some (ack, Over) => on_timer ack (o_timers (delete t (timers o)) o)
  | Some (_, Cancelled) => (tt, o_timers (delete t (timers o)) o)
  | _ => (tt, o)
  end.

(** The end of [WriteLoop], and its condition. *)
Definition finish_writing : Outbox unit := fun o =>
  let o := o_writing WNone o in
  if closeAfterWrite o && match writeQueue o with [] => true | _ => false end
  then CloseInContext o
  else (tt, o).

Definition write_next : Outbox unit := fun o =>
  match writeQueue o with
  | frame :: _ => if closed o then finish_writing o else (tt, o_writing (WWriting frame) o)
  | [] => finish_writing o
  end.

(** [async_write] has completed. *)
Definition write_done (ok : bool) : Outbox unit := fun o =>
  match writing o with
  | WWriting frame =>
      let o := o_queuedWrites (queuedWrites o - 1) (o_writeQueue (tail (writeQueue o)) o) in
      if ok then write_next (o_written (written o ++ [frame]) o)
      else (do! CloseInContext in finish_writing) o
  | _ => (tt, o)
  end.

Definition run_posted (p : posted) : Outbox unit :=
  match p with
  | PWrite frame => fun o =>
      if closed o then count (-1) o
      else
        let o := o_writeQueue (writeQueue o ++ [frame]) o in
        (tt, match writing o with WNone => o_writing WStarting o | _ => o end)
  | PReliable packet id ack =>
      do! erase_write ack in
      do! writes (fun o => o_copies (copies o ++ [(ack, 1)])
             (o_reliableWrites (<[ack := mkReliable packet id 1 None]> (reliableWrites o)) o)) in
      ArmReliableWrite ack
  | PClose => CloseInContext
  end.

(** The oldest posted handler runs. *)
Definition run_strand : Outbox unit := fun o =>
  match strand o with
  | [] => (tt, o)
  | p :: rest => run_posted p (o_strand rest o)
  end.

(** ** Runs *)

Inductive outbox_event :=
  | OSend (packet : string) (protocolId ackSeq : Z)
  | OSender (i : nat)
  | OStrand
  | OWriteLoop
  | OWritten (ok : bool)
  | OExpire (t : nat)
  | OTimer (t : nat)
  | OAck (ackSeq : Z)
  | OCloseAfterWrite
  | OClose.

Definition outbox_step (e : outbox_event) : Outbox unit :=
  match e with
  | OSend packet id ack => writes (fun o => o_senders (senders o ++ [SCheck packet id ack]) o)
  | OSender i => fun o =>
      match senders o !! i with
      | None => (tt, o)
      | Some t =>
          let '(next, o') := sender_step t o in
          (tt, o_senders (take i (senders o) ++ match next with inl t => [t] | inr _ => [] end
                          ++ drop (S i) (senders o)) o')
      end
  | OStrand => run_strand
  | OWriteLoop => fun o => match writing o with WStarting => write_next o | _ => (tt, o) end
  | OWritten ok => write_done ok
  | OExpire t => writes (fun o =>
      o_timers (alter (fun w => match w.2 with Waiting => (w.1, Over) | _ => w end) t (timers o)) o)
  | OTimer t => run_timer t
  | OAck ack => AcknowledgeTransport ack
  | OCloseAfterWrite => writes (o_closeAfterWrite true)
  | OClose => Close
  end.

Definition outbox_run (es : list outbox_event) (o : outbox) : outbox :=
  foldl (fun o e => (outbox_step e o).2) o es.
