(* ===== verification/Writes.v ===== *)
(** * What a client connection writes

    The order and the bound of the queue, and the copies of a frame that is sent
    until it is acknowledged, in any interleaving of senders, strand handlers,
    timers and writes. *)

From S2P Require Import Prelude Const Packet Frame Outbox.

(** ** Frames and room *)

Definition posted_frame (p : posted) : option (list ascii) :=
  match p with PWrite f => Some f | _ => None end.
(** A sender that has counted its frame, and one that has also found room. *)
Definition counted (t : sender) : option unit :=
  match t with SPost _ _ _ | SGiveBack => Some tt | _ => None end.
Definition posting (t : sender) : option unit :=
  match t with SPost _ _ _ => Some tt | _ => None end.

Lemma length_omap_cons {A B} (f : A -> option B) a l :
  length (omap f (a :: l)) = (match f a with Some _ => 1 | None => 0 end + length (omap f l))%nat.
Proof. simpl. by destruct (f a). Qed.

(** The frames on their way to the socket. *)
Definition on_the_way (o : outbox) : list (list ascii) := writeQueue o ++ omap posted_frame (strand o).

Record queue_ok (o : outbox) : Prop := {
  q_count : queuedWrites o = Z.of_nat (length (on_the_way o)) + Z.of_nat (length (omap counted (senders o)));
  q_room : Z.of_nat (length (on_the_way o)) + Z.of_nat (length (omap posting (senders o))) <= kMaxQueuedWrites;
  q_prefix : written o `prefix_of` taken o;
  q_open : closed o = false -> taken o = written o ++ on_the_way o;
  q_writing : forall f, writing o = WWriting f ->
    exists rest, writeQueue o = f :: rest /\ (written o ++ [f]) `prefix_of` taken o }.

(** What [queue_ok] looks at. *)
Definition queue_view (o : outbox) :=
  (closed o, queuedWrites o, writeQueue o, writing o, strand o, senders o, written o, taken o).

Lemma queue_ok_view o o' : queue_view o' = queue_view o -> queue_ok o -> queue_ok o'.
Proof.
  unfold queue_view. intros [= E1 E2 E3 E4 E5 E6 E7 E8] [A B C D F].
  split; unfold on_the_way in *; rewrite ?E1, ?E2, ?E3, ?E4, ?E5, ?E6, ?E7, ?E8; done.
Qed.

(** An operation on the rest of the state. *)
Definition keeps_queue {A} (m : Outbox A) : Prop := forall o, queue_view (m o).2 = queue_view o.

Lemma keeps_cancel_write rw : keeps_queue (cancel_write rw).
Proof. intros o. unfold cancel_write. by destruct (rw_timer rw). Qed.

Lemma keeps_erase_write ack : keeps_queue (erase_write ack).
Proof.
  intros o. unfold erase_write. destruct (reliableWrites o !! ack) as [rw|]; [|done].
  pose proof (keeps_cancel_write rw o) as Hk. by destruct (cancel_write rw o).
Qed.

Lemma keeps_Arm ack : keeps_queue (ArmReliableWrite ack).
Proof.
  intros o. unfold ArmReliableWrite. destruct (reliableWrites o !! ack) as [rw|]; [|done].
  destruct (closed o); [done|]. pose proof (keeps_cancel_write rw o) as Hk. by destruct (cancel_write rw o).
Qed.

Lemma keeps_cancels l : keeps_queue (for_each l cancel_write).
Proof.
  induction l as [|rw l IH]; intros o; [done|]. cbn [for_each]. unfold seq_bind.
  pose proof (keeps_cancel_write rw o) as Hk. destruct (cancel_write rw o) as [u o1]. simpl in Hk.
  by rewrite IH.
Qed.

Lemma queue_Close o : queue_view (CloseInContext o).2 = queue_view (o_closed true o).
Proof.
  unfold CloseInContext. destruct (closed o) eqn:E.
  - unfold queue_view. simpl. by rewrite E.
  - pose proof (keeps_cancels (snd <$> map_to_list (reliableWrites o)) (o_closed true o)) as Hk.
    by destruct (for_each _ _ _).
Qed.

Lemma queue_ok_closed o : queue_ok o -> queue_ok (o_closed true o).
Proof. intros [A B C D F]. by split. Qed.

Lemma queue_ok_Close o : queue_ok o -> queue_ok (CloseInContext o).2.
Proof. intros Hok. eapply queue_ok_view; [apply queue_Close|]. by apply queue_ok_closed. Qed.

(** ** Senders *)

Lemma queue_ok_post p o : posted_frame p = None -> queue_ok o -> queue_ok (post p o).2.
Proof.
  intros Hp [A B C D F]. split; unfold on_the_way in *; simpl; rewrite ?omap_app; simpl; rewrite ?Hp, ?app_nil_r; done.
Qed.

(** A counted frame that has room is posted. *)
Lemma queue_ok_post_frame packet id ack o ts :
  queue_ok (o_senders (SPost packet id ack :: ts) o) -> queue_ok (post_frame packet id (o_senders ts o)).2.
Proof.
  intros [A B C D F]. unfold on_the_way in *. simpl in C, D, F. cbn [senders o_senders] in A, B.
  rewrite length_omap_cons in A, B. simpl in A, B. rewrite !length_app in *.
  split; unfold on_the_way; simpl; rewrite ?omap_app, ?length_app; simpl; rewrite ?length_app; simpl.
  - lia.
  - lia.
  - by apply prefix_app_r.
  - intros Hc. rewrite (D Hc). by rewrite !app_assoc.
  - intros f Hf. destruct (F f Hf) as (rest & E & Hp). exists rest. split; [done|]. by apply prefix_app_r.
Qed.

(** [queue_ok] does not depend on the order of the senders. *)
Lemma queue_ok_senders o ts ts' :
  ts ≡ₚ ts' -> queue_ok (o_senders ts o) -> queue_ok (o_senders ts' o).
Proof.
  intros Hp [A B C D F].
  assert (length (omap counted ts) = length (omap counted ts') /\
    length (omap posting ts) = length (omap posting ts')) as [E1 E2] by (split; apply Permutation_length; by rewrite Hp).
  split; unfold on_the_way in *; simpl in *; try done; lia.
Qed.

Lemma queue_ok_idle t ts o :
  counted t = None -> queue_ok (o_senders (t :: ts) o) <-> queue_ok (o_senders ts o).
Proof.
  intros E1. assert (posting t = None) as E2 by (by destruct t).
  split; intros [A B C D F]; split; try done; cbn [senders o_senders] in *;
    rewrite ?length_omap_cons, ?E1, ?E2 in *; done.
Qed.

(** Counting a frame, and finding room for it or not. *)
Lemma queue_ok_reserve packet id ack o ts :
  queue_ok (o_senders ts o) ->
  queue_ok (o_queuedWrites (queuedWrites o + 1)
    (o_senders ((if kMaxQueuedWrites <? queuedWrites o + 1 then SGiveBack else SPost packet id ack) :: ts) o)).
Proof.
  intros [A B C D F]. cbn [senders o_senders] in *.
  destruct (kMaxQueuedWrites <? _) eqn:E; boolp; split; try done; cbn [senders o_senders o_queuedWrites];
    rewrite ?length_omap_cons; unfold on_the_way in *; simpl in *; try lia.
  assert (length (omap posting ts) <= length (omap counted ts))%nat; [|lia].
  clear. induction ts as [|t ts IH]; [done|]. rewrite !length_omap_cons. destruct t; simpl; lia.
Qed.

Lemma queue_ok_give_back o ts :
  queue_ok (o_senders (SGiveBack :: ts) o) -> queue_ok (o_queuedWrites (queuedWrites o - 1) (o_senders ts o)).
Proof.
  intros [A B C D F]. cbn [senders o_senders] in *. rewrite length_omap_cons in A, B.
  split; try done; unfold on_the_way in *; simpl in *; lia.
Qed.

Lemma queue_ok_SendRaw packet id o : queue_ok o -> queue_ok (SendRaw packet id o).2.
Proof.
  intros Hok. unfold SendRaw, seq_bind, reads. destruct (closed o) eqn:Ec; [done|].
  unfold count, writes. simpl. assert (o_senders (senders o) o = o) as Eo by (by destruct o).
  pose proof (queue_ok_reserve packet id 0 o (senders o)) as Hr. rewrite Eo in Hr. specialize (Hr Hok).
  destruct (kMaxQueuedWrites <? _); simpl.
  - apply (queue_ok_give_back (o_queuedWrites (queuedWrites o + 1) o)) in Hr.
    apply (queue_ok_post PClose) in Hr; [|done]. by eapply queue_ok_view; [|exact Hr].
  - apply (queue_ok_post_frame packet id 0 (o_queuedWrites (queuedWrites o + 1) o) (senders o)) in Hr as Hr'.
    eapply queue_ok_view; [|exact Hr']. done.
Qed.

(** A step of one sender leaves the others alone. *)
Lemma sender_step_apart t ts o :
  sender_step t (o_senders ts o) = ((sender_step t o).1, o_senders ts (sender_step t o).2).
Proof.
  destruct t as [packet id ack|packet id ack|packet id ack| |packet id ack]; done.
Qed.

Lemma queue_ok_sender_step t ts o :
  queue_ok (o_senders (t :: ts) o) ->
  let '(next, o') := sender_step t (o_senders ts o) in
  queue_ok (o_senders (match next with inl t => [t] | inr _ => [] end ++ ts) o').
Proof.
  intros Hok. destruct t as [packet id ack|packet id ack|packet id ack| |packet id ack]; simpl;
    unfold seq_bind, reads, pure.
  - apply queue_ok_idle in Hok; [|done]. simpl. destruct (closed o); [done|]. by apply queue_ok_idle.
  - apply queue_ok_idle in Hok; [|done]. apply (queue_ok_reserve packet id ack) in Hok. simpl in *.
    by destruct (kMaxQueuedWrites <? _).
  - pose proof (queue_ok_post_frame packet id ack o ts Hok) as Hp.
    unfold post_frame, post, seq_bind, writes in *. simpl in *. destruct (ack <=? 0); [done|].
    by apply (queue_ok_idle (SReliable packet id ack)).
  - apply queue_ok_give_back in Hok. by apply (queue_ok_post PClose) in Hok.
  - apply queue_ok_idle in Hok; [|done]. by apply (queue_ok_post (PReliable packet id ack)) in Hok.
Qed.

(** ** The strand *)

Lemma queue_ok_finish o : queue_ok o -> queue_ok (finish_writing o).2.
Proof.
  intros Hok. unfold finish_writing. assert (queue_ok (o_writing WNone o)) as Hn by (destruct Hok; by split).
  destruct (_ && _); [by apply queue_ok_Close|done].
Qed.

Lemma queue_ok_write_next o : queue_ok o -> queue_ok (write_next o).2.
Proof.
  intros Hok. unfold write_next. destruct (writeQueue o) as [|f q] eqn:Eq; [by apply queue_ok_finish|].
  destruct (closed o) eqn:Ec; [by apply queue_ok_finish|]. destruct Hok as [A B C D F].
  split; unfold on_the_way in *; simpl; try done. intros f' [= <-]. exists q. split; [done|].
  rewrite D, Eq by done. exists (q ++ omap posted_frame (strand o)). simpl. by rewrite <- app_assoc.
Qed.

Lemma queue_ok_write_done ok o : queue_ok o -> queue_ok (write_done ok o).2.
Proof.
  intros Hok. unfold write_done. destruct (writing o) as [| |f] eqn:Ew; [done..|].
  destruct (q_writing o Hok f Ew) as (q & Eq & Hp). destruct Hok as [A B C D F].
  unfold on_the_way in *. rewrite Eq in *. simpl in *. destruct ok.
  - assert (queue_ok (o_writing WNone (o_written (written o ++ [f]) (o_queuedWrites (queuedWrites o - 1) (o_writeQueue q o))))) as H1.
    { split; unfold on_the_way; simpl; try done; try lia. intros Hc. rewrite (D Hc), <- app_assoc. done. }
    unfold write_next. simpl. apply queue_ok_write_next in H1 as H2. unfold write_next in H2. simpl in H2.
    done.
  - unfold seq_bind. set (o1 := o_queuedWrites _ _).
    assert (queue_ok (o_writing WNone (o_closed true o1))) as H1.
    { split; unfold on_the_way; simpl; try done; lia. }
    pose proof (queue_Close o1) as Hv. destruct (CloseInContext o1) as [u o2]. simpl in Hv.
    assert (queue_ok (o_writing WNone o2)) as H2.
    { eapply queue_ok_view; [|exact H1]. unfold queue_view in *. simpl in *. congruence. }
    apply queue_ok_finish in H2. done.
Qed.

Lemma queue_ok_run_posted p o :
  queue_ok (o_strand (p :: strand o) o) -> queue_ok (run_posted p o).2.
Proof.
  intros Hok. destruct p as [f|packet id ack|].
  - destruct Hok as [A B C D F]. unfold on_the_way in *. simpl in *. rewrite length_app in A, B. simpl in A, B.
    change (list_omap posted (list ascii) posted_frame (strand o)) with (omap posted_frame (strand o)) in *.
    destruct (closed o) eqn:Ec.
    + simpl. split; unfold on_the_way; simpl; rewrite ?length_app; try done; try lia. congruence.
    + assert (forall w, (forall g, w = WWriting g -> writing o = WWriting g) ->
        queue_ok (o_writing w (o_writeQueue (writeQueue o ++ [f]) o))) as Hw.
      { intros w Hw. split; unfold on_the_way; simpl; rewrite ?length_app; simpl; try done; try lia.
        - intros _. rewrite (D eq_refl), <- app_assoc. done.
        - intros g Hg. destruct (F g (Hw g Hg)) as (rest & Eq & Hp). exists (rest ++ [f]). by rewrite Eq. }
      simpl. destruct (writing o) as [| |g] eqn:Ew; simpl.
      * by apply Hw.
      * specialize (Hw WStarting ltac:(done)). eapply queue_ok_view; [|exact Hw]. unfold queue_view. simpl. by rewrite Ew.
      * specialize (Hw (WWriting g) ltac:(done)). eapply queue_ok_view; [|exact Hw]. unfold queue_view. simpl. by rewrite Ew.
  - assert (queue_ok o) as Ho by (destruct Hok; split; done). simpl. unfold seq_bind.
    pose proof (keeps_erase_write ack o) as H1. destruct (erase_write ack o) as [u o1]. simpl in *.
    eapply queue_ok_view; [apply keeps_Arm|]. eapply queue_ok_view; [|exact Ho]. exact H1.
  - apply queue_ok_Close. destruct Hok; split; done.
Qed.

Lemma queue_ok_on_timer ack o : queue_ok o -> queue_ok (on_timer ack o).2.
Proof.
  intros Hok. unfold on_timer, seq_bind, reads. destruct (reliableWrites o !! ack) as [rw|]; [|done].
  destruct (3 <=? rw_attempts rw).
  - eapply queue_ok_view; [apply keeps_erase_write|done].
  - unfold writes. pose proof (queue_ok_SendRaw (rw_packet rw) (rw_protocolId rw)
      (o_reliableWrites (<[ack := set_tries (rw_attempts rw + 1) rw]> (reliableWrites o)) o)) as H1.
    simpl. simpl in H1. destruct (SendRaw _ _ _) as [b o1]. simpl in H1.
    assert (queue_ok o1) as Ho1 by (apply H1; by apply (queue_ok_view o)).
    destruct b; [|eapply queue_ok_view; [apply keeps_erase_write|done]].
    eapply queue_ok_view; [apply keeps_Arm|]. by apply (queue_ok_view o1).
Qed.

Lemma queue_ok_step e o : queue_ok o -> queue_ok (outbox_step e o).2.
Proof.
  intros Hok. destruct e as [packet id ack|i| | |ok|t|t|ack| |]; simpl.
  - assert (o_senders (senders o) o = o) as Eo by (by destruct o).
    apply (queue_ok_senders o (SCheck packet id ack :: senders o)); [by rewrite <- Permutation_cons_append|].
    apply queue_ok_idle; [done|]. by rewrite Eo.
  - destruct (senders o !! i) as [t|] eqn:Et; [|done].
    set (rest := take i (senders o) ++ drop (S i) (senders o)).
    assert (senders o ≡ₚ t :: rest) as Hp.
    { rewrite <- (take_drop_middle _ _ _ Et) at 1. by rewrite <- Permutation_middle. }
    assert (queue_ok (o_senders (t :: rest) o)) as Hr.
    { apply (queue_ok_senders o (senders o)); [done|]. by destruct o. }
    apply queue_ok_sender_step in Hr. rewrite sender_step_apart in Hr.
    destruct (sender_step t o) as [next o']. simpl in *. eapply (queue_ok_senders o'); [|exact Hr].
    unfold rest. rewrite !app_assoc. apply Permutation_app_tail, Permutation_app_comm.
  - unfold run_strand. destruct (strand o) as [|p rest] eqn:Es; [done|]. apply queue_ok_run_posted.
    simpl. apply (queue_ok_view o); [|done]. unfold queue_view. simpl. by rewrite Es.
  - destruct (writing o); [done|by apply queue_ok_write_next|done].
  - by apply queue_ok_write_done.
  - by apply (queue_ok_view o).
  - unfold run_timer. destruct (timers o !! t) as [[ack [| |]]|]; try done; [apply queue_ok_on_timer|]; by apply (queue_ok_view o).
  - eapply queue_ok_view; [apply keeps_erase_write|done].
  - by apply (queue_ok_view o).
  - by apply (queue_ok_post PClose).
Qed.

Lemma queue_ok_run es o : queue_ok o -> queue_ok (outbox_run es o).
Proof. revert o. induction es as [|e es IH]; intros o Hok; [done|]. by apply IH, queue_ok_step. Qed.

Lemma new_outbox_ok : queue_ok new_outbox.
Proof. split; try done. Qed.

(** C20: a connection writes what it was given, in order and within bounds.  In
    any interleaving: the frames written are a prefix of the frames posted, in
    the order they were posted; while the connection is open nothing is lost in
    between; and never more than 10240 frames wait, counting those of senders
    that have found room and are about to post. *)
Theorem session_write_order es :
  let o := outbox_run es new_outbox in
  written o `prefix_of` taken o /\
  (closed o = false -> taken o = written o ++ on_the_way o) /\
  Z.of_nat (length (on_the_way o)) + Z.of_nat (length (omap posting (senders o))) <= kMaxQueuedWrites /\
  queuedWrites o = Z.of_nat (length (on_the_way o)) + Z.of_nat (length (omap counted (senders o))).
Proof. cbv zeta. by destruct (queue_ok_run es _ new_outbox_ok) as [A B C D F]. Qed.

(** ** Copies of a reliable frame *)

Definition sender_ack (t : sender) : option Z :=
  match t with
  | SCheck _ _ ack | SReserve _ _ ack | SPost _ _ ack => if 0 <? ack then Some ack else None
  | SReliable _ _ ack => Some ack
  | SGiveBack => None
  end.
Definition posted_ack (p : posted) : option Z :=
  match p with PReliable _ _ ack => Some ack | _ => None end.
Definition first_copy (c : Z * Z) : option Z := if c.2 =? 1 then Some c.1 else None.
Definition event_ack (e : outbox_event) : list Z :=
  match e with OSend _ _ ack => if 0 <? ack then [ack] else [] | _ => [] end.

(** The copies sent for a number, and attempts 1 to [n]. *)
Definition copies_of (s : Z) (o : outbox) : list (Z * Z) := filter (fun c => c.1 = s) (copies o).
Definition tries (s : Z) (n : nat) : list (Z * Z) := (fun k => (s, Z.of_nat k)) <$> seq 1 n.

(** The numbers still to be sent reliably. *)
Definition upcoming (cs : list Z) (o : outbox) : list Z :=
  cs ++ omap sender_ack (senders o) ++ omap posted_ack (strand o).

Record copies_ok (cs : list Z) (o : outbox) : Prop := {
  c_fresh : NoDup (upcoming cs o ++ omap first_copy (copies o));
  c_tries : forall s, exists n, (n <= 3)%nat /\ copies_of s o = tries s n /\
    forall rw, reliableWrites o !! s = Some rw -> rw_attempts rw = Z.of_nat n /\ (1 <= n)%nat }.

(** The copies of [s] that have been sent and those that may still be. *)
Definition times (s : Z) (l : list Z) : Z := Z.of_nat (length (filter (fun x => x = s) l)).
Definition budget (s : Z) (cs : list Z) (o : outbox) : Z :=
  Z.of_nat (length (copies_of s o)) + 3 * times s (upcoming cs o) +
  match reliableWrites o !! s with Some rw => Z.max 0 (3 - rw_attempts rw) | None => 0 end.

Lemma times_app s l1 l2 : times s (l1 ++ l2) = times s l1 + times s l2.
Proof. unfold times. rewrite filter_app, length_app. lia. Qed.
Lemma times_perm s l1 l2 : l1 ≡ₚ l2 -> times s l1 = times s l2.
Proof. intros Hp. unfold times. by rewrite Hp. Qed.
Lemma times_nonneg s l : 0 <= times s l.
Proof. unfold times. lia. Qed.
Lemma times_cons s x l : times s (x :: l) = (if decide (x = s) then 1 else 0) + times s l.
Proof. unfold times. rewrite filter_cons. case_decide; simpl length; lia. Qed.

(** Nothing is left that could send [s] again. *)
Definition silent (cs : list Z) (s : Z) (o : outbox) : Prop :=
  reliableWrites o !! s = None /\ s ∉ upcoming cs o.

(** An operation that sends no copy and starts none. *)
Record quieter (o o' : outbox) : Prop := {
  qt_senders : senders o' = senders o;
  qt_strand : omap posted_ack (strand o') = omap posted_ack (strand o);
  qt_copies : copies o' = copies o;
  qt_writes : forall s rw', reliableWrites o' !! s = Some rw' ->
    exists rw, reliableWrites o !! s = Some rw /\ rw_attempts rw' = rw_attempts rw }.
Definition quiet {A} (m : Outbox A) : Prop := forall o, quieter o (m o).2.

Lemma quieter_trans o o' o'' : quieter o o' -> quieter o' o'' -> quieter o o''.
Proof.
  intros [A B C D] [A' B' C' D']. split; [congruence..|]. intros s rw Hs.
  destruct (D' s rw Hs) as (rw1 & H1 & E1). destruct (D s rw1 H1) as (rw2 & H2 & E2). exists rw2. split; [done|congruence].
Qed.
Lemma quieter_same o o' :
  senders o' = senders o -> omap posted_ack (strand o') = omap posted_ack (strand o) ->
  copies o' = copies o -> reliableWrites o' = reliableWrites o -> quieter o o'.
Proof. intros ? ? ? E. split; try done. rewrite E. eauto. Qed.

Lemma quiet_bind {A B} (m : Outbox A) (k : A -> Outbox B) :
  quiet m -> (forall a, quiet (k a)) -> quiet (seq_bind m k).
Proof.
  intros Hm Hk o. unfold seq_bind. specialize (Hm o). destruct (m o) as [a o1].
  eapply quieter_trans; [exact Hm|apply Hk].
Qed.
Lemma quiet_pure {A} (a : A) : quiet (pure a).
Proof. intros o. by apply quieter_same. Qed.
Lemma quiet_reads {A} (f : outbox -> A) : quiet (reads f).
Proof. intros o. by apply quieter_same. Qed.
Lemma quiet_cancel_timer t : quiet (cancel_timer t).
Proof. intros o. by apply quieter_same. Qed.
Lemma quiet_cancel_write rw : quiet (cancel_write rw).
Proof. unfold cancel_write. destruct (rw_timer rw); [apply quiet_cancel_timer|apply quiet_pure]. Qed.
Lemma quiet_count n : quiet (count n).
Proof. intros o. by apply quieter_same. Qed.
Lemma quiet_post p : posted_ack p = None -> quiet (post p).
Proof. intros Hp o. apply quieter_same; try done. simpl. rewrite omap_app. simpl. by rewrite Hp, app_nil_r. Qed.
Lemma quiet_post_frame packet id : quiet (post_frame packet id).
Proof. apply quiet_bind; [|intros _; by apply quiet_post]. intros o. by apply quieter_same. Qed.

Lemma quiet_SendRaw packet id : quiet (SendRaw packet id).
Proof.
  apply quiet_bind; [apply quiet_reads|]. intros [|]; [apply quiet_pure|].
  apply quiet_bind; [apply quiet_count|]. intros _. apply quiet_bind; [apply quiet_reads|]. intros n.
  destruct (_ <? n).
  - apply quiet_bind; [apply quiet_count|]. intros _. apply quiet_bind; [by apply quiet_post|]. intros _. apply quiet_pure.
  - apply quiet_bind; [apply quiet_post_frame|]. intros _. apply quiet_pure.
Qed.

Lemma quiet_erase ack : quiet (erase_write ack).
Proof.
  intros o. unfold erase_write. destruct (reliableWrites o !! ack) as [rw|]; [|by apply quieter_same].
  pose proof (quiet_cancel_write rw o) as Hk. destruct (cancel_write rw o) as [u o1]. simpl in *.
  eapply quieter_trans; [exact Hk|]. split; try done. simpl. intros s rw' Hs. apply lookup_delete_Some in Hs as [_ Hs]. eauto.
Qed.

Lemma quiet_Arm ack : quiet (ArmReliableWrite ack).
Proof.
  intros o. unfold ArmReliableWrite. destruct (reliableWrites o !! ack) as [rw|] eqn:Er; [|by apply quieter_same].
  destruct (closed o); [by apply quieter_same|].
  assert (reliableWrites (cancel_write rw o).2 = reliableWrites o) as E1 by (unfold cancel_write; by destruct (rw_timer rw)).
  pose proof (quiet_cancel_write rw o) as Hk. destruct (cancel_write rw o) as [u o1]. simpl in *.
  eapply quieter_trans; [exact Hk|]. split; try done. simpl. intros s rw'.
  destruct (decide (ack = s)) as [<-|Hne].
  - rewrite lookup_insert_eq. intros [= <-]. exists rw. rewrite E1. by split.
  - rewrite lookup_insert_ne by done. eauto.
Qed.

Lemma quiet_Close : quiet CloseInContext.
Proof.
  intros o. unfold CloseInContext. destruct (closed o); [by apply quieter_same|].
  assert (quiet (for_each (snd <$> map_to_list (reliableWrites o)) cancel_write)) as Hq.
  { induction (snd <$> _) as [|rw l IH]; [apply quiet_pure|]. apply quiet_bind; [apply quiet_cancel_write|done]. }
  specialize (Hq (o_closed true o)). destruct (for_each _ _ _) as [u o1]. simpl in *.
  assert (quieter o o1) as H1 by (destruct Hq; by split).
  eapply quieter_trans; [exact H1|]. by split.
Qed.

Lemma quiet_finish : quiet finish_writing.
Proof.
  intros o. unfold finish_writing. destruct (_ && _); [|by apply quieter_same].
  eapply quieter_trans; [|apply quiet_Close]. by apply quieter_same.
Qed.
Lemma quiet_write_next : quiet write_next.
Proof.
  intros o. unfold write_next. destruct (writeQueue o); [apply quiet_finish|].
  destruct (closed o); [apply quiet_finish|by apply quieter_same].
Qed.
Lemma quiet_write_done ok : quiet (write_done ok).
Proof.
  intros o. unfold write_done. destruct (writing o); [by apply quieter_same..|]. destruct ok.
  - eapply quieter_trans; [|apply quiet_write_next]. by apply quieter_same.
  - eapply quieter_trans; [|apply quiet_bind; [apply quiet_Close|intros _; apply quiet_finish]]. by apply quieter_same.
Qed.

(** ** The copies are counted *)

(** From one state to the next: the count stays right, what is silent stays
    silent and sends nothing, and no budget grows. *)
Definition moves_on (cs : list Z) (o : outbox) (cs' : list Z) (o' : outbox) : Prop :=
  (copies_ok cs o -> copies_ok cs' o') /\
  (forall s, silent cs s o -> silent cs' s o' /\ copies_of s o' = copies_of s o) /\
  forall s, budget s cs' o' <= budget s cs o.

Lemma moves_on_trans cs1 o1 cs2 o2 cs3 o3 :
  moves_on cs1 o1 cs2 o2 -> moves_on cs2 o2 cs3 o3 -> moves_on cs1 o1 cs3 o3.
Proof.
  intros (A & B & C) (A' & B' & C'). split; [by auto|]. split; [|intros s; specialize (C s); specialize (C' s); lia].
  intros s Hs. destruct (B s Hs) as [H1 E1]. destruct (B' s H1) as [H2 E2]. split; [done|congruence].
Qed.

Lemma moves_on_quieter cs o o' : quieter o o' -> moves_on cs o cs o'.
Proof.
  intros [A B C D]. split; [|split]; cycle 2.
  { intros s. unfold budget, upcoming, copies_of. rewrite A, B, C. destruct (reliableWrites o' !! s) as [rw'|] eqn:E.
    - destruct (D s rw' E) as (rw & -> & ->). lia.
    - destruct (reliableWrites o !! s); lia. }
  - intros [F T]. split; unfold upcoming in *; [by rewrite A, B, C|].
    intros s. destruct (T s) as (n & Hn & Hc & Hr). exists n. split; [done|]. split; [unfold copies_of; by rewrite C|].
    intros rw' Hs. destruct (D s rw' Hs) as (rw & Hrw & ->). by apply Hr.
  - intros s [F T]. split; [split; unfold upcoming in *; [|by rewrite A, B]|unfold copies_of; by rewrite C].
    destruct (reliableWrites o' !! s) as [rw'|] eqn:E; [|done]. destruct (D s rw' E) as (rw & Hrw & _). congruence.
Qed.

(** Numbers move on or are given up. *)
Lemma moves_on_moved dropped cs o cs' o' :
  upcoming cs o ≡ₚ dropped ++ upcoming cs' o' ->
  copies o' = copies o -> reliableWrites o' = reliableWrites o -> moves_on cs o cs' o'.
Proof.
  intros Hp Hc Hr. split; [|split]; cycle 2.
  { intros s. unfold budget, copies_of. rewrite Hc, Hr, (times_perm s _ _ Hp), times_app.
    pose proof (times_nonneg s dropped). lia. }
  - intros [F T]. split.
    + rewrite Hc. rewrite Hp, <- app_assoc in F. by apply NoDup_app in F as (_ & _ & F).
    + intros s. unfold copies_of. rewrite Hc, Hr. apply T.
  - intros s [F T]. split; [|unfold copies_of; by rewrite Hc]. split; [by rewrite Hr|].
    intros Hin. apply T. rewrite Hp. apply elem_of_app. by right.
Qed.

Lemma tries_S s n : tries s (S n) = tries s n ++ [(s, Z.of_nat (S n))].
Proof. unfold tries. by rewrite seq_S, fmap_app. Qed.

Lemma copies_of_app s o l :
  copies_of s (o_copies (copies o ++ l) o) = copies_of s o ++ filter (fun c => c.1 = s) l.
Proof. unfold copies_of. simpl. by rewrite filter_app. Qed.

(** The first copy. *)
Lemma moves_on_start packet id ack cs o :
  moves_on cs (o_strand (PReliable packet id ack :: strand o) o)
    cs (o_copies (copies o ++ [(ack, 1)]) (o_reliableWrites (<[ack := mkReliable packet id 1 None]> (reliableWrites o)) o)).
Proof.
  assert (forall o', upcoming cs (o_strand (PReliable packet id ack :: strand o') o') ≡ₚ ack :: upcoming cs o') as Hup.
  { intros o'. unfold upcoming. simpl. rewrite !app_assoc, <- Permutation_middle. done. }
  split; [|split]; cycle 2.
  { intros s. unfold budget. rewrite (times_perm s _ _ (Hup o)), times_cons.
    rewrite (copies_of_app s (o_reliableWrites _ o)), length_app.
    change (copies_of s (o_reliableWrites _ o)) with (copies_of s o). change (upcoming cs (o_copies _ _)) with (upcoming cs o).
    change (copies_of s (o_strand _ o)) with (copies_of s o). cbn [reliableWrites o_copies o_reliableWrites o_strand].
    destruct (decide (ack = s)) as [->|Hne].
    - rewrite lookup_insert_eq, filter_cons_True, filter_nil by done. simpl. destruct (reliableWrites o !! s); lia.
    - rewrite lookup_insert_ne, filter_cons_False, filter_nil by (simpl; congruence). simpl. lia. }
  - intros [F T]. rewrite Hup in F. simpl in F. assert (ack ∉ omap first_copy (copies o)) as Hnew.
    { apply NoDup_cons in F as [F _]. intros Hin. apply F, elem_of_app. by right. }
    split.
    + unfold upcoming. simpl. rewrite omap_app. simpl. rewrite app_assoc, <- Permutation_cons_append. exact F.
    + intros s. destruct (T s) as (n & Hn & Hc & Hr). rewrite (copies_of_app s (o_reliableWrites _ o)). simpl.
      destruct (decide (ack = s)) as [<-|Hne].
      * destruct n as [|n].
        -- exists 1%nat. split; [lia|]. change (copies_of ack _) with (copies_of ack o).
           change (copies_of ack _) with (copies_of ack o) in Hc. rewrite Hc, filter_cons_True by done.
           split; [done|]. intros rw. rewrite lookup_insert_eq. intros [= <-]. simpl. lia.
        -- destruct Hnew. apply list_elem_of_omap. exists (ack, 1). split; [|done].
           assert ((ack, 1) ∈ copies_of ack o) as Hin.
           { change (copies_of ack o) with (copies_of ack (o_strand (PReliable packet id ack :: strand o) o)).
             rewrite Hc. unfold tries. simpl. left. }
           unfold copies_of in Hin. by apply list_elem_of_filter in Hin as [_ Hin].
      * exists n. rewrite filter_cons_False by done. rewrite app_nil_r. split; [done|]. split; [done|].
        intros rw. rewrite lookup_insert_ne by done. apply Hr.
  - intros s [Hr Hu]. rewrite Hup in Hu. apply not_elem_of_cons in Hu as [Hne Hu].
    rewrite (copies_of_app s (o_reliableWrites _ o)), filter_cons_False, app_nil_r by (simpl; congruence).
    split; [|done]. split; [|done]. simpl. by rewrite lookup_insert_ne.
Qed.

(** A further copy; the entry has just been given its number. *)
Lemma quieter_log o o' l :
  quieter o o' -> quieter (o_copies (copies o ++ l) o) (o_copies (copies o' ++ l) o').
Proof. intros [A B C D]. split; simpl; try done. by rewrite C. Qed.

Lemma moves_on_again ack rw cs o :
  reliableWrites o !! ack = Some rw -> rw_attempts rw < 3 ->
  let rw' := set_tries (rw_attempts rw + 1) rw in
  moves_on cs o cs (o_copies (copies o ++ [(ack, rw_attempts rw')])
                    (o_reliableWrites (<[ack := rw']> (reliableWrites o)) o)).
Proof.
  intros Hack Ha. simpl. split; [|split]; cycle 2.
  { intros s. unfold budget. rewrite (copies_of_app s (o_reliableWrites _ o)), length_app.
    change (copies_of s (o_reliableWrites _ o)) with (copies_of s o). change (upcoming cs (o_copies _ _)) with (upcoming cs o).
    cbn [reliableWrites o_copies o_reliableWrites]. destruct (decide (ack = s)) as [<-|Hne].
    - rewrite lookup_insert_eq, Hack, filter_cons_True, filter_nil by done. simpl. lia.
    - rewrite lookup_insert_ne, filter_cons_False, filter_nil by (simpl; congruence). simpl. lia. }
  - intros [F T]. split.
    + destruct (T ack) as (n & _ & _ & Hr). destruct (Hr rw Hack) as [En Hn].
      unfold upcoming in *. simpl. rewrite omap_app. simpl. unfold first_copy at 2. simpl.
      destruct (rw_attempts rw + 1 =? 1) eqn:E1; boolp; [lia|]. by rewrite app_nil_r.
    + intros s. destruct (T s) as (n & Hn & Hc & Hr). rewrite (copies_of_app s (o_reliableWrites _ o)). simpl.
      change (copies_of s (o_reliableWrites _ o)) with (copies_of s o). rewrite Hc.
      destruct (decide (ack = s)) as [<-|Hne].
      * destruct (Hr rw Hack) as [En Hn1]. exists (S n). split; [lia|]. rewrite filter_cons_True by done.
        rewrite filter_nil, tries_S, En. split; [do 3 f_equal; lia|].
        intros rw2. rewrite lookup_insert_eq. intros [= <-]. simpl. lia.
      * exists n. rewrite filter_cons_False, app_nil_r by done. split; [done|]. split; [done|].
        intros rw2. rewrite lookup_insert_ne by done. apply Hr.
  - intros s [Hr Hu]. assert (ack <> s) as Hne by congruence.
    rewrite (copies_of_app s (o_reliableWrites _ o)), filter_cons_False, app_nil_r by done.
    split; [|done]. split; [|done]. simpl. by rewrite lookup_insert_ne.
Qed.

Lemma erase_gone ack o : reliableWrites (erase_write ack o).2 !! ack = None.
Proof.
  unfold erase_write. destruct (reliableWrites o !! ack) as [rw|] eqn:E; [|done].
  destruct (cancel_write rw o) as [u o1]. simpl. apply lookup_delete_eq.
Qed.

Lemma moves_on_on_timer ack cs o : moves_on cs o cs (on_timer ack o).2.
Proof.
  unfold on_timer, seq_bind, reads. destruct (reliableWrites o !! ack) as [rw|] eqn:Er;
    [|by apply moves_on_quieter, quieter_same].
  destruct (3 <=? rw_attempts rw) eqn:E3; boolp; [apply moves_on_quieter, quiet_erase|].
  unfold writes. set (rw' := set_tries _ rw). set (o1 := o_reliableWrites (<[ack := rw']> (reliableWrites o)) o).
  pose proof (quiet_SendRaw (rw_packet rw') (rw_protocolId rw') o1) as Hq.
  destruct (SendRaw _ _ o1) as [b o2]. simpl in Hq. destruct b.
  - eapply moves_on_trans; [exact (moves_on_again ack rw cs o Er ltac:(lia))|]. fold rw' o1.
    apply moves_on_quieter. eapply quieter_trans; [|apply quiet_Arm]. exact (quieter_log _ _ _ Hq).
  - apply moves_on_quieter. pose proof (quiet_erase ack o2) as He. pose proof (erase_gone ack o2) as Hg.
    pose proof (quieter_trans _ _ _ Hq He) as [A B C D]. split; try done. intros s rw2 Hs.
    destruct (D s rw2 Hs) as (rw3 & H3 & E3'). unfold o1 in H3. simpl in H3.
    destruct (decide (ack = s)) as [<-|Hne]; [congruence|]. rewrite lookup_insert_ne in H3 by done. eauto.
Qed.

Lemma moves_on_run_posted p cs o : moves_on cs (o_strand (p :: strand o) o) cs (run_posted p o).2.
Proof.
  destruct p as [f|packet id ack|].
  - apply moves_on_quieter. simpl. destruct (closed o); [by apply quieter_same|]. simpl.
    by destruct (writing o); apply quieter_same.
  - simpl. unfold seq_bind.
    pose proof (quiet_erase ack o) as He. destruct (erase_write ack o) as [u o1]. simpl in He.
    eapply moves_on_trans; [|apply moves_on_quieter, (quiet_Arm ack)].
    eapply moves_on_trans; [|exact (moves_on_start packet id ack cs o1)].
    apply moves_on_quieter. destruct He as [A B C D]. split; try done.
    change (ack :: omap posted_ack (strand o1) = ack :: omap posted_ack (strand o)). by rewrite B.
  - apply moves_on_quieter. eapply quieter_trans; [|apply quiet_Close]. by apply quieter_same.
Qed.

(** The numbers of the senders, in any order. *)
Lemma upcoming_senders cs o ts ts' :
  ts ≡ₚ ts' -> upcoming cs (o_senders ts o) ≡ₚ upcoming cs (o_senders ts' o).
Proof. intros Hp. unfold upcoming. simpl. by rewrite Hp. Qed.

Lemma moves_on_sender t rest cs o :
  let '(next, o') := sender_step t o in
  moves_on cs (o_senders (t :: rest) o) cs
    (o_senders (match next with inl t => [t] | inr _ => [] end ++ rest) o').
Proof.
  assert (forall dropped ts o', omap posted_ack (strand o') = omap posted_ack (strand o) ->
    copies o' = copies o -> reliableWrites o' = reliableWrites o ->
    omap sender_ack (t :: rest) = dropped ++ omap sender_ack (ts ++ rest) ->
    moves_on cs (o_senders (t :: rest) o) cs (o_senders (ts ++ rest) o')) as Hmove.
  { intros dropped ts o' E1 E2 E3 E4. apply (moves_on_moved dropped); try done. unfold upcoming.
    cbn [senders strand o_senders]. rewrite E1, E4. rewrite !app_assoc. do 2 apply Permutation_app_tail.
    apply Permutation_app_comm. }
  destruct t as [packet id ack|packet id ack|packet id ack| |packet id ack]; simpl; unfold seq_bind, reads, pure.
  - destruct (closed o); [apply (Hmove (option_list (if 0 <? ack then Some ack else None)) [])|
      apply (Hmove [] [SReserve packet id ack])]; try done. simpl. by destruct (0 <? ack).
  - simpl. destruct (_ <? _); [apply (Hmove (option_list (if 0 <? ack then Some ack else None)) [SGiveBack])|
      apply (Hmove [] [SPost packet id ack])]; try done. simpl. by destruct (0 <? ack).
  - pose proof (quiet_post_frame packet id o) as [E1 E2 E3 _]. unfold post_frame, seq_bind, post, writes in *. simpl in *.
    destruct (ack <=? 0) eqn:Ea; [apply (Hmove [] [])|apply (Hmove [] [SReliable packet id ack])]; try done;
      simpl; destruct (0 <? ack) eqn:Eb; boolp; try done; lia.
  - apply (Hmove [] []); try done. simpl. rewrite omap_app. simpl. by rewrite app_nil_r.
  - apply (moves_on_moved []); try done. unfold upcoming. simpl. rewrite omap_app. simpl.
    apply Permutation_app_head. rewrite app_assoc, <- Permutation_cons_append. done.
Qed.

Lemma moves_on_step e cs o : moves_on (event_ack e ++ cs) o cs (outbox_step e o).2.
Proof.
  destruct e as [packet id ack|i| | |ok|t|t|ack| |]; simpl.
  - apply (moves_on_moved []); try done. unfold upcoming. simpl. rewrite omap_app. simpl.
    destruct (0 <? ack); simpl; [|by rewrite app_nil_r]. rewrite !app_assoc.
    by rewrite <- (Permutation_cons_append (cs ++ _)).
  - destruct (senders o !! i) as [t|] eqn:Et; [|by apply moves_on_quieter, quieter_same].
    set (rest := take i (senders o) ++ drop (S i) (senders o)).
    assert (senders o ≡ₚ t :: rest) as Hp.
    { rewrite <- (take_drop_middle _ _ _ Et) at 1. by rewrite <- Permutation_middle. }
    assert (o_senders (senders o) o = o) as Eo by (by destruct o).
    pose proof (moves_on_sender t rest cs o) as Hs. destruct (sender_step t o) as [next o']. simpl.
    eapply moves_on_trans; [apply (moves_on_moved [] cs o cs (o_senders (t :: rest) o)); try done|].
    { rewrite <- Eo at 1. by apply upcoming_senders. }
    eapply moves_on_trans; [exact Hs|]. apply (moves_on_moved []); try done. apply upcoming_senders.
    unfold rest. rewrite !app_assoc. apply Permutation_app_tail, Permutation_app_comm.
  - unfold run_strand. destruct (strand o) as [|p st] eqn:Es; [by apply moves_on_quieter, quieter_same|].
    pose proof (moves_on_run_posted p cs (o_strand st o)) as Hr. eapply moves_on_trans; [|exact Hr].
    apply moves_on_quieter, quieter_same; try done. simpl. by rewrite Es.
  - destruct (writing o); [by apply moves_on_quieter, quieter_same|apply moves_on_quieter, quiet_write_next|
      by apply moves_on_quieter, quieter_same].
  - apply moves_on_quieter, quiet_write_done.
  - by apply moves_on_quieter, quieter_same.
  - unfold run_timer. destruct (timers o !! t) as [[ack [| |]]|]; try (by apply moves_on_quieter, quieter_same).
    eapply moves_on_trans; [|apply moves_on_on_timer]. by apply moves_on_quieter, quieter_same.
  - apply moves_on_quieter, quiet_erase.
  - by apply moves_on_quieter, quieter_same.
  - apply moves_on_quieter, (quiet_post PClose). done.
Qed.

Lemma moves_on_run es cs o : moves_on ((es ≫= event_ack) ++ cs) o cs (outbox_run es o).
Proof.
  revert o. induction es as [|e es IH]; intros o; [by apply moves_on_quieter, quieter_same|]. simpl.
  eapply moves_on_trans; [|apply IH]. rewrite <- app_assoc. apply moves_on_step.
Qed.

Lemma new_outbox_copies cs : NoDup cs -> copies_ok cs new_outbox.
Proof.
  intros Hn. split; [unfold upcoming; simpl; by rewrite !app_nil_r|]. intros s. exists 0%nat. split; [lia|].
  split; [done|]. intros rw. unfold new_outbox. simpl. by rewrite lookup_empty.
Qed.

Lemma copies_within_budget cs s o : Z.of_nat (length (copies_of s o)) <= budget s cs o.
Proof.
  unfold budget. pose proof (times_nonneg s (upcoming cs o)). destruct (reliableWrites o !! s); lia.
Qed.

(** C19: copies of a reliable frame.  In any interleaving of senders, strand
    handlers, timers, acknowledgements and the end of the session: a frame is
    posted for writing at most three times for each time it was sent reliably.
    When the acknowledgement numbers are distinct its copies are the attempts 1,
    2 and 3, in order, without gap or repetition.  After its acknowledgement has
    been handled no copy follows, if by then no sending of this number is under
    way (with a sender or on the strand) and none comes later; an
    acknowledgement that is handled earlier is forgotten
    ([acknowledged_and_sent_again]). *)
Theorem reliable_three_attempts es :
  (forall s, Z.of_nat (length (copies_of s (outbox_run es new_outbox))) <= 3 * times s (es ≫= event_ack)) /\
  (NoDup (es ≫= event_ack) -> forall s, exists n, (n <= 3)%nat /\ copies_of s (outbox_run es new_outbox) = tries s n) /\
  (forall es1 s es2, es = es1 ++ OAck s :: es2 ->
     s ∉ es2 ≫= event_ack -> s ∉ omap sender_ack (senders (outbox_run es1 new_outbox)) ->
     s ∉ omap posted_ack (strand (outbox_run es1 new_outbox)) ->
     copies_of s (outbox_run es new_outbox) = copies_of s (outbox_run es1 new_outbox)).
Proof.
  pose proof (moves_on_run es [] new_outbox) as (H1 & _ & H3). rewrite app_nil_r in H1, H3. split; [|split].
  - intros s. etransitivity; [apply (copies_within_budget [])|]. etransitivity; [apply H3|].
    unfold budget, upcoming. simpl. rewrite !app_nil_r, lookup_empty. change (copies_of s new_outbox) with ([] : list (Z * Z)). simpl. lia.
  - intros Hn s. destruct (H1 (new_outbox_copies _ Hn)) as [_ T]. destruct (T s) as (n & Hn3 & Hc & _). eauto.
  - intros es1 s es2 -> He Hsend Hstrand. set (o1 := outbox_run es1 new_outbox) in *. set (cs := es2 ≫= event_ack) in *.
    assert (silent cs s (erase_write s o1).2) as Hsil.
    { pose proof (quiet_erase s o1) as [A B _ _]. split; [apply erase_gone|]. unfold upcoming. rewrite A, B.
      by rewrite !elem_of_app; intros [?|[?|?]]. }
    assert (outbox_run (es1 ++ OAck s :: es2) new_outbox = outbox_run es2 (erase_write s o1).2) as ->.
    { unfold outbox_run at 1. rewrite foldl_app. done. }
    pose proof (moves_on_run es2 [] (erase_write s o1).2) as (_ & H2 & _). rewrite app_nil_r in H2.
    destruct (H2 s Hsil) as [_ ->]. pose proof (quiet_erase s o1) as [_ _ C _]. unfold copies_of. by rewrite C.
Qed.

(** An acknowledgement can come too early: the frame is written, the client
    answers, and only then the strand makes the entry that is to be erased; the
    frame is sent again. *)
Module EarlyAck.
Definition story : list outbox_event :=
  [OSend "hello" 1006 9; OSender 0; OSender 0; OSender 0; OStrand; OWriteLoop; OWritten true; OAck 9;
   OSender 0; OStrand; OExpire 0; OTimer 0].

Lemma acknowledged_and_sent_again :
  let o := outbox_run story new_outbox in
  copies o = [(9, 1); (9, 2)] /\ written (outbox_run (take 7 story) new_outbox) = [EncodeFrame 1006 "hello"].
Proof. by vm_compute. Qed.
End EarlyAck.

(** A frame is sent, sent again by its timer, and acknowledged. *)
Module Retransmission.
Definition story : list outbox_event :=
  [OSend "hello" 1006 9; OSender 0; OSender 0; OSender 0; OSender 0; OStrand; OWriteLoop; OStrand; OWritten true;
   OExpire 0; OTimer 0; OStrand; OWriteLoop; OWritten true; OExpire 1; OAck 9; OTimer 1].

Lemma reliable_three_attempts_witness :
  copies (outbox_run story new_outbox) = [(9, 1); (9, 2)] /\
  length (written (outbox_run story new_outbox)) = 2%nat /\
  (exists n, (n <= 3)%nat /\ copies_of 9 (outbox_run story new_outbox) = tries 9 n) /\
  copies_of 9 (outbox_run story new_outbox) = copies_of 9 (outbox_run (take 15 story) new_outbox).
Proof.
  split; [by vm_compute|]. split; [by vm_compute|]. destruct (reliable_three_attempts story) as (_ & H2 & H3). split.
  - apply H2. simpl. apply NoDup_singleton.
  - apply (H3 (take 15 story) 9 (drop 16 story)); [reflexivity|apply (bool_decide_unpack _); vm_compute; exact I..].
Defined.
End Retransmission.

(** The response to QUIT can be lost: a write that ends while QUIT is handled
    leaves the queue empty with [closeAfterWrite] set, so [WriteLoop] closes the
    connection before the posted response reaches the queue. *)
Module Quit.
Definition story : list outbox_event :=
  [OSend "hello" 1006 0; OSender 0; OSender 0; OSender 0; OStrand; OWriteLoop;
   OSend "bye" 1016 0; OSender 0; OSender 0; OSender 0; OCloseAfterWrite;
   OWritten true; OStrand].

Lemma quit_response_lost :
  let o := outbox_run story new_outbox in
  taken o = [EncodeFrame 1006 "hello"; EncodeFrame 1016 "bye"] /\ written o = [EncodeFrame 1006 "hello"] /\
  closed o = true /\ on_the_way o = [].
Proof. by vm_compute. Qed.
End Quit.
