(* ===== verification/Gateway.v ===== *)
(** * The connection gateway

    [GatewaySession] (its reading side), [SessionRegistry] and [GatewayServer] of
    [src/server/gateway/src], composed with the links to the message nodes and the
    sending side of each connection.  A session's coroutine runs on its strand
    and is suspended while a call runs in the business pool: [coroutine] says
    where it stands.  A call of [MessageLinkManager::Forward] or of
    [SessionRegistry::Deliver] is one step here; what other threads may do inside
    them is the subject of [Links] and [Outbox]. *)

From S2P Require Import Prelude Const Packet Frame Redis Store Mysql Pools Transport Links Outbox.

(** ** State *)

(** [GatewaySession::AuthResult] *)
Record AuthResult := mkAuthResult { au_error : Z; au_response : Packet; au_lease : SessionLease }.

(** Where [Run] stands: reading; in [Authenticate], before it, before the
    Redis call of [Bind], before the rest of [Bind], and back; in [Refresh] and
    back; in [Remove], before its lock and before its Redis call; finished. *)
Inductive coroutine :=
  | RReading
  | RLogin (request : Packet)
  | RBinding (uid : Z) (info : UserInfo)
  | RBound (uid : Z) (info : UserInfo) (lease : SessionLease)
  | RLoggedIn (result : AuthResult)
  | RRefreshing (lease : SessionLease) (protocolId : Z) (request : Packet)
  | RRefreshed (refreshed : bool) (protocolId : Z) (request : Packet)
  | RRemoving (uid : Z) (lease : SessionLease)
  | RClearing (uid : Z) (lease : SessionLease)
  | RDone.

(** A [GatewaySession]; times are milliseconds of the steady clock. *)
Record session := mkSession {
  se_connectionId : string; se_userId : Z; se_lease : SessionLease; se_requestSequence : Z;
  se_lastLeaseRefresh : Z; se_rateWindowStarted : Z; se_commands : Z; se_out : outbox;
  se_run : coroutine }.

Definition with_se_connectionId x se := mkSession x (se_userId se) (se_lease se) (se_requestSequence se)
  (se_lastLeaseRefresh se) (se_rateWindowStarted se) (se_commands se) (se_out se) (se_run se).
Definition with_se_userId x se := mkSession (se_connectionId se) x (se_lease se) (se_requestSequence se)
  (se_lastLeaseRefresh se) (se_rateWindowStarted se) (se_commands se) (se_out se) (se_run se).
Definition with_se_lease x se := mkSession (se_connectionId se) (se_userId se) x (se_requestSequence se)
  (se_lastLeaseRefresh se) (se_rateWindowStarted se) (se_commands se) (se_out se) (se_run se).
Definition with_se_requestSequence x se := mkSession (se_connectionId se) (se_userId se) (se_lease se) x
  (se_lastLeaseRefresh se) (se_rateWindowStarted se) (se_commands se) (se_out se) (se_run se).
Definition with_se_lastLeaseRefresh x se := mkSession (se_connectionId se) (se_userId se) (se_lease se)
  (se_requestSequence se) x (se_rateWindowStarted se) (se_commands se) (se_out se) (se_run se).
Definition with_se_rateWindowStarted x se := mkSession (se_connectionId se) (se_userId se) (se_lease se)
  (se_requestSequence se) (se_lastLeaseRefresh se) x (se_commands se) (se_out se) (se_run se).
Definition with_se_commands x se := mkSession (se_connectionId se) (se_userId se) (se_lease se)
  (se_requestSequence se) (se_lastLeaseRefresh se) (se_rateWindowStarted se) x (se_out se) (se_run se).
Definition with_se_out x se := mkSession (se_connectionId se) (se_userId se) (se_lease se)
  (se_requestSequence se) (se_lastLeaseRefresh se) (se_rateWindowStarted se) (se_commands se) x (se_run
  se).
Definition with_se_run x se := mkSession (se_connectionId se) (se_userId se) (se_lease se)
  (se_requestSequence se) (se_lastLeaseRefresh se) (se_rateWindowStarted se) (se_commands se) (se_out
  se) x.

(** The sessions are shared objects known by a number; [gw_sessions] is the
    registry, whose pointers are weak: an object that is gone cannot be locked.
    A callback of [Forward] is known by its place in [gw_callbacks]: its session
    and whether a response is expected.  Two fields only record what happened:
    [gw_authenticated], the connections whose token was accepted, with the user;
    [gw_granted], the leases Redis has granted. *)
Record gateway := mkGateway {
  gw_objects : gmap nat session; gw_next : nat; gw_sessions : gmap Z (nat * SessionLease);
  gw_links : manager; gw_redis : redis; gw_sql : store; gw_callbacks : list (nat * bool);
  gw_authenticated : list (string * Z); gw_granted : list (Z * SessionLease) }.

Definition with_gw_objects x g := mkGateway x (gw_next g) (gw_sessions g) (gw_links g) (gw_redis g)
  (gw_sql g) (gw_callbacks g) (gw_authenticated g) (gw_granted g).
Definition with_gw_next x g := mkGateway (gw_objects g) x (gw_sessions g) (gw_links g) (gw_redis g)
  (gw_sql g) (gw_callbacks g) (gw_authenticated g) (gw_granted g).
Definition with_gw_sessions x g := mkGateway (gw_objects g) (gw_next g) x (gw_links g) (gw_redis g)
  (gw_sql g) (gw_callbacks g) (gw_authenticated g) (gw_granted g).
Definition with_gw_links x g := mkGateway (gw_objects g) (gw_next g) (gw_sessions g) x (gw_redis g)
  (gw_sql g) (gw_callbacks g) (gw_authenticated g) (gw_granted g).
Definition with_gw_redis x g := mkGateway (gw_objects g) (gw_next g) (gw_sessions g) (gw_links g) x
  (gw_sql g) (gw_callbacks g) (gw_authenticated g) (gw_granted g).
Definition with_gw_sql x g := mkGateway (gw_objects g) (gw_next g) (gw_sessions g) (gw_links g)
  (gw_redis g) x (gw_callbacks g) (gw_authenticated g) (gw_granted g).
Definition with_gw_callbacks x g := mkGateway (gw_objects g) (gw_next g) (gw_sessions g) (gw_links g)
  (gw_redis g) (gw_sql g) x (gw_authenticated g) (gw_granted g).
Definition with_gw_authenticated x g := mkGateway (gw_objects g) (gw_next g) (gw_sessions g) (gw_links
  g) (gw_redis g) (gw_sql g) (gw_callbacks g) x (gw_granted g).
Definition with_gw_granted x g := mkGateway (gw_objects g) (gw_next g) (gw_sessions g) (gw_links g)
  (gw_redis g) (gw_sql g) (gw_callbacks g) (gw_authenticated g) x.

Abbreviation Gateway := (State gateway).

Definition kDefaultRequestTimeout : Z := 3000.
Definition leaseTtlSeconds : Z := 60.

Section Operations.
Context `{Collation} `{Faults} `{StdHash} `{PacketCodec} `{IterationOrder} `{GatewayIdentity}.

Definition use_redis {A} (f : redis -> A * redis) : Gateway A := fun g =>
  let '(a, r) := f (gw_redis g) in (a, with_gw_redis r g).
Definition use_sql {A} (f : store -> A * store) : Gateway A := fun g =>
  let '(a, s) := f (gw_sql g) in (a, with_gw_sql s g).

Definition update_session (s : nat) (f : session -> session) : Gateway unit :=
  writes (fun g => with_gw_objects (alter f s (gw_objects g)) g).

(** A call on the sending side of a session that is alive. *)
Definition at_out {A} (s : nat) (m : Outbox A) : Gateway (option A) := fun g =>
  match gw_objects g !! s with
  | None => (None, g)
  | Some se =>
      let '(a, o) := m (se_out se) in
      (Some a, with_gw_objects (<[s := with_se_out o se]> (gw_objects g)) g)
  end.
Definition do_out {A} (s : nat) (m : Outbox A) : Gateway unit :=
  let! _ := at_out s m in pure tt.

(** ** [SessionRegistry] *)

(** [Bind] after the lease was granted. *)
Definition BindLocal (uid : Z) (s : nat) (lease : SessionLease) : Gateway unit :=
  let! found := reads (fun g => gw_sessions g !! uid) in
  do! writes (fun g => with_gw_sessions (<[uid := (s, lease)]> (gw_sessions g)) g) in
  match found with
  | Some (old, _) => if decide (old = s) then pure tt else do_out old Close
  | None => pure tt
  end.

(** [Remove] up to the Redis call: whether that call is made. *)
Definition RemoveLocal (uid : Z) (s : nat) : Gateway bool := fun g =>
  match gw_sessions g !! uid with
  | None => (false, g)
  | Some (current, _) =>
      if bool_decide (is_Some (gw_objects g !! current)) && negb (bool_decide (current = s))
      then (false, g)
      else (true, with_gw_sessions (delete uid (gw_sessions g)) g)
  end.

Definition Deliver (d : DeliveryEnvelope) : Gateway DeliveryStatus := fun g =>
  match gw_sessions g !! de_recipient_uid d with
  | None => (DELIVERY_STATUS_OFFLINE, g)
  | Some (s, lease) =>
      match gw_objects g !! s with
      | None => (DELIVERY_STATUS_OFFLINE, g)
      | Some se =>
          if negb (bool_decide (connectionId lease = de_expected_connection_id d)) ||
             negb (uint64 (generation lease) =? de_expected_connection_generation d)
          then (DELIVERY_STATUS_STALE_ROUTE, g)
          else
            let send := match ParseFromString (de_packet d) with
                        | Some packet =>
                            if has_int F_seq packet && (0 <? get_int F_seq packet)
                            then SendReliable (de_packet d) (de_protocol_id d) (get_int F_seq packet)
                            else SendRaw (de_packet d) (de_protocol_id d)
                        | None => SendRaw (de_packet d) (de_protocol_id d)
                        end in
            let '(queued, g) := at_out s send g in
            (if default false queued then DELIVERY_STATUS_QUEUED else DELIVERY_STATUS_BACKPRESSURED, g)
      end
  end.

(** ** Results from the message nodes *)

(** The callback [HandlePacket] gives to [Forward]. *)
Definition run_callback (e : nat * CommandResult) : Gateway unit :=
  let '(cb, result) := e in
  let! found := reads (fun g => gw_callbacks g !! cb) in
  match found with
  | None => pure tt
  | Some (s, expectResponse) =>
      if cr_error result =? ec AuthenticationRequired then do_out s Close
      else if negb expectResponse then pure tt
      else do_out s (SendRaw (cr_packet result) (cr_response_service_id result))
  end.

(** An operation of the manager, with the callbacks it runs. *)
Definition use_links {A} (op : Manager A) : Gateway A := fun g =>
  let '(a, m) := op (gw_links g) in
  let '(_, g') := for_each (drop (length (called (gw_links g))) (called m)) run_callback (with_gw_links m g) in
  (a, g').

(** ** [GatewaySession] *)

Definition SendError (s : nat) (requestId error : Z) (message : string) : Gateway unit :=
  do_out s (SendRaw (SerializeToString (MakeErrorPacket error message))
              (uint32 (getServiceResponseId requestId))).

(** The end of [Run]. *)
Definition finish_reading (s : nat) : Gateway unit :=
  do! do_out s CloseInContext in
  update_session s (fun se =>
    with_se_run (if (0 <? se_userId se) && negb (lease_empty (se_lease se))
                 then RRemoving (se_userId se) (se_lease se) else RDone) se).

(** The condition of the loop of [Run]. *)
Definition next_read (s : nat) : Gateway unit := fun g =>
  match gw_objects g !! s with
  | Some se => if closed (se_out se) then finish_reading s g
               else update_session s (with_se_run RReading) g
  | None => (tt, g)
  end.

(** [connectionId + ":" + requestSequence] *)
Definition NextRequestId (se : session) : string * session :=
  let n := uint64 (se_requestSequence se + 1) in
  (se_connectionId se +:+ ":" +:+ to_string n, with_se_requestSequence n se).

(** The command made of a packet, and the session that has given its id. *)
Definition make_command (unix : Z) (protocolId : Z) (request : Packet) (se : session)
  : CommandEnvelope * session :=
  let actor := se_userId se in
  let request := set_int F_uid actor request in
  let '(request, se) :=
    if negb (has_str F_request_id request) || str_empty (get_str F_request_id request)
    then let '(id, se) := NextRequestId se in (set_str F_request_id id request, se)
    else (request, se) in
  let timeout := if has_int F_request_timeout_ms request && (0 <? get_int F_request_timeout_ms request)
                 then Z.min kDefaultRequestTimeout (get_int F_request_timeout_ms request)
                 else kDefaultRequestTimeout in
  (mkCommandEnvelope (get_str F_request_id request) actor (se_connectionId se) (uint64 (generation (se_lease se))) protocolId
     (if has_int F_conversation_id request then get_int F_conversation_id request else 0)
     (unix + timeout) (SerializeToString request), se).

(** The last part of [HandlePacket]: rate limit, envelope, [Forward]. *)
Definition forward_command (s : nat) (steady unix protocolId : Z) (request : Packet) (se : session)
  : Gateway unit :=
  let se := if 1000 <=? steady - se_rateWindowStarted se
            then with_se_commands 0 (with_se_rateWindowStarted steady se) else se in
  let se := with_se_commands (uint32 (se_commands se + 1)) se in
  if 100 <? se_commands se then
    do! update_session s (fun _ => se) in
    SendError s protocolId (ec ResourceExhausted) "connection command rate exceeded"
  else
    let '(command, se) := make_command unix protocolId request se in
    let expectResponse := negb (protocolId =? sid ID_ACK) in
    do! update_session s (fun _ => se) in
    let! callback := reads (fun g => length (gw_callbacks g)) in
    do! writes (fun g => with_gw_callbacks (gw_callbacks g ++ [(s, expectResponse)]) g) in
    let! taken := use_links (Forward unix command callback) in
    if (taken : bool) then pure tt
    else if expectResponse
    then SendError s protocolId (ec DependencyUnavailable) "no healthy message stream"
    else pure tt.

(** [HandlePacket] after the lease was found fresh or refreshed. *)
Definition handle_command (s : nat) (steady unix protocolId : Z) (request : Packet) : Gateway unit :=
  let! found := reads (fun g => gw_objects g !! s) in
  match found with
  | None => pure tt
  | Some se =>
      if protocolId =? sid ID_PING_REQ then
        do_out s (SendRaw (SerializeToString (empty_packet |> set_int F_uid (se_userId se)
                                                           |> set_int F_error (ec Success)))
                    (sid ID_PING_RSP))
      else if protocolId =? sid ID_USER_QUIT_REQ then
        do! do_out s (SendRaw (SerializeToString (empty_packet |> set_int F_error (ec Success)))
                        (sid ID_USER_QUIT_RSP)) in
        do_out s (writes (o_closeAfterWrite true))
      else if protocolId =? sid ID_ACK then
        do! (if has_int F_seq request && (0 <? get_int F_seq request)
             then do_out s (AcknowledgeTransport (get_int F_seq request)) else pure tt) in
        if get_int F_receipt_type request =? ReceiptType.TRANSPORT then pure tt
        else
          let! found := reads (fun g => gw_objects g !! s) in
          match found with
          | None => pure tt
          | Some se => forward_command s steady unix protocolId request se
          end
      else forward_command s steady unix protocolId request se
  end.

(** [HandlePacket] up to its first suspension; when there is none, the loop of
    [Run] goes on. *)
Definition HandlePacket (s : nat) (steady unix protocolId : Z) (payload : string) : Gateway unit :=
  match ParseFromString payload with
  | None =>
      do! SendError s protocolId (ec JsonParser) "invalid protobuf packet" in
      next_read s
  | Some request =>
      if protocolId =? sid ID_LOGIN_INIT_REQ then update_session s (with_se_run (RLogin request))
      else
        let! found := reads (fun g => gw_objects g !! s) in
        match found with
        | None => pure tt
        | Some se =>
            if se_userId se <=? 0 then
              do! SendError s protocolId (ec AuthenticationRequired) "gateway session is not authenticated" in
              next_read s
            else if 20000 <=? steady - se_lastLeaseRefresh se then
              update_session s (with_se_run (RRefreshing (se_lease se) protocolId request))
            else
              do! handle_command s steady unix protocolId request in
              next_read s
        end
  end.

(** ** The business pool *)

Definition auth_failed (error : ErrorCodes) (message : string) : coroutine :=
  RLoggedIn (mkAuthResult (ec error) (MakeErrorPacket (ec error) message) no_lease).

(** [Authenticate] up to [Bind]; [current] is the session's user. *)
Definition Authenticate (s : nat) (request : Packet) (se : session) (c : call) : Gateway coroutine :=
  let uid := get_int F_uid request in
  let! valid := (if (uid <=? 0) || negb (has_str F_auth_token request) then pure false
                 else use_redis (validateChatAuthToken uid (get_str F_auth_token request) c)) in
  if negb valid then pure (auth_failed TokenInvalid "invalid or expired connection token")
  else if (0 <? se_userId se) && negb (se_userId se =? uid)
  then pure (auth_failed UidInvalid "connection is already bound")
  else
    do! writes (fun g => with_gw_authenticated (gw_authenticated g ++ [(se_connectionId se, uid)]) g) in
    if get_bool F_init request then
      let initialInfo := mkUserInfo uid (get_str F_name request) (get_int F_age request)
                           (get_str F_sex request) (get_str F_head_image_url request) in
      let! inserted := use_sql (insertUserInfo initialInfo) in
      if inserted =? 0 then pure (RBinding uid initialInfo)
      else
        let! info := use_sql (getUserInfo uid) in
        pure (match info with
              | Some info => RBinding uid info
              | None => auth_failed MysqlFailed ""
              end)
    else
      let! info := use_sql (getUserInfo uid) in
      pure (match info with
            | Some info => RBinding uid info
            | None => auth_failed NotFound "user profile not found"
            end).

(** The response of a successful login. *)
Definition login_response (uid : Z) (info : UserInfo) : Packet :=
  empty_packet |> set_int F_uid uid |> set_str F_name (ui_name info) |> set_int F_age (ui_age info)
    |> set_str F_sex (ui_sex info) |> set_str F_head_image_url (ui_headImageURL info)
    |> set_int F_error (ec Success).

(** A section of the pool's work for a session. *)
Definition pool_step (s : nat) (c : call) : Gateway unit :=
  let! found := reads (fun g => gw_objects g !! s) in
  match found with
  | None => pure tt
  | Some se =>
      match se_run se with
      | RLogin request =>
          let! next := Authenticate s request se c in
          update_session s (with_se_run next)
      | RBinding uid info =>
          let! generation := use_redis (bindSessionLease uid gateway_id instance_id (se_connectionId se)
                                          leaseTtlSeconds c) in
          if generation <=? 0 then
            update_session s (with_se_run
              (auth_failed DependencyUnavailable "failed to publish session lease"))
          else
            let lease := mkLease gateway_id instance_id (se_connectionId se) generation in
            do! writes (fun g => with_gw_granted (gw_granted g ++ [(uid, lease)]) g) in
            update_session s (with_se_run (RBound uid info lease))
      | RBound uid info lease =>
          do! BindLocal uid s lease in
          update_session s (with_se_run
            (if lease_empty lease
             then auth_failed DependencyUnavailable "failed to publish session lease"
             else RLoggedIn (mkAuthResult (ec Success) (login_response uid info) lease)))
      | RRefreshing lease protocolId request =>
          let! refreshed := use_redis (refreshSessionLease (se_userId se) lease leaseTtlSeconds c) in
          update_session s (with_se_run (RRefreshed refreshed protocolId request))
      | RRemoving uid lease =>
          let! clear := RemoveLocal uid s in
          update_session s (with_se_run (if (clear : bool) then RClearing uid lease else RDone))
      | RClearing uid lease =>
          let! _ := use_redis (clearSessionLease uid lease c) in
          update_session s (with_se_run RDone)
      | _ => pure tt
      end
  end.

(** The coroutine goes on with the pool's result. *)
Definition resume (s : nat) (steady unix : Z) : Gateway unit :=
  let! found := reads (fun g => gw_objects g !! s) in
  match found with
  | None => pure tt
  | Some se =>
      match se_run se with
      | RLoggedIn result =>
          do! (if au_error result =? ec Success
               then update_session s (fun se =>
                      with_se_lastLeaseRefresh steady
                        (with_se_userId (get_int F_uid (au_response result)) (with_se_lease (au_lease result) se)))
               else pure tt) in
          do! do_out s (SendRaw (SerializeToString (au_response result)) (sid ID_LOGIN_INIT_RSP)) in
          next_read s
      | RRefreshed refreshed protocolId request =>
          if (refreshed : bool) then
            do! update_session s (with_se_lastLeaseRefresh steady) in
            do! handle_command s steady unix protocolId request in
            next_read s
          else
            do! do_out s CloseInContext in
            next_read s
      | _ => pure tt
      end
  end.

(** ** Runs *)

Inductive gateway_event :=
  | GAccept (connectionId : string) (steady : Z)
  | GRead (s : nat) (steady unix : Z) (input : option (Z * string))
  | GPool (s : nat) (c : call)
  | GResume (s : nat) (steady unix : Z)
  | GOut (s : nat) (e : outbox_event)
  | GLink (e : manager_event)
  | GFree (s : nat).

(** The events of a connection that come from outside this file. *)
Definition of_strand (e : outbox_event) : bool :=
  match e with OStrand | OWriteLoop | OWritten _ | OExpire _ | OTimer _ | OClose => true | _ => false end.

Definition gateway_step (e : gateway_event) : Gateway unit :=
  match e with
  | GAccept connection steady => writes (fun g =>
      with_gw_next (S (gw_next g)) (with_gw_objects
        (<[gw_next g := mkSession connection 0 no_lease 0 0 steady 0 new_outbox RReading]> (gw_objects g)) g))
  | GRead s steady unix input =>
      let! found := reads (fun g => gw_objects g !! s) in
      match found with
      | Some se =>
          match se_run se, input with
          | RReading, None => finish_reading s
          | RReading, Some (protocolId, payload) => HandlePacket s steady unix protocolId payload
          | _, _ => pure tt
          end
      | None => pure tt
      end
  | GPool s c => pool_step s c
  | GResume s steady unix => resume s steady unix
  | GOut s e => if of_strand e then do_out s (outbox_step e) else pure tt
  | GLink (LForward _ _ _) => pure tt
  | GLink (LRead now lid _ (Some (MDelivery d))) =>
      let! status := Deliver d in
      use_links (manager_step (LRead now lid (Some status) (Some (MDelivery d))))
  | GLink e => use_links (manager_step e)
  | GFree s => fun g =>
      match gw_objects g !! s with
      | Some se =>
          match se_run se, strand (se_out se), writing (se_out se) with
          | RDone, [], WNone => (tt, with_gw_objects (delete s (gw_objects g)) g)
          | _, _, _ => (tt, g)
          end
      | None => (tt, g)
      end
  end.

Definition gateway_run (es : list gateway_event) (g : gateway) : gateway :=
  foldl (fun g e => (gateway_step e g).2) g es.

Definition new_gateway (r : redis) (d : store) : gateway := mkGateway ∅ 0 ∅ new_manager r d [] [] [].
End Operations.
