(* ===== verification/Identity.v ===== *)
(** * Who a command and a delivery belong to

    Every command that leaves the gateway carries the identity under which its
    connection logged in, whatever the client wrote into it; a delivery reaches
    only the connection it was routed to. *)

From S2P Require Import Prelude Const Packet Frame Redis Store Mysql Pools Transport Links.
From S2P Require Import Forwarding Outbox Gateway.

(** ** The commands in the manager *)

Section Commands.
Context `{StdHash} `{PacketCodec} `{IterationOrder} `{GatewayIdentity}.
Implicit Types P : CommandEnvelope -> Prop.

Definition thread_ok P (t : thread) : Prop :=
  match t with
  | TInsert _ c _ | TSend _ c _ => P c
  | TRetrySend _ p _ _ => P (pn_command p)
  | _ => True
  end.

Record commands_ok P (m : manager) : Prop := {
  co_pending : forall id p, pending m !! id = Some p -> P (pn_command p);
  co_sent : forall e, e ∈ sent m -> P e.1.2;
  co_threads : forall t, t ∈ threads m -> thread_ok P t }.

Lemma commands_ok_mono P Q m : (forall c, P c -> Q c) -> commands_ok P m -> commands_ok Q m.
Proof.
  intros Hpq [A B C]. split; [eauto..|]. intros t Ht. specialize (C t Ht). destruct t; simpl in *; eauto.
Qed.

Lemma commands_ok_books P m m' : books m' = books m -> commands_ok P m -> commands_ok P m'.
Proof. unfold books. intros [= E1 _ _ E2 E3] [A B C]. split; rewrite ?E1, ?E2, ?E3; done. Qed.
Lemma commands_ok_keeps {A} P (op : Manager A) m : keeps_books op -> commands_ok P m -> commands_ok P (op m).2.
Proof. intros Hk. apply commands_ok_books. by apply (Hk (books m)). Qed.

Lemma commands_ok_pending P m t :
  (forall id p, t !! id = Some p -> exists p', P (pn_command p') /\ pn_command p = pn_command p') ->
  commands_ok P m -> commands_ok P (with_pending t m).
Proof. intros Ht [A B C]. split; try done. simpl. intros id p Hp. by destruct (Ht id p Hp) as (p' & ? & ->). Qed.

Lemma commands_ok_insert P m id p : P (pn_command p) -> commands_ok P m -> commands_ok P (with_pending (<[id := p]> (pending m)) m).
Proof.
  intros Hp Hm. apply commands_ok_pending; [|done]. intros id' q. destruct (decide (id = id')) as [<-|Hne].
  - rewrite lookup_insert_eq. intros [= <-]. eauto.
  - rewrite lookup_insert_ne by done. destruct Hm as [A _ _]. eauto.
Qed.

Lemma commands_ok_complete P id f m : commands_ok P m -> commands_ok P (complete id f m).2.
Proof.
  intros Hm. unfold complete. destruct (pending m !! id); [|done]. destruct Hm as [A B C]. split; try done. simpl.
  intros id' q Hq. apply lookup_delete_Some in Hq as [_ Hq]. by apply (A id').
Qed.

Lemma commands_ok_send P lid p again m :
  P (pn_command p) -> commands_ok P m -> commands_ok P (send_command lid p again m).2.
Proof.
  intros Hp [A B C]. pose proof (send_command_books lid p again m) as Hs.
  destruct (send_command lid p again m) as [ok m1]. unfold books in Hs. injection Hs as E1 _ _ E4 E5.
  split; simpl; rewrite ?E1, ?E4, ?E5; try done. intros e He. apply elem_of_app in He as [He|He]; [by apply B|].
  destruct ok; [apply list_elem_of_singleton in He as ->; done|by apply elem_of_nil in He].
Qed.

Lemma thread_step_commands P now t m :
  thread_ok P t -> commands_ok P m ->
  let '(next, m') := thread_step now t m in
  commands_ok P m' /\ forall t', next = Some t' -> thread_ok P t'.
Proof.
  intros Ht Hm. destruct t as [lid c cb|lid c cb|lid|id|node|node [|id rest]|node p id rest|node lid id rest|node]; simpl in *.
  - destruct (pending m !! ce_request_id c) eqn:Hp; simpl; [by split|].
    split; [|by intros t' [= <-]]. 
    destruct (commands_ok_insert P m (ce_request_id c) (mkPending c cb (link_id m lid) 0) Ht Hm). by split.
  - unfold seq_bind. pose proof (commands_ok_send P lid (mkPending c cb "" 0) false m Ht Hm) as Hs.
    destruct (send_command _ _ _ m) as [ok m1]. simpl in *. split; [done|]. intros t' [= <-]. by destruct ok.
  - split; [|done]. exact (commands_ok_keeps P _ m (keeps_IncrementInflight lid) Hm).
  - unfold seq_bind. pose proof (commands_ok_complete P id (fun p =>
      error_result (pn_command p) id ResourceExhausted "message stream queue is full") m Hm) as Hc.
    by destruct (complete _ _ m).
  - split; [done|]. by intros t' [= <-].
  - split; [done|]. by intros t' [= <-].
  - destruct (pending m !! id) as [p|] eqn:Hp; [|split; [done|by intros t' [= <-]]].
    destruct (_ || _); [split; [done|by intros t' [= <-]]|].
    assert (P (pn_command p)) as HP by by apply (co_pending P m Hm id).
    split; [|by intros t' [= <-]]. by apply commands_ok_insert.
  - destruct (_ && _); [split; [done|by intros t' [= <-]]|]. unfold seq_bind, reads.
    destruct (SelectLink _ _ m) as [lid|]; [|split; [done|by intros t' [= <-]]].
    pose proof (commands_ok_send P lid p true m Ht Hm) as Hs. destruct (send_command _ _ _ m) as [ok m1].
    simpl in Hs. destruct ok; [|split; [done|by intros t' [= <-]]].
    split; [|by intros t' [= <-]]. exact (commands_ok_keeps P _ m1 (keeps_IncrementInflight lid) Hs).
  - split; [|by intros t' [= <-]]. destruct (pending m !! id) as [p|] eqn:Hp; [|done].
    apply commands_ok_insert; [|done]. exact (co_pending P m Hm id p Hp).
  - split; [destruct Hm; by split|done].
Qed.

Lemma run_thread_commands P fuel now t m :
  thread_ok P t -> commands_ok P m -> commands_ok P (run_thread fuel now t m).2.
Proof.
  revert t m. induction fuel as [|fuel IH]; intros t m Ht Hm; [done|]. simpl. unfold seq_bind.
  pose proof (thread_step_commands P now t m Ht Hm) as Hs. destruct (thread_step now t m) as [next m1].
  destruct Hs as [H1' H2']. destruct next as [t'|]; [apply IH; auto|done].
Qed.

Lemma Forward_commands P now command cb m :
  P command -> commands_ok P m -> commands_ok P (Forward now command cb m).2.
Proof.
  intros Hc Hm. unfold Forward, seq_bind, ForwardBegin. destruct (str_empty _); [done|].
  destruct (_ <=? _); [done|]. unfold seq_bind, reads. destruct (SelectLink _ _ m) as [lid|]; [|done].
  cbn [pure]. unfold pure. pose proof (run_thread_commands P 4 now (TInsert lid command cb) m Hc Hm) as Hr.
  by destruct (run_thread _ _ _ m).
Qed.
End Commands.

Section Steps.
Context `{StdHash} `{PacketCodec} `{IterationOrder} `{GatewayIdentity}.

Lemma always_keeps {A} P (op : Manager A) : keeps_books op -> always (commands_ok P) op.
Proof. intros Hk m. by apply commands_ok_keeps. Qed.

Lemma always_OnReadDone P now lid h f : always (commands_ok P) (OnReadDone now lid h f).
Proof.
  unfold OnReadDone. destruct f as [f|]; [|apply always_keeps, keeps_update_link].
  apply always_bind; [apply always_keeps, keeps_update_link|]. intros _. apply always_bind.
  { destruct f; apply always_keeps; auto with books. }
  intros _. apply always_bind; [apply always_reads|]. intros node.
  destruct f as [r|r|d|a b|a b|]; simpl; try apply always_pure.
  - destruct (rr_accepted r); [|apply always_pure]. by apply always_keeps, keeps_writes.
  - unfold HandleResult. apply always_bind; [intros m; apply commands_ok_complete|]. intros _.
    apply always_bind; [apply always_reads|]. intros [l|]; [apply always_keeps, keeps_DecrementInflight|apply always_pure].
  - apply always_keeps, keeps_HandleDelivery.
  - apply always_bind; [apply always_reads|]. intros [l|]; [apply always_keeps, keeps_Drain|apply always_pure].
Qed.

(** Every event but [Forward]. *)
Lemma step_commands (P : CommandEnvelope -> Prop) e m :
  (forall now c cb, e <> LForward now c cb) -> commands_ok P m -> commands_ok P (manager_step e m).2.
Proof.
  intros Hne Hm. destruct e as [now c cb|now i|now lid h f|lid ok|lid|node lid|id|now node|now s|now sq|]; simpl.
  - by destruct (Hne now c cb).
  - destruct (threads m !! i) as [t|] eqn:Et; [|done].
    assert (thread_ok P t) as Ht by (apply (co_threads P m Hm), list_elem_of_lookup; eauto).
    pose proof (thread_step_commands P now t m Ht Hm) as Hs. destruct (thread_step now t m) as [next m1].
    destruct Hs as [[A B C] Hn]. split; try done. simpl. intros t' Hin.
    rewrite !elem_of_app in Hin. destruct Hin as [Hin|[Hin|Hin]].
    + apply C. apply elem_of_take in Hin as (j & Hj & _). apply list_elem_of_lookup. by eexists.
    + destruct next; [|by apply elem_of_nil in Hin]. apply list_elem_of_singleton in Hin as ->. by apply Hn.
    + apply C. apply list_elem_of_lookup in Hin as [j Hj]. rewrite lookup_drop in Hj.
      apply list_elem_of_lookup. by eexists.
  - by apply always_OnReadDone.
  - by apply (commands_ok_keeps P _ m (keeps_update_link _ _)).
  - by apply (commands_ok_keeps P _ m (keeps_update_link _ _)).
  - unfold OnLinkDone. destruct (stopping m); [done|]. destruct (links m !! node); [|done].
    destruct (decide _); [|done]. simpl. destruct Hm as [A B C]. destruct (configuredNodes m !! node); split; try done.
    simpl. intros t Ht. apply elem_of_app in Ht as [Ht|Ht]; [by apply C|]. by apply list_elem_of_singleton in Ht as ->.
  - unfold ExpirePending, seq_bind.
    pose proof (commands_ok_complete P id (fun p => error_result (pn_command p) id DeadlineExceeded
      "message command deadline exceeded") m Hm) as Hc. by destruct (complete _ _ m).
  - apply commands_ok_keeps; [apply keeps_Reconnect|done].
  - apply commands_ok_keeps; [apply keeps_ApplyTopology|done].
  - apply commands_ok_keeps; [apply keeps_watch|done].
  - unfold StopManager. destruct (stopping m); [done|].
    assert (keeps_books (for_each (snd <$> iter (links (with_stopping true m))) StopLink)) as Hk by books.
    assert (commands_ok P (with_stopping true m)) as Hm1 by (destruct Hm; by split).
    pose proof (commands_ok_keeps P _ _ Hk Hm1) as [A B C].
    destruct (for_each _ _ _) as [[] m1]. by split.
Qed.
End Steps.

(** ** Identities in the gateway *)

Section Identity.
Context `{Collation} `{Faults} `{StdHash} `{PacketCodec} `{IterationOrder} `{GatewayIdentity}.

(** The connection's token was accepted for the user, and Redis granted the
    lease to them. *)
Definition credential (a : list (string * Z)) (l : list (Z * SessionLease)) (connection : string) (uid : Z)
    (lease : SessionLease) : Prop :=
  (connection, uid) ∈ a /\ (uid, lease) ∈ l /\ connectionId lease = connection.

(** A command under an accepted identity: in the envelope and in the packet. *)
Definition identified (a : list (string * Z)) (l : list (Z * SessionLease)) (c : CommandEnvelope) : Prop :=
  (exists lease, credential a l (ce_connection_id c) (ce_actor_uid c) lease /\
     ce_connection_generation c = uint64 (generation lease)) /\
  exists p, ce_packet c = SerializeToString p /\ get_int F_uid p = ce_actor_uid c /\
    get_str F_request_id p = ce_request_id c /\ ce_request_id c <> "".

Definition run_ok a l (connection : string) (user : Z) (r : coroutine) : Prop :=
  match r with
  | RBinding uid _ => (connection, uid) ∈ a
  | RBound uid _ lease => credential a l connection uid lease
  | RLoggedIn result => au_error result = ec Success ->
      credential a l connection (get_int F_uid (au_response result)) (au_lease result)
  | RRefreshing _ _ _ | RRefreshed _ _ _ => 0 < user
  | _ => True
  end.

Definition session_ok a l (se : session) : Prop :=
  (0 < se_userId se -> credential a l (se_connectionId se) (se_userId se) (se_lease se)) /\
  run_ok a l (se_connectionId se) (se_userId se) (se_run se).

Record gateway_ok (g : gateway) : Prop := {
  g_objects : forall s se, gw_objects g !! s = Some se ->
    session_ok (gw_authenticated g) (gw_granted g) se /\ (s < gw_next g)%nat;
  g_sessions : forall uid s lease, gw_sessions g !! uid = Some (s, lease) ->
    (s < gw_next g)%nat /\ forall se, gw_objects g !! s = Some se ->
      credential (gw_authenticated g) (gw_granted g) (se_connectionId se) uid lease;
  g_commands : commands_ok (identified (gw_authenticated g) (gw_granted g)) (gw_links g) }.

Lemma credential_mono a l a' l' connection uid lease :
  a ⊆ a' -> l ⊆ l' -> credential a l connection uid lease -> credential a' l' connection uid lease.
Proof. intros Ha Hl (A & B & C). split; [by apply Ha|]. split; [by apply Hl|done]. Qed.

Lemma identified_mono a l a' l' c : a ⊆ a' -> l ⊆ l' -> identified a l c -> identified a' l' c.
Proof. intros Ha Hl ((lease & A & B) & C). split; [|done]. exists lease. split; [by eapply credential_mono|done]. Qed.

Lemma session_ok_mono a l a' l' se : a ⊆ a' -> l ⊆ l' -> session_ok a l se -> session_ok a' l' se.
Proof.
  intros Ha Hl [A B]. split; [intros Hu; eapply credential_mono; eauto|].
  destruct (se_run se); simpl in *; eauto using credential_mono.
Qed.

(** ** Operations *)

(** The fields identities live in. *)
Definition same_identity (se se' : session) : Prop :=
  se_connectionId se' = se_connectionId se /\ se_userId se' = se_userId se /\ se_lease se' = se_lease se /\
  se_run se' = se_run se.

Lemma same_identity_ok a l se se' : same_identity se se' -> session_ok a l se -> session_ok a l se'.
Proof. intros (E1 & E2 & E3 & E4) [A B]. unfold session_ok. by rewrite E1, E2, E3, E4. Qed.

(** A session is replaced. *)
Lemma gateway_ok_insert g s se se' :
  gw_objects g !! s = Some se -> se_connectionId se' = se_connectionId se ->
  session_ok (gw_authenticated g) (gw_granted g) se' ->
  gateway_ok g -> gateway_ok (with_gw_objects (<[s := se']> (gw_objects g)) g).
Proof.
  intros Hs Hc Hok [A B C]. split; simpl; try done.
  - intros s2 se2. destruct (decide (s = s2)) as [<-|Hne].
    + rewrite lookup_insert_eq. intros [= <-]. split; [done|]. by destruct (A s se Hs).
    + rewrite lookup_insert_ne by done. apply A.
  - intros uid s2 lease Hl. destruct (B uid s2 lease Hl) as [Hlt Hcr]. split; [done|]. intros se2.
    destruct (decide (s = s2)) as [<-|Hne].
    + rewrite lookup_insert_eq. intros [= <-]. rewrite Hc. by apply Hcr.
    + rewrite lookup_insert_ne by done. apply Hcr.
Qed.

Lemma alter_insert_some (g : gateway) s f se :
  gw_objects g !! s = Some se -> alter f s (gw_objects g) = <[s := f se]> (gw_objects g).
Proof.
  intros Hs. apply map_eq. intros k. destruct (decide (s = k)) as [<-|Hne].
  - by rewrite lookup_alter_eq, lookup_insert_eq, Hs.
  - by rewrite lookup_alter_ne, lookup_insert_ne.
Qed.

(** [Pre]: what is known of the session when it is replaced. *)
Lemma gateway_ok_update s f g :
  (forall se, gw_objects g !! s = Some se -> se_connectionId (f se) = se_connectionId se /\
     (session_ok (gw_authenticated g) (gw_granted g) se -> session_ok (gw_authenticated g) (gw_granted g) (f se))) ->
  gateway_ok g -> gateway_ok (update_session s f g).2.
Proof.
  intros Hf Hok. unfold update_session, writes. simpl. destruct (gw_objects g !! s) as [se|] eqn:Hs.
  - rewrite (alter_insert_some g s f se Hs). destruct (Hf se eq_refl) as [Hc Hs'].
    eapply gateway_ok_insert; eauto. apply Hs'. by apply (g_objects g Hok s).
  - assert (alter f s (gw_objects g) = gw_objects g) as ->; [|by destruct g].
    apply map_eq. intros k. destruct (decide (s = k)) as [<-|Hne].
    + by rewrite lookup_alter_eq, Hs.
    + by rewrite lookup_alter_ne.
Qed.

Lemma always_same s f : (forall se, same_identity se (f se)) -> always gateway_ok (update_session s f).
Proof.
  intros Hf g. apply gateway_ok_update. intros se _. split; [apply Hf|]. apply same_identity_ok, Hf.
Qed.

Lemma always_at_out {A} s (m : Outbox A) : always gateway_ok (at_out s m).
Proof.
  intros g Hok. unfold at_out. destruct (gw_objects g !! s) as [se|] eqn:Hs; [|done].
  destruct (m (se_out se)) as [x o]. simpl. eapply gateway_ok_insert; eauto.
  eapply (same_identity_ok _ _ se); [done|]. by apply (g_objects g Hok s).
Qed.
Lemma always_do_out {A} s (m : Outbox A) : always gateway_ok (do_out s m).
Proof. apply always_bind; [apply always_at_out|]. intros _. apply always_pure. Qed.

Lemma gateway_use_redis {A} (f : redis -> A * redis) : always gateway_ok (use_redis f).
Proof. intros g [A1 B C]. unfold use_redis. destruct (f _). by split. Qed.
Lemma gateway_use_sql {A} (f : store -> A * store) : always gateway_ok (use_sql f).
Proof. intros g [A1 B C]. unfold use_sql. destruct (f _). by split. Qed.

(** Callbacks touch the sending sides alone. *)
Lemma always_run_callback e : always gateway_ok (run_callback e).
Proof.
  destruct e as [cb result]. apply always_bind; [apply always_reads|]. intros [[s expect]|]; [|apply always_pure].
  destruct (_ =? _); [apply always_do_out|]. destruct (negb expect); [apply always_pure|apply always_do_out].
Qed.

Lemma gateway_ok_use_links {A} (op : Manager A) g :
  commands_ok (identified (gw_authenticated g) (gw_granted g)) (op (gw_links g)).2 ->
  gateway_ok g -> gateway_ok (use_links op g).2.
Proof.
  intros Hop [A1 B C]. unfold use_links. destruct (op (gw_links g)) as [a m]. simpl in Hop.
  assert (gateway_ok (with_gw_links m g)) as Hg by by split.
  pose proof (always_for_each gateway_ok (drop (length (called (gw_links g))) (called m)) run_callback
    (fun x _ => always_run_callback x) _ Hg) as Hr. by destruct (for_each _ _ _).
Qed.

(** ** [HandlePacket] *)

Lemma make_command_identified a l unix protocolId request se :
  let '(c, se') := make_command unix protocolId request se in
  same_identity se se' /\ (session_ok a l se -> 0 < se_userId se -> identified a l c).
Proof.
  unfold make_command.
  set (request1 := set_int F_uid (se_userId se) request).
  destruct (negb (has_str F_request_id request1) || str_empty (get_str F_request_id request1)) eqn:E; simpl.
  - split; [done|]. intros [Hc _] Hu. split.
    + exists (se_lease se). split; [by apply Hc|done].
    + eexists. split; [done|]. split; [|split; [done|]].
      * rewrite get_int_set_str. unfold request1. by rewrite get_int_set_int.
      * simpl. rewrite get_str_set_str. simpl. by destruct (se_connectionId se).
  - split; [done|]. intros [Hc _] Hu. split.
    + exists (se_lease se). split; [by apply Hc|done].
    + exists request1. split; [done|]. split; [|split; [done|]].
      * unfold request1. by rewrite get_int_set_int.
      * simpl. apply orb_false_iff in E as [_ E]. by destruct (get_str F_request_id request1).
Qed.

Lemma gateway_ok_forward s steady unix protocolId request se g :
  gw_objects g !! s = Some se -> 0 < se_userId se ->
  gateway_ok g -> gateway_ok (forward_command s steady unix protocolId request se g).2.
Proof.
  intros Hs Hu Hok. unfold forward_command.
  set (se1 := with_se_commands _ _). assert (same_identity se se1) as Hsame.
  { unfold se1. by destruct (1000 <=? _). }
  clearbody se1. pose proof (proj1 (g_objects g Hok s se Hs)) as Hse.
  assert (forall se2, same_identity se se2 -> gateway_ok (update_session s (fun _ => se2) g).2) as Hupd.
  { intros se2 Hid. apply gateway_ok_update; [|done]. intros se0 Hs0. rewrite Hs in Hs0. injection Hs0 as <-.
    split; [apply Hid|]. by apply same_identity_ok. }
  destruct (100 <? se_commands se1).
  - specialize (Hupd se1 Hsame). unfold seq_bind. destruct (update_session s _ g) as [u g1].
    by apply always_do_out.
  - pose proof (make_command_identified (gw_authenticated g) (gw_granted g) unix protocolId request se1) as Hmk.
    destruct (make_command unix protocolId request se1) as [command se2]. destruct Hmk as [Hsame2 Hid].
    assert (same_identity se se2) as Hsame3 by (unfold same_identity in *; intuition congruence).
    specialize (Hupd se2 Hsame3). unfold seq_bind, reads, writes.
    set (g1 := (update_session s (fun _ => se2) g).2) in *.
    change (update_session s (fun _ => se2) g) with (tt, g1). cbv beta iota.
    set (g2 := with_gw_callbacks _ g1).
    assert (gateway_ok g2) as Hok2 by (destruct Hupd; by split).
    assert (identified (gw_authenticated g2) (gw_granted g2) command) as Hc.
    { apply Hid; [by eapply same_identity_ok|]. by destruct Hsame as (_ & -> & _). }
    pose proof (gateway_ok_use_links (Forward unix command (length (gw_callbacks g1))) g2
      (Forward_commands _ unix command _ _ Hc (g_commands g2 Hok2)) Hok2) as Hf.
    destruct (use_links _ g2) as [taken g3]. simpl in Hf.
    destruct taken; [done|]. destruct (negb _); [by apply always_do_out|done].
Qed.

(** The user of a session is known. *)
Definition logged_in (s : nat) (g : gateway) : Prop :=
  forall se, gw_objects g !! s = Some se -> 0 < se_userId se.

Lemma logged_in_at_out {A} s s' (m : Outbox A) : always (logged_in s) (at_out s' m).
Proof.
  intros g Hl. unfold at_out. destruct (gw_objects g !! s') as [se|] eqn:Hs; [|done].
  destruct (m (se_out se)) as [x o]. unfold logged_in. simpl. intros se2.
  destruct (decide (s' = s)) as [->|Hne].
  - rewrite lookup_insert_eq. intros [= <-]. exact (Hl se Hs).
  - rewrite lookup_insert_ne by done. apply Hl.
Qed.

Lemma gateway_ok_handle s steady unix protocolId request g :
  logged_in s g -> gateway_ok g -> gateway_ok (handle_command s steady unix protocolId request g).2.
Proof.
  intros Hl Hok. unfold handle_command, seq_bind at 1, reads at 1.
  destruct (gw_objects g !! s) as [se|] eqn:Hs; [|done].
  destruct (_ =? sid ID_PING_REQ); [by apply always_do_out|].
  destruct (_ =? sid ID_USER_QUIT_REQ).
  { apply (always_bind gateway_ok); [apply always_do_out| |done]. intros _. apply always_do_out. }
  destruct (_ =? sid ID_ACK); [|by apply gateway_ok_forward; [|apply Hl|]].
  set (op := if has_int F_seq request && (0 <? get_int F_seq request)
             then do_out s (AcknowledgeTransport (get_int F_seq request)) else pure tt).
  assert (gateway_ok (op g).2 /\ logged_in s (op g).2) as [Hok1 Hl1].
  { unfold op. destruct (_ && _); [|done]. split; [by apply always_do_out|].
    unfold do_out, seq_bind. pose proof (logged_in_at_out s s (AcknowledgeTransport (get_int F_seq request)) g Hl) as Hx.
    by destruct (at_out _ _ g). }
  unfold seq_bind at 1. destruct (op g) as [u g1]. simpl in Hok1, Hl1.
  destruct (_ =? ReceiptType.TRANSPORT); [done|]. unfold seq_bind, reads.
  destruct (gw_objects g1 !! s) as [se1|] eqn:Hs1; [|done]. by apply gateway_ok_forward; [|apply Hl1|].
Qed.

Lemma always_run_state s r :
  (forall g, gateway_ok g -> forall se, gw_objects g !! s = Some se ->
     run_ok (gw_authenticated g) (gw_granted g) (se_connectionId se) (se_userId se) r) ->
  always gateway_ok (update_session s (with_se_run r)).
Proof.
  intros Hr g Hok. apply gateway_ok_update; [|done]. intros se Hs. split; [done|]. intros [A1 B].
  split; [done|]. exact (Hr g Hok se Hs).
Qed.

Lemma always_finish s : always gateway_ok (finish_reading s).
Proof.
  apply always_bind; [apply always_do_out|]. intros _ g Hok. apply gateway_ok_update; [|done].
  intros se Hs. split; [done|]. intros [A1 B]. split; [done|]. simpl. by destruct (_ && _).
Qed.

Lemma always_next_read s : always gateway_ok (next_read s).
Proof.
  intros g Hok. unfold next_read. destruct (gw_objects g !! s) as [se|]; [|done].
  destruct (closed _); [by apply always_finish|]. by apply always_run_state.
Qed.

Lemma always_HandlePacket s steady unix protocolId payload :
  always gateway_ok (HandlePacket s steady unix protocolId payload).
Proof.
  intros g Hok. unfold HandlePacket. destruct (ParseFromString payload) as [request|].
  2: { apply (always_bind gateway_ok); [apply always_do_out| |done]. intros _. apply always_next_read. }
  destruct (_ =? _); [by apply always_run_state|]. unfold seq_bind at 1, reads.
  destruct (gw_objects g !! s) as [se|] eqn:Hs; [|done]. destruct (se_userId se <=? 0) eqn:Hu; boolp.
  { apply (always_bind gateway_ok); [apply always_do_out| |done]. intros _. apply always_next_read. }
  destruct (20000 <=? _).
  - apply gateway_ok_update; [|done]. intros se' Hs'. rewrite Hs in Hs'. injection Hs' as <-.
    split; [done|]. intros [A1 B]. split; [done|]. simpl. lia.
  - unfold seq_bind. pose proof (gateway_ok_handle s steady unix protocolId request g) as Hh.
    destruct (handle_command _ _ _ _ _ g) as [u g1]. apply always_next_read, Hh; [|done].
    intros se' Hs'. rewrite Hs in Hs'. injection Hs' as <-. lia.
Qed.

(** ** The business pool *)

Lemma run_ok_failed a l connection user (error : ErrorCodes) message :
  ec error <> ec Success -> run_ok a l connection user (auth_failed error message).
Proof. intros Hne. unfold auth_failed. simpl. intros He. by destruct Hne. Qed.

(** [Authenticate] keeps the invariant and returns what [run_ok] allows. *)
Lemma gateway_ok_Authenticate s request se c g :
  gw_objects g !! s = Some se -> gateway_ok g ->
  let '(next, g') := Authenticate s request se c g in
  gateway_ok g' /\ gw_objects g' = gw_objects g /\
  run_ok (gw_authenticated g') (gw_granted g') (se_connectionId se) (se_userId se) next.
Proof.
  intros Hs Hok. unfold Authenticate. unfold seq_bind at 1.
  set (check := if _ || _ then pure false else _).
  assert (gateway_ok (check g).2 /\ gw_objects (check g).2 = gw_objects g) as [Hok1 E1].
  { unfold check. destruct (_ || _); [done|]. split; [by apply gateway_use_redis|].
    unfold use_redis. by destruct (validateChatAuthToken _ _ _ _). }
  destruct (check g) as [valid g1]. simpl in Hok1, E1.
  destruct valid; cbn [negb]; [|split; [done|split; [done|by apply run_ok_failed]]].
  destruct (_ && _); [split; [done|split; [done|by apply run_ok_failed]]|].
  unfold seq_bind at 1, writes. set (uid := get_int F_uid request).
  set (g2 := with_gw_authenticated _ g1).
  assert (gateway_ok g2) as Hok2.
  { assert (gw_authenticated g1 ⊆ gw_authenticated g2) as Hsub by (intros x Hx; apply elem_of_app; by left).
    destruct Hok1 as [A1 B C]. split.
    - intros s' se' Hs'. destruct (A1 s' se' Hs') as [Hse Hlt]. split; [|done]. by eapply session_ok_mono.
    - intros uid' s' lease Hl. destruct (B uid' s' lease Hl) as [Hlt Hc]. split; [done|]. intros se' Hs'.
      eapply credential_mono; [exact Hsub|done|by apply Hc].
    - eapply commands_ok_mono; [|exact C]. intros cmd. by apply identified_mono. }
  assert ((se_connectionId se, uid) ∈ gw_authenticated g2) as Hin by (apply elem_of_app; right; by left).
  assert (gw_objects g2 = gw_objects g) as E2 by done.
  assert (forall (k : option UserInfo -> coroutine),
    (forall info, (exists i, k info = RBinding uid i) \/ exists e m, ec e <> ec Success /\ k info = auth_failed e m) ->
    forall g3, gateway_ok g3 -> gw_objects g3 = gw_objects g -> gw_authenticated g3 = gw_authenticated g2 ->
    let '(next, g') := (let! info := use_sql (getUserInfo uid) in pure (k info)) g3 in
    gateway_ok g' /\ gw_objects g' = gw_objects g /\
    run_ok (gw_authenticated g') (gw_granted g') (se_connectionId se) (se_userId se) next) as Hlook.
  { intros k Hk g3 Hok3 E3 E3'. unfold seq_bind.
    pose proof (gateway_use_sql (getUserInfo uid) g3 Hok3) as Hq. unfold use_sql in *.
    destruct (getUserInfo uid (gw_sql g3)) as [info sq]. simpl in *. split; [done|]. split; [done|].
    destruct (Hk info) as [[i ->]|(e & m & Hne & ->)]; [simpl; by rewrite E3'|by apply run_ok_failed]. }
  destruct (get_bool F_init request).
  - unfold seq_bind at 1. set (ins := insertUserInfo _). pose proof (gateway_use_sql ins g2 Hok2) as Hq.
    unfold use_sql at 1. unfold use_sql at 1 in Hq. destruct (ins (gw_sql g2)) as [inserted sq]. simpl in Hq.
    destruct (inserted =? 0); [by split|]. apply Hlook; try done. intros [i|]; [left; by eexists|right; by exists MysqlFailed, ""].
  - apply Hlook; try done. intros [i|]; [left; by eexists|right; by exists NotFound, "user profile not found"].
Qed.

Lemma gateway_ok_BindLocal uid s lease g :
  (forall se, gw_objects g !! s = Some se ->
     credential (gw_authenticated g) (gw_granted g) (se_connectionId se) uid lease) ->
  (s < gw_next g)%nat -> gateway_ok g -> gateway_ok (BindLocal uid s lease g).2.
Proof.
  intros Hc Hlt Hok. unfold BindLocal, seq_bind, reads, writes. set (g1 := with_gw_sessions _ g).
  assert (gateway_ok g1) as Hok1.
  { destruct Hok as [A1 B C]. split; try done. intros uid' s' lease'. unfold g1. simpl.
    destruct (decide (uid = uid')) as [<-|Hne].
    - rewrite lookup_insert_eq. intros [= <- <-]. by split.
    - rewrite lookup_insert_ne by done. apply B. }
  destruct (gw_sessions g !! uid) as [[old lease']|]; [|done]. destruct (decide _); [done|].
  by apply always_do_out.
Qed.

Lemma always_RemoveLocal uid s : always gateway_ok (RemoveLocal uid s).
Proof.
  intros g Hok. unfold RemoveLocal. destruct (gw_sessions g !! uid) as [[current lease]|]; [|done].
  destruct (_ && _); [done|]. destruct Hok as [A1 B C]. split; try done. simpl.
  intros uid' s' lease' Hl. apply lookup_delete_Some in Hl as [_ Hl]. by apply (B uid' s' lease').
Qed.

(** A session goes on; what it goes on with is allowed. *)
Lemma gateway_ok_run s r g :
  (forall se, gw_objects g !! s = Some se ->
     run_ok (gw_authenticated g) (gw_granted g) (se_connectionId se) (se_userId se) r) ->
  gateway_ok g -> gateway_ok (update_session s (with_se_run r) g).2.
Proof.
  intros Hr Hok. apply gateway_ok_update; [|done]. intros se Hs. split; [done|]. intros [A1 B].
  split; [done|]. exact (Hr se Hs).
Qed.

Lemma gateway_ok_granted e g :
  gateway_ok g -> gateway_ok (with_gw_granted (gw_granted g ++ [e]) g).
Proof.
  set (g' := with_gw_granted _ g). assert (gw_granted g ⊆ gw_granted g') as Hsub by (intros x Hx; apply elem_of_app; by left).
  intros [A1 B C]. split.
  - intros s se Hs. destruct (A1 s se Hs) as [Hse Hlt]. split; [|done]. by eapply session_ok_mono.
  - intros uid s lease Hl. destruct (B uid s lease Hl) as [Hlt Hc]. split; [done|]. intros se Hs.
    eapply credential_mono; [done|exact Hsub|by apply Hc].
  - eapply commands_ok_mono; [|exact C]. intros cmd. by apply identified_mono.
Qed.

Lemma gateway_ok_binding s uid info se c g :
  gw_objects g !! s = Some se -> se_run se = RBinding uid info ->
  gateway_ok g -> gateway_ok (pool_step s c g).2.
Proof.
  intros Hs Hr Hok. unfold pool_step, seq_bind at 1, reads. rewrite Hs. cbv beta iota. rewrite Hr.
  pose proof (proj2 (proj1 (g_objects g Hok s se Hs))) as Hrun. rewrite Hr in Hrun. simpl in Hrun.
  set (bind := bindSessionLease uid gateway_id instance_id (se_connectionId se) leaseTtlSeconds c).
  pose proof (gateway_use_redis bind g Hok) as Hok1. unfold seq_bind at 1. unfold use_redis in *.
  destruct (bind (gw_redis g)) as [n r]. simpl in Hok1. set (g1 := with_gw_redis r g) in *.
  destruct (n <=? 0).
  - apply gateway_ok_run; [|done]. intros se' _. by apply run_ok_failed.
  - unfold seq_bind, writes. set (lease := mkLease _ _ _ _). apply gateway_ok_run; [|by apply gateway_ok_granted].
    intros se' Hs'. assert (se' = se) as -> by (unfold g1 in Hs'; simpl in Hs'; congruence).
    split; [done|]. split; [|done]. simpl. apply elem_of_app. right. by left.
Qed.

Lemma gateway_ok_bound s uid info lease se c g :
  gw_objects g !! s = Some se -> se_run se = RBound uid info lease ->
  gateway_ok g -> gateway_ok (pool_step s c g).2.
Proof.
  intros Hs Hr Hok. unfold pool_step, seq_bind at 1, reads. rewrite Hs. cbv beta iota. rewrite Hr.
  destruct (g_objects g Hok s se Hs) as [[_ Hrun] Hlt]. rewrite Hr in Hrun. simpl in Hrun.
  assert (gateway_ok (BindLocal uid s lease g).2) as Hok1.
  { apply gateway_ok_BindLocal; [|done..]. intros se' Hs'. by rewrite Hs in Hs'; injection Hs' as <-. }
  assert (gw_authenticated (BindLocal uid s lease g).2 = gw_authenticated g /\
    gw_granted (BindLocal uid s lease g).2 = gw_granted g /\
    exists se', gw_objects (BindLocal uid s lease g).2 !! s = Some se' /\ se_connectionId se' = se_connectionId se) as (E1 & E2 & se1 & Hs1 & Ec).
  { unfold BindLocal, seq_bind, reads, writes. destruct (gw_sessions g !! uid) as [[old l]|]; [|eauto].
    destruct (decide (old = s)) as [|Hne]; [eauto|]. unfold do_out, at_out, seq_bind. simpl.
    destruct (gw_objects g !! old); simpl; [|eauto]. rewrite lookup_insert_ne by done. eauto. }
  unfold seq_bind. destruct (BindLocal uid s lease g) as [u g1]. simpl in *.
  apply gateway_ok_run; [|done]. intros se' Hs'. rewrite Hs1 in Hs'. injection Hs' as <-.
  rewrite E1, E2, Ec. destruct (lease_empty lease); [by apply run_ok_failed|].
  intros _. exact Hrun.
Qed.

Lemma always_pool_step s c : always gateway_ok (pool_step s c).
Proof.
  intros g Hok. destruct (gw_objects g !! s) as [se|] eqn:Hs.
  2: { unfold pool_step, seq_bind, reads. by rewrite Hs. }
  pose proof (proj2 (proj1 (g_objects g Hok s se Hs))) as Hrun.
  destruct (se_run se) as [|request|uid info|uid info lease|result|lease pid request|b pid request|uid lease|uid lease|] eqn:Hr;
    try (by eapply gateway_ok_binding); try (by eapply gateway_ok_bound);
    unfold pool_step, seq_bind at 1, reads; rewrite Hs; cbv beta iota; rewrite Hr; try done.
  - pose proof (gateway_ok_Authenticate s request se c g Hs Hok) as Ha. unfold seq_bind.
    destruct (Authenticate s request se c g) as [next g1]. destruct Ha as (Hok1 & E1 & Hn).
    apply gateway_ok_run; [|done]. intros se' Hs'. rewrite E1, Hs in Hs'. by injection Hs' as <-.
  - set (refresh := refreshSessionLease _ _ _ _). pose proof (gateway_use_redis refresh g Hok) as Hok1.
    unfold seq_bind. unfold use_redis in *. destruct (refresh (gw_redis g)) as [b r]. simpl in Hok1.
    apply gateway_ok_run; [|done]. simpl. intros se' Hs'. rewrite Hs in Hs'. by injection Hs' as <-.
  - pose proof (always_RemoveLocal uid s g Hok) as Hok1. unfold seq_bind.
    destruct (RemoveLocal uid s g) as [clear g1]. simpl in Hok1.
    apply gateway_ok_run; [|done]. by destruct clear.
  - pose proof (gateway_use_redis (clearSessionLease uid lease c) g Hok) as Hok1. unfold seq_bind.
    destruct (use_redis _ g) as [b g1]. simpl in Hok1. by apply gateway_ok_run.
Qed.

Lemma always_resume s steady unix : always gateway_ok (resume s steady unix).
Proof.
  intros g Hok. unfold resume, seq_bind at 1, reads. destruct (gw_objects g !! s) as [se|] eqn:Hs; [|done].
  cbv beta iota. pose proof (proj2 (proj1 (g_objects g Hok s se Hs))) as Hrun.
  destruct (se_run se) as [|request|uid info|uid info lease|result|lease pid request|b pid request|uid lease|uid lease|] eqn:Hr;
    try done.
  - set (op := if au_error result =? ec Success then update_session s (fun se =>
      with_se_lastLeaseRefresh steady (with_se_userId (get_int F_uid (au_response result))
        (with_se_lease (au_lease result) se))) else pure tt).
    assert (gateway_ok (op g).2) as Hok1.
    { unfold op. destruct (au_error result =? ec Success) eqn:Ee; [|done]. apply gateway_ok_update; [|done].
      intros se' Hs'. rewrite Hs in Hs'. injection Hs' as <-. split; [done|]. intros [A1 B].
      assert (au_error result = ec Success) as Ee' by by apply Z.eqb_eq. split; simpl.
      - intros _. by apply Hrun.
      - rewrite Hr. exact Hrun. }
    unfold seq_bind at 1. destruct (op g) as [u g1]. simpl in Hok1.
    apply (always_bind gateway_ok); [apply always_do_out| |done]. intros _. apply always_next_read.
  - destruct b.
    + unfold seq_bind at 1. assert (gateway_ok (update_session s (with_se_lastLeaseRefresh steady) g).2) as Hok1.
      { by apply always_same. }
      assert (logged_in s (update_session s (with_se_lastLeaseRefresh steady) g).2) as Hl.
      { intros se'. simpl. rewrite lookup_alter_eq, Hs. simpl. intros [= <-]. exact Hrun. }
      destruct (update_session s _ g) as [u g1]. simpl in Hok1, Hl. unfold seq_bind.
      pose proof (gateway_ok_handle s steady unix pid request g1 Hl Hok1) as Hh.
      destruct (handle_command _ _ _ _ _ g1) as [u2 g2]. by apply always_next_read.
    + apply (always_bind gateway_ok); [apply always_do_out| |done]. intros _. apply always_next_read.
Qed.

Lemma gateway_Deliver d : always gateway_ok (Deliver d).
Proof.
  intros g Hok. unfold Deliver. destruct (gw_sessions g !! _) as [[s lease]|]; [|done].
  destruct (gw_objects g !! s) as [se|]; [|done]. destruct (_ || _); [done|]. cbv zeta.
  set (send := match ParseFromString (de_packet d) with Some _ => _ | None => _ end).
  pose proof (always_at_out s send g Hok) as Ho. by destruct (at_out s send g).
Qed.

Lemma always_gateway_step e : always gateway_ok (gateway_step e).
Proof.
  intros g Hok. destruct e as [connection steady|s steady unix input|s c|s steady unix|s e|e|s]; cbn [gateway_step].
  - destruct Hok as [A1 B C]. split; simpl; try done.
    + intros s se. destruct (decide (gw_next g = s)) as [<-|Hne].
      * rewrite lookup_insert_eq. intros [= <-]. split; [|lia]. split; simpl; [lia|done].
      * rewrite lookup_insert_ne by done. intros Hs. destruct (A1 s se Hs). split; [done|lia].
    + intros uid s lease Hl. destruct (B uid s lease Hl) as [Hlt Hc]. split; [lia|]. intros se.
      rewrite lookup_insert_ne by lia. apply Hc.
  - unfold seq_bind, reads. destruct (gw_objects g !! s) as [se|]; [|done].
    destruct (se_run se); try done. destruct input as [[pid payload]|]; [by apply always_HandlePacket|by apply always_finish].
  - by apply always_pool_step.
  - by apply always_resume.
  - destruct (of_strand e); [by apply always_do_out|done].
  - assert (forall e', (forall now c cb, e' <> LForward now c cb) -> forall g', gateway_ok g' ->
      gateway_ok (use_links (manager_step e') g').2) as Hstep.
    { intros e' Hne g' Hok'. apply gateway_ok_use_links; [|done]. apply step_commands; [done|]. apply Hok'. }
    destruct e as [now c cb|now i|now lid h [f|]|lid ok|lid|node lid|id|now node|now s|now sq|];
      cbv beta iota; try (by apply Hstep).
    + done.
    + destruct f; cbv beta iota; try (by apply Hstep). unfold seq_bind. pose proof (gateway_Deliver d g Hok) as Hd.
      destruct (Deliver d g) as [status g1]. by apply Hstep.
  - destruct (gw_objects g !! s) as [se|] eqn:Hs; [|done]. destruct (se_run se); try done.
    destruct (strand _); [|done]. destruct (writing _); [|done..]. destruct Hok as [A1 B C]. split; simpl; try done.
    + intros s' se' Hs'. apply lookup_delete_Some in Hs' as [_ Hs']. by apply A1.
    + intros uid s' lease Hl. destruct (B uid s' lease Hl) as [Hlt Hc]. split; [done|]. intros se' Hs'.
      apply lookup_delete_Some in Hs' as [_ Hs']. by apply Hc.
Qed.

Lemma gateway_run_ok es g : gateway_ok g -> gateway_ok (gateway_run es g).
Proof. revert g. induction es as [|e es IH]; intros g Hok; [done|]. by apply IH, always_gateway_step. Qed.

Lemma new_gateway_ok r d : gateway_ok (new_gateway r d).
Proof.
  split; simpl.
  - intros s se. by rewrite lookup_empty.
  - intros uid s lease. by rewrite lookup_empty.
  - split; simpl; [intros id p; by rewrite lookup_empty| |]; intros x Hx; by apply elem_of_nil in Hx.
Qed.

(** C6: what the gateway forwards is sent under the identity of the login.  In
    any run of the gateway, with any number of connections, every command handed
    to a message node carries, in its envelope, a connection whose token was
    accepted for the user it names, with the generation Redis granted to them;
    and, in its packet, the same user and the request id it is filed under,
    whatever the client put there.  A connection without login sends nothing. *)
Theorem forwarded_command_identity es r d :
  let g := gateway_run es (new_gateway r d) in
  Forall (fun e => identified (gw_authenticated g) (gw_granted g) e.1.2) (sent (gw_links g)).
Proof.
  cbv zeta. apply Forall_forall. intros e He.
  exact (co_sent _ _ (g_commands _ (gateway_run_ok es _ (new_gateway_ok r d))) e He).
Qed.

(** ** Deliveries *)

Lemma SendReliable_effect packet id ack o :
  let '(b, o') := SendReliable packet id ack o in
  if b then closed o = false /\ queuedWrites o < kMaxQueuedWrites /\ taken o' = taken o ++ [EncodeFrame id packet]
  else (closed o = true \/ kMaxQueuedWrites <= queuedWrites o) /\ taken o' = taken o.
Proof.
  rewrite <- sections_agree. destruct o as [c n q w ca rel ts nt st se wr tk co]. cbn [run_sender sender_step].
  unfold seq_bind, reads, pure. simpl. destruct c; [split; [by left|done]|].
  unfold seq_bind, reads, count, writes. simpl. destruct (kMaxQueuedWrites <? n + 1) eqn:E; boolp; simpl.
  - split; [right; simpl in E; lia|done].
  - unfold seq_bind. simpl. destruct (ack <=? 0); simpl; (split; [done|split; [simpl in E; lia|done]]).
Qed.

(** The session a delivery is routed to. *)
Definition routed (g : gateway) (d : DeliveryEnvelope) (s : nat) (se : session) (lease : SessionLease) : Prop :=
  gw_sessions g !! de_recipient_uid d = Some (s, lease) /\ gw_objects g !! s = Some se /\
  credential (gw_authenticated g) (gw_granted g) (se_connectionId se) (de_recipient_uid d) lease.
Definition same_route (d : DeliveryEnvelope) (lease : SessionLease) : Prop :=
  connectionId lease = de_expected_connection_id d /\
  uint64 (generation lease) = de_expected_connection_generation d.

(** C18: a delivery reaches the connection it was routed to, or none.  In any
    reachable state of the gateway [Deliver] answers QUEUED exactly when the
    recipient's session is alive, is the connection and generation the message
    node saw, is open and has room; then its frame is posted there, behind all
    others, and nothing else changes.  That connection has logged in as the
    recipient.  A session that differs gives STALE_ROUTE, no session OFFLINE, a
    closed or full one BACKPRESSURED, and no frame is posted. *)
Theorem deliver_fenced es r db d :
  let g := gateway_run es (new_gateway r db) in
  let '(status, g') := Deliver d g in
  match status with
  | DELIVERY_STATUS_QUEUED => exists s se lease o',
      routed g d s se lease /\ same_route d lease /\
      closed (se_out se) = false /\ queuedWrites (se_out se) < kMaxQueuedWrites /\
      g' = with_gw_objects (<[s := with_se_out o' se]> (gw_objects g)) g /\
      taken o' = taken (se_out se) ++ [EncodeFrame (de_protocol_id d) (de_packet d)]
  | DELIVERY_STATUS_BACKPRESSURED => exists s se lease o',
      routed g d s se lease /\ same_route d lease /\
      (closed (se_out se) = true \/ kMaxQueuedWrites <= queuedWrites (se_out se)) /\
      g' = with_gw_objects (<[s := with_se_out o' se]> (gw_objects g)) g /\ taken o' = taken (se_out se)
  | DELIVERY_STATUS_STALE_ROUTE => g' = g /\ exists s se lease, routed g d s se lease /\ ~ same_route d lease
  | DELIVERY_STATUS_OFFLINE => g' = g /\ forall s lease,
      gw_sessions g !! de_recipient_uid d = Some (s, lease) -> gw_objects g !! s = None
  | DELIVERY_STATUS_UNSPECIFIED => False
  end.
Proof.
  cbv zeta. pose proof (gateway_run_ok es _ (new_gateway_ok r db)) as Hok. set (g := gateway_run es _) in *. clearbody g.
  unfold Deliver. destruct (gw_sessions g !! de_recipient_uid d) as [[s lease]|] eqn:El; [|done].
  destruct (gw_objects g !! s) as [se|] eqn:Es; [|split; [done|]; intros s' l' [= <- <-]; done].
  assert (routed g d s se lease) as Hrt.
  { split; [done|]. split; [done|]. destruct (g_sessions g Hok _ s lease El) as [_ Hc]. by apply Hc. }
  destruct (bool_decide (connectionId lease = de_expected_connection_id d)) eqn:E1; boolp; simpl.
  2: { split; [done|]. exists s, se, lease. split; [done|]. by intros [? _]. }
  destruct (uint64 (generation lease) =? de_expected_connection_generation d) eqn:E2; boolp; simpl.
  2: { split; [done|]. exists s, se, lease. split; [done|]. by intros [_ ?]. }
  set (send := match ParseFromString (de_packet d) with Some _ => _ | None => _ end).
  assert (exists ack, send = SendReliable (de_packet d) (de_protocol_id d) ack) as [ack ->].
  { unfold send. destruct (ParseFromString (de_packet d)) as [p|]; [|by exists 0].
    destruct (_ && _); [by eexists|by exists 0]. }
  unfold at_out. rewrite Es. pose proof (SendReliable_effect (de_packet d) (de_protocol_id d) ack (se_out se)) as He.
  destruct (SendReliable _ _ _ _) as [b o']. destruct b; simpl; exists s, se, lease, o'; intuition done.
Qed.
End Identity.

(** ** A login, a forged sender, and two logins at once *)

Module Login.
#[local] Existing Instances TwoNodes.map_order TwoNodes.hash TwoNodes.identity bits_codec.
Definition collation : Collation := fun s => s.
Definition faults : Faults := fun _ => FNone.
#[local] Existing Instances collation faults.

Definition tokens : redis := (setChatAuthToken 7 "secret" 600 (ok_at 0) ∅).2.
Definition database : store :=
  mkStore (set_userInfo {[ 7 := mkUserInfo 7 "ann" 30 "f" "" ]} empty_db) None 1 1 0.

Definition login : Packet := empty_packet |> set_int F_uid 7 |> set_str F_auth_token "secret".
(** The client claims to be user 99. *)
Definition forged : Packet := empty_packet |> set_int F_uid 99 |> set_str F_data "hi".

Definition packet (id : ServiceID) (p : Packet) : option (Z * string) := Some (sid id, SerializeToString p).
Definition links_up : list gateway_event :=
  [GLink (LTopology 0 TwoNodes.nodes); GLink (TwoNodes.up 0); GLink (TwoNodes.up 1)].
Definition logged_in : list gateway_event :=
  links_up ++ [GAccept "c1" 0; GRead 0 0 1000 (packet ID_TEXT_SEND_REQ forged);
    GRead 0 10 1010 (packet ID_LOGIN_INIT_REQ login); GPool 0 (ok_at 20); GPool 0 (ok_at 21); GPool 0 (ok_at 22);
    GResume 0 23 1023; GRead 0 30 1030 (packet ID_TEXT_SEND_REQ forged)].

Definition summary (c : CommandEnvelope) : string * Z * string * Z * Z :=
  (ce_request_id c, ce_actor_uid c, ce_connection_id c, ce_connection_generation c, ce_deadline_unix_ms c).

(** Before the login nothing is sent; after it the forged sender is replaced. *)
Lemma forwarded_command_identity_witness :
  let g := gateway_run logged_in (new_gateway tokens database) in
  (summary <$> (sent (gw_links g)).*1.*2) = [("c1:1", 7, "c1", 1, 4030)] /\
  Forall (fun e => identified (gw_authenticated g) (gw_granted g) e.1.2) (sent (gw_links g)).
Proof.
  split; [by vm_compute|].
  exact (forwarded_command_identity (H3 := TwoNodes.map_order) logged_in tokens database).
Defined.

(** Two connections log in as the same user at once.  The first is given
    generation 1, the second generation 2; the second enters the registry, then
    the first overwrites it and closes the second.  The registry is left with
    the superseded lease: Redis names the connection that was closed, and every
    delivery it routes is answered STALE_ROUTE. *)
Definition race : list gateway_event :=
  [GAccept "c1" 0; GAccept "c2" 0; GRead 0 10 1010 (packet ID_LOGIN_INIT_REQ login);
   GRead 1 10 1010 (packet ID_LOGIN_INIT_REQ login); GPool 0 (ok_at 20); GPool 1 (ok_at 20);
   GPool 0 (ok_at 21); GPool 1 (ok_at 22); GPool 1 (ok_at 23); GPool 0 (ok_at 24); GOut 1 OStrand].

Lemma concurrent_logins_lose_both :
  let g := gateway_run race (new_gateway tokens database) in
  gw_sessions g !! 7 = Some (0%nat, mkLease "g1" "i1" "c1" 1) /\
  (getSessionLease 7 (ok_at 30) (gw_redis g)).1 = mkLease "g1" "i1" "c2" 2 /\
  (fun se => closed (se_out se)) <$> gw_objects g !! 1%nat = Some true /\
  (Deliver (mkDeliveryEnvelope "d" 7 "c2" 2 1006 5 5 1 "hello") g).1 = DELIVERY_STATUS_STALE_ROUTE.
Proof. by vm_compute. Qed.
End Login.
