(* ===== verification/StateService.v ===== *)
(** * The state service

    [src/server/state/src/service/service.cc], [include/global.h],
    [src/service/imRpc.cc]: the nodes it reads from the configuration, the choice
    of a connection gateway, the topology it gives to gateways, the old routing to
    IM servers.  yaml-cpp and the remote IM server are parameters.  [Crash] is the
    use of a null pointer. *)

From S2P Require Import Prelude.

(** ** Parameters *)

(** [YAML::Node]: [operator[]] finds a key or nothing, [as] fails by throwing. *)
Class YamlCpp := {
  yaml : Type;
  yaml_at : yaml -> string -> option yaml;
  as_int : yaml -> option Z;
  as_ushort : yaml -> option Z;
  as_uint : yaml -> option Z;
  as_uint64 : yaml -> option Z;
  as_string : yaml -> option string;
  as_ushort_range : forall n v, as_ushort n = Some v -> 0 <= v < 2 ^ 16;
  as_uint64_range : forall n v, as_uint64 n = Some v -> 0 <= v < 2 ^ 64 }.

(** ** [global.h] *)

Record ServiceNodeInfo := mkServiceNode {
  sn_id : string; sn_host : string; sn_port : Z; sn_status : string; sn_weight : Z }.

Definition active (n : ServiceNodeInfo) : bool :=
  bool_decide (sn_status n = "active") && negb (str_empty (sn_host n)) && negb (sn_port n =? 0).

Record ImNode := mkImNode {
  im_ip : string; im_port : string; im_rpcPort : string; im_status : string; im_connections : list Z }.

Definition appendConnection (c : Z) (n : ImNode) : ImNode :=
  mkImNode (im_ip n) (im_port n) (im_rpcPort n) (im_status n) (im_connections n ++ [c]).
Definition setStatus (s : string) (n : ImNode) : ImNode :=
  mkImNode (im_ip n) (im_port n) (im_rpcPort n) s (im_connections n).

(** ** The configuration *)

Section Configuration.
Context `{YamlCpp}.

Definition key (n : yaml) (k : string) : option yaml := yaml_at n k.

(** [source[k] ? source[k].as<T>() : otherwise] *)
Definition value_or {A} (as_ : yaml -> option A) (source : yaml) (k : string) (otherwise : A) : option A :=
  match key source k with Some v => as_ v | None => Some otherwise end.

Definition load_node (portKey : string) (source : yaml) : option ServiceNodeInfo :=
  id ← key source "name" ≫= as_string;
  host ← key source "host" ≫= as_string;
  port ← key source portKey ≫= as_ushort;
  status ← value_or as_string source "status" "active";
  weight ← value_or as_uint source "weight" 1;
  Some (mkServiceNode id host port status weight).

(** The loop of [LoadNodes]: an index without an entry is skipped. *)
Fixpoint load_entries (section : yaml) (prefix portKey : string) (indices : list Z)
  : option (list ServiceNodeInfo) :=
  match indices with
  | [] => Some []
  | i :: indices =>
      match key section (prefix +:+ to_string i) with
      | None => load_entries section prefix portKey indices
      | Some source =>
          node ← load_node portKey source;
          nodes ← load_entries section prefix portKey indices;
          Some (node :: nodes)
      end
  end.

Definition LoadNodes (server : yaml) (sectionName prefix totalKey portKey : string)
  : option (list ServiceNodeInfo) :=
  match key server sectionName with
  | None => Some []
  | Some section =>
      match key section totalKey with
      | None => Some []
      | Some t => total ← as_int t; load_entries section prefix portKey (seqZ 1 total)
      end
  end.

(** One entry of the old IM servers: its name, its node and whether it is a
    backup; [None] inside when its status is neither. *)
Definition load_im (im : yaml) : option (option (string * ImNode)) :=
  host ← key im "host" ≫= as_string;
  port ← key im "port" ≫= as_string;
  rpcPort ← key im "rpcPort" ≫= as_string;
  name ← key im "name" ≫= as_string;
  status ← key im "status" ≫= as_string;
  _ ← key im "rpcCount" ≫= as_int;
  Some (if bool_decide (status = "backup") || bool_decide (status = "active")
        then Some (name, mkImNode host port rpcPort status []) else None).
End Configuration.

(** ** State *)

Inductive Status := OK | UNAVAILABLE | CANCELLED | Crash.

Record ConnectUserRsp := mkConnectUserRsp { cr_ip : string; cr_port : Z; cr_node_id : string }.
Definition no_rsp : ConnectUserRsp := mkConnectUserRsp "" 0 "".

Record ServiceNode := mkNode { nd_node_id : string; nd_host : string; nd_port : Z; nd_status : string; nd_weight : Z }.
Record MessageTopology := mkMessageTopology { mt_topology_version : Z; mt_nodes : list ServiceNode }.

(** An entry of [imRpcMap] is false when its pointer is null.  [ss_imRoute] and
    [ss_backupRoute] are the static variables [routeCount]. *)
Record state_service := mkState {
  ss_imNodeMap : gmap string ImNode; ss_imRpcMap : gmap string bool; ss_imNodeName : list string;
  ss_gatewayNodes : list ServiceNodeInfo; ss_messageNodes : list ServiceNodeInfo;
  ss_gatewayRouteCount : Z; ss_topologyVersion : Z; ss_imRoute : Z; ss_backupRoute : Z }.

Definition with_imNodeMap x s := mkState x (ss_imRpcMap s) (ss_imNodeName s) (ss_gatewayNodes s)
  (ss_messageNodes s) (ss_gatewayRouteCount s) (ss_topologyVersion s) (ss_imRoute s) (ss_backupRoute s).
Definition with_imRpcMap x s := mkState (ss_imNodeMap s) x (ss_imNodeName s) (ss_gatewayNodes s)
  (ss_messageNodes s) (ss_gatewayRouteCount s) (ss_topologyVersion s) (ss_imRoute s) (ss_backupRoute s).
Definition with_gatewayRouteCount x s := mkState (ss_imNodeMap s) (ss_imRpcMap s) (ss_imNodeName s)
  (ss_gatewayNodes s) (ss_messageNodes s) x (ss_topologyVersion s) (ss_imRoute s) (ss_backupRoute s).
Definition with_imRoute x s := mkState (ss_imNodeMap s) (ss_imRpcMap s) (ss_imNodeName s)
  (ss_gatewayNodes s) (ss_messageNodes s) (ss_gatewayRouteCount s) (ss_topologyVersion s) x (ss_backupRoute s).
Definition with_backupRoute x s := mkState (ss_imNodeMap s) (ss_imRpcMap s) (ss_imNodeName s)
  (ss_gatewayNodes s) (ss_messageNodes s) (ss_gatewayRouteCount s) (ss_topologyVersion s) (ss_imRoute s) x.

Abbreviation Service := (State state_service).

Section Constructor.
Context `{YamlCpp}.

(** The loop of the constructor over the old IM servers. *)
Fixpoint load_ims (section : yaml) (indices : list Z)
    (s : gmap string ImNode * gmap string bool * list string)
  : option (gmap string ImNode * gmap string bool * list string) :=
  match indices with
  | [] => Some s
  | i :: indices =>
      entry ← key section ("s" +:+ to_string i) ≫= load_im;
      let '(nodes, rpcs, names) := s in
      load_ims section indices
        match entry with
        | None => s
        | Some (name, node) =>
            (<[name := node]> nodes,
             (if bool_decide (im_status node = "backup") then <[name := true]> rpcs else rpcs),
             names ++ [name])
        end
  end.

Definition load_im_section (conf : yaml) : option (gmap string ImNode * gmap string bool * list string) :=
  match key conf "im" with
  | None => Some (∅, ∅, [])
  | Some section =>
      match key section "im-total" with
      | None => Some (∅, ∅, [])
      | Some t => total ← as_int t; load_ims section (seqZ 1 total) (∅, ∅, [])
      end
  end.

Definition StateServiceImpl (conf : yaml) : option state_service :=
  gateways ← LoadNodes conf "connection-gateway" "g" "gateway-total" "port";
  messages ← LoadNodes conf "message" "m" "message-total" "streamPort";
  version ← value_or as_uint64 conf "topology-version" 1;
  ims ← load_im_section conf;
  let '(nodes, rpcs, names) := ims in
  gateways ← match gateways with
             | [] => LoadNodes conf "im" "s" "im-total" "port"
             | _ => Some gateways
             end;
  messages ← match messages with
             | [] => LoadNodes conf "im" "s" "im-total" "rpcPort"
             | _ => Some messages
             end;
  Some (mkState nodes rpcs names gateways messages 0 version 0 0).
End Constructor.

(** ** Operations *)

(** [gatewayNodes[(start + offset) % gatewayNodes.size()]] *)
Definition gateway_at (start offset : Z) (nodes : list ServiceNodeInfo) : option ServiceNodeInfo :=
  nodes !! Z.to_nat (uint64 (start + offset) mod Z.of_nat (length nodes)).

(** The loop over the offsets. *)
Fixpoint pick_from (start : Z) (offsets : list Z) (nodes : list ServiceNodeInfo) : option ServiceNodeInfo :=
  match offsets with
  | [] => None
  | offset :: offsets =>
      match gateway_at start offset nodes with
      | Some node => if active node then Some node else pick_from start offsets nodes
      | None => pick_from start offsets nodes
      end
  end.

Definition PickConnectionGateway : Service (Status * ConnectUserRsp) := fun s =>
  match ss_gatewayNodes s with
  | [] => ((UNAVAILABLE, no_rsp), s)
  | _ =>
      let start := ss_gatewayRouteCount s in
      let s := with_gatewayRouteCount (uint64 (start + 1)) s in
      match pick_from start (seqZ 0 (Z.of_nat (length (ss_gatewayNodes s)))) (ss_gatewayNodes s) with
      | Some node => ((OK, mkConnectUserRsp (sn_host node) (sn_port node) (sn_id node)), s)
      | None => ((UNAVAILABLE, no_rsp), s)
      end
  end.

Definition ListMessageNodes (known_version : Z) (s : state_service) : MessageTopology :=
  if known_version =? ss_topologyVersion s then mkMessageTopology (ss_topologyVersion s) []
  else mkMessageTopology (ss_topologyVersion s)
         ((fun n => mkNode (sn_id n) (sn_host n) (sn_port n) (sn_status n) (sn_weight n)) <$>
            List.filter active (ss_messageNodes s)).

(** [atoi]: optional sign, then digits. *)
Fixpoint digits (s : string) (acc : Z) : Z :=
  match s with
  | String c s =>
      let d := Z.of_N (N_of_ascii c) - 48 in
      if (0 <=? d) && (d <=? 9) then digits s (10 * acc + d) else acc
  | "" => acc
  end.
Fixpoint atoi (s : string) : Z :=
  match s with
  | String "+" s => digits s 0
  | String "-" s => - digits s 0
  | String c t => if bool_decide (c = " "%char) then atoi t else digits s 0
  | "" => 0
  end.

(** The loop of [GetImServer], [n] rounds. *)
Fixpoint im_rounds (n : nat) (uid : Z) : Service (Status * ConnectUserRsp) :=
  match n with
  | O => pure (OK, no_rsp)
  | S n => fun s =>
      match ss_imNodeName s !! Z.to_nat (ss_imRoute s) with
      | None => ((Crash, no_rsp), s)
      | Some nodeIndex =>
          match ss_imNodeMap s !! nodeIndex with
          | None => ((Crash, no_rsp), s)
          | Some node =>
              let total := Z.of_nat (length (ss_imNodeName s)) in
              let s := with_imRoute (if ss_imRoute s + 1 =? total then 0 else ss_imRoute s + 1) s in
              if decide (im_status node = "active")
              then ((OK, mkConnectUserRsp (im_ip node) (atoi (im_port node)) ""),
                    with_imNodeMap (<[nodeIndex := appendConnection uid node]> (ss_imNodeMap s)) s)
              else im_rounds n uid s
          end
      end
  end.

Definition GetImServer (uid : Z) : Service (Status * ConnectUserRsp) := fun s =>
  match ss_imNodeName s with
  | [] => ((UNAVAILABLE, no_rsp), s)
  | _ => im_rounds (length (ss_imNodeName s)) uid s
  end.

(** [ImRpc::ActiveService]: a stub from the pool, then the call. *)
Definition ActiveService (connection answer : bool) : bool := if connection then answer else false.

(** The loop of [ActiveImBackupServer]; [rpc] is what the call to a node gives. *)
Fixpoint backup_rounds (n : nat) (rpc : string -> bool) (uid : Z) : Service (Status * ConnectUserRsp) :=
  match n with
  | O => pure (CANCELLED, no_rsp)
  | S n => fun s =>
      match ss_imNodeName s !! Z.to_nat (ss_backupRoute s) with
      | None => ((Crash, no_rsp), s)
      | Some nodeIndex =>
          match ss_imNodeMap s !! nodeIndex with
          | None => ((Crash, no_rsp), s)
          | Some node =>
              let total := Z.of_nat (length (ss_imNodeName s)) in
              let s := with_backupRoute ((ss_backupRoute s + 1) mod total) s in
              if decide (im_status node = "backup") then
                match ss_imRpcMap s !! nodeIndex with
                | Some true =>
                    if negb (rpc nodeIndex) then ((CANCELLED, no_rsp), s)
                    else
                      let node' := setStatus "active" (appendConnection uid node) in
                      ((OK, mkConnectUserRsp (im_ip node) (atoi (im_port node)) ""),
                       with_imRpcMap (delete nodeIndex (ss_imRpcMap s))
                         (with_imNodeMap (<[nodeIndex := node']> (ss_imNodeMap s)) s))
                | _ => ((Crash, no_rsp), s)
                end
              else backup_rounds n rpc uid s
          end
      end
  end.

Definition ActiveImBackupServer (rpc : string -> bool) (uid : Z) : Service (Status * ConnectUserRsp) := fun s =>
  match ss_imNodeName s with
  | [] => ((UNAVAILABLE, no_rsp), s)
  | _ => backup_rounds (length (ss_imNodeName s)) rpc uid s
  end.

(** [imRpcMap["hunan-im"]] enters a null pointer when there is none. *)
Definition TestNetworkPing (rpc : string -> bool) : Service (Status * string) := fun s =>
  match ss_imRpcMap s !! "hunan-im" with
  | Some true => ((if rpc "hunan-im" then (OK, "Pong!") else (CANCELLED, "")), s)
  | _ => ((CANCELLED, ""), with_imRpcMap (<["hunan-im" := false]> (ss_imRpcMap s)) s)
  end.
