(* ===== verification/Topology.v ===== *)
(** * Placement and topology

    Theorems about [StateService.v], and the gateway's side of the topology
    ([FetchTopology], [LoadConfiguredNodes], the start of
    [MessageLinkManager] in [src/server/gateway/src/MessageLink.cc]) composed with
    it: what a round of [TopologyLoop] leaves when the state service answers. *)

From S2P Require Import Prelude Const Packet Store Pools Transport Links Forwarding Routing StateService.

(** ** The gateway's side *)

(** [None]: the call failed. *)
Definition FetchTopology (known_version : Z) (answer : option MessageTopology) : TopologySnapshot :=
  match answer with
  | None => mkTopology 0 false []
  | Some response =>
      mkTopology (mt_topology_version response)
        (negb (mt_topology_version response =? known_version))
        (omap (fun source =>
           if negb (bool_decide (nd_status source = "active")) || str_empty (nd_host source) || (nd_port source <=? 0)
           then None else Some (mkMessageNode (nd_node_id source) (nd_host source) (uint16 (nd_port source))))
           (mt_nodes response))
  end.

Section Configured.
Context `{YamlCpp}.

Definition load_message_node (source : yaml) : option MessageNode :=
  name ← key source "name" ≫= as_string;
  host ← key source "host" ≫= as_string;
  port ← key source "streamPort" ≫= as_ushort;
  Some (mkMessageNode name host port).

Fixpoint load_message_nodes (message : yaml) (indices : list Z) : option (list MessageNode) :=
  match indices with
  | [] => Some []
  | i :: indices =>
      match key message ("m" +:+ to_string i) with
      | None => load_message_nodes message indices
      | Some source =>
          node ← load_message_node source;
          nodes ← load_message_nodes message indices;
          Some (node :: nodes)
      end
  end.

Definition LoadConfiguredNodes (config : yaml) : option (list MessageNode) :=
  match key config "message" with
  | None => Some []
  | Some message =>
      match key message "message-total" with
      | None => Some []
      | Some t => total ← as_int t; load_message_nodes message (seqZ 1 total)
      end
  end.
End Configured.

Section Rounds.
Context `{IterationOrder} `{GatewayIdentity}.

(** [MessageLinkManager::Start] *)
Definition StartManager (now : Z) (configured : list MessageNode) : Manager unit :=
  ApplyTopology now (mkTopology 0 true configured).

(** The first part of a round of [TopologyLoop], with a state service. *)
Definition fetch_round (now : Z) (answer : Z -> option MessageTopology) : Manager unit := fun m =>
  let snapshot := FetchTopology (topologyVersion m) (answer (topologyVersion m)) in
  if tp_changed snapshot then ApplyTopology now snapshot m else (tt, m).

(** [answer] of a state service that can be reached. *)
Definition served (s : state_service) (known_version : Z) : option MessageTopology :=
  Some (ListMessageNodes known_version s).

(** ** Well-formed services *)

Definition ports_ok (nodes : list ServiceNodeInfo) : Prop := Forall (fun n => 0 <= sn_port n < 2 ^ 16) nodes.

(** The names are nodes, a backup node can be called, the counters are indices. *)
Record service_ok (s : state_service) : Prop := {
  ok_gateways : ports_ok (ss_gatewayNodes s);
  ok_messages : ports_ok (ss_messageNodes s);
  ok_count : 0 <= ss_gatewayRouteCount s < 2 ^ 64;
  ok_names : forall name, name ∈ ss_imNodeName s -> is_Some (ss_imNodeMap s !! name);
  ok_backups : forall name node, ss_imNodeMap s !! name = Some node -> im_status node = "backup" ->
    ss_imRpcMap s !! name = Some true;
  ok_im : 0 <= ss_imRoute s < Z.max 1 (Z.of_nat (length (ss_imNodeName s)));
  ok_backup : 0 <= ss_backupRoute s < Z.max 1 (Z.of_nat (length (ss_imNodeName s))) }.

Lemma ports_ok_entries `{YamlCpp} section prefix portKey l nodes :
  load_entries section prefix portKey l = Some nodes -> ports_ok nodes.
Proof.
  revert nodes. induction l as [|i l IH]; intros nodes; simpl; [intros [= <-]; constructor|].
  destruct (key section _) as [source|]; [|apply IH]. intros Hl. simplify_option_eq.
  constructor; [|by apply IH]. unfold load_node in *. simplify_option_eq. by eapply as_ushort_range.
Qed.

Lemma ports_ok_LoadNodes `{YamlCpp} server sec prefix total portKey nodes :
  LoadNodes server sec prefix total portKey = Some nodes -> ports_ok nodes.
Proof.
  unfold LoadNodes. intros Hl. repeat case_match; simplify_option_eq; [|constructor..].
  by eapply ports_ok_entries.
Qed.

(** What the loop over the old servers builds. *)
Definition ims_ok (s : gmap string ImNode * gmap string bool * list string) : Prop :=
  (forall name, name ∈ s.2 -> is_Some (s.1.1 !! name)) /\
  (forall name node, s.1.1 !! name = Some node -> im_status node = "backup" -> s.1.2 !! name = Some true).

Lemma ims_ok_load `{YamlCpp} section l s s' : ims_ok s -> load_ims section l s = Some s' -> ims_ok s'.
Proof.
  revert s. induction l as [|i l IH]; intros s Hs; [by intros [= <-]|].
  cbn [load_ims]. destruct (key section _ ≫= load_im) as [entry|] eqn:E; [|done].
  destruct s as [[nodes rpcs] names]. cbn. apply IH. destruct entry as [[name node]|]; [|done].
  destruct Hs as [Hn Hb]. cbn in Hn, Hb. split; cbn.
  - intros x Hx. apply elem_of_app in Hx as [Hx|Hx];
      [|apply list_elem_of_singleton in Hx as ->; rewrite lookup_insert_eq; by eexists].
    destruct (decide (x = name)) as [->|Hne]; [rewrite lookup_insert_eq; by eexists|].
    rewrite lookup_insert_ne by done. by apply Hn.
  - intros x y Hx Hy. destruct (decide (x = name)) as [->|Hne].
    + rewrite lookup_insert_eq in Hx. injection Hx as ->. rewrite bool_decide_true by done.
      apply lookup_insert_eq.
    + rewrite lookup_insert_ne in Hx by done. specialize (Hb x y Hx Hy).
      case_bool_decide; [by rewrite lookup_insert_ne|done].
Qed.

(** The constructor builds a well-formed service. *)
Lemma StateServiceImpl_ok `{YamlCpp} conf s : StateServiceImpl conf = Some s -> service_ok s.
Proof.
  unfold StateServiceImpl. intros Hs.
  destruct (LoadNodes conf "connection-gateway" _ _ _) as [gs|] eqn:Eg; [|done].
  destruct (LoadNodes conf "message" _ _ _) as [ms|] eqn:Em; [|done].
  destruct (value_or _ _ _ _) as [v|] eqn:Ev; [|done].
  destruct (load_im_section conf) as [[[nodes rpcs] names]|] eqn:Ei; [|done]. cbn in Hs.
  assert (ims_ok (nodes, rpcs, names)) as [Hn Hb].
  { assert (ims_ok (∅, ∅, [])) as H0' by (split; cbn; [by intros ? ?%not_elem_of_nil|by intros ? ? ?]).
    unfold load_im_section in Ei. repeat case_match; simplify_option_eq; try exact H0'.
    all: by eapply ims_ok_load; [exact H0'|]. }
  destruct (match gs with [] => _ | _ => _ end) as [gs'|] eqn:Eg'; [|done].
  destruct (match ms with [] => _ | _ => _ end) as [ms'|] eqn:Em'; [|done].
  injection Hs as <-. split; cbn; [| |lia|exact Hn|exact Hb|lia|lia].
  - destruct gs; simplify_eq; by eapply ports_ok_LoadNodes.
  - destruct ms; simplify_eq; by eapply ports_ok_LoadNodes.
Qed.
End Rounds.

(** ** Choosing a gateway *)

Definition response_of (n : ServiceNodeInfo) : ConnectUserRsp := mkConnectUserRsp (sn_host n) (sn_port n) (sn_id n).

(** The node [offset] places after the [count]-th, around the list. *)
Definition around (count offset : Z) (nodes : list ServiceNodeInfo) : option ServiceNodeInfo :=
  nodes !! Z.to_nat ((count + offset) mod Z.of_nat (length nodes)).

Lemma gateway_at_around start offset nodes :
  0 <= start + offset < 2 ^ 64 -> gateway_at start offset nodes = around start offset nodes.
Proof. intros Hr. unfold gateway_at, around, uint64. by rewrite wrapU_small. Qed.

Lemma around_is_Some count offset nodes : nodes <> [] -> is_Some (around count offset nodes).
Proof.
  intros Hn. unfold around. apply lookup_lt_is_Some_2. destruct nodes; [done|].
  pose proof (Z.mod_pos_bound (count + offset) (Z.of_nat (length (s :: nodes)))). simpl length in *. lia.
Qed.

(** The loop finds the first active node. *)
Lemma pick_from_first start a k nodes :
  0 <= start + a -> start + a + k <= 2 ^ 64 -> nodes <> [] ->
  match pick_from start (seqZ a k) nodes with
  | Some n => exists d, a <= d < a + k /\ around start d nodes = Some n /\ active n = true /\
      forall e, a <= e < d -> forall n', around start e nodes = Some n' -> active n' = false
  | None => forall e, a <= e < a + k -> forall n', around start e nodes = Some n' -> active n' = false
  end.
Proof.
  intros Ha Hk Hn. remember (Z.to_nat k) as j eqn:Hj. revert a k Ha Hk Hj.
  induction j as [|j IH]; intros a k Ha Hk Hj.
  { rewrite seqZ_nil by lia. simpl. lia. }
  rewrite seqZ_cons by lia. cbn [pick_from]. rewrite gateway_at_around by lia.
  destruct (around_is_Some start a nodes Hn) as [n Hna]. rewrite Hna.
  destruct (active n) eqn:Hact.
  { exists a. split; [lia|]. split; [done|]. split; [done|]. lia. }
  specialize (IH (Z.succ a) (Z.pred k) ltac:(lia) ltac:(lia) ltac:(lia)).
  assert (forall (P : ServiceNodeInfo -> Prop) e, (e = a -> P n) -> (a < e -> forall n', around start e nodes = Some n' -> P n') ->
    a <= e -> forall n', around start e nodes = Some n' -> P n') as Hsplit.
  { intros P e He1 He2 Hle n' Hn'. destruct (decide (e = a)) as [->|]; [|apply He2; [lia|done]].
    rewrite Hna in Hn'. injection Hn' as <-. by apply He1. }
  destruct (pick_from start (seqZ (Z.succ a) (Z.pred k)) nodes) as [n1|].
  - destruct IH as (d & Hd & Hn1 & Ha1 & Hbefore). exists d. split; [lia|]. split; [done|]. split; [done|].
    intros e He. apply (Hsplit (fun n => active n = false)); [done| |lia]. intros He'. apply Hbefore. lia.
  - intros e He. apply (Hsplit (fun n => active n = false)); [done| |lia]. intros He'. apply IH. lia.
Qed.

(** Every index is passed within a turn. *)
Lemma around_covers count (j : nat) nodes n :
  0 <= count -> nodes !! j = Some n ->
  exists d, 0 <= d < Z.of_nat (length nodes) /\ around count d nodes = Some n.
Proof.
  intros Hc Hj. pose proof (lookup_lt_Some _ _ _ Hj) as Hl. set (l := Z.of_nat (length nodes)).
  exists ((Z.of_nat j - count) mod l). split; [apply Z.mod_pos_bound; lia|].
  unfold around. fold l. rewrite Zplus_mod_idemp_r. replace (count + (Z.of_nat j - count)) with (Z.of_nat j) by lia.
  rewrite Z.mod_small by lia. by rewrite Nat2Z.id.
Qed.

Lemma PickConnectionGateway_spec s :
  0 <= ss_gatewayRouteCount s ->
  ss_gatewayRouteCount s + Z.of_nat (length (ss_gatewayNodes s)) <= 2 ^ 64 ->
  let '(answer, s') := PickConnectionGateway s in
  ss_gatewayNodes s' = ss_gatewayNodes s /\
  (ss_gatewayNodes s <> [] -> ss_gatewayRouteCount s' = uint64 (ss_gatewayRouteCount s + 1)) /\
  match pick_from (ss_gatewayRouteCount s) (seqZ 0 (Z.of_nat (length (ss_gatewayNodes s)))) (ss_gatewayNodes s) with
  | Some n => answer = (OK, response_of n)
  | None => answer = (UNAVAILABLE, no_rsp)
  end.
Proof.
  intros Hc Hb. unfold PickConnectionGateway. destruct (ss_gatewayNodes s) as [|n0 l] eqn:En; [by simpl|].
  rewrite <- En in *. destruct (pick_from _ _ _) as [n|]; simpl; by rewrite ?En.
Qed.

(** [k] requests in a row. *)
Fixpoint picks (k : nat) (s : state_service) : list (Status * ConnectUserRsp) :=
  match k with
  | O => []
  | S k => let '(a, s) := PickConnectionGateway s in a :: picks k s
  end.

Lemma picks_lookup k s i :
  (i < k)%nat -> 0 <= ss_gatewayRouteCount s -> ss_gatewayNodes s <> [] ->
  ss_gatewayRouteCount s + Z.of_nat i + Z.of_nat (length (ss_gatewayNodes s)) < 2 ^ 64 ->
  exists si, picks k s !! i = Some (PickConnectionGateway si).1 /\
    ss_gatewayNodes si = ss_gatewayNodes s /\ ss_gatewayRouteCount si = ss_gatewayRouteCount s + Z.of_nat i.
Proof.
  revert s i. induction k as [|k IH]; intros s i Hi Hc Hn Hb; [lia|]. cbn [picks].
  destruct i as [|i]; [exists s; split_and!; [by destruct (PickConnectionGateway s)|done|lia]|].
  pose proof (PickConnectionGateway_spec s Hc ltac:(lia)) as Hp.
  destruct (PickConnectionGateway s) as [a s1]. destruct Hp as (E1 & E2 & _). specialize (E2 Hn).
  unfold uint64 in E2. rewrite wrapU_small in E2 by lia.
  destruct (IH s1 i ltac:(lia) ltac:(lia) ltac:(by rewrite E1) ltac:(rewrite E1, E2; lia)) as (si & Hl & En & Ec).
  exists si. split_and!; [exact Hl|by rewrite En|]. rewrite Ec, E2. lia.
Qed.

(** Placement.  The state service answers with the first active gateway from its
    counter on, and refuses only when none is active; as many calls as there are
    gateways name every active one. *)
Theorem gateway_placement s :
  let nodes := ss_gatewayNodes s in
  let n := length nodes in
  0 <= ss_gatewayRouteCount s -> ss_gatewayRouteCount s + 2 * Z.of_nat n < 2 ^ 64 ->
  match (PickConnectionGateway s).1 with
  | (OK, r) => exists d node, 0 <= d < Z.of_nat n /\ around (ss_gatewayRouteCount s) d nodes = Some node /\
      active node = true /\ r = response_of node /\
      forall e node', 0 <= e < d -> around (ss_gatewayRouteCount s) e nodes = Some node' -> active node' = false
  | (status, r) => status = UNAVAILABLE /\ r = no_rsp /\ forall node, node ∈ nodes -> active node = false
  end /\
  (forall node, node ∈ nodes -> active node = true -> (OK, response_of node) ∈ picks n s).
Proof.
  intros nodes n Hc Hb. split.
  - pose proof (PickConnectionGateway_spec s Hc ltac:(fold nodes; fold n; lia)) as Hp.
    destruct (PickConnectionGateway s) as [a s1]. destruct Hp as (_ & _ & Hp). simpl.
    destruct (decide (nodes = [])) as [E|Hne].
    { fold nodes in Hp. rewrite E in Hp. simpl in Hp. subst a. split_and!; [done..|].
      intros x Hx. rewrite E in Hx. by apply not_elem_of_nil in Hx. }
    pose proof (pick_from_first (ss_gatewayRouteCount s) 0 (Z.of_nat n) nodes ltac:(lia) ltac:(lia) Hne) as Hf.
    fold nodes in Hp. fold n in Hp. destruct (pick_from _ _ _) as [x|]; subst a.
    + destruct Hf as (d & Hd & Hx & Ha & Hbefore). exists d, x. split_and!; [lia..|done|done|done|].
      intros e y He. by apply Hbefore.
    + split_and!; [done..|]. intros x (j & Hj)%list_elem_of_lookup.
      destruct (around_covers (ss_gatewayRouteCount s) j nodes x Hc Hj) as (d & Hd & Hx). by apply (Hf d ltac:(fold n in Hd; lia)).
  - intros node (j & Hj)%list_elem_of_lookup Ha.
    destruct (around_covers (ss_gatewayRouteCount s) j nodes node Hc Hj) as (d & Hd & Hx). fold n in Hd.
    assert (nodes <> []) as Hne by (intros E; by rewrite E in Hj).
    destruct (picks_lookup n s (Z.to_nat d) ltac:(lia) Hc Hne ltac:(fold nodes; fold n; lia)) as (si & Hl & En & Ec).
    apply list_elem_of_lookup. exists (Z.to_nat d). rewrite Hl. f_equal.
    rewrite Z2Nat.id in Ec by lia.
    pose proof (PickConnectionGateway_spec si ltac:(lia) ltac:(rewrite En, Ec; fold nodes; fold n; lia)) as Hp.
    destruct (PickConnectionGateway si) as [a s1]. destruct Hp as (_ & _ & Hp). simpl.
    rewrite En, Ec in Hp. fold nodes in Hp. fold n in Hp.
    rewrite seqZ_cons in Hp by lia. cbn [pick_from] in Hp. rewrite gateway_at_around in Hp by lia.
    unfold around in Hp, Hx. rewrite Z.add_0_r, Hx, Ha in Hp. done.
Qed.

(** ** A round of the topology loop *)

Section TopologyRound.
Context `{StdHash} `{PacketCodec} `{IterationOrder} `{GatewayIdentity}.

Definition at_version (v : Z) (m : manager) : Prop := topologyVersion m = v.

Lemma version_StopLink v lid : always (at_version v) (StopLink lid).
Proof. by intros m. Qed.

Lemma version_StartLink v now node : always (at_version v) (StartLink now node).
Proof.
  intros m Hm. unfold StartLink. set (m1 := match links m !! mn_id node with Some _ => _ | None => _ end).
  assert (at_version v m1) as H1' by (subst m1; destruct (links m !! mn_id node); [by apply version_StopLink|done]).
  clearbody m1. unfold link_enqueue. cbn [objects with_next with_links with_objects].
  rewrite lookup_insert_eq. destruct (Enqueue _ _) as [ok w]. exact H1'.
Qed.

Lemma version_ApplyTopology now s m :
  topologyVersion (ApplyTopology now s m).2 =
  if tp_changed s && negb (tp_version s =? 0) then tp_version s else topologyVersion m.
Proof.
  set (v := if tp_changed s && negb (tp_version s =? 0) then tp_version s else topologyVersion m).
  unfold ApplyTopology, seq_bind at 1, writes. cbv iota beta.
  set (m1 := if tp_changed s && _ then with_version _ m else m).
  assert (at_version v m1) as Hm by (subst v m1; unfold at_version; by destruct (_ && _)).
  clearbody m1. revert m1 Hm. clearbody v.
  change (always (at_version v) (let! removed := remove_outdated s in
    do! for_each removed StopLink in
    for_each (tp_nodes s) (fun node m => match links m !! mn_id node with
                                         | Some _ => (tt, m) | None => StartLink now node m end))).
  apply always_bind; [by intros m2|]. intros l.
  apply always_bind; [apply always_for_each; intros; apply version_StopLink|intros _].
  apply always_for_each. intros node _ m2 Hm2. destruct (links m2 !! mn_id node); [exact Hm2|].
  by apply version_StartLink.
Qed.

(** The node a message node of the state service becomes. *)
Definition link_node (n : ServiceNodeInfo) : MessageNode := mkMessageNode (sn_id n) (sn_host n) (sn_port n).

Lemma served_nodes known s : ports_ok (ss_messageNodes s) -> known <> ss_topologyVersion s ->
  FetchTopology known (served s known) =
  mkTopology (ss_topologyVersion s) true (link_node <$> List.filter active (ss_messageNodes s)).
Proof.
  intros Hp Hk. unfold FetchTopology, served, ListMessageNodes.
  rewrite (proj2 (Z.eqb_neq _ _)) by done. cbn [mt_topology_version mt_nodes].
  rewrite (proj2 (Z.eqb_neq _ _)) by done. f_equal. unfold ports_ok in Hp.
  induction Hp as [|n l Hn Hp IH]; [done|]. cbn [List.filter].
  destruct (active n) eqn:Ha; [|exact IH]. rewrite !fmap_cons, <- IH. clear IH.
  unfold active in Ha. boolp. cbn [omap list_omap nd_status nd_host nd_port].
  rewrite bool_decide_true by done. rewrite (proj2 (str_empty_false _)) by done.
  rewrite (proj2 (Z.leb_gt _ _)) by lia. simpl. unfold link_node, uint16. by rewrite wrapU_small by lia.
Qed.

(** C28: fetching the topology.  The part of a maintenance round that asks the
    state service and applies the answer, after any run of the manager: when the
    service has a version that is not the manager's (and not 0), the manager has
    that version afterwards and exactly links to the active message nodes, kept
    ones untouched and new ones not yet healthy; when the manager has the
    version already it is left as it is, so a link that ended is not brought
    back here; asking again, or not being answered, changes nothing. *)
Theorem topology_round es now s :
  service_ok s -> ss_topologyVersion s <> 0 ->
  let m := manager_run es new_manager in
  let m' := (fetch_round now (served s) m).2 in
  let nodes := link_node <$> List.filter active (ss_messageNodes s) in
  (forall now', fetch_round now' (served s) m' = (tt, m')) /\
  (forall now', fetch_round now' (fun _ => None) m' = (tt, m')) /\
  (topologyVersion m = ss_topologyVersion s -> m' = m) /\
  (topologyVersion m <> ss_topologyVersion s ->
     topologyVersion m' = ss_topologyVersion s /\
     (forall node, is_Some (links m' !! node) <-> exists n, n ∈ nodes /\ mn_id n = node) /\
     (forall node lid, links m' !! node = Some lid ->
        links m !! node = Some lid /\ objects m' !! lid = objects m !! lid \/
        objects m !! lid = None /\ exists l, objects m' !! lid = Some l /\ lk_node l ∈ nodes /\
          mn_id (lk_node l) = node /\ lk_healthy l = false)).
Proof.
  intros Hok Hv m m' nodes.
  assert (forall now' m1, topologyVersion m1 = ss_topologyVersion s ->
    fetch_round now' (served s) m1 = (tt, m1)) as Hsame.
  { intros now' m1 E. unfold fetch_round, FetchTopology, served, ListMessageNodes. rewrite E, Z.eqb_refl.
    cbn [mt_topology_version tp_changed]. by rewrite Z.eqb_refl. }
  destruct (decide (topologyVersion m = ss_topologyVersion s)) as [E|E].
  { assert (m' = m) as E' by (unfold m'; by rewrite Hsame).
    split; [intros now'; rewrite E'; by apply Hsame|]. split; [done|]. split; [done|]. intros; congruence. }
  assert (m' = (ApplyTopology now (mkTopology (ss_topologyVersion s) true nodes) m).2) as E'.
  { unfold m', fetch_round. rewrite served_nodes by (done || apply Hok). done. }
  assert (topologyVersion m' = ss_topologyVersion s) as Ev.
  { rewrite E', version_ApplyTopology. cbn [tp_changed tp_version].
    by rewrite (proj2 (Z.eqb_neq _ _)) by done. }
  split; [intros now'; by apply Hsame|]. split; [done|]. split; [congruence|]. intros _. split; [exact Ev|].
  pose proof (ApplyTopology_effect now (mkTopology (ss_topologyVersion s) true nodes) m
    ltac:(apply table_run, new_table)) as (_ & Hdom & Hkeep & Hgone & Hnew).
  rewrite <- E' in *. cbn [tp_nodes] in *. split; [exact Hdom|]. intros node lid Hl.
  destruct (Hnew node lid Hl) as [Hold|Hnew']; [left|by right]. split; [done|].
  destruct (outdated (desired (mkTopology (ss_topologyVersion s) true nodes)) (configuredNodes m) node) eqn:Eo.
  - destruct (Hgone node lid Hold Eo) as [_ Hno]. by destruct (Hno node).
  - exact (proj2 (Hkeep node lid Hold Eo)).
Qed.
End TopologyRound.

(** ** The old IM servers *)

Definition backups (s : state_service) : list (string * ImNode) :=
  rows_where (fun _ n => bool_decide (im_status n = "backup")) (ss_imNodeMap s).

(** What every operation keeps. *)
Definition keeps_service (s s' : state_service) : Prop :=
  ss_imNodeName s' = ss_imNodeName s /\ ss_gatewayNodes s' = ss_gatewayNodes s /\
  ss_messageNodes s' = ss_messageNodes s /\ ss_topologyVersion s' = ss_topologyVersion s.

Lemma service_names s i : service_ok s -> 0 <= i < Z.max 1 (Z.of_nat (length (ss_imNodeName s))) ->
  ss_imNodeName s <> [] -> exists name node, ss_imNodeName s !! Z.to_nat i = Some name /\
    ss_imNodeMap s !! name = Some node.
Proof.
  intros Hok Hi Hn. destruct (lookup_lt_is_Some_2 (ss_imNodeName s) (Z.to_nat i)) as [name Hname].
  { destruct (ss_imNodeName s); [done|]. simpl length in *. lia. }
  destruct (ok_names s Hok name) as [node Hnode]; [by eapply list_elem_of_lookup_2|]. by exists name, node.
Qed.

(** Moving the counter. *)
Lemma service_ok_route s i : service_ok s -> 0 <= i < Z.max 1 (Z.of_nat (length (ss_imNodeName s))) ->
  service_ok (with_backupRoute i s) /\ service_ok (with_imRoute i s).
Proof. intros [] Hi. by split; split. Qed.

(** A call of [ActiveImBackupServer] ends in one of three ways: a backup node
    whose call succeeds becomes active; its call fails; there is no backup. *)
Lemma backup_rounds_spec k rpc uid s :
  service_ok s -> ss_imNodeName s <> [] ->
  let '((status, r), s') := backup_rounds k rpc uid s in
  service_ok s' /\ keeps_service s s' /\
  ((status = OK /\ exists name node, ss_imNodeMap s !! name = Some node /\ im_status node = "backup" /\
      rpc name = true /\ r = mkConnectUserRsp (im_ip node) (atoi (im_port node)) "" /\
      ss_imNodeMap s' = <[name := setStatus "active" (appendConnection uid node)]> (ss_imNodeMap s) /\
      ss_imRpcMap s' = delete name (ss_imRpcMap s)) \/
   (status = CANCELLED /\ r = no_rsp /\ ss_imNodeMap s' = ss_imNodeMap s /\ ss_imRpcMap s' = ss_imRpcMap s)).
Proof.
  revert s. induction k as [|k IH]; intros s Hok Hne; [by split_and!; auto|].
  cbn [backup_rounds]. destruct (service_names s _ Hok (ok_backup s Hok) Hne) as (name & node & -> & Hn). rewrite Hn.
  set (s1 := with_backupRoute _ s).
  assert (service_ok s1) as H1'.
  { apply service_ok_route; [done|]. rewrite Z.max_r by (destruct (ss_imNodeName s); [done|simpl; lia]).
    apply Z.mod_pos_bound. destruct (ss_imNodeName s); [done|simpl; lia]. }
  case_decide as Hb.
  2:{ specialize (IH s1 H1' Hne). destruct (backup_rounds k rpc uid s1) as [[status r] s2]. exact IH. }
  change (ss_imRpcMap s1) with (ss_imRpcMap s). rewrite (ok_backups s Hok name node Hn Hb).
  destruct (rpc name) eqn:Hrpc; simpl; [|by split_and!; auto].
  split; [|split; [done|]]. 2:{ left. split; [done|]. by exists name, node. }
  destruct H1'. split; simpl; try done.
  - intros x Hx. destruct (decide (x = name)) as [->|]; [rewrite lookup_insert_eq; by eexists|].
    rewrite lookup_insert_ne by done. by apply ok_names0.
  - intros x y Hx Hy. destruct (decide (x = name)) as [->|].
    { rewrite lookup_insert_eq in Hx. by injection Hx as <-. }
    rewrite lookup_insert_ne in Hx by done. rewrite lookup_delete_ne by done. by eapply ok_backups0.
Qed.

(** The rounds of [GetImServer]: an active node, or an empty answer. *)
Lemma im_rounds_spec k uid s :
  service_ok s -> ss_imNodeName s <> [] ->
  let '((status, r), s') := im_rounds k uid s in
  service_ok s' /\ keeps_service s s' /\ ss_imRpcMap s' = ss_imRpcMap s /\ status = OK /\
  ((exists name node, ss_imNodeMap s !! name = Some node /\ im_status node = "active" /\
      r = mkConnectUserRsp (im_ip node) (atoi (im_port node)) "" /\
      ss_imNodeMap s' = <[name := appendConnection uid node]> (ss_imNodeMap s)) \/
   (r = no_rsp /\ ss_imNodeMap s' = ss_imNodeMap s)).
Proof.
  revert s. induction k as [|k IH]; intros s Hok Hne; [by split_and!; auto|].
  cbn [im_rounds]. destruct (service_names s _ Hok (ok_im s Hok) Hne) as (name & node & -> & Hn). rewrite Hn.
  set (s1 := with_imRoute _ s).
  assert (service_ok s1) as H1'.
  { apply service_ok_route; [done|]. pose proof (ok_im s Hok).
    destruct (ss_imNodeName s); [done|]. simpl length in *. case_match eqn:E; boolp; lia. }
  case_decide as Ha.
  2:{ specialize (IH s1 H1' Hne). destruct (im_rounds k uid s1) as [[status r] s2]. exact IH. }
  split; [|split; [done|split; [done|split; [done|]]]]. 2:{ left. by exists name, node. }
  destruct H1'. split; simpl; try done.
  - intros x Hx. destruct (decide (x = name)) as [->|]; [rewrite lookup_insert_eq; by eexists|].
    rewrite lookup_insert_ne by done. by apply ok_names0.
  - intros x y Hx Hy. destruct (decide (x = name)) as [->|].
    { rewrite lookup_insert_eq in Hx. injection Hx as <-. simpl in Hy. congruence. }
    rewrite lookup_insert_ne in Hx by done. by eapply ok_backups0.
Qed.

(** ** Requests *)

Inductive request :=
  | RPick
  | RGet (uid : Z)
  | RBackup (rpc : string -> bool) (uid : Z)
  | RPing (rpc : string -> bool).

Definition serve (r : request) : Service Status :=
  match r with
  | RPick => let! a := PickConnectionGateway in pure a.1
  | RGet uid => let! a := GetImServer uid in pure a.1
  | RBackup rpc uid => let! a := ActiveImBackupServer rpc uid in pure a.1
  | RPing rpc => let! a := TestNetworkPing rpc in pure a.1
  end.

Definition serve_all (rs : list request) (s : state_service) : state_service :=
  foldl (fun s r => (serve r s).2) s rs.

Lemma serve_ok r s : service_ok s ->
  let '(status, s') := serve r s in service_ok s' /\ status <> Crash.
Proof.
  intros Hok. destruct r; cbn [serve]; unfold seq_bind, pure.
  - unfold PickConnectionGateway. destruct (ss_gatewayNodes s) as [|n0 l] eqn:En; [done|].
    assert (service_ok (with_gatewayRouteCount (uint64 (ss_gatewayRouteCount s + 1)) s)) as Hs.
    { destruct Hok. split; simpl; try done. apply wrapU_range. lia. }
    by destruct (pick_from _ _ _).
  - unfold GetImServer. destruct (ss_imNodeName s) as [|n0 l] eqn:En; [done|]. rewrite <- En.
    pose proof (im_rounds_spec (length (ss_imNodeName s)) uid s Hok ltac:(by rewrite En)) as Hs.
    destruct (im_rounds _ uid s) as [[status a] s']. destruct Hs as (Hs & _ & _ & -> & _). done.
  - unfold ActiveImBackupServer. destruct (ss_imNodeName s) as [|n0 l] eqn:En; [done|]. rewrite <- En.
    pose proof (backup_rounds_spec (length (ss_imNodeName s)) rpc uid s Hok ltac:(by rewrite En)) as Hs.
    destruct (backup_rounds _ rpc uid s) as [[status a] s']. by destruct Hs as (Hs & _ & [[-> _]|[-> _]]).
  - unfold TestNetworkPing. destruct (ss_imRpcMap s !! "hunan-im") as [[]|] eqn:E.
    + by destruct (rpc "hunan-im").
    + split; [|done]. destruct Hok. split; simpl; try done. intros x y Hx Hy.
      specialize (ok_backups0 x y Hx Hy). rewrite lookup_insert_ne by congruence. done.
    + split; [|done]. destruct Hok. split; simpl; try done. intros x y Hx Hy.
      specialize (ok_backups0 x y Hx Hy). rewrite lookup_insert_ne by congruence. done.
Qed.

Lemma serve_all_ok rs s : service_ok s -> service_ok (serve_all rs s).
Proof.
  revert s. induction rs as [|r rs IH]; intros s Hok; [done|]. apply IH.
  pose proof (serve_ok r s Hok) as Hr. destruct (serve r s) as [status s1]. apply Hr.
Qed.

(** Backups.  In any run of the state service no request reads outside its
    tables, and a backup server is made active exactly when the call to it
    succeeds and is the one that is answered. *)
Theorem backup_activation `{YamlCpp} conf s0 rs rpc uid :
  StateServiceImpl conf = Some s0 ->
  let s := serve_all rs s0 in
  let '((status, r), s') := ActiveImBackupServer rpc uid s in
  (forall q, (serve q s).1 <> Crash) /\
  match status with
  | OK => exists name node, ss_imNodeMap s !! name = Some node /\ im_status node = "backup" /\ rpc name = true /\
      r = mkConnectUserRsp (im_ip node) (atoi (im_port node)) "" /\
      ss_imNodeMap s' = <[name := setStatus "active" (appendConnection uid node)]> (ss_imNodeMap s)
  | _ => r = no_rsp /\ ss_imNodeMap s' = ss_imNodeMap s
  end.
Proof.
  intros Hs0 s. assert (service_ok s) as Hok by (apply serve_all_ok; by eapply StateServiceImpl_ok).
  assert (forall q, (serve q s).1 <> Crash) as Hsafe.
  { intros q. pose proof (serve_ok q s Hok) as Hq. destruct (serve q s) as [status s1]. apply Hq. }
  unfold ActiveImBackupServer. destruct (ss_imNodeName s) as [|n0 l] eqn:En; [done|]. rewrite <- En.
  pose proof (backup_rounds_spec (length (ss_imNodeName s)) rpc uid s Hok ltac:(by rewrite En)) as Hb.
  destruct (backup_rounds _ rpc uid s) as [[status a] s']. split; [done|].
  destruct Hb as (_ & _ & [(-> & name & node & Hb)|(-> & Hb)]).
  - exists name, node. tauto.
  - tauto.
Qed.

(** ** Concrete services *)

Module Config.
Inductive doc := Text (s : string) | Number (n : Z) | Empty | Entry (k : string) (d rest : doc).

Fixpoint find (t : doc) (k : string) : option doc :=
  match t with
  | Entry x d rest => if decide (x = k) then Some d else find rest k
  | _ => None
  end.

Fixpoint Table (l : list (string * doc)) : doc :=
  match l with
  | [] => Empty
  | (k, d) :: l => Entry k d (Table l)
  end.

Definition in_range (bits : Z) (d : doc) : option Z :=
  match d with Number n => if (0 <=? n) && (n <? 2 ^ bits) then Some n else None | _ => None end.

Lemma in_range_ok bits d v : in_range bits d = Some v -> 0 <= v < 2 ^ bits.
Proof. destruct d; simpl; try done. destruct (_ && _) eqn:E; [|done]. intros [= <-]. boolp. lia. Qed.

Definition documents : YamlCpp := {|
  yaml := doc;
  yaml_at := find;
  as_int d := match d with Number n => Some n | _ => None end;
  as_ushort := in_range 16; as_uint := in_range 32; as_uint64 := in_range 64;
  as_string d := match d with Text s => Some s | _ => None end;
  as_ushort_range := in_range_ok 16; as_uint64_range := in_range_ok 64 |}.

Definition im (name status : string) : doc :=
  Table [("host", Text "10.0.0.1"); ("port", Text "9000"); ("rpcPort", Text "9001"); ("name", Text name);
         ("status", Text status); ("rpcCount", Number 2)].
Definition node (name host : string) (port : Z) : doc :=
  Table [("name", Text name); ("host", Text host); ("port", Number port); ("streamPort", Number port)].
Definition conf : doc := Table [
  ("connection-gateway", Table [("gateway-total", Number 2); ("g1", node "g1" "10.0.0.1" 8000);
                                ("g2", node "g2" "" 8000)]);
  ("message", Table [("message-total", Number 3); ("m1", node "m1" "10.0.0.2" 9001);
                     ("m3", node "m3" "10.0.0.3" 9001)]);
  ("topology-version", Number 2);
  ("im", Table [("im-total", Number 2); ("s1", im "a" "active"); ("s2", im "b" "backup")])].

Definition service : state_service :=
  default (mkState ∅ ∅ [] [] [] 0 0 0 0) (StateServiceImpl (H := documents) conf).
Lemma service_built : StateServiceImpl (H := documents) conf = Some service.
Proof. vm_compute. reflexivity. Qed.
End Config.

Lemma gateway_placement_witness :
  (PickConnectionGateway Config.service).1 = (OK, mkConnectUserRsp "10.0.0.1" 8000 "g1") /\
  (OK, mkConnectUserRsp "10.0.0.1" 8000 "g1") ∈ picks 2 Config.service.
Proof.
  split; [vm_compute; reflexivity|].
  apply (proj2 (gateway_placement Config.service ltac:(vm_compute; discriminate) ltac:(vm_compute; reflexivity))
    (mkServiceNode "g1" "10.0.0.1" 8000 "active" 1)); [|reflexivity].
  change (ss_gatewayNodes Config.service) with [mkServiceNode "g1" "10.0.0.1" 8000 "active" 1;
    mkServiceNode "g2" "" 8000 "active" 1]. left.
Defined.

Lemma backup_activation_witness :
  (ActiveImBackupServer (fun _ => true) 7 Config.service).1 = (OK, mkConnectUserRsp "10.0.0.1" 9000 "") /\
  forall q, (serve q Config.service).1 <> Crash.
Proof.
  split; [vm_compute; reflexivity|].
  pose proof (backup_activation (H := Config.documents) Config.conf Config.service [] (fun _ => true) 7
    Config.service_built) as Hr.
  destruct (ActiveImBackupServer (fun _ => true) 7 (serve_all [] Config.service)) as [[status r] s'].
  exact (proj1 Hr).
Defined.

Module Rounds.
#[local] Existing Instances TwoNodes.map_order TwoNodes.hash TwoNodes.identity bits_codec.

(** Two rounds against the service of [Config]: links to its two message nodes. *)
Lemma topology_round_witness :
  let m' := (fetch_round 5 (served Config.service) (manager_run [] new_manager)).2 in
  fetch_round 6 (served Config.service) m' = (tt, m') /\ topologyVersion m' = 2 /\
  is_Some (links m' !! "m1") /\ is_Some (links m' !! "m3") /\ links m' !! "m2" = None.
Proof.
  cbv zeta. split; [|vm_compute; by eauto 10].
  refine (proj1 (topology_round (H1 := TwoNodes.map_order) [] 5 Config.service _ _) 6).
  - eapply (StateServiceImpl_ok (H1 := Config.documents)), Config.service_built.
  - vm_compute. discriminate.
Defined.
End Rounds.
