(* ===== verification/Security.v ===== *)
(** * Who may speak for a gateway

    [src/server/public/include/GrpcSecurity.h]: the transport security of the
    configuration and the credentials it leads to; and what the message node of
    Reactor makes of it: under mutual TLS the commands of a stream run under the
    name in the certificate of the gateway, as long as a stream that registers
    again repeats its names, and not otherwise. *)

From S2P Require Import Prelude Const Packet Redis Store Mysql Messages Ledger History Pools Transport.
From S2P Require Import Node Services Reactor Streams Commands Registry StateService.

(** ** The configuration *)

Record GrpcSecurityConfig := mkSecurity {
  environment : string; mode : string; rootCertificates : string; certificateChain : string; privateKey : string }.

Definition Mtls (c : GrpcSecurityConfig) : bool := bool_decide (mode c = "mtls").

Inductive ChannelCredentials := InsecureChannel | SslChannel (roots key chain : string).
Inductive ServerCredentials := InsecureServer | SslServer (roots key chain : string) (require_and_verify_client : bool).

Section Configuration.
Context `{YamlCpp}.

(** [if (source[k]) field = source[k].as<std::string>();] *)
Definition optional (source : yaml) (k otherwise : string) : option string := value_or as_string source k otherwise.

(** [inl] is the text of the exception; [None] one of yaml-cpp. *)
Definition LoadGrpcSecurityConfig (server : yaml) : option (string + GrpcSecurityConfig) :=
  result ← match key server "transportSecurity" with
           | None => Some (mkSecurity "development" "insecure" "" "" "")
           | Some source =>
               environment ← optional source "environment" "development";
               mode ← optional source "mode" "insecure";
               rootCertificates ← optional source "rootCertificates" "";
               certificateChain ← optional source "certificateChain" "";
               privateKey ← optional source "privateKey" "";
               Some (mkSecurity environment mode rootCertificates certificateChain privateKey)
           end;
  Some (if bool_decide (environment result = "production") && negb (bool_decide (mode result = "mtls"))
        then inl "production Gateway-Message transport requires mTLS"
        else if negb (bool_decide (mode result = "insecure")) && negb (bool_decide (mode result = "mtls"))
        then inl ("unsupported gRPC transport security mode: " +:+ mode result)
        else if Mtls result && (str_empty (rootCertificates result) || str_empty (certificateChain result) ||
                                str_empty (privateKey result))
        then inl "mTLS requires rootCertificates, certificateChain and privateKey"
        else inr result).
End Configuration.

(** [ReadCredentialFile]: [None] when the file cannot be opened; the builders
    then throw. *)
Definition BuildChannelCredentials (read : string -> option string) (c : GrpcSecurityConfig) : option ChannelCredentials :=
  if negb (Mtls c) then Some InsecureChannel
  else
    roots ← read (rootCertificates c);
    chain ← read (certificateChain c);
    key ← read (privateKey c);
    Some (SslChannel roots key chain).

Definition BuildServerCredentials (read : string -> option string) (c : GrpcSecurityConfig) : option ServerCredentials :=
  if negb (Mtls c) then Some InsecureServer
  else
    roots ← read (rootCertificates c);
    key ← read (privateKey c);
    chain ← read (certificateChain c);
    Some (SslServer roots key chain true).

(** An accepted configuration knows its mode; one for production is mutual TLS,
    and then both ends have credentials only of certificates that were read, and
    the server asks for the certificate of the gateway. *)
Lemma accepted_configuration `{YamlCpp} server c : LoadGrpcSecurityConfig server = Some (inr c) ->
  (mode c = "insecure" \/ mode c = "mtls") /\
  (environment c = "production" -> Mtls c = true) /\
  (Mtls c = true -> rootCertificates c <> "" /\ certificateChain c <> "" /\ privateKey c <> "").
Proof.
  unfold LoadGrpcSecurityConfig. destruct (match key server "transportSecurity" with Some _ => _ | None => _ end) as [r|];
    simpl; [|done].
  destruct (_ && _) eqn:E1; [done|]. destruct (negb _ && negb _) eqn:E2; [done|]. destruct (Mtls r && _) eqn:E3; [done|].
  intros [= <-]. unfold Mtls in *. split; [|split].
  - apply andb_false_iff in E2 as [E2|E2]; apply negb_false_iff, bool_decide_eq_true in E2; auto.
  - intros He. rewrite (bool_decide_eq_true_2 (environment r = "production") He) in E1. simpl in E1.
    by apply negb_false_iff in E1.
  - intros Hm. rewrite Hm in E3. cbn [andb] in E3. apply orb_false_iff in E3 as [ [E4 E5]%orb_false_iff E6].
    by rewrite !str_empty_false in *.
Qed.

Lemma production_encrypted `{YamlCpp} server c read channel ends :
  LoadGrpcSecurityConfig server = Some (inr c) -> environment c = "production" ->
  BuildChannelCredentials read c = Some channel -> BuildServerCredentials read c = Some ends ->
  exists roots key chain, channel = SslChannel roots key chain /\ ends = SslServer roots key chain true /\
    read (rootCertificates c) = Some roots /\ read (certificateChain c) = Some chain /\ read (privateKey c) = Some key.
Proof.
  intros Hl He Hc Hs. destruct (accepted_configuration server c Hl) as (_ & Hp & _).
  unfold BuildChannelCredentials, BuildServerCredentials in *. rewrite (Hp He) in *. cbn [negb] in *.
  destruct (read (rootCertificates c)) as [roots|]; [|done]. destruct (read (certificateChain c)) as [chain|]; [|done].
  destruct (read (privateKey c)) as [k|]; [|done]. simpl in *. simplify_eq. by exists roots, k, chain.
Qed.

(** ** The names of streams *)

Section Identity.
Context `{Collation} `{StdHash} `{Faults} `{PacketCodec} `{E : Env}.

(** The certificates of the streams that connected. *)
Definition certificate (e : node_event) : option string := match e with EConnect _ peer => Some peer | _ => None end.
Definition certificates (es : list node_event) : list string := omap certificate es.

(** A registered stream bears the name of its certificate, and so does every task
    that waits for a worker. *)
Record identified (peers : list string) (w : node) : Prop := mk_identified {
  id_peers : forall r ra, reactors w !! r = Some ra -> ra_peer ra ∈ peers;
  id_names : forall r ra, reactors w !! r = Some ra -> ra_registered ra = true -> ra_gatewayId ra = ra_peer ra;
  id_tasks : Forall (fun t => tk_gatewayId (t_task t) ∈ peers) (p_queue (workers w)) }.

Definition same_names (ra ra' : reactor) : Prop :=
  ra_gatewayId ra' = ra_gatewayId ra /\ ra_peer ra' = ra_peer ra /\ ra_registered ra' = ra_registered ra.

Lemma identified_same peers w w' :
  (forall r, option_Forall2 same_names (reactors w !! r) (reactors w' !! r)) ->
  p_queue (workers w') ⊆ p_queue (workers w) -> identified peers w -> identified peers w'.
Proof.
  intros Hr Hq [P N T]. split.
  - intros r ra' Hra'. specialize (Hr r). rewrite Hra' in Hr. inversion Hr as [ra ra2 (A & B & C) E1 E2|]; subst. rewrite B. eauto.
  - intros r ra' Hra'. specialize (Hr r). rewrite Hra' in Hr. inversion Hr as [ra ra2 (A & B & C) E1 E2|]; subst. rewrite A, B, C. eauto.
  - rewrite Forall_forall in *. intros t Ht. apply T. by apply Hq.
Qed.

Lemma names_refl w r : option_Forall2 same_names (reactors w !! r) (reactors w !! r).
Proof. destruct (reactors w !! r); by constructor. Qed.

Lemma identified_untouched peers w w' : reactors w' = reactors w -> p_queue (workers w') ⊆ p_queue (workers w) ->
  identified peers w -> identified peers w'.
Proof. intros Er Hq. apply identified_same; [|done]. intros r. rewrite Er. apply names_refl. Qed.

Lemma sends_identified peers P w w' : sends P w w' -> identified peers w -> identified peers w'.
Proof.
  intros Hs. apply identified_same; [|by rewrite (sn_workers _ _ _ Hs)]. intros r.
  destruct (sn_reactors _ _ _ Hs r) as [ra ra' (-> & _)|]; by constructor.
Qed.

Lemma alter_identified peers (f : reactor -> reactor) r w : (forall ra, same_names ra (f ra)) ->
  identified peers w -> identified peers (with_reactors (alter f r (reactors w)) w).
Proof.
  intros Hf. apply identified_same; [|done]. intros k. simpl. destruct (decide (r = k)) as [<-|Hne].
  - rewrite lookup_alter_eq. destruct (reactors w !! r); by constructor.
  - rewrite lookup_alter_ne by done. apply names_refl.
Qed.

Lemma answer_identified peers r frame w : identified peers w -> identified peers (enqueue_ r frame w).2.
Proof.
  intros Hw. unfold enqueue_, seq_bind, pure, reactor_enqueue.
  destruct (reactors w !! r) as [ra|] eqn:Hra; [|by apply (identified_untouched peers w) ].
  destruct (Enqueue frame (ra_writer ra)) as [ok wr]. simpl. apply (identified_same peers w); [|done|done].
  intros k. simpl. destruct (decide (r = k)) as [<-|Hne].
  - rewrite Hra, lookup_insert_eq. by constructor.
  - rewrite lookup_insert_ne by done. apply names_refl.
Qed.

Lemma register_identified peers r ra q w : require_peer_identity = true ->
  reactors w !! r = Some ra -> repeats w (ERead r (Some (GRegister q))) ->
  identified peers w -> identified peers (HandleRegister r ra q w).2.
Proof.
  intros Hreq Hra Hrep Hw. specialize (Hrep ra Hra). pose proof Hw as [P N T].
  unfold HandleRegister, update_reactor, Register, reads, seq_bind, writes. cbv zeta. rewrite Hreq.
  set (w1 := with_reactors (alter _ r (reactors w)) w).
  assert (identified peers w1) as Hw1.
  { unfold w1. split; [| |done]; intros k ra1; simpl; (destruct (decide (r = k)) as [<-|Hne];
      [rewrite lookup_alter_eq, Hra; intros [= <-]|rewrite lookup_alter_ne by done; eauto]).
    - exact (P r ra Hra).
    - simpl. intros Hreg. rewrite <- (N r ra Hra Hreg). by apply Hrep. }
  cbn [negb orb]. destruct (_ && bool_decide (ra_peer ra = rg_gateway_id q)) eqn:Hv; [|by apply answer_identified].
  apply andb_prop in Hv as [_ Hpeer%bool_decide_eq_true]. apply answer_identified.
  pose proof Hw1 as [P1 N1 T1]. split; [| |done]; intros k ra2; simpl;
    (destruct (decide (r = k)) as [<-|Hne];
      [rewrite !lookup_alter_eq, Hra; intros [= <-]|rewrite !lookup_alter_ne by done; eauto]).
  - exact (P r ra Hra).
  - done.
Qed.

Lemma command_identified peers r ra c w : reactors w !! r = Some ra ->
  identified peers w -> identified peers (HandleCommand r ra c w).2.
Proof.
  intros Hra Hw. pose proof Hw as [P N T]. unfold HandleCommand.
  destruct (ra_registered ra) eqn:Hreg; cbn [negb orb]; [|by apply answer_identified].
  destruct (str_empty _); [by apply answer_identified|].
  unfold NowUnixMilliseconds, seq_bind at 1. destruct (_ <=? _); [by apply answer_identified|].
  unfold PostBackgroundTask, seq_bind, Post, PostUntil.
  destruct (p_stopping _); [by apply answer_identified|]. case_decide; [by apply answer_identified|].
  simpl. split; [done|done|]. simpl. apply Forall_app_2; [done|]. apply Forall_singleton. simpl.
  rewrite (N r ra Hra Hreg). by apply (P r).
Qed.

Lemma step_identified peers e w : require_peer_identity = true -> repeats w e ->
  identified peers w -> identified (peers ++ option_list (certificate e)) (node_step e w).2.
Proof.
  intros Hreq Hrep Hw. assert (forall x, identified peers x -> identified (peers ++ option_list (certificate e)) x) as Hmore.
  { intros x [P N T]. split; [set_solver|done|]. eapply Forall_impl; [exact T|]. set_solver. }
  destruct e as [r peer|r frame|r ok|r|now|reason|b|s rd]; simpl.
  - destruct (reactors w !! r) as [ra|] eqn:Hra; [by apply Hmore|]. apply Hmore in Hw as [P N T].
    split; [| |done]; intros k ra; simpl; (destruct (decide (r = k)) as [<-|Hne];
      [rewrite lookup_insert_eq; intros [= <-]|rewrite lookup_insert_ne by done; eauto]); [set_solver|done].
  - apply Hmore. unfold OnReadDone. unfold seq_bind at 1. unfold reads.
    destruct (reactors w !! r) as [ra|] eqn:Hra; [|by destruct frame].
    destruct frame as [[q|c|a|sent sequence|]|]; try done.
    + by apply register_identified.
    + by apply command_identified.
    + by apply answer_identified.
    + apply alter_identified; [|done]. by intros ra'.
  - apply Hmore, alter_identified; [|done]. intros ra. by destruct (w_inFlight (ra_writer ra)).
  - apply Hmore. unfold OnDone, Unregister, seq_bind, reads, writes. destruct (reactors w !! r) as [ra|]; [|done].
    destruct Hw as [P N T]. split; [| |simpl; by repeat case_match];
      (intros k ra'; simpl; rewrite lookup_delete_Some; intros [_ Hk]; revert Hk; repeat case_match; simpl; eauto).
  - apply Hmore. unfold work. case_decide; [|done]. unfold PopTask.
    destruct (p_queue (workers w)) as [|t q] eqn:Eq; [by apply (identified_untouched peers w) |].
    set (w0 := with_workers _ w).
    assert (identified peers w0) as Hw0.
    { apply (identified_untouched peers w); [done| |done]. simpl. rewrite Eq. set_solver. }
    pose proof (run_task_sends (t_task t) w0) as Hs. destruct (run_task (t_task t) w0) as [[] w1].
    apply (identified_untouched peers w1); [done|done|]. by apply (sends_identified _ _ _ _ Hs).
  - apply Hmore. unfold DrainAll, seq_bind, writes, reads. eapply sends_identified; [apply drain_sends|].
    + intros [g st] Hin. exists g. by apply elem_of_map_to_list in Hin.
    + by apply (identified_untouched peers w).
  - apply Hmore. by apply (identified_untouched peers w).
  - apply Hmore. by apply (identified_untouched peers w).
Qed.

Lemma run_identified es peers w : require_peer_identity = true -> steadfast es w ->
  identified peers w -> identified (peers ++ certificates es) (node_run es w).
Proof.
  intros Hreq. revert peers w. induction es as [|e es IH]; intros peers w; simpl.
  { intros _ Hw. by rewrite app_nil_r. }
  intros [Hrep Hst] Hw. specialize (IH _ _ Hst (step_identified peers e w Hreq Hrep Hw)).
  unfold certificates in *. simpl. destruct (certificate e); simpl in *; [|by rewrite app_nil_r in IH].
  by rewrite <- app_assoc in IH.
Qed.
End Identity.

(** C10: gateways under mutual TLS.  When the accepted configuration of a
    message node is for production, then in any run in which a stream that
    registers again repeats its names, every registered stream bears the name in
    its gateway's certificate, and every command that waits for a worker will
    run under the name of a certificate that connected. *)
Theorem commands_carry_certificate `{Collation} `{StdHash} `{Faults} `{PacketCodec} `{E : Env} `{YamlCpp}
    server c es s rd threads max :
  LoadGrpcSecurityConfig server = Some (inr c) -> environment c = "production" -> require_peer_identity = Mtls c ->
  steadfast es (new_node s rd threads max) ->
  let w := node_run es (new_node s rd threads max) in
  (forall r ra, reactors w !! r = Some ra -> ra_registered ra = true -> ra_gatewayId ra = ra_peer ra) /\
  (forall t, t ∈ p_queue (workers w) -> tk_gatewayId (t_task t) ∈ certificates es).
Proof.
  intros Hl He Hm Hst w. destruct (accepted_configuration server c Hl) as (_ & Hp & _). rewrite (Hp He) in Hm.
  destruct (run_identified es [] (new_node s rd threads max) Hm Hst) as [_ N T]; [|split; [exact N|] ].
  - split; [intros r ra|intros r ra|by apply Forall_nil]; unfold new_node; cbn [reactors]; by rewrite lookup_empty.
  - by rewrite Forall_forall in T.
Qed.

(** ** A gateway that speaks for another *)

Module Impersonation.
(** A configuration is a text or a map. *)
Inductive document := Text (s : string) | Map (l : list (string * document)).
Definition entry (n : document) (k : string) : option document :=
  match n with Map l => snd <$> List.find (fun e => bool_decide (e.1 = k)) l | Text _ => None end.
Definition text_of (n : document) : option string := match n with Text s => Some s | Map _ => None end.
#[local] Instance documents : YamlCpp.
Proof.
  refine {| yaml := document; yaml_at := entry; as_int _ := None; as_ushort _ := None; as_uint _ := None;
            as_uint64 _ := None; as_string := text_of |}; done.
Defined.
#[local] Existing Instances Sample.exact Sample.no_hash Sample.no_faults bits_codec.

Definition production : document := Map [("transportSecurity", Map
  [("environment", Text "production"); ("mode", Text "mtls"); ("rootCertificates", Text "ca.pem");
   ("certificateChain", Text "node.pem"); ("privateKey", Text "node.key")])].
Definition accepted : GrpcSecurityConfig := mkSecurity "production" "mtls" "ca.pem" "node.pem" "node.key".

#[local] Instance env : Env := {|
  redis_call n := mkCall FNone 100; id_calls n := [mkCall FNone (epoch + 5)];
  date_time n := "2026-01-01 00:00:00"; unix_ms n := 1000; steady_ns n := 0; machine_id := 1;
  forward_upload n q := UploadStatus true ""; message_node_id := "message-1";
  require_peer_identity := Mtls accepted |}.

(** The user 1001 is connected to the gateway gw-b. *)
Definition lease_b : redis := (bindSessionLease 1001 "gw-b" "i2" "c1" 60 (ok_at 0) ∅).2.
Definition text : Packet :=
  empty_packet |> set_int F_to 1002 |> set_str F_data "not mine" |> set_str F_client_message_id "k" |> set_int F_seq 1.
Definition command : CommandEnvelope :=
  mkCommandEnvelope "q1" 1001 "c1" 1 (sid ID_TEXT_SEND_REQ) 0 5000 (SerializeToString text).

Definition honest : list node_event :=
  [EConnect 1 "gw-a"; ERead 1 (Some (Reconnect.hello "gw-a" "i1")); ERead 1 (Some (GCommand command))].
Definition forged : list node_event :=
  [EConnect 1 "gw-a"; ERead 1 (Some (Reconnect.hello "gw-a" "i1")); ERead 1 (Some (Reconnect.hello "gw-b" "i2"));
   ERead 1 (Some (GCommand command)); EWork 0].
Definition before : node := new_node Sample.start lease_b 2 16.
End Impersonation.

Lemma commands_carry_certificate_witness :
  Forall (fun t => tk_gatewayId (t_task t) ∈ ["gw-a"])
    (p_queue (workers (node_run (E := Impersonation.env) (H := Sample.exact) (H0 := Sample.no_hash)
      (H1 := Sample.no_faults) (H2 := bits_codec) Impersonation.honest Impersonation.before))).
Proof.
  apply Forall_forall, (commands_carry_certificate (H := Sample.exact) (H0 := Sample.no_hash) (H1 := Sample.no_faults)
    (H2 := bits_codec) (E := Impersonation.env) (H3 := Impersonation.documents)
    Impersonation.production Impersonation.accepted Impersonation.honest Sample.start Impersonation.lease_b 2 16).
  - reflexivity.
  - reflexivity.
  - reflexivity.
  - split; [done|]. split; [|done]. intros ra Hra Hreg. vm_compute in Hra. injection Hra as <-. discriminate Hreg.
Defined.

(** The gateway gw-a registers under its certificate, then as gw-b: the answer is
    a refusal, but the stream stays registered and takes the name; its command
    for a user of gw-b is executed: the text is stored in that user's name. *)
Theorem refused_registration_impersonates :
  let w := node_run (E := Impersonation.env) (H := Sample.exact) (H0 := Sample.no_hash) (H1 := Sample.no_faults)
    (H2 := bits_codec) Impersonation.forged Impersonation.before in
  (fun m => (m_senderId m, m_content m)) <$> messages (db (sql w)) !! 1 = Some (1001, "not mine") /\
  (ra_registered <$> reactors w !! 1%nat) = Some true /\ (ra_gatewayId <$> reactors w !! 1%nat) = Some "gw-b" /\
  (ra_peer <$> reactors w !! 1%nat) = Some "gw-a".
Proof. by vm_compute. Qed.
