(* ===== verification/Url.v ===== *)
(** * Percent-encoding and query strings

    The functions of [util] and [PreParseGetParam] of
    [src/server/gate/src/service/HttpSession.cc].  The build files set no build
    type, so [assert] is compiled in: [None] is the end of the process. *)

From S2P Require Import Prelude.

Definition chr (z : Z) : ascii := ascii_of_N (Z.to_N (z mod 256)).
Definition ord (c : ascii) : Z := Z.of_N (N_of_ascii c).

Definition is_between (c low high : ascii) : bool := (ord low <=? ord c) && (ord c <=? ord high).

Definition isalnum (c : ascii) : bool :=
  is_between c "0" "9" || is_between c "A" "Z" || is_between c "a" "z".

(** [unsigned char] arithmetic. *)
Definition ToHex (x : Z) : Z := if 9 <? x then x + 55 else x + 48.

Definition FromHex (x : ascii) : option Z :=
  if is_between x "A" "Z" then Some (ord x - ord "A" + 10)
  else if is_between x "a" "z" then Some (ord x - ord "a" + 10)
  else if is_between x "0" "9" then Some (ord x - ord "0")
  else None.

Definition plain (c : ascii) : bool :=
  isalnum c || bool_decide (c = "-"%char) || bool_decide (c = "_"%char) ||
  bool_decide (c = "."%char) || bool_decide (c = "~"%char).

Fixpoint UrlEncode (str : string) : string :=
  match str with
  | "" => ""
  | String c str =>
      if plain c then String c (UrlEncode str)
      else if bool_decide (c = " "%char) then String "+" (UrlEncode str)
      else String "%" (String (chr (ToHex (Z.shiftr (ord c) 4)))
             (String (chr (ToHex (Z.land (ord c) 15))) (UrlEncode str)))
  end.

Fixpoint UrlDecode (str : string) : option string :=
  match str with
  | "" => Some ""
  | String c str =>
      if bool_decide (c = "+"%char) then String " " <$> UrlDecode str
      else if bool_decide (c = "%"%char) then
        match str with
        | String a (String b str) =>
            match FromHex a, FromHex b with
            | Some high, Some low => String (chr (high * 16 + low)) <$> UrlDecode str
            | _, _ => None
            end
        | _ => None
        end
      else String c <$> UrlDecode str
  end.

(** [s.find(c)] with the parts before and after it. *)
Fixpoint split_at (c : ascii) (s : string) : option (string * string) :=
  match s with
  | "" => None
  | String d s =>
      if bool_decide (d = c) then Some ("", s)
      else match split_at c s with
           | Some (before, after) => Some (String d before, after)
           | None => None
           end
  end.

(** One [key=value] of the query; without ["="] it is skipped. *)
Definition add_pair (item : string) (params : gmap string string) : option (gmap string string) :=
  match split_at "=" item with
  | None => Some params
  | Some (k, v) => key ← UrlDecode k; value ← UrlDecode v; Some (<[key := value]> params)
  end.

(** The [while] loop; what follows the last ["&"] is handled after it. *)
Fixpoint query_loop (fuel : nat) (query : string) (params : gmap string string)
  : option (gmap string string) :=
  match fuel with
  | O => Some params
  | S fuel =>
      match split_at "&" query with
      | Some (item, rest) => params ← add_pair item params; query_loop fuel rest params
      | None => if str_empty query then Some params else add_pair query params
      end
  end.

(** The path and the parameters of a target. *)
Definition PreParseGetParam (uri : string) : option (string * gmap string string) :=
  match split_at "?" uri with
  | None => Some (uri, ∅)
  | Some (url, query) =>
      params ← query_loop (S (String.length query)) query ∅; Some (url, params)
  end.

(** ** Decoding what was encoded *)

(** The facts about single bytes, checked on all 256 of them. *)
Definition all_bytes : list ascii := (fun n => ascii_of_nat n) <$> seq 0 256.

Lemma in_all_bytes c : c ∈ all_bytes.
Proof.
  apply list_elem_of_fmap. exists (nat_of_ascii c). split; [by rewrite ascii_nat_embedding|].
  apply elem_of_seq. pose proof (nat_ascii_bounded c). lia.
Qed.

Lemma forall_bytes (P : ascii -> bool) : forallb P all_bytes = true -> forall c, P c = true.
Proof. rewrite List.forallb_forall. intros H c. apply H, list_elem_of_In, in_all_bytes. Qed.

(** How the encoder treats a byte: as itself, as ["+"], as two digits that decode
    to it; and the bytes it writes mean nothing else to the decoder. *)
Definition byte_ok (c : ascii) : bool :=
  if plain c then negb (bool_decide (c = "+"%char)) && negb (bool_decide (c = "%"%char))
  else if bool_decide (c = " "%char) then true
  else match FromHex (chr (ToHex (Z.shiftr (ord c) 4))), FromHex (chr (ToHex (Z.land (ord c) 15))) with
       | Some high, Some low => bool_decide (chr (high * 16 + low) = c)
       | _, _ => false
       end.

Lemma every_byte_ok c : byte_ok c = true.
Proof. revert c. apply forall_bytes. vm_compute. reflexivity. Qed.

Lemma UrlDecode_UrlEncode s : UrlDecode (UrlEncode s) = Some s.
Proof.
  induction s as [|c s IH]; [done|]. pose proof (every_byte_ok c) as Hc. unfold byte_ok in Hc.
  cbn [UrlEncode]. destruct (plain c).
  - boolp. cbn [UrlDecode]. rewrite !bool_decide_false by done. by rewrite IH.
  - case_bool_decide as Hs; [subst c; cbn [UrlDecode]; rewrite bool_decide_true by done; by rewrite IH|].
    cbn [UrlDecode]. rewrite (bool_decide_false _) by done. rewrite bool_decide_true by done.
    destruct (FromHex _) as [high|]; [|done]. destruct (FromHex _) as [low|]; [|done].
    boolp. subst c. by rewrite IH.
Qed.

(** Splitting an encoded part leaves it alone. *)
Definition avoids (c : ascii) (s : string) : Prop := split_at c s = None.

Lemma app_cons c s t : String c s +:+ t = String c (s +:+ t).
Proof. reflexivity. Qed.

Lemma split_at_app c s t : avoids c s -> split_at c (s +:+ String c t) = Some (s, t).
Proof.
  unfold avoids. induction s as [|d s IH]; rewrite ?app_cons; cbn [split_at].
  - intros _. change ("" +:+ String c t) with (String c t). cbn [split_at]. by rewrite bool_decide_true.
  - destruct (bool_decide (d = c)); [done|]. intros Hs.
    destruct (split_at c s) as [[? ?]|]; [done|]. by rewrite IH.
Qed.

Definition separator (c : ascii) : bool :=
  bool_decide (c = "&"%char) || bool_decide (c = "="%char) || bool_decide (c = "?"%char).

(** What a byte is encoded to. *)
Definition encoded (c : ascii) : list ascii :=
  if plain c then [c] else if bool_decide (c = " "%char) then ["+"%char]
  else ["%"%char; chr (ToHex (Z.shiftr (ord c) 4)); chr (ToHex (Z.land (ord c) 15))].

Lemma encoded_no_separator c : forallb (fun d => negb (separator d)) (encoded c) = true.
Proof. revert c. apply forall_bytes. vm_compute. reflexivity. Qed.

Lemma encode_avoids sep s : separator sep = true -> avoids sep (UrlEncode s).
Proof.
  intros Hsep. unfold avoids. induction s as [|c s IH]; [done|].
  assert (forall d, negb (separator d) = true -> bool_decide (d = sep) = false) as Hd.
  { intros d Hd. apply bool_decide_false. intros ->. by rewrite Hsep in Hd. }
  pose proof (encoded_no_separator c) as Hc. unfold encoded in Hc. cbn [UrlEncode].
  destruct (plain c); [|destruct (bool_decide (c = " "%char))];
    cbn [forallb] in Hc; rewrite ?andb_true_iff in Hc; cbn [split_at];
    rewrite ?Hd by tauto; by rewrite IH.
Qed.

(** ** Query strings *)

Fixpoint encode_query (l : list (string * string)) : string :=
  match l with
  | [] => ""
  | [(k, v)] => UrlEncode k +:+ String "=" (UrlEncode v)
  | (k, v) :: l => (UrlEncode k +:+ String "=" (UrlEncode v)) +:+ String "&" (encode_query l)
  end.

Lemma avoids_app c s t : avoids c s -> avoids c t -> avoids c (s +:+ t).
Proof.
  unfold avoids. intros Hs Ht. induction s as [|d s IH]; [done|]. rewrite app_cons. cbn [split_at] in *.
  destruct (bool_decide (d = c)); [done|]. destruct (split_at c s) as [[? ?]|]; [done|].
  by rewrite IH.
Qed.

Lemma avoids_cons c d s : d <> c -> avoids c s -> avoids c (String d s).
Proof. unfold avoids. intros Hd Hs. cbn [split_at]. by rewrite bool_decide_false, Hs. Qed.

Lemma add_pair_encoded k v params :
  add_pair (UrlEncode k +:+ String "=" (UrlEncode v)) params = Some (<[k := v]> params).
Proof.
  unfold add_pair. rewrite split_at_app by by apply encode_avoids. by rewrite !UrlDecode_UrlEncode.
Qed.

Lemma pair_avoids k v : avoids "&" (UrlEncode k +:+ String "=" (UrlEncode v)).
Proof. apply avoids_app; [by apply encode_avoids|]. apply avoids_cons; [done|]. by apply encode_avoids. Qed.

Lemma query_loop_step fuel query item rest params :
  split_at "&" query = Some (item, rest) ->
  query_loop (S fuel) query params = (params ← add_pair item params; query_loop fuel rest params).
Proof. intros Hs. cbn [query_loop]. by rewrite Hs. Qed.

Lemma query_loop_encoded l n params :
  (length l <= n)%nat ->
  query_loop (S n) (encode_query l) params = Some (foldl (fun m kv => <[kv.1 := kv.2]> m) params l).
Proof.
  revert n params. induction l as [|[k v] l IH]; intros n params Hn; [done|].
  destruct l as [|[k' v'] l].
  - cbn [encode_query query_loop foldl fst snd]. rewrite pair_avoids.
    destruct (str_empty _) eqn:E; [|apply add_pair_encoded].
    apply str_empty_true in E. by destruct (UrlEncode k).
  - destruct n as [|n]; [simpl in Hn; lia|].
    change (encode_query ((k, v) :: (k', v') :: l)) with
      ((UrlEncode k +:+ String "=" (UrlEncode v)) +:+ String "&" (encode_query ((k', v') :: l))).
    rewrite (query_loop_step _ _ _ _ _ (split_at_app _ _ _ (pair_avoids k v))), add_pair_encoded.
    cbn [mbind option_bind]. rewrite (IH n) by (simpl in *; lia). done.
Qed.

Lemma encode_query_length l : (length l <= String.length (encode_query l))%nat.
Proof.
  induction l as [|[k v] l IH]; [simpl; lia|]. destruct l as [|[k' v'] l].
  - cbn [encode_query length]. rewrite str_length_app. simpl. lia.
  - change (encode_query ((k, v) :: (k', v') :: l)) with
      ((UrlEncode k +:+ String "=" (UrlEncode v)) +:+ String "&" (encode_query ((k', v') :: l))).
    rewrite str_length_app. cbn [String.length]. cbn [length] in *. lia.
Qed.

(** Query strings.  The gate's parser reads back any list of parameters from its
    percent-encoding, the last value of a name winning, whatever bytes names and
    values hold. *)
Theorem query_roundtrip path l :
  avoids "?" path ->
  PreParseGetParam (path +:+ String "?" (encode_query l)) =
    Some (path, foldl (fun m kv => <[kv.1 := kv.2]> m) ∅ l).
Proof.
  intros Hp. unfold PreParseGetParam. rewrite split_at_app by done.
  by rewrite query_loop_encoded by apply encode_query_length.
Qed.

Lemma query_roundtrip_witness :
  PreParseGetParam "/test?name=a%26b+c&x=%25" = Some ("/test", {["name" := "a&b c"; "x" := "%"]}).
Proof.
  transitivity (Some ("/test", foldl (fun m kv => <[kv.1 := kv.2]> m) (∅ : gmap string string)
    [("name", "a&b c"); ("x", "%")])); [|vm_compute; reflexivity].
  exact (query_roundtrip "/test" [("name", "a&b c"); ("x", "%")] eq_refl).
Defined.

(** ** Malformed escapes *)

(** Every ["%"] is followed by two letters or digits. *)
Fixpoint well_escaped (s : string) : bool :=
  match s with
  | "" => true
  | String c s =>
      if bool_decide (c = "%"%char)
      then match s with String a (String b s) => isalnum a && isalnum b && well_escaped s | _ => false end
      else well_escaped s
  end.

Lemma FromHex_None c : FromHex c = None <-> isalnum c = false.
Proof.
  unfold FromHex, isalnum.
  by destruct (is_between c "A" "Z"), (is_between c "a" "z"), (is_between c "0" "9").
Qed.

Lemma UrlDecode_None s : UrlDecode s = None <-> well_escaped s = false.
Proof.
  remember (String.length s) as n eqn:Hn. assert (String.length s <= n)%nat as Hle by lia. clear Hn.
  revert s Hle. induction n as [|n IH]; intros [|c s] Hle; try done; [simpl in Hle; lia|].
  cbn [String.length] in Hle. cbn [UrlDecode well_escaped].
  destruct (bool_decide (c = "+"%char)) eqn:Ep.
  { boolp. subst c. rewrite bool_decide_false by done. rewrite fmap_None. apply IH. lia. }
  destruct (bool_decide (c = "%"%char)); [|rewrite fmap_None; apply IH; lia].
  destruct s as [|a [|b s]]; [done..|]. cbn [String.length] in Hle.
  destruct (FromHex a) as [high|] eqn:Ea.
  2:{ apply FromHex_None in Ea. by rewrite Ea. }
  destruct (isalnum a) eqn:Ia; [|apply FromHex_None in Ia; congruence].
  destruct (FromHex b) as [low|] eqn:Eb.
  2:{ apply FromHex_None in Eb. by rewrite Eb. }
  destruct (isalnum b) eqn:Ib; [|apply FromHex_None in Ib; congruence].
  rewrite fmap_None. apply IH. lia.
Qed.
