(* ===== verification/Startup.v ===== *)
(** * Starting and stopping a message node

    [src/server/message/include/ImActiver.h] with [src/server/message/src/main.cc]:
    what [Activate] and [ClearUp] do, call by call, and in what state they leave
    the process; the numbers read from the environment in
    [src/server/message/src/service/Service.cc]; [src/server/public/src/Configer.cc],
    [Metrics.cc] and the choice of a loop in [IocPool.cc].  gRPC, the environment
    and the files are parameters. *)

From S2P Require Import Prelude Url StateService Security.

(** ** Numbers of the environment *)

Fixpoint leading_digits (s : string) (acc : Z) : Z :=
  match s with
  | String c s => if is_between c "0" "9" then leading_digits s (10 * acc + (ord c - ord "0")) else acc
  | "" => acc
  end.
(** [std::atoi] of a number that fits. *)
Fixpoint atoi (s : string) : Z :=
  match s with
  | String c t =>
      if ((9 <=? ord c) && (ord c <=? 13)) || (ord c =? 32) then atoi t
      else if ascii_dec c "-" then - leading_digits t 0
      else if ascii_dec c "+" then leading_digits t 0
      else leading_digits s 0
  | "" => 0
  end.

Definition clamp (value low high : Z) : Z := if value <? low then low else if high <? value then high else value.

(** [setting] is [WIMI_CHAT_SERVICE_WORKERS], [hardware] the number of processors
    or zero when it is not known. *)
Definition ResolveServiceWorkerCount (setting : option string) (hardware : Z) : Z :=
  let otherwise := clamp ((if hardware =? 0 then 4 else hardware) / 2) 2 8 in
  match setting with
  | Some value => if 0 <? atoi value then atoi value else otherwise
  | None => otherwise
  end.

Definition ResolvePositiveMilliseconds (setting : option string) (fallback : Z) : Z :=
  match setting with
  | Some value => if 0 <? atoi value then atoi value else fallback
  | None => fallback
  end.

(** There is always a worker; without a setting there are two to eight; a
    time-out is positive when its fallback is. *)
Lemma worker_count_bounds setting hardware : 0 <= hardware ->
  1 <= ResolveServiceWorkerCount setting hardware /\
  (ResolveServiceWorkerCount setting hardware <= 8 \/
   exists value, setting = Some value /\ ResolveServiceWorkerCount setting hardware = atoi value) /\
  (setting = None -> 2 <= ResolveServiceWorkerCount setting hardware <= 8).
Proof.
  intros Hh. unfold ResolveServiceWorkerCount.
  assert (forall z, 2 <= clamp z 2 8 <= 8) as Hc.
  { intros z. unfold clamp. destruct (Z.ltb_spec z 2); [lia|]. destruct (Z.ltb_spec 8 z); lia. }
  specialize (Hc ((if hardware =? 0 then 4 else hardware) / 2)).
  destruct setting as [value|]; [|split; [lia|split; [left; lia|done] ] ].
  destruct (Z.ltb_spec 0 (atoi value)); (split; [lia|split; [|done] ]); [right; by exists value|left; lia].
Qed.

Lemma positive_milliseconds setting fallback : 0 < fallback -> 0 < ResolvePositiveMilliseconds setting fallback.
Proof. intros Hf. unfold ResolvePositiveMilliseconds. destruct setting; [|done]. by destruct (Z.ltb_spec 0 (atoi s)). Qed.

(** ** The configuration *)

(** A file is an exception, a null document, or its entries; the keys before one
    that is no text stay in the map. *)
Inductive config_file {Y : Type} := Unreadable | NullDocument | Entries (l : list (Y * Y)).
Arguments config_file : clear implicits.

Section Config.
Context `{YamlCpp}.

Fixpoint add_entries (l : list (yaml * yaml)) (m : gmap string yaml) : bool * gmap string yaml :=
  match l with
  | [] => (true, m)
  | (k, v) :: l => match as_string k with
                   | None => (false, m)
                   | Some k => add_entries l (<[k := v]> m)
                   end
  end.

Definition loadConfig (file : config_file yaml) (configMap : gmap string yaml) : bool * gmap string yaml :=
  match file with
  | Unreadable | NullDocument => (false, configMap)
  | Entries l => add_entries l configMap
  end.

(** [None] is [YAML::Node()]. *)
Definition getNode (filed : string) (configMap : gmap string yaml) : option yaml := configMap !! filed.

(** A file that was loaded is read back: the last entry of a key counts. *)
Lemma loadConfig_reads l m k v l1 l2 s : l = l1 ++ (k, v) :: l2 -> (forall e, e ∈ l2 -> as_string e.1 <> as_string k) ->
  (loadConfig (Entries l) m).1 = true -> as_string k = Some s -> getNode s (loadConfig (Entries l) m).2 = Some v.
Proof.
  intros -> Hlast. simpl. revert m. induction l1 as [|[k1 v1] l1 IH]; intros m; simpl.
  - intros Hok Hs. rewrite Hs in *.
    assert (forall l m, (forall e, e ∈ l -> as_string e.1 <> Some s) -> getNode s (add_entries l m).2 = getNode s m) as Hkeep.
    { clear. intros l. induction l as [|[k v] l IH]; intros m Hl; simpl; [done|].
      destruct (as_string k) as [k'|] eqn:Ek; [|done]. rewrite IH by (intros; apply Hl; by right).
      unfold getNode. rewrite lookup_insert_ne; [done|]. intros ->. by apply (Hl (k, v)); [left|]. }
    rewrite Hkeep by done. unfold getNode. by rewrite lookup_insert_eq.
  - destruct (as_string k1); [|done]. intros Hok Hs. by apply IH.
Qed.
End Config.

(** ** Metrics *)

Inductive Metric :=
  | RequestsStarted | RequestsSucceeded | RequestsFailed | RequestsExpired | ThreadPoolAcquireTimeout
  | ThreadPoolTaskExpired | MysqlAcquireTimeout | RedisAcquireTimeout | RpcAcquireTimeout | RpcDeadlineExceeded
  | IdempotencyAccepted | IdempotencyReplayed.

#[export] Instance Metric_eq_dec : EqDecision Metric.
Proof. solve_decision. Defined.

(** The atomic counters. *)
Definition Increment (metric : Metric) (value : Z) (counters : Metric -> Z) : Metric -> Z :=
  fun m => if decide (m = metric) then uint64 (counters m + value) else counters m.
Definition Get (metric : Metric) (counters : Metric -> Z) : Z := counters metric.
Definition Name (metric : Metric) : string :=
  match metric with
  | RequestsStarted => "requests_started" | RequestsSucceeded => "requests_succeeded"
  | RequestsFailed => "requests_failed" | RequestsExpired => "requests_expired"
  | ThreadPoolAcquireTimeout => "thread_pool_acquire_timeout" | ThreadPoolTaskExpired => "thread_pool_task_expired"
  | MysqlAcquireTimeout => "mysql_acquire_timeout" | RedisAcquireTimeout => "redis_acquire_timeout"
  | RpcAcquireTimeout => "rpc_acquire_timeout" | RpcDeadlineExceeded => "rpc_deadline_exceeded"
  | IdempotencyAccepted => "idempotency_accepted" | IdempotencyReplayed => "idempotency_replayed"
  end.

(** A name stands for one metric; a counter is the number of its increments,
    whatever the order. *)
Lemma Name_injective m m' : Name m = Name m' -> m = m'.
Proof. by destruct m, m'. Qed.

Lemma counted ms m : Z.of_nat (length ms) < 2 ^ 64 ->
  Get m (foldr (fun m c => Increment m 1 c) (fun _ => 0) ms) = Z.of_nat (length (filter (fun x => x = m) ms)).
Proof.
  intros Hl. unfold Get. induction ms as [|x ms IH]; [done|]. simpl length in Hl. simpl foldr. unfold Increment at 1.
  pose proof (length_filter (fun x => x = m) ms) as Hf.
  rewrite filter_cons. case_decide as E.
  - subst. rewrite decide_True by done. rewrite IH by lia. simpl length. unfold uint64. rewrite wrapU_small by lia. lia.
  - rewrite decide_False by done. apply IH. lia.
Qed.

(** ** The loops of an [IocPool] *)

(** The loop to use and the next value of the static counter; [None] is an index
    out of range. *)
Definition GetContext (size currentIoc : nat) : option (nat * nat) :=
  if decide (currentIoc < size)%nat then Some (currentIoc, (S currentIoc mod size)%nat) else None.

Fixpoint contexts (size : nat) (k current : nat) : option (list nat) :=
  match k with
  | O => Some []
  | S k => '(i, current) ← GetContext size current; later ← contexts size k current; Some (i :: later)
  end.

(** One thread at a time gets the loops in turn. *)
Lemma contexts_in_turn size k current : (current < size)%nat ->
  contexts size k current = Some ((fun i => (current + i) mod size)%nat <$> seq 0 k).
Proof.
  revert current. induction k as [|k IH]; intros current Hc; [done|]. simpl. unfold GetContext.
  rewrite decide_True by done. simpl. rewrite IH by (apply Nat.mod_upper_bound; lia). simpl.
  rewrite Nat.add_0_r, (Nat.mod_small current) by lia. do 2 f_equal. rewrite <- fmap_S_seq, <- list_fmap_compose.
  apply list_fmap_ext. intros i j _. simpl. rewrite Nat.add_mod_idemp_l by lia. f_equal. lia.
Qed.

(** ** Start and stop *)

Inductive result (A : Type) := Done (a : A) | Thrown (what : string) | Crashed.
Arguments Done {A}.
Arguments Thrown {A}.
Arguments Crashed {A}.

(** [rpcServer] (none, serving, shut down), [rpcRunThread.joinable()],
    [cleaned], whether the two data access objects are closed, whether [Service]
    points to the stream service. *)
Inductive rpc_server := NoServer | Serving | ShutDown.
Record process := mkProcess {
  pr_server : rpc_server; pr_joinable : bool; pr_cleaned : bool; pr_mysql_closed : bool; pr_redis_closed : bool;
  pr_attached : bool }.
Definition fresh : process := mkProcess NoServer false false false false false.

Definition Run (A : Type) : Type := process -> result A * process.
Definition done {A} (a : A) : Run A := fun p => (Done a, p).
Definition step (f : process -> process) : Run unit := fun p => (Done tt, f p).
Definition crash {A} : Run A := fun p => (Crashed, p).
Definition fail {A} (what : string) : Run A := fun p => (Thrown what, p).
Definition andThen {A B} (m : Run A) (k : A -> Run B) : Run B := fun p =>
  match m p with (Done a, p) => k a p | (Thrown what, p) => (Thrown what, p) | (Crashed, p) => (Crashed, p) end.
Definition orElse {A} (m : Run A) (h : Run A) : Run A := fun p =>
  match m p with (Thrown _, p) => h p | r => r end.

(** What the outside does: a connection pool exists once its object was
    constructed, the files of the credentials can be read, [BuildAndStart] gave a
    server (not when the port is taken). *)
Record outside := mkOutside { o_mysql : bool; o_redis : bool; o_read : string -> option string; o_built : bool }.

Section Runner.
Context `{YamlCpp} (o : outside).

(** [if (cleaned.exchange(true)) return;] and the rest. *)
Definition ClearUp : Run unit := fun p =>
  if pr_cleaned p then (Done tt, p)
  else
    let p := mkProcess (match pr_server p with NoServer => NoServer | _ => ShutDown end) false true
               (pr_mysql_closed p) (pr_redis_closed p) (pr_attached p) in
    if negb (o_mysql o) then (Crashed, p)
    else
      let p := mkProcess (pr_server p) (pr_joinable p) (pr_cleaned p) true (pr_redis_closed p) (pr_attached p) in
      if negb (o_redis o) then (Crashed, p)
      else (Done tt, mkProcess (pr_server p) (pr_joinable p) (pr_cleaned p) (pr_mysql_closed p) true (pr_attached p)).

(** [config["self"][k].as<std::string>()] *)
Definition own (config : option yaml) (k : string) : Run string :=
  match (c ← config; self ← key c "self"; v ← key self k; as_string v) with
  | Some s => done s
  | None => fail "yaml"
  end.

Definition attach (b : bool) : Run unit := step (fun p =>
  mkProcess (pr_server p) (pr_joinable p) (pr_cleaned p) (pr_mysql_closed p) (pr_redis_closed p) b).

Definition security (config : option yaml) : Run GrpcSecurityConfig :=
  match config ≫= LoadGrpcSecurityConfig with
  | None => fail "yaml"
  | Some (inl what) => fail what
  | Some (inr c) => done c
  end.

Definition credentials (c : GrpcSecurityConfig) : Run ServerCredentials :=
  match BuildServerCredentials (o_read o) c with
  | None => fail "cannot open gRPC credential file"
  | Some k => done k
  end.

(** The thread waits for the server, without a test for null. *)
Definition serve : Run unit := fun p =>
  if o_built o
  then (Done tt, mkProcess Serving true (pr_cleaned p) (pr_mysql_closed p) (pr_redis_closed p) (pr_attached p))
  else (Crashed, p).

(** Up to the signal, after it, or after an exception. *)
Definition Activate (config : option yaml) : Run bool :=
  orElse
    (andThen (own config "host") (fun _ => andThen (own config "rpcPort") (fun _ =>
     andThen (security config) (fun transportSecurity => andThen (own config "name") (fun _ =>
     andThen (attach true) (fun _ => andThen (credentials transportSecurity) (fun _ =>
     andThen serve (fun _ => andThen ClearUp (fun _ => andThen (attach false) (fun _ =>
     done true))))))))))
    (andThen (attach false) (fun _ => andThen ClearUp (fun _ => done false))).

(** Everything that can be wrong before the server is built. *)
Definition configured (config : option yaml) : bool :=
  match (own config "host" fresh).1, (own config "rpcPort" fresh).1, (security config fresh).1, (own config "name" fresh).1 with
  | Done _, Done _, Done c, Done _ => match BuildServerCredentials (o_read o) c with Some _ => true | None => false end
  | _, _, _, _ => false
  end.

(** Nothing is left behind. *)
Definition at_rest (p : process) : Prop :=
  pr_server p <> Serving /\ pr_joinable p = false /\ pr_cleaned p = true /\ pr_mysql_closed p = true /\
  pr_redis_closed p = true /\ pr_attached p = false.

Lemma own_cases config k : (exists s, forall p, own config k p = (Done s, p)) \/ (forall p, own config k p = (Thrown "yaml", p)).
Proof. unfold own. destruct (c ← config; _) as [s|]; [left; by exists s|by right]. Qed.

Lemma security_cases config : (exists c, forall p, security config p = (Done c, p)) \/
  (exists what, forall p, security config p = (Thrown what, p)).
Proof. unfold security. destruct (config ≫= _) as [[what|c]|]; [right; by exists what|left; by exists c|right; by eexists]. Qed.

(** The three claims at one combination of outcomes. *)
Local Ltac outcomes :=
  repeat split; intros; destruct_or?; try done;
  match goal with Hb : true = true -> false = true |- _ => discriminate (Hb eq_refl) end.

(** [Activate] ends in one of three ways: with everything closed and the answer
    whether the node had served, or with a crash, which happens exactly when the
    server could not be built or when a pool to close was never made. *)
Lemma activate_outcome config :
  let '(r, p) := Activate config fresh in
  (configured config = true -> o_built o = false -> r = Crashed) /\
  (o_mysql o = false \/ o_redis o = false -> r = Crashed) /\
  (o_mysql o = true -> o_redis o = true -> (configured config = true -> o_built o = true) ->
   r = Done (configured config) /\ at_rest p).
Proof.
  unfold Activate, configured, orElse, andThen.
  destruct (own_cases config "host") as [[s1 ->]| ->], (own_cases config "rpcPort") as [[s2 ->]| ->],
    (security_cases config) as [[c ->]|[w ->]], (own_cases config "name") as [[s3 ->]| ->];
    try (unfold attach, ClearUp, step, done, at_rest; destruct (o_mysql o), (o_redis o); simpl; outcomes).
  unfold credentials. simpl. destruct (BuildServerCredentials (o_read o) c) as [k|];
    unfold serve, attach, ClearUp, step, done, at_rest, crash, fail; simpl;
    destruct (o_built o), (o_mysql o), (o_redis o); simpl; outcomes.
Qed.

(** The destructor finds nothing left to do. *)
Lemma cleared_once p : pr_cleaned p = true -> ClearUp p = (Done tt, p).
Proof. intros Hc. unfold ClearUp. by rewrite Hc. Qed.
End Runner.

(** [main]: the exit code and whether the node was started; [loaded] is what
    [Configer] found. *)
Definition node_main (argv : list string) (loaded : bool) (activate : bool) : Z * bool :=
  if (length argv <? 3)%nat then (-1, false)
  else if negb loaded then (-1, false)
  else (0, bool_decide (argv !! 2%nat = Some "--normal") && activate).

(** A node that could not start and a backup that does nothing end like one that
    served. *)
Example failure_exits_with_success argv : (3 <= length argv)%nat -> (node_main argv true false).1 = 0.
Proof. intros Hl. unfold node_main. destruct (Nat.ltb_spec (length argv) 3); [lia|done]. Qed.
