(* ===== verification/Processes.v ===== *)
(** * The main functions of the other processes

    [src/server/gateway/src/main.cc], [src/server/gate/src/main.cc] and
    [src/server/state/src/main.cc] with the constructors they run:
    [MysqlDao] ([Mysql.h]), [RedisDao] ([Redis.h]), [StateClient]
    ([StateClient.cc]), [MessageLinkManager] ([MessageLink.cc]) and its [Start].
    Which settings they need, how the process ends without them, and what it
    has stopped and closed by then.  Whether a port can be bound and the files
    of the credentials can be read is given. *)

From S2P Require Import Prelude Redis StateService Topology Security Startup.

(** How a process ends: with an exit code, with an exception that nothing
    catches, with the use of a null pointer, or not at all. *)
Inductive ending := Exited (code : Z) | Uncaught | NullUse | Serves.

Definition EXIT_SUCCESS : Z := 0.
Definition EXIT_FAILURE : Z := 1.

(** [WIMI_CONFIG], then the argument where there is one, then the default. *)
Definition gateway_config_path (env : option string) (argv : list string) : string :=
  match env with
  | Some path => path
  | None => default "../conf/gateway-hunan.yaml" (argv !! 1%nat)
  end.
Definition gate_config_path (env : option string) : string := default "../conf/gate.yaml" env.
Definition state_config_path (env : option string) : string := default "../conf/state-single.yaml" env.

Section Processes.
Context `{YamlCpp}.

(** [config[section][k].as<A>()]; [None] is an exception of yaml-cpp. *)
Definition setting {A} (as_ : yaml -> option A) (config : option yaml) (section k : string) : option A :=
  c ← config; s ← key c section; v ← key s k; as_ v.

(** [!config["self"]], for a node that may be missing. *)
Definition section_of (config : option yaml) (k : string) : option yaml := c ← config; key c k.

(** ** The singletons *)

(** Whether the pool was made: every exception is logged and forgotten. *)
Definition MysqlDao (config : option yaml) : bool :=
  bool_decide (is_Some (
    _ ← setting as_string config "mysql" "host"; _ ← setting as_ushort config "mysql" "port";
    _ ← setting as_string config "mysql" "user"; _ ← setting as_string config "mysql" "password";
    _ ← setting as_string config "mysql" "schema"; setting as_int config "mysql" "clientCount")).

(** The number of this machine, cut to sixteen bits; [None] when an exception
    leaves the constructor. *)
Definition RedisDao (config : option yaml) : option Z :=
  _ ← setting as_string config "redis" "host"; _ ← setting as_int config "redis" "port";
  _ ← setting as_string config "redis" "password"; _ ← setting as_int config "redis" "clientCount";
  machine ← setting as_int config "redis" "machineId"; Some (uint16 machine).

Definition StateClient (config : option yaml) : bool :=
  bool_decide (is_Some (
    _ ← setting as_string config "stateRPC" "host"; _ ← setting as_string config "stateRPC" "port";
    setting as_int config "stateRPC" "rpcCount")).

(** ** The gateway *)

(** The credentials towards the message nodes and the address of the state
    service, empty without one. *)
Definition MessageLinkManager (read : string -> option string) (config : option yaml) : option (ChannelCredentials * string) :=
  c ← config;
  security ← match LoadGrpcSecurityConfig c with Some (inr s) => Some s | _ => None end;
  messageCredentials ← BuildChannelCredentials read security;
  match key c "stateRPC" with
  | None => Some (messageCredentials, "")
  | Some _ => host ← setting as_string config "stateRPC" "host"; port ← setting as_string config "stateRPC" "port";
              Some (messageCredentials, host +:+ ":" +:+ port)
  end.

(** What was stopped or closed, in this order, after the gateway had served. *)
Inductive farewell := StopsLinks | StopsLoop | StopsLinksAgain | StopsPool | ClosesMysql | ClosesRedis.

(** [config] is [Configer::getNode("server")] of a file that was [loaded]; the
    gateway serves until a signal. *)
Definition gateway_main (loaded : bool) (config : option yaml) (read : string -> option string) (bound : bool)
  : ending * list farewell :=
  if negb loaded then (Exited EXIT_FAILURE, [])
  else
    match (self ← section_of config "self"; name ← key self "name"; port ← key self "port"; Some (name, port)) with
    | None => (Exited EXIT_FAILURE, [])
    | Some (name, port) =>
        match (_ ← as_string name; _ ← as_ushort port; _ ← RedisDao config; _ ← MessageLinkManager read config;
               config ≫= LoadConfiguredNodes) with
        | None => (Uncaught, [])
        | Some _ =>
            if negb bound then (Uncaught, [])
            else
              let stopped := [StopsLinks; StopsLoop; StopsLinksAgain; StopsPool] in
              if MysqlDao config then (Exited EXIT_SUCCESS, stopped ++ [ClosesMysql; ClosesRedis])
              else (NullUse, stopped)
        end
    end.

(** What the gateway needs to serve. *)
Record gateway_configured (config : option yaml) (read : string -> option string) : Prop := {
  gc_name : is_Some (setting as_string config "self" "name");
  gc_port : is_Some (setting as_ushort config "self" "port");
  gc_redis : is_Some (RedisDao config);
  gc_links : is_Some (MessageLinkManager read config);
  gc_nodes : is_Some (config ≫= LoadConfiguredNodes) }.

(** The gateway serves exactly when it is configured and its port is free; then
    it ends with everything stopped and closed in order, and success, unless the
    MySQL settings were missing: that is found out only at the end, when the
    pool that was never made is closed.  An exit code other than success means
    that the settings of the gateway itself are missing. *)
Theorem gateway_ends loaded config read bound :
  let '(e, done) := gateway_main loaded config read bound in
  (done <> [] <-> loaded = true /\ bound = true /\ gateway_configured config read) /\
  (done <> [] -> if MysqlDao config
     then e = Exited EXIT_SUCCESS /\ done = [StopsLinks; StopsLoop; StopsLinksAgain; StopsPool; ClosesMysql; ClosesRedis]
     else e = NullUse /\ done = [StopsLinks; StopsLoop; StopsLinksAgain; StopsPool]) /\
  (done = [] -> e = Uncaught \/ e = Exited EXIT_FAILURE).
Proof.
  unfold gateway_main. destruct loaded; cbn [negb]; [|split; [by split; [|intros []]|split; [done|by right]]].
  destruct (self ← section_of config "self"; _) as [[name port]|] eqn:Es.
  - destruct (_ ← as_string name; _) as [nodes|] eqn:Ec.
    + assert (gateway_configured config read) as Hc.
      { apply bind_Some in Es as (self & Eself & (n & En & (p & Ep & [= <- <-])%bind_Some)%bind_Some).
        apply bind_Some in Ec as (? & Ename & (? & Eport & (r & Er & (l & El & Enodes)%bind_Some)%bind_Some)%bind_Some).
        apply bind_Some in Eself as (c & -> & Eself). split; [| |by exists r|by exists l|by exists nodes];
          unfold setting; simpl; rewrite Eself; simpl; [rewrite En|rewrite Ep]; by eexists. }
      destruct bound; cbn [negb]; [|split; [by split; [|intros (_ & ? & _)]|split; [done|by left]]].
      destruct (MysqlDao config); (split; [done|]); by split.
    + split; [|split; [done|by left]]. split; [done|]. intros (_ & _ & [Hn Hp [r Er] [l El] [nodes Enodes]]). exfalso.
      apply bind_Some in Es as (self & Eself & (n & En & (p & Ep & [= <- <-])%bind_Some)%bind_Some).
      apply bind_Some in Eself as (c & -> & Eself). unfold setting in Hn, Hp. simpl in Hn, Hp.
      rewrite Eself in Hn, Hp. simpl in Hn, Hp. rewrite En in Hn. rewrite Ep in Hp. destruct Hn as [x Hn], Hp as [y Hp].
      simpl in Hn, Hp, Enodes. revert Ec. rewrite Hn, Hp, Er, El. simpl. by rewrite Enodes.
  - split; [|split; [done|by right]]. split; [done|]. intros (_ & _ & [[x Hn] [y Hp] _ _ _]). exfalso.
    apply bind_Some in Hn as (c & -> & (self & Eself & (n & En & _)%bind_Some)%bind_Some).
    unfold setting in Hp. simpl in Hp. rewrite Eself in Hp. simpl in Hp.
    apply bind_Some in Hp as (p & Ep & _).
    revert Es. simpl. rewrite Eself. simpl. rewrite En. simpl. by rewrite Ep.
Qed.

(** ** The HTTP gate *)

(** Everything from reading the configuration on is in one [try]; the singletons
    are closed by their destructors. *)
Definition gate_main (loaded : bool) (config : option yaml) (bound : bool) : ending * bool :=
  if negb loaded then (Exited 0, false)
  else
    match section_of config "gateway" with
    | None => (Exited 0, false)
    | Some _ =>
        match RedisDao config with
        | None => (Exited EXIT_FAILURE, false)
        | Some _ =>
            if StateClient config && bool_decide (is_Some (setting as_ushort config "gateway" "port")) && bound
            then (Exited 0, true) else (Exited EXIT_FAILURE, false)
        end
    end.

(** The gate serves when it is configured and its port is free; MySQL settings
    are not needed for that.  Without a file or without its section it ends like
    a gate that has served. *)
Theorem gate_ends loaded config bound :
  let '(e, served) := gate_main loaded config bound in
  (served = true <-> loaded = true /\ bound = true /\ is_Some (setting as_ushort config "gateway" "port") /\
     is_Some (RedisDao config) /\ StateClient config = true) /\
  (e = Exited 0 <-> served = true \/ loaded = false \/ section_of config "gateway" = None).
Proof.
  unfold gate_main, EXIT_FAILURE. destruct loaded; cbn [negb]; [|split; [by split; [|intros []]|split; auto]].
  destruct (section_of config "gateway") as [g|] eqn:Eg.
  - destruct (RedisDao config) as [machine|] eqn:Er.
    2:{ split; [split; [done|by intros (_ & _ & _ & [] & _)]|]. split; [done|]. by intros [?|[?|?]]. }
    destruct (StateClient config), (decide (is_Some (setting as_ushort config "gateway" "port"))) as [Hp|Hp], bound;
      rewrite ?(bool_decide_true _ Hp), ?(bool_decide_false _ Hp); cbn [andb]; split;
      try (split; [done|]; first [by intros (_ & Hb & Hs & _ & Hc)|intros (_ & _ & Hs & _); by destruct Hp|by intros [?|[?|?]]]).
    split; [by left|done].
  - split; [|split; auto]. split; [done|]. intros (_ & _ & [p Hp] & _). exfalso.
    apply bind_Some in Hp as (c & -> & (s & Es & _)%bind_Some). simpl in Eg. congruence.
Qed.

(** ** The state service *)

(** Its server takes connections without encryption and is waited for without a
    test for null; no signal ends it. *)
Definition state_main (loaded : bool) (config : option yaml) (built : bool) : ending :=
  if negb loaded then Exited 0
  else
    match section_of config "state" with
    | None => Exited 0
    | Some state =>
        match (_ ← (v ← key state "host"; as_string v); _ ← (v ← key state "port"; as_string v);
               c ← config; StateServiceImpl c) with
        | None => Uncaught
        | Some _ => if built then Serves else NullUse
        end
    end.

(** A state service whose port is taken uses a null pointer. *)
Theorem state_port_taken config s : is_Some (setting as_string config "state" "host") ->
  is_Some (setting as_string config "state" "port") -> config ≫= StateServiceImpl = Some s ->
  state_main true config false = NullUse /\ state_main true config true = Serves.
Proof.
  intros [x Hx] [y Hy] Hs. apply bind_Some in Hx as (c & -> & (state & Es & (h & Eh & Hh)%bind_Some)%bind_Some).
  unfold setting in Hy. simpl in Hy, Hs. rewrite Es in Hy. simpl in Hy. apply bind_Some in Hy as (p & Ep & Hp).
  unfold state_main. simpl. rewrite Es. simpl. rewrite Eh. simpl. rewrite Hh. simpl. rewrite Ep. simpl. rewrite Hp. simpl. by rewrite Hs.
Qed.
End Processes.
