(* ===== verification/Gate.v ===== *)
(** * The HTTP gate

    [src/server/gate/src/service/Service.cc], [VerificationService.cc],
    [StateClient.cc] and the handling of a request in [HttpSession.cc]:
    verification codes, registration, sign-in, a forgotten password.  jsoncpp,
    libcurl, the random sources and the state service's transport are
    parameters; a handler that throws leaves the request without an answer. *)

From S2P Require Import Prelude Const Redis Store Mysql StateService Url.

(** ** JSON *)

(** [Json::Value].  A real number comes with its text and its integer part. *)
Inductive Json :=
  | JNull
  | JBool (b : bool)
  | JInt (z : Z)
  | JReal (text : string) (integer : Z)
  | JString (s : string)
  | JArray (size : nat)
  | JObject (fields : Fields)
with Fields :=
  | NoField
  | Field (name : string) (value : Json) (rest : Fields).

Fixpoint find_field (name : string) (fields : Fields) : option Json :=
  match fields with
  | NoField => None
  | Field n v rest => if decide (n = name) then Some v else find_field name rest
  end.

(** [empty()] *)
Definition json_empty (v : Json) : bool :=
  match v with
  | JNull | JArray O | JObject NoField => true
  | _ => false
  end.

(** What a response holds. *)
Inductive Scalar := SInt (z : Z) | SString (s : string) | SBool (b : bool).
Abbreviation Response := (list (string * Scalar)).

Definition json_of (s : Scalar) : Json :=
  match s with SInt z => JInt z | SString s => JString s | SBool b => JBool b end.

Fixpoint member_of (name : string) (r : Response) : option Scalar :=
  match r with
  | [] => None
  | (k, v) :: r => if decide (k = name) then Some v else member_of name r
  end.

(** [response[name] = value] *)
Fixpoint set_member (name : string) (value : Scalar) (r : Response) : Response :=
  match r with
  | [] => [(name, value)]
  | (k, v) :: r => if decide (k = name) then (k, value) :: r else (k, v) :: set_member name value r
  end.

Definition error_response (error : Z) : Response := [("error", SInt error)].

(** Texts of a response, as the client's parser reads them too. *)
Class JsonText := {
  toStyledString : Response -> string;
  parse_json : string -> option Json;
  parse_styled : forall r, exists fields, parse_json (toStyledString r) = Some (JObject fields) /\
    forall name, find_field name fields = json_of <$> member_of name r }.

(** ** Outside *)

(** [out_redis n], [out_ids n], ...: how the n-th use of something outside fares.
    [out_token] is two UUIDs, [out_smtp] the result of [curl_easy_perform]. *)
Class Outside := {
  out_redis : nat -> call;
  out_ids : nat -> list call;
  out_date_time : nat -> string;
  out_code : nat -> Z;
  out_token : nat -> string;
  out_smtp : nat -> string -> bool;
  out_rpc : nat -> fault;
  out_machine : Z;
  out_code_range : forall n, 0 <= out_code n <= 999999;
  out_token_some : forall n, out_token n <> "" }.

(** The settings of [VerificationService]. *)
Record Verification := mkVerification {
  codeTtlSeconds : Z; resendCooldownSeconds : Z; maxAttempts : Z; emailEnabled : bool;
  exposeCodeInResponse : bool; smtpUrl : string; emailUser : string; emailPassword : string }.

Definition default_verification : Verification :=
  mkVerification 180 60 5 false false "smtps://smtp.qq.com:465" "" "".

(** The databases, the state service behind its RPC, the number of uses. *)
Record gate := mkGate { g_sql : store; g_cache : redis; g_state : state_service; g_uses : nat }.

Abbreviation Gate := (ST gate).

(** ** Email addresses *)

Definition isspace (c : ascii) : bool := ((9 <=? ord c) && (ord c <=? 13)) || (ord c =? 32).
Definition tolower (c : ascii) : ascii := if is_between c "A" "Z" then chr (ord c + 32) else c.

Fixpoint skip_spaces (l : list ascii) : list ascii :=
  match l with
  | c :: l' => if isspace c then skip_spaces l' else l
  | [] => []
  end.

Definition NormalizeEmail (email : string) : string :=
  let trimmed := rev (skip_spaces (rev (skip_spaces (String.list_ascii_of_string email)))) in
  String.string_of_list_ascii (tolower <$> trimmed).

(** [find], [rfind] *)
Definition find_from (c : ascii) (from : nat) (l : list ascii) : option nat :=
  (fun x => from + x.1)%nat <$> list_find (fun d => d = c) (drop from l).
Definition rfind (c : ascii) (l : list ascii) : option nat :=
  (fun x => length l - 1 - x.1)%nat <$> list_find (fun d => d = c) (rev l).

Definition forbidden (c : ascii) : bool :=
  existsb (fun d => bool_decide (c = d)) [" "; chr 9; chr 13; chr 10; "{"; "}"]%char.

Definition IsValidEmail (email : string) : bool :=
  let l := String.list_ascii_of_string email in
  if str_empty email || (254 <? Z.of_nat (length l)) || existsb forbidden l then false
  else
    match find_from "@" 0 l with
    | None => false
    | Some at_ =>
        if bool_decide (at_ = 0%nat) || negb (bool_decide (rfind "@" l = Some at_)) ||
           bool_decide (length l < at_ + 3)%nat
        then false
        else match find_from "." (at_ + 2) l with
             | None => false
             | Some dot => bool_decide (dot + 1 < length l)%nat
             end
    end.

(** ** Settings *)

Definition ParseBool (value : option string) (fallback : bool) : bool :=
  match value with
  | None => fallback
  | Some v =>
      if bool_decide (v = "1") || bool_decide (v = "true") || bool_decide (v = "on") then true
      else if bool_decide (v = "0") || bool_decide (v = "false") || bool_decide (v = "off") then false
      else fallback
  end.

Definition EnvironmentOr (value : option string) (fallback : string) : string := default fallback value.

(** [node[k].as<T>(fallback)] *)
Definition as_or {A} `{YamlCpp} (as_ : yaml -> option A) (node : yaml) (k : string) (fallback : A) : A :=
  default fallback (key node k ≫= as_).

(** The constructor: the file, then the environment. *)
Definition load_verification `{YamlCpp} (as_bool : yaml -> option bool) (getenv : string -> option string)
    (server : option yaml) : Verification :=
  let v := default_verification in
  let v := match server ≫= (fun s => key s "verification") with
           | None => v
           | Some n =>
               let v := mkVerification (as_or as_int n "codeTtlSeconds" 180)
                          (as_or as_int n "resendCooldownSeconds" 60) (as_or as_int n "maxAttempts" 5)
                          (emailEnabled v) (as_or as_bool n "exposeCodeInResponse" false) (smtpUrl v)
                          (emailUser v) (emailPassword v) in
               match key n "email" with
               | None => v
               | Some e =>
                   mkVerification (codeTtlSeconds v) (resendCooldownSeconds v) (maxAttempts v)
                     (as_or as_bool e "enabled" false) (exposeCodeInResponse v)
                     (as_or as_string e "smtpUrl" (smtpUrl v)) (as_or as_string e "username" "")
                     (as_or as_string e "password" "")
               end
           end in
  mkVerification (codeTtlSeconds v) (resendCooldownSeconds v) (maxAttempts v)
    (ParseBool (getenv "WIMI_VERIFY_SEND_EMAIL") (emailEnabled v))
    (ParseBool (getenv "WIMI_VERIFY_EXPOSE_CODE") (exposeCodeInResponse v))
    (EnvironmentOr (getenv "WIMI_VERIFY_SMTP_URL") (smtpUrl v))
    (EnvironmentOr (getenv "WIMI_VERIFY_EMAIL_USER") (emailUser v))
    (EnvironmentOr (getenv "WIMI_VERIFY_EMAIL_PASS") (emailPassword v)).

(** ** Sending a message *)

(** [EmailPayload] and one call of [ReadEmailPayload] for [capacity] bytes. *)
Record EmailPayload := mkPayload { pl_data : string; pl_offset : nat }.

Definition ReadEmailPayload (capacity : nat) (p : EmailPayload) : string * EmailPayload :=
  let copied := Nat.min capacity (String.length (pl_data p) - pl_offset p) in
  if bool_decide (copied = 0%nat) then ("", p)
  else (String.substring (pl_offset p) copied (pl_data p), mkPayload (pl_data p) (pl_offset p + copied)).

Definition crlf : string := String (chr 13) (String (chr 10) "").

Definition email_text (recipient user code : string) (ttl : Z) : string :=
  "To: " +:+ recipient +:+ crlf +:+ "From: " +:+ user +:+ crlf +:+
  "Subject: WIMI verification code" +:+ crlf +:+
  "Content-Type: text/plain; charset=utf-8" +:+ crlf +:+ crlf +:+
  "Your WIMI verification code is " +:+ code +:+ ". It expires in " +:+ to_string ttl +:+ " seconds." +:+ crlf.

Section Operations.
Context `{Collation} `{Faults} `{Outside} (v : Verification).

Definition use_sql {A} (f : store -> A * store) : Gate A := fun g =>
  let '(a, s) := f (g_sql g) in (Ok a, mkGate s (g_cache g) (g_state g) (g_uses g)).
Definition use_redis {A} (f : call -> redis -> A * redis) : Gate A := fun g =>
  let '(a, r) := f (out_redis (g_uses g)) (g_cache g) in (Ok a, mkGate (g_sql g) r (g_state g) (S (g_uses g))).
(** Anything else that is asked of the outside. *)
Definition ask {A} (f : nat -> A) : Gate A := fun g =>
  (Ok (f (g_uses g)), mkGate (g_sql g) (g_cache g) (g_state g) (S (g_uses g))).
Definition generate_user_id : Gate Z := fun g =>
  let '(a, r) := generateUserId out_machine (out_ids (g_uses g)) (g_cache g) in
  (Ok a, mkGate (g_sql g) r (g_state g) (S (g_uses g))).

(** ** Verification codes *)

(** Six digits. *)
Definition GenerateCode : Gate string :=
  ask (fun n =>
    let code := to_string (out_code n) in
    String.string_of_list_ascii (replicate (6 - String.length code)%nat "0"%char) +:+ code).

Definition SendEmail (recipient code : string) : Gate bool :=
  if str_empty (smtpUrl v) || str_empty (emailUser v) || str_empty (emailPassword v) then ret false
  else ask (fun n => out_smtp n (email_text recipient (emailUser v) code (codeTtlSeconds v))).

Record VerificationCodeIssue := mkIssue { vi_error : Z; vi_issued : bool; vi_developmentCode : string }.

Definition RequestEmailCode (rawEmail : string) : Gate VerificationCodeIssue :=
  let email := NormalizeEmail rawEmail in
  if negb (IsValidEmail email) then ret (mkIssue EmailNotMatch false "")
  else if negb (emailEnabled v) && negb (exposeCodeInResponse v)
  then ret (mkIssue DependencyUnavailable false "")
  else
    let* code := GenerateCode in
    let* issued := use_redis (issueVerificationCode email code (codeTtlSeconds v) (resendCooldownSeconds v)) in
    if issued <? 0 then ret (mkIssue DependencyUnavailable false "")
    else
      let was_issued := issued =? 1 in
      let* activeCode := (if negb was_issued && exposeCodeInResponse v
                          then use_redis (getVerificationCode email) else ret code) in
      let* sent := (if was_issued && emailEnabled v then SendEmail email code else ret true) in
      if negb sent then
        let* _ := use_redis (clearVerificationCode email code) in
        ret (mkIssue DependencyUnavailable was_issued "")
      else ret (mkIssue Success was_issued (if exposeCodeInResponse v then activeCode else "")).

Definition VerifyAndConsume (rawEmail code : string) : Gate bool :=
  let email := NormalizeEmail rawEmail in
  if negb (IsValidEmail email) || negb (bool_decide (String.length code = 6%nat)) then ret false
  else use_redis (consumeVerificationCode email code (maxAttempts v)).

(** ** The state service *)

(** [rpc::ServerNode]; the default one is zeroed. *)
Record ServerNode := mkServerNode { sv_ip : string; sv_port : Z; sv_nodeId : string }.
Definition no_node : ServerNode := mkServerNode "" 0 "".
Definition node_empty (n : ServerNode) : bool := str_empty (sv_ip n) || (sv_port n =? 0).

(** A call of the state service that may not arrive, or whose answer may be lost. *)
Definition call_state {A} (f : Service (StateService.Status * A)) : Gate (option A) := fun g =>
  match out_rpc (g_uses g) with
  | FBefore => (Ok None, mkGate (g_sql g) (g_cache g) (g_state g) (S (g_uses g)))
  | fault =>
      let '((status, a), s) := f (g_state g) in
      (Ok (match fault, status with FNone, OK => Some a | _, _ => None end),
       mkGate (g_sql g) (g_cache g) s (S (g_uses g)))
  end.

Definition node_of (answer : option ConnectUserRsp) : ServerNode :=
  match answer with
  | Some rsp => mkServerNode (cr_ip rsp) (uint16 (cr_port rsp)) (cr_node_id rsp)
  | None => no_node
  end.

Definition PickConnectionGateway (uid : Z) : Gate ServerNode :=
  let* answer := call_state StateService.PickConnectionGateway in ret (node_of answer).

Definition GetImServer (uid : Z) : Gate ServerNode :=
  let* answer := call_state (StateService.GetImServer uid) in ret (node_of answer).

Definition ActiveImBackupServer (rpc : string -> bool) (uid : Z) : Gate ServerNode :=
  let* answer := call_state (StateService.ActiveImBackupServer rpc uid) in ret (node_of answer).

Definition TestNetworkPing (rpc : string -> bool) : Gate string :=
  let* answer := call_state (StateService.TestNetworkPing rpc) in ret (default "" answer).

(** ** Reading a request *)

(** [requestData[name]] *)
Definition member (name : string) (data : Json) : Gate Json :=
  match data with
  | JNull => ret JNull
  | JObject fields => ret (default JNull (find_field name fields))
  | _ => throw "in Json::Value::resolveReference(): requires objectValue"
  end.

Definition isMember (name : string) (data : Json) : Gate bool :=
  match data with
  | JNull => ret false
  | JObject fields => ret (bool_decide (is_Some (find_field name fields)))
  | _ => throw "in Json::Value::find(): requires objectValue or nullValue"
  end.

Definition asString (value : Json) : Gate string :=
  match value with
  | JNull => ret ""
  | JString s => ret s
  | JBool b => ret (if b then "true" else "false")
  | JInt z => ret (to_string z)
  | JReal text _ => ret text
  | _ => throw "Type is not convertible to string"
  end.

Definition asInt (value : Json) : Gate Z :=
  let checked z := if (- 2 ^ 31 <=? z) && (z <? 2 ^ 31) then ret z else throw "out of Int range" in
  match value with
  | JNull => ret 0
  | JBool b => ret (if b then 1 else 0)
  | JInt z => checked z
  | JReal _ z => checked z
  | _ => throw "Value is not convertible to Int."
  end.

(** [isMember] of the four names, short-circuiting. *)
Fixpoint all_members (names : list string) (data : Json) : Gate bool :=
  match names with
  | [] => ret true
  | name :: names =>
      let* found := isMember name data in
      if (found : bool) then all_members names data else ret false
  end.

Definition string_member (name : string) (data : Json) : Gate string :=
  let* value := member name data in asString value.

(** ** Handlers

    A response with the value the handler returns. *)

Definition fail_with (error : Z) : Gate (Response * bool) := ret (error_response error, false).

Definition requestVerificationCode (requestData : Json) : Gate (Response * bool) :=
  let* found := isMember "email" requestData in
  if negb found then fail_with JsonParser
  else
    let* raw := string_member "email" requestData in
    let email := NormalizeEmail raw in
    let* result := RequestEmailCode email in
    let rsp := error_response (vi_error result) in
    let rsp := set_member "email" (SString email) rsp in
    let rsp := set_member "issued" (SBool (vi_issued result)) rsp in
    let rsp := if str_empty (vi_developmentCode result) then rsp
               else set_member "verificationCode" (SString (vi_developmentCode result)) rsp in
    ret (rsp, vi_error result =? Success).

Definition signUp (requestData : Json) : Gate (Response * bool) :=
  let* found := all_members ["username"; "password"; "email"; "verifycode"] requestData in
  if negb found then fail_with JsonParser
  else
    let* username := string_member "username" requestData in
    let* password := string_member "password" requestData in
    let* raw := string_member "email" requestData in
    let email := NormalizeEmail raw in
    let* verificationCode := string_member "verifycode" requestData in
    if str_empty username || str_empty password || negb (IsValidEmail email) then fail_with JsonParser
    else
      let* has_email := use_sql (hasEmail email) in
      if negb (has_email =? 0) then fail_with UserExist
      else
        let* has_username := use_sql (hasUsername username) in
        if negb (has_username =? 0) then fail_with UserExist
        else
          let* verified := VerifyAndConsume email verificationCode in
          if negb verified then fail_with VerificationCodeInvalid
          else
            let* uid := generate_user_id in
            let* createTime := ask out_date_time in
            let user := mkUser (uint64 uid) username password email "" in
            let* has_user := use_sql (userRegister user createTime) in
            if negb (has_user =? 0) then fail_with (-1)
            else ret ([("error", SInt 0); ("uid", SInt uid); ("username", SString username);
                       ("email", SString email)], true).

Definition kChatAuthTokenTtlSeconds : Z := 15 * 60.

Definition signIn (requestData : Json) : Gate (Response * bool) :=
  let* username := string_member "username" requestData in
  let* password := string_member "password" requestData in
  let* found := use_sql (getUser username) in
  match found with
  | None => fail_with (-1)
  | Some (_, user) =>
      if negb (bool_decide (u_password user = password)) then fail_with (-1)
      else
        let* node := PickConnectionGateway (int32 (u_uid user)) in
        if node_empty node then fail_with (-1)
        else
          let* signed_in_before := use_sql (hasUserInfo (int64 (u_uid user))) in
          let rsp := [("init", SInt (if (signed_in_before : bool) then 0 else 1)); ("error", SInt 0);
                      ("uid", SInt (int64 (u_uid user))); ("ip", SString (sv_ip node));
                      ("port", SInt (sv_port node)); ("gatewayId", SString (sv_nodeId node))] in
          let* chatAuthToken := ask out_token in
          let* stored := use_redis (setChatAuthToken (int64 (u_uid user)) chatAuthToken kChatAuthTokenTtlSeconds) in
          if negb stored then fail_with InternalError
          else ret (rsp |> set_member "chatToken" (SString chatAuthToken)
                        |> set_member "chatTokenExpiresIn" (SInt kChatAuthTokenTtlSeconds), true)
  end.

Definition chatArrhythmia (requestData : Json) : Gate (Response * bool) :=
  let* value := member "uid" requestData in
  let* uid := asInt value in
  let* node := PickConnectionGateway uid in
  if str_empty (sv_ip node) || (sv_port node =? 0) then fail_with RPCFailed
  else ret ([("error", SInt Success); ("host", SString (sv_ip node)); ("port", SInt (sv_port node))], true).

(** [user->password = password] *)
Definition set_password (password : string) (u : User) : User :=
  mkUser (u_uid u) (u_username u) password (u_email u) (u_createTime u).

Definition forgetPassword (requestData : Json) : Gate (Response * bool) :=
  let* found := all_members ["username"; "password"; "email"; "verifycode"] requestData in
  if negb found then fail_with JsonParser
  else
    let* username := string_member "username" requestData in
    let* password := string_member "password" requestData in
    let* raw := string_member "email" requestData in
    let email := NormalizeEmail raw in
    let* verificationCode := string_member "verifycode" requestData in
    let* found := use_sql (getUser username) in
    match found with
    | None => fail_with NotFound
    | Some (_, user) =>
        if negb (bool_decide (NormalizeEmail (u_email user) = email)) then fail_with EmailNotMatch
        else if str_empty password then fail_with PasswdInvalid
        else
          let* verified := VerifyAndConsume email verificationCode in
          if negb verified then fail_with VerificationCodeInvalid
          else
            let* updateResult := use_sql (userModifyPassword (set_password password user)) in
            if negb (updateResult =? 0) then fail_with PasswdUpFailed
            else ret ([("error", SInt 0); ("username", SString username)], true)
    end.

(** Not entered in any table.  [requestData.asString()] on an object throws. *)
Definition initUserinfo (requestData : Json) : Gate (Response * bool) :=
  catch (
    let* uid := (let* value := member "uid" requestData in
                 match value with
                 | JNull => ret 0 | JBool b => ret (if b then 1 else 0)
                 | JInt z | JReal _ z =>
                     if (- 2 ^ 63 <=? z) && (z <? 2 ^ 63) then ret z else throw "out of Int64 range"
                 | _ => throw "Value is not convertible to Int64."
                 end) in
    let* name := string_member "name" requestData in
    let* age := (let* value := member "age" requestData in asInt value) in
    let* sex := string_member "sex" requestData in
    let* headImageURI := asString requestData in
    let* has_info := use_sql (insertUserInfo (mkUserInfo uid name age sex headImageURI)) in
    if negb (has_info =? 0) then fail_with (-1) else ret (error_response 0, true))
  (fun _ => fail_with JsonParser).

(** ** Requests *)

Inductive verb := Get | Post | OtherVerb.

#[export] Instance verb_eq_dec : EqDecision verb.
Proof. solve_decision. Defined.

Record HttpRequest := mkHttpRequest { rq_method : verb; rq_target : string; rq_body : string }.

Record HttpResponse := mkHttpResponse { rs_status : Z; rs_content_type : string; rs_server : string; rs_body : string }.

Context `{JsonText}.

(** The tables of the constructor. *)
Definition styled (handler : Json -> Gate (Response * bool)) (data : Json) : Gate (string * bool) :=
  let* result := handler data in ret (toStyledString result.1, result.2).

Definition getHandler (rpc : string -> bool) (path : string) : option (Json -> Gate (string * bool)) :=
  if bool_decide (path = "/test") then Some (fun _ => ret ("[TEST]", true))
  else if bool_decide (path = "/test-net") then
    Some (fun _ => let* answer := TestNetworkPing rpc in
                   ret (if str_empty answer then "[Network is not reachable]" else "[TEST SUCCESS!]", true))
  else None.

Definition postHandler (path : string) : option (Json -> Gate (string * bool)) :=
  if bool_decide (path = "/post-verifycode") then Some (styled requestVerificationCode)
  else if bool_decide (path = "/post-signUp") then Some (styled signUp)
  else if bool_decide (path = "/post-forget-password") then Some (styled forgetPassword)
  else if bool_decide (path = "/post-signIn") then Some (styled signIn)
  else if bool_decide (path = "/post-arrhythmia") then Some (styled chatArrhythmia)
  else None.

Definition parseRequest (body : string) : Json := default JNull (parse_json body).

Definition Handle (rpc : string -> bool) (body path : string) (method : verb) : Gate (HttpResponse * bool) :=
  let handler := match method with
                 | Get => getHandler rpc path
                 | Post => postHandler path
                 | OtherVerb => None
                 end in
  match handler with
  | None => ret (mkHttpResponse 404 "text/plain" "" "url not found", false)
  | Some handler =>
      let source := parseRequest body in
      if json_empty source && bool_decide (method = Post) then
        ret (mkHttpResponse 200 "application/json" ""
               ("content-type not support | " +:+ toStyledString (error_response JsonParser)), true)
      else
        let* result := handler source in
        ret (mkHttpResponse 200 "application/json" "GateServer" result.1, result.2)
  end.

(** What becomes of a connection: an answer is written, it is dropped by the
    [catch] of [Start], or the process ends. *)
Inductive http_result := Written (r : HttpResponse) | Dropped | Aborted.

Definition HandleRequest (rpc : string -> bool) (request : HttpRequest) (g : gate) : http_result * gate :=
  let answer path :=
    match Handle rpc (rq_body request) path (rq_method request) g with
    | (Ok r, g) => (Written r.1, g)
    | (Throw _, g) => (Dropped, g)
    end in
  match rq_method request with
  | Get => match PreParseGetParam (rq_target request) with
           | None => (Aborted, g)
           | Some (url, _) => answer url
           end
  | Post => answer (rq_target request)
  | OtherVerb => answer ""
  end.
End Operations.
