(* ===== verification/Accounts.v ===== *)
(** * The HTTP gate: accounts

    What the handlers of [src/server/gate/src/service/Service.cc] (file Gate) do
    to the accounts, the verification codes and the tokens: an account is only
    made, or its password changed, with the code of its email address; names,
    addresses and ids stay unique; a user who signs in can log in at the
    gateway. *)

From S2P Require Import Prelude Const Packet Redis Store Mysql StateService Url Gate.

(** ** Email addresses *)

Lemma tolower_twice c : tolower (tolower c) = tolower c.
Proof. destruct c as [[] [] [] [] [] [] [] []]; vm_compute; reflexivity. Qed.
Lemma isspace_tolower c : isspace (tolower c) = isspace c.
Proof. destruct c as [[] [] [] [] [] [] [] []]; vm_compute; reflexivity. Qed.

Lemma skip_spaces_lower l : skip_spaces (tolower <$> l) = tolower <$> skip_spaces l.
Proof. induction l as [|c l IH]; [done|]. csimpl. rewrite isspace_tolower. by destruct (isspace c). Qed.

(** No space in front. *)
Definition trimmed (l : list ascii) : Prop := skip_spaces l = l.

Lemma skip_spaces_trimmed l : trimmed (skip_spaces l).
Proof.
  unfold trimmed. induction l as [|c l IH]; [done|]. simpl. destruct (isspace c) eqn:E; [done|].
  simpl. by rewrite E.
Qed.
Lemma skip_spaces_suffix l : exists s, l = s ++ skip_spaces l.
Proof.
  induction l as [|c l [s IH]]; [by exists []|]. simpl. destruct (isspace c); [|by exists []].
  exists (c :: s). simpl. by rewrite <- IH.
Qed.
Lemma trimmed_app l s : trimmed (l ++ s) -> trimmed l.
Proof.
  unfold trimmed. destruct l as [|c l]; [done|]. simpl. destruct (isspace c); [|done]. intros H.
  destruct (skip_spaces_suffix (l ++ s)) as [t Ht]. rewrite H in Ht.
  apply (f_equal length) in Ht. rewrite (length_app t) in Ht. simpl in Ht. lia.
Qed.

Lemma NormalizeEmail_twice email : NormalizeEmail (NormalizeEmail email) = NormalizeEmail email.
Proof.
  unfold NormalizeEmail. rewrite String.list_ascii_of_string_of_list_ascii. f_equal.
  set (m := skip_spaces (String.list_ascii_of_string email)).
  assert (trimmed m) as Hm by apply skip_spaces_trimmed. clearbody m.
  assert (trimmed (rev (skip_spaces (rev m)))) as Ht.
  { destruct (skip_spaces_suffix (rev m)) as [s Hs]. apply (f_equal (@rev ascii)) in Hs.
    rewrite rev_involutive, rev_app_distr in Hs. apply trimmed_app with (rev s). by rewrite <- Hs. }
  rewrite skip_spaces_lower, Ht, <- map_rev, rev_involutive.
  change (map tolower) with (fmap (M := list) tolower).
  rewrite skip_spaces_lower, (skip_spaces_trimmed (rev m)), <- map_rev.
  change (map tolower) with (fmap (M := list) tolower). rewrite <- list_fmap_compose.
  apply list_fmap_ext. intros _ c _. apply tolower_twice.
Qed.

(** ** The store *)

(** Nothing but the statement counter has changed. *)
Definition same_tables (s s' : store) : Prop :=
  saved s' = None /\ db s' = db s /\ next_user s' = next_user s.

Section Tables.
Context `{Collation} `{Faults}.

(** A query returns what the tables hold, or the default. *)
Lemma query_spec {A} `{DefaultForType A} (q : DB -> A) s :
  saved s = None ->
  let '(a, s') := Store.executeTemplate (select q) s in
  same_tables s s' /\ (a = q (db s) \/ a = defaultForType).
Proof.
  intros Hs. unfold Store.executeTemplate, select, statement, same_tables. simpl.
  destruct (fault_at (tick s)); [|by auto..]. simpl.
  destruct (fault_at (S (tick s))); rewrite ?undo_None by done; by auto.
Qed.

(** The keys of the table, seen by the server. *)
Definition apart (u w : User) : Prop :=
  u_uid u <> u_uid w /\ ci_key (u_username u) <> ci_key (u_username w) /\
  ci_key (u_email u) <> ci_key (u_email w).

Record accounts_ok (s : store) : Prop := {
  ok_rest : saved s = None;
  ok_apart : forall i j u w, users (db s) !! i = Some u -> users (db s) !! j = Some w -> i <> j -> apart u w;
  ok_ids : forall i, is_Some (users (db s) !! i) -> i < next_user s;
  ok_types : forall i u, users (db s) !! i = Some u ->
    0 <= u_uid u < 2 ^ 64 /\ u_username u <> "" /\ u_password u <> "" /\
    NormalizeEmail (u_email u) = u_email u /\ IsValidEmail (u_email u) = true }.

(** A row is added under the next id, apart from all others. *)
Definition adds (s : store) (u : User) (s' : store) : Prop :=
  saved s' = None /\ db s' = set_users (<[next_user s := u]> (users (db s))) (db s) /\
  next_user s' = next_user s + 1 /\ (forall i w, users (db s) !! i = Some w -> apart w u).

Lemma userRegister_spec u t s :
  saved s = None ->
  let '(n, s') := userRegister u t s in
  (saved s' = None /\ db s' = db s /\ next_user s <= next_user s' /\ n <> 0) \/
  (adds s (mkUser (u_uid u) (u_username u) (u_password u) (u_email u) t) s' /\ (n = 0 \/ n = -1)).
Proof.
  intros Hs. unfold userRegister, Store.executeTemplate.
  destruct (fault_at (tick s)) eqn:F0; [|left; simpl; split_and!; (done || lia)..].
  unfold bind, select, statement at 1, ret. simpl.
  destruct (fault_at (S (tick s))) eqn:F1; [|left; rewrite undo_None by done; simpl; split_and!; (done || lia)..].
  destruct (0 <? _) eqn:Hn; [left; split_and!; (done || lia)|]. unfold statement, insert_user. simpl.
  destruct (fault_at (S (S (tick s)))) eqn:F2; [| left; rewrite undo_None by done; simpl; split_and!; (done || lia)|];
    destruct (exists_row _ _) eqn:Hex; simpl; rewrite ?undo_None by done; simpl;
    try (left; split_and!; (done || lia)).
  all: right; split; [|by auto]; split_and!; simpl; try done.
  all: unfold exists_row in Hex; apply bool_decide_eq_false, dec_stable in Hex.
  all: rewrite first_row_None in Hex; intros i w Hw; specialize (Hex i w Hw); boolp.
  all: unfold ci_eq in *; boolp; by split_and!.
Qed.

(** The password of the rows that match. *)
Definition changes (s : store) (user : User) (s' : store) : Prop :=
  saved s' = None /\ next_user s' = next_user s /\
  db s' = set_users ((fun u => if ci_eq (u_email u) (u_email user) && (u_uid u =? u_uid user)
                               then set_password (u_password user) u else u) <$> users (db s)) (db s).

Lemma userModifyPassword_spec user s :
  saved s = None ->
  let '(n, s') := userModifyPassword user s in
  (same_tables s s' /\ n <> 0) \/ (changes s user s' /\ (n = 0 \/ n = -1)).
Proof.
  intros Hs. unfold userModifyPassword, Store.executeTemplate, same_tables, changes.
  destruct (fault_at (tick s)) eqn:F0; [|by left..].
  unfold bind, select, statement at 1, ret. simpl.
  destruct (fault_at (S (tick s))) eqn:F1; [|left; by rewrite undo_None by done..].
  destruct (negb _) eqn:Hn; [by left|]. unfold update, statement. simpl.
  destruct (fault_at (S (S (tick s)))) eqn:F2; simpl; rewrite ?undo_None by done; [| by left|]; right; by auto.
Qed.
End Tables.

Section Accounts.
Context `{Collation} `{Faults}.

Lemma adds_ok s u s' :
  accounts_ok s -> adds s u s' -> 0 <= u_uid u < 2 ^ 64 -> u_username u <> "" -> u_password u <> "" ->
  NormalizeEmail (u_email u) = u_email u -> IsValidEmail (u_email u) = true -> accounts_ok s'.
Proof.
  intros [Hr Ha Hi Ht] (Hr' & Hd & Hn & Hu) ? ? ? ? ?.
  assert (users (db s') = <[next_user s := u]> (users (db s))) as E by by rewrite Hd.
  split; [done|..]; rewrite E, ?Hn.
  - intros i j x y Hx Hy Hij.
    destruct (decide (i = next_user s)) as [->|], (decide (j = next_user s)) as [->|]; try done;
      rewrite ?lookup_insert_eq in *; rewrite ?lookup_insert_ne in * by done; simplify_eq; [|by eauto..].
    destruct (Hu j y Hy) as (? & ? & ?). by split_and!; apply not_eq_sym.
  - intros i. destruct (decide (i = next_user s)) as [->|]; [lia|]. rewrite lookup_insert_ne by done.
    intros Hs%Hi. lia.
  - intros i x. destruct (decide (i = next_user s)) as [->|].
    + rewrite lookup_insert_eq. by intros [= <-].
    + rewrite lookup_insert_ne by done. apply Ht.
Qed.

(** With unique addresses the statement changes one row. *)
Lemma changes_one s i u password s' :
  accounts_ok s -> users (db s) !! i = Some u -> changes s (set_password password u) s' ->
  db s' = set_users (<[i := set_password password u]> (users (db s))) (db s).
Proof.
  intros [_ Ha _ _] Hu (_ & _ & Hd). rewrite Hd. f_equal. apply map_eq. intros j. rewrite lookup_fmap.
  destruct (decide (j = i)) as [->|Hj].
  - rewrite lookup_insert_eq, Hu. simpl. unfold ci_eq. by rewrite bool_decide_true, Z.eqb_refl by done.
  - rewrite lookup_insert_ne by done. destruct (users (db s) !! j) as [w|] eqn:Hw; [|done]. simpl.
    destruct (Ha j i w u Hw Hu Hj) as (? & _ & _). unfold ci_eq.
    by rewrite (proj2 (Z.eqb_neq _ _)), andb_false_r by done.
Qed.

Lemma changes_ok s i u password s' :
  accounts_ok s -> users (db s) !! i = Some u -> password <> "" ->
  changes s (set_password password u) s' -> accounts_ok s'.
Proof.
  intros Hok Hu Hp Hc. pose proof (changes_one s i u password s' Hok Hu Hc) as Hd.
  destruct Hc as (Hr' & Hn & _). destruct Hok as [Hr Ha Hi Ht].
  assert (users (db s') = <[i := set_password password u]> (users (db s))) as E by by rewrite Hd.
  split; [done|..]; rewrite E, ?Hn.
  - intros a b x y Hx Hy Hab.
    destruct (decide (a = i)) as [->|], (decide (b = i)) as [->|]; try done;
      rewrite ?lookup_insert_eq in *; rewrite ?lookup_insert_ne in * by done; simplify_eq; [..|by eauto].
    + exact (Ha i b u y Hu Hy Hab).
    + exact (Ha a i x u Hx Hu Hab).
  - intros a. destruct (decide (a = i)) as [->|]; [intros _; by eauto|]. rewrite lookup_insert_ne by done. apply Hi.
  - intros a x. destruct (decide (a = i)) as [->|]; [|rewrite lookup_insert_ne by done; apply Ht].
    rewrite lookup_insert_eq. intros [= <-]. destruct (Ht i u Hu) as (? & ? & _ & ?). done.
Qed.
End Accounts.

(** ** Running a handler *)

Section Handlers.
Context `{Collation} `{Faults} `{Outside} (v : Verification).

(** A computation that reads the request only. *)
Definition reads_only {A} (m : Gate A) : Prop := forall g, (m g).2 = g.

Lemma reads_ret {A} (a : A) : reads_only (ret a).
Proof. done. Qed.
Lemma reads_throw {A} w : reads_only (throw (A := A) w).
Proof. done. Qed.
Lemma reads_bind {A B} (m : Gate A) (k : A -> Gate B) :
  reads_only m -> (forall a, reads_only (k a)) -> reads_only (bind m k).
Proof.
  intros Hm Hk g. unfold bind. specialize (Hm g). destruct (m g) as [[a|w] g']; simpl in Hm; subst g'; [|done].
  apply Hk.
Qed.
Lemma reads_member name data : reads_only (member name data).
Proof. by destruct data. Qed.
Lemma reads_isMember name data : reads_only (isMember name data).
Proof. by destruct data. Qed.
Lemma reads_asString value : reads_only (asString value).
Proof. by destruct value. Qed.
Lemma reads_asInt value : reads_only (asInt value).
Proof. intros g. destruct value; simpl; try case_match; done. Qed.
Lemma reads_string_member name data : reads_only (string_member name data).
Proof. apply reads_bind; [apply reads_member|]. intros. apply reads_asString. Qed.
Lemma reads_all_members names data : reads_only (all_members names data).
Proof.
  induction names as [|name names IH]; simpl; [apply reads_ret|].
  apply reads_bind; [apply reads_isMember|]. intros []; [done|]. apply reads_ret.
Qed.

(** Reading first, then the rest. *)
Lemma read_then {A B} (Q : outcome B * gate -> Prop) (m : Gate A) (k : A -> Gate B) g :
  reads_only m -> (forall w, Q (Throw w, g)) -> (forall a, m g = (Ok a, g) -> Q (k a g)) -> Q (bind m k g).
Proof.
  intros Hm Hw Hk. unfold bind. specialize (Hm g). destruct (m g) as [[a|w] g'] eqn:E; simpl in Hm; subst g'; auto.
Qed.

(** What a step of a handler leaves alone. *)
Definition with_sql (s : store) (g : gate) : gate := mkGate s (g_cache g) (g_state g) (g_uses g).

Lemma sql_then {A B} (f : store -> A * store) (k : A -> Gate B) g :
  bind (use_sql f) k g = k (f (g_sql g)).1 (with_sql (f (g_sql g)).2 g).
Proof. unfold bind, use_sql. by destruct (f (g_sql g)). Qed.

(** A use of something else leaves the tables alone. *)
Definition same_sql {A} (m : Gate A) : Prop := forall g, exists a, (m g).1 = Ok a /\ g_sql (m g).2 = g_sql g.

Lemma same_sql_ret {A} (a : A) : same_sql (ret a).
Proof. intros g. by exists a. Qed.
Lemma same_sql_bind {A B} (m : Gate A) (k : A -> Gate B) :
  same_sql m -> (forall a, same_sql (k a)) -> same_sql (bind m k).
Proof.
  intros Hm Hk g. unfold bind. destruct (Hm g) as (a & Ha & Hs). destruct (m g) as [o g']. simpl in *.
  subst o. destruct (Hk a g') as (b & Hb & Hs'). exists b. by rewrite Hb, Hs', Hs.
Qed.
Lemma same_sql_redis {A} (f : call -> redis -> A * redis) : same_sql (use_redis f).
Proof. intros g. unfold use_redis. destruct (f _ _) as [a r]. by exists a. Qed.
Lemma same_sql_ask {A} (f : nat -> A) : same_sql (ask f).
Proof. intros g. by eexists. Qed.
Lemma same_sql_generate : same_sql generate_user_id.
Proof. intros g. unfold generate_user_id. destruct (generateUserId _ _ _) as [a r]. by exists a. Qed.
Lemma same_sql_call {A} (f : Service (StateService.Status * A)) : same_sql (call_state f).
Proof.
  intros g. unfold call_state. destruct (out_rpc (g_uses g)); [|by eexists|];
    destruct (f (g_state g)) as [[status a] s]; by eexists.
Qed.
End Handlers.

Create HintDb gate.
#[export] Hint Resolve reads_ret reads_throw reads_bind reads_member reads_isMember reads_asString reads_asInt
  reads_string_member reads_all_members same_sql_ret same_sql_bind same_sql_redis same_sql_ask
  same_sql_generate same_sql_call : gate.

Section Effects.
Context `{Collation} `{Faults} `{Outside} (v : Verification).

Lemma use_then {A B} (Q : outcome B * gate -> Prop) (m : Gate A) (k : A -> Gate B) g :
  same_sql m -> (forall a g', m g = (Ok a, g') -> g_sql g' = g_sql g -> Q (k a g')) -> Q (bind m k g).
Proof.
  intros Hm Hk. unfold bind. destruct (Hm g) as (a & Ha & Hs). destruct (m g) as [o g'] eqn:E. simpl in *.
  subst o. auto.
Qed.

(** The tables are as they were, outside a transaction. *)
Definition still (g g' : gate) : Prop :=
  saved (g_sql g') = None /\ db (g_sql g') = db (g_sql g) /\ next_user (g_sql g) <= next_user (g_sql g').

Lemma still_refl g : saved (g_sql g) = None -> still g g.
Proof. intros Hs. unfold still. split_and?; [done|done|lia]. Qed.
Lemma still_trans g1 g2 g3 : still g1 g2 -> still g2 g3 -> still g1 g3.
Proof. intros (_ & E & L) (S' & E' & L'). split_and!; [done|congruence|lia]. Qed.
Lemma still_sql g g' : saved (g_sql g) = None -> g_sql g' = g_sql g -> still g g'.
Proof. intros Hs E. unfold still. rewrite E. split_and?; [done|done|lia]. Qed.
Lemma still_same g s' : same_tables (g_sql g) s' -> still g (with_sql s' g).
Proof. intros (Hs & E & Hn). split_and!; simpl; [done|done|lia]. Qed.

Lemma accounts_ok_still g g' : accounts_ok (g_sql g) -> still g g' -> accounts_ok (g_sql g').
Proof.
  intros [Hr Ha Hi Ht] (Hs & E & Hn). split; [done|..]; rewrite E; [done| |done].
  intros i Hx%Hi. lia.
Qed.

(** The steps of a handler that cannot change the tables, up to the rest of it. *)
Lemma query_then {A B} `{DefaultForType A} (Q : outcome B * gate -> Prop) (q : DB -> A) (k : A -> Gate B) g :
  saved (g_sql g) = None ->
  (forall a s', same_tables (g_sql g) s' -> (a = q (db (g_sql g)) \/ a = defaultForType) ->
     Q (k a (with_sql s' g))) ->
  Q (bind (use_sql (Store.executeTemplate (select q))) k g).
Proof.
  intros Hs Hk. rewrite sql_then. pose proof (query_spec q (g_sql g) Hs) as Hq.
  destruct (Store.executeTemplate (select q) (g_sql g)) as [a s']. destruct Hq. by apply Hk.
Qed.

Lemma adds_same s s1 u s' : same_tables s s1 -> adds s1 u s' -> adds s u s'.
Proof. intros (_ & E & N) (A1 & A2 & A3 & A4). unfold adds. rewrite <- E, <- N. by split_and!. Qed.
Lemma changes_same s s1 u s' : same_tables s s1 -> changes s1 u s' -> changes s u s'.
Proof. intros (_ & E & N) (A1 & A2 & A3). unfold changes. by rewrite <- E, <- N. Qed.
Lemma same_tables_trans s1 s2 s3 : same_tables s1 s2 -> same_tables s2 s3 -> same_tables s1 s3.
Proof. intros (_ & E & N) (S' & E' & N'). unfold same_tables. by rewrite E', N'. Qed.

(** A request gives a member as a string. *)
Definition wants (data : Json) (name value : string) : Prop := forall g, string_member name data g = (Ok value, g).

Lemma wants_here data name value g : string_member name data g = (Ok value, g) -> wants data name value.
Proof.
  unfold string_member, bind, member, wants. destruct data as [| | | | | |fields]; simpl; try done.
  - intros E ?. by injection E as <-.
  - intros E g'. change (asString (default JNull (find_field name fields)) g' = (Ok value, g')). revert E.
    destruct (default JNull (find_field name fields)); simpl; try done; intros E; by injection E as <-.
Qed.

(** ** Verification codes *)

(** The call that uses up a code. *)
Definition accepted (g : gate) (email code : string) (g' : gate) : Prop :=
  IsValidEmail email = true /\ String.length code = 6%nat /\ c_fault (out_redis (g_uses g)) = FNone /\
  GET (c_now (out_redis (g_uses g))) (codeKey email) (g_cache g) = Some (VStr code) /\
  g_cache g' !! codeKey email = None.

Lemma consume_accepts email code n c r :
  let '(ok, r') := consumeVerificationCode email code n c r in
  ok = true -> c_fault c = FNone /\ GET (c_now c) (codeKey email) r = Some (VStr code) /\ r' !! codeKey email = None.
Proof.
  unfold consumeVerificationCode. destruct (_ || _ || _); [done|]. unfold Redis.executeTemplate.
  destruct (c_fault c); [|done|by destruct (consume_script _ _ _ _ _)]. unfold consume_script.
  destruct (GET _ _ _) as [current|] eqn:E; [|done]. case_decide as Hc.
  - simpl. intros _. subst current. split_and!; [done|done|]. unfold DEL.
    by rewrite !lookup_delete_ne, lookup_delete_eq by auto with keys.
  - destruct (INCR _ _ _) as [[n1 r1]|]; [|done]. simpl. done.
Qed.

Lemma VerifyAndConsume_spec raw code g :
  let '(o, g') := VerifyAndConsume v raw code g in
  g_sql g' = g_sql g /\
  exists b, o = Ok b /\ (b = true -> accepted g (NormalizeEmail raw) code g').
Proof.
  unfold VerifyAndConsume. destruct (_ || _) eqn:Eg; [split; [done|by exists false]|]. boolp.
  unfold use_redis. pose proof (consume_accepts (NormalizeEmail raw) code (maxAttempts v)
    (out_redis (g_uses g)) (g_cache g)) as Hc.
  destruct (consumeVerificationCode _ _ _ _ _) as [b r]. simpl. split; [done|]. exists b. split; [done|].
  intros Hb. destruct (Hc Hb) as (? & ? & ?). done.
Qed.

(** ** Registration *)

Lemma generate_keeps email g a g' :
  generate_user_id g = (Ok a, g') -> g_cache g' !! codeKey email = g_cache g !! codeKey email.
Proof.
  unfold generate_user_id, generateUserId. generalize (out_ids (g_uses g)) as calls.
  generalize (g_cache g) as r. intros r calls. destruct (generateId _ _ _ _) as [i r1] eqn:E. intros [= _ <-].
  simpl. revert r i r1 E. induction calls as [|c calls IH]; intros r i r1 E; cbn [generateId] in E; [congruence|].
  destruct (c_fault c); try congruence;
    (destruct (INCR _ _ _) as [[n r2]|] eqn:Ei; [|congruence]);
    apply INCR_frame with (k' := codeKey email) in Ei; [|done| |done];
    (case_decide; [congruence|]); case_match; [|congruence| |congruence]; by rewrite (IH _ _ _ E).
Qed.

(** The account a request asks for is made, its code used up. *)
Definition registered (data : Json) (g : gate) (p : outcome (Response * bool) * gate) : Prop :=
  exists username password raw code uid time,
    let email := NormalizeEmail raw in
    wants data "username" username /\ wants data "password" password /\ wants data "email" raw /\
    wants data "verifycode" code /\ username <> "" /\ password <> "" /\
    accepted g email code p.2 /\
    adds (g_sql g) (mkUser (uint64 uid) username password email time) (g_sql p.2) /\
    (p.1 = Ok ([("error", SInt 0); ("uid", SInt uid); ("username", SString username);
                ("email", SString email)], true) \/
     p.1 = Ok (error_response (-1), false)).

(** Nothing is changed, and the handler does not report success. *)
Definition refused (g : gate) (p : outcome (Response * bool) * gate) : Prop :=
  still g p.2 /\ forall rsp, p.1 <> Ok (rsp, true).

Lemma refused_fail error g g1 : still g g1 -> refused g (fail_with error g1).
Proof. intros Hs. by split. Qed.
Lemma refused_throw w g : saved (g_sql g) = None -> refused g (Throw w, g).
Proof. intros Hs. split; [by apply still_refl|done]. Qed.

Lemma signUp_spec data g :
  saved (g_sql g) = None -> refused g (signUp v data g) \/ registered data g (signUp v data g).
Proof.
  intros Hs. set (Q := fun p => refused g p \/ registered data g p). change (Q (signUp v data g)).
  assert (forall w, Q (Throw w, g)) as Hthrow by (intros w; left; by apply refused_throw).
  assert (forall error g1, still g g1 -> Q (fail_with error g1)) as Hfail by (intros; left; by apply refused_fail).
  unfold signUp, hasEmail, hasUsername. apply read_then; [auto with gate|done|]. intros found _.
  destruct (negb found); [by apply Hfail, still_refl|].
  apply read_then; [auto with gate|done|]. intros username Hu%wants_here.
  apply read_then; [auto with gate|done|]. intros password Hp%wants_here.
  apply read_then; [auto with gate|done|]. intros raw He%wants_here.
  apply read_then; [auto with gate|done|]. intros code Hc%wants_here.
  destruct (_ || _) eqn:Eg; [by apply Hfail, still_refl|]. boolp.
  apply query_then; [done|]. intros n1 s1 H1' _.
  destruct (negb _); [by apply Hfail, still_same|].
  apply query_then; [apply H1'|]. intros n2 s2 H2' _. simpl in H2'.
  pose proof (same_tables_trans _ _ _ H1' H2') as Hst.
  change (with_sql s2 (with_sql s1 g)) with (with_sql s2 g).
  destruct (negb (n2 =? 0)); [by apply Hfail, still_same|].
  pose proof (VerifyAndConsume_spec (NormalizeEmail raw) code (with_sql s2 g)) as Hv. rewrite NormalizeEmail_twice in Hv.
  unfold bind at 1. destruct (VerifyAndConsume _ _ _ _) as [o g1]. destruct Hv as (Hg1 & b & -> & Hb). simpl in Hg1.
  assert (still g g1) as Hg by (apply still_trans with (with_sql s2 g);
    [by apply still_same|apply still_sql; [apply H2'|done]]).
  destruct b; [|by apply Hfail]. cbn [negb].
  specialize (Hb eq_refl). change (accepted g (NormalizeEmail raw) code g1) in Hb.
  apply use_then; [auto with gate|]. intros uid g2 Eg2 E2. apply generate_keeps with (email := NormalizeEmail raw) in Eg2.
  apply use_then; [auto with gate|]. intros time g3 Eg3 E3. injection Eg3 as _ <-.
  rewrite sql_then. cbn [g_sql with_sql].
  pose proof (userRegister_spec (mkUser (uint64 uid) username password (NormalizeEmail raw) "") time (g_sql g2)
    ltac:(rewrite E2; apply Hg)) as Hr.
  destruct (userRegister _ _ _) as [n s3]. cbn [fst snd]. destruct Hr as [(R1 & R2 & R3 & R4)|[Ha Hn]].
  { rewrite (proj2 (Z.eqb_neq _ _)) by done. apply Hfail. destruct Hg as (G1 & G2 & G3). unfold still. simpl.
    rewrite E2 in *. split_and?; [done|congruence|lia]. }
  right. exists username, password, raw, code, uid, time. cbv zeta. rewrite E2, Hg1 in Ha.
  apply (adds_same _ _ _ _ Hst) in Ha. destruct Hb as (B1 & B2 & B3 & B4 & B5).
  assert (forall p : outcome (Response * bool) * gate, g_cache p.2 = g_cache g2 ->
    accepted g (NormalizeEmail raw) code p.2) as Hacc.
  { intros p Hp'. unfold accepted. rewrite Hp', Eg2. by split_and!. }
  destruct Hn as [-> | ->]; cbn [Z.eqb negb]; split_and!; try done; try (by apply Hacc); by auto.
Qed.

(** ** A forgotten password *)

(** The password of the named account is changed, the code of its address used up. *)
Definition password_changed (data : Json) (g : gate) (p : outcome (Response * bool) * gate) : Prop :=
  exists username password raw code i u,
    let email := NormalizeEmail raw in
    wants data "username" username /\ wants data "password" password /\ wants data "email" raw /\
    wants data "verifycode" code /\ password <> "" /\
    users (db (g_sql g)) !! i = Some u /\ ci_eq (u_username u) username = true /\ NormalizeEmail (u_email u) = email /\
    accepted g email code p.2 /\ changes (g_sql g) (set_password password u) (g_sql p.2) /\
    (p.1 = Ok ([("error", SInt 0); ("username", SString username)], true) \/
     p.1 = Ok (error_response PasswdUpFailed, false)).

Lemma forgetPassword_spec data g :
  saved (g_sql g) = None -> refused g (forgetPassword v data g) \/ password_changed data g (forgetPassword v data g).
Proof.
  intros Hs. set (Q := fun p => refused g p \/ password_changed data g p). change (Q (forgetPassword v data g)).
  assert (forall w, Q (Throw w, g)) as Hthrow by (intros w; left; by apply refused_throw).
  assert (forall error g1, still g g1 -> Q (fail_with error g1)) as Hfail by (intros; left; by apply refused_fail).
  unfold forgetPassword, getUser. apply read_then; [auto with gate|done|]. intros found _.
  destruct (negb found); [by apply Hfail, still_refl|].
  apply read_then; [auto with gate|done|]. intros username Hu%wants_here.
  apply read_then; [auto with gate|done|]. intros password Hp%wants_here.
  apply read_then; [auto with gate|done|]. intros raw He%wants_here.
  apply read_then; [auto with gate|done|]. intros code Hc%wants_here.
  apply query_then; [done|]. intros row s1 Hst Hrow.
  destruct row as [[i u]|]; [|by apply Hfail, still_same].
  destruct (negb _) eqn:E1 at 1; [by apply Hfail, still_same|]. destruct (str_empty password) eqn:E2; [by apply Hfail, still_same|].
  boolp. destruct Hrow as [Hrow|]; [|done]. symmetry in Hrow. apply first_row_Some in Hrow as [Hrow Hname].
  pose proof (VerifyAndConsume_spec (NormalizeEmail raw) code (with_sql s1 g)) as Hv. rewrite NormalizeEmail_twice in Hv.
  unfold bind at 1. destruct (VerifyAndConsume _ _ _ _) as [o g1]. destruct Hv as (Hg1 & b & -> & Hb). simpl in Hg1.
  assert (still g g1) as Hg by (apply still_trans with (with_sql s1 g);
    [by apply still_same|apply still_sql; [apply Hst|done]]).
  destruct b; [|by apply Hfail]. cbn [negb].
  specialize (Hb eq_refl). change (accepted g (NormalizeEmail raw) code g1) in Hb.
  rewrite sql_then. pose proof (userModifyPassword_spec (set_password password u) (g_sql g1) ltac:(apply Hg)) as Hm.
  destruct (userModifyPassword _ _) as [n s2]. cbn [fst snd]. rewrite Hg1 in Hm. destruct Hm as [[Hm Hn]|[Hm Hn]].
  { rewrite (proj2 (Z.eqb_neq _ _)) by done. apply Hfail. rewrite <- Hg1 in Hm.
    apply still_trans with g1; [done|]. by apply still_same. }
  right. exists username, password, raw, code, i, u. cbv zeta. apply (changes_same _ _ _ _ Hst) in Hm.
  destruct Hn as [-> | ->]; cbn [Z.eqb negb]; split_and!; try done; by auto.
Qed.

(** ** The other handlers *)

Definition settled {A} (m : Gate A) : Prop := forall g, saved (g_sql g) = None -> still g (m g).2.

Lemma settled_reads {A} (m : Gate A) : reads_only m -> settled m.
Proof. intros Hm g Hs. rewrite Hm. by apply still_refl. Qed.
Lemma settled_same {A} (m : Gate A) : same_sql m -> settled m.
Proof. intros Hm g Hs. destruct (Hm g) as (_ & _ & E). by apply still_sql. Qed.
Lemma settled_bind {A B} (m : Gate A) (k : A -> Gate B) : settled m -> (forall a, settled (k a)) -> settled (bind m k).
Proof.
  intros Hm Hk g Hs. specialize (Hm g Hs). unfold bind. destruct (m g) as [[a|w] g1]; [|done].
  apply still_trans with g1; [done|]. apply Hk, Hm.
Qed.
Lemma settled_query {A} `{DefaultForType A} (q : DB -> A) : settled (use_sql (Store.executeTemplate (select q))).
Proof.
  intros g Hs. unfold use_sql. pose proof (query_spec q (g_sql g) Hs) as Hq.
  destruct (Store.executeTemplate _ _) as [a s1]. destruct Hq as [Hq _]. by apply still_same in Hq.
Qed.

Hint Resolve settled_bind settled_query : gate.
Hint Extern 3 (settled (ret _)) => apply settled_reads, reads_ret : gate.
Hint Extern 4 (settled _) => apply settled_reads; solve [auto with gate] : gate.
Hint Extern 4 (settled _) => apply settled_same; solve [auto with gate] : gate.
Hint Extern 1 (settled (if ?b then _ else _)) => destruct b : gate.
Hint Extern 1 (settled (match ?o with _ => _ end)) => destruct o : gate.

Lemma settled_RequestEmailCode raw : settled (RequestEmailCode v raw).
Proof. unfold RequestEmailCode, GenerateCode, SendEmail. auto 30 with gate. Qed.

Lemma settled_verification data : settled (requestVerificationCode v data).
Proof.
  unfold requestVerificationCode, fail_with. pose proof settled_RequestEmailCode. auto 30 with gate.
Qed.
Lemma settled_Pick uid : settled (PickConnectionGateway uid).
Proof. unfold PickConnectionGateway. auto with gate. Qed.
Lemma settled_signIn data : settled (signIn data).
Proof.
  unfold signIn, fail_with, getUser, hasUserInfo. pose proof settled_Pick. auto 30 with gate.
Qed.
Lemma settled_chatArrhythmia data : settled (chatArrhythmia data).
Proof. unfold chatArrhythmia, fail_with. pose proof settled_Pick. auto 30 with gate. Qed.
End Effects.

(** ** Requests *)

Section Requests.
Context `{Collation} `{Faults} `{Outside} `{JsonText} (v : Verification).

Definition serve_http (rs : list ((string -> bool) * HttpRequest)) (g : gate) : gate :=
  foldl (fun g r => (HandleRequest v r.1 r.2 g).2) g rs.

Definition new_store : store := mkStore empty_db None 1 1 0.
Definition new_gate (r : redis) (st : state_service) : gate := mkGate new_store r st 0.

(** The answer with a handler's response. *)
Definition written (rsp : Response) : http_result :=
  Written (mkHttpResponse 200 "application/json" "GateServer" (toStyledString rsp)).
Definition answers (o : outcome (Response * bool)) : http_result :=
  match o with Ok r => written r.1 | Throw _ => Dropped end.

(** A request changes no table, or is one of the two with their effects. *)
Lemma HandleRequest_spec rpc request g :
  saved (g_sql g) = None ->
  let '(answer, g') := HandleRequest v rpc request g in
  let data := parseRequest (rq_body request) in
  still g g' \/
  rq_method request = Post /\ exists o, answer = answers o /\
    (rq_target request = "/post-signUp" /\ registered data g (o, g') \/
     rq_target request = "/post-forget-password" /\ password_changed data g (o, g')).
Proof.
  intros Hs. pose proof (still_refl g Hs) as Hrefl.
  unfold HandleRequest. destruct (rq_method request).
  - destruct (PreParseGetParam (rq_target request)) as [[url params]|]; [|by left].
    unfold Handle, getHandler. case_bool_decide; [|case_bool_decide]; [| |by left].
    + rewrite andb_false_r. by left.
    + rewrite andb_false_r.
      assert (settled (TestNetworkPing rpc)) as Hq.
      { apply settled_same. unfold TestNetworkPing. auto with gate. }
      specialize (Hq g Hs). unfold bind, ret. simpl. destruct (TestNetworkPing rpc g) as [[a|w] g1]; simpl in *; by left.
  - unfold Handle. set (path := rq_target request). set (data := parseRequest (rq_body request)).
    set (Q := fun p : http_result * gate => let '(answer, g') := p in still g g' \/
      Post = Post /\ exists o, answer = answers o /\
      (path = "/post-signUp" /\ registered data g (o, g') \/ path = "/post-forget-password" /\ password_changed data g (o, g'))).
    assert (forall h : Json -> Gate (Response * bool),
      (still g (h data g).2 \/ path = "/post-signUp" /\ registered data g (h data g) \/
       path = "/post-forget-password" /\ password_changed data g (h data g)) ->
      forall b : bool, Q (match (if b && bool_decide (Post = Post) then
        ret (mkHttpResponse 200 "application/json" ""
               ("content-type not support | " +:+ toStyledString (error_response JsonParser)), true)
      else
        let* result := styled h data in
        ret (mkHttpResponse 200 "application/json" "GateServer" result.1, result.2)) g with
        | (Ok r, g) => (Written r.1, g) | (Throw _, g) => (Dropped, g) end)) as Hcase.
    { intros h Hh b. rewrite bool_decide_true by done. destruct b; simpl; [by left|]. unfold styled, bind, ret. simpl.
      destruct (h data g) as [[[rsp ok]|w] g1]; (destruct Hh as [Hh|Hh]; [by left|right; split; [done|]]).
      - exists (Ok (rsp, ok)). exact (conj eq_refl Hh).
      - exists (Throw w). exact (conj eq_refl Hh). }
    unfold postHandler.
    repeat (match goal with |- context [bool_decide (path = ?s)] => destruct (bool_decide (path = s)) eqn:? end;
            [apply Hcase; clear Hcase; boolp|]);
    [left; by apply settled_verification| | |left; by apply settled_signIn|left; by apply settled_chatArrhythmia|by left].
    + destruct (signUp_spec v data g Hs) as [[Hr _]|Hr]; [by left|by right; left].
    + destruct (forgetPassword_spec v data g Hs) as [[Hr _]|Hr]; [by left|by right; right].
  - by left.
Qed.

Lemma HandleRequest_accounts rpc request g :
  accounts_ok (g_sql g) -> accounts_ok (g_sql (HandleRequest v rpc request g).2).
Proof.
  intros Hok. pose proof (HandleRequest_spec rpc request g (ok_rest _ Hok)) as Hs.
  destruct (HandleRequest _ _ _ _) as [answer g']. simpl. destruct Hs as [Hs|(_ & o & _ & [[_ Hs]|[_ Hs]])].
  - by eapply accounts_ok_still.
  - destruct Hs as (username & password & raw & code & uid & time & Hs).
    destruct Hs as (_ & _ & _ & _ & Hu & Hp & Hacc & Ha & _).
    eapply adds_ok; [done|exact Ha|simpl..]; try done; [apply wrapU_range; lia|apply NormalizeEmail_twice|apply Hacc].
  - destruct Hs as (username & password & raw & code & i & u & Hs).
    destruct Hs as (_ & _ & _ & _ & Hp & Hu & _ & _ & _ & Hc & _). by eapply changes_ok.
Qed.

Lemma new_accounts : accounts_ok new_store.
Proof. split; [done|intros ????; done|intros i [? ?]; done|done]. Qed.

Lemma serve_accounts rs g : accounts_ok (g_sql g) -> accounts_ok (g_sql (serve_http rs g)).
Proof. revert g. induction rs as [|r rs IH]; intros g Hg; [done|]. by apply IH, HandleRequest_accounts. Qed.

(** C31: the table of users is well formed.  After any requests to the gate and
    any failures, ids, names and addresses (as the server compares them) are
    pairwise different, ids are 64-bit, names and passwords are not empty,
    addresses are normalised and valid. *)
Theorem accounts_distinct rs r st : accounts_ok (g_sql (serve_http rs (new_gate r st))).
Proof. by apply serve_accounts, new_accounts. Qed.

(** C11: authorisation.  An HTTP request changes a table only when it is a
    registration or a forgotten password that carries the code Redis holds for
    the address at that moment, and uses the code up: the registration adds the
    one account it describes, apart from all others; the other changes the
    password of the named account with that address, and nothing else. *)
Theorem account_change_authorised rs r st rpc request :
  let g := serve_http rs (new_gate r st) in
  let '(answer, g') := HandleRequest v rpc request g in
  let data := parseRequest (rq_body request) in
  db (g_sql g') = db (g_sql g) \/
  rq_method request = Post /\ exists username password raw code,
    let email := NormalizeEmail raw in
    wants data "username" username /\ wants data "password" password /\ wants data "email" raw /\
    wants data "verifycode" code /\ accepted g email code g' /\
    ((rq_target request = "/post-signUp" /\ exists uid time,
        let user := mkUser (uint64 uid) username password email time in
        (forall i w, users (db (g_sql g)) !! i = Some w -> apart w user) /\
        db (g_sql g') = set_users (<[next_user (g_sql g) := user]> (users (db (g_sql g)))) (db (g_sql g)) /\
        (answer = written [("error", SInt 0); ("uid", SInt uid); ("username", SString username);
                           ("email", SString email)] \/ answer = written (error_response (-1)))) \/
     (rq_target request = "/post-forget-password" /\ exists i u,
        users (db (g_sql g)) !! i = Some u /\ ci_eq (u_username u) username = true /\ u_email u = email /\
        db (g_sql g') = set_users (<[i := set_password password u]> (users (db (g_sql g)))) (db (g_sql g)) /\
        (answer = written [("error", SInt 0); ("username", SString username)] \/
         answer = written (error_response PasswdUpFailed)))).
Proof.
  intros g. assert (accounts_ok (g_sql g)) as Hok by apply serve_accounts, new_accounts.
  pose proof (HandleRequest_spec rpc request g (ok_rest _ Hok)) as Hs.
  destruct (HandleRequest _ _ _ _) as [answer g']. intros data.
  destruct Hs as [(_ & E & _)|(Hpost & o & -> & Hs)]; [by left|]. right. split; [done|].
  destruct Hs as [(Ht & username & password & raw & code & Hs)|(Ht & username & password & raw & code & Hs)];
    exists username, password, raw, code; cbv zeta.
  - destruct Hs as (uid & time & W1 & W2 & W3 & W4 & _ & _ & Hacc & (_ & Ha & _ & Hap) & Ho). simpl in Ho.
    split_and!; try done. left. split; [done|]. exists uid, time. split_and!; [done|done|].
    destruct Ho as [-> | ->]; [by left|by right].
  - destruct Hs as (i & u & W1 & W2 & W3 & W4 & _ & Hu & Hn & He & Hacc & Hc & Ho). simpl in Ho.
    split_and!; try done. right. split; [done|]. exists i, u. split_and!; [done|done| | |].
    + destruct (ok_types _ Hok i u Hu) as (_ & _ & _ & E & _). congruence.
    + by eapply changes_one.
    + destruct Ho as [-> | ->]; [by left|by right].
Qed.

(** Accounts are never removed, and keep their id, name and address. *)
Definition keeps_account (i : Z) (uid : Z) (name email : string) (s : store) : Prop :=
  exists u, users (db s) !! i = Some u /\ u_uid u = uid /\ u_username u = name /\ u_email u = email.

Lemma serve_keeps_account rs g i uid name email :
  accounts_ok (g_sql g) -> keeps_account i uid name email (g_sql g) ->
  keeps_account i uid name email (g_sql (serve_http rs g)).
Proof.
  revert g. induction rs as [|[rpc request] rs IH]; intros g Hok Hk; [done|].
  apply IH; [by apply HandleRequest_accounts|]. simpl.
  pose proof (HandleRequest_spec rpc request g (ok_rest _ Hok)) as Hs.
  destruct Hk as (u & Hu & Hk). destruct (HandleRequest _ _ _ _) as [answer g']. unfold keeps_account. simpl.
  destruct Hs as [(_ & -> & _)|(_ & o & _ & [[_ Hs]|[_ Hs]])]; [by exists u|..].
  - destruct Hs as (x1 & x2 & x3 & x4 & uid' & time & Hs). simpl in Hs. destruct Hs as (_ & _ & _ & _ & _ & _ & _ & (_ & -> & _) & _).
    exists u. cbn [users set_users g_sql]. rewrite lookup_insert_ne; [done|].
    pose proof (ok_ids _ Hok i ltac:(by exists u)). cbn in *. lia.
  - destruct Hs as (x1 & x2 & x3 & x4 & j & w & Hs).
    destruct Hs as (_ & _ & _ & _ & _ & Hw & _ & _ & _ & Hc & _). simpl in Hc. rewrite (changes_one _ _ _ _ _ Hok Hw Hc).
    cbn [users set_users]. destruct (decide (j = i)) as [->|]; [|rewrite lookup_insert_ne by done; by exists u].
    rewrite lookup_insert_eq. eexists. split; [done|]. by simplify_eq.
Qed.
End Requests.

(** ** Signing in *)

Section SignIn.
Context `{Collation} `{Faults} `{Outside} `{JsonText} (v : Verification).

Lemma pick_from_Some start offsets nodes n :
  pick_from start offsets nodes = Some n -> n ∈ nodes /\ active n = true.
Proof.
  induction offsets as [|o offsets IH]; [done|]. simpl. unfold gateway_at.
  destruct (nodes !! _) as [m|] eqn:E; [|done]. destruct (active m) eqn:Ea; [|done].
  intros [= <-]. split; [by eapply list_elem_of_lookup_2|done].
Qed.

(** The node the state service gave. *)
Definition node_answer (n : ServiceNodeInfo) : ServerNode :=
  mkServerNode (sn_host n) (uint16 (sn_port n)) (sn_id n).

Lemma Pick_spec uid g :
  let '(o, g') := PickConnectionGateway uid g in
  g_sql g' = g_sql g /\ g_cache g' = g_cache g /\ exists node, o = Ok node /\
  (node_empty node = false ->
   exists n, n ∈ ss_gatewayNodes (g_state g) /\ active n = true /\ node = node_answer n).
Proof.
  unfold PickConnectionGateway, bind, call_state, ret. destruct (out_rpc (g_uses g)) eqn:Er;
    [|simpl; split_and!; try done; by eexists|]; unfold StateService.PickConnectionGateway;
    destruct (ss_gatewayNodes (g_state g)) as [|x l] eqn:En; simpl; try (split_and!; try done; by eexists).
  all: rewrite <- En. all: destruct (pick_from _ _ _) as [n|] eqn:Ep; simpl; split_and!; try done.
  all: eexists; split; [done|]; try done. intros _. rewrite En in Ep. simpl in Ep. rewrite <- En in Ep.
  apply pick_from_Some in Ep as [? ?]. by exists n.
Qed.

Lemma setChatAuthToken_spec uid token ttl c r :
  let '(ok, r') := setChatAuthToken uid token ttl c r in
  ok = true -> 0 < uid /\ token <> "" /\
  (forall t, t <= c_now c + 1000 * ttl -> validateChatAuthToken uid token (ok_at t) r' = (true, r')).
Proof.
  unfold setChatAuthToken. destruct (_ || _ || _) eqn:Eg; [done|]. boolp. unfold Redis.executeTemplate.
  destruct (c_fault c); simpl; try done. intros _. split_and!; [done|done|]. intros t Ht.
  unfold validateChatAuthToken, Redis.executeTemplate, GET, SETEX.
  rewrite (proj2 (Z.leb_gt _ _)), (proj2 (str_empty_false _)) by done. simpl. rewrite lookup_live_insert_eq.
  unfold live. simpl. rewrite (proj2 (Z.leb_le _ _)) by done. simpl. by rewrite bool_decide_true.
Qed.

(** What a successful answer holds. *)
Definition handed_over (user : User) (n : ServiceNodeInfo) (token : string) (rsp : Response) : Prop :=
  member_of "error" rsp = Some (SInt 0) /\ member_of "uid" rsp = Some (SInt (int64 (u_uid user))) /\
  (exists init, member_of "init" rsp = Some (SInt init)) /\
  member_of "ip" rsp = Some (SString (sn_host n)) /\ member_of "port" rsp = Some (SInt (uint16 (sn_port n))) /\
  member_of "gatewayId" rsp = Some (SString (sn_id n)) /\ member_of "chatToken" rsp = Some (SString token) /\
  member_of "chatTokenExpiresIn" rsp = Some (SInt kChatAuthTokenTtlSeconds).

(** A token that the gateways take for that user until it runs out. *)
Definition good_until (t uid : Z) (token : string) (r : redis) : Prop :=
  forall t', t' <= t -> validateChatAuthToken uid token (ok_at t') r = (true, r).

Lemma signIn_success data g :
  saved (g_sql g) = None ->
  let '(o, g') := signIn data g in
  forall rsp, o = Ok (rsp, true) -> exists username password i user n token,
    wants data "username" username /\ wants data "password" password /\
    users (db (g_sql g)) !! i = Some user /\ ci_eq (u_username user) username = true /\ u_password user = password /\
    0 < int64 (u_uid user) /\ n ∈ ss_gatewayNodes (g_state g) /\ active n = true /\ sn_host n <> "" /\
    uint16 (sn_port n) <> 0 /\ token <> "" /\ handed_over user n token rsp /\
    good_until (c_now (out_redis (pred (g_uses g'))) + 1000 * kChatAuthTokenTtlSeconds) (int64 (u_uid user)) token (g_cache g').
Proof.
  intros Hs. set (Q := fun p : outcome (Response * bool) * gate => let '(o, g') := p in
    forall rsp, o = Ok (rsp, true) -> exists username password i user n token,
    wants data "username" username /\ wants data "password" password /\
    users (db (g_sql g)) !! i = Some user /\ ci_eq (u_username user) username = true /\ u_password user = password /\
    0 < int64 (u_uid user) /\ n ∈ ss_gatewayNodes (g_state g) /\ active n = true /\ sn_host n <> "" /\
    uint16 (sn_port n) <> 0 /\ token <> "" /\ handed_over user n token rsp /\
    good_until (c_now (out_redis (pred (g_uses g'))) + 1000 * kChatAuthTokenTtlSeconds) (int64 (u_uid user)) token (g_cache g')).
  change (Q (signIn data g)). unfold signIn, getUser, hasUserInfo.
  apply read_then; [auto with gate|done|]. intros username Hu%wants_here.
  apply read_then; [auto with gate|done|]. intros password Hp%wants_here.
  apply query_then; [done|]. intros row s1 Hst Hrow. destruct row as [[i u]|]; [|done].
  destruct Hrow as [Hrow|]; [|done]. symmetry in Hrow. apply first_row_Some in Hrow as [Hrow Hname].
  destruct (bool_decide _) eqn:Epw; [|done]. boolp. cbn [negb].
  pose proof (Pick_spec (int32 (u_uid u)) (with_sql s1 g)) as Hpick. unfold bind at 1.
  destruct (PickConnectionGateway _ _) as [o g1]. destruct Hpick as (Es1 & _ & node & -> & Hnode).
  destruct (node_empty node) eqn:Ene; [done|]. destruct (Hnode eq_refl) as (n & Hn & Ha & ->). clear Hnode.
  unfold node_empty in Ene. boolp.
  apply query_then; [rewrite Es1; apply Hst|]. intros before s2 _ _.
  apply use_then; [auto with gate|]. intros token g2 _ _. unfold bind at 1, use_redis at 1.
  pose proof (setChatAuthToken_spec (int64 (u_uid u)) token kChatAuthTokenTtlSeconds (out_redis (g_uses g2)) (g_cache g2)) as Ht.
  destruct (setChatAuthToken _ _ _ _ _) as [ok r]. destruct ok; [|done]. destruct (Ht eq_refl) as (Hpos & Htok & Hval).
  cbn [negb]. intros rsp [= <-].
  exists username, password, i, u, n, token. split_and!; try done.
  unfold handed_over. split_and!; try done. by eexists.
Qed.

(** Every call from now on succeeds. *)
Record calm (g : gate) : Prop := {
  calm_sql : forall k, (tick (g_sql g) <= k)%nat -> fault_at k = FNone;
  calm_redis : forall k, (g_uses g <= k)%nat -> c_fault (out_redis k) = FNone;
  calm_rpc : forall k, (g_uses g <= k)%nat -> out_rpc k = FNone }.

Lemma query_works {A} `{DefaultForType A} (q : DB -> A) s :
  (forall k, (tick s <= k)%nat -> fault_at k = FNone) ->
  Store.executeTemplate (select q) s = (q (db s), tock (tock s)).
Proof.
  intros Hf. unfold Store.executeTemplate, select, statement. cbn [tick tock].
  rewrite !Hf by lia. done.
Qed.

(** The one row with a name. *)
Lemma named_row s i u name :
  accounts_ok s -> users (db s) !! i = Some u -> ci_eq (u_username u) name = true ->
  first_row (fun _ u => ci_eq (u_username u) name) (users (db s)) = Some (i, u).
Proof.
  intros Hok Hu Hn. apply first_row_unique; [done|done|]. intros j w Hw Hwn.
  destruct (decide (j = i)) as [|Hne]; [done|]. destruct (ok_apart s Hok j i w u Hw Hu Hne) as (_ & Ha & _).
  unfold ci_eq in *. boolp. congruence.
Qed.

Lemma signIn_works data g i u name ip port id :
  accounts_ok (g_sql g) -> users (db (g_sql g)) !! i = Some u -> ci_eq (u_username u) name = true ->
  0 < u_uid u < 2 ^ 63 -> wants data "username" name -> wants data "password" (u_password u) -> calm g ->
  (StateService.PickConnectionGateway (g_state g)).1 = (OK, mkConnectUserRsp ip port id) ->
  ip <> "" -> uint16 port <> 0 ->
  exists rsp g', signIn data g = (Ok (rsp, true), g') /\ member_of "uid" rsp = Some (SInt (u_uid u)).
Proof.
  intros Hok Hu Hn Huid Wn Wp [Hsql Hredis Hrpc] Hpick Hip Hport.
  assert (int64 (u_uid u) = u_uid u) as E64 by (apply wrapS_small; lia).
  unfold signIn. unfold bind at 1. rewrite Wn. unfold bind at 1. rewrite Wp. rewrite sql_then.
  unfold getUser. rewrite query_works by done. cbn [fst snd]. rewrite (named_row _ i u) by done.
  rewrite bool_decide_true by done. cbn [negb].
  unfold bind at 1, PickConnectionGateway, bind at 1, call_state. cbn [g_uses with_sql g_state].
  rewrite Hrpc by lia. destruct (StateService.PickConnectionGateway (g_state g)) as [[status a] s1].
  simpl in Hpick. injection Hpick as -> ->. unfold ret at 1. cbn [node_of].
  unfold node_empty at 1. cbn [sv_ip sv_port cr_ip cr_port].
  rewrite (proj2 (str_empty_false ip)), (proj2 (Z.eqb_neq _ _)) by done. cbn [orb].
  rewrite sql_then. unfold hasUserInfo. rewrite query_works by (intros k; simpl; intros; apply Hsql; lia).
  cbn [fst snd]. unfold bind at 1, ask. cbn [g_uses with_sql g_sql].
  unfold bind, use_redis. cbn [g_uses g_cache g_sql g_state with_sql].
  unfold setChatAuthToken, Redis.executeTemplate. rewrite Hredis by lia. rewrite E64.
  rewrite (proj2 (Z.leb_gt _ _)), (proj2 (str_empty_false _)) by (lia || apply out_token_some). cbn.
  by eexists _, _.
Qed.

(** The row of an account, password included. *)
Definition forgets (r : (string -> bool) * HttpRequest) : bool :=
  bool_decide (rq_target r.2 = "/post-forget-password").

Lemma serve_keeps_row rs g i u :
  accounts_ok (g_sql g) -> Forall (fun r => forgets r = false) rs -> users (db (g_sql g)) !! i = Some u ->
  users (db (g_sql (serve_http v rs g))) !! i = Some u.
Proof.
  revert g. induction rs as [|[rpc request] rs IH]; intros g Hok Hf Hu; [done|].
  apply Forall_cons in Hf as [Hf Hfs]. apply IH; [by apply HandleRequest_accounts|done|]. simpl.
  pose proof (HandleRequest_spec v rpc request g (ok_rest _ Hok)) as Hs.
  destruct (HandleRequest _ _ _ _) as [answer g']. simpl. unfold forgets in Hf. boolp.
  destruct Hs as [(_ & -> & _)|(_ & o & _ & [[_ Hs]|[Ht _]])]; [done| |by destruct Hf].
  destruct Hs as (x1 & x2 & x3 & x4 & uid' & time & Hs). simpl in Hs.
  destruct Hs as (_ & _ & _ & _ & _ & _ & _ & (_ & -> & _) & _).
  cbn [users set_users]. rewrite lookup_insert_ne; [done|].
  pose proof (ok_ids _ Hok i ltac:(by exists u)). lia.
Qed.

(** The row a successful registration leaves. *)
Lemma signUp_row data g rsp g1 uid name password :
  accounts_ok (g_sql g) -> signUp v data g = (Ok (rsp, true), g1) -> member_of "uid" rsp = Some (SInt uid) ->
  wants data "username" name -> wants data "password" password ->
  accounts_ok (g_sql g1) /\ exists i u, users (db (g_sql g1)) !! i = Some u /\
    u_uid u = uint64 uid /\ u_username u = name /\ u_password u = password.
Proof.
  intros Hok E Hm Wn Wp. pose proof (signUp_spec v data g (ok_rest _ Hok)) as Hs. rewrite E in Hs.
  destruct Hs as [[_ Hs]|Hs]; [by destruct (Hs rsp)|].
  destruct Hs as (name' & password' & raw & code & uid' & time & Wn' & Wp' & _ & _ & Hn & Hp & Hacc & Ha & Ho).
  simpl in Ho, Ha. destruct Ho as [[= ->]|?]; [|done]. simpl in Hm. injection Hm as ->.
  assert (name' = name) as -> by (specialize (Wn g); rewrite Wn' in Wn; congruence).
  assert (password' = password) as -> by (specialize (Wp g); rewrite Wp' in Wp; congruence).
  split.
  - eapply adds_ok; [exact Hok|exact Ha|simpl..]; try done; [apply wrapU_range; lia|apply NormalizeEmail_twice|apply Hacc].
  - destruct Ha as (_ & -> & _). eexists (next_user (g_sql g)), _. cbn [users set_users].
    by rewrite lookup_insert_eq.
Qed.

(** Registration, then sign-in.  An account whose registration succeeded can
    sign in with its name and password and gets its id, after any other requests
    that are not password resets, when nothing fails and a gateway is available. *)
Theorem registration_roundtrip rs r st data rsp g1 uid name password later login ip port id :
  signUp v data (serve_http v rs (new_gate r st)) = (Ok (rsp, true), g1) ->
  member_of "uid" rsp = Some (SInt uid) -> 0 < uid < 2 ^ 63 ->
  wants data "username" name -> wants data "password" password ->
  Forall (fun r => forgets r = false) later ->
  let g2 := serve_http v later g1 in
  wants login "username" name -> wants login "password" password -> calm g2 ->
  (StateService.PickConnectionGateway (g_state g2)).1 = (OK, mkConnectUserRsp ip port id) ->
  ip <> "" -> uint16 port <> 0 ->
  exists rsp' g3, signIn login g2 = (Ok (rsp', true), g3) /\ member_of "uid" rsp' = Some (SInt uid).
Proof.
  intros E Hm Huid Wn Wp Hlater g2 Ln Lp Hcalm Hpick Hip Hport.
  destruct (signUp_row data _ rsp g1 uid name password (serve_accounts v rs (new_gate r st) new_accounts) E Hm Wn Wp)
    as (Hok1 & i & u & Hu & Eu & En & Ep).
  assert (u_uid u = uid) as Eu' by (rewrite Eu; apply wrapU_small; lia).
  pose proof (serve_keeps_row later g1 i u Hok1 Hlater Hu) as Hu2. rewrite <- Eu'.
  eapply signIn_works; try done; [by apply serve_accounts| |lia|by rewrite Ep].
  unfold ci_eq. by rewrite bool_decide_true by congruence.
Qed.

(** A registration without an identifier.  When [generateUserId] fails, [signUp]
    still succeeds and registers the id -1 as an unsigned one; nobody can ever
    sign in under that name, whatever happens afterwards. *)
Theorem failed_id_locks_name rs r st data rsp g1 name later login :
  signUp v data (serve_http v rs (new_gate r st)) = (Ok (rsp, true), g1) ->
  member_of "uid" rsp = Some (SInt (-1)) -> wants data "username" name ->
  wants login "username" name ->
  forall rsp', (signIn login (serve_http v later g1)).1 <> Ok (rsp', true).
Proof.
  intros E Hm Wn Ln rsp' Hin.
  pose proof (signUp_spec v data _ (ok_rest _ (serve_accounts v rs (new_gate r st) new_accounts))) as Hs.
  rewrite E in Hs. destruct Hs as [[_ Hs]|(name' & password & _ & _ & _ & _ & _ & Wp & _)]; [by destruct (Hs rsp)|].
  destruct (signUp_row data _ rsp g1 (-1) name password (serve_accounts v rs (new_gate r st) new_accounts) E Hm Wn Wp)
    as (Hok1 & i & u & Hu & Eu & En & _).
  pose proof (serve_accounts v later g1 Hok1) as Hok2.
  destruct (serve_keeps_account v later g1 i (uint64 (-1)) name (u_email u) Hok1 ltac:(by exists u))
    as (u2 & Hu2 & Eu2 & En2 & _).
  pose proof (signIn_success login (serve_http v later g1) (ok_rest _ Hok2)) as Hi.
  destruct (signIn login _) as [o g3]. simpl in Hin.
  destruct (Hi rsp' Hin) as (name2 & pw2 & j & u3 & n & token & Wn2 & _ & Hu3 & Hn3 & _ & Hpos & _).
  assert (name2 = name) as -> by (specialize (Ln g1); rewrite Wn2 in Ln; congruence).
  assert (j = i) as ->.
  { destruct (decide (j = i)) as [|Hne]; [done|]. destruct (ok_apart _ Hok2 j i u3 u2 Hu3 Hu2 Hne) as (_ & Hne' & _).
    unfold ci_eq in Hn3. boolp. congruence. }
  simplify_eq. rewrite Eu2 in Hpos. vm_compute in Hpos. done.
Qed.
End SignIn.

(** ** Asking for a code *)

Lemma pretty_N_go_length k n s :
  (n < 10 ^ N.of_nat k)%N -> (String.length (pretty_N_go n s) <= k + String.length s)%nat.
Proof.
  revert n s. induction k as [|k IH]; intros n s Hn.
  { assert (n = 0%N) as -> by (simpl in Hn; lia). by rewrite pretty_N_go_0. }
  destruct (decide (n = 0%N)) as [->|H0]; [rewrite pretty_N_go_0; lia|].
  rewrite pretty_N_go_step by lia. etransitivity; [apply IH|simpl; lia].
  apply N.Div0.div_lt_upper_bound. by rewrite <- N.pow_succ_r', <- Nat2N.inj_succ.
Qed.

Lemma six_digits z : 0 <= z <= 999999 -> (String.length (to_string z) <= 6)%nat.
Proof.
  intros Hz. destruct z as [|p|p]; [cbv; lia| |lia].
  change (String.length (pretty_N_go (N.pos p) "") <= 6)%nat. etransitivity; [apply (pretty_N_go_length 6)|simpl; lia].
  change (10 ^ N.of_nat 6)%N with 1000000%N. lia.
Qed.

Lemma string_of_list_length l : String.length (String.string_of_list_ascii l) = length l.
Proof. induction l as [|c l IH]; [done|]. simpl. by rewrite IH. Qed.

Section Codes.
Context `{Outside} (v : Verification).

Lemma GenerateCode_spec g :
  exists code, GenerateCode g = (Ok code, mkGate (g_sql g) (g_cache g) (g_state g) (S (g_uses g))) /\
    String.length code = 6%nat.
Proof.
  eexists. split; [reflexivity|]. cbv zeta. pose proof (six_digits (out_code (g_uses g)) (out_code_range _)) as Hl.
  rewrite str_length_app, string_of_list_length, length_replicate. lia.
Qed.

Lemma SendEmail_spec recipient code g :
  let '(o, g') := SendEmail v recipient code g in
  g_sql g' = g_sql g /\ g_cache g' = g_cache g /\ exists b, o = Ok b /\
  (b = true -> out_smtp (pred (g_uses g')) (email_text recipient (emailUser v) code (codeTtlSeconds v)) = true).
Proof.
  unfold SendEmail. destruct (_ || _ || _); [split_and!; try done; by exists false|]. unfold ask. split_and!; try done.
  by eexists.
Qed.

(** A code that can be used until it runs out, and asking again is refused. *)
Definition usable (email code : string) (t : Z) (r : redis) : Prop :=
  String.length code = 6%nat /\
  forall t', t' <= t + 1000 * codeTtlSeconds v ->
    (getVerificationCode email (ok_at t') r).1 = code /\
    (0 < maxAttempts v -> (consumeVerificationCode email code (maxAttempts v) (ok_at t') r).1 = true).

(** Nothing is left of a code. *)
Definition forgotten (email : string) (r : redis) : Prop :=
  r !! codeKey email = None /\ r !! cooldownKey email = None /\ r !! attemptsKey email = None.

Definition stored_code (code : string) (t : Z) : entry := mkEntry (VStr code) (Some (t + 1000 * codeTtlSeconds v)).

Lemma stored_live email code t t' r :
  r !! codeKey email = Some (stored_code code t) -> t' <= t + 1000 * codeTtlSeconds v ->
  lookup_live t' (codeKey email) r = Some (stored_code code t).
Proof. intros Hr Ht. apply lookup_live_Some. split; [done|]. unfold live. simpl. by apply Z.leb_le. Qed.

Lemma stored_usable email code t r :
  email <> "" -> String.length code = 6%nat ->
  r !! codeKey email = Some (stored_code code t) -> usable email code t r.
Proof.
  intros He Hl Hr. split; [done|]. intros t' Ht. pose proof (stored_live email code t t' r Hr Ht) as Hv.
  assert (code <> "") as Hc by (by intros ->). split.
  - unfold getVerificationCode, Redis.executeTemplate, GET. rewrite (proj2 (str_empty_false _)) by done. simpl.
    by rewrite Hv.
  - intros Hm. unfold consumeVerificationCode, Redis.executeTemplate, consume_script, GET.
    rewrite !(proj2 (str_empty_false _)), (proj2 (Z.leb_gt _ _)) by done. simpl. rewrite Hv. simpl.
    by rewrite decide_True.
Qed.

Lemma clear_forgets email code t c r :
  email <> "" -> String.length code = 6%nat ->
  r !! codeKey email = Some (stored_code code t) ->
  c_fault c = FNone -> c_now c <= t + 1000 * codeTtlSeconds v ->
  forgotten email (clearVerificationCode email code c r).2.
Proof.
  intros He Hl Hr Hf Ht. unfold clearVerificationCode, Redis.executeTemplate.
  assert (code <> "") as Hc by (by intros ->). rewrite !(proj2 (str_empty_false _)) by done. simpl. rewrite Hf.
  assert (GET (c_now c) (codeKey email) r = Some (VStr code)) as Hg
    by (unfold GET; by rewrite (stored_live email code t)).
  rewrite decide_True by done. simpl. unfold forgotten, DEL.
  rewrite lookup_delete_eq, !(lookup_delete_ne _ (cooldownKey email)), lookup_delete_eq by auto with keys.
  by rewrite lookup_delete_ne, lookup_delete_eq by auto with keys.
Qed.

(** Anything but a new code leaves the cache alone. *)
Lemma issue_refused email code ttl cool c r :
  let '(res, r') := issueVerificationCode email code ttl cool c r in 0 <= res -> res <> 1 -> r' = r.
Proof.
  unfold issueVerificationCode. destruct (_ || _ || _ || _); [done|]. unfold Redis.executeTemplate.
  destruct (c_fault c); [|done|]; by destruct (EXISTS _ _ _).
Qed.

Lemma get_keeps email c r : (getVerificationCode email c r).2 = r.
Proof.
  unfold getVerificationCode, Redis.executeTemplate. destruct (str_empty email); [done|]. by destruct (c_fault c).
Qed.

(** What a request for a code may answer, [g] and [g'] before and after it.  Its
    uses of the outside are numbered: the first draws the code, the second is
    the script that stores it, the last is the mail, or the clearing after a
    mail that failed.  A code is only shown where that is configured; while the
    cool-down of the address runs there is no new code, and no code leaves the
    cache alone; a new one is usable from the moment it was stored, starts the
    cool-down and, where configured, was mailed; one that could not be mailed is
    forgotten, if Redis then answers and the code has not run out by itself. *)
Record code_answer (email : string) (issue : VerificationCodeIssue) (g g' : gate) : Prop := {
  ca_shown : vi_developmentCode issue <> "" -> exposeCodeInResponse v = true;
  ca_old : vi_issued issue = false -> vi_error issue = Success -> g_cache g' = g_cache g;
  ca_cooling : EXISTS (c_now (out_redis (S (g_uses g)))) (cooldownKey email) (g_cache g) = true -> vi_issued issue = false;
  ca_new : vi_issued issue = true ->
    let t := c_now (out_redis (S (g_uses g))) in
    let clearing := out_redis (pred (g_uses g')) in
    exists code, (GenerateCode g).1 = Ok code /\ String.length code = 6%nat /\
    (vi_error issue = Success ->
       usable email code t (g_cache g') /\
       (forall t', t' <= t + 1000 * resendCooldownSeconds v -> EXISTS t' (cooldownKey email) (g_cache g') = true) /\
       (exposeCodeInResponse v = true -> vi_developmentCode issue = code) /\
       (emailEnabled v = true ->
          out_smtp (pred (g_uses g')) (email_text email (emailUser v) code (codeTtlSeconds v)) = true)) /\
    (vi_error issue <> Success -> c_fault clearing = FNone -> c_now clearing <= t + 1000 * codeTtlSeconds v ->
       forgotten email (g_cache g')) }.

Definition answered (email : string) (g : gate) (p : outcome VerificationCodeIssue * gate) : Prop :=
  g_sql p.2 = g_sql g /\ exists issue, p.1 = Ok issue /\ code_answer email issue g p.2.

Lemma answered_plainly email g g' issue :
  g_sql g' = g_sql g -> (vi_error issue = Success -> g_cache g' = g_cache g) -> vi_issued issue = false ->
  (vi_developmentCode issue <> "" -> exposeCodeInResponse v = true) -> answered email g (ret issue g').
Proof.
  intros Es Ec Ei Hd. split; [done|]. exists issue. split; [done|]. split; [done|by auto|done|]. by rewrite Ei.
Qed.

(** The code and its cool-down as the script has stored them. *)
Definition just_stored (email code : string) (t : Z) (r : redis) : Prop :=
  r !! codeKey email = Some (stored_code code t) /\
  r !! cooldownKey email = Some (mkEntry (VStr "1") (Some (t + 1000 * resendCooldownSeconds v))).

(** The end of a request that made a code. *)
Lemma answered_mailed email code b g g2 :
  let t := c_now (out_redis (S (g_uses g))) in
  email <> "" -> (GenerateCode g).1 = Ok code -> String.length code = 6%nat -> just_stored email code t (g_cache g2) ->
  EXISTS t (cooldownKey email) (g_cache g) = false -> g_sql g2 = g_sql g ->
  (b = true -> emailEnabled v = true ->
     out_smtp (pred (g_uses g2)) (email_text email (emailUser v) code (codeTtlSeconds v)) = true) ->
  answered email g ((if negb b then
      let* _ := use_redis (clearVerificationCode email code) in ret (mkIssue DependencyUnavailable true "")
    else ret (mkIssue Success true (if exposeCodeInResponse v then code else ""))) g2).
Proof.
  cbv zeta. set (t := c_now (out_redis (S (g_uses g)))). intros Hemail Hgen Hl [Hstored Hcool] Hwas Es Hb. destruct b; cbn [negb].
  - split; [done|]. eexists. split; [reflexivity|]. split; cbn [vi_error vi_issued vi_developmentCode]; [by destruct (exposeCodeInResponse v)|done|fold t; by rewrite Hwas|].
    intros _. exists code. do 2 (split; [done|]). split; [|done]. intros _. split; [by apply stored_usable|]. split; [|split; [by intros ->|by apply Hb]].
    intros t' Ht. unfold EXISTS. apply bool_decide_eq_true. eexists. apply lookup_live_Some. split; [exact Hcool|].
    unfold live. simpl. by apply Z.leb_le.
  - unfold bind, use_redis.
    pose proof (clear_forgets email code t (out_redis (g_uses g2)) _ Hemail Hl Hstored) as Hc.
    destruct (clearVerificationCode _ _ _ _) as [b2 r2]. split; [done|]. eexists. split; [reflexivity|].
    split; cbn [vi_error vi_issued vi_developmentCode fst snd]; [done|done|fold t; by rewrite Hwas|]. intros _. exists code. do 2 (split; [done|]). split; [done|]. intros _. exact Hc.
Qed.

(** C32: asking for a code.  Every answer of [RequestEmailCode], under any
    failures, changes no table; a code is only shown where configured; within
    the cool-down none is issued, and without an error nothing changes then.  A
    new code is the six digits just generated; with [Success] it can be used for
    the configured time from the moment it was stored, the cool-down runs for
    its time from then on, and where mails are configured the last thing the
    request did was to mail this code to this address, with success; otherwise
    the last thing it did was to clear the code, and unless that call failed
    code and cool-down are gone. *)
Theorem code_request raw g : answered (NormalizeEmail raw) g (RequestEmailCode v raw g).
Proof.
  set (email := NormalizeEmail raw). unfold RequestEmailCode. fold email.
  destruct (negb (IsValidEmail email)) eqn:Ev; [by apply answered_plainly|].
  destruct (negb (emailEnabled v) && _) eqn:Een; [by apply answered_plainly|].
  unfold bind at 1. destruct (GenerateCode_spec g) as (code & Egen & Hl). rewrite Egen.
  apply (f_equal fst) in Egen. cbn [fst] in Egen.
  unfold bind at 1, use_redis at 1. cbn [g_cache g_uses g_sql g_state].
  set (c := out_redis (S (g_uses g))).
  pose proof (issue_cases email code (codeTtlSeconds v) (resendCooldownSeconds v) c (g_cache g)) as Hi.
  pose proof (issue_refused email code (codeTtlSeconds v) (resendCooldownSeconds v) c (g_cache g)) as Hr.
  destruct (issueVerificationCode _ _ _ _ _ _) as [res r1].
  destruct (res <? 0) eqn:Eneg; [by apply answered_plainly|]. boolp.
  destruct (res =? 1) eqn:E1; boolp; cbn [negb andb].
  - subst res. destruct (Hi eq_refl) as (_ & Hemail & _ & _ & _ & Hwas & Hstored & Hcool & _). clear Hi Hr.
    unfold bind at 1, ret at 1. set (g1 := mkGate (g_sql g) r1 _ _). unfold bind at 1.
    destruct (emailEnabled v) eqn:Em.
    + pose proof (SendEmail_spec email code g1) as Hsend. destruct (SendEmail _ _ _ g1) as [o g2].
      destruct Hsend as (Es & Ec & b & -> & Hb). apply answered_mailed; try done; [by split; rewrite Ec|].
      intros Hb' _. by apply Hb.
    + apply (answered_mailed email code true g g1); try done. by rewrite Em.
  - rewrite (Hr Eneg E1). destruct (exposeCodeInResponse v) eqn:Ex.
    + unfold bind at 1, use_redis. cbn [g_cache g_uses g_sql g_state].
      pose proof (get_keeps email (out_redis (S (S (g_uses g)))) (g_cache g)) as Hg.
      destruct (getVerificationCode _ _ _) as [active r2]. simpl in Hg. subst r2. by apply answered_plainly.
    + by apply answered_plainly.
Qed.
End Codes.

(** ** A concrete gate *)

Module GateDemo.
#[export] Instance scalar_eq_dec : EqDecision Scalar.
Proof. solve_decision. Defined.
#[export] Program Instance scalar_countable : Countable Scalar :=
  inj_countable'
    (fun s => match s with SInt z => inl z | SString s => inr (inl s) | SBool b => inr (inr b) end)
    (fun x => match x with inl z => SInt z | inr (inl s) => SString s | inr (inr b) => SBool b end) _.
Next Obligation. by intros []. Qed.

Fixpoint fields_of (r : Response) : Fields :=
  match r with
  | [] => NoField
  | (name, s) :: r => Field name (json_of s) (fields_of r)
  end.

Lemma find_fields_of name r : find_field name (fields_of r) = json_of <$> member_of name r.
Proof. induction r as [|[k s] r IH]; [done|]. simpl. by case_decide. Qed.

Definition text (r : Response) : string := pos_to_string (encode r).
Definition read (s : string) : option Json :=
  (fun r => JObject (fields_of r)) <$> (string_to_pos s ≫= decode).

Lemma read_text r : exists fields, read (text r) = Some (JObject fields) /\
  forall name, find_field name fields = json_of <$> member_of name r.
Proof.
  exists (fields_of r). unfold read, text. rewrite string_to_pos_to_string. simpl. rewrite decode_encode.
  split; [done|]. intros. apply find_fields_of.
Qed.

Definition json_text : JsonText := {| toStyledString := text; parse_json := read; parse_styled := read_text |}.

Definition exact : Collation := fun s => s.
Definition no_faults : Faults := fun _ => FNone.

(** Everything works; [ids] is the fault of the identifiers' calls. *)
Definition outside (ids : fault) : Outside.
Proof.
  refine {| out_redis n := ok_at (1000 * Z.of_nat n); out_ids n := [mkCall ids (epoch + Z.of_nat n)];
            out_date_time n := "2024-01-01"; out_code n := 4711; out_token n := "token";
            out_smtp n s := true; out_rpc n := FNone; out_machine := 1 |}; intros; [lia|done].
Defined.

Definition settings : Verification := mkVerification 180 60 5 false true "" "" "".
Definition services : state_service :=
  mkState ∅ ∅ [] [mkServiceNode "g1" "10.0.0.1" 8000 "active" 1] [] 0 1 0 0.

Definition post (path : string) (r : Response) : HttpRequest := mkHttpRequest Gate.Post path (text r).
Definition ask_code : HttpRequest := post "/post-verifycode" [("email", SString "A@b.cn ")].
Definition registration : Response :=
  [("username", SString "ann"); ("password", SString "secret"); ("email", SString "a@b.cn");
   ("verifycode", SString "004711")].
Definition login : Response := [("username", SString "ann"); ("password", SString "secret")].
Definition others : list ((string -> bool) * HttpRequest) :=
  [(fun _ => false, mkHttpRequest Get "/test" ""); (fun _ => false, ask_code)].

(** The gate once the code has been asked for. *)
Definition asked (ids : fault) : gate :=
  serve_http (H := exact) (H0 := no_faults) (H1 := outside ids) (H2 := json_text) settings
    [(fun _ => false, ask_code)] (new_gate ∅ services).
Definition signed_up (ids : fault) : outcome (Response * bool) * gate :=
  signUp (H := exact) (H0 := no_faults) (H1 := outside ids) settings (JObject (fields_of registration)) (asked ids).

Lemma wants_field (r : Response) name text : member_of name r = Some (SString text) ->
  wants (JObject (fields_of r)) name text.
Proof. intros Hm g. unfold string_member, bind, member, ret. by rewrite find_fields_of, Hm. Qed.
End GateDemo.

Lemma registration_roundtrip_witness :
  exists rsp' g3,
    signIn (H := GateDemo.exact) (H0 := GateDemo.no_faults) (H1 := GateDemo.outside FNone)
      (JObject (GateDemo.fields_of GateDemo.login))
      (serve_http (H := GateDemo.exact) (H0 := GateDemo.no_faults) (H1 := GateDemo.outside FNone)
         (H2 := GateDemo.json_text) GateDemo.settings GateDemo.others (GateDemo.signed_up FNone).2) = (Ok (rsp', true), g3) /\
    member_of "uid" rsp' = Some (SInt 12587009).
Proof.
  eapply (registration_roundtrip (H := GateDemo.exact) (H0 := GateDemo.no_faults) (H1 := GateDemo.outside FNone)
    (H2 := GateDemo.json_text) GateDemo.settings [(fun _ => false, GateDemo.ask_code)] ∅ GateDemo.services
    (JObject (GateDemo.fields_of GateDemo.registration)) _ (GateDemo.signed_up FNone).2 12587009 "ann" "secret"
    GateDemo.others _ "10.0.0.1" 8000 "g1").
  - vm_compute. reflexivity.
  - reflexivity.
  - lia.
  - by apply GateDemo.wants_field.
  - by apply GateDemo.wants_field.
  - repeat constructor.
  - by apply GateDemo.wants_field.
  - by apply GateDemo.wants_field.
  - by split.
  - vm_compute. reflexivity.
  - done.
  - done.
Defined.

(** A refused call to Redis gives the account an id the gate cannot use. *)
Lemma failed_id_locks_name_witness :
  ~ exists rsp',
    (signIn (H := GateDemo.exact) (H0 := GateDemo.no_faults) (H1 := GateDemo.outside FBefore)
      (JObject (GateDemo.fields_of GateDemo.login)) (GateDemo.signed_up FBefore).2).1 = Ok (rsp', true).
Proof.
  intros [rsp' Hr]. revert Hr.
  eapply (failed_id_locks_name (H := GateDemo.exact) (H0 := GateDemo.no_faults) (H1 := GateDemo.outside FBefore)
    (H2 := GateDemo.json_text) GateDemo.settings [(fun _ => false, GateDemo.ask_code)] ∅ GateDemo.services
    (JObject (GateDemo.fields_of GateDemo.registration)) _ (GateDemo.signed_up FBefore).2 "ann" []).
  - vm_compute. reflexivity.
  - reflexivity.
  - by apply GateDemo.wants_field.
  - by apply GateDemo.wants_field.
Defined.
