(* ===== verification/Client.v ===== *)
(** * The client's connection to a gateway

    [src/client/src/adapters/connection_gateway/ConnectionGatewayClient.cc]: the
    state machine of the connection, the queues of requests, their timers, the
    reconnection.  Qt runs it on one thread: an [event] is what the event loop
    delivers, and a signal runs the slots connected to it at once, so the
    application's reaction to a response runs inside [CompleteFront].  The
    socket keeps what its documentation promises: data written while it connects
    is buffered; [abort] drops the buffer; [disconnectFromHost] waits for it;
    [disconnected] is emitted for a connection that was established, not for an
    attempt that fails, which only emits [errorOccurred].  The texts of the
    signals are left out. *)

From S2P Require Import Prelude Const Packet Frame.

(** ** Parameters *)

(** [QProtobufSerializer] on the generated [wimi::protocol::Packet]. *)
Class QtCodec := {
  SerializeProtobufPacket : Packet -> option string;
  ParseProtobufPacket : string -> option Packet;
  parse_protobuf : forall p s, SerializeProtobufPacket p = Some s -> ParseProtobufPacket s = Some p }.

(** [QUuid::createUuid]: the n-th call. *)
Class Uuid := { uuid : nat -> string; uuid_inj : forall n m, uuid n = uuid m -> n = m }.

(** [QRandomGenerator::bounded]: the n-th draw below a bound. *)
Class Random := { bounded : nat -> Z -> Z; bounded_range : forall n k, 0 < k -> 0 <= bounded n k < k }.

(** The order in which a [QHash] is visited. *)
Class QHashOrder := {
  visit : forall {A}, gmap Z A -> list (Z * A);
  visit_perm : forall {A} (m : gmap Z A), visit m ≡ₚ map_to_list m }.

(** ** State *)


Inductive CState := Disconnected | Connecting | Authenticating | Ready | Reconnecting | Closing.

#[export] Instance CState_eq_dec : EqDecision CState.
Proof. solve_decision. Defined.

(** The flag: [disconnectFromHost] was called while connecting. *)
Inductive socket_state := SUnconnected | SConnecting (pendingClose : bool) | SConnected | SClosing.

#[export] Instance socket_state_eq_dec : EqDecision socket_state.
Proof. solve_decision. Defined.

Record GateSession := mkGateSession {
  gs_uid : Z; gs_gatewayHost : string; gs_gatewayPort : Z; gs_gatewayId : string; gs_token : string;
  gs_tokenExpiresInSeconds : Z; gs_profileName : string; gs_profileInitializationRequired : bool }.

Definition no_session : GateSession := mkGateSession 0 "" 0 "" "" 0 "" false.

Record PendingRequest := mkRequest {
  rq_requestId : string; rq_requestServiceId : Z; rq_responseServiceId : Z; rq_payload : string;
  rq_timeoutMilliseconds : Z }.

Inductive Signal :=
  | StateChanged (s : CState)
  | Authenticated
  | CredentialsExpired
  | ResponseReceived (requestId : string) (serviceId : Z) (payload : string)
  | PushReceived (serviceId : Z) (payload : string)
  | RequestFailed (requestId : string) (requestServiceId errorCode : Z) (outcomeUnknown : bool)
  | ProtocolError.

(** The calls an application makes. *)
Inductive Call :=
  | CallPullFriendList
  | CallPullFriendApplications
  | CallPullConversationMessages (conversationId afterSequence limit : Z)
  | CallPullAllMessages (lastMessageId limit : Z)
  | CallSendFriendRequest (recipientUid : Z) (message : string)
  | CallReplyFriendRequest (recipientUid : Z) (accept : bool) (message : string)
  | CallSendText (recipientUid : Z) (utf8Text clientMessageId : string) (conversationId : Z)
  | CallUploadFile (clientSequence : Z) (fileName fileType content : string)
  | CallCreateGroup (groupName : string)
  | CallRequestJoinGroup (groupId : Z) (message : string)
  | CallReplyJoinGroup (groupId requestorUid : Z) (accept : bool)
  | CallSendGroupText (groupId : Z) (utf8Text clientMessageId : string) (conversationId : Z)
  | CallAcknowledgeTransport (messageId : Z)
  | CallAcknowledgeDelivered (messageId conversationId conversationSequence : Z)
  | CallAcknowledgeRead (messageId conversationId conversationSequence : Z).

(** A timer is its interval while it is active.  [cl_buffer] is the write buffer
    of the socket.  Only recorded: [cl_signals], [cl_issued] (the ids given out),
    [cl_written] (the frames the socket took, with the number of the connection).
    [cl_closers] counts the pending one-second timers of [Close]. *)
Record client := mkClient {
  cl_state : CState; cl_socket : socket_state; cl_buffer : list (Z * string); cl_codec : TcpFrameCodec;
  cl_heartbeat : bool; cl_reconnect_timer : option Z; cl_closers : nat;
  cl_pending : gmap Z (list PendingRequest); cl_timers : gmap Z (option Z); cl_session : GateSession;
  cl_token_expires_at : Z; cl_next_sequence : Z; cl_reconnect_attempt : Z; cl_desired_open : bool;
  cl_now : Z; cl_draws : nat; cl_connections : nat;
  cl_signals : list Signal; cl_issued : list string; cl_written : list (nat * (Z * string)) }.

Definition put_state x c := mkClient x (cl_socket c) (cl_buffer c) (cl_codec c) (cl_heartbeat c)
  (cl_reconnect_timer c) (cl_closers c) (cl_pending c) (cl_timers c) (cl_session c)
  (cl_token_expires_at c) (cl_next_sequence c) (cl_reconnect_attempt c) (cl_desired_open c) (cl_now c)
  (cl_draws c) (cl_connections c) (cl_signals c) (cl_issued c) (cl_written c).
Definition put_socket x c := mkClient (cl_state c) x (cl_buffer c) (cl_codec c) (cl_heartbeat c)
  (cl_reconnect_timer c) (cl_closers c) (cl_pending c) (cl_timers c) (cl_session c)
  (cl_token_expires_at c) (cl_next_sequence c) (cl_reconnect_attempt c) (cl_desired_open c) (cl_now c)
  (cl_draws c) (cl_connections c) (cl_signals c) (cl_issued c) (cl_written c).
Definition put_buffer x c := mkClient (cl_state c) (cl_socket c) x (cl_codec c) (cl_heartbeat c)
  (cl_reconnect_timer c) (cl_closers c) (cl_pending c) (cl_timers c) (cl_session c)
  (cl_token_expires_at c) (cl_next_sequence c) (cl_reconnect_attempt c) (cl_desired_open c) (cl_now c)
  (cl_draws c) (cl_connections c) (cl_signals c) (cl_issued c) (cl_written c).
Definition put_codec x c := mkClient (cl_state c) (cl_socket c) (cl_buffer c) x (cl_heartbeat c)
  (cl_reconnect_timer c) (cl_closers c) (cl_pending c) (cl_timers c) (cl_session c)
  (cl_token_expires_at c) (cl_next_sequence c) (cl_reconnect_attempt c) (cl_desired_open c) (cl_now c)
  (cl_draws c) (cl_connections c) (cl_signals c) (cl_issued c) (cl_written c).
Definition put_heartbeat x c := mkClient (cl_state c) (cl_socket c) (cl_buffer c) (cl_codec c) x
  (cl_reconnect_timer c) (cl_closers c) (cl_pending c) (cl_timers c) (cl_session c)
  (cl_token_expires_at c) (cl_next_sequence c) (cl_reconnect_attempt c) (cl_desired_open c) (cl_now c)
  (cl_draws c) (cl_connections c) (cl_signals c) (cl_issued c) (cl_written c).
Definition put_reconnect_timer x c := mkClient (cl_state c) (cl_socket c) (cl_buffer c) (cl_codec c)
  (cl_heartbeat c) x (cl_closers c) (cl_pending c) (cl_timers c) (cl_session c) (cl_token_expires_at c)
  (cl_next_sequence c) (cl_reconnect_attempt c) (cl_desired_open c) (cl_now c) (cl_draws c)
  (cl_connections c) (cl_signals c) (cl_issued c) (cl_written c).
Definition put_closers x c := mkClient (cl_state c) (cl_socket c) (cl_buffer c) (cl_codec c)
  (cl_heartbeat c) (cl_reconnect_timer c) x (cl_pending c) (cl_timers c) (cl_session c)
  (cl_token_expires_at c) (cl_next_sequence c) (cl_reconnect_attempt c) (cl_desired_open c) (cl_now c)
  (cl_draws c) (cl_connections c) (cl_signals c) (cl_issued c) (cl_written c).
Definition put_pending x c := mkClient (cl_state c) (cl_socket c) (cl_buffer c) (cl_codec c)
  (cl_heartbeat c) (cl_reconnect_timer c) (cl_closers c) x (cl_timers c) (cl_session c)
  (cl_token_expires_at c) (cl_next_sequence c) (cl_reconnect_attempt c) (cl_desired_open c) (cl_now c)
  (cl_draws c) (cl_connections c) (cl_signals c) (cl_issued c) (cl_written c).
Definition put_timers x c := mkClient (cl_state c) (cl_socket c) (cl_buffer c) (cl_codec c)
  (cl_heartbeat c) (cl_reconnect_timer c) (cl_closers c) (cl_pending c) x (cl_session c)
  (cl_token_expires_at c) (cl_next_sequence c) (cl_reconnect_attempt c) (cl_desired_open c) (cl_now c)
  (cl_draws c) (cl_connections c) (cl_signals c) (cl_issued c) (cl_written c).
Definition put_session x c := mkClient (cl_state c) (cl_socket c) (cl_buffer c) (cl_codec c)
  (cl_heartbeat c) (cl_reconnect_timer c) (cl_closers c) (cl_pending c) (cl_timers c) x
  (cl_token_expires_at c) (cl_next_sequence c) (cl_reconnect_attempt c) (cl_desired_open c) (cl_now c)
  (cl_draws c) (cl_connections c) (cl_signals c) (cl_issued c) (cl_written c).
Definition put_token_expires_at x c := mkClient (cl_state c) (cl_socket c) (cl_buffer c) (cl_codec c)
  (cl_heartbeat c) (cl_reconnect_timer c) (cl_closers c) (cl_pending c) (cl_timers c) (cl_session c) x
  (cl_next_sequence c) (cl_reconnect_attempt c) (cl_desired_open c) (cl_now c) (cl_draws c)
  (cl_connections c) (cl_signals c) (cl_issued c) (cl_written c).
Definition put_next_sequence x c := mkClient (cl_state c) (cl_socket c) (cl_buffer c) (cl_codec c)
  (cl_heartbeat c) (cl_reconnect_timer c) (cl_closers c) (cl_pending c) (cl_timers c) (cl_session c)
  (cl_token_expires_at c) x (cl_reconnect_attempt c) (cl_desired_open c) (cl_now c) (cl_draws c)
  (cl_connections c) (cl_signals c) (cl_issued c) (cl_written c).
Definition put_reconnect_attempt x c := mkClient (cl_state c) (cl_socket c) (cl_buffer c) (cl_codec c)
  (cl_heartbeat c) (cl_reconnect_timer c) (cl_closers c) (cl_pending c) (cl_timers c) (cl_session c)
  (cl_token_expires_at c) (cl_next_sequence c) x (cl_desired_open c) (cl_now c) (cl_draws c)
  (cl_connections c) (cl_signals c) (cl_issued c) (cl_written c).
Definition put_desired_open x c := mkClient (cl_state c) (cl_socket c) (cl_buffer c) (cl_codec c)
  (cl_heartbeat c) (cl_reconnect_timer c) (cl_closers c) (cl_pending c) (cl_timers c) (cl_session c)
  (cl_token_expires_at c) (cl_next_sequence c) (cl_reconnect_attempt c) x (cl_now c) (cl_draws c)
  (cl_connections c) (cl_signals c) (cl_issued c) (cl_written c).
Definition put_now x c := mkClient (cl_state c) (cl_socket c) (cl_buffer c) (cl_codec c)
  (cl_heartbeat c) (cl_reconnect_timer c) (cl_closers c) (cl_pending c) (cl_timers c) (cl_session c)
  (cl_token_expires_at c) (cl_next_sequence c) (cl_reconnect_attempt c) (cl_desired_open c) x
  (cl_draws c) (cl_connections c) (cl_signals c) (cl_issued c) (cl_written c).
Definition put_draws x c := mkClient (cl_state c) (cl_socket c) (cl_buffer c) (cl_codec c)
  (cl_heartbeat c) (cl_reconnect_timer c) (cl_closers c) (cl_pending c) (cl_timers c) (cl_session c)
  (cl_token_expires_at c) (cl_next_sequence c) (cl_reconnect_attempt c) (cl_desired_open c) (cl_now c) x
  (cl_connections c) (cl_signals c) (cl_issued c) (cl_written c).
Definition put_connections x c := mkClient (cl_state c) (cl_socket c) (cl_buffer c) (cl_codec c)
  (cl_heartbeat c) (cl_reconnect_timer c) (cl_closers c) (cl_pending c) (cl_timers c) (cl_session c)
  (cl_token_expires_at c) (cl_next_sequence c) (cl_reconnect_attempt c) (cl_desired_open c) (cl_now c)
  (cl_draws c) x (cl_signals c) (cl_issued c) (cl_written c).
Definition put_signals x c := mkClient (cl_state c) (cl_socket c) (cl_buffer c) (cl_codec c)
  (cl_heartbeat c) (cl_reconnect_timer c) (cl_closers c) (cl_pending c) (cl_timers c) (cl_session c)
  (cl_token_expires_at c) (cl_next_sequence c) (cl_reconnect_attempt c) (cl_desired_open c) (cl_now c)
  (cl_draws c) (cl_connections c) x (cl_issued c) (cl_written c).
Definition put_issued x c := mkClient (cl_state c) (cl_socket c) (cl_buffer c) (cl_codec c)
  (cl_heartbeat c) (cl_reconnect_timer c) (cl_closers c) (cl_pending c) (cl_timers c) (cl_session c)
  (cl_token_expires_at c) (cl_next_sequence c) (cl_reconnect_attempt c) (cl_desired_open c) (cl_now c)
  (cl_draws c) (cl_connections c) (cl_signals c) x (cl_written c).
Definition put_written x c := mkClient (cl_state c) (cl_socket c) (cl_buffer c) (cl_codec c)
  (cl_heartbeat c) (cl_reconnect_timer c) (cl_closers c) (cl_pending c) (cl_timers c) (cl_session c)
  (cl_token_expires_at c) (cl_next_sequence c) (cl_reconnect_attempt c) (cl_desired_open c) (cl_now c)
  (cl_draws c) (cl_connections c) (cl_signals c) (cl_issued c) x.

Abbreviation Client := (State client).

Definition kHeartbeatIntervalMilliseconds : Z := 20000.
Definition kReconnectBaseMilliseconds : Z := 200.
Definition kReconnectMaximumMilliseconds : Z := 10000.
Definition kServerRequestBudgetMilliseconds : Z := 3000.

(** [std::clamp(value, low, high)] *)
Definition clamp (value low high : Z) : Z :=
  if value <? low then low else if high <? value then high else value.

Section Operations.
Context `{QtCodec} `{Uuid} `{Random} `{QHashOrder}.

Definition emit (s : Signal) : Client unit := writes (fun c => put_signals (cl_signals c ++ [s]) c).

Definition SetState (s : CState) : Client unit := fun c =>
  if decide (cl_state c = s) then (tt, c) else emit (StateChanged s) (put_state s c).

Definition IsReady (c : client) : bool := bool_decide (cl_state c = Ready).

(** [QTcpSocket::write] of a whole frame. *)
Definition socket_write (frame : Z * string) : Client unit := fun c =>
  match cl_socket c with
  | SUnconnected => (tt, c)
  | _ => (tt, put_written (cl_written c ++ [(cl_connections c, frame)])
                (put_buffer (cl_buffer c ++ [frame]) c))
  end.

Definition SendPacket (serviceId : Z) (packet : Packet) : Client unit :=
  match SerializeProtobufPacket packet with
  | None => emit ProtocolError
  | Some payload => socket_write (serviceId, payload)
  end.

(** ** Requests *)

Definition SendFront (responseServiceId : Z) : Client unit := fun c =>
  match cl_pending c !! responseServiceId with
  | None | Some [] => (tt, c)
  | Some (pending :: _) =>
      if negb (IsReady c) then (tt, c)
      else
        let '(_, c) := socket_write (rq_requestServiceId pending, rq_payload pending) c in
        (tt, put_timers (<[responseServiceId := Some (rq_timeoutMilliseconds pending)]> (cl_timers c)) c)
  end.

Definition NewRequestId : Client string := fun c =>
  let id := uuid (length (cl_issued c)) in (id, put_issued (cl_issued c ++ [id]) c).

Definition QueueRequest (serviceId : Z) (packet : Packet) (timeoutMilliseconds : Z) : Client string :=
  let! requestId := NewRequestId in
  let! ready := reads IsReady in
  if negb ready then
    do! emit (RequestFailed requestId serviceId DependencyUnavailable false) in
    pure requestId
  else
    let packet := packet |> set_str F_request_id requestId
                         |> set_int F_request_timeout_ms kServerRequestBudgetMilliseconds in
    match SerializeProtobufPacket packet with
    | None =>
        do! emit (RequestFailed requestId serviceId JsonParser false) in
        pure requestId
    | Some payload =>
        let responseServiceId := ClientProtocol.ResponseFor serviceId in
        let! queue := reads (fun c => default [] (cl_pending c !! responseServiceId)) in
        let queue := queue ++ [mkRequest requestId serviceId responseServiceId payload timeoutMilliseconds] in
        do! writes (fun c => put_pending (<[responseServiceId := queue]> (cl_pending c)) c) in
        do! (if decide (length queue = 1%nat) then SendFront responseServiceId else pure tt) in
        pure requestId
    end.

(** The slot of a request timer. *)
Definition on_request_timeout (responseServiceId : Z) : Client unit := fun c =>
  match cl_pending c !! responseServiceId with
  | None | Some [] => (tt, c)
  | Some (timedOut :: rest) =>
      (do! writes (fun c => put_pending (<[responseServiceId := rest]> (cl_pending c)) c) in
       do! emit (RequestFailed (rq_requestId timedOut) (rq_requestServiceId timedOut) DeadlineExceeded true) in
       match rest with
       | [] => writes (fun c => put_pending (delete responseServiceId (cl_pending c)) c)
       | _ => SendFront responseServiceId
       end) c
  end.

Definition fail_request (errorCode : Z) (outcomeUnknown : bool) (r : PendingRequest) : Client unit :=
  emit (RequestFailed (rq_requestId r) (rq_requestServiceId r) errorCode outcomeUnknown).

Definition FailAllPending (errorCode : Z) (outcomeUnknown : bool) : Client unit :=
  do! writes (fun c => put_timers ((fun _ => None) <$> cl_timers c) c) in
  let! queues := reads (fun c => snd <$> visit (cl_pending c)) in
  do! for_each queues (fun queue => for_each queue (fail_request errorCode outcomeUnknown)) in
  writes (put_pending ∅).

Definition SendReceipt (messageId receiptType conversationId conversationSequence : Z) : Client unit :=
  let! ready := reads IsReady in
  if negb ready || (messageId <=? 0) then pure tt
  else
    let receipt := empty_packet |> set_int F_seq messageId |> set_int F_receipt_type receiptType in
    let receipt := if (0 <? conversationId) && (0 <? conversationSequence)
                   then receipt |> set_int F_conversation_id conversationId
                                |> set_int F_conversation_seq conversationSequence
                   else receipt in
    SendPacket ID_ACK receipt.

(** ** The calls of the application *)

Definition PullFriendList : Client string := QueueRequest ID_PULL_FRIEND_LIST_REQ empty_packet 5000.

Definition PullFriendApplications : Client string :=
  QueueRequest ID_PULL_FRIEND_APPLY_LIST_REQ empty_packet 5000.

Definition PullConversationMessages (conversationId afterSequence limit : Z) : Client string :=
  QueueRequest ID_PULL_SESSION_MESSAGE_LIST_REQ
    (empty_packet |> set_int F_conversation_id conversationId
                  |> set_int F_after_seq (Z.max 0 afterSequence)
                  |> set_int F_limit (clamp limit 1 200)) 5000.

Definition PullAllMessages (lastMessageId limit : Z) : Client string :=
  QueueRequest ID_PULL_MESSAGE_LIST_REQ
    (empty_packet |> set_int F_last_msg_id (Z.max 0 lastMessageId)
                  |> set_int F_limit (clamp limit 1 200)) 5000.

Definition SendFriendRequest (recipientUid : Z) (message : string) : Client string :=
  QueueRequest ID_NOTIFY_ADD_FRIEND_REQ
    (empty_packet |> set_int F_to recipientUid |> set_str F_request_message message) 5000.

Definition ReplyFriendRequest (recipientUid : Z) (accept : bool) (message : string) : Client string :=
  QueueRequest ID_REPLY_ADD_FRIEND_REQ
    (empty_packet |> set_int F_to recipientUid |> set_bool F_accept accept
                  |> set_str F_reply_message message) 5000.

Definition NextLegacySequence : Client Z := fun c =>
  (cl_next_sequence c, put_next_sequence (cl_next_sequence c + 1) c).

(** [if (conversationId > 0)] of both sends. *)
Definition set_conversation_key (conversationId : Z) (packet : Packet) : Packet :=
  if 0 <? conversationId
  then packet |> set_int F_conversation_id conversationId |> set_int F_session_key conversationId
  else packet.

Definition SendText (recipientUid : Z) (utf8Text clientMessageId : string) (conversationId : Z)
  : Client string :=
  let! seq := NextLegacySequence in
  QueueRequest ID_TEXT_SEND_REQ
    (empty_packet |> set_int F_seq seq |> set_int F_to recipientUid |> set_str F_data utf8Text
                  |> set_str F_client_message_id clientMessageId
                  |> set_conversation_key conversationId) 5000.

Definition UploadFile (clientSequence : Z) (fileName fileType content : string) : Client string :=
  QueueRequest ID_FILE_UPLOAD_REQ
    (empty_packet |> set_int F_seq clientSequence |> set_str F_file_name fileName
                  |> set_str F_file_type fileType |> set_str F_data content) 10000.

Definition CreateGroup (groupName : string) : Client string :=
  QueueRequest ID_GROUP_CREATE_REQ (empty_packet |> set_str F_group_name groupName) 5000.

Definition RequestJoinGroup (groupId : Z) (message : string) : Client string :=
  QueueRequest ID_GROUP_NOTIFY_JOIN_REQ
    (empty_packet |> set_int F_gid groupId |> set_str F_request_message message) 5000.

Definition ReplyJoinGroup (groupId requestorUid : Z) (accept : bool) : Client string :=
  QueueRequest ID_GROUP_REPLY_JOIN_REQ
    (empty_packet |> set_int F_gid groupId |> set_int F_requestor_uid requestorUid
                  |> set_bool F_accept accept) 5000.

Definition SendGroupText (groupId : Z) (utf8Text clientMessageId : string) (conversationId : Z)
  : Client string :=
  let! seq := NextLegacySequence in
  QueueRequest ID_GROUP_TEXT_SEND_REQ
    (empty_packet |> set_int F_seq seq |> set_int F_gid groupId |> set_str F_data utf8Text
                  |> set_str F_client_message_id clientMessageId
                  |> set_conversation_key conversationId) 5000.

Definition AcknowledgeTransport (messageId : Z) : Client unit :=
  SendReceipt messageId ReceiptType.TRANSPORT 0 0.

Definition AcknowledgeDelivered (messageId conversationId conversationSequence : Z) : Client unit :=
  SendReceipt messageId ReceiptType.DELIVERED conversationId conversationSequence.

Definition AcknowledgeRead (messageId conversationId conversationSequence : Z) : Client unit :=
  SendReceipt messageId ReceiptType.READ conversationId conversationSequence.

Definition ignore (m : Client string) : Client unit := let! _ := m in pure tt.

Definition run_call (k : Call) : Client unit :=
  match k with
  | CallPullFriendList => ignore PullFriendList
  | CallPullFriendApplications => ignore PullFriendApplications
  | CallPullConversationMessages c q l => ignore (PullConversationMessages c q l)
  | CallPullAllMessages m l => ignore (PullAllMessages m l)
  | CallSendFriendRequest u m => ignore (SendFriendRequest u m)
  | CallReplyFriendRequest u a m => ignore (ReplyFriendRequest u a m)
  | CallSendText u t k c => ignore (SendText u t k c)
  | CallUploadFile q n t d => ignore (UploadFile q n t d)
  | CallCreateGroup n => ignore (CreateGroup n)
  | CallRequestJoinGroup g m => ignore (RequestJoinGroup g m)
  | CallReplyJoinGroup g u a => ignore (ReplyJoinGroup g u a)
  | CallSendGroupText g t k c => ignore (SendGroupText g t k c)
  | CallAcknowledgeTransport m => AcknowledgeTransport m
  | CallAcknowledgeDelivered m c q => AcknowledgeDelivered m c q
  | CallAcknowledgeRead m c q => AcknowledgeRead m c q
  end.

(** ** The application

    Its slots for [Authenticated], [ResponseReceived] and [PushReceived] make
    calls, which depend on all the signals so far; its slots for the other
    signals make none. *)
Context (slots : list Signal -> list Call).

Definition emit_to_application (s : Signal) : Client unit :=
  do! emit s in
  let! seen := reads cl_signals in
  for_each (slots seen) run_call.

Definition CompleteFront (responseServiceId : Z) (payload : string) : Client unit := fun c =>
  match cl_pending c !! responseServiceId with
  | None | Some [] => emit ProtocolError c
  | Some (completed :: rest) =>
      (do! writes (fun c => put_timers (alter (fun _ => None) responseServiceId (cl_timers c)) c) in
       do! writes (fun c => put_pending (<[responseServiceId := rest]> (cl_pending c)) c) in
       do! emit_to_application (ResponseReceived (rq_requestId completed) responseServiceId payload) in
       let! found := reads (fun c => default [] (cl_pending c !! responseServiceId)) in
       match found with
       | [] => writes (fun c => put_pending (delete responseServiceId (cl_pending c)) c)
       | _ => SendFront responseServiceId
       end) c
  end.

(** ** The connection *)

Definition ScheduleReconnect : Client unit := fun c =>
  if (0 <? cl_token_expires_at c) && (cl_token_expires_at c <=? cl_now c) then
    (do! SetState Disconnected in emit CredentialsExpired) (put_desired_open false c)
  else
    (do! SetState Reconnecting in
     fun c =>
       let exponent := Z.min (cl_reconnect_attempt c) 6 in
       let base := Z.min kReconnectMaximumMilliseconds
                     (kReconnectBaseMilliseconds * Z.shiftl 1 exponent) in
       let jitter := bounded (cl_draws c) (base / 4 + 1) in
       let c := put_draws (S (cl_draws c)) c in
       let c := put_reconnect_attempt (cl_reconnect_attempt c + 1) c in
       (tt, put_reconnect_timer (Some (Z.min kReconnectMaximumMilliseconds (base + jitter))) c)) c.

(** The slot of [disconnected]. *)
Definition on_disconnected : Client unit :=
  do! writes (put_heartbeat false) in
  do! writes (fun c => put_codec (Reset (cl_codec c)) c) in
  do! FailAllPending DependencyUnavailable true in
  let! reconnect := reads (fun c => cl_desired_open c && negb (bool_decide (cl_state c = Closing))) in
  if (reconnect : bool) then ScheduleReconnect else SetState Disconnected.

Definition drop_socket (c : client) : client := put_socket SUnconnected (put_buffer [] c).

(** [QAbstractSocket::abort] *)
Definition socket_abort : Client unit := fun c =>
  match cl_socket c with
  | SUnconnected => (tt, c)
  | SConnecting _ => (tt, drop_socket c)
  | _ => on_disconnected (drop_socket c)
  end.

(** [QAbstractSocket::disconnectFromHost] *)
Definition socket_disconnect : Client unit := fun c =>
  match cl_socket c with
  | SConnecting _ => (tt, put_socket (SConnecting true) c)
  | SConnected | SClosing =>
      match cl_buffer c with
      | [] => on_disconnected (drop_socket c)
      | _ => (tt, put_socket SClosing c)
      end
  | SUnconnected => (tt, c)
  end.

(** [connectToHost] does nothing on a socket in use. *)
Definition socket_connect : Client unit := fun c =>
  match cl_socket c with
  | SUnconnected => (tt, put_connections (S (cl_connections c)) (put_socket (SConnecting false) c))
  | _ => (tt, c)
  end.

Definition StartSocket : Client unit := fun c =>
  if negb (cl_desired_open c) then (tt, c)
  else
    (do! writes (fun c => put_codec (Reset (cl_codec c)) c) in
     do! SetState (if cl_reconnect_attempt c =? 0 then Connecting else Reconnecting) in
     socket_connect) c.

Definition login_packet (session : GateSession) : Packet :=
  let login := empty_packet |> set_int F_uid (gs_uid session)
                            |> set_str F_auth_token (gs_token session)
                            |> set_bool F_init (gs_profileInitializationRequired session) in
  if gs_profileInitializationRequired session
  then login |> set_str F_name (gs_profileName session) |> set_int F_age 0
             |> set_str F_sex "" |> set_str F_head_image_url ""
  else login.

(** The slot of [connected]. *)
Definition on_connected : Client unit :=
  do! writes (put_reconnect_attempt 0) in
  do! SetState Authenticating in
  let! session := reads cl_session in
  SendPacket ID_LOGIN_INIT_REQ (login_packet session).

Definition without_profile (s : GateSession) : GateSession :=
  mkGateSession (gs_uid s) (gs_gatewayHost s) (gs_gatewayPort s) (gs_gatewayId s) (gs_token s)
    (gs_tokenExpiresInSeconds s) (gs_profileName s) false.

Definition HandleLoginResponse (payload : string) : Client unit :=
  match ParseProtobufPacket payload with
  | None =>
      do! emit ProtocolError in
      do! writes (put_desired_open false) in
      socket_abort
  | Some response =>
      let errorCode := if has_int F_error response then int32 (get_int F_error response) else 0 in
      if negb (errorCode =? Success) then
        do! writes (put_desired_open false) in
        do! (if (errorCode =? TokenInvalid) || (errorCode =? AuthenticationRequired)
             then emit CredentialsExpired else emit ProtocolError) in
        socket_disconnect
      else
        do! writes (fun c => put_session (without_profile (cl_session c)) c) in
        do! SetState Ready in
        do! writes (put_heartbeat true) in
        emit_to_application Authenticated
  end.

Definition HandleFrame (frame : Z * string) : Client unit :=
  let '(serviceId, payload) := frame in
  if serviceId =? ID_LOGIN_INIT_RSP then HandleLoginResponse payload
  else if serviceId =? ID_PING_RSP then pure tt
  else if serviceId =? ID_USER_QUIT_RSP then
    do! writes (put_desired_open false) in
    socket_disconnect
  else
    match ParseProtobufPacket payload with
    | None =>
        do! emit ProtocolError in
        socket_abort
    | Some _ =>
        if Z.land serviceId 1 =? 0 then CompleteFront serviceId payload
        else emit_to_application (PushReceived serviceId payload)
    end.

(** The slot of [readyRead].  The decoded frames are handled to the end of the
    list, whatever happens to the socket meanwhile. *)
Definition on_ready_read (bytes : list ascii) : Client unit := fun c =>
  let '(frames, codec) := Feed bytes (cl_codec c) in
  (if HasError codec
   then do! emit ProtocolError in socket_abort
   else for_each frames HandleFrame) (put_codec codec c).

Definition Open (session : GateSession) : Client unit :=
  do! writes (put_desired_open false) in
  do! socket_abort in
  do! writes (put_session session) in
  do! writes (fun c => put_token_expires_at
                (int64 (cl_now c + int64 (Z.max 0 (gs_tokenExpiresInSeconds session) * 1000))) c) in
  do! writes (put_reconnect_attempt 0) in
  do! writes (put_reconnect_timer None) in
  do! writes (put_heartbeat false) in
  do! writes (put_desired_open true) in
  StartSocket.

Definition Close : Client unit :=
  do! writes (put_desired_open false) in
  do! writes (put_reconnect_timer None) in
  do! writes (put_heartbeat false) in
  let! socket := reads cl_socket in
  if decide (socket = SUnconnected) then SetState Disconnected
  else
    do! SetState Closing in
    do! SendPacket ID_USER_QUIT_REQ empty_packet in
    writes (fun c => put_closers (S (cl_closers c)) c).

(** ** Events *)

Inductive event :=
  | EvOpen (session : GateSession)
  | EvClose
  | EvCall (k : Call)
  | EvConnected
  | EvConnectFailed
  | EvReadyRead (bytes : list ascii)
  | EvBytesWritten
  | EvDisconnected
  | EvHeartbeat
  | EvReconnectTimer
  | EvRequestTimer (responseServiceId : Z)
  | EvCloseTimer
  | EvTick (milliseconds : Z).

(** An event that cannot happen in a state does nothing. *)
Definition client_event (e : event) : Client unit := fun c =>
  match e with
  | EvOpen session => Open session c
  | EvClose => Close c
  | EvCall k => run_call k c
  | EvConnected =>
      match cl_socket c with
      | SConnecting pendingClose =>
          (do! writes (put_socket SConnected) in
           do! on_connected in
           if pendingClose then socket_disconnect else pure tt) c
      | _ => (tt, c)
      end
  | EvConnectFailed =>
      match cl_socket c with
      | SConnecting _ =>
          (if decide (cl_state c = Connecting) then emit ProtocolError
           else if decide (cl_state c = Reconnecting) then emit ProtocolError
           else pure tt) (drop_socket c)
      | _ => (tt, c)
      end
  | EvReadyRead bytes =>
      match cl_socket c with
      | SConnected | SClosing => on_ready_read bytes c
      | _ => (tt, c)
      end
  | EvBytesWritten =>
      match cl_socket c with
      | SConnected => (tt, put_buffer [] c)
      | SClosing => on_disconnected (drop_socket c)
      | _ => (tt, c)
      end
  | EvDisconnected =>
      match cl_socket c with
      | SConnected | SClosing => on_disconnected (drop_socket c)
      | _ => (tt, c)
      end
  | EvHeartbeat =>
      if cl_heartbeat c && IsReady c then SendPacket ID_PING_REQ empty_packet c else (tt, c)
  | EvReconnectTimer =>
      match cl_reconnect_timer c with
      | Some _ => StartSocket (put_reconnect_timer None c)
      | None => (tt, c)
      end
  | EvRequestTimer responseServiceId =>
      match cl_timers c !! responseServiceId with
      | Some (Some _) =>
          on_request_timeout responseServiceId
            (put_timers (<[responseServiceId := None]> (cl_timers c)) c)
      | _ => (tt, c)
      end
  | EvCloseTimer =>
      match cl_closers c with
      | O => (tt, c)
      | S n => (if decide (cl_state c = Closing) then socket_disconnect else pure tt) (put_closers n c)
      end
  | EvTick milliseconds => (tt, put_now (cl_now c + Z.max 0 milliseconds) c)
  end.

(** What the constructor leaves, at a time of the clock. *)
Definition new_client (now : Z) : client :=
  mkClient Disconnected SUnconnected [] new_codec false None 0 ∅ ∅ no_session 0 (Z.max 1 now) 0 false
    now 0 0 [] [] [].

Definition run_client (es : list event) (c : client) : client :=
  foldl (fun c e => (client_event e c).2) c es.
End Operations.
