(* ===== verification/GateClient.v ===== *)
(** * The client's side of the HTTP gate

    [src/client/src/adapters/gate/GateHttpClient.cc]: the four requests, and
    the slot that reads a reply.  [QUrl], [QJsonDocument] and [QVariant] are
    parameters with what Qt documents of them; a reply arrives with a network
    error unless its status is 200.  The theorem joins the client, the gate, the
    state service and Redis. *)

From S2P Require Import Prelude Const Redis Store Mysql StateService Url Packet Frame Client Gate Accounts.

(** ** Qt *)

Record QUrl := mkUrl { u_valid : bool; u_scheme : string; u_host : string; u_path : string;
                       u_query : string; u_fragment : string }.

(** What is asked of the host. *)
Definition target (u : QUrl) : string :=
  u_path u +:+ (if str_empty (u_query u) then "" else "?" +:+ u_query u).

(** [QJsonDocument], [QVariant::toInt], [QVariant::toLongLong], [QJsonValue::toInt]. *)
Class QtJson `{JsonText} := {
  toJson : Response -> string;
  fromJson : string -> option Json;
  toJson_read : forall r, exists fields, parse_json (toJson r) = Some (JObject fields) /\
    forall name, find_field name fields = json_of <$> member_of name r;
  fromJson_styled : forall r, exists fields, fromJson (toStyledString r) = Some (JObject fields) /\
    forall name, find_field name fields = json_of <$> member_of name r;
  variant_toInt : Json -> Z; variant_toLongLong : Json -> Z; value_toInt : Json -> Z;
  variant_toInt_JInt : forall z, - 2 ^ 31 <= z < 2 ^ 31 -> variant_toInt (JInt z) = z;
  variant_toLongLong_JInt : forall z, - 2 ^ 63 <= z < 2 ^ 63 -> variant_toLongLong (JInt z) = z;
  value_toInt_JInt : forall z, - 2 ^ 31 <= z < 2 ^ 31 -> value_toInt (JInt z) = z }.

(** [QNetworkReply::error] with its text: none for an answer of status 200, some
    when the connection closes without an answer. *)
Class QtNetwork := {
  reply_error : http_result -> option string;
  reply_ok : forall r, rs_status r = 200 -> reply_error (Written r) = None;
  reply_closed : reply_error Dropped <> None /\ reply_error Aborted <> None }.

(** [QJsonObject::value], [QJsonValue::toString] *)
Definition value (name : string) (fields : Fields) : Json := default JNull (find_field name fields).
Definition toString (j : Json) : string := match j with JString s => s | _ => "" end.

(** ** The client *)

Inductive GateSignal :=
  | SignInSucceeded (session : GateSession)
  | OperationSucceeded (operation : string) (response : Fields)
  | OperationFailed (operation : string) (errorCode : Z) (message : string).

(** A reply: the message of its network error, its payload. *)
Record NetworkReply := mkReply { rp_error : option string; rp_payload : string }.

Section Client.
Context `{QtJson} `{QtNetwork} (tr : string -> string) (arg : string -> Z -> string).

Definition Endpoint (base_url : QUrl) (path : string) : QUrl :=
  mkUrl (u_valid base_url) (u_scheme base_url) (u_host base_url) path "" "".

(** [Post]: what it emits at once, or the request it sends. *)
Definition Post (base_url : QUrl) (operation path : string) (body : Response) : GateSignal + HttpRequest :=
  if negb (u_valid base_url) || str_empty (u_scheme base_url) || str_empty (u_host base_url)
  then inl (OperationFailed operation JsonParser (tr "Auth Gate 地址无效"))
  else inr (mkHttpRequest Gate.Post (target (Endpoint base_url path)) (toJson body)).

Definition verification_body (email : string) : Response := [("email", SString email)].
Definition sign_up_body (username password email verifyCode : string) : Response :=
  [("username", SString username); ("password", SString password); ("email", SString email);
   ("verifycode", SString verifyCode)].
Definition sign_in_body (username password : string) : Response :=
  [("username", SString username); ("password", SString password)].
Definition forget_body (username email verifyCode newPassword : string) : Response :=
  [("username", SString username); ("email", SString email); ("verifycode", SString verifyCode);
   ("password", SString newPassword)].

Definition RequestVerificationCode (base_url : QUrl) (email : string) :=
  Post base_url "verify-code" "/post-verifycode" (verification_body email).
Definition SignUp (base_url : QUrl) (username password email verifyCode : string) :=
  Post base_url "sign-up" "/post-signUp" (sign_up_body username password email verifyCode).
Definition SignIn (base_url : QUrl) (username password : string) :=
  Post base_url "sign-in" "/post-signIn" (sign_in_body username password).
Definition ForgetPassword (base_url : QUrl) (username email verifyCode newPassword : string) :=
  Post base_url "forget-password" "/post-forget-password" (forget_body username email verifyCode newPassword).

(** The session of a sign-in response. *)
Definition session_of (body : Response) (response : Fields) : GateSession :=
  mkGateSession (variant_toLongLong (value "uid" response)) (toString (value "ip" response))
    (uint16 (value_toInt (value "port" response))) (toString (value "gatewayId" response))
    (toString (value "chatToken" response)) (variant_toLongLong (value "chatTokenExpiresIn" response))
    (toString (default JNull (json_of <$> member_of "username" body)))
    (negb (value_toInt (value "init" response) =? 0)).

(** The slot of [QNetworkReply::finished]. *)
Definition finished (operation : string) (body : Response) (reply : NetworkReply) : list GateSignal :=
  match rp_error reply with
  | Some message => [OperationFailed operation DependencyUnavailable message]
  | None =>
      match fromJson (rp_payload reply) with
      | Some (JObject response) =>
          let errorCode := variant_toInt (value "error" response) in
          if negb (errorCode =? Success) then
            let message := toString (value "message" response) in
            [OperationFailed operation errorCode
               (if str_empty message then arg (tr "Auth Gate 请求失败（%1）") errorCode else message)]
          else if bool_decide (operation = "sign-in") then
            let session := session_of body response in
            if (gs_uid session <=? 0) || str_empty (gs_gatewayHost session) ||
               (gs_gatewayPort session =? 0) || str_empty (gs_token session)
            then [OperationFailed operation JsonParser (tr "登录响应缺少 Gateway 会话字段")]
            else [SignInSucceeded session; OperationSucceeded operation response]
          else [OperationSucceeded operation response]
      | _ => [OperationFailed operation JsonParser (tr "Auth Gate 返回了无效 JSON")]
      end
  end.

(** How an answer of the gate arrives. *)
Definition reply_of (answer : http_result) : NetworkReply :=
  mkReply (reply_error answer) (match answer with Written r => rs_body r | _ => "" end).
End Client.

(** ** Signing in, end to end *)

Lemma int64_positive z : 0 <= z < 2 ^ 64 -> 0 < int64 z -> int64 z = z /\ 0 < z < 2 ^ 63.
Proof.
  intros Hz Hpos. destruct (decide (z < 2 ^ 63)) as [Hlt|Hge].
  - assert (int64 z = z) as E by (apply wrapS_small; lia). rewrite E in *. lia.
  - exfalso. unfold int64, wrapS in Hpos. change (2 ^ (64 - 1)) with (2 ^ 63) in Hpos.
    replace (z + 2 ^ 63) with (z - 2 ^ 63 + 1 * 2 ^ 64) in Hpos by lia.
    rewrite Z.mod_add, Z.mod_small in Hpos by lia. lia.
Qed.

Section EndToEnd.
Context `{Collation} `{Faults} `{Outside} `{JsonText}.

(** A refusal of [signIn] carries an error. *)
Lemma signIn_refusal data g :
  saved (g_sql g) = None ->
  let '(o, g') := signIn data g in
  forall rsp, o = Ok (rsp, false) -> rsp = error_response (-1) \/ rsp = error_response InternalError.
Proof.
  intros Hs. set (Q := fun p : outcome (Response * bool) * gate => let '(o, g') := p in
    forall rsp, o = Ok (rsp, false) -> rsp = error_response (-1) \/ rsp = error_response InternalError).
  change (Q (signIn data g)). unfold signIn, getUser, hasUserInfo.
  assert (forall g1, Q (fail_with (-1) g1)) as Hfail by (intros g1 rsp [= <-]; by left).
  apply read_then; [auto with gate|done|]. intros username _.
  apply read_then; [auto with gate|done|]. intros password _.
  apply query_then; [done|]. intros row s1 Hst Hrow. destruct row as [[i u]|]; [|apply Hfail].
  destruct (negb _); [apply Hfail|]. unfold bind at 1.
  pose proof (Pick_spec (int32 (u_uid u)) (with_sql s1 g)) as Hpick.
  destruct (PickConnectionGateway _ _) as [o g1]. destruct Hpick as (Es & _ & node & -> & _).
  destruct (node_empty node); [apply Hfail|]. apply query_then; [rewrite Es; apply Hst|]. intros before s2 _ _.
  apply use_then; [auto with gate|]. intros token g2 _ _. apply use_then; [auto with gate|]. intros ok g3 _ _.
  destruct ok; cbn [negb]; [done|]. intros rsp [= <-]. by right.
Qed.

(** What the client's request says. *)
Lemma wants_find data fields name text :
  data = JObject fields -> find_field name fields = Some (JString text) -> wants data name text.
Proof. intros -> Hf g. unfold string_member, bind, member, ret. by rewrite Hf. Qed.

Lemma wants_same data name x y : wants data name x -> wants data name y -> inhabited gate -> x = y.
Proof. intros Hx Hy [g]. specialize (Hx g). rewrite Hy in Hx. by injection Hx. Qed.

Context `{!QtJson} `{QtNetwork} (tr : string -> string) (arg : string -> Z -> string).

Lemma value_of rsp fields name s :
  (forall n, find_field n fields = json_of <$> member_of n rsp) -> member_of name rsp = Some s ->
  value name fields = json_of s.
Proof. intros Hf Hm. unfold value. by rewrite Hf, Hm. Qed.

(** The client takes a successful answer, and no other. *)
Lemma finished_refused error body :
  - 2 ^ 31 <= error < 2 ^ 31 -> error <> 0 ->
  exists message, finished tr arg "sign-in" body (reply_of (written (error_response error))) =
    [OperationFailed "sign-in" error message].
Proof.
  intros Hr He. unfold finished, reply_of, written. cbn [rp_error rp_payload rs_body]. rewrite reply_ok by done.
  destruct (fromJson_styled (error_response error)) as (fields & -> & Hf).
  rewrite (value_of (error_response error) fields "error" (SInt error)) by done. cbn [json_of].
  rewrite variant_toInt_JInt by done. rewrite (proj2 (Z.eqb_neq _ _)) by done. by eexists.
Qed.

Lemma finished_accepted username password user n token rsp :
  handed_over user n token rsp -> 0 < int64 (u_uid user) -> sn_host n <> "" -> uint16 (sn_port n) <> 0 -> token <> "" ->
  exists init response, finished tr arg "sign-in" (sign_in_body username password) (reply_of (written rsp)) =
    [SignInSucceeded (mkGateSession (int64 (u_uid user)) (sn_host n) (uint16 (sn_port n)) (sn_id n) token
       kChatAuthTokenTtlSeconds username init);
     OperationSucceeded "sign-in" response].
Proof.
  intros (Me & Mu & [init Mi] & Mip & Mp & Mg & Mt & Mx) Hu Hh Hp Ht.
  unfold finished, reply_of, written. cbn [rp_error rp_payload rs_body]. rewrite reply_ok by done.
  destruct (fromJson_styled rsp) as (fields & -> & Hf).
  rewrite (value_of rsp fields _ _ Hf Me). cbn [json_of]. rewrite variant_toInt_JInt by done.
  change (0 =? Success) with true. cbn [negb]. rewrite bool_decide_true by done.
  assert (- 2 ^ 63 <= int64 (u_uid user) < 2 ^ 63) as Hr by (apply (wrapS_range 64); lia).
  assert (0 <= uint16 (sn_port n) < 2 ^ 16) as Hr16 by (apply (wrapU_range 16); lia).
  assert (session_of (sign_in_body username password) fields =
    mkGateSession (int64 (u_uid user)) (sn_host n) (uint16 (sn_port n)) (sn_id n) token kChatAuthTokenTtlSeconds
      username (negb (value_toInt (value "init" fields) =? 0))) as ->.
  { unfold session_of. rewrite (value_of rsp fields _ _ Hf Mu), (value_of rsp fields _ _ Hf Mip),
      (value_of rsp fields _ _ Hf Mp), (value_of rsp fields _ _ Hf Mg), (value_of rsp fields _ _ Hf Mt),
      (value_of rsp fields _ _ Hf Mx). cbn [json_of toString]. rewrite !variant_toLongLong_JInt, value_toInt_JInt by (done || unfold kChatAuthTokenTtlSeconds; lia).
    f_equal. by apply wrapU_small. }
  cbn [gs_uid gs_gatewayHost gs_gatewayPort gs_token].
  rewrite (proj2 (Z.leb_gt _ _)), !(proj2 (str_empty_false _)), (proj2 (Z.eqb_neq _ _)) by done. cbn [orb].
  by eexists _, _.
Qed.

(** The sign-in request as the gate handles it. *)
Lemma Handle_signIn v rpc base_url username password request g :
  SignIn tr base_url username password = inr request ->
  exists data, wants data "username" username /\ wants data "password" password /\
  HandleRequest v rpc request g = (answers (signIn data g).1, (signIn data g).2).
Proof.
  unfold SignIn, GateClient.Post. destruct (_ || _ || _); [done|]. intros [= <-].
  destruct (toJson_read (sign_in_body username password)) as (fields & Hp & Hf). exists (JObject fields).
  split; [by eapply wants_find; [|rewrite Hf]|]. split; [by eapply wants_find; [|rewrite Hf]|].
  unfold HandleRequest, Handle, parseRequest. cbn [rq_method rq_target rq_body]. rewrite Hp.
  change (postHandler v _) with (Some (styled signIn)). unfold default, id.
  destruct fields as [|k j fields]; [by specialize (Hf "username")|]. cbn [json_empty andb]. unfold styled, bind, ret.
  by destruct (signIn (JObject (Field k j fields)) g) as [[[rsp ok]|w] g'].
Qed.

(** C12: the hand-over of a signed-in user.  For any history of the gate, the
    client's sign-in request ends in a failure shown to the user, or in a
    session with the id of the account with that name and password, an active
    gateway of the state service, and a token that the gateways accept for that
    id for as long as the client is told, from the request's last call to Redis
    on, which is the one that stored the token. *)
Theorem sign_in_handover v rs r st rpc base_url username password request :
  SignIn tr base_url username password = inr request ->
  let g := serve_http v rs (new_gate r st) in
  let '(answer, g') := HandleRequest v rpc request g in
  (exists error message,
     finished tr arg "sign-in" (sign_in_body username password) (reply_of answer) =
       [OperationFailed "sign-in" error message]) \/
  (exists i user n session response,
     finished tr arg "sign-in" (sign_in_body username password) (reply_of answer) =
       [SignInSucceeded session; OperationSucceeded "sign-in" response] /\
     users (db (g_sql g)) !! i = Some user /\ ci_eq (u_username user) username = true /\ u_password user = password /\
     0 < u_uid user < 2 ^ 63 /\ gs_uid session = u_uid user /\ gs_profileName session = username /\
     n ∈ ss_gatewayNodes (g_state g) /\ active n = true /\ gs_gatewayHost session = sn_host n /\
     gs_gatewayPort session = uint16 (sn_port n) /\ gs_gatewayId session = sn_id n /\
     gs_tokenExpiresInSeconds session = kChatAuthTokenTtlSeconds /\
     good_until (c_now (out_redis (pred (g_uses g'))) + 1000 * gs_tokenExpiresInSeconds session) (gs_uid session) (gs_token session) (g_cache g')).
Proof.
  intros Hreq g. destruct (Handle_signIn v rpc base_url username password request g Hreq) as (data & Wn & Wp & ->).
  assert (accounts_ok (g_sql g)) as Hok by apply serve_accounts, new_accounts.
  pose proof (signIn_success data g (ok_rest _ Hok)) as Hyes. pose proof (signIn_refusal data g (ok_rest _ Hok)) as Hno.
  destruct (signIn data g) as [[[rsp ok]|w] g']; cbn [fst snd answers].
  - destruct ok; [right|left].
    + destruct (Hyes rsp eq_refl) as (name & pw & i & user & n & token & Wn' & Wp' & Hu & Hn & Hpw & Hpos & Hin &
        Ha & Hh & Hport & Ht & Hover & Hgood).
      rewrite (wants_same data "username" name username) in * by done.
      rewrite (wants_same data "password" pw password) in * by done.
      destruct (finished_accepted username password user n token rsp Hover Hpos Hh Hport Ht) as (init & response & Ef).
      destruct (ok_types _ Hok i user Hu) as (Hrange & _).
      assert (int64 (u_uid user) = u_uid user /\ 0 < u_uid user < 2 ^ 63) as [Eu Hlt] by by apply int64_positive.
      rewrite Eu in *. by eexists i, user, n, _, response.
    + destruct (Hno rsp eq_refl) as [-> | ->].
      * exists (-1). by apply finished_refused.
      * exists InternalError. by apply finished_refused.
  - left. unfold finished, reply_of. cbn [rp_error]. destruct (reply_error Dropped) as [m|] eqn:E; [by eexists _, _|].
    by destruct (proj1 reply_closed).
Qed.
End EndToEnd.

(** ** A concrete client *)

Module ClientDemo.
#[local] Existing Instance GateDemo.json_text.

Definition as_integer (j : Json) : Z := match j with JInt z => z | _ => 0 end.
Definition qt : QtJson.
Proof.
  refine {| toJson := GateDemo.text; fromJson := GateDemo.read; variant_toInt := as_integer;
            variant_toLongLong := as_integer; value_toInt := as_integer |};
    intros; (apply GateDemo.read_text || done).
Defined.
Definition network : QtNetwork.
Proof.
  refine {| reply_error answer := match answer with
                                  | Written r => if rs_status r =? 200 then None else Some "Not Found"
                                  | _ => Some "Connection closed"
                                  end |}; [by intros r ->|done].
Defined.
Definition gate_url : QUrl := mkUrl true "http" "gate.example" "" "" "".
Definition request : HttpRequest := GateDemo.post "/post-signIn" GateDemo.login.

(** After the registration. *)
Definition history : list ((string -> bool) * HttpRequest) :=
  [(fun _ => false, GateDemo.ask_code); (fun _ => false, GateDemo.post "/post-signUp" GateDemo.registration)].
Definition before : gate :=
  serve_http (H := GateDemo.exact) (H0 := GateDemo.no_faults) (H1 := GateDemo.outside FNone) (H2 := GateDemo.json_text)
    GateDemo.settings history (new_gate ∅ GateDemo.services).
Definition answer : http_result :=
  (HandleRequest (H := GateDemo.exact) (H0 := GateDemo.no_faults) (H1 := GateDemo.outside FNone)
     (H2 := GateDemo.json_text) GateDemo.settings (fun _ => false) request before).1.
Definition signals : list GateSignal :=
  finished (H0 := qt) id (fun s _ => s) "sign-in" (sign_in_body "ann" "secret")
    (reply_of (H1 := network) answer).
End ClientDemo.

Lemma sign_in_handover_witness :
  (exists response, ClientDemo.signals =
     [SignInSucceeded (mkGateSession 12587009 "10.0.0.1" 8000 "g1" "token" 900 "ann" true);
      OperationSucceeded "sign-in" response]) /\
  ((exists error message, ClientDemo.signals = [OperationFailed "sign-in" error message]) \/
   exists session response, ClientDemo.signals = [SignInSucceeded session; OperationSucceeded "sign-in" response] /\
     0 < gs_uid session).
Proof.
  split; [eexists; vm_compute; reflexivity|].
  pose proof (sign_in_handover (H := GateDemo.exact) (H0 := GateDemo.no_faults) (H1 := GateDemo.outside FNone)
    (H2 := GateDemo.json_text) (H3 := ClientDemo.qt) (H4 := ClientDemo.network) id (fun s _ => s) GateDemo.settings
    ClientDemo.history ∅ GateDemo.services (fun _ => false) ClientDemo.gate_url "ann" "secret" ClientDemo.request eq_refl) as Hs.
  unfold ClientDemo.signals, ClientDemo.answer, ClientDemo.before. cbv zeta in Hs. revert Hs.
  generalize (HandleRequest (H := GateDemo.exact) (H0 := GateDemo.no_faults) (H1 := GateDemo.outside FNone)
    (H2 := GateDemo.json_text) GateDemo.settings (fun _ => false) ClientDemo.request
    (serve_http (H := GateDemo.exact) (H0 := GateDemo.no_faults) (H1 := GateDemo.outside FNone) (H2 := GateDemo.json_text)
      GateDemo.settings ClientDemo.history (new_gate ∅ GateDemo.services))).
  intros [answer g'] [Hs|(i & user & n & session & response & Hs & _ & _ & _ & Hpos & Eu & _)]; [by left|].
  right. exists session, response. split; [exact Hs|]. rewrite Eu. apply Hpos.
Defined.
