(* ===== verification/Requests.v ===== *)
(** * Requests and reconnection of the client

    Theorems about [Client.v]: every request gets exactly one outcome; a closed
    client stays closed; what reconnection does; two ways in which a response is
    given to the wrong request. *)

From S2P Require Import Prelude Const Packet Frame Client.

(** ** Requests in the queues and in the signals *)

Definition outcome_id (s : Signal) : option string :=
  match s with
  | ResponseReceived id _ _ => Some id
  | RequestFailed id _ _ _ => Some id
  | _ => None
  end.

Definition outcomes (c : client) : list string := omap outcome_id (cl_signals c).

Definition queued (m : gmap Z (list PendingRequest)) : list string :=
  rq_requestId <$> concat (snd <$> map_to_list m).

(** The ids given out are the first of [uuid]; they are those with an outcome,
    those in a queue and [held], those an operation has taken from a queue and
    not yet reported. *)
Definition accounted `{Uuid} (held : list string) (c : client) : Prop :=
  cl_issued c ≡ₚ outcomes c ++ queued (cl_pending c) ++ held /\
  cl_issued c = uuid <$> seq 0 (length (cl_issued c)).

Lemma queued_split m k :
  queued m ≡ₚ (rq_requestId <$> default [] (m !! k)) ++ queued (delete k m).
Proof.
  unfold queued. destruct (m !! k) as [q|] eqn:E; simpl.
  - rewrite <- (map_to_list_delete m k q E). simpl. by rewrite fmap_app.
  - by rewrite delete_id.
Qed.

Lemma queued_insert m k q :
  queued (<[k := q]> m) ≡ₚ (rq_requestId <$> q) ++ queued (delete k m).
Proof. by rewrite (queued_split _ k), lookup_insert_eq, delete_insert_eq. Qed.

Lemma queued_delete_nil m k : m !! k = Some [] -> queued (delete k m) ≡ₚ queued m.
Proof. intros E. by rewrite (queued_split m k), E. Qed.

Lemma queued_visit `{QHashOrder} m : queued m ≡ₚ rq_requestId <$> concat (snd <$> visit m).
Proof.
  unfold queued. apply fmap_Permutation.
  assert (forall l l' : list (Z * list PendingRequest), l ≡ₚ l' ->
    concat (snd <$> l) ≡ₚ concat (snd <$> l')) as Hc.
  { induction 1; simpl; [done|by f_equiv|by rewrite !app_assoc, (Permutation_app_comm (y.2))|by etrans]. }
  apply Hc. by rewrite visit_perm.
Qed.

Lemma outcomes_snoc s c :
  outcomes (put_signals (cl_signals c ++ [s]) c) = outcomes c ++ option_list (outcome_id s).
Proof. unfold outcomes. simpl. rewrite omap_app. simpl. by destruct (outcome_id s). Qed.

Section Accounts.
Context `{QtCodec} `{Uuid} `{Random} `{QHashOrder} (slots : list Signal -> list Call).

(** [m] starts holding [l] and ends holding [l']. *)
Definition accounts {A} (l : list string) (m : Client A) (l' : list string) : Prop :=
  forall c, accounted l c -> accounted l' (m c).2.

Lemma accounts_bind {A B} l l1 l2 (m : Client A) (k : A -> Client B) :
  accounts l m l1 -> (forall a, accounts l1 (k a) l2) -> accounts l (seq_bind m k) l2.
Proof.
  intros Hm Hk c Hc. unfold seq_bind. specialize (Hm c Hc). destruct (m c) as [a c']. by apply Hk.
Qed.

Lemma accounts_pure {A} l (a : A) : accounts l (pure a) l.
Proof. by intros c. Qed.
Lemma accounts_reads {A} l (f : client -> A) : accounts l (reads f) l.
Proof. by intros c. Qed.

(** An update of the other fields. *)
Lemma accounts_writes l f :
  (forall c, cl_issued (f c) = cl_issued c /\ cl_signals (f c) = cl_signals c /\
             cl_pending (f c) = cl_pending c) -> accounts l (writes f) l.
Proof.
  intros Hf c [Hc Hn]. unfold accounted, outcomes in *. simpl. destruct (Hf c) as (-> & -> & ->). done.
Qed.

Lemma accounts_emit l s : outcome_id s = None -> accounts l (emit s) l.
Proof.
  intros Hs c [Hc Hn]. split; [|exact Hn]. unfold emit, writes. simpl snd.
  rewrite outcomes_snoc, Hs. simpl option_list. by rewrite app_nil_r.
Qed.

Lemma accounts_report l s id : outcome_id s = Some id -> accounts (id :: l) (emit s) l.
Proof.
  intros Hs c [Hc Hn]. split; [|exact Hn]. unfold emit, writes. simpl snd.
  rewrite outcomes_snoc, Hs. simpl option_list. cbn [cl_issued put_signals cl_pending].
  rewrite Hc. solve_Permutation.
Qed.

(** One step at a time: binds, branches, updates of other fields, and the
    operations whose lemma is in [accounts]. *)
Ltac account :=
  repeat match goal with
  | |- accounts _ (seq_bind _ _) _ => eapply accounts_bind; [|intros ?]
  | |- accounts _ (pure _) _ => apply accounts_pure
  | |- accounts _ (reads _) _ => apply accounts_reads
  | |- accounts _ (writes _) _ => apply accounts_writes; by intros []
  | |- accounts _ (emit (RequestFailed _ _ _ _)) _ => by apply accounts_report
  | |- accounts _ (emit _) _ => by apply accounts_emit
  | |- accounts _ (if ?b then _ else _) _ => destruct b
  | |- accounts _ (match ?x with _ => _ end) _ => destruct x
  | |- accounts _ _ _ => solve [eauto with accounts]
  end.

Lemma accounts_SetState l s : accounts l (SetState s) l.
Proof.
  intros c Hc. unfold SetState. case_decide; [done|].
  apply (accounts_emit l (StateChanged s)); [done|]. exact Hc.
Qed.
Hint Resolve accounts_SetState : accounts.

Lemma accounts_socket_write l f : accounts l (socket_write f) l.
Proof. intros c Hc. unfold socket_write. by destruct (cl_socket c). Qed.
Hint Resolve accounts_socket_write : accounts.

Lemma accounts_SendPacket l id p : accounts l (SendPacket id p) l.
Proof. unfold SendPacket. account. Qed.
Hint Resolve accounts_SendPacket : accounts.

Lemma accounts_SendFront l k : accounts l (SendFront k) l.
Proof.
  intros c Hc. unfold SendFront. destruct (cl_pending c !! k) as [[|r q]|]; [done| |done].
  destruct (negb (IsReady c)); [done|].
  pose proof (accounts_socket_write l (rq_requestServiceId r, rq_payload r) c Hc) as Hw.
  by destruct (socket_write _ c).
Qed.
Hint Resolve accounts_SendFront : accounts.

(** Putting what is held at the end of a queue. *)
Lemma accounts_enqueue k r l :
  accounts (rq_requestId r :: l)
    (writes (fun c => put_pending (<[k := default [] (cl_pending c !! k) ++ [r]]> (cl_pending c)) c)) l.
Proof.
  intros c [Hc Hn]. split; [|exact Hn]. simpl. rewrite Hc. rewrite queued_insert, (queued_split _ k), fmap_app.
  change (outcomes (put_pending _ c)) with (outcomes c). simpl. solve_Permutation.
Qed.

(** Taking the front of a queue. *)
Lemma accounts_dequeue k r q l c :
  cl_pending c !! k = Some (r :: q) -> accounted l c ->
  accounted (rq_requestId r :: l) (put_pending (<[k := q]> (cl_pending c)) c).
Proof.
  intros Hk [Hc Hn]. split; [|exact Hn]. simpl. rewrite Hc.
  change (outcomes (put_pending _ c)) with (outcomes c).
  rewrite (queued_split _ k), Hk, queued_insert. simpl. solve_Permutation.
Qed.

(** Erasing an empty queue. *)
Lemma accounted_erase k l c :
  default [] (cl_pending c !! k) = [] -> accounted l c ->
  accounted l (put_pending (delete k (cl_pending c)) c).
Proof.
  intros Hk [Hc Hn]. split; [|exact Hn]. simpl. rewrite Hc.
  change (outcomes (put_pending _ c)) with (outcomes c).
  by rewrite (queued_split (cl_pending c) k), Hk.
Qed.

(** What [NewRequestId] gives is held. *)
Lemma accounts_NewRequestId {B} (k : string -> Client B) l :
  (forall id, accounts (id :: l) (k id) l) -> accounts l (seq_bind NewRequestId k) l.
Proof.
  intros Hk c [Hc Hn]. apply Hk. split.
  2:{ simpl. rewrite length_app, Nat.add_1_r, seq_S, fmap_app, <- Hn. done. }
  simpl. generalize (uuid (length (cl_issued c))). intros id. change (outcomes (put_issued _ c)) with (outcomes c). rewrite Hc. solve_Permutation.
Qed.

Lemma accounts_QueueRequest l s p t : accounts l (QueueRequest s p t) l.
Proof.
  unfold QueueRequest. apply accounts_NewRequestId. intros id.
  eapply accounts_bind; [apply accounts_reads|]. intros ready. cbv zeta.
  destruct (negb ready); [account|].
  destruct (SerializeProtobufPacket _) as [payload|]; [|account].
  set (r := mkRequest _ _ _ _ _). set (k := ClientProtocol.ResponseFor s).
  intros c Hc. unfold seq_bind at 1, reads at 1. cbv iota beta.
  set (q := default [] (cl_pending c !! k) ++ [r]).
  unfold seq_bind at 1, writes at 1. cbv iota beta.
  pose proof (accounts_enqueue k r l c Hc) as He. revert He. unfold writes. simpl snd. fold q.
  generalize (put_pending (<[k := q]> (cl_pending c)) c). intros c' Hc'.
  enough (accounts l (do! (if decide (length q = 1%nat) then SendFront k else pure tt) in pure id) l) as Ha
    by exact (Ha c' Hc').
  account.
Qed.
Hint Resolve accounts_QueueRequest : accounts.

Lemma accounts_SendReceipt l m t i q : accounts l (SendReceipt m t i q) l.
Proof. unfold SendReceipt. account. Qed.
Hint Resolve accounts_SendReceipt : accounts.

Lemma accounts_NextLegacySequence l : accounts l NextLegacySequence l.
Proof. by intros c. Qed.
Hint Resolve accounts_NextLegacySequence : accounts.

Lemma accounts_run_call l k : accounts l (run_call k) l.
Proof.
  destruct k; cbn [run_call]; unfold ignore, PullFriendList, PullFriendApplications,
    PullConversationMessages, PullAllMessages, SendFriendRequest, ReplyFriendRequest, SendText, UploadFile,
    CreateGroup, RequestJoinGroup, ReplyJoinGroup, SendGroupText, AcknowledgeTransport,
    AcknowledgeDelivered, AcknowledgeRead; account.
Qed.
Hint Resolve accounts_run_call : accounts.

Lemma accounts_for_each {A} l (xs : list A) f :
  (forall x, accounts l (f x) l) -> accounts l (for_each xs f) l.
Proof. intros Hf. induction xs; simpl; account. Qed.

Lemma accounts_slots l : accounts l (let! seen := reads cl_signals in for_each (slots seen) run_call) l.
Proof. account. apply accounts_for_each. intros x. account. Qed.
Hint Resolve accounts_slots : accounts.

Lemma accounts_emit_to_application l s :
  outcome_id s = None -> accounts l (emit_to_application slots s) l.
Proof. intros Hs. unfold emit_to_application. eapply accounts_bind; [by apply accounts_emit|]. intros _. apply accounts_slots. Qed.

Lemma accounts_CompleteFront l k p : accounts l (CompleteFront slots k p) l.
Proof.
  intros c Hc. unfold CompleteFront.
  destruct (cl_pending c !! k) as [[|r q]|] eqn:Hk; [by apply accounts_emit| |by apply accounts_emit].
  unfold seq_bind at 1, writes at 1. cbv iota beta.
  unfold seq_bind at 1, writes at 1. cbv iota beta.
  set (c1 := put_timers _ c). assert (accounted l c1 /\ cl_pending c1 = cl_pending c) as [Hc1 Hp] by done.
  rewrite Hp. rewrite <- Hp in Hk |- *. pose proof (accounts_dequeue k r q l c1 Hk Hc1) as Hd.
  revert Hd. generalize (put_pending (<[k := q]> (cl_pending c1)) c1). intros c2 Hc2.
  eapply (accounts_bind _ l); [| |exact Hc2].
  { unfold emit_to_application. eapply accounts_bind; [by apply accounts_report|]. intros _. apply accounts_slots. }
  intros _ c3 Hc3. unfold seq_bind at 1, reads at 1. cbv iota beta.
  destruct (default [] (cl_pending c3 !! k)) as [|r' q'] eqn:E; [by apply accounted_erase|].
  by apply accounts_SendFront.
Qed.
Hint Resolve accounts_CompleteFront : accounts.

(** ** The connection *)

(** What [FailAllPending] reports. *)
Lemma fail_requests_spec e u q c :
  let c' := (for_each q (fail_request e u) c).2 in
  outcomes c' = outcomes c ++ (rq_requestId <$> q) /\ cl_issued c' = cl_issued c /\
  cl_pending c' = cl_pending c.
Proof.
  revert c. induction q as [|r q IH]; intros c; [by rewrite app_nil_r|].
  cbn [for_each]. unfold seq_bind. cbn [fail_request emit writes].
  edestruct IH as (-> & -> & ->). rewrite outcomes_snoc. simpl. by rewrite <- app_assoc.
Qed.

Lemma fail_queues_spec e u qs c :
  let c' := (for_each qs (fun q => for_each q (fail_request e u)) c).2 in
  outcomes c' = outcomes c ++ (rq_requestId <$> concat qs) /\ cl_issued c' = cl_issued c /\
  cl_pending c' = cl_pending c.
Proof.
  revert c. induction qs as [|q qs IH]; intros c; [by rewrite app_nil_r|].
  cbn [for_each]. unfold seq_bind. pose proof (fail_requests_spec e u q c) as (H1' & H2' & H3').
  destruct (for_each q _ c) as [[] c1]. simpl in *. edestruct IH as (-> & -> & ->).
  rewrite H1', H2', H3', fmap_app, app_assoc. done.
Qed.

Lemma accounts_FailAllPending l e u : accounts l (FailAllPending e u) l.
Proof.
  intros c Hc. unfold FailAllPending. unfold seq_bind at 1, writes at 1. cbv iota beta.
  set (c1 := put_timers _ c). assert (accounted l c1) as Hc1 by exact Hc. clearbody c1.
  unfold seq_bind at 1, reads. cbv iota beta. unfold seq_bind.
  pose proof (fail_queues_spec e u (snd <$> visit (cl_pending c1)) c1) as (Ho & Hi & Hp).
  destruct (for_each _ _ c1) as [[] c2]. simpl in *. destruct Hc1 as [Hc1 Hn]. split; simpl.
  2:{ by rewrite Hi. }
  change (outcomes (put_pending ∅ c2)) with (outcomes c2). rewrite Hi, Hc1, Ho.
  rewrite <- (queued_visit (cl_pending c1)).
  change (queued ∅) with (@nil string). simpl. by rewrite app_assoc.
Qed.
Hint Resolve accounts_FailAllPending : accounts.

Lemma accounts_ScheduleReconnect l : accounts l ScheduleReconnect l.
Proof.
  intros c Hc. unfold ScheduleReconnect. destruct (_ && _).
  - eapply (accounts_bind l l); [account|intros _; account|exact Hc].
  - eapply (accounts_bind l l); [account| |exact Hc]. intros _ c1 Hc1. exact Hc1.
Qed.
Hint Resolve accounts_ScheduleReconnect : accounts.

Lemma accounts_on_disconnected l : accounts l on_disconnected l.
Proof. unfold on_disconnected. account. Qed.
Hint Resolve accounts_on_disconnected : accounts.

Lemma accounts_socket_abort l : accounts l socket_abort l.
Proof. intros c Hc. unfold socket_abort. destruct (cl_socket c); try done; by apply accounts_on_disconnected. Qed.
Hint Resolve accounts_socket_abort : accounts.

Lemma accounts_socket_disconnect l : accounts l socket_disconnect l.
Proof.
  intros c Hc. unfold socket_disconnect. destruct (cl_socket c), (cl_buffer c); try done;
    by apply accounts_on_disconnected.
Qed.
Hint Resolve accounts_socket_disconnect : accounts.

Lemma accounts_socket_connect l : accounts l socket_connect l.
Proof. intros c Hc. unfold socket_connect. by destruct (cl_socket c). Qed.
Hint Resolve accounts_socket_connect : accounts.

Lemma accounts_StartSocket l : accounts l StartSocket l.
Proof.
  intros c Hc. unfold StartSocket. destruct (negb _); [done|].
  eapply (accounts_bind l l); [account|intros _; account|exact Hc].
Qed.
Hint Resolve accounts_StartSocket : accounts.

Lemma accounts_on_connected l : accounts l on_connected l.
Proof. unfold on_connected. account. Qed.
Hint Resolve accounts_on_connected : accounts.

Lemma accounts_to_application_other l s :
  outcome_id s = None -> accounts l (emit_to_application slots s) l.
Proof. apply accounts_emit_to_application. Qed.

Lemma accounts_HandleFrame l f : accounts l (HandleFrame slots f) l.
Proof.
  unfold HandleFrame, HandleLoginResponse. destruct f as [s p]. account.
  all: by apply accounts_emit_to_application.
Qed.
Hint Resolve accounts_HandleFrame : accounts.

Lemma accounts_on_ready_read l b : accounts l (on_ready_read slots b) l.
Proof.
  intros c Hc. unfold on_ready_read. destruct (Feed b (cl_codec c)) as [fs k].
  assert (accounted l (put_codec k c)) as Hc' by exact Hc. revert Hc'.
  generalize (put_codec k c). change (accounts l
    (if HasError k then do! emit ProtocolError in socket_abort else for_each fs (HandleFrame slots)) l).
  destruct (HasError k); [account|]. apply accounts_for_each. intros f. apply accounts_HandleFrame.
Qed.
Hint Resolve accounts_on_ready_read : accounts.

Lemma accounts_Open l s : accounts l (Open s) l.
Proof. unfold Open. account. Qed.

Lemma accounts_Close l : accounts l Close l.
Proof. unfold Close. account. Qed.

Lemma accounts_on_request_timeout l k : accounts l (on_request_timeout k) l.
Proof.
  intros c Hc. unfold on_request_timeout. destruct (cl_pending c !! k) as [[|r q]|] eqn:Hk; [done| |done].
  pose proof (accounts_dequeue k r q l c Hk Hc) as Hd. unfold seq_bind at 1, writes at 1. cbv iota beta.
  set (c1 := put_pending _ c) in *. assert (cl_pending c1 !! k = Some q) as Hq by apply lookup_insert_eq.
  clearbody c1. unfold seq_bind at 1. pose proof (accounts_report l
    (RequestFailed (rq_requestId r) (rq_requestServiceId r) DeadlineExceeded true) _ eq_refl c1 Hd) as Hr.
  unfold emit, writes in *. simpl in Hr. destruct q as [|r' q]; [|by apply accounts_SendFront].
  apply accounted_erase; [|exact Hr]. simpl. by rewrite Hq.
Qed.

Lemma accounts_client_event l e : accounts l (client_event slots e) l.
Proof.
  intros c Hc. destruct e; cbn [client_event].
  - by apply accounts_Open.
  - by apply accounts_Close.
  - by apply accounts_run_call.
  - destruct (cl_socket c) as [|b| |]; try done.
    assert (accounts l (do! writes (put_socket SConnected) in do! on_connected in
      if b then socket_disconnect else pure tt) l) as Ha by account. by apply Ha.
  - destruct (cl_socket c); try done. repeat case_decide; try by apply accounts_emit. done.
  - destruct (cl_socket c); try done; by apply accounts_on_ready_read.
  - destruct (cl_socket c); try done; by apply accounts_on_disconnected.
  - destruct (cl_socket c); try done; by apply accounts_on_disconnected.
  - destruct (_ && _); [by apply accounts_SendPacket|done].
  - destruct (cl_reconnect_timer c); [by apply accounts_StartSocket|done].
  - destruct (cl_timers c !! _) as [[|]|]; try done. by apply accounts_on_request_timeout.
  - destruct (cl_closers c); [done|]. case_decide; [by apply accounts_socket_disconnect|done].
  - exact Hc.
Qed.

Lemma run_client_accounted es c : accounted [] c -> accounted [] (run_client slots es c).
Proof.
  revert c. induction es as [|e es IH]; intros c Hc; [exact Hc|].
  apply IH. by apply accounts_client_event.
Qed.
End Accounts.

(** ** What requests leave alone *)

Definition connection (c : client) :=
  (cl_state c, cl_socket c, cl_reconnect_timer c, cl_reconnect_attempt c, cl_desired_open c,
   cl_connections c, cl_now c, cl_draws c).

(** An invariant that only depends on the connection. *)
Class OnConnection (P : client -> Prop) :=
  on_connection : forall c c', connection c = connection c' -> P c -> P c'.

Section Connection.
Context `{QtCodec} `{Uuid} `{Random} `{QHashOrder} (slots : list Signal -> list Call).

Definition keeps {A} (m : Client A) : Prop := forall c, connection (m c).2 = connection c.

Lemma kept_bind {A B} (m : Client A) (k : A -> Client B) :
  keeps m -> (forall a, keeps (k a)) -> keeps (seq_bind m k).
Proof.
  intros Hm Hk c. unfold seq_bind. specialize (Hm c). destruct (m c) as [a c1]. by rewrite Hk.
Qed.
Lemma kept_writes f : (forall c, connection (f c) = connection c) -> keeps (writes f).
Proof. intros Hf c. apply Hf. Qed.
Lemma kept_for_each {A} (xs : list A) f : (forall x, keeps (f x)) -> keeps (for_each xs f).
Proof. intros Hf. induction xs; simpl; [by intros c|]. by apply kept_bind. Qed.

Ltac keep :=
  repeat match goal with
  | |- keeps (seq_bind _ _) => apply kept_bind; [|intros ?]
  | |- keeps (pure _) => by intros ?
  | |- keeps (reads _) => by intros ?
  | |- keeps (writes _) => apply kept_writes; by intros []
  | |- keeps (emit _) => apply kept_writes; by intros []
  | |- keeps (for_each _ _) => apply kept_for_each; intros ?
  | |- keeps (if ?b then _ else _) => destruct b
  | |- keeps (match ?x with _ => _ end) => destruct x
  | |- keeps _ => solve [eauto with keeps]
  end.

Lemma keeps_socket_write f : keeps (socket_write f).
Proof. intros c. unfold socket_write. by destruct (cl_socket c) eqn:E. Qed.
Hint Resolve keeps_socket_write : keeps.

Lemma keeps_SendPacket id p : keeps (SendPacket id p).
Proof. unfold SendPacket. keep. Qed.
Hint Resolve keeps_SendPacket : keeps.

Lemma keeps_SendFront k : keeps (SendFront k).
Proof.
  intros c. unfold SendFront. destruct (cl_pending c !! k) as [[|r q]|]; [done| |done].
  destruct (negb (IsReady c)); [done|].
  pose proof (keeps_socket_write (rq_requestServiceId r, rq_payload r) c) as Hw.
  by destruct (socket_write _ c).
Qed.
Hint Resolve keeps_SendFront : keeps.

Lemma keeps_QueueRequest s p t : keeps (QueueRequest s p t).
Proof. unfold QueueRequest. apply kept_bind; [by intros c|]. intros id. cbv zeta. keep. Qed.
Hint Resolve keeps_QueueRequest : keeps.

Lemma keeps_SendReceipt m t i q : keeps (SendReceipt m t i q).
Proof. unfold SendReceipt. keep. Qed.
Hint Resolve keeps_SendReceipt : keeps.

Lemma keeps_NextLegacySequence : keeps NextLegacySequence.
Proof. by intros c. Qed.
Hint Resolve keeps_NextLegacySequence : keeps.

Lemma keeps_run_call k : keeps (run_call k).
Proof.
  destruct k; cbn [run_call]; unfold ignore, PullFriendList, PullFriendApplications,
    PullConversationMessages, PullAllMessages, SendFriendRequest, ReplyFriendRequest, SendText, UploadFile,
    CreateGroup, RequestJoinGroup, ReplyJoinGroup, SendGroupText, AcknowledgeTransport,
    AcknowledgeDelivered, AcknowledgeRead; keep.
Qed.
Hint Resolve keeps_run_call : keeps.

Lemma keeps_emit_to_application s : keeps (emit_to_application slots s).
Proof. unfold emit_to_application. keep. Qed.
Hint Resolve keeps_emit_to_application : keeps.

Lemma keeps_CompleteFront k p : keeps (CompleteFront slots k p).
Proof.
  intros c. unfold CompleteFront. destruct (cl_pending c !! k) as [[|r q]|]; [done| |done].
  match goal with |- connection (?m c).2 = _ => enough (keeps m) as Hk by apply Hk end. keep.
Qed.
Hint Resolve keeps_CompleteFront : keeps.

Lemma keeps_FailAllPending e u : keeps (FailAllPending e u).
Proof. unfold FailAllPending, fail_request. keep. Qed.
Hint Resolve keeps_FailAllPending : keeps.

Lemma keeps_on_request_timeout k : keeps (on_request_timeout k).
Proof.
  intros c. unfold on_request_timeout. destruct (cl_pending c !! k) as [[|r q]|]; [done| |done].
  match goal with |- connection (?m c).2 = _ => enough (keeps m) as Hk by apply Hk end. keep.
Qed.
Hint Resolve keeps_on_request_timeout : keeps.

(** So an invariant of the connection is proved on the operations that change
    it only. *)
Lemma always_kept P `{!OnConnection P} {A} (m : Client A) : keeps m -> always P m.
Proof. intros Hk c. apply on_connection. by rewrite Hk. Qed.

Hint Resolve always_kept keeps_CompleteFront keeps_emit_to_application keeps_run_call keeps_SendPacket
  keeps_FailAllPending keeps_on_request_timeout : always.

Lemma keeps_HandleLogin_signals s : keeps (emit s).
Proof. keep. Qed.
Hint Resolve keeps_HandleLogin_signals : always.

(** ** What holds of the connection *)

(** The operations that change the connection, for an invariant [P] of it that
    [P'] implies: [P'] is what holds when the slot of [disconnected] runs. *)
Section Invariant.
Context (P : client -> Prop) `{!OnConnection P}.
Context (P_state : forall s c, P c -> P (put_state s c)).
Context (P_close : forall c, P c -> P (put_desired_open false c)).
Context (P_pending_close : forall b c, P c -> cl_socket c = SConnecting b -> P (put_socket (SConnecting true) c)).
Context (P_closing : forall c, P c -> cl_socket c = SConnected \/ cl_socket c = SClosing -> P (put_socket SClosing c)).
Context (P_drop_attempt : forall b c, P c -> cl_socket c = SConnecting b -> P (drop_socket c)).
Context (P_lost : forall c, P c -> cl_socket c = SConnected \/ cl_socket c = SClosing ->
  P (on_disconnected (drop_socket c)).2).

Lemma always_SetState s : always P (SetState s).
Proof.
  intros c Hc. unfold SetState. case_decide; [done|].
  apply (always_kept P _ (keeps_HandleLogin_signals _)). by apply P_state.
Qed.
Hint Resolve always_SetState : always.

Lemma always_socket_abort : always P socket_abort.
Proof.
  intros c Hc. unfold socket_abort. destruct (cl_socket c) eqn:E; [done| | |].
  - by eapply P_drop_attempt.
  - apply P_lost; auto.
  - apply P_lost; auto.
Qed.

Lemma always_socket_disconnect : always P socket_disconnect.
Proof.
  intros c Hc. unfold socket_disconnect. destruct (cl_socket c) eqn:E; [done| | |].
  - by eapply P_pending_close.
  - destruct (cl_buffer c); [apply P_lost; auto|]. apply P_closing; auto.
  - destruct (cl_buffer c); [apply P_lost; auto|]. apply P_closing; auto.
Qed.
Hint Resolve always_socket_abort always_socket_disconnect : always.

Lemma always_put_closed : always P (writes (put_desired_open false)).
Proof. intros c Hc. by apply P_close. Qed.
Lemma always_other f : (forall c, connection (f c) = connection c) -> always P (writes f).
Proof. intros Hf. by apply always_kept, kept_writes. Qed.
Hint Resolve always_put_closed : always.

Lemma always_HandleLoginResponse p : always P (HandleLoginResponse slots p).
Proof.
  unfold HandleLoginResponse. destruct (ParseProtobufPacket p) as [r|]; [|eauto with always].
  cbv zeta. destruct (negb _).
  - repeat (apply always_bind; [|intros _]); eauto with always. destruct (_ || _); eauto with always.
  - repeat (apply always_bind; [|intros _]); eauto with always; apply always_other; by intros [].
Qed.
Hint Resolve always_HandleLoginResponse : always.

Lemma always_HandleFrame f : always P (HandleFrame slots f).
Proof.
  unfold HandleFrame. destruct f as [s p]. repeat case_match; eauto with always.
Qed.
Hint Resolve always_HandleFrame : always.

Lemma always_on_ready_read b : always P (on_ready_read slots b).
Proof.
  intros c Hc. unfold on_ready_read. destruct (Feed b (cl_codec c)) as [fs k].
  assert (P (put_codec k c)) as Hc' by (by eapply on_connection; [|exact Hc]).
  destruct (HasError k).
  - apply (always_bind P (emit ProtocolError) (fun _ => socket_abort)); eauto with always.
  - by apply always_for_each; eauto with always.
Qed.

Context (P_connected : forall b c, P c -> cl_socket c = SConnecting b ->
  P (put_reconnect_attempt 0 (put_socket SConnected c))).
Context (P_timer : forall c, P c -> P (put_reconnect_timer None c)).
Context (P_start : forall t c, P c -> cl_reconnect_timer c = Some t ->
  P (StartSocket (put_reconnect_timer None c)).2).
Context (P_now : forall t c, P c -> P (put_now t c)).

Lemma always_Close : always P Close.
Proof.
  unfold Close. apply always_bind; [eauto with always|intros _].
  apply always_bind; [intros c; apply P_timer|intros _].
  apply always_bind; [apply always_other; by intros []|intros _].
  apply always_bind; [apply always_reads|intros k].
  case_decide; eauto with always.
  apply always_bind; [eauto with always|intros _].
  apply always_bind; [eauto with always|intros _]. apply always_other. by intros [].
Qed.

Lemma always_connected b c : P c -> cl_socket c = SConnecting b ->
  P ((do! writes (put_socket SConnected) in do! on_connected in
      if b then socket_disconnect else pure tt) c).2.
Proof.
  intros Hc Hb. unfold seq_bind at 1, writes. cbv iota beta.
  pose proof (P_connected b c Hc Hb) as H1'. unfold on_connected.
  unfold seq_bind at 2, writes. cbv iota beta. unfold seq_bind at 1. cbv iota beta.
  revert H1'. generalize (put_reconnect_attempt 0 (put_socket SConnected c)). intros c1 Hc1.
  enough (always P (seq_bind (do! SetState Authenticating in let! session := reads cl_session in
    SendPacket ID_LOGIN_INIT_REQ (login_packet session)) (fun _ => if b then socket_disconnect else pure tt)))
    as Ha by exact (Ha c1 Hc1).
  apply always_bind; [|intros _; destruct b; eauto with always].
  apply always_bind; eauto with always.
Qed.

(** Every event but [Open]. *)
Lemma always_event e : (forall s, e <> EvOpen s) -> always P (client_event slots e).
Proof.
  intros He c Hc. destruct e; cbn [client_event].
  - by destruct (He session).
  - by apply always_Close.
  - apply always_kept; eauto with always.
  - destruct (cl_socket c) eqn:E; try done. by apply always_connected.
  - destruct (cl_socket c) eqn:E; try done. pose proof (P_drop_attempt _ _ Hc E).
    repeat case_decide; try done; by apply always_kept; eauto with always.
  - destruct (cl_socket c) eqn:E; try done; by apply always_on_ready_read.
  - destruct (cl_socket c) eqn:E; try done; [by eapply on_connection; [|exact Hc]|apply P_lost; auto].
  - destruct (cl_socket c) eqn:E; try done; apply P_lost; auto.
  - destruct (_ && _); [|done]. by apply always_kept; eauto with always.
  - destruct (cl_reconnect_timer c) eqn:E; [by eapply P_start|done].
  - destruct (cl_timers c !! _) as [[|]|]; try done.
    apply (always_kept P _ (keeps_on_request_timeout _)). by eapply on_connection; [|exact Hc].
  - destruct (cl_closers c) as [|n]; [done|].
    assert (P (put_closers n c)) as Hn by (by eapply on_connection; [|exact Hc]).
    case_decide; [by apply always_socket_disconnect|exact Hn].
  - by apply P_now.
Qed.

Lemma run_client_always es c :
  (forall s, EvOpen s ∉ es) -> P c -> P (run_client slots es c).
Proof.
  revert c. induction es as [|e es IH]; intros c He Hc; [exact Hc|]. apply IH.
  - intros s Hs. apply (He s). by right.
  - apply always_event; [|done]. intros s ->. apply (He s). left.
Qed.
End Invariant.

(** ** The slot of [disconnected] *)

(** The interval of a reconnection after [attempt] attempts, for a draw. *)
Definition interval (attempt : Z) (draw : nat) : Z :=
  let base := Z.min kReconnectMaximumMilliseconds
                (kReconnectBaseMilliseconds * Z.shiftl 1 (Z.min attempt 6)) in
  Z.min kReconnectMaximumMilliseconds (base + bounded draw (base / 4 + 1)).

Lemma connection_SetState s c :
  let c' := (SetState s c).2 in
  cl_socket c' = cl_socket c /\ cl_reconnect_timer c' = cl_reconnect_timer c /\
  cl_reconnect_attempt c' = cl_reconnect_attempt c /\ cl_desired_open c' = cl_desired_open c /\
  cl_connections c' = cl_connections c /\ cl_now c' = cl_now c /\ cl_draws c' = cl_draws c /\
  cl_state c' = s.
Proof. unfold SetState. case_decide as Hs; simpl; by rewrite ?Hs. Qed.

(** The slot ends with a decision, after steps that keep the connection. *)
Lemma on_disconnected_decides c : exists c2, connection c2 = connection c /\
  on_disconnected c =
  (if cl_desired_open c && negb (bool_decide (cl_state c = Closing))
   then ScheduleReconnect else SetState Disconnected) c2.
Proof.
  unfold on_disconnected, seq_bind, writes, reads. cbv iota beta.
  set (c1 := put_codec _ _). assert (connection c1 = connection c) as E1 by done. clearbody c1.
  pose proof (keeps_FailAllPending DependencyUnavailable true c1) as E2.
  destruct (FailAllPending _ _ c1) as [[] c2]. simpl in E2. rewrite E1 in E2. exists c2. split; [done|].
  unfold connection in E2. injection E2 as -> _ _ _ -> _ _ _. done.
Qed.

(** It schedules a reconnection or leaves the timer and the count alone. *)
Lemma on_disconnected_spec c :
  let c' := (on_disconnected c).2 in
  cl_socket c' = cl_socket c /\ cl_connections c' = cl_connections c /\
  (cl_desired_open c = false -> cl_desired_open c' = false) /\
  ((cl_reconnect_timer c' = cl_reconnect_timer c /\ cl_reconnect_attempt c' = cl_reconnect_attempt c) \/
   (cl_desired_open c = true /\ cl_state c' = Reconnecting /\
    cl_reconnect_timer c' = Some (interval (cl_reconnect_attempt c) (cl_draws c)) /\
    cl_reconnect_attempt c' = cl_reconnect_attempt c + 1)).
Proof.
  cbv zeta. destruct (on_disconnected_decides c) as (c2 & E & ->).
  unfold connection in E. injection E as E1 E2 E3 E4 E5 E6 E7 E8.
  rewrite <- E1, <- E2, <- E3, <- E4, <- E5, <- E6, <- E8. clear E1 E2 E3 E4 E5 E6 E7 E8 c. rename c2 into c.
  assert (forall s b, (b = true -> cl_desired_open c = true) -> let c' := (SetState s (put_desired_open b c)).2 in
    cl_socket c' = cl_socket c /\ cl_connections c' = cl_connections c /\ cl_desired_open c' = b /\
    cl_reconnect_timer c' = cl_reconnect_timer c /\ cl_reconnect_attempt c' = cl_reconnect_attempt c) as Hs.
  { intros s b Hb. pose proof (connection_SetState s (put_desired_open b c)) as Hs. cbv zeta in Hs |- *.
    destruct Hs as (-> & -> & -> & -> & -> & _). auto 10. }
  destruct (cl_desired_open c && _) eqn:Hd.
  2:{ pose proof (connection_SetState Disconnected c) as Hc. cbv zeta in Hc.
      destruct Hc as (-> & -> & -> & -> & -> & _). auto 10. }
  apply andb_true_iff in Hd as [Hd _]. unfold ScheduleReconnect. destruct (_ && _).
  - unfold seq_bind. specialize (Hs Disconnected false ltac:(done)).
    destruct (SetState _ _) as [[] c3]. simpl in *. destruct Hs as (-> & -> & -> & -> & ->). auto 10.
  - unfold seq_bind. pose proof (connection_SetState Reconnecting c) as Hc.
    destruct (SetState _ c) as [[] c3]. simpl in *. unfold interval.
    destruct Hc as (-> & _ & -> & -> & -> & _ & -> & ->). rewrite Hd. auto 10.
Qed.

(** The interval of a first attempt. *)
Lemma interval_first draw : 200 <= interval 0 draw <= 250.
Proof.
  unfold interval. pose proof (bounded_range draw 51 ltac:(lia)).
  change (Z.min kReconnectMaximumMilliseconds (kReconnectBaseMilliseconds * Z.shiftl 1 (Z.min 0 6))) with 200.
  change (200 / 4 + 1) with 51. unfold kReconnectMaximumMilliseconds. lia.
Qed.

Lemma StartSocket_spec c :
  let c' := (StartSocket c).2 in
  cl_desired_open c' = cl_desired_open c /\ cl_reconnect_timer c' = cl_reconnect_timer c /\
  cl_reconnect_attempt c' = cl_reconnect_attempt c /\
  ((cl_socket c' = cl_socket c /\ cl_connections c' = cl_connections c) \/
   (cl_desired_open c = true /\ cl_socket c = SUnconnected /\ cl_socket c' = SConnecting false)).
Proof.
  unfold StartSocket. destruct (cl_desired_open c) eqn:Hd; simpl; [|by auto 10].
  unfold seq_bind, writes. cbv iota beta. set (s := if _ =? 0 then Connecting else Reconnecting). clearbody s.
  pose proof (connection_SetState s (put_codec (Reset (cl_codec c)) c)) as Hs.
  destruct (SetState s _) as [[] c1]. simpl in Hs. destruct Hs as (E1 & E2 & E3 & E4 & E5 & _).
  unfold socket_connect. rewrite E1. destruct (cl_socket c) eqn:E; simpl; rewrite ?E1, ?E2, ?E3, ?E4, ?E5, ?E; auto 10.
Qed.

(** ** Three invariants *)

(** No connection is wanted; [n] attempts were made. *)
Definition closed (n : nat) (c : client) : Prop := cl_desired_open c = false /\ cl_connections c = n.

(** Nothing runs that could make an attempt. *)
Definition idle (n : nat) (c : client) : Prop :=
  cl_socket c = SUnconnected /\ cl_reconnect_timer c = None /\ cl_connections c = n.

(** A reconnection is always the first since the connection was lost. *)
Definition first_attempt (c : client) : Prop :=
  (forall t, cl_reconnect_timer c = Some t -> 200 <= t <= 250 /\ cl_socket c = SUnconnected) /\
  (cl_socket c = SConnected \/ cl_socket c = SClosing -> cl_reconnect_attempt c = 0).

Lemma connection_inj c c' : connection c = connection c' ->
  cl_socket c = cl_socket c' /\ cl_reconnect_timer c = cl_reconnect_timer c' /\
  cl_reconnect_attempt c = cl_reconnect_attempt c' /\ cl_desired_open c = cl_desired_open c' /\
  cl_connections c = cl_connections c'.
Proof. unfold connection. by intros [= ? -> -> -> -> -> ? ?]. Qed.

#[export] Instance closed_connection n : OnConnection (closed n).
Proof. intros c c' (? & ? & ? & E1 & E2)%connection_inj. unfold closed. by rewrite E1, E2. Qed.
#[export] Instance idle_connection n : OnConnection (idle n).
Proof. intros c c' (E1 & E2 & ? & ? & E3)%connection_inj. unfold idle. by rewrite E1, E2, E3. Qed.
#[export] Instance first_attempt_connection : OnConnection first_attempt.
Proof. intros c c' (E1 & E2 & E3 & ? & ?)%connection_inj. unfold first_attempt. by rewrite E1, E2, E3. Qed.

Lemma closed_lost n c : closed n c -> closed n (on_disconnected (drop_socket c)).2.
Proof.
  intros [Hd Hn]. pose proof (on_disconnected_spec (drop_socket c)) as (_ & E & Hf & _). split.
  - by apply Hf.
  - by rewrite E.
Qed.

Lemma run_client_closed n es c :
  (forall s, EvOpen s ∉ es) -> closed n c -> closed n (run_client slots es c).
Proof.
  apply (run_client_always (closed n)); try (by intros * []); try (by intros * [] ?).
  - intros c1 Hc _. by apply closed_lost.
  - intros t c1 [Hd Hn] Ht. pose proof (StartSocket_spec (put_reconnect_timer None c1)) as (E & _ & _ & Hc).
    simpl in *. destruct Hc as [[_ Hc]|[Hd' _]]; [|congruence]. split; congruence.
Qed.

Lemma run_client_idle n es c : (forall s, EvOpen s ∉ es) -> idle n c -> idle n (run_client slots es c).
Proof.
  apply (run_client_always (idle n)); try (by intros * (? & ? & ?)); try (intros * (? & ? & ?) ?; congruence).
  all: intros c1 (E & ? & ?) [|]; congruence.
Qed.

Lemma first_attempt_lost c :
  first_attempt c -> cl_socket c = SConnected \/ cl_socket c = SClosing ->
  first_attempt (on_disconnected (drop_socket c)).2.
Proof.
  intros [Ht Ha] Hs. specialize (Ha Hs).
  pose proof (on_disconnected_spec (drop_socket c)) as (E & _ & _ & Hd). simpl in *.
  unfold first_attempt. rewrite E. split; [|intros []; congruence].
  intros t Et. split; [|done]. destruct Hd as [[E' _]|(_ & _ & E' & _)]; rewrite E' in Et.
  - destruct (Ht t Et) as [_ Hu]. destruct Hs; congruence.
  - rewrite Ha in Et. injection Et as <-. apply interval_first.
Qed.

Lemma first_attempt_start c :
  first_attempt c -> cl_reconnect_timer c = None -> first_attempt (StartSocket c).2.
Proof.
  intros [Ht Ha] Hn. pose proof (StartSocket_spec c) as (_ & E1 & E2 & Hs). unfold first_attempt.
  rewrite E1, E2, Hn. split; [done|]. destruct Hs as [[-> _]|(_ & _ & ->)]; [done|]. by intros [].
Qed.

Lemma first_attempt_Open s c : first_attempt c -> first_attempt (Open s c).2.
Proof.
  intros Hc. unfold Open. unfold seq_bind at 1, writes at 1. cbv iota beta. unfold seq_bind at 1.
  assert (first_attempt (socket_abort (put_desired_open false c)).2) as Ha.
  { apply always_socket_abort; [| |exact Hc].
    - intros b c1 [Ht Ha] E. split; [|by intros []]. intros t Et. destruct (Ht t Et). simpl. split; congruence || done.
    - intros c1. apply first_attempt_lost. }
  destruct (socket_abort _) as [[] c1]. simpl in Ha. unfold seq_bind, writes. cbv iota beta.
  apply first_attempt_start; [|done]. split; [done|]. by intros _.
Qed.

Lemma first_attempt_event e : always first_attempt (client_event slots e).
Proof.
  assert ((exists s, e = EvOpen s) \/ ~ exists s, e = EvOpen s) as [[s ->]|He];
    [destruct e; (left; by eexists) || (right; by intros [])|intros c; apply first_attempt_Open|].
  apply (always_event first_attempt); [..|intros s ->; by apply He; exists s]; clear.
  all: try done.
  all: try (by intros * [Ht Ha] ?; split; [intros t Et; destruct (Ht t Et); simpl; congruence|intros []]).
  - intros c [Ht Ha] Hs. split; [|intros _; by apply Ha].
    intros t Et. destruct (Ht t Et). destruct Hs; congruence.
  - apply first_attempt_lost.
  - intros c [Ht Ha]. by split.
  - intros t c [Ht Ha] _. apply first_attempt_start; [by split|done].
Qed.

Lemma run_client_first_attempt es c : first_attempt c -> first_attempt (run_client slots es c).
Proof.
  revert c. induction es as [|e es IH]; intros c Hc; [exact Hc|]. apply IH. by apply first_attempt_event.
Qed.
End Connection.

(** ** Theorems *)

Section Theorems.
Context `{QtCodec} `{Uuid} `{Random} `{QHashOrder} (slots : list Signal -> list Call).

Lemma new_client_accounted now : accounted [] (new_client now).
Proof. by split. Qed.

Lemma disconnected_empties c : cl_pending (on_disconnected c).2 = ∅.
Proof.
  unfold on_disconnected, FailAllPending, seq_bind, writes, reads. cbv iota beta.
  destruct (for_each _ _ _) as [[] c1]. cbv iota beta. set (c2 := put_pending ∅ c1).
  assert (forall s c, cl_pending (SetState s c).2 = cl_pending c) as Hs.
  { intros s c'. unfold SetState. by case_decide. }
  destruct (_ && _); [|apply Hs]. unfold ScheduleReconnect. destruct (_ && _).
  - unfold seq_bind. pose proof (Hs Disconnected (put_desired_open false c2)) as E.
    by destruct (SetState _ _) as [[] c3].
  - unfold seq_bind. pose proof (Hs Reconnecting c2) as E. by destruct (SetState _ _) as [[] c3].
Qed.

(** C21: requests are conserved.  In any run of the client, whatever the
    application does in its slots and whatever arrives, every request id ever
    issued is distinct and is either answered or failed exactly once or still
    queued; and nothing stays queued when a connection ends. *)
Theorem requests_conserved now es :
  let c := run_client slots es (new_client now) in
  NoDup (cl_issued c) /\
  cl_issued c ≡ₚ outcomes c ++ queued (cl_pending c) /\
  (cl_socket c = SConnected \/ cl_socket c = SClosing ->
   cl_pending (client_event slots EvDisconnected c).2 = ∅).
Proof.
  cbv zeta. pose proof (run_client_accounted slots es _ (new_client_accounted now)) as [Hp Hn].
  set (c := run_client slots es (new_client now)) in *. split; [|split].
  - rewrite Hn. apply NoDup_fmap_2; [intros ? ?; apply uuid_inj|apply NoDup_seq].
  - by rewrite Hp, app_nil_r.
  - intros Hs. cbn [client_event]. destruct (cl_socket c), Hs; try done; apply disconnected_empties.
Qed.

(** A closed client stays closed.  After [Close], the gateway's answer to QUIT
    or a refused login, no event starts a connection until the application calls
    [Open]. *)
Theorem closed_stays_closed c es payload :
  (forall s, EvOpen s ∉ es) ->
  let rests c' := cl_connections (run_client slots es c') = cl_connections c' in
  rests (Close c).2 /\ rests (HandleFrame slots (sid ID_USER_QUIT_RSP, payload) c).2 /\
  (forall r, ParseProtobufPacket payload = Some r -> has_int F_error r = true ->
     int32 (get_int F_error r) <> Success ->
     rests (HandleFrame slots (sid ID_LOGIN_INIT_RSP, payload) c).2).
Proof.
  intros He rests.
  assert (forall n c', closed n c' -> rests c') as Hr.
  { intros n c' [Hd Hn]. unfold rests. by destruct (run_client_closed slots _ es c' He (conj Hd eq_refl)). }
  set (c0 := put_desired_open false c). assert (closed (cl_connections c) c0) as Hc by done.
  assert (forall f, always (closed (cl_connections c)) (HandleFrame slots f)) as Hf.
  { intros f. apply (always_HandleFrame slots (closed _)); try (by intros * []); try (by intros * [] ?).
    intros c1 Hc1 _. by apply closed_lost. }
  split; [|split].
  - change (Close c) with (Close c0). eapply Hr.
    apply (always_Close (closed _)); [..|exact Hc]; try (by intros * []); try (by intros * [] ?).
  - change (HandleFrame slots (sid ID_USER_QUIT_RSP, payload) c)
      with (HandleFrame slots (sid ID_USER_QUIT_RSP, payload) c0). eapply Hr. by apply Hf.
  - intros r Hp Hr1 Hr2.
    assert (HandleFrame slots (sid ID_LOGIN_INIT_RSP, payload) c =
            HandleFrame slots (sid ID_LOGIN_INIT_RSP, payload) c0) as ->.
    { cbn [HandleFrame]. unfold HandleLoginResponse. rewrite Z.eqb_refl.
      rewrite Hp, Hr1. cbv iota zeta. rewrite (proj2 (Z.eqb_neq _ _) Hr2). done. }
    eapply Hr. by apply Hf.
Qed.

(** C40: reconnection.  The delay before a new attempt is always between 200 and
    250 ms, because each established connection resets the counter of the back-
    off and only an established one schedules an attempt; and once an attempt
    fails no other is made until [Open]. *)
Theorem reconnection_gives_up now es :
  let c := run_client slots es (new_client now) in
  (forall t, cl_reconnect_timer c = Some t -> 200 <= t <= 250) /\
  (forall b es', cl_socket c = SConnecting b -> (forall s, EvOpen s ∉ es') ->
     let c' := run_client slots (EvConnectFailed :: es') c in
     cl_connections c' = cl_connections c /\ cl_socket c' = SUnconnected).
Proof.
  cbv zeta. assert (first_attempt (run_client slots es (new_client now))) as [Ht Ha].
  { apply run_client_first_attempt. split; [done|]. by intros []. }
  set (c := run_client slots es (new_client now)) in *. split; [intros t Et; by apply Ht|].
  intros b es' Hb He. cbn [run_client foldl].
  set (c1 := (client_event slots EvConnectFailed c).2).
  assert (idle (cl_connections c) c1) as Hi.
  { subst c1. cbn [client_event]. rewrite Hb.
    assert (idle (cl_connections c) (drop_socket c)) as Hd.
    { split; [done|]. split; [|done]. simpl. destruct (cl_reconnect_timer c) as [t|]; [|done].
      destruct (Ht t eq_refl). congruence. }
    repeat case_decide; [by apply (always_kept (idle _) _ (keeps_HandleLogin_signals _))..|exact Hd]. }
  destruct (run_client_idle slots _ es' c1 He Hi) as (Hs & _ & Hn). done.
Qed.

(** A frame whose service is a response to a request. *)
Definition answers (k : Z) : Prop :=
  Z.land k 1 = 0 /\ k <> ID_LOGIN_INIT_RSP /\ k <> ID_PING_RSP /\ k <> ID_USER_QUIT_RSP.

Lemma HandleFrame_answer k payload p :
  answers k -> ParseProtobufPacket payload = Some p ->
  HandleFrame slots (k, payload) = CompleteFront slots k payload.
Proof.
  intros (Ho & H1' & H2' & H3') Hp. unfold HandleFrame.
  rewrite !(proj2 (Z.eqb_neq _ _)) by done. by rewrite Hp, Ho.
Qed.

(** What [SendFront] writes. *)
Definition sent (k : Z) (r : PendingRequest) (c : client) : client :=
  put_timers (<[k := Some (rq_timeoutMilliseconds r)]> (cl_timers c))
    (put_written (cl_written c ++ [(cl_connections c, (rq_requestServiceId r, rq_payload r))])
      (put_buffer (cl_buffer c ++ [(rq_requestServiceId r, rq_payload r)]) c)).

Lemma SendFront_ready k r q c :
  cl_state c = Ready -> cl_socket c = SConnected -> cl_pending c !! k = Some (r :: q) ->
  SendFront k c = (tt, sent k r c).
Proof.
  intros Hr Hs Hq. unfold SendFront, socket_write, IsReady. rewrite Hq, Hr, Hs. done.
Qed.

(** A request to an idle service is sent at once. *)
Lemma QueueRequest_idle s p t c payload :
  let id := uuid (length (cl_issued c)) in
  let k := ClientProtocol.ResponseFor s in
  let r := mkRequest id s k payload t in
  cl_state c = Ready -> cl_socket c = SConnected -> default [] (cl_pending c !! k) = [] ->
  SerializeProtobufPacket (p |> set_str F_request_id id
    |> set_int F_request_timeout_ms kServerRequestBudgetMilliseconds) = Some payload ->
  QueueRequest s p t c =
    (id, sent k r (put_pending (<[k := [r]]> (cl_pending c)) (put_issued (cl_issued c ++ [id]) c))).
Proof.
  intros id k r Hr Hs Hq Hp. unfold QueueRequest, NewRequestId. fold id k.
  unfold seq_bind at 1. cbv iota beta. set (c1 := put_issued _ c).
  unfold seq_bind at 1, reads at 1. cbv iota beta.
  assert (IsReady c1 = true) as -> by (unfold IsReady; simpl; by rewrite Hr). change (negb true) with false. cbv iota.
  cbv zeta. fold id. rewrite Hp. unfold seq_bind, reads, writes. cbv iota beta.
  assert (cl_pending c1 = cl_pending c) as -> by done. rewrite Hq. simpl app. fold r.
  rewrite decide_True by done. rewrite (SendFront_ready k r []); [done..|]. apply lookup_insert_eq.
Qed.

(** A request made in the slot of a response.  When the application asks for the
    next page while it is told of the page before (and no other request waits),
    the new request is written twice: [QueueRequest] sends it as the only one in
    its queue, [CompleteFront] sends the front again. *)
Theorem next_page_sent_twice c r payload p conversationId nextSeq limit next :
  let k := sid ID_PULL_SESSION_MESSAGE_LIST_RSP in
  let s := sid ID_PULL_SESSION_MESSAGE_LIST_REQ in
  let id := uuid (length (cl_issued c)) in
  let request := empty_packet
    |> set_int F_conversation_id conversationId |> set_int F_after_seq (Z.max 0 nextSeq)
    |> set_int F_limit (clamp limit 1 200)
    |> set_str F_request_id id |> set_int F_request_timeout_ms kServerRequestBudgetMilliseconds in
  cl_state c = Ready -> cl_socket c = SConnected -> cl_pending c !! k = Some [r] ->
  ParseProtobufPacket payload = Some p ->
  slots (cl_signals c ++ [ResponseReceived (rq_requestId r) k payload]) =
    [CallPullConversationMessages conversationId nextSeq limit] ->
  SerializeProtobufPacket request = Some next ->
  let c' := (HandleFrame slots (k, payload) c).2 in
  cl_written c' = cl_written c ++ [(cl_connections c, (s, next)); (cl_connections c, (s, next))] /\
  cl_pending c' !! k = Some [mkRequest id s k next 5000].
Proof.
  intros k s id request Hr Hs Hq Hp Hslots Hser c'. subst c'.
  rewrite (HandleFrame_answer k payload p) by (first [done | by repeat split]).
  set (r' := mkRequest id s k next 5000).
  assert (exists c2, CompleteFront slots k payload c = (tt, sent k r' c2) /\ cl_pending c2 !! k = Some [r'] /\
    cl_written c2 = cl_written c ++ [(cl_connections c, (s, next))] /\ cl_connections c2 = cl_connections c)
    as (c2 & -> & E & Ew & En).
  2:{ simpl. by rewrite Ew, En, <- app_assoc. }
  unfold CompleteFront. rewrite Hq.
  unfold emit_to_application, emit. unfold seq_bind at 1 2 3 4 5, writes, reads. cbv iota beta.
  set (c1 := put_signals _ _).
  assert (cl_signals c1 = cl_signals c ++ [ResponseReceived (rq_requestId r) k payload]) as -> by done.
  rewrite Hslots. cbn [for_each run_call]. unfold ignore, PullConversationMessages. unfold seq_bind at 1 2.
  rewrite (QueueRequest_idle _ _ _ c1 next) by (done || (subst c1; simpl; by rewrite lookup_insert_eq)).
  cbv iota beta. unfold pure. fold s. change (ClientProtocol.ResponseFor s) with k.
  change (length (cl_issued c1)) with (length (cl_issued c)). fold id. fold r'. set (c2 := sent k r' _).
  assert (cl_pending c2 !! k = Some [r']) as E by (subst c2; simpl; apply lookup_insert_eq).
  unfold seq_bind, reads. cbv iota beta. rewrite E. change (default [] (Some [r'])) with [r']. cbv iota.
  rewrite (SendFront_ready k r' [] c2) by done. by exists c2.
Qed.

(** A late response.  When a request times out while another of its service
    waits, the next response is taken as the answer to the waiting one,
    whichever request it answers: responses are matched by service only. *)
Theorem late_response_misattributed c r1 r2 rest k t bytes payload p :
  answers k -> cl_state c = Ready -> cl_socket c = SConnected -> cl_codec c = new_codec ->
  cl_pending c !! k = Some (r1 :: r2 :: rest) -> cl_timers c !! k = Some (Some t) ->
  Feed bytes new_codec = ([(k, payload)], new_codec) -> ParseProtobufPacket payload = Some p ->
  slots (cl_signals c ++ [RequestFailed (rq_requestId r1) (rq_requestServiceId r1) DeadlineExceeded true;
                          ResponseReceived (rq_requestId r2) k payload]) = [] ->
  let c' := run_client slots [EvRequestTimer k; EvReadyRead bytes] c in
  cl_signals c' = cl_signals c ++
    [RequestFailed (rq_requestId r1) (rq_requestServiceId r1) DeadlineExceeded true;
     ResponseReceived (rq_requestId r2) k payload].
Proof.
  intros Ha Hr Hs Hc Hq Ht Hf Hp Hslots. cbn [run_client foldl client_event].
  rewrite Ht. unfold on_request_timeout. cbn [cl_pending put_timers]. rewrite Hq.
  unfold emit. unfold seq_bind, writes. cbv iota beta.
  set (c1 := put_signals _ _).
  rewrite (SendFront_ready k r2 rest c1) by (done || (subst c1; simpl; apply lookup_insert_eq)).
  cbn [snd]. set (c2 := sent k r2 c1).
  assert (cl_socket c2 = SConnected) as -> by exact Hs. unfold on_ready_read.
  assert (cl_codec c2 = new_codec) as -> by exact Hc. rewrite Hf.
  change (HasError new_codec) with false. cbv iota. cbn [for_each].
  unfold seq_bind. rewrite (HandleFrame_answer k payload p Ha Hp). unfold CompleteFront.
  assert (cl_pending (put_codec new_codec c2) !! k = Some (r2 :: rest)) as -> by (simpl; apply lookup_insert_eq).
  unfold emit_to_application, emit, seq_bind, writes, reads. cbv iota beta. set (c3 := put_signals _ _).
  assert (cl_signals c3 = cl_signals c ++
    [RequestFailed (rq_requestId r1) (rq_requestServiceId r1) DeadlineExceeded true;
     ResponseReceived (rq_requestId r2) k payload]) as E.
  { subst c3 c2 c1. simpl. by rewrite <- app_assoc. }
  rewrite E, Hslots. cbn [for_each pure]. cbv iota beta. transitivity (cl_signals c3); [|exact E].
  assert (forall c', cl_signals (SendFront k c').2 = cl_signals c') as Hsf.
  { intros c'. unfold SendFront, socket_write. destruct (cl_pending c' !! k) as [[|x y]|]; try done.
    destruct (negb _); [done|]. by destruct (cl_socket c'). }
  destruct (default [] (cl_pending c3 !! k)) as [|r3 rs]; [reflexivity|].
  pose proof (Hsf c3) as E3. by destruct (SendFront k c3) as [[] c4].
Qed.
End Theorems.

(** ** Concrete runs *)

Module Demo.
Definition qt : QtCodec.
Proof.
  refine {| SerializeProtobufPacket p := Some (SerializeToString (PacketCodec := bits_codec) p);
            ParseProtobufPacket := ParseFromString (PacketCodec := bits_codec) |}.
  intros p s [= <-]. apply (parse_serialize (PacketCodec := bits_codec)).
Defined.
Definition ids : Uuid.
Proof. refine {| uuid n := pretty n |}. intros n m E. by apply (inj pretty). Defined.
Definition dice : Random.
Proof. refine {| bounded n k := 0 |}. lia. Defined.
Definition table : QHashOrder.
Proof. refine {| visit A m := map_to_list m |}. done. Defined.

Definition ser (p : Packet) : string := SerializeToString (PacketCodec := bits_codec) p.

(** An application that asks for the next page of a conversation while the
    answer says there is more, as [AppController::HandleGatewayResponse] does. *)
Definition next_pages (seen : list Signal) : list Call :=
  match last seen with
  | Some (ResponseReceived _ _ payload) =>
      match ParseFromString (PacketCodec := bits_codec) payload with
      | Some p => if get_bool F_has_more p
                  then [CallPullConversationMessages (get_int F_conversation_id p) (get_int F_next_seq p) 50]
                  else []
      | None => []
      end
  | _ => []
  end.

Definition page (conversation next : Z) (more : bool) : string :=
  ser (empty_packet |> set_int F_conversation_id conversation |> set_int F_next_seq next
                    |> set_bool F_has_more more).

Definition run es c := run_client (H := qt) (H0 := ids) (H1 := dice) (H2 := table) next_pages es c.
Definition frame (id : Z) (payload : string) : event := EvReadyRead (Encode id payload).
Definition session : GateSession := mkGateSession 7 "host" 9000 "g1" "token" 3600 "" false.
Definition logged_in : client :=
  run [EvOpen session; EvConnected; EvBytesWritten; frame 1014 (ser empty_packet)] (new_client 1000).
(** One page of conversation 1 has been asked for. *)
Definition asked : client := run [EvCall (CallPullConversationMessages 1 0 50)] logged_in.
Definition two_asked : client := run [EvCall (CallPullConversationMessages 2 0 50)] asked.
Definition request (n : nat) (conversation after : Z) : PendingRequest :=
  mkRequest (pretty n) 1005 1006 (ser (empty_packet |> set_int F_conversation_id conversation
    |> set_int F_after_seq after |> set_int F_limit 50 |> set_str F_request_id (pretty n)
    |> set_int F_request_timeout_ms 3000)) 5000.
End Demo.

(** The same application, then a pull of conversation 2: the second copy of the
    page of conversation 1 is answered first, and the request for conversation 2
    gets a page of conversation 1. *)
Lemma answer_of_another_conversation :
  let c := Demo.run [Demo.frame 1006 (Demo.page 1 50 true); EvCall (CallPullConversationMessages 2 0 50);
                     Demo.frame 1006 (Demo.page 1 60 false); Demo.frame 1006 (Demo.page 1 60 false)]
             Demo.asked in
  cl_issued c = ["0"; "1"; "2"] /\ last (cl_signals c) = Some (ResponseReceived "2" 1006 (Demo.page 1 60 false)).
Proof. split; vm_compute; reflexivity. Qed.

Lemma closed_stays_closed_witness :
  cl_connections (Demo.run [EvReconnectTimer; EvDisconnected] (Close (H := Demo.qt) Demo.logged_in).2) = 1%nat.
Proof.
  pose proof (proj1 (closed_stays_closed (H := Demo.qt) (H0 := Demo.ids) (H1 := Demo.dice) (H2 := Demo.table)
    Demo.next_pages Demo.logged_in [EvReconnectTimer; EvDisconnected] ""
    ltac:(intros s Hs; apply list_elem_of_In in Hs; simpl in Hs; intuition discriminate))) as Hr.
  cbv zeta in Hr. unfold Demo.run. rewrite Hr. vm_compute. reflexivity.
Defined.

Lemma next_page_sent_twice_witness :
  let c := (HandleFrame (H := Demo.qt) (H0 := Demo.ids) (H1 := Demo.dice) (H2 := Demo.table) Demo.next_pages
              (1006, Demo.page 1 50 true) Demo.asked).2 in
  cl_pending c !! 1006 = Some [Demo.request 1%nat 1 50].
Proof.
  apply (next_page_sent_twice (H := Demo.qt) (H0 := Demo.ids) (H1 := Demo.dice) (H2 := Demo.table)
    Demo.next_pages Demo.asked (Demo.request 0%nat 1 0) (Demo.page 1 50 true)
    (empty_packet |> set_int F_conversation_id 1 |> set_int F_next_seq 50 |> set_bool F_has_more true)
    1 50 50 (rq_payload (Demo.request 1%nat 1 50))); vm_compute; reflexivity.
Defined.

Lemma late_response_misattributed_witness :
  last (cl_signals (Demo.run [EvRequestTimer 1006; Demo.frame 1006 (Demo.page 1 60 false)] Demo.two_asked)) =
  Some (ResponseReceived "1" 1006 (Demo.page 1 60 false)).
Proof.
  pose proof (late_response_misattributed (H := Demo.qt) (H0 := Demo.ids) (H1 := Demo.dice) (H2 := Demo.table)
    Demo.next_pages Demo.two_asked (Demo.request 0%nat 1 0) (Demo.request 1%nat 2 0) [] 1006 5000
    (Encode 1006 (Demo.page 1 60 false)) (Demo.page 1 60 false)
    (empty_packet |> set_int F_conversation_id 1 |> set_int F_next_seq 60 |> set_bool F_has_more false)
    ltac:(repeat split; discriminate) ltac:(vm_compute; reflexivity) ltac:(vm_compute; reflexivity)
    ltac:(vm_compute; reflexivity) ltac:(vm_compute; reflexivity) ltac:(vm_compute; reflexivity)
    ltac:(vm_compute; reflexivity) ltac:(vm_compute; reflexivity) ltac:(vm_compute; reflexivity)) as Hr.
  cbv zeta in Hr. unfold Demo.run, Demo.frame. rewrite Hr, last_app. reflexivity.
Defined.

Lemma reconnection_gives_up_witness :
  let c := Demo.run [EvOpen Demo.session] (new_client 1000) in
  cl_socket (Demo.run [EvConnectFailed; EvReconnectTimer; EvTick 60000; EvReconnectTimer] c) = SUnconnected /\
  cl_state (Demo.run [EvConnectFailed; EvReconnectTimer; EvTick 60000; EvReconnectTimer] c) = Connecting.
Proof.
  cbv zeta. split; [|vm_compute; reflexivity].
  apply (proj2 (reconnection_gives_up (H := Demo.qt) (H0 := Demo.ids) (H1 := Demo.dice) (H2 := Demo.table)
    Demo.next_pages 1000 [EvOpen Demo.session]) false [EvReconnectTimer; EvTick 60000; EvReconnectTimer]).
  - vm_compute. reflexivity.
  - intros s Hs. apply list_elem_of_In in Hs. simpl in Hs. intuition discriminate.
Defined.
