(* ===== verification/Snapshot.v ===== *)
(** * The client's records and list models

    [src/client/src/domain/ClientSnapshot.h] and the operations of
    [src/client/src/models]: the state machine of a message, and the lists the
    views show.  A [QString] of a record is [None] when it is null; the ids that
    the application builds never are.  The signals to the views and the display
    roles are left out. *)

From S2P Require Import Prelude.

(** A [QString]; a null one is equal to an empty one. *)
Abbreviation text := (option string).
Definition text_eq (s t : text) : bool := bool_decide (default "" s = default "" t).

Inductive MessageDeliveryState :=
  | PendingLocal | WaitingAccept | Accepted | Delivered | Read | Unknown | RetryableFailed | PermanentFailed.

#[export] Instance MessageDeliveryState_eq_dec : EqDecision MessageDeliveryState.
Proof. solve_decision. Defined.

Record ConversationRecord := mkConversationRecord {
  cr_conversationId : string; cr_title : text; cr_preview : text; cr_timestamp : text; cr_avatarColor : text;
  cr_remoteConversationId : option Z; cr_unreadCount : Z; cr_pinned : bool; cr_muted : bool; cr_online : bool }.

Record MessageRecord := mkMessageRecord {
  mr_clientMessageId : Z; mr_messageId : option Z; mr_conversationSeq : option Z; mr_senderId : text; mr_body : text;
  mr_timestamp : text; mr_outgoing : bool; mr_deliveryState : MessageDeliveryState }.

Record ContactRecord := mkContactRecord {
  ct_userId : string; ct_displayName : text; ct_statusText : text; ct_avatarColor : text;
  ct_online : bool; ct_favorite : bool }.

Record RequestRecord := mkRequestRecord {
  rr_requestId : string; rr_displayName : text; rr_message : text; rr_avatarColor : text; rr_kind : text; rr_status : text }.

Record ClientSnapshot := mkSnapshot {
  sn_scenarioName : string; sn_connectionStatus : string; sn_conversations : list ConversationRecord;
  sn_messagesByConversation : gmap string (list MessageRecord); sn_contacts : list ContactRecord;
  sn_requests : list RequestRecord; sn_draftsByConversation : gmap string string }.

(** ** The state of a message *)

Definition DeliveryStateName (state : MessageDeliveryState) : string :=
  match state with
  | PendingLocal => "pending" | WaitingAccept => "waiting-accept" | Accepted => "accepted"
  | Delivered => "delivered" | Read => "read" | Unknown => "unknown"
  | RetryableFailed => "retryable-failed" | PermanentFailed => "permanent-failed"
  end.

Definition CanTransition (from to : MessageDeliveryState) : bool :=
  if decide (from = to) then false
  else match from, to with
  | PendingLocal, (WaitingAccept | Unknown | RetryableFailed | PermanentFailed) => true
  | WaitingAccept, (Accepted | Unknown | RetryableFailed | PermanentFailed) => true
  | Accepted, (Delivered | Read) => true
  | Delivered, Read => true
  | Unknown, (WaitingAccept | Accepted | Delivered | Read | RetryableFailed | PermanentFailed) => true
  | RetryableFailed, (PendingLocal | WaitingAccept | Accepted | PermanentFailed) => true
  | _, _ => false
  end.

(** ** [MessageListModel] *)

Record MessageListModel := mkMessageList { ml_records : list MessageRecord; ml_unread_separator_index : Z }.

Module MessageList.
Definition SetRecords (records : list MessageRecord) (unreadCount : Z) (m : MessageListModel) : MessageListModel :=
  let size := Z.of_nat (length records) in
  mkMessageList records
    (if 0 <=? unreadCount then
       let boundedUnreadCount := Z.min unreadCount size in
       if 0 <? boundedUnreadCount then size - boundedUnreadCount else -1
     else ml_unread_separator_index m).

Definition Append (record : MessageRecord) (m : MessageListModel) : MessageListModel :=
  mkMessageList (ml_records m ++ [record]) (ml_unread_separator_index m).

Definition with_state (state : MessageDeliveryState) (r : MessageRecord) : MessageRecord :=
  mkMessageRecord (mr_clientMessageId r) (mr_messageId r) (mr_conversationSeq r) (mr_senderId r) (mr_body r)
    (mr_timestamp r) (mr_outgoing r) state.

(** The first record with that id decides. *)
Fixpoint update_state (clientMessageId : Z) (state : MessageDeliveryState) (records : list MessageRecord)
  : bool * list MessageRecord :=
  match records with
  | [] => (false, [])
  | record :: records =>
      if negb (mr_clientMessageId record =? clientMessageId) then
        let '(changed, records) := update_state clientMessageId state records in (changed, record :: records)
      else if negb (CanTransition (mr_deliveryState record) state) then (false, record :: records)
      else (true, with_state state record :: records)
  end.

Definition UpdateDeliveryState (clientMessageId : Z) (state : MessageDeliveryState) (m : MessageListModel)
  : bool * MessageListModel :=
  let '(changed, records) := update_state clientMessageId state (ml_records m) in
  (changed, mkMessageList records (ml_unread_separator_index m)).
End MessageList.

(** ** [ConversationListModel] *)

(** [records_[row]] for a row in range. *)
Definition at_row {A} (row : Z) (records : list A) : option A :=
  if row <? 0 then None else records !! Z.to_nat row.

Module ConversationList.
Definition with_remote (id : Z) (r : ConversationRecord) : ConversationRecord :=
  mkConversationRecord (cr_conversationId r) (cr_title r) (cr_preview r) (cr_timestamp r) (cr_avatarColor r) (Some id)
    (cr_unreadCount r) (cr_pinned r) (cr_muted r) (cr_online r).
Definition with_preview (preview timestamp : text) (r : ConversationRecord) : ConversationRecord :=
  mkConversationRecord (cr_conversationId r) (cr_title r) preview timestamp (cr_avatarColor r)
    (cr_remoteConversationId r) (cr_unreadCount r) (cr_pinned r) (cr_muted r) (cr_online r).
Definition with_flags (unread : Z) (pinned muted : bool) (r : ConversationRecord) : ConversationRecord :=
  mkConversationRecord (cr_conversationId r) (cr_title r) (cr_preview r) (cr_timestamp r) (cr_avatarColor r)
    (cr_remoteConversationId r) unread pinned muted (cr_online r).

Definition Prepend (record : ConversationRecord) (records : list ConversationRecord) : list ConversationRecord :=
  record :: records.

Definition RecordAt (index : Z) (records : list ConversationRecord) : option ConversationRecord := at_row index records.

Definition IndexOf (conversationId : string) (records : list ConversationRecord) : Z :=
  match list_find (fun r => cr_conversationId r = conversationId) records with
  | Some (i, _) => Z.of_nat i
  | None => -1
  end.

(** The loops that change the first record that passes a test. *)
Fixpoint change_first (test : ConversationRecord -> bool) (f : ConversationRecord -> ConversationRecord)
    (records : list ConversationRecord) : bool * list ConversationRecord :=
  match records with
  | [] => (false, [])
  | record :: records =>
      if test record then (true, f record :: records)
      else let '(changed, records) := change_first test f records in (changed, record :: records)
  end.

Definition SetRemoteConversationId (conversationId : string) (remote : Z) :=
  change_first (fun r => bool_decide (cr_conversationId r = conversationId) &&
                         negb (bool_decide (cr_remoteConversationId r = Some remote))) (with_remote remote).

Definition UpdatePreview (conversationId : string) (preview timestamp : text) (records : list ConversationRecord) :=
  (change_first (fun r => bool_decide (cr_conversationId r = conversationId)) (with_preview preview timestamp) records).2.

Definition SetUnreadCount (conversationId : string) (unreadCount : Z) :=
  change_first (fun r => bool_decide (cr_conversationId r = conversationId) && negb (cr_unreadCount r =? unreadCount))
    (fun r => with_flags unreadCount (cr_pinned r) (cr_muted r) r).

(** Changes of one row. *)
Definition change_row (row : Z) (test : ConversationRecord -> bool) (f : ConversationRecord -> ConversationRecord)
    (records : list ConversationRecord) : bool * list ConversationRecord :=
  match at_row row records with
  | Some r => if test r then (true, <[Z.to_nat row := f r]> records) else (false, records)
  | None => (false, records)
  end.

Definition TogglePinned (row : Z) :=
  change_row row (fun _ => true) (fun r => with_flags (cr_unreadCount r) (negb (cr_pinned r)) (cr_muted r) r).
Definition ToggleMuted (row : Z) :=
  change_row row (fun _ => true) (fun r => with_flags (cr_unreadCount r) (cr_pinned r) (negb (cr_muted r)) r).
Definition MarkRead (row : Z) :=
  change_row row (fun r => negb (cr_unreadCount r =? 0)) (fun r => with_flags 0 (cr_pinned r) (cr_muted r) r).
End ConversationList.

(** ** [ContactListModel], [RequestListModel] *)

Definition ToggleFavorite (row : Z) (records : list ContactRecord) : bool * list ContactRecord :=
  match at_row row records with
  | Some r => (true, <[Z.to_nat row := mkContactRecord (ct_userId r) (ct_displayName r) (ct_statusText r)
                        (ct_avatarColor r) (ct_online r) (negb (ct_favorite r))]> records)
  | None => (false, records)
  end.

Definition IsPendingStatus (status : text) : bool :=
  bool_decide (status = Some "pending") || bool_decide (status = Some "accepting") ||
  bool_decide (status = Some "declining").

Definition pendingCount (records : list RequestRecord) : Z :=
  Z.of_nat (length (List.filter (fun r => IsPendingStatus (rr_status r)) records)).
Definition resolvedCount (records : list RequestRecord) : Z := Z.of_nat (length records) - pendingCount records.

Definition SetStatus (row : Z) (status : text) (records : list RequestRecord) : bool * list RequestRecord :=
  match at_row row records with
  | Some r =>
      if text_eq (rr_status r) status then (false, records)
      else (true, <[Z.to_nat row := mkRequestRecord (rr_requestId r) (rr_displayName r) (rr_message r)
                        (rr_avatarColor r) (rr_kind r) status]> records)
  | None => (false, records)
  end.
