(* ===== verification/Views.v ===== *)
(** * The list models as the views see them

    The four list models of [src/client/src/models] for the views of the user
    interface: what each role of a row shows ([data]), and which signals an
    operation sends.  A view, as Qt documents it, keeps what it has read and
    reads again what a signal names; [shows] says that what it keeps is what the
    model would answer. *)

From S2P Require Import Prelude Snapshot.

(** ** Views *)

Inductive QVariant := Invalid | QText (t : text) | QInt (n : Z) | QBool (b : bool).

(** What a model is to a view. *)
Class ListModel (M Role : Type) := {
  rowCount : M -> nat;
  data : M -> nat -> Role -> QVariant }.

(** [endResetModel], [endInsertRows], [dataChanged] of one row. *)
Inductive signal (Role : Type) := ModelReset | RowsInserted (first count : nat) | DataChanged (row : nat) (roles : list Role).
Arguments ModelReset {Role}.
Arguments RowsInserted {Role}.
Arguments DataChanged {Role}.

Section Views.
Context {M Role : Type} `{ListModel M Role} `{EqDecision Role}.

Abbreviation view := (list (Role -> QVariant)).

Definition row_data (m : M) (row : nat) : Role -> QVariant := data m row.

Definition receive (m : M) (s : signal Role) (v : view) : view :=
  match s with
  | ModelReset => row_data m <$> seq 0 (rowCount m)
  | RowsInserted first count => take first v ++ (row_data m <$> seq first count) ++ drop first v
  | DataChanged row roles =>
      alter (fun cell role => if decide (role ∈ roles) then data m row role else cell role) row v
  end.

(** The roles [watched] of every row are as the model has them. *)
Definition shows (watched : Role -> Prop) (v : view) (m : M) : Prop :=
  length v = rowCount m /\
  forall row cell, v !! row = Some cell -> forall role, watched role -> cell role = data m row role.

Lemma shows_reset watched v m : shows watched (receive m ModelReset v) m.
Proof.
  split; [simpl; by rewrite length_fmap, length_seq|]. intros row cell E role _. simpl in E.
  apply list_lookup_fmap_Some in E as (i & -> & [-> _]%lookup_seq). done.
Qed.

(** Rows in front of and behind new ones. *)
Lemma shows_inserted watched v m m' first count :
  shows watched v m -> (first <= rowCount m)%nat -> rowCount m' = (rowCount m + count)%nat ->
  (forall row role, (row < first)%nat -> watched role -> data m' row role = data m row role) ->
  (forall row role, (first <= row)%nat -> watched role -> data m' (row + count) role = data m row role) ->
  shows watched (receive m' (RowsInserted first count) v) m'.
Proof.
  intros [Hl Hv] Hf Hc Hfront Hback. split.
  { simpl. rewrite !length_app, length_fmap, length_seq, length_take, length_drop. lia. }
  intros row cell E role Hw. simpl in E. assert (length (take first v) = first) as Ht by (rewrite length_take; lia).
  destruct (decide (row < first)%nat) as [Hlt|Hge].
  - rewrite lookup_app_l, lookup_take_lt in E by lia. by rewrite (Hv _ _ E), Hfront.
  - rewrite lookup_app_r in E by lia. rewrite Ht in E. destruct (decide (row - first < count)%nat) as [Hlt|Hge'].
    + rewrite lookup_app_l in E by (by rewrite length_fmap, length_seq).
      apply list_lookup_fmap_Some in E as (i & -> & [-> _]%lookup_seq).
      replace (first + (row - first))%nat with row by lia. done.
    + rewrite lookup_app_r in E by (rewrite length_fmap, length_seq; lia). rewrite length_fmap, length_seq, lookup_drop in E.
      rewrite (Hv _ _ E) by done. rewrite <-(Hback (first + (row - first - count))%nat) by (done || lia). f_equal. lia.
Qed.

(** A change of one row in the roles that are named. *)
Lemma shows_changed watched v m m' row roles :
  shows watched v m -> rowCount m' = rowCount m ->
  (forall row' role, watched role -> ~ (row' = row /\ role ∈ roles) -> data m' row' role = data m row' role) ->
  shows watched (receive m' (DataChanged row roles) v) m'.
Proof.
  intros [Hl Hv] Hc Hd. split; [simpl; by rewrite length_alter, Hl|]. intros row' cell E role Hw. simpl in E.
  destruct (decide (row = row')) as [<-|Hne].
  - rewrite list_lookup_alter_eq in E. destruct (v !! row) as [old|] eqn:Eo; [|done]. injection E as <-.
    destruct (decide (role ∈ roles)); [done|]. rewrite (Hv _ _ Eo) by done. symmetry. apply Hd; [done|]. by intros [_ ?].
  - rewrite list_lookup_alter_ne in E by done. rewrite (Hv _ _ E) by done. symmetry. apply Hd; [done|]. by intros [? _].
Qed.

Lemma shows_silent watched v m m' :
  shows watched v m -> rowCount m' = rowCount m ->
  (forall row role, watched role -> data m' row role = data m row role) -> shows watched v m'.
Proof. intros [Hl Hv] Hc Hd. split; [lia|]. intros row cell E role Hw. by rewrite (Hv _ _ E), Hd. Qed.
End Views.

(** ** Models that are lists of records *)

(** What a record in a row shows. *)
Class Fields (R Role : Type) := field : nat -> R -> Role -> QVariant.

Definition list_model {R Role} `{Fields R Role} : ListModel (list R) Role := {|
  rowCount := length;
  data records row role := match records !! row with Some r => field row r role | None => Invalid end |}.
#[export] Existing Instance list_model.

Section Lists.
Context {R Role : Type} `{Fields R Role} `{EqDecision Role}.
Implicit Types (watched : Role -> Prop) (records : list R).

Lemma row_changed watched v records row r r' roles :
  records !! row = Some r ->
  (forall role, watched role -> role ∉ roles -> field row r' role = field row r role) ->
  shows watched v records -> shows watched (receive (<[row := r']> records) (DataChanged row roles) v) (<[row := r']> records).
Proof.
  intros Er Hf Hv. apply (shows_changed watched v records); [done|simpl; by rewrite length_insert|].
  intros row' role Hw Hn. simpl. destruct (decide (row = row')) as [<-|Hne].
  - rewrite list_lookup_insert_eq by (by eapply lookup_lt_Some). rewrite Er. apply Hf; [done|]. intros Hin. by apply Hn.
  - by rewrite list_lookup_insert_ne.
Qed.

Lemma prepended watched v records r :
  (forall row x role, watched role -> field (S row) x role = field row x role) ->
  shows watched v records -> shows watched (receive (r :: records) (RowsInserted 0 1) v) (r :: records).
Proof.
  intros Hf Hv. apply (shows_inserted watched v records); [done|lia|simpl; lia|lia|].
  intros row role _ Hw. rewrite Nat.add_1_r. simpl. destruct (records !! row); [by apply Hf|done].
Qed.
End Lists.

(** *** [ConversationListModel] *)

Inductive ConversationRole :=
  | ConversationIdRole | CSourceIndexRole | TitleRole | PreviewRole | CTimestampRole | CAvatarColorRole
  | RemoteConversationIdRole | UnreadCountRole | PinnedRole | MutedRole | COnlineRole.
#[export] Instance ConversationRole_eq_dec : EqDecision ConversationRole.
Proof. solve_decision. Defined.

Definition optional (o : option Z) : QVariant := match o with Some n => QInt n | None => Invalid end.

Definition conversation_data (row : nat) (record : ConversationRecord) (role : ConversationRole) : QVariant :=
  match role with
  | ConversationIdRole => QText (Some (cr_conversationId record))
  | CSourceIndexRole => QInt (Z.of_nat row)
  | TitleRole => QText (cr_title record)
  | PreviewRole => QText (cr_preview record)
  | CTimestampRole => QText (cr_timestamp record)
  | CAvatarColorRole => QText (cr_avatarColor record)
  | RemoteConversationIdRole => optional (cr_remoteConversationId record)
  | UnreadCountRole => QInt (cr_unreadCount record)
  | PinnedRole => QBool (cr_pinned record)
  | MutedRole => QBool (cr_muted record)
  | COnlineRole => QBool (cr_online record)
  end.
#[export] Instance conversation_fields : Fields ConversationRecord ConversationRole := conversation_data.

Definition conversation_role_names : list (ConversationRole * string) :=
  [(ConversationIdRole, "conversationId"); (CSourceIndexRole, "sourceIndex"); (TitleRole, "title"); (PreviewRole, "preview");
   (CTimestampRole, "timestamp"); (CAvatarColorRole, "avatarColor"); (RemoteConversationIdRole, "remoteConversationId");
   (UnreadCountRole, "unreadCount"); (PinnedRole, "pinned"); (MutedRole, "muted"); (COnlineRole, "online")].

Inductive conversation_op :=
  | ConversationsSet (records : list ConversationRecord)
  | ConversationPrepended (record : ConversationRecord)
  | RemoteIdSet (conversationId : string) (remote : Z)
  | PreviewSet (conversationId : string) (preview timestamp : text)
  | UnreadSet (conversationId : string) (unreadCount : Z)
  | PinToggled (row : Z) | MuteToggled (row : Z) | ReadMarked (row : Z).

(** The row of the first record that passes a test. *)
Definition first_row_of {R} (test : R -> bool) (records : list R) : option nat := fst <$> list_find (fun r => test r = true) records.

Definition changed {Role} (row : option nat) (roles : list Role) : list (signal Role) :=
  match row with Some row => [DataChanged row roles] | None => [] end.

Definition signalled {Role} (emitted : bool) (row : Z) (roles : list Role) : list (signal Role) :=
  if emitted then [DataChanged (Z.to_nat row) roles] else [].

(** An operation with what it emits. *)
Definition conversation_signals (op : conversation_op) (records : list ConversationRecord) :
    list ConversationRecord * list (signal ConversationRole) :=
  match op with
  | ConversationsSet records => (records, [ModelReset])
  | ConversationPrepended record => (ConversationList.Prepend record records, [RowsInserted 0 1])
  | RemoteIdSet id remote =>
      ((ConversationList.SetRemoteConversationId id remote records).2,
       changed (first_row_of (fun r => bool_decide (cr_conversationId r = id) &&
         negb (bool_decide (cr_remoteConversationId r = Some remote))) records) [RemoteConversationIdRole])
  | PreviewSet id preview timestamp =>
      (ConversationList.UpdatePreview id preview timestamp records,
       changed (first_row_of (fun r => bool_decide (cr_conversationId r = id)) records) [PreviewRole; CTimestampRole])
  | UnreadSet id n =>
      ((ConversationList.SetUnreadCount id n records).2,
       changed (first_row_of (fun r => bool_decide (cr_conversationId r = id) && negb (cr_unreadCount r =? n)) records)
         [UnreadCountRole])
  | PinToggled row => let '(ok, records') := ConversationList.TogglePinned row records in (records', signalled ok row [PinnedRole])
  | MuteToggled row => let '(ok, records') := ConversationList.ToggleMuted row records in (records', signalled ok row [MutedRole])
  | ReadMarked row => let '(ok, records') := ConversationList.MarkRead row records in (records', signalled ok row [UnreadCountRole])
  end.

(** A model with its view, step by step. *)
Definition conversation_view (op : conversation_op) (mv : list ConversationRecord * list (ConversationRole -> QVariant)) :=
  let '(records, signals) := conversation_signals op mv.1 in
  (records, foldl (fun v s => receive records s v) mv.2 signals).

Lemma change_first_found test f records :
  match list_find (fun r => test r = true) records with
  | Some (row, r) => ConversationList.change_first test f records = (true, <[row := f r]> records) /\ records !! row = Some r
  | None => ConversationList.change_first test f records = (false, records)
  end.
Proof.
  induction records as [|r records IH]; [done|]. simpl. destruct (test r) eqn:E.
  - by rewrite decide_True.
  - rewrite decide_False by congruence. destruct (list_find _ records) as [[row x]|]; simpl; [destruct IH as [-> ?]; by split|by rewrite IH].
Qed.

Lemma at_row_found {A} row (records : list A) r : at_row row records = Some r -> records !! Z.to_nat row = Some r.
Proof. unfold at_row. by destruct (row <? 0). Qed.

(** Changes by a loop, or of a row, with a signal for what they change. *)
Lemma first_changed watched v test f roles records :
  (forall row r role, watched role -> role ∉ roles -> conversation_data row (f r) role = conversation_data row r role) ->
  shows watched v records ->
  let records' := (ConversationList.change_first test f records).2 in
  shows watched (foldl (fun v s => receive records' s v) v (changed (first_row_of test records) roles)) records'.
Proof.
  intros Hf Hv. cbv zeta. unfold first_row_of. pose proof (change_first_found test f records) as Hc.
  destruct (list_find _ records) as [[row r]|]; [destruct Hc as [-> Hr]|by rewrite Hc]. simpl.
  apply (row_changed watched v records row r); [done| |done]. intros role. apply Hf.
Qed.

Lemma toggled watched v row test f roles records :
  (forall i r role, watched role -> role ∉ roles -> conversation_data i (f r) role = conversation_data i r role) ->
  shows watched v records ->
  let '(ok, records') := ConversationList.change_row row test f records in
  shows watched (foldl (fun v s => receive records' s v) v (signalled ok row roles)) records'.
Proof.
  intros Hf Hv. unfold ConversationList.change_row. destruct (at_row row records) as [r|] eqn:E; [|done].
  destruct (test r); [|done]. apply at_row_found in E. simpl. apply (row_changed watched v records _ r); [done| |done]. intros role. apply Hf.
Qed.

(** The view of the conversations is right after any operations in every role,
    except that [sourceIndex] is only right while no conversation was put in
    front. *)
Theorem conversation_view_shows watched ops records v :
  (forall role, watched role -> role = CSourceIndexRole -> Forall (fun op => match op with ConversationPrepended _ => False | _ => True end) ops) ->
  shows watched v records ->
  let '(records', v') := foldl (fun mv op => conversation_view op mv) (records, v) ops in shows watched v' records'.
Proof.
  revert records v. induction ops as [|op ops IH]; intros records v Hops Hv; [done|]. cbn [foldl].
  assert (shows watched (conversation_view op (records, v)).2 (conversation_view op (records, v)).1) as Hs.
  { unfold conversation_view. cbn [fst snd]. destruct op as [rs|r|id q|id p t|id n|row|row|row]; cbn [conversation_signals fst snd foldl].
    - apply shows_reset.
    - apply prepended; [|done]. intros row x [] Hw; try done. specialize (Hops _ Hw eq_refl). by apply Forall_cons in Hops as [[] _].
    - apply first_changed; [|done]. intros row r [] _ Hn; try done. exfalso. apply Hn. set_solver.
    - apply first_changed; [|done]. intros row r [] _ Hn; try done; exfalso; apply Hn; set_solver.
    - apply first_changed; [|done]. intros row r [] _ Hn; try done. exfalso. apply Hn. set_solver.
    - pose proof (toggled watched v row (fun _ => true)
        (fun r => ConversationList.with_flags (cr_unreadCount r) (negb (cr_pinned r)) (cr_muted r) r) [PinnedRole] records) as Ht.
      unfold ConversationList.TogglePinned. destruct (ConversationList.change_row _ _ _ _) as [ok records']. apply Ht; [|done].
      intros i r [] _ Hn; try done. exfalso. apply Hn. set_solver.
    - pose proof (toggled watched v row (fun _ => true)
        (fun r => ConversationList.with_flags (cr_unreadCount r) (cr_pinned r) (negb (cr_muted r)) r) [MutedRole] records) as Ht.
      unfold ConversationList.ToggleMuted. destruct (ConversationList.change_row _ _ _ _) as [ok records']. apply Ht; [|done].
      intros i r [] _ Hn; try done. exfalso. apply Hn. set_solver.
    - pose proof (toggled watched v row (fun r => negb (cr_unreadCount r =? 0))
        (fun r => ConversationList.with_flags 0 (cr_pinned r) (cr_muted r) r) [UnreadCountRole] records) as Ht.
      unfold ConversationList.MarkRead. destruct (ConversationList.change_row _ _ _ _) as [ok records']. apply Ht; [|done].
      intros i r [] _ Hn; try done. exfalso. apply Hn. set_solver. }
  destruct (conversation_view op (records, v)) as [records1 v1]. apply IH; [|exact Hs].
  intros role Hw E. specialize (Hops role Hw E). by apply Forall_cons in Hops as [_ ?].
Qed.

(** After a conversation was put in front, every other row still carries the
    index it had: what the user does to it is done to the one in front of it. *)
Theorem prepend_misleads records v record row r :
  shows (fun _ => True) v records -> records !! row = Some r ->
  let '(records', v') := conversation_view (ConversationPrepended record) (records, v) in
  exists cell, v' !! S row = Some cell /\ cell ConversationIdRole = QText (Some (cr_conversationId r)) /\
    cell CSourceIndexRole = QInt (Z.of_nat row) /\
    ConversationList.RecordAt (Z.of_nat row) records' = (record :: records) !! row.
Proof.
  intros [Hl Hv] Hr. simpl. destruct (v !! row) as [cell|] eqn:Ec.
  2: { apply lookup_ge_None in Ec. apply lookup_lt_Some in Hr. change (length v = length records) in Hl. lia. }
  exists cell. split; [done|]. rewrite !(Hv row cell Ec) by done. simpl. rewrite Hr. split_and!; [done|done|].
  unfold ConversationList.RecordAt, at_row. rewrite (proj2 (Z.ltb_ge _ _)) by lia. by rewrite Nat2Z.id.
Qed.

(** *** [ContactListModel], [RequestListModel] *)

Inductive ContactRole := UserIdRole | KSourceIndexRole | DisplayNameRole | StatusTextRole | KAvatarColorRole | KOnlineRole | FavoriteRole.
#[export] Instance ContactRole_eq_dec : EqDecision ContactRole.
Proof. solve_decision. Defined.

Definition contact_data (row : nat) (record : ContactRecord) (role : ContactRole) : QVariant :=
  match role with
  | UserIdRole => QText (Some (ct_userId record))
  | KSourceIndexRole => QInt (Z.of_nat row)
  | DisplayNameRole => QText (ct_displayName record)
  | StatusTextRole => QText (ct_statusText record)
  | KAvatarColorRole => QText (ct_avatarColor record)
  | KOnlineRole => QBool (ct_online record)
  | FavoriteRole => QBool (ct_favorite record)
  end.
#[export] Instance contact_fields : Fields ContactRecord ContactRole := contact_data.

Definition contact_role_names : list (ContactRole * string) :=
  [(UserIdRole, "userId"); (KSourceIndexRole, "sourceIndex"); (DisplayNameRole, "displayName"); (StatusTextRole, "statusText");
   (KAvatarColorRole, "avatarColor"); (KOnlineRole, "online"); (FavoriteRole, "favorite")].

Inductive RequestRole := RequestIdRole | RDisplayNameRole | MessageRole | RAvatarColorRole | KindRole | StatusRole.
#[export] Instance RequestRole_eq_dec : EqDecision RequestRole.
Proof. solve_decision. Defined.

Definition request_data (row : nat) (record : RequestRecord) (role : RequestRole) : QVariant :=
  match role with
  | RequestIdRole => QText (Some (rr_requestId record))
  | RDisplayNameRole => QText (rr_displayName record)
  | MessageRole => QText (rr_message record)
  | RAvatarColorRole => QText (rr_avatarColor record)
  | KindRole => QText (rr_kind record)
  | StatusRole => QText (rr_status record)
  end.
#[export] Instance request_fields : Fields RequestRecord RequestRole := request_data.

Definition request_role_names : list (RequestRole * string) :=
  [(RequestIdRole, "requestId"); (RDisplayNameRole, "displayName"); (MessageRole, "requestMessage"); (RAvatarColorRole, "avatarColor");
   (KindRole, "requestKind"); (StatusRole, "requestStatus")].

(** The views of contacts and of requests are always right. *)
Theorem contact_view_shows v records row :
  shows (fun _ => True) v records ->
  let '(ok, records') := ToggleFavorite row records in
  shows (fun _ => True) (foldl (fun v s => receive records' s v) v (signalled ok row [FavoriteRole])) records'.
Proof.
  intros Hv. unfold ToggleFavorite. destruct (at_row row records) as [r|] eqn:E; [|done]. apply at_row_found in E. simpl.
  apply (row_changed _ v records _ r); [done| |done]. intros [] _ Hn; try done. exfalso. apply Hn. set_solver.
Qed.

Theorem request_view_shows v records row status :
  shows (fun _ => True) v records ->
  let '(ok, records') := SetStatus row status records in
  shows (fun _ => True) (foldl (fun v s => receive records' s v) v (signalled ok row [StatusRole])) records'.
Proof.
  intros Hv. unfold SetStatus. destruct (at_row row records) as [r|] eqn:E; [|done]. destruct (text_eq _ _); [done|].
  apply at_row_found in E. simpl.
  apply (row_changed _ v records _ r); [done| |done]. intros [] _ Hn; try done. exfalso. apply Hn. set_solver.
Qed.

(** *** [MessageListModel] *)

(** A date as year, month, day. *)
Definition QDate : Type := Z * Z * Z.

(** [QString::size], [left] and [mid] count UTF-16 units; [QDate::fromString]
    with the format [yyyy-MM-dd]; today, and the day before, when the model is
    asked. *)
Class Qt := {
  q_size : text -> Z;
  q_left : text -> Z -> text;
  q_mid : text -> Z -> Z -> text;
  q_date : text -> option QDate;
  q_today : QDate;
  q_yesterday : QDate }.

Section Messages.
Context `{Qt}.

Definition MessageDate (timestamp : text) : option QDate :=
  if q_size timestamp <? 10 then None else q_date (q_left timestamp 10).

Definition MessageTimeText (timestamp : text) : text :=
  match MessageDate timestamp with
  | None => timestamp
  | Some _ => if 16 <=? q_size timestamp then q_mid timestamp 11 5 else timestamp
  end.

Definition MessageDateLabel (timestamp : text) : text :=
  match MessageDate timestamp with
  | None => if text_eq timestamp (Some "昨天") || String.prefix "周" (default "" timestamp) then timestamp else Some "今天"
  | Some date =>
      let '(year, month, day) := date in
      let '(this_year, _, _) := q_today in
      if decide (date = q_today) then Some "今天"
      else if decide (date = q_yesterday) then Some "昨天"
      else if year =? this_year then Some (to_string month +:+ "月" +:+ to_string day +:+ "日")
      else Some (to_string year +:+ "年" +:+ to_string month +:+ "月" +:+ to_string day +:+ "日")
  end.

Inductive MessageRoles :=
  | ClientMessageIdRole | MessageIdRole | ConversationSeqRole | SenderIdRole | BodyRole | TimestampRole | SourceIndexRole
  | DateLabelRole | ShowDateSeparatorRole | ShowUnreadSeparatorRole | OutgoingRole | DeliveryStateRole.
#[export] Instance MessageRoles_eq_dec : EqDecision MessageRoles.
Proof. solve_decision. Defined.

(** [QString] comparison does not tell null from empty. *)
Definition new_date (records : list MessageRecord) (row : nat) (record : MessageRecord) : bool :=
  match row with
  | O => true
  | S previous =>
      match records !! previous with
      | Some p => negb (text_eq (MessageDateLabel (mr_timestamp p)) (MessageDateLabel (mr_timestamp record)))
      | None => true
      end
  end.

Definition message_data (m : MessageListModel) (row : nat) (role : MessageRoles) : QVariant :=
  match ml_records m !! row with
  | None => Invalid
  | Some record =>
      match role with
      | ClientMessageIdRole => QInt (mr_clientMessageId record)
      | MessageIdRole => optional (mr_messageId record)
      | ConversationSeqRole => optional (mr_conversationSeq record)
      | SenderIdRole => QText (mr_senderId record)
      | BodyRole => QText (mr_body record)
      | TimestampRole => QText (MessageTimeText (mr_timestamp record))
      | SourceIndexRole => QInt (Z.of_nat row)
      | DateLabelRole => QText (MessageDateLabel (mr_timestamp record))
      | ShowDateSeparatorRole => QBool (new_date (ml_records m) row record)
      | ShowUnreadSeparatorRole => QBool (Z.of_nat row =? ml_unread_separator_index m)
      | OutgoingRole => QBool (mr_outgoing record)
      | DeliveryStateRole => QText (Some (DeliveryStateName (mr_deliveryState record)))
      end
  end.

Definition message_model : ListModel MessageListModel MessageRoles := {|
  rowCount m := length (ml_records m);
  data := message_data |}.
#[export] Existing Instance message_model.

Definition message_role_names : list (MessageRoles * string) :=
  [(ClientMessageIdRole, "clientMessageId"); (MessageIdRole, "messageId"); (ConversationSeqRole, "conversationSeq");
   (SenderIdRole, "senderId"); (BodyRole, "body"); (TimestampRole, "timestamp"); (SourceIndexRole, "sourceIndex");
   (DateLabelRole, "dateLabel"); (ShowDateSeparatorRole, "showDateSeparator"); (ShowUnreadSeparatorRole, "showUnreadSeparator");
   (OutgoingRole, "outgoing"); (DeliveryStateRole, "deliveryState")].

Inductive message_op :=
  | MessagesSet (records : list MessageRecord) (unreadCount : Z)
  | MessageAppended (record : MessageRecord)
  | MessageState (clientMessageId : Z) (state : MessageDeliveryState).

Definition message_signals (op : message_op) (m : MessageListModel) : MessageListModel * list (signal MessageRoles) :=
  match op with
  | MessagesSet records unread => (MessageList.SetRecords records unread m, [ModelReset])
  | MessageAppended record => (MessageList.Append record m, [RowsInserted (length (ml_records m)) 1])
  | MessageState id state =>
      let '(ok, m') := MessageList.UpdateDeliveryState id state m in
      (m', if ok then changed (first_row_of (fun r => mr_clientMessageId r =? id) (ml_records m)) [DeliveryStateRole] else [])
  end.

Definition message_view (op : message_op) (mv : MessageListModel * list (MessageRoles -> QVariant)) :=
  let '(m, signals) := message_signals op mv.1 in
  (m, foldl (fun v s => receive m s v) mv.2 signals).

Lemma update_state_found id state records :
  match list_find (fun r => (mr_clientMessageId r =? id) = true) records with
  | Some (row, r) =>
      MessageList.update_state id state records =
        (if CanTransition (mr_deliveryState r) state then (true, <[row := MessageList.with_state state r]> records)
         else (false, records)) /\ records !! row = Some r
  | None => MessageList.update_state id state records = (false, records)
  end.
Proof.
  induction records as [|r records IH]; [done|]. simpl. destruct (mr_clientMessageId r =? id) eqn:E; simpl.
  - split; [|done]. by destruct (CanTransition _ _).
  - destruct (list_find _ records) as [[row x]|]; simpl; [|by rewrite IH].
    destruct IH as [-> ?]. split; [|done]. by destruct (CanTransition _ _).
Qed.

(** The state of a message shows in one role of one row. *)
Lemma state_data row r state m i role :
  ml_records m !! row = Some r -> ~ (i = row /\ role ∈ [DeliveryStateRole]) ->
  message_data (mkMessageList (<[row := MessageList.with_state state r]> (ml_records m)) (ml_unread_separator_index m)) i role =
  message_data m i role.
Proof.
  intros Hr Hn. set (records' := <[row := _]> (ml_records m)).
  assert (forall j, (mr_timestamp <$> records' !! j) = (mr_timestamp <$> ml_records m !! j)) as Ht.
  { intros j. unfold records'. destruct (decide (row = j)) as [<-|Hne]; [|by rewrite list_lookup_insert_ne].
    rewrite list_lookup_insert_eq by (by eapply lookup_lt_Some). by rewrite Hr. }
  assert (forall x y, mr_timestamp x = mr_timestamp y -> new_date records' i x = new_date (ml_records m) i y) as Hd.
  { intros x y E. destruct i as [|j]; [done|]. simpl. specialize (Ht j).
    destruct (records' !! j), (ml_records m !! j); simpl in Ht; try done. injection Ht as Ht. by rewrite E, Ht. }
  unfold message_data. cbn [ml_records ml_unread_separator_index]. destruct (decide (row = i)) as [<-|Hne].
  - unfold records' at 1. rewrite list_lookup_insert_eq by (by eapply lookup_lt_Some). rewrite Hr.
    destruct role; try done; [f_equal; by apply Hd|]. exfalso. apply Hn. split; [done|set_solver].
  - unfold records' at 1. rewrite list_lookup_insert_ne by done. destruct (ml_records m !! i) as [x|]; [|done].
    destruct role; try done. f_equal. by apply Hd.
Qed.

(** The view of a conversation is always right, as long as the day lasts. *)
Theorem message_view_shows ops m v :
  shows (fun _ => True) v m ->
  let '(m', v') := foldl (fun mv op => message_view op mv) (m, v) ops in shows (fun _ => True) v' m'.
Proof.
  revert m v. induction ops as [|op ops IH]; intros m v Hv; [done|]. cbn [foldl].
  assert (shows (fun _ => True) (message_view op (m, v)).2 (message_view op (m, v)).1) as Hs.
  { unfold message_view. cbn [fst snd]. destruct op as [rs n|r|id state]; cbn [message_signals].
    - apply shows_reset.
    - cbn [fst snd foldl]. apply (shows_inserted _ v m); [done|done|simpl; by rewrite length_app| |].
      + intros row role Hlt _. simpl. unfold message_data. simpl. rewrite lookup_app_l by done.
        destruct (ml_records m !! row) as [x|]; [|done]. destruct role; try done. f_equal.
        destruct row as [|row]; [done|]. simpl. by rewrite lookup_app_l by lia.
      + intros row role Hge _. simpl. unfold message_data. simpl. rewrite !lookup_ge_None_2; [done|simpl in Hge; lia|].
        rewrite length_app. simpl in *. lia.
    - unfold MessageList.UpdateDeliveryState, first_row_of. pose proof (update_state_found id state (ml_records m)) as Hf.
      destruct (list_find _ (ml_records m)) as [[row r]|].
      + destruct Hf as [-> Hr]. destruct (CanTransition _ _); cbn [fst snd foldl fmap option_fmap option_map changed].
        * apply (shows_changed _ v m); [done|simpl; by rewrite length_insert|]. intros i role _ Hn.
          by apply state_data.
        * by destruct m.
      + rewrite Hf. cbn [fst snd foldl]. by destruct m. }
  destruct (message_view op (m, v)) as [m1 v1]. by apply IH.
Qed.
End Messages.

(** ** Samples *)
Module Shown.

Definition chat_with (id : string) : ConversationRecord := mkConversationRecord id (Some id) None None None None 0 false false false.
Definition both : list ConversationRecord := [chat_with "a"; chat_with "b"].
Definition first_view : list (ConversationRole -> QVariant) := receive both ModelReset [].

Lemma conversation_view_shows_witness :
  let '(records', v') := foldl (fun mv op => conversation_view op mv) (both, first_view)
    [ConversationPrepended (chat_with "c"); UnreadSet "b" 3; PinToggled 1] in
  shows (fun role => role <> CSourceIndexRole) v' records'.
Proof.
  apply (conversation_view_shows (fun role => role <> CSourceIndexRole)
    [ConversationPrepended (chat_with "c"); UnreadSet "b" 3; PinToggled 1] both first_view);
    [by intros ? ? ->|apply shows_reset].
Defined.

(** The row of "a" acts on the conversation in front of it. *)
Example misled :
  let '(records', v') := conversation_view (ConversationPrepended (chat_with "c")) (both, first_view) in
  (fun cell => (cell ConversationIdRole, cell CSourceIndexRole)) <$> v' !! 1%nat = Some (QText (Some "a"), QInt 0) /\
  cr_conversationId <$> ConversationList.RecordAt 0 records' = Some "c".
Proof. by vm_compute. Qed.

(** A reader of dates that knows two days. *)
Definition calendar (today yesterday : QDate) : Qt := {|
  q_size t := Z.of_nat (String.length (default "" t));
  q_left t n := Some (String.substring 0 (Z.to_nat n) (default "" t));
  q_mid t i n := Some (String.substring (Z.to_nat i) (Z.to_nat n) (default "" t));
  q_date t := if text_eq t (Some "2026-03-01") then Some (2026, 3, 1) else None;
  q_today := today; q_yesterday := yesterday |}.

(** At midnight the label of a message changes and nothing tells the view. *)
Example midnight :
  @MessageDateLabel (calendar (2026, 3, 1) (2026, 2, 28)) (Some "2026-03-01 23:59:00") = Some "今天" /\
  @MessageDateLabel (calendar (2026, 3, 2) (2026, 3, 1)) (Some "2026-03-01 23:59:00") = Some "昨天".
Proof. by vm_compute. Qed.
End Shown.
