(* ===== verification/Sqlite.v ===== *)
(** * The client's local repository

    [src/client/src/adapters/sqlite/SqliteClientRepository.cc]: conversations,
    messages, the outbox and the synchronisation cursors in SQLite.  The tables
    are maps; a statement checks the constraints of the schema, may fail, and may
    make SQLite roll the open transaction back, as a schedule says; a [COMMIT]
    that fails leaves the transaction open, and a [BEGIN] inside one fails.
    The texts of errors and the directory of the file are left out. *)

From S2P Require Import Prelude Snapshot.

(** ** States of delivery as numbers *)

Definition DeliveryStateValue (state : MessageDeliveryState) : Z :=
  match state with
  | PendingLocal => 0 | WaitingAccept => 1 | Accepted => 2 | Delivered => 3 | Read => 4 | Unknown => 5
  | RetryableFailed => 6 | PermanentFailed => 7
  end.

Definition DeliveryStateFromValue (value : Z) : MessageDeliveryState :=
  match value with
  | 0 => PendingLocal | 1 => WaitingAccept | 2 => Accepted | 3 => Delivered | 4 => Read | 5 => Unknown
  | 6 => RetryableFailed | 7 => PermanentFailed | _ => Unknown
  end.

(** ** Rows *)

Record conversation_row := mkConversationRow {
  cv_title : string; cv_preview : string; cv_timestamp : string; cv_avatar_color : string;
  cv_remote_conversation_id : option Z; cv_unread_count : Z; cv_pinned : bool; cv_muted : bool; cv_online : bool;
  cv_draft_text : string; cv_sort_order : Z }.

Record message_row := mkMessageRow {
  ms_client_message_id : Z; ms_message_id : option Z; ms_conversation_id : string; ms_conversation_seq : option Z;
  ms_sender_id : string; ms_body : string; ms_timestamp : string; ms_outgoing : bool; ms_delivery_state : Z }.

Record outbox_row := mkOutboxRow { ob_created_at : Z; ob_attempt_count : Z }.

Record contact_row := mkContactRow {
  co_display_name : string; co_status_text : string; co_avatar_color : string; co_online : bool; co_favorite : bool }.

Record request_row := mkRequestRow {
  rq_display_name : string; rq_message : string; rq_avatar_color : string; rq_kind : string; rq_status : string;
  rq_local_order : Z }.

(** The schema: [PRAGMA user_version], the tables and indexes that exist, whether
    [conversations] has the column [remote_conversation_id]. *)
Record schema := mkSchema { sc_version : Z; sc_tables : gset string; sc_indexes : gset string; sc_remote : bool }.
Definition no_schema : schema := mkSchema 0 ∅ ∅ false.

(** Messages by [local_order], whose next value is [t_next_order]; the cursor of
    [sync_state] with the time of its last change. *)
Record tables := mkTables {
  t_conversations : gmap string conversation_row; t_messages : gmap Z message_row; t_outbox : gmap Z outbox_row;
  t_sync_state : gmap string (Z * Z); t_contacts : gmap string contact_row; t_requests : gmap string request_row;
  t_next_order : Z; t_schema : schema }.

Definition no_tables : tables := mkTables ∅ ∅ ∅ ∅ ∅ ∅ 1 no_schema.

Definition put_conversations x t := mkTables x (t_messages t) (t_outbox t) (t_sync_state t) (t_contacts t) (t_requests t) (t_next_order t) (t_schema t).
Definition put_messages x t := mkTables (t_conversations t) x (t_outbox t) (t_sync_state t) (t_contacts t) (t_requests t) (t_next_order t) (t_schema t).
Definition put_outbox x t := mkTables (t_conversations t) (t_messages t) x (t_sync_state t) (t_contacts t) (t_requests t) (t_next_order t) (t_schema t).
Definition put_sync_state x t := mkTables (t_conversations t) (t_messages t) (t_outbox t) x (t_contacts t) (t_requests t) (t_next_order t) (t_schema t).
Definition put_contacts x t := mkTables (t_conversations t) (t_messages t) (t_outbox t) (t_sync_state t) x (t_requests t) (t_next_order t) (t_schema t).
Definition put_requests x t := mkTables (t_conversations t) (t_messages t) (t_outbox t) (t_sync_state t) (t_contacts t) x (t_next_order t) (t_schema t).
Definition put_next_order x t := mkTables (t_conversations t) (t_messages t) (t_outbox t) (t_sync_state t) (t_contacts t) (t_requests t) x (t_schema t).
Definition put_schema x t := mkTables (t_conversations t) (t_messages t) (t_outbox t) (t_sync_state t) (t_contacts t) (t_requests t) (t_next_order t) x.

(** ** The connection *)

(** How the n-th statement fares: it runs, it fails, or it fails and SQLite
    rolls the open transaction back. *)
Inductive sql_outcome := SqlRuns | SqlFails | SqlAborts.
#[export] Instance sql_outcome_eq_dec : EqDecision sql_outcome.
Proof. solve_decision. Defined.
Class SqliteFaults := sql_at : nat -> sql_outcome.
(** [strftime('%s','now')] in the n-th statement. *)
Class SqliteClock := sql_now : nat -> Z.
(** The order of rows that no [ORDER BY] decides: any order. *)
Class RowOrder := {
  scan : forall {A}, gmap string A -> list (string * A);
  scan_rows : forall A (m : gmap string A), Permutation (scan m) (map_to_list m) }.

(** The tables, what the file holds while a transaction is open, the number of
    statements, [ready_] with the validity of the connection. *)
Record repository := mkRepository { r_tables : tables; r_saved : option tables; r_steps : nat; r_ready : bool }.

Abbreviation Repository := (State repository).

(** What is in the file: a transaction that is open is lost with the process. *)
Definition persisted (r : repository) : tables := default (r_tables r) (r_saved r).

Definition IsReady : Repository bool := reads r_ready.

Section Statements.
Context `{SqliteFaults}.

Definition undone (r : repository) : repository := mkRepository (persisted r) None (r_steps r) (r_ready r).
Definition step (r : repository) : repository := mkRepository (r_tables r) (r_saved r) (S (r_steps r)) (r_ready r).

(** [query.exec()] of a statement; [None] is a violated constraint. *)
Definition exec {A} (f : tables -> option (A * tables)) : Repository (option A) := fun r =>
  match sql_at (r_steps r) with
  | SqlRuns =>
      match f (r_tables r) with
      | Some (a, t) => (Some a, step (mkRepository t (r_saved r) (r_steps r) (r_ready r)))
      | None => (None, step r)
      end
  | SqlFails => (None, step r)
  | SqlAborts => (None, step (undone r))
  end.

Definition execute (f : tables -> option tables) : Repository bool :=
  let! o := exec (fun t => pair tt <$> f t) in pure (bool_decide (is_Some o)).

Definition transaction : Repository bool := fun r =>
  match sql_at (r_steps r), r_saved r with
  | SqlRuns, None => (true, step (mkRepository (r_tables r) (Some (r_tables r)) (r_steps r) (r_ready r)))
  | SqlAborts, _ => (false, step (undone r))
  | _, _ => (false, step r)
  end.

Definition commit : Repository bool := fun r =>
  match sql_at (r_steps r), r_saved r with
  | SqlRuns, Some _ => (true, step (mkRepository (r_tables r) None (r_steps r) (r_ready r)))
  | SqlAborts, _ => (false, step (undone r))
  | _, _ => (false, step r)
  end.

(** [ROLLBACK] ends the transaction whatever it returns. *)
Definition rollback : Repository unit := fun r => (tt, step (undone r)).
End Statements.

(** ** Statements on the tables *)

(** A column that is [NOT NULL]. *)
Definition not_null (texts : list text) : bool := forallb (fun t => bool_decide (is_Some t)) texts.
Abbreviation str t := (default "" t).

(** [UNIQUE] columns, where null values differ from each other. *)
Definition clash (m n : message_row) : bool :=
  (ms_client_message_id m =? ms_client_message_id n) ||
  match ms_message_id m, ms_message_id n with Some i, Some j => i =? j | _, _ => false end ||
  match ms_conversation_seq m, ms_conversation_seq n with
  | Some i, Some j => bool_decide (ms_conversation_id m = ms_conversation_id n) && (i =? j)
  | _, _ => false
  end.

Definition some_row {K A} `{Countable K} (P : K -> A -> bool) (m : gmap K A) : bool :=
  bool_decide (first_row P m <> None).

Definition row_of (conversationId : string) (m : MessageRecord) : message_row :=
  mkMessageRow (mr_clientMessageId m) (mr_messageId m) conversationId (mr_conversationSeq m) (str (mr_senderId m))
    (str (mr_body m)) (str (mr_timestamp m)) (mr_outgoing m) (DeliveryStateValue (mr_deliveryState m)).

(** [INSERT INTO messages]: with [OR IGNORE] a row that violates [NOT NULL] or
    [UNIQUE] is left out. *)
Definition insert_message (conversationId : string) (m : MessageRecord) (ignoreDuplicate : bool) (t : tables)
  : option tables :=
  let row := row_of conversationId m in
  if negb (not_null [mr_senderId m; mr_body m; mr_timestamp m]) || some_row (fun _ => clash row) (t_messages t)
  then (if ignoreDuplicate then Some t else None)
  else match t_conversations t !! conversationId with
       | None => None
       | Some _ => Some (put_next_order (t_next_order t + 1)
                           (put_messages (<[t_next_order t := row]> (t_messages t)) t))
       end.

(** [INSERT INTO outbox]: the key refers to a message. *)
Definition insert_outbox (clientMessageId now : Z) (t : tables) : option tables :=
  if bool_decide (is_Some (t_outbox t !! clientMessageId)) ||
     negb (some_row (fun _ m => ms_client_message_id m =? clientMessageId) (t_messages t))
  then None else Some (put_outbox (<[clientMessageId := mkOutboxRow now 0]> (t_outbox t)) t).

(** [UPDATE conversations SET ... WHERE conversation_id = ?] with [f]. *)
Definition update_conversation (conversationId : string) (f : conversation_row -> conversation_row) (t : tables) : tables :=
  put_conversations (alter f conversationId (t_conversations t)) t.

Definition set_last (body timestamp : text) (t : tables) (conversationId : string) : option tables :=
  if bool_decide (is_Some (t_conversations t !! conversationId)) && negb (not_null [body; timestamp]) then None
  else Some (update_conversation conversationId (fun c =>
    mkConversationRow (cv_title c) (str body) (str timestamp) (cv_avatar_color c) (cv_remote_conversation_id c)
      (cv_unread_count c) (cv_pinned c) (cv_muted c) (cv_online c) (cv_draft_text c) (cv_sort_order c)) t).

Definition set_state (state : Z) (m : message_row) : message_row :=
  mkMessageRow (ms_client_message_id m) (ms_message_id m) (ms_conversation_id m) (ms_conversation_seq m)
    (ms_sender_id m) (ms_body m) (ms_timestamp m) (ms_outgoing m) state.

(** [UPDATE messages SET delivery_state = ? WHERE client_message_id = ?] *)
Definition update_messages (clientMessageId : Z) (f : message_row -> message_row) (t : tables) : tables :=
  put_messages ((fun m => if ms_client_message_id m =? clientMessageId then f m else m) <$> t_messages t) t.

Definition set_accepted (messageId conversationSeq : Z) (m : message_row) : message_row :=
  mkMessageRow (ms_client_message_id m) (Some messageId) (ms_conversation_id m) (Some conversationSeq)
    (ms_sender_id m) (ms_body m) (ms_timestamp m) (ms_outgoing m) (DeliveryStateValue Accepted).

(** The update of [AcceptOutgoing] is refused when another row has the message
    id, or the sequence in that conversation. *)
Definition update_accepted (clientMessageId messageId conversationSeq : Z) (t : tables) : option tables :=
  let changed m := ms_client_message_id m =? clientMessageId in
  if some_row (fun _ m => changed m &&
       some_row (fun _ n => negb (changed n) && clash (set_accepted messageId conversationSeq m) n) (t_messages t))
       (t_messages t)
  then None else Some (update_messages clientMessageId (set_accepted messageId conversationSeq) t).

Definition delete_outbox (clientMessageId : Z) (t : tables) : tables :=
  put_outbox (delete clientMessageId (t_outbox t)) t.

Definition cursor_scope (conversationId : string) : string := "conversation:" +:+ conversationId.

(** The two upserts of a cursor. *)
Definition max_cursor (conversationId : string) (cursor now : Z) (t : tables) : tables :=
  let cursor := match t_sync_state t !! cursor_scope conversationId with
                | Some (old, _) => Z.max old cursor
                | None => cursor
                end in
  put_sync_state (<[cursor_scope conversationId := (cursor, now)]> (t_sync_state t)) t.

Definition raise_cursor (conversationId : string) (cursor now : Z) (t : tables) : tables :=
  match t_sync_state t !! cursor_scope conversationId with
  | Some (old, _) => if old <=? cursor
                     then put_sync_state (<[cursor_scope conversationId := (cursor, now)]> (t_sync_state t)) t else t
  | None => put_sync_state (<[cursor_scope conversationId := (cursor, now)]> (t_sync_state t)) t
  end.

(** [COALESCE(MIN(sort_order), 0) - 1] *)
Definition first_sort_order (t : tables) : Z :=
  match (fun kv => cv_sort_order kv.2) <$> map_to_list (t_conversations t) with
  | [] => -1
  | o :: os => foldr Z.min o os - 1
  end.

(** The partial unique index on [remote_conversation_id]. *)
Definition remote_taken (conversationId : string) (remote : option Z) (t : tables) : bool :=
  match remote with
  | None => false
  | Some i => some_row (fun k c => negb (bool_decide (k = conversationId)) &&
                                   bool_decide (cv_remote_conversation_id c = Some i)) (t_conversations t)
  end.

(** [INSERT INTO conversations ... ON CONFLICT(conversation_id) DO UPDATE] *)
Definition upsert_conversation (c : ConversationRecord) (t : tables) : option tables :=
  let id := cr_conversationId c in
  let old := t_conversations t !! id in
  let remote := match cr_remoteConversationId c with
                | Some i => Some i
                | None => old ≫= cv_remote_conversation_id
                end in
  if remote_taken id remote t then None
  else
    let row := mkConversationRow (str (cr_title c)) (str (cr_preview c)) (str (cr_timestamp c))
                 (default "#315FD6" (cr_avatarColor c)) remote (cr_unreadCount c) (cr_pinned c) (cr_muted c) (cr_online c)
                 (match old with Some o => cv_draft_text o | None => "" end)
                 (match old with Some o => cv_sort_order o | None => first_sort_order t end) in
    Some (put_conversations (<[id := row]> (t_conversations t)) t).

(** [INSERT INTO conversations] of a snapshot. *)
Definition insert_conversation (c : ConversationRecord) (sortOrder : Z) (t : tables) : option tables :=
  let id := cr_conversationId c in
  if bool_decide (is_Some (t_conversations t !! id)) || remote_taken id (cr_remoteConversationId c) t ||
     negb (not_null [cr_title c; cr_preview c; cr_timestamp c; cr_avatarColor c]) then None
  else Some (put_conversations (<[id := mkConversationRow (str (cr_title c)) (str (cr_preview c)) (str (cr_timestamp c))
         (str (cr_avatarColor c)) (cr_remoteConversationId c) (cr_unreadCount c) (cr_pinned c) (cr_muted c) (cr_online c)
         "" sortOrder]> (t_conversations t)) t).

Definition insert_contact (c : ContactRecord) (t : tables) : option tables :=
  if bool_decide (is_Some (t_contacts t !! ct_userId c)) ||
     negb (not_null [ct_displayName c; ct_statusText c; ct_avatarColor c]) then None
  else Some (put_contacts (<[ct_userId c := mkContactRow (str (ct_displayName c)) (str (ct_statusText c))
         (str (ct_avatarColor c)) (ct_online c) (ct_favorite c)]> (t_contacts t)) t).

Definition insert_request (r : RequestRecord) (order : Z) (t : tables) : option tables :=
  if bool_decide (is_Some (t_requests t !! rr_requestId r)) ||
     negb (not_null [rr_displayName r; rr_message r; rr_avatarColor r; rr_kind r; rr_status r]) then None
  else Some (put_requests (<[rr_requestId r := mkRequestRow (str (rr_displayName r)) (str (rr_message r))
         (str (rr_avatarColor r)) (str (rr_kind r)) (str (rr_status r)) order]> (t_requests t)) t).

(** ** Operations *)

Section Operations.
Context `{SqliteFaults} `{SqliteClock}.

(** [strftime('%s','now')] in the statement that comes next. *)
Definition now : Repository Z := reads (fun r => sql_now (r_steps r)).

Definition undo_and_fail : Repository bool := do! rollback in pure false.

(** A statement of a transaction: when it fails the transaction is rolled back. *)
Definition or_rollback (ok : bool) (rest : Repository bool) : Repository bool :=
  if ok then rest else undo_and_fail.

(** [!IsReady() || !database_.transaction()] *)
Definition begin (body : Repository bool) : Repository bool :=
  let! ready := IsReady in
  if negb ready then pure false
  else
    let! began := transaction in
    if negb began then pure false else body.

(** The last statement of a transaction with its [COMMIT], rolled back together. *)
Definition finish (ok : bool) : Repository bool :=
  if negb ok then undo_and_fail
  else
    let! committed := commit in
    if negb committed then undo_and_fail else pure true.

Definition InsertMessage (conversationId : string) (message : MessageRecord) (ignoreDuplicate : bool) : Repository bool :=
  execute (insert_message conversationId message ignoreDuplicate).

Definition EnqueueOutgoing (conversationId : string) (message : MessageRecord) : Repository bool :=
  begin (
    let! inserted := InsertMessage conversationId message false in
    or_rollback inserted (
      let! n := now in
      let! queued := execute (insert_outbox (mr_clientMessageId message) n) in
      or_rollback queued (
        let! updated := execute (fun t => set_last (mr_body message) (mr_timestamp message) t conversationId) in
        finish updated))).

(** The states in which a message leaves the outbox. *)
Definition final (state : MessageDeliveryState) : bool :=
  match state with Accepted | Delivered | Read | PermanentFailed => true | _ => false end.

(** A [COMMIT] that fails is not rolled back. *)
Definition UpdateDeliveryState (clientMessageId : Z) (state : MessageDeliveryState) : Repository bool :=
  begin (
    let! updated := execute (fun t =>
      Some (update_messages clientMessageId (set_state (DeliveryStateValue state)) t)) in
    or_rollback updated (
      let! deleted := (if final state then execute (fun t => Some (delete_outbox clientMessageId t)) else pure true) in
      or_rollback deleted commit)).

Definition AcceptOutgoing (clientMessageId messageId : Z) (conversationId : string) (conversationSeq : Z)
  : Repository bool :=
  begin (
    let! updated := execute (update_accepted clientMessageId messageId conversationSeq) in
    or_rollback updated (
      let! n := now in
      let! moved := execute (fun t => Some (max_cursor conversationId conversationSeq n t)) in
      or_rollback moved (
        let! deleted := execute (fun t => Some (delete_outbox clientMessageId t)) in
        finish deleted))).

Definition StoreDraft (conversationId : string) (draft : text) : Repository bool :=
  execute (fun t =>
    if bool_decide (is_Some (t_conversations t !! conversationId)) && negb (not_null [draft]) then None
    else Some (update_conversation conversationId (fun c =>
      mkConversationRow (cv_title c) (cv_preview c) (cv_timestamp c) (cv_avatar_color c) (cv_remote_conversation_id c)
        (cv_unread_count c) (cv_pinned c) (cv_muted c) (cv_online c) (str draft) (cv_sort_order c)) t)).

Definition SaveConversation (conversation : ConversationRecord) : Repository bool :=
  let! ready := IsReady in
  if negb ready then pure false else execute (upsert_conversation conversation).

(** True when one row was changed. *)
Definition SetRemoteConversationId (conversationId : string) (remoteConversationId : Z) : Repository bool :=
  let! affected := exec (fun t =>
    let found := bool_decide (is_Some (t_conversations t !! conversationId)) in
    if found && remote_taken conversationId (Some remoteConversationId) t then None
    else Some (found, update_conversation conversationId (fun c =>
      mkConversationRow (cv_title c) (cv_preview c) (cv_timestamp c) (cv_avatar_color c) (Some remoteConversationId)
        (cv_unread_count c) (cv_pinned c) (cv_muted c) (cv_online c) (cv_draft_text c) (cv_sort_order c)) t)) in
  pure (default false affected).

(** Statements one after another, until one fails. *)
Fixpoint insert_all (statements : list (tables -> option tables)) : Repository bool :=
  match statements with
  | [] => pure true
  | statement :: statements =>
      let! ok := execute statement in
      if (ok : bool) then insert_all statements else pure false
  end.

Definition ReplaceContacts (contacts : list ContactRecord) : Repository bool :=
  begin (
    let! cleared := execute (fun t => Some (put_contacts ∅ t)) in
    or_rollback cleared (
      let! inserted := insert_all (insert_contact <$> contacts) in
      or_rollback inserted commit)).

Definition ReplaceRequests (requests : list RequestRecord) : Repository bool :=
  begin (
    let! cleared := execute (fun t => Some (put_requests ∅ t)) in
    or_rollback cleared (
      let! inserted := insert_all (imap (fun i r => insert_request r (Z.of_nat i)) requests) in
      or_rollback inserted commit)).

Definition ApplyIncomingBatch (conversationId : string) (messages : list MessageRecord) (nextCursor : Z)
  : Repository bool :=
  begin (
    let! inserted := insert_all ((fun m => insert_message conversationId m true) <$> messages) in
    or_rollback inserted (
      let! n := now in
      let! moved := execute (fun t => Some (raise_cursor conversationId nextCursor n t)) in
      finish moved)).

Definition SyncCursor (conversationId : string) : Repository Z :=
  let! cursor := exec (fun t => Some (t_sync_state t !! cursor_scope conversationId, t)) in
  pure (match cursor with Some (Some (c, _)) => c | _ => 0 end).

Definition OutboxCount : Repository Z :=
  let! count := exec (fun t => Some (Z.of_nat (size (t_outbox t)), t)) in
  pure (default (-1) count).

(** ** Reading everything *)

Definition record_of (m : message_row) : MessageRecord :=
  mkMessageRecord (ms_client_message_id m) (ms_message_id m) (ms_conversation_seq m) (Some (ms_sender_id m))
    (Some (ms_body m)) (Some (ms_timestamp m)) (ms_outgoing m) (DeliveryStateFromValue (ms_delivery_state m)).

(** Rows by [local_order]. *)
Definition by_order (a b : Z * message_row) : Prop := a.1 <= b.1.
#[export] Instance by_order_dec a b : Decision (by_order a b).
Proof. unfold by_order. apply _. Defined.
Definition in_order (t : tables) : list (Z * message_row) := merge_sort by_order (map_to_list (t_messages t)).

(** [messagesByConversation[id].push_back(...)] *)
Definition push_back (snapshot : gmap string (list MessageRecord)) (m : message_row) : gmap string (list MessageRecord) :=
  <[ms_conversation_id m := default [] (snapshot !! ms_conversation_id m) ++ [record_of m]]> snapshot.

Definition conversation_before (a b : string * conversation_row) : Prop :=
  if cv_pinned a.2 then (if cv_pinned b.2 then cv_sort_order a.2 <= cv_sort_order b.2 else True)
  else (if cv_pinned b.2 then False else cv_sort_order a.2 <= cv_sort_order b.2).
#[export] Instance conversation_before_dec a b : Decision (conversation_before a b).
Proof. unfold conversation_before. repeat case_match; apply _. Defined.

(** [display_name] has the collation BINARY. *)
Definition contact_before (a b : string * contact_row) : Prop :=
  if co_favorite a.2 then (if co_favorite b.2 then String.leb (co_display_name a.2) (co_display_name b.2) = true else True)
  else (if co_favorite b.2 then False else String.leb (co_display_name a.2) (co_display_name b.2) = true).
#[export] Instance contact_before_dec a b : Decision (contact_before a b).
Proof. unfold contact_before. repeat case_match; apply _. Defined.

Definition request_before (a b : string * request_row) : Prop := rq_local_order a.2 <= rq_local_order b.2.
#[export] Instance request_before_dec a b : Decision (request_before a b).
Proof. unfold request_before. apply _. Defined.

Context `{RowOrder}.

(** The query of the conversations decides; the others are left out when they fail. *)
Definition LoadScenario (name : string) : Repository ClientSnapshot :=
  let! ready := IsReady in
  if negb ready then pure (mkSnapshot "local-sqlite" "storage-error" [] ∅ [] [] ∅)
  else
    let! conversations := exec (fun t => Some (merge_sort conversation_before (scan (t_conversations t)), t)) in
    match conversations with
    | None => pure (mkSnapshot "local-sqlite" "offline-cached" [] ∅ [] [] ∅)
    | Some rows =>
        let! messages := exec (fun t => Some (in_order t, t)) in
        let! contacts := exec (fun t => Some (merge_sort contact_before (scan (t_contacts t)), t)) in
        let! requests := exec (fun t => Some (merge_sort request_before (scan (t_requests t)), t)) in
        pure (mkSnapshot "local-sqlite" "offline-cached"
          ((fun kv : string * conversation_row => let '(k, c) := kv in
             mkConversationRecord k (Some (cv_title c)) (Some (cv_preview c)) (Some (cv_timestamp c))
               (Some (cv_avatar_color c)) (cv_remote_conversation_id c) (cv_unread_count c) (cv_pinned c) (cv_muted c)
               (cv_online c)) <$> rows)
          (foldl push_back ∅ (snd <$> default [] messages))
          ((fun kv : string * contact_row => let '(k, c) := kv in
             mkContactRecord k (Some (co_display_name c)) (Some (co_status_text c)) (Some (co_avatar_color c))
               (co_online c) (co_favorite c)) <$> default [] contacts)
          ((fun kv : string * request_row => let '(k, r) := kv in
             mkRequestRecord k (Some (rq_display_name r)) (Some (rq_message r)) (Some (rq_avatar_color r))
               (Some (rq_kind r)) (Some (rq_status r))) <$> default [] requests)
          (list_to_map ((fun kv => (kv.1, cv_draft_text kv.2)) <$> rows)))
    end.
End Operations.

(** ** Opening *)

(** A statement that changes the schema. *)
Inductive ddl :=
  | CreateTable (name : string)
  | CreateIndex (name table : string)
  | AddRemoteColumn
  | CreateRemoteIndex.

Definition kCurrentSchemaVersion : Z := 3.

(** Two conversations with one remote id. *)
Definition remote_repeats (t : tables) : bool :=
  some_row (fun k c => remote_taken k (cv_remote_conversation_id c) t) (t_conversations t).

Definition add_index (name : string) (s : schema) : schema :=
  mkSchema (sc_version s) (sc_tables s) ({[name]} ∪ sc_indexes s) (sc_remote s).

(** With [IF NOT EXISTS] wherever the source has it. *)
Definition run_ddl (d : ddl) (t : tables) : option tables :=
  let s := t_schema t in
  match d with
  | CreateTable name =>
      Some (put_schema (mkSchema (sc_version s) ({[name]} ∪ sc_tables s) (sc_indexes s) (sc_remote s)) t)
  | CreateIndex name table =>
      if bool_decide (name ∈ sc_indexes s) then Some t
      else if bool_decide (table ∈ sc_tables s) then Some (put_schema (add_index name s) t) else None
  | AddRemoteColumn =>
      if bool_decide ("conversations" ∈ sc_tables s) && negb (sc_remote s)
      then Some (put_schema (mkSchema (sc_version s) (sc_tables s) (sc_indexes s) true) t) else None
  | CreateRemoteIndex =>
      if bool_decide ("idx_conversations_remote_id" ∈ sc_indexes s) then Some t
      else if bool_decide ("conversations" ∈ sc_tables s) && sc_remote s && negb (remote_repeats t)
      then Some (put_schema (add_index "idx_conversations_remote_id" s) t) else None
  end.

Definition set_version (version : Z) (t : tables) : tables :=
  let s := t_schema t in put_schema (mkSchema version (sc_tables s) (sc_indexes s) (sc_remote s)) t.

Definition versionOneStatements : list ddl :=
  CreateTable <$> ["conversations"; "messages"; "outbox"; "sync_state"; "contacts"; "requests"].
Definition versionTwoStatements : list ddl :=
  [CreateIndex "idx_messages_conversation_local_order" "messages"; CreateIndex "idx_outbox_retry" "outbox";
   CreateIndex "idx_conversations_sort" "conversations"].
Definition versionThreeStatements (column_exists : bool) : list ddl :=
  (if column_exists then [] else [AddRemoteColumn]) ++ [CreateRemoteIndex].

Section Opening.
Context `{SqliteFaults} `{SqliteClock}.

Definition ColumnExists : Repository bool :=
  let! found := exec (fun t => Some (sc_remote (t_schema t), t)) in pure (default false found).

Definition applyMigration (targetVersion : Z) (statements : list ddl) : Repository bool :=
  let! ok := insert_all (run_ddl <$> statements) in
  if negb ok then pure false else execute (fun t => Some (set_version targetVersion t)).

(** One of the three steps, and the rest when it is done or not needed. *)
Definition migrate_to (target schemaVersion : Z) (statements : list ddl) (rest : Repository bool) : Repository bool :=
  if schemaVersion <? target then
    let! ok := applyMigration target statements in or_rollback ok rest
  else rest.

Definition Migrate : Repository bool :=
  let! version := exec (fun t => Some (sc_version (t_schema t), t)) in
  match version with
  | None => pure false
  | Some schemaVersion =>
      if (schemaVersion <? 0) || (kCurrentSchemaVersion <? schemaVersion) then pure false
      else
        let! began := transaction in
        if negb began then pure false
        else
          let! column_exists := ColumnExists in
          migrate_to 1 schemaVersion versionOneStatements (
          migrate_to 2 schemaVersion versionTwoStatements (
          migrate_to 3 schemaVersion (versionThreeStatements column_exists) commit))
  end.

(** The statements of a snapshot, in order. *)
Definition snapshot_statements (s : ClientSnapshot) : list (tables -> option tables) :=
  concat (imap (fun i c =>
    insert_conversation c (Z.of_nat i) ::
    ((fun m => insert_message (cr_conversationId c) m false) <$>
       default [] (sn_messagesByConversation s !! cr_conversationId c))) (sn_conversations s)) ++
  (insert_contact <$> sn_contacts s) ++
  imap (fun i r => insert_request r (Z.of_nat i)) (sn_requests s).

Definition InsertSnapshot (s : ClientSnapshot) : Repository bool := insert_all (snapshot_statements s).

(** [normal] is the scenario of that name of [FakeScenarioRepository]. *)
Definition SeedIfEmpty (normal : ClientSnapshot) : Repository bool :=
  let! count := exec (fun t => Some (size (t_conversations t), t)) in
  match count with
  | None => pure false
  | Some (S _) => pure true
  | Some O =>
      let! began := transaction in
      if negb began then pure false
      else
        let! inserted := InsertSnapshot normal in
        or_rollback inserted commit
  end.

Definition set_ready (ready : bool) : Repository unit :=
  writes (fun r => mkRepository (r_tables r) (r_saved r) (r_steps r) ready).

(** [Open] from the three pragmas on; [seed] is the snapshot to seed with. *)
Definition Open (seed : option ClientSnapshot) : Repository bool :=
  let! foreign_keys := execute Some in
  if negb foreign_keys then pure false
  else
    let! journal_mode := execute Some in
    if negb journal_mode then pure false
    else
      let! busy_timeout := execute Some in
      if negb busy_timeout then pure false
      else
        let! migrated := Migrate in
        let! ready := (if negb migrated then pure false
                       else match seed with None => pure true | Some normal => SeedIfEmpty normal end) in
        do! set_ready ready in pure ready.

(** A process that opens the file another one left. *)
Definition reopened (r : repository) : repository := mkRepository (persisted r) None (r_steps r) false.
End Opening.
