(* ===== verification/Repository.v ===== *)
(** * The client's local repository: what it keeps

    Theorems about file Sqlite: each operation happens in the file as a whole or
    not at all, the tables stay well formed, cursors only grow, a batch may be
    applied again, a message that is queued is read back. *)

From S2P Require Import Prelude Const Packet Redis Store Mysql Messages Ledger History Sync Snapshot Sqlite.

(** ** Statements inside a transaction *)

Section Transactions.
Context `{SqliteFaults} `{SqliteClock}.

Definition inside (t0 t : tables) (b : bool) (r : repository) : Prop :=
  r_saved r = Some t0 /\ r_tables r = t /\ r_ready r = b.

(** What a failed transaction leaves before it is rolled back. *)
Definition spoiled (t0 : tables) (b : bool) (r : repository) : Prop := persisted r = t0 /\ r_ready r = b.

Lemma inside_spoiled t0 t b r : inside t0 t b r -> spoiled t0 b r.
Proof. intros (E & _ & R). unfold spoiled, persisted. by rewrite E. Qed.

Lemma undo_spoiled t0 b r : spoiled t0 b r ->
  let '(ok, r') := undo_and_fail r in ok = false /\ r_tables r' = t0 /\ r_saved r' = None /\ r_ready r' = b.
Proof. by intros [<- <-]. Qed.

Lemma statement_then (Q : bool * repository -> Prop) f (rest : bool -> Repository bool) t0 t b r :
  inside t0 t b r -> rest false = undo_and_fail ->
  (forall r', spoiled t0 b r' -> Q (undo_and_fail r')) ->
  (forall t' r', f t = Some t' -> inside t0 t' b r' -> Q (rest true r')) ->
  Q ((let! ok := execute f in rest ok) r).
Proof.
  intros Hi H0' Hf Hk. pose proof Hi as (E & <- & R). unfold seq_bind at 1, execute, seq_bind, exec, pure.
  destruct (sql_at (r_steps r)).
  - destruct (f (r_tables r)) as [t'|] eqn:Ef; simpl.
    + by apply (Hk t').
    + rewrite H0'. apply Hf. by apply (inside_spoiled t0 (r_tables r)).
  - simpl. rewrite H0'. apply Hf. by apply (inside_spoiled t0 (r_tables r)).
  - simpl. rewrite H0'. apply Hf. split; [|done]. unfold persisted. simpl. unfold persisted. by rewrite E.
Qed.

(** The same for a list of statements. *)
Fixpoint all_effects (statements : list (tables -> option tables)) (t : tables) : option tables :=
  match statements with
  | [] => Some t
  | f :: statements => f t ≫= all_effects statements
  end.

Lemma insert_all_spec fs t0 t b r :
  inside t0 t b r ->
  let '(ok, r') := insert_all fs r in
  if ok then exists t', all_effects fs t = Some t' /\ inside t0 t' b r' else spoiled t0 b r'.
Proof.
  revert t r. induction fs as [|f fs IH]; intros t r Hi; simpl; [by exists t|].
  pose proof Hi as (E & <- & R). unfold seq_bind at 1, execute, seq_bind, exec, pure.
  destruct (sql_at (r_steps r)).
  - destruct (f (r_tables r)) as [t'|] eqn:Ef; simpl; [by apply IH|by apply (inside_spoiled t0 (r_tables r))].
  - by apply (inside_spoiled t0 (r_tables r)).
  - simpl. split; [|done]. unfold persisted. simpl. unfold persisted. by rewrite E.
Qed.

Lemma inserts_then (Q : bool * repository -> Prop) fs (rest : Repository bool) t0 t b r :
  inside t0 t b r ->
  (forall r', spoiled t0 b r' -> Q (undo_and_fail r')) ->
  (forall t' r', all_effects fs t = Some t' -> inside t0 t' b r' -> Q (rest r')) ->
  Q ((let! ok := insert_all fs in or_rollback ok rest) r).
Proof.
  intros Hi Hf Hk. unfold seq_bind. pose proof (insert_all_spec fs t0 t b r Hi) as Hs.
  destruct (insert_all fs r) as [[] r']; simpl; [|by apply Hf]. destruct Hs as (t' & Ef & Hi'). by apply (Hk t').
Qed.

Lemma now_then (Q : bool * repository -> Prop) (rest : Z -> Repository bool) r :
  (forall n, Q (rest n r)) -> Q ((let! n := now in rest n) r).
Proof. intros Hk. apply Hk. Qed.

(** ** Outcomes of an operation *)

(** With a transaction left open by an earlier failure nothing reaches the file;
    [leaves] says that the operation itself may leave one open. *)
Inductive outcome_of (E : tables -> tables -> Prop) (leaves : bool) (r r' : repository) : bool -> Prop :=
  | Done : r_saved r = None -> r_saved r' = None -> E (r_tables r) (r_tables r') -> outcome_of E leaves r r' true
  | NotDone : r_saved r = None -> r_saved r' = None -> r_tables r' = r_tables r -> outcome_of E leaves r r' false
  | Left : leaves = true -> r_saved r = None -> r_saved r' = Some (r_tables r) ->
      E (r_tables r) (r_tables r') -> outcome_of E leaves r r' false
  | Blocked t : r_saved r = Some t -> r_saved r' = Some t -> r_tables r' = r_tables r -> outcome_of E leaves r r' false
  | Cleared t : r_saved r = Some t -> r_saved r' = None -> r_tables r' = t -> (exists k, sql_at k = SqlAborts) ->
      outcome_of E leaves r r' false.

Definition runs (E : tables -> tables -> Prop) (leaves : bool) (r : repository) (p : bool * repository) : Prop :=
  r_ready p.2 = r_ready r /\ outcome_of E leaves r p.2 p.1.

Lemma begin_spec E leaves r body :
  (forall r', r_saved r = None -> inside (r_tables r) (r_tables r) (r_ready r) r' -> runs E leaves r (body r')) ->
  runs E leaves r (begin body r).
Proof.
  intros Hb. unfold begin, seq_bind, IsReady, reads, pure. destruct (r_ready r) eqn:R; simpl.
  2:{ split; [done|]. destruct (r_saved r) eqn:E'; [by eapply Blocked|by apply NotDone]. }
  unfold transaction. destruct (sql_at (r_steps r)) eqn:F, (r_saved r) eqn:E'; simpl.
  - split; [done|]. by eapply Blocked.
  - by apply Hb.
  - split; [done|]. by eapply Blocked.
  - split; [done|]. by apply NotDone.
  - split; [done|]. eapply Cleared; [done|done| |by eexists]. simpl. unfold persisted. by rewrite E'.
  - split; [done|]. apply NotDone; [done|done|]. simpl. unfold persisted. by rewrite E'.
Qed.

Lemma fail_runs E leaves r r' :
  r_saved r = None -> spoiled (r_tables r) (r_ready r) r' -> runs E leaves r (undo_and_fail r').
Proof.
  intros Hs Hp. apply undo_spoiled in Hp. destruct (undo_and_fail r') as [ok r2]. destruct Hp as (-> & E1 & E2 & E3).
  split; [done|]. by apply NotDone.
Qed.

(** The two ways to end. *)
Lemma commit_runs E r t r' :
  r_saved r = None -> inside (r_tables r) t (r_ready r) r' -> E (r_tables r) t -> runs E true r (commit r').
Proof.
  intros Hs (E1 & E2 & E3) Et. unfold commit. rewrite E1. destruct (sql_at (r_steps r')); (split; [done|]).
  - apply Done; [done|done|]. simpl. by rewrite E2.
  - apply Left; [done|done|done|]. simpl. by rewrite E2.
  - apply NotDone; [done|done|]. simpl. unfold persisted. by rewrite E1.
Qed.

Lemma finish_runs E leaves r t r' f :
  r_saved r = None -> inside (r_tables r) t (r_ready r) r' -> (forall t', f t = Some t' -> E (r_tables r) t') ->
  runs E leaves r ((let! ok := execute f in finish ok) r').
Proof.
  intros Hs Hi Et. set (Q := runs E leaves r).
  assert (forall r2, spoiled (r_tables r) (r_ready r) r2 -> Q (undo_and_fail r2)) as Hfail by (intros; by apply fail_runs).
  assert (forall r2 t', inside (r_tables r) t' (r_ready r) r2 -> f t = Some t' ->
    Q ((let! committed := commit in if negb committed then undo_and_fail else pure true) r2)) as Hend.
  { intros r2 t' (E1 & E2 & E3) Ef. unfold seq_bind, commit. rewrite E1. destruct (sql_at (r_steps r2)); simpl.
    - split; [done|]. apply Done; [done|done|]. simpl. rewrite E2. by apply Et.
    - apply Hfail. split; [|done]. unfold persisted. simpl. by rewrite E1.
    - apply Hfail. split; [|done]. unfold persisted. simpl. unfold persisted. by rewrite E1. }
  eapply statement_then; [exact Hi|done|exact Hfail|]. intros t' r2 Ef Hi2. by apply (Hend r2 t').
Qed.

(** An operation of one statement. *)
Lemma execute_spec E r :
  let '(ok, r') := execute E r in
  r_ready r' = r_ready r /\
  (ok = true /\ r_saved r' = r_saved r /\ E (r_tables r) = Some (r_tables r') \/
   ok = false /\ r_saved r' = r_saved r /\ r_tables r' = r_tables r \/
   ok = false /\ r_saved r' = None /\ r_tables r' = persisted r /\ exists k, sql_at k = SqlAborts).
Proof.
  unfold execute, seq_bind, exec, pure. destruct (sql_at (r_steps r)) eqn:F.
  - destruct (E (r_tables r)) as [t'|] eqn:Ef; simpl; (split; [done|]); auto.
  - simpl. split; [done|]. auto.
  - simpl. split; [done|]. right. right. split; [done|]. split; [done|]. split; [done|]. by eexists.
Qed.

(** ** Operations and their effects *)

Inductive operation :=
  | OpEnqueue (conversationId : string) (message : MessageRecord)
  | OpUpdate (clientMessageId : Z) (state : MessageDeliveryState)
  | OpAccept (clientMessageId messageId : Z) (conversationId : string) (conversationSeq : Z)
  | OpDraft (conversationId : string) (draft : text)
  | OpSave (conversation : ConversationRecord)
  | OpRemote (conversationId : string) (remoteConversationId : Z)
  | OpContacts (contacts : list ContactRecord)
  | OpRequests (requests : list RequestRecord)
  | OpIncoming (conversationId : string) (messages : list MessageRecord) (nextCursor : Z).

Definition run_operation (o : operation) : Repository bool :=
  match o with
  | OpEnqueue c m => EnqueueOutgoing c m
  | OpUpdate id state => UpdateDeliveryState id state
  | OpAccept id m c q => AcceptOutgoing id m c q
  | OpDraft c d => StoreDraft c d
  | OpSave c => SaveConversation c
  | OpRemote c i => SetRemoteConversationId c i
  | OpContacts cs => ReplaceContacts cs
  | OpRequests rs => ReplaceRequests rs
  | OpIncoming c ms q => ApplyIncomingBatch c ms q
  end.

Definition run_operations (os : list operation) (r : repository) : repository :=
  foldl (fun r o => (run_operation o r).2) r os.

(** Operations that use a transaction. *)
Definition transactional (o : operation) : bool :=
  match o with OpDraft _ _ | OpSave _ | OpRemote _ _ => false | _ => true end.

(** Those whose failed [COMMIT] is not rolled back. *)
Definition leaves_open (o : operation) : bool :=
  match o with OpUpdate _ _ | OpContacts _ | OpRequests _ => true | _ => false end.

(** What an operation does to the tables, [n] being the time it is run at. *)
Definition effect_at (o : operation) (n : Z) (t : tables) : option tables :=
  match o with
  | OpEnqueue c m =>
      t ← insert_message c m false t;
      t ← insert_outbox (mr_clientMessageId m) n t;
      set_last (mr_body m) (mr_timestamp m) t c
  | OpUpdate id state =>
      let t := update_messages id (set_state (DeliveryStateValue state)) t in
      Some (if final state then delete_outbox id t else t)
  | OpAccept id m c q =>
      t ← update_accepted id m q t;
      Some (delete_outbox id (max_cursor c q n t))
  | OpDraft c d =>
      if bool_decide (is_Some (t_conversations t !! c)) && negb (not_null [d]) then None
      else Some (update_conversation c (fun x =>
        mkConversationRow (cv_title x) (cv_preview x) (cv_timestamp x) (cv_avatar_color x) (cv_remote_conversation_id x)
          (cv_unread_count x) (cv_pinned x) (cv_muted x) (cv_online x) (str d) (cv_sort_order x)) t)
  | OpSave c => upsert_conversation c t
  | OpRemote c i =>
      if remote_taken c (Some i) t then None
      else match t_conversations t !! c with
      | None => None
      | Some _ => Some (update_conversation c (fun x =>
          mkConversationRow (cv_title x) (cv_preview x) (cv_timestamp x) (cv_avatar_color x) (Some i)
            (cv_unread_count x) (cv_pinned x) (cv_muted x) (cv_online x) (cv_draft_text x) (cv_sort_order x)) t)
      end
  | OpContacts cs => all_effects (insert_contact <$> cs) (put_contacts ∅ t)
  | OpRequests rs => all_effects (imap (fun i r => insert_request r (Z.of_nat i)) rs) (put_requests ∅ t)
  | OpIncoming c ms q =>
      t ← all_effects ((fun m => insert_message c m true) <$> ms) t;
      Some (raise_cursor c q n t)
  end.
Definition effect (o : operation) (t t' : tables) : Prop := exists n, effect_at o n t = Some t'.

Lemma transactional_spec o r : transactional o = true -> runs (effect o) (leaves_open o) r (run_operation o r).
Proof.
  intros Ht. destruct o as [c m|id state|id mid c q|c d|c|c i|cs|rs|c ms q]; try done;
    (apply begin_spec; intros r1 Hs Hi1);
    match goal with |- runs ?E ?l _ _ =>
      assert (forall r2, spoiled (r_tables r) (r_ready r) r2 -> runs E l r (undo_and_fail r2)) as Hfail
        by (intros; by apply fail_runs) end.
  - unfold InsertMessage. eapply statement_then; [exact Hi1|done|exact Hfail|]. intros t2 r2 E2 Hi2.
    cbn [or_rollback]. apply now_then. intros n.
    eapply statement_then; [exact Hi2|done|exact Hfail|]. intros t3 r3 E3 Hi3. cbn [or_rollback].
    eapply finish_runs; [done|exact Hi3|]. intros t4 E4. exists n. simpl. by rewrite E2; simpl; rewrite E3.
  - eapply statement_then; [exact Hi1|done|exact Hfail|]. intros t2 r2 [= <-] Hi2. cbn [or_rollback].
    destruct (final state) eqn:Ef.
    + eapply statement_then; [exact Hi2|done|exact Hfail|]. intros t3 r3 [= <-] Hi3.
      eapply commit_runs; [done|exact Hi3|]. exists 0. simpl. by rewrite Ef.
    + eapply commit_runs; [done|exact Hi2|]. exists 0. simpl. by rewrite Ef.
  - eapply statement_then; [exact Hi1|done|exact Hfail|]. intros t2 r2 E2 Hi2.
    cbn [or_rollback]. apply now_then. intros n.
    eapply statement_then; [exact Hi2|done|exact Hfail|]. intros t3 r3 [= <-] Hi3. cbn [or_rollback].
    eapply finish_runs; [done|exact Hi3|]. intros t4 [= <-]. exists n. simpl. by rewrite E2.
  - eapply statement_then; [exact Hi1|done|exact Hfail|]. intros t2 r2 [= <-] Hi2. cbn [or_rollback].
    eapply inserts_then; [exact Hi2|exact Hfail|]. intros t3 r3 E3 Hi3.
    eapply commit_runs; [done|exact Hi3|]. by exists 0.
  - eapply statement_then; [exact Hi1|done|exact Hfail|]. intros t2 r2 [= <-] Hi2. cbn [or_rollback].
    eapply inserts_then; [exact Hi2|exact Hfail|]. intros t3 r3 E3 Hi3.
    eapply commit_runs; [done|exact Hi3|]. by exists 0.
  - eapply inserts_then; [exact Hi1|exact Hfail|]. intros t2 r2 E2 Hi2. apply now_then. intros n.
    eapply finish_runs; [done|exact Hi2|]. intros t3 [= <-]. exists n. simpl. by rewrite E2.
Qed.

(** The others are one statement each. *)
Lemma single_spec o r : transactional o = false ->
  let '(ok, r') := run_operation o r in
  r_ready r' = r_ready r /\
  (ok = true /\ r_saved r' = r_saved r /\ effect o (r_tables r) (r_tables r') \/
   ok = false /\ r_saved r' = r_saved r /\ r_tables r' = r_tables r \/
   ok = false /\ r_saved r' = None /\ r_tables r' = persisted r /\ exists k, sql_at k = SqlAborts).
Proof.
  intros Ht. destruct o as [c m|id state|id mid c q|c d|c|c i|cs|rs|c ms q]; try done; simpl.
  - unfold StoreDraft. match goal with |- context [execute ?f] => pose proof (execute_spec f r) as Hs end.
    destruct (execute _ r) as [ok r']. destruct Hs as [Hr [(-> & E & Ef)|Hs]]; (split; [done|]).
    + left. split; [done|]. split; [done|]. by exists 0.
    + right. by destruct Hs as [Hs|Hs]; [left|right].
  - unfold SaveConversation, seq_bind, IsReady, reads, pure. destruct (r_ready r) eqn:R; simpl; [|split; [congruence|by auto]].
    pose proof (execute_spec (upsert_conversation c) r) as Hs.
    destruct (execute _ r) as [ok r']. destruct Hs as [Hr [(-> & E & Ef)|Hs]]; (split; [congruence|]).
    + left. split; [done|]. split; [done|]. by exists 0.
    + right. by destruct Hs as [Hs|Hs]; [left|right].
  - unfold SetRemoteConversationId, seq_bind, exec, pure. destruct (sql_at (r_steps r)) eqn:F; [|by split; [|right; left]|].
    2:{ split; [done|]. right. right. split; [done|]. split; [done|]. split; [done|]. by eexists. }
    destruct (t_conversations (r_tables r) !! c) as [x|] eqn:Ec.
    + rewrite bool_decide_true by by eexists. rewrite andb_true_l.
      destruct (remote_taken c (Some i) (r_tables r)) eqn:Et; (split; [done|]); [by right; left|].
      left. split; [done|]. split; [done|]. exists 0. unfold effect_at. by rewrite Et, Ec.
    + rewrite bool_decide_false by by intros [? ?]. rewrite andb_false_l. split; [done|]. right. left.
      split; [done|]. split; [done|].
      unfold update_conversation. simpl. destruct (r_tables r) as [cs]. simpl in *. unfold put_conversations. simpl. f_equal.
      apply map_eq. intros k. destruct (decide (k = c)) as [->|].
      * by rewrite lookup_alter_eq, Ec.
      * by rewrite lookup_alter_ne.
Qed.
(** ** Operations are atomic *)

(** The result of an operation, and what it means.  [Unsaved]: a transaction was
    left open by an earlier operation, and the change is only in that. *)
Inductive atomic (o : operation) (r r' : repository) : bool -> Prop :=
  | Saved : r_saved r = None -> r_saved r' = None -> effect o (persisted r) (persisted r') -> atomic o r r' true
  | Unsaved : is_Some (r_saved r) -> transactional o = false -> r_saved r' = r_saved r -> persisted r' = persisted r ->
      effect o (r_tables r) (r_tables r') -> atomic o r r' true
  | Refused : persisted r' = persisted r ->
      (r_saved r = None -> is_Some (r_saved r') -> leaves_open o = true) -> atomic o r r' false.

(** C13: operations are atomic.  Whatever statements fail, when an operation of
    the local repository returns true, either it was run as one step of its
    specification [effect] on the file; or an earlier failed [COMMIT] or
    [ROLLBACK] has left a transaction open, the operation is a single statement,
    and its step was done in that transaction and not in the file.  When it
    returns false the file is as it was, and a transaction is left open only by
    the operations that can ([leaves_open]).  An operation with a transaction of
    its own never returns true while one is open. *)
Theorem repository_atomic o r :
  let '(ok, r') := run_operation o r in r_ready r' = r_ready r /\ atomic o r r' ok.
Proof.
  destruct (transactional o) eqn:Ht.
  - pose proof (transactional_spec o r Ht) as [Hr Ho]. destruct (run_operation o r) as [ok r']. simpl in *. split; [done|].
    destruct Ho as [E E' HE|E E' HE|L E E' HE|t E E' HE|t E E' HE _].
    + apply Saved; [done..|]. unfold persisted. by rewrite E, E'.
    + apply Refused; [unfold persisted; by rewrite E, E'|]. rewrite E'. by intros _ [].
    + apply Refused; [unfold persisted; by rewrite E, E'|done].
    + apply Refused; [unfold persisted; by rewrite E, E'|congruence].
    + apply Refused; [unfold persisted; by rewrite E, E'|congruence].
  - pose proof (single_spec o r Ht) as Hs. destruct (run_operation o r) as [ok r']. destruct Hs as [Hr Hs]. split; [done|].
    destruct Hs as [(-> & E & HE)|[(-> & E & HE)|(-> & E & HE & _)]].
    + destruct (r_saved r) as [t|] eqn:Es.
      * apply Unsaved; [by eexists|done|congruence|unfold persisted; by rewrite Es, E|done].
      * apply Saved; [done..|]. unfold persisted. by rewrite Es, E.
    + apply Refused; [unfold persisted; by rewrite E, HE|]. rewrite E. intros ->. by intros [].
    + apply Refused; [unfold persisted at 1; by rewrite E|]. rewrite E. by intros _ [].
Qed.

(** After the failed [COMMIT] of three operations the transaction stays open:
    nothing that follows reaches the file. *)
Theorem open_transaction_loses r t os :
  (forall k, sql_at k <> SqlAborts) -> r_saved r = Some t ->
  let r' := run_operations os r in
  r_saved r' = Some t /\ persisted r' = t /\
  (forall o, transactional o = true -> (run_operation o r').1 = false).
Proof.
  intros Hn. revert r. induction os as [|o os IH]; intros r E; simpl.
  - split; [done|]. split; [unfold persisted; by rewrite E|]. intros o Ht.
    pose proof (transactional_spec o r Ht) as [_ Ho]. destruct (run_operation o r) as [ok r'].
    destruct Ho; simpl; congruence.
  - apply IH. destruct (transactional o) eqn:Ht.
    + pose proof (transactional_spec o r Ht) as [_ Ho]. destruct (run_operation o r) as [ok r'].
      destruct Ho as [| | | |? ? ? ? [k ?]]; simpl in *; try congruence.
    + pose proof (single_spec o r Ht) as Hs. destruct (run_operation o r) as [ok r']. simpl.
      destruct Hs as [_ [(_ & Es & _)|[(_ & Es & _)|(_ & _ & _ & k & Ek)]]]; [congruence|congruence|by apply Hn in Ek].
Qed.

(** Without failures an operation is done exactly when the schema allows it. *)
Lemma exec_runs {A} (f : tables -> option (A * tables)) r : sql_at (r_steps r) = SqlRuns ->
  exec f r = match f (r_tables r) with
             | Some (a, t) => (Some a, step (mkRepository t (r_saved r) (r_steps r) (r_ready r)))
             | None => (None, step r)
             end.
Proof. intros E. unfold exec. by rewrite E. Qed.
End Transactions.

(** ** Well-formed tables *)

(** States whose message may still be in the outbox. *)
Definition unfinished (state : Z) : Prop := final (DeliveryStateFromValue state) = false.

Record tables_ok (t : tables) : Prop := {
  tk_apart : forall i j m n, t_messages t !! i = Some m -> t_messages t !! j = Some n -> i <> j -> clash m n = false;
  tk_order : forall i m, t_messages t !! i = Some m -> i < t_next_order t;
  tk_conversation : forall i m, t_messages t !! i = Some m -> is_Some (t_conversations t !! ms_conversation_id m);
  tk_outbox : forall id, is_Some (t_outbox t !! id) ->
    exists i m, t_messages t !! i = Some m /\ ms_client_message_id m = id /\ unfinished (ms_delivery_state m);
  tk_remote : forall k k' c c' i, t_conversations t !! k = Some c -> t_conversations t !! k' = Some c' ->
    cv_remote_conversation_id c = Some i -> cv_remote_conversation_id c' = Some i -> k = k' }.

Lemma DeliveryStateFromValue_Value s : DeliveryStateFromValue (DeliveryStateValue s) = s.
Proof. by destruct s. Qed.

Lemma some_row_false {K A} `{Countable K} (P : K -> A -> bool) m :
  some_row P m = false -> forall k a, m !! k = Some a -> P k a = false.
Proof. unfold some_row. intros E. rewrite bool_decide_eq_false in E. apply first_row_None. by apply dec_stable. Qed.

Lemma some_row_true {K A} `{Countable K} (P : K -> A -> bool) m :
  some_row P m = true -> exists k a, m !! k = Some a /\ P k a = true.
Proof.
  unfold some_row. rewrite bool_decide_eq_true. destruct (first_row P m) as [[k a]|] eqn:E; [|done].
  intros _. apply first_row_Some in E. eauto.
Qed.

Lemma some_row_intro {K A} `{Countable K} (P : K -> A -> bool) m k a :
  m !! k = Some a -> P k a = true -> some_row P m = true.
Proof.
  intros E EP. unfold some_row. apply bool_decide_true. rewrite first_row_None. intros Hn. specialize (Hn k a E). congruence.
Qed.

Lemma clash_sym m n : clash m n = clash n m.
Proof.
  unfold clash. rewrite (Z.eqb_sym (ms_client_message_id m)). f_equal; [f_equal|].
  - destruct (ms_message_id m), (ms_message_id n); try done. apply Z.eqb_sym.
  - destruct (ms_conversation_seq m), (ms_conversation_seq n); try done. rewrite Z.eqb_sym. f_equal.
    apply bool_decide_ext. split; congruence.
Qed.

Lemma clash_id m n : clash m n = false -> ms_client_message_id m <> ms_client_message_id n.
Proof. unfold clash. intros E Hn. rewrite Hn, Z.eqb_refl in E. done. Qed.

(** What [INSERT INTO messages] does. *)
Inductive inserted (c : string) (m : MessageRecord) (ignore : bool) (t t' : tables) : Prop :=
  | Left_out : ignore = true -> t' = t -> inserted c m ignore t t'
  | Added : not_null [mr_senderId m; mr_body m; mr_timestamp m] = true ->
      (forall i n, t_messages t !! i = Some n -> clash (row_of c m) n = false) -> is_Some (t_conversations t !! c) ->
      t' = put_next_order (t_next_order t + 1) (put_messages (<[t_next_order t := row_of c m]> (t_messages t)) t) ->
      inserted c m ignore t t'.

Lemma insert_message_inserted c m b t t' : insert_message c m b t = Some t' -> inserted c m b t t'.
Proof.
  unfold insert_message. destruct (negb _ || _) eqn:E.
  - destruct b; [|done]. intros [= <-]. by left.
  - apply orb_false_iff in E as [E1 E2]. rewrite negb_false_iff in E1. destruct (t_conversations t !! c) eqn:Ec; [|done].
    intros [= <-]. right; [done| |by eexists|done]. by apply (some_row_false _ _ E2).
Qed.

Lemma inserted_ok c m b t t' : inserted c m b t t' -> tables_ok t -> tables_ok t'.
Proof.
  intros [_ ->|_ Hc Hcv ->] Hok; [done|]. destruct Hok as [Ha Ho Hv Hb Hr].
  assert (t_messages t !! t_next_order t = None) as Hfresh.
  { destruct (t_messages t !! t_next_order t) eqn:E; [|done]. apply Ho in E. lia. }
  split; simpl; [| | | |done].
  - intros i j m1 m2 E1 E2 Hij. apply lookup_insert_Some in E1 as [[<- <-]|[? E1]], E2 as [[<- <-]|[? E2]].
    + done.
    + by apply (Hc j).
    + rewrite clash_sym. by apply (Hc i).
    + by apply (Ha i j).
  - intros i n E. apply lookup_insert_Some in E as [[<- <-]|[? E]]; [lia|]. apply Ho in E. lia.
  - intros i n E. apply lookup_insert_Some in E as [[<- <-]|[? E]]; [done|]. by apply Hv in E.
  - intros id Hid. destruct (Hb id Hid) as (i & n & En & E1 & E2). exists i, n. split; [|done].
    rewrite lookup_insert_ne; [done|]. congruence.
Qed.

(** Lists of statements keep what each keeps. *)
Lemma all_effects_keep (P : tables -> Prop) fs t t' :
  Forall (fun f => forall t t', f t = Some t' -> P t -> P t') fs -> all_effects fs t = Some t' -> P t -> P t'.
Proof.
  intros Hf. revert t. induction Hf as [|f fs Hf Hfs IH]; intros t; simpl; [by intros [= <-]|].
  destruct (f t) as [t1|] eqn:E; [|done]. simpl. intros Ha Ht. apply (IH t1 Ha). by apply (Hf t).
Qed.

(** Tables that differ where the invariant does not look. *)
Definition same_core (t t' : tables) : Prop :=
  t_messages t' = t_messages t /\ t_next_order t' = t_next_order t /\ t_outbox t' ⊆ t_outbox t /\
  (forall k, option_map cv_remote_conversation_id (t_conversations t' !! k) =
             option_map cv_remote_conversation_id (t_conversations t !! k)).

Lemma same_core_ok t t' : same_core t t' -> tables_ok t -> tables_ok t'.
Proof.
  intros (Em & Eo & Eb & Ec) [Ha Ho Hv Hb Hr]. split; rewrite ?Em, ?Eo; [done|done| | |].
  - intros i m E. apply Hv in E as [c E]. specialize (Ec (ms_conversation_id m)). rewrite E in Ec.
    destruct (t_conversations t' !! ms_conversation_id m); [by eexists|done].
  - intros id [o E]. apply Hb. exists o. by eapply lookup_weaken.
  - assert (forall k c i, t_conversations t' !! k = Some c -> cv_remote_conversation_id c = Some i ->
      exists c0, t_conversations t !! k = Some c0 /\ cv_remote_conversation_id c0 = Some i) as Hc.
    { intros k c i E Ei. specialize (Ec k). rewrite E in Ec. simpl in Ec.
      destruct (t_conversations t !! k) as [c0|]; [|done]. exists c0. split; [done|]. simpl in Ec. congruence. }
    intros k k' c c' i E E' Ei Ei'. destruct (Hc k c i E Ei) as (c0 & ? & ?), (Hc k' c' i E' Ei') as (c1 & ? & ?).
    by apply (Hr k k' c0 c1 i).
Qed.

Lemma same_core_refl t : same_core t t.
Proof. by split_and!. Qed.

Lemma update_conversation_core c f t :
  (forall x, cv_remote_conversation_id (f x) = cv_remote_conversation_id x) -> same_core t (update_conversation c f t).
Proof.
  intros Hf. split_and!; [done|done|done|]. intros k. simpl. destruct (decide (k = c)) as [->|].
  - rewrite lookup_alter_eq. destruct (t_conversations t !! c); simpl; [|done]. by rewrite Hf.
  - by rewrite lookup_alter_ne.
Qed.

Lemma set_last_core b ts c t t' : set_last b ts t c = Some t' -> same_core t t'.
Proof. unfold set_last. case_match; [done|]. intros [= <-]. by apply update_conversation_core. Qed.

Lemma delete_outbox_core id t : same_core t (delete_outbox id t).
Proof. split_and!; [done|done| |done]. apply delete_subseteq. Qed.

Lemma max_cursor_core c q n t : same_core t (max_cursor c q n t).
Proof. by split_and!. Qed.

Lemma raise_cursor_core c q n t : same_core t (raise_cursor c q n t).
Proof. unfold raise_cursor. repeat case_match; by split_and!. Qed.

Lemma insert_contact_core c t t' : insert_contact c t = Some t' -> same_core t t'.
Proof. unfold insert_contact. case_match; [done|]. intros [= <-]. by split_and!. Qed.

Lemma insert_request_core r i t t' : insert_request r i t = Some t' -> same_core t t'.
Proof. unfold insert_request. case_match; [done|]. intros [= <-]. by split_and!. Qed.

(** An update of one message keeps the tables well formed when the row stays
    apart from the others and leaves the outbox if it is finished. *)
Lemma update_messages_ok id f t :
  (forall m, ms_client_message_id (f m) = ms_client_message_id m /\ ms_conversation_id (f m) = ms_conversation_id m) ->
  (forall i j m n, t_messages t !! i = Some m -> t_messages t !! j = Some n -> i <> j ->
     ms_client_message_id m = id -> ms_client_message_id n <> id -> clash (f m) n = false) ->
  (is_Some (t_outbox t !! id) -> forall m, unfinished (ms_delivery_state (f m))) ->
  tables_ok t -> tables_ok (update_messages id f t).
Proof.
  intros Hid Hc Hu [Ha Ho Hv Hb Hr].
  assert (forall i m', t_messages (update_messages id f t) !! i = Some m' ->
    exists m, t_messages t !! i = Some m /\ m' = (if ms_client_message_id m =? id then f m else m)) as Hg.
  { intros i m' E. simpl in E. apply lookup_fmap_Some in E as (m & <- & E). eauto. }
  split; [| | | |done].
  - intros i j m' n' E E' Hij. apply Hg in E as (m & E & ->), E' as (n & E' & ->).
    pose proof (Ha i j m n E E' Hij) as Hcl. pose proof (clash_id _ _ Hcl).
    destruct (Z.eqb_spec (ms_client_message_id m) id), (Z.eqb_spec (ms_client_message_id n) id); [congruence| | |done].
    + by apply (Hc i j).
    + rewrite clash_sym. by apply (Hc j i).
  - intros i m' E. apply Hg in E as (m & E & ->). by apply Ho in E.
  - intros i m' E. apply Hg in E as (m & E & ->). apply Hv in E. case_match; [|done]. by rewrite (proj2 (Hid m)).
  - intros k Hk. destruct (Hb k Hk) as (i & m & E & Em & Eu). exists i. eexists. split; [by simpl; rewrite lookup_fmap, E|].
    destruct (Z.eqb_spec (ms_client_message_id m) id) as [E1|E1]; simpl; rewrite ?(proj1 (Hid m)); (split; [done|]); [|done].
    apply Hu. simpl in Hk. by rewrite <-E1, Em.
Qed.

Lemma insert_outbox_ok c m n t1 t2 t3 :
  insert_message c m false t1 = Some t2 -> insert_outbox (mr_clientMessageId m) n t2 = Some t3 ->
  final (mr_deliveryState m) = false -> tables_ok t2 -> tables_ok t3.
Proof.
  intros E2 E3 Hm [Ha Ho Hv Hb Hr]. apply insert_message_inserted in E2 as [|_ _ _ ->]; [done|].
  unfold insert_outbox in E3. case_match; [done|]. injection E3 as <-. split; [done|done|done| |done].
  intros id Hid. simpl in Hid. destruct (decide (id = mr_clientMessageId m)) as [->|].
  - exists (t_next_order t1), (row_of c m). simpl. rewrite lookup_insert_eq. split_and!; [done|done|].
    unfold unfinished. simpl. by rewrite DeliveryStateFromValue_Value.
  - rewrite lookup_insert_ne in Hid; [|done]. by apply Hb.
Qed.

(** A conversation with another remote id. *)
Lemma put_conversation_ok c x t :
  remote_taken c (cv_remote_conversation_id x) t = false -> tables_ok t ->
  tables_ok (put_conversations (<[c := x]> (t_conversations t)) t).
Proof.
  intros Ht [Ha Ho Hv Hb Hr].
  assert (forall k y i, k <> c -> t_conversations t !! k = Some y -> cv_remote_conversation_id y = Some i ->
    cv_remote_conversation_id x = Some i -> False) as Hn.
  { intros k y i Hk E Ei Ex. unfold remote_taken in Ht. rewrite Ex in Ht.
    pose proof (some_row_false _ _ Ht k y E) as Hf. simpl in Hf. rewrite bool_decide_false, bool_decide_true in Hf; done. }
  split; [done|done| |done|].
  - intros i m E. simpl. destruct (decide (ms_conversation_id m = c)) as [->|].
    + rewrite lookup_insert_eq. by eexists.
    + rewrite lookup_insert_ne; [|done]. by apply Hv in E.
  - intros k k' y y' i E E' Ei Ei'. simpl in *.
    apply lookup_insert_Some in E as [[<- <-]|[? E]], E' as [[<- <-]|[? E']]; [done| | |].
    + exfalso. by apply (Hn k' y' i).
    + exfalso. by apply (Hn k y i).
    + by apply (Hr k k' y y' i).
Qed.

Lemma update_state_ok id s t :
  tables_ok t ->
  tables_ok (let t := update_messages id (set_state (DeliveryStateValue s)) t in
             if final s then delete_outbox id t else t).
Proof.
  intros Hok. destruct (final s) eqn:Ef; cbv zeta.
  - change (tables_ok (update_messages id (set_state (DeliveryStateValue s)) (delete_outbox id t))).
    apply (update_messages_ok id); [done| | |apply (same_core_ok t); [apply delete_outbox_core|exact Hok]].
    + intros i j m n E E' Hij _ _. exact (tk_apart t Hok i j m n E E' Hij).
    + simpl. rewrite lookup_delete_eq. by intros [? ?].
  - apply (update_messages_ok id); [done| | |done].
    + intros i j m n E E' Hij _ _. exact (tk_apart t Hok i j m n E E' Hij).
    + intros _ m. unfold unfinished. simpl. by rewrite DeliveryStateFromValue_Value.
Qed.

Lemma accept_ok id mid q c n t t' :
  update_accepted id mid q t = Some t' -> tables_ok t -> tables_ok (delete_outbox id (max_cursor c q n t')).
Proof.
  unfold update_accepted. destruct (some_row _ _) eqn:Ec; [done|]. intros [= <-] Hok.
  apply (same_core_ok (update_messages id (set_accepted mid q) (delete_outbox id t))); [by split_and!|].
  apply (update_messages_ok id); [done| | |apply (same_core_ok t); [apply delete_outbox_core|exact Hok]].
  - intros i j m x E E' Hij Em En. pose proof (some_row_false _ _ Ec i m E) as Hf. simpl in Hf.
    rewrite (proj2 (Z.eqb_eq _ _) Em), andb_true_l in Hf. pose proof (some_row_false _ _ Hf j x E') as Hx. simpl in Hx.
    by rewrite (proj2 (Z.eqb_neq _ _) En) in Hx.
  - simpl. rewrite lookup_delete_eq. by intros [? ?].
Qed.

Lemma alter_insert_row {A} (m : gmap string A) k f a : m !! k = Some a -> alter f k m = <[k := f a]> m.
Proof.
  intros E. apply map_eq. intros j. destruct (decide (j = k)) as [->|].
  - by rewrite lookup_alter_eq, lookup_insert_eq, E.
  - by rewrite lookup_alter_ne, lookup_insert_ne.
Qed.

Lemma upsert_ok c t t' : upsert_conversation c t = Some t' -> tables_ok t -> tables_ok t'.
Proof. unfold upsert_conversation. destruct (remote_taken _ _ _) eqn:E; [done|]. intros [= <-]. by apply put_conversation_ok. Qed.

Lemma inserts_ok c b ms t t' :
  all_effects ((fun m => insert_message c m b) <$> ms) t = Some t' -> tables_ok t -> tables_ok t'.
Proof.
  apply all_effects_keep. apply Forall_fmap, Forall_true. intros m t1 t2 E. simpl in E.
  apply (inserted_ok c m b). by apply insert_message_inserted.
Qed.

Lemma keep_core fs t t' : Forall (fun f => forall t t', f t = Some t' -> same_core t t') fs ->
  all_effects fs t = Some t' -> tables_ok t -> tables_ok t'.
Proof.
  intros Hf. apply all_effects_keep. eapply Forall_impl; [exact Hf|]. intros f Hc t1 t2 E. simpl.
  apply same_core_ok. by apply Hc.
Qed.

(** The application queues messages that are not finished. *)
Definition queues_unfinished (o : operation) : Prop :=
  match o with OpEnqueue _ m => final (mr_deliveryState m) = false | _ => True end.

Lemma effect_ok o t t' : queues_unfinished o -> effect o t t' -> tables_ok t -> tables_ok t'.
Proof.
  intros Hq [n E] Hok. destruct o as [c m|id state|id mid c q|c d|c|c i|cs|rs|c ms q]; unfold effect_at in E; simpl in Hq.
  - destruct (insert_message c m false t) as [t1|] eqn:E1; [|done]. simpl in E.
    destruct (insert_outbox (mr_clientMessageId m) n t1) as [t2|] eqn:E2; [|done]. simpl in E.
    apply (same_core_ok t2); [by apply set_last_core in E|]. apply (insert_outbox_ok c m n t t1); [done|done|done|].
    apply (inserted_ok c m false t); [by apply insert_message_inserted|done].
  - injection E as <-. by apply update_state_ok.
  - destruct (update_accepted id mid q t) as [t1|] eqn:E1; [|done]. injection E as <-.
    by apply (accept_ok id mid q c n t).
  - case_match; [done|]. injection E as <-. apply (same_core_ok t); [|done]. by apply update_conversation_core.
  - by apply (upsert_ok c t).
  - destruct (remote_taken c (Some i) t) eqn:Et; [done|]. destruct (t_conversations t !! c) as [x|] eqn:Ex; [|done].
    injection E as <-. unfold update_conversation. erewrite (alter_insert_row (t_conversations t)); [|done].
    by apply put_conversation_ok.
  - refine (keep_core _ _ _ _ E _); [|by apply (same_core_ok t); [by split_and!|]].
    apply Forall_fmap, Forall_true. intros r t1 t2. apply insert_contact_core.
  - refine (keep_core _ _ _ _ E _); [|by apply (same_core_ok t); [by split_and!|]].
    apply Forall_lookup. intros k f Hf. rewrite list_lookup_imap in Hf. apply fmap_Some in Hf as (r & _ & ->).
    intros t1 t2. apply insert_request_core.
  - destruct (all_effects _ t) as [t1|] eqn:E1; [|done]. injection E as <-.
    apply (same_core_ok t1); [apply raise_cursor_core|]. by apply (inserts_ok c true ms t).
Qed.

(** The tables a repository works on and those in its file. *)
Definition repository_ok (r : repository) : Prop := tables_ok (r_tables r) /\ tables_ok (persisted r).

(** C26: the tables stay well formed.  Over any operations and any failures, in
    the working tables and in the file: no two messages share a client id, a
    message id or a place, each belongs to a conversation that exists, each row
    of the outbox has a message that is not finished, and remote ids of
    conversations are distinct. *)
Theorem repository_well_formed `{SqliteFaults} `{SqliteClock} os r :
  Forall queues_unfinished os -> repository_ok r -> repository_ok (run_operations os r).
Proof.
  intros Hos. revert r. induction Hos as [|o os Ho Hos IH]; intros r [Hok Hp]; [done|]. simpl. apply IH.
  destruct (transactional o) eqn:Ht.
  - pose proof (transactional_spec o r Ht) as [_ HO]. destruct (run_operation o r) as [ok r']. simpl in *.
    unfold repository_ok, persisted in *.
    destruct HO as [E E' HE|E E' HE|L E E' HE|t E E' HE|t E E' HE _]; rewrite ?E, ?E', ?HE in *; simpl in *;
      try (apply (effect_ok o) in HE; [|done|done]); done.
  - pose proof (single_spec o r Ht) as Hs. destruct (run_operation o r) as [ok r']. simpl.
    unfold repository_ok, persisted in *.
    destruct Hs as [_ [(_ & E & HE)|[(_ & E & HE)|(_ & E & HE & _)]]]; rewrite ?E, ?HE; simpl; [|done|done].
    apply (effect_ok o) in HE; [|done|done]. destruct (r_saved r); done.
Qed.

(** ** Cursors *)

Definition cursor_of (c : string) (t : tables) : Z :=
  match t_sync_state t !! cursor_scope c with Some (q, _) => q | None => 0 end.

(** A cursor that is stored stays, and grows. *)
Definition cursors_grow (t t' : tables) : Prop :=
  forall k q n, t_sync_state t !! k = Some (q, n) -> exists q' n', t_sync_state t' !! k = Some (q', n') /\ q <= q'.

Lemma cursors_grow_refl t t' : t_sync_state t' = t_sync_state t -> cursors_grow t t'.
Proof. intros E k q n Ek. rewrite E. exists q, n. split; [done|lia]. Qed.

Lemma cursors_grow_trans t1 t2 t3 : cursors_grow t1 t2 -> cursors_grow t2 t3 -> cursors_grow t1 t3.
Proof.
  intros H1 H2 k q n E. destruct (H1 k q n E) as (q' & n' & E' & ?). destruct (H2 k q' n' E') as (q2 & n2 & E2 & ?).
  exists q2, n2. split; [done|lia].
Qed.

Lemma put_cursor_grows t c q n :
  (forall q0 n0, t_sync_state t !! cursor_scope c = Some (q0, n0) -> q0 <= q) ->
  cursors_grow t (put_sync_state (<[cursor_scope c := (q, n)]> (t_sync_state t)) t).
Proof.
  intros Hq k q0 n0 E. simpl. destruct (decide (k = cursor_scope c)) as [->|].
  - exists q, n. rewrite lookup_insert_eq. split; [done|by apply (Hq q0 n0)].
  - exists q0, n0. rewrite lookup_insert_ne; [|done]. split; [done|lia].
Qed.

Lemma max_cursor_grows c q n t : cursors_grow t (max_cursor c q n t).
Proof. apply put_cursor_grows. intros q0 n0 E. rewrite E. lia. Qed.

Lemma raise_cursor_grows c q n t : cursors_grow t (raise_cursor c q n t).
Proof.
  unfold raise_cursor. destruct (t_sync_state t !! cursor_scope c) as [[old n0]|] eqn:E.
  - destruct (Z.leb_spec old q); [|by apply cursors_grow_refl]. apply put_cursor_grows. rewrite E. intros ? ? [= <- <-]. done.
  - apply put_cursor_grows. by rewrite E.
Qed.

Lemma all_effects_sync fs t t' : Forall (fun f => forall t t', f t = Some t' -> t_sync_state t' = t_sync_state t) fs ->
  all_effects fs t = Some t' -> t_sync_state t' = t_sync_state t.
Proof.
  intros Hf E. apply (all_effects_keep (fun t' => t_sync_state t' = t_sync_state t) fs t); [|done|done].
  eapply Forall_impl; [exact Hf|]. intros f Hfs t1 t2 E1. simpl. apply Hfs in E1. congruence.
Qed.

Lemma insert_message_sync c m b t t' : insert_message c m b t = Some t' -> t_sync_state t' = t_sync_state t.
Proof. intros E. apply insert_message_inserted in E as [_ ->|_ _ _ ->]; done. Qed.

Lemma inserts_sync c b ms t t' :
  all_effects ((fun m => insert_message c m b) <$> ms) t = Some t' -> t_sync_state t' = t_sync_state t.
Proof. apply all_effects_sync, Forall_fmap, Forall_true. intros m t1 t2. apply insert_message_sync. Qed.

Lemma effect_cursors o t t' : effect o t t' -> cursors_grow t t'.
Proof.
  intros [n E]. destruct o as [c m|id state|id mid c q|c d|c|c i|cs|rs|c ms q]; unfold effect_at in E.
  - apply cursors_grow_refl. destruct (insert_message c m false t) as [t1|] eqn:E1; [|done]. simpl in E.
    apply insert_message_sync in E1. rewrite <-E1.
    unfold insert_outbox in E. destruct (_ || _) in E; [done|]. simpl in E. unfold set_last in E. case_match; [done|].
    by injection E as <-.
  - injection E as <-. apply cursors_grow_refl. by destruct (final state).
  - destruct (update_accepted id mid q t) as [t1|] eqn:E1; [|done]. injection E as <-.
    unfold update_accepted in E1. case_match; [done|]. injection E1 as <-.
    eapply cursors_grow_trans; [by apply cursors_grow_refl|]. eapply cursors_grow_trans; [apply max_cursor_grows|].
    by apply cursors_grow_refl.
  - case_match; [done|]. injection E as <-. by apply cursors_grow_refl.
  - unfold upsert_conversation in E. case_match; [done|]. injection E as <-. by apply cursors_grow_refl.
  - repeat case_match; try done. injection E as <-. by apply cursors_grow_refl.
  - apply cursors_grow_refl. apply all_effects_sync in E; [done|]. apply Forall_fmap, Forall_true.
    intros x t1 t2. simpl. unfold insert_contact. case_match; [done|]. by intros [= <-].
  - apply cursors_grow_refl. apply all_effects_sync in E; [done|].
    apply Forall_lookup. intros k f Hf. rewrite list_lookup_imap in Hf. apply fmap_Some in Hf as (x & _ & ->).
    intros t1 t2. unfold insert_request. case_match; [done|]. by intros [= <-].
  - destruct (all_effects _ t) as [t1|] eqn:E1; [|done]. injection E as <-. apply inserts_sync in E1.
    eapply cursors_grow_trans; [by apply cursors_grow_refl, E1|]. apply raise_cursor_grows.
Qed.

(** What an operation leaves in the file. *)
Lemma persisted_step `{SqliteFaults} `{SqliteClock} o r :
  let r' := (run_operation o r).2 in
  persisted r' = persisted r \/ effect o (persisted r) (persisted r').
Proof.
  unfold persisted. destruct (transactional o) eqn:Ht.
  - pose proof (transactional_spec o r Ht) as [_ HO]. destruct (run_operation o r) as [ok r']. simpl in *.
    destruct HO as [E E' HE|E E' HE|L E E' HE|t E E' HE|t E E' HE _]; rewrite ?E, ?E', ?HE; simpl; auto.
  - pose proof (single_spec o r Ht) as Hs. destruct (run_operation o r) as [ok r']. simpl.
    destruct Hs as [_ [(_ & E & HE)|[(_ & E & HE)|(_ & E & HE & _)]]]; rewrite ?E, ?HE; simpl; [|by auto|by auto].
    destruct (r_saved r); simpl; auto.
Qed.

(** Cursors.  Over any operations and any failures the cursor of a conversation
    never falls. *)
Theorem cursors_never_fall `{SqliteFaults} `{SqliteClock} os r c q n :
  t_sync_state (persisted r) !! cursor_scope c = Some (q, n) -> q <= cursor_of c (persisted (run_operations os r)).
Proof.
  intros E.
  assert (cursors_grow (persisted r) (persisted (run_operations os r))) as Hg.
  { clear E. revert r. induction os as [|o os IH]; intros r; simpl; [by apply cursors_grow_refl|].
    eapply cursors_grow_trans; [|apply IH]. destruct (persisted_step o r) as [Hp|Hp].
    - apply cursors_grow_refl. by rewrite Hp.
    - by apply (effect_cursors o). }
  destruct (Hg _ _ _ E) as (q' & n' & E' & ?). unfold cursor_of. by rewrite E'.
Qed.

(** ** A batch applied again *)

(** Rows that [INSERT OR IGNORE] leaves out. *)
Definition ignored (c : string) (m : MessageRecord) (t : tables) : bool :=
  negb (not_null [mr_senderId m; mr_body m; mr_timestamp m]) || some_row (fun _ => clash (row_of c m)) (t_messages t).

Lemma insert_ignored c m t : ignored c m t = true -> insert_message c m true t = Some t.
Proof. unfold insert_message, ignored. by intros ->. Qed.

Lemma clash_refl m : clash m m = true.
Proof. unfold clash. by rewrite Z.eqb_refl. Qed.

Lemma ignored_kept c m c' m' t t' : tables_ok t -> insert_message c' m' true t = Some t' ->
  ignored c m t = true -> ignored c m t' = true.
Proof.
  intros Hok E. apply insert_message_inserted in E as [_ ->|_ Hc _ ->]; [done|]. unfold ignored. rewrite !orb_true_iff.
  intros [?|Hs]; [by left|]. right. apply some_row_true in Hs as (i & n & En & Ec).
  apply (some_row_intro _ _ i n); [|done]. simpl. rewrite lookup_insert_ne; [done|].
  apply (tk_order t Hok) in En. lia.
Qed.

Lemma insert_then_ignored c m t t' : insert_message c m true t = Some t' -> ignored c m t' = true.
Proof.
  unfold insert_message. fold (ignored c m t). destruct (ignored c m t) eqn:Ei; [by intros [= <-]|].
  destruct (t_conversations t !! c); [|done]. intros [= <-]. unfold ignored. apply orb_true_iff. right.
  apply (some_row_intro _ _ (t_next_order t) (row_of c m)); [apply lookup_insert_eq|apply clash_refl].
Qed.

Lemma batch_ignored c ms : forall t t', tables_ok t ->
  all_effects ((fun m => insert_message c m true) <$> ms) t = Some t' ->
  (forall m, ignored c m t = true -> ignored c m t' = true) /\ Forall (fun m => ignored c m t' = true) ms.
Proof.
  induction ms as [|m ms IH]; intros t t' Hok E; simpl in E; [injection E as <-; by split|].
  destruct (insert_message c m true t) as [t1|] eqn:E1; [|done]. simpl in E.
  assert (tables_ok t1) as Hok1 by (by apply (inserted_ok c m true t); [apply insert_message_inserted|]).
  destruct (IH t1 t' Hok1 E) as [Hk Ha]. split.
  - intros x Hx. apply Hk. by apply (ignored_kept c x c m t).
  - constructor; [|done]. apply Hk. by apply (insert_then_ignored c m t).
Qed.

Lemma all_ignored c ms t : Forall (fun m => ignored c m t = true) ms ->
  all_effects ((fun m => insert_message c m true) <$> ms) t = Some t.
Proof. induction 1 as [|m ms Hm _ IH]; simpl; [done|]. by rewrite insert_ignored. Qed.

Lemma raised c q n t : cursor_of c (raise_cursor c q n t) = match t_sync_state t !! cursor_scope c with
                                                            | Some (old, _) => Z.max old q
                                                            | None => q
                                                            end.
Proof.
  unfold raise_cursor, cursor_of. destruct (t_sync_state t !! cursor_scope c) as [[old n0]|] eqn:E.
  - destruct (Z.leb_spec old q); simpl; [rewrite lookup_insert_eq|rewrite E]; lia.
  - simpl. by rewrite lookup_insert_eq.
Qed.

(** A batch may come twice.  Applying the same messages again with the same
    cursor changes neither the messages nor the outbox nor the cursor. *)
Theorem batch_idempotent `{SqliteFaults} `{SqliteClock} c ms q r r1 r2 :
  repository_ok r -> ApplyIncomingBatch c ms q r = (true, r1) -> ApplyIncomingBatch c ms q r1 = (true, r2) ->
  t_messages (persisted r2) = t_messages (persisted r1) /\ t_outbox (persisted r2) = t_outbox (persisted r1) /\
  cursor_of c (persisted r2) = cursor_of c (persisted r1).
Proof.
  intros [Hok Hp] E1 E2.
  pose proof (transactional_spec (OpIncoming c ms q) r eq_refl) as [_ H1].
  pose proof (transactional_spec (OpIncoming c ms q) r1 eq_refl) as [_ H2]. simpl in H1, H2.
  rewrite E1 in H1. rewrite E2 in H2. unfold persisted.
  inversion H1 as [S1 S1' [n1 T1]| | | |]. inversion H2 as [S2 S2' [n2 T2]| | | |]. simpl in *. rewrite S1', S2'.
  unfold effect_at in T1, T2. simpl.
  destruct (all_effects _ (r_tables r)) as [t|] eqn:A1; [|done]. injection T1 as T1.
  destruct (batch_ignored c ms _ _ Hok A1) as [_ Hi].
  assert (t_messages (r_tables r1) = t_messages t) as Em by (rewrite <-T1; unfold raise_cursor; by repeat case_match).
  rewrite all_ignored in T2. 2:{ eapply Forall_impl; [exact Hi|]. intros m. unfold ignored. by rewrite Em. }
  injection T2 as <-. split; [|split].
  - unfold raise_cursor. by repeat case_match.
  - unfold raise_cursor. by repeat case_match.
  - rewrite raised. rewrite <-T1. rewrite raised. unfold raise_cursor. destruct (t_sync_state t !! cursor_scope c) as [[old n]|] eqn:Es.
    + destruct (Z.leb_spec old q); simpl; [rewrite lookup_insert_eq|rewrite Es]; lia.
    + simpl. rewrite lookup_insert_eq. lia.
Qed.

(** ** What is queued is read back *)

Lemma in_order_perm t : in_order t ≡ₚ map_to_list (t_messages t).
Proof. apply merge_sort_Permutation. Qed.

Lemma in_order_sorted t : StronglySorted Z.le (in_order t).*1.
Proof.
  assert (StronglySorted by_order (in_order t)) as Hs.
  { apply StronglySorted_merge_sort; [intros a b d ? ?|intros a b]; unfold by_order in *; lia. }
  induction Hs as [|x l Hs IH Hf]; simpl; constructor; [done|]. by apply Forall_fmap.
Qed.

Lemma in_order_insert t row :
  tables_ok t ->
  in_order (put_next_order (t_next_order t + 1) (put_messages (<[t_next_order t := row]> (t_messages t)) t)) =
  in_order t ++ [(t_next_order t, row)].
Proof.
  intros Hok. set (t' := put_next_order _ _).
  assert (t_messages t !! t_next_order t = None) as Hfresh.
  { destruct (t_messages t !! t_next_order t) eqn:E; [|done]. apply (tk_order t Hok) in E. lia. }
  assert (in_order t' ≡ₚ in_order t ++ [(t_next_order t, row)]) as Hp.
  { rewrite !in_order_perm. simpl. rewrite map_to_list_insert by done. by rewrite Permutation_app_comm. }
  apply (fmap_decides fst); [|done|].
  - rewrite (in_order_perm t'). apply NoDup_fst_map_to_list.
  - apply (StronglySorted_unique Z.le); [apply in_order_sorted| |by rewrite Hp].
    rewrite fmap_app. simpl. apply StronglySorted_app. split; [|split; [|repeat constructor]].
    + intros x y Hx Hy. apply list_elem_of_fmap in Hx as ([k m] & -> & Hk). apply list_elem_of_singleton in Hy as ->.
      rewrite in_order_perm, elem_of_map_to_list in Hk. simpl. apply (tk_order t Hok) in Hk. lia.
    + apply in_order_sorted.
Qed.

(** What a file holds when it is opened again: [LoadScenario] on a connection
    whose statements run. *)
Definition stored (c : string) (t : tables) : list MessageRecord :=
  default [] (foldl push_back ∅ (in_order t).*2 !! c).

Lemma stored_app c l m : foldl push_back ∅ (l ++ [m]) !! c =
  if decide (ms_conversation_id m = c) then Some (default [] (foldl push_back ∅ l !! c) ++ [record_of m])
  else foldl push_back ∅ l !! c.
Proof.
  rewrite foldl_app. simpl. unfold push_back at 1. case_decide as E.
  - rewrite E. by rewrite lookup_insert_eq.
  - by rewrite lookup_insert_ne.
Qed.

Lemma load_stored `{SqliteFaults} `{RowOrder} name r : (forall k, sql_at k = SqlRuns) -> r_ready r = true ->
  forall c, default [] (sn_messagesByConversation (LoadScenario name r).1 !! c) = stored c (r_tables r).
Proof.
  intros Hf R c. unfold LoadScenario, seq_bind, IsReady, reads, pure. rewrite R. simpl.
  unfold exec. by repeat (rewrite Hf; simpl).
Qed.

Lemma record_of_row c m : not_null [mr_senderId m; mr_body m; mr_timestamp m] = true -> record_of (row_of c m) = m.
Proof.
  destruct m as [id mid q [s|] [b|] [ts|] out st]; try done. intros _. unfold record_of, row_of. simpl.
  by rewrite DeliveryStateFromValue_Value.
Qed.

(** C29: what is queued is read back.  A message queued with success is, when
    the file is opened and loaded again, the last message of its conversation,
    exactly as it was queued, after the ones that were there; and it waits in
    the outbox. *)
Theorem queued_is_read_back `{SqliteFaults} `{SqliteClock} `{RowOrder} c m r r' r2 name :
  repository_ok r -> EnqueueOutgoing c m r = (true, r') ->
  (forall k, sql_at k = SqlRuns) -> r_tables r2 = persisted r' -> r_ready r2 = true ->
  default [] (sn_messagesByConversation (LoadScenario name r2).1 !! c) = stored c (persisted r) ++ [m] /\
  is_Some (t_outbox (persisted r') !! mr_clientMessageId m).
Proof.
  intros [Hok Hp] E Hf E2 R. rewrite load_stored by done. rewrite E2. clear E2.
  pose proof (transactional_spec (OpEnqueue c m) r eq_refl) as [_ HO]. simpl in HO. rewrite E in HO. unfold persisted.
  inversion HO as [S1 S1' [n T1]| | | |]. simpl in *. rewrite S1, S1'. simpl. unfold effect_at in T1.
  destruct (insert_message c m false (r_tables r)) as [t|] eqn:E1; [|done]. simpl in T1.
  destruct (insert_outbox (mr_clientMessageId m) n t) as [t1|] eqn:E2; [|done]. simpl in T1.
  apply insert_message_inserted in E1 as [|Hn _ _ ->]; [done|].
  unfold insert_outbox in E2. case_match; [done|]. injection E2 as <-.
  unfold set_last in T1. case_match; [done|]. injection T1 as <-. simpl. split.
  - unfold stored.
    match goal with |- context [in_order ?t'] => assert (in_order t' = in_order (put_next_order (t_next_order (r_tables r) + 1)
      (put_messages (<[t_next_order (r_tables r) := row_of c m]> (t_messages (r_tables r))) (r_tables r)))) as -> by done end.
    rewrite in_order_insert by done. rewrite fmap_app. simpl. rewrite stored_app. rewrite decide_True by done.
    simpl. by rewrite record_of_row.
  - rewrite lookup_insert_eq. by eexists.
Qed.

(** ** What an accepted message does to the cursor *)

(** The sequences the file holds in a conversation. *)
Definition holds (c : string) (q : Z) (t : tables) : Prop :=
  exists i m, t_messages t !! i = Some m /\ ms_conversation_id m = c /\ ms_conversation_seq m = Some q.

(** An accepted message moves the cursor.  After [AcceptOutgoing] a message with
    a smaller place that the file did not hold is in no page the server gives
    from the new cursor on. *)
Theorem accepted_message_hides_older `{SqliteFaults} `{SqliteClock} id mid c q place r r' :
  AcceptOutgoing id mid c q r = (true, r') -> place < q -> ~ holds c place (persisted r) ->
  ~ holds c place (persisted r') /\
  forall remote joined hi limit d im,
    im ∈ conversation_page remote (Z.max (cursor_of c (persisted r')) (joined - 1)) hi limit d -> seq_of im <> place.
Proof.
  intros E Hq Hno. pose proof (transactional_spec (OpAccept id mid c q) r eq_refl) as [_ HO]. simpl in HO. rewrite E in HO.
  inversion HO as [S1 S1' [n T1]| | | |]. simpl in *. unfold persisted in *. rewrite S1 in Hno. rewrite S1'. simpl in *.
  unfold effect_at in T1. destruct (update_accepted id mid q (r_tables r)) as [t|] eqn:E1; [|done]. injection T1 as <-.
  unfold update_accepted in E1. case_match; [done|]. injection E1 as <-. split.
  - intros (i & m & Em & Ec & Eq). apply Hno. simpl in Em. apply lookup_fmap_Some in Em as (m0 & Hm & Em).
    exists i, m0. destruct (ms_client_message_id m0 =? id); subst m; simpl in *; [|done]. injection Eq as ->. lia.
  - intros remote joined hi limit d im Him Hs.
    assert (q <= cursor_of c (delete_outbox id (max_cursor c q n (update_messages id (set_accepted mid q) (r_tables r))))) as Hc.
    { unfold cursor_of. simpl. rewrite lookup_insert_eq. simpl. destruct (t_sync_state (r_tables r) !! cursor_scope c) as [[]|]; lia. }
    unfold conversation_page in Him. apply elem_of_take in Him as (k & Hk & _). apply list_elem_of_lookup_2 in Hk.
    rewrite merge_sort_Permutation in Hk. destruct im as [k' m]. apply elem_of_rows_where in Hk as [_ Hr].
    unfold in_range in Hr. unfold seq_of in Hs. simpl in *.
    destruct (m_conversationId m), (m_conversationSeq m) as [qm|]; try done. simpl in Hs. boolp. lia.
Qed.

(** An own message that came back by synchronisation.  When another row already
    has the message id, accepting the local message fails whatever else happens,
    and leaves the file, its outbox included, as it was. *)
Theorem synced_message_never_accepted `{SqliteFaults} `{SqliteClock} id mid c q r i j m n :
  t_messages (r_tables r) !! i = Some m -> ms_client_message_id m = id ->
  t_messages (r_tables r) !! j = Some n -> ms_client_message_id n <> id -> ms_message_id n = Some mid ->
  r_saved r = None ->
  let '(ok, r') := AcceptOutgoing id mid c q r in
  ok = false /\ persisted r' = persisted r.
Proof.
  intros Em Eid En Hn Emid Es. pose proof (transactional_spec (OpAccept id mid c q) r eq_refl) as [_ HO]. simpl in HO.
  destruct (AcceptOutgoing id mid c q r) as [ok r']. simpl in HO. unfold persisted.
  assert (update_accepted id mid q (r_tables r) = None) as Hnone.
  { unfold update_accepted.
    rewrite (some_row_intro _ _ i m Em); [done|]. rewrite (proj2 (Z.eqb_eq _ _) Eid). simpl.
    apply (some_row_intro _ _ j n En). rewrite (proj2 (Z.eqb_neq _ _) Hn). simpl. unfold clash. simpl.
    rewrite Emid, Z.eqb_refl. by rewrite orb_true_r. }
  destruct HO as [S S' [k HE]|S S' HE|L S S' [k HE]|t S S' HE|t S S' HE _]; rewrite ?S, ?S', ?HE; simpl; try done.
  unfold effect_at in HE. by rewrite Hnone in HE.
Qed.

(** ** Migrations *)

Definition version (t : tables) : Z := sc_version (t_schema t).

(** Only the schema differs. *)
Definition same_rows (t t' : tables) : Prop := t' = put_schema (t_schema t') t.

Lemma same_rows_refl t : same_rows t t.
Proof. by destruct t. Qed.

Lemma same_rows_trans t1 t2 t3 : same_rows t1 t2 -> same_rows t2 t3 -> same_rows t1 t3.
Proof. unfold same_rows. intros E1 E2. rewrite E2. rewrite E1. by destruct t1. Qed.

Lemma run_ddl_rows d t t' : run_ddl d t = Some t' -> same_rows t t'.
Proof. destruct d; simpl; repeat case_match; try done; intros [= <-]; by destruct t. Qed.

Lemma ddl_rows ds t t' : all_effects (run_ddl <$> ds) t = Some t' -> same_rows t t'.
Proof.
  revert t. induction ds as [|d ds IH]; intros t; simpl; [intros [= <-]; apply same_rows_refl|].
  destruct (run_ddl d t) as [t1|] eqn:E; [|done]. simpl. intros E'. eapply same_rows_trans; [by eapply run_ddl_rows|].
  by apply IH.
Qed.

Section Migrations.
Context `{SqliteFaults} `{SqliteClock}.

(** One step of a migration that is done inside a transaction. *)
Lemma migrate_then (Q : bool * repository -> Prop) target v ds (rest : Repository bool) t0 t b r :
  inside t0 t b r ->
  (forall r', spoiled t0 b r' -> Q (undo_and_fail r')) ->
  (forall t' r', inside t0 t' b r' -> same_rows t t' -> version t' = (if v <? target then target else version t) -> Q (rest r')) ->
  Q (migrate_to target v ds rest r).
Proof.
  intros Hi Hf Hk. unfold migrate_to. destruct (v <? target) eqn:Ev; [|by apply (Hk t); [|apply same_rows_refl|]].
  unfold seq_bind at 1, applyMigration, seq_bind at 1. pose proof (insert_all_spec (run_ddl <$> ds) t0 t b r Hi) as Hs.
  destruct (insert_all (run_ddl <$> ds) r) as [[] r1]; simpl; [|by apply Hf]. destruct Hs as (t1 & E1 & Hi1).
  apply ddl_rows in E1. unfold execute, seq_bind, exec, pure. pose proof Hi1 as (Es & Et & Er).
  destruct (sql_at (r_steps r1)); simpl.
  - apply (Hk (set_version target t1)); [by rewrite Et| |done]. eapply same_rows_trans; [done|]. by destruct t1.
  - apply Hf. by apply (inside_spoiled t0 t1).
  - apply Hf. split; [|done]. unfold persisted. simpl. unfold persisted. by rewrite Es.
Qed.

(** Migrations.  Unless SQLite itself ends the transaction, [Migrate] either
    brings the schema to the current version and keeps every row, or fails and
    leaves the file as it was; a file of a newer version is refused. *)
Theorem migration_atomic r :
  (forall k, sql_at k <> SqlAborts) -> r_saved r = None ->
  let '(ok, r') := Migrate r in
  if ok then r_saved r' = None /\ same_rows (persisted r) (persisted r') /\
             0 <= version (persisted r) /\ version (persisted r') = kCurrentSchemaVersion
  else persisted r' = persisted r.
Proof.
  intros Hn Hs.
  set (Q := fun p : bool * repository => let '(ok, r') := p in
    if ok then r_saved r' = None /\ same_rows (persisted r) (persisted r') /\
               0 <= version (persisted r) /\ version (persisted r') = kCurrentSchemaVersion
    else persisted r' = persisted r).
  change (Q (Migrate r)). assert (persisted r = r_tables r) as Ep by (unfold persisted; by rewrite Hs).
  assert (forall r', spoiled (r_tables r) (r_ready r) r' -> Q (undo_and_fail r')) as Hfail.
  { intros r' Hp. apply undo_spoiled in Hp. destruct (undo_and_fail r') as [ok r2]. destruct Hp as (-> & E1 & E2 & _).
    unfold Q. rewrite Ep. unfold persisted. by rewrite E2, E1. }
  unfold Migrate, seq_bind, exec. specialize (Hn (r_steps r)) as Hn0. destruct (sql_at (r_steps r)); [|unfold pure|done].
  2:{ unfold Q, persisted. simpl. by rewrite Hs. }
  fold (version (r_tables r)). destruct (_ || _) eqn:Ev; [unfold Q, persisted, pure; simpl; by rewrite Hs|].
  apply orb_false_iff in Ev as [Ev1%Z.ltb_ge Ev2%Z.ltb_ge].
  unfold transaction at 1. simpl. rewrite Hs. specialize (Hn (S (r_steps r))) as Hn1.
  destruct (sql_at (S (r_steps r))); [|unfold Q, persisted; simpl; by rewrite ?Hs|done]. simpl.
  unfold ColumnExists, seq_bind, exec. simpl. specialize (Hn (S (S (r_steps r)))) as Hn2.
  match goal with |- Q (let '(_, _) := let '(_, _) := ?p in _ in _) =>
    assert (exists o, inside (r_tables r) (r_tables r) (r_ready r) p.2 /\ p.1 = o) as (o & Hi & _) by
      (destruct (sql_at (S (S (r_steps r)))); [by eexists|by eexists|done]);
    destruct p as [found r1]; simpl in Hi |- * end.
  eapply migrate_then; [exact Hi|exact Hfail|]. intros t1 r2 Hi1 S1 V1.
  eapply migrate_then; [exact Hi1|exact Hfail|]. intros t2 r3 Hi2 S2 V2.
  eapply migrate_then; [exact Hi2|exact Hfail|]. intros t3 r4 (Es & Et & _) S3 V3.
  unfold commit. rewrite Es. specialize (Hn (r_steps r4)). destruct (sql_at (r_steps r4)); [|unfold Q, persisted; simpl|done].
  - unfold Q, persisted. simpl. rewrite Hs, Et. simpl. split; [done|]. split; [by eauto using same_rows_trans|].
    split; [done|]. rewrite V3, V2, V1. unfold kCurrentSchemaVersion in *.
    destruct (Z.ltb_spec (version (r_tables r)) 3); [done|].
    destruct (Z.ltb_spec (version (r_tables r)) 2); [lia|]. destruct (Z.ltb_spec (version (r_tables r)) 1); lia.
  - by rewrite Es, Hs.
Qed.
End Migrations.

(** ** Samples *)

Module LocalDemo.
#[local] Instance runs_all : SqliteFaults := fun _ => SqlRuns.
#[local] Instance clock : SqliteClock := fun k => 1700000000 + Z.of_nat k.
(** The fourth statement fails. *)
Definition one_failure : SqliteFaults := fun k => if decide (k = 3)%nat then SqlFails else SqlRuns.

Definition chat : ConversationRecord := mkConversationRecord "direct:1002" (Some "Bo") None None None (Some 77) 0 false false false.
Definition mine : MessageRecord :=
  mkMessageRecord (-1000) None None (Some "1001") (Some "hello") (Some "09:30") true PendingLocal.
Definition theirs (id q : Z) : MessageRecord :=
  mkMessageRecord id (Some id) (Some q) (Some "1002") (Some "hi") (Some "09:31") false Delivered.

(** A database that was opened, with one conversation. *)
Definition empty : repository := (Open None (mkRepository no_tables None 0 false)).2.
Definition opened : repository := (SaveConversation chat empty).2.
Definition queued : repository := (EnqueueOutgoing "direct:1002" mine opened).2.
Definition synced : repository := (ApplyIncomingBatch "direct:1002" [theirs 500 4] 4 queued).2.

Lemma no_rows_ok t : t_messages t = ∅ -> t_outbox t = ∅ -> t_conversations t = ∅ -> tables_ok t.
Proof. intros Em Eb Ec. split; rewrite ?Em, ?Eb, ?Ec; try done. by intros id [? Hid]. Qed.

Lemma empty_ok : tables_ok (r_tables empty).
Proof. by apply no_rows_ok; vm_compute. Qed.

Lemma opened_saved : r_saved opened = None.
Proof. by vm_compute. Qed.

Lemma opened_ok : repository_ok opened.
Proof.
  unfold repository_ok, persisted. rewrite opened_saved.
  assert (effect (OpSave chat) (r_tables empty) (r_tables opened)) as HE by (exists 0; by vm_compute).
  split; apply (effect_ok (OpSave chat) _ _ I HE empty_ok).
Qed.

Lemma repository_well_formed_witness :
  repository_ok (run_operations [OpEnqueue "direct:1002" mine; OpIncoming "direct:1002" [theirs 500 4] 4] opened).
Proof. apply (@repository_well_formed runs_all clock); [repeat constructor|exact opened_ok]. Defined.

Lemma cursors_never_fall_witness :
  4 <= cursor_of "direct:1002" (persisted (run_operations [OpIncoming "direct:1002" [theirs 501 3] 3] synced)).
Proof.
  apply (@cursors_never_fall runs_all clock _ synced "direct:1002" 4
           (default 0 (snd <$> t_sync_state (persisted synced) !! cursor_scope "direct:1002"))).
  by vm_compute.
Defined.

Definition again : bool * repository := ApplyIncomingBatch "direct:1002" [theirs 500 4] 4 opened.

Lemma batch_idempotent_witness :
  t_messages (persisted (ApplyIncomingBatch "direct:1002" [theirs 500 4] 4 again.2).2) = t_messages (persisted again.2).
Proof.
  apply (@batch_idempotent runs_all clock "direct:1002" [theirs 500 4] 4 opened again.2);
    [exact opened_ok|by vm_compute|by vm_compute].
Defined.

#[local] Instance rows_in_order : RowOrder := { scan A m := map_to_list m; scan_rows A m := reflexivity _ }.

Lemma queued_is_read_back_witness :
  default [] (sn_messagesByConversation (LoadScenario "normal" (mkRepository (persisted queued) None 0 true)).1
              !! "direct:1002") = stored "direct:1002" (persisted opened) ++ [mine].
Proof.
  apply (@queued_is_read_back runs_all clock rows_in_order "direct:1002" mine opened queued);
    [exact opened_ok|by vm_compute|reflexivity|reflexivity|reflexivity].
Defined.

(** The message of place 4 was not received when the own one is accepted at 5. *)
Lemma accepted_message_hides_older_witness :
  let '(ok, r') := AcceptOutgoing (-1000) 501 "direct:1002" 5 queued in
  ok = true /\ ~ holds "direct:1002" 4 (persisted r').
Proof.
  pose proof (@accepted_message_hides_older runs_all clock (-1000) 501 "direct:1002" 5 4 queued
    (AcceptOutgoing (-1000) 501 "direct:1002" 5 queued).2) as Hh.
  assert ((AcceptOutgoing (-1000) 501 "direct:1002" 5 queued).1 = true) as E by (by vm_compute).
  destruct (AcceptOutgoing (-1000) 501 "direct:1002" 5 queued) as [ok r'] eqn:Er. simpl in E, Hh. subst ok. split; [done|].
  apply Hh; [reflexivity|lia|]. intros (i & m & Em & _ & Eq).
  assert (t_messages (persisted queued) = {[1 := row_of "direct:1002" mine]}) as Eq1 by (by vm_compute).
  rewrite Eq1 in Em. apply lookup_singleton_Some in Em as [_ <-]. discriminate Eq.
Defined.

(** The own message of unknown fate came back with a page before its answer. *)
Definition returned : MessageRecord :=
  mkMessageRecord 501 (Some 501) (Some 5) (Some "1001") (Some "hello") (Some "2026-01-01 09:30:00") true Accepted.
Definition mixed : repository := (ApplyIncomingBatch "direct:1002" [returned] 5 queued).2.

Lemma synced_message_never_accepted_witness :
  (AcceptOutgoing (-1000) 501 "direct:1002" 5 mixed).1 = false /\
  is_Some (t_outbox (persisted (AcceptOutgoing (-1000) 501 "direct:1002" 5 mixed).2) !! (-1000)).
Proof.
  pose proof (@synced_message_never_accepted runs_all clock (-1000) 501 "direct:1002" 5 mixed 1 2
    (row_of "direct:1002" mine) (row_of "direct:1002" returned)) as Hn.
  destruct (AcceptOutgoing (-1000) 501 "direct:1002" 5 mixed) as [ok r'].
  destruct Hn as [-> E]; [by vm_compute|reflexivity|by vm_compute|by vm_compute|reflexivity|by vm_compute|]. split; [done|]. simpl. rewrite E.
  vm_compute. eexists. reflexivity.
Defined.

Definition before : repository := mkRepository (persisted opened) None 0 true.

Lemma repository_atomic_witness :
  let '(ok, r') := @EnqueueOutgoing one_failure clock "direct:1002" mine before in
  ok = false /\ persisted r' = persisted before.
Proof.
  pose proof (@repository_atomic one_failure clock (OpEnqueue "direct:1002" mine) before) as Ha.
  cbn [run_operation] in Ha.
  assert ((@EnqueueOutgoing one_failure clock "direct:1002" mine before).1 = false) as E by (by vm_compute).
  destruct (EnqueueOutgoing _ _ _) as [ok r']. cbn in E. subst ok. split; [reflexivity|].
  destruct Ha as [_ Ha]. inversion Ha. assumption.
Defined.

Lemma migration_atomic_witness :
  version (persisted (Migrate (mkRepository no_tables None 0 false)).2) = 3.
Proof.
  pose proof (@migration_atomic runs_all (mkRepository no_tables None 0 false)) as Hm.
  assert ((Migrate (mkRepository no_tables None 0 false)).1 = true) as E by (by vm_compute).
  destruct (Migrate (mkRepository no_tables None 0 false)) as [ok r']. cbn in E. rewrite E in Hm.
  apply Hm; [discriminate|reflexivity].
Defined.
End LocalDemo.
