(* ===== verification/Ports.v ===== *)
(** * The client's repository as the application sees it

    [src/client/src/ports/IClientRepository.h]: the operations, what the base
    class does where a repository does not override them, and the SQLite
    repository as one that overrides them all. *)

From S2P Require Import Prelude Snapshot Sqlite.

(** ** The interface *)

Class IClientRepository (R : Type) := {
  ScenarioNames : R -> list string;
  port_LoadScenario : string -> State R ClientSnapshot;
  port_EnqueueOutgoing : string -> MessageRecord -> State R bool;
  port_UpdateDeliveryState : Z -> MessageDeliveryState -> State R bool;
  port_AcceptOutgoing : Z -> Z -> string -> Z -> State R bool;
  port_StoreDraft : string -> text -> State R bool;
  port_SaveConversation : ConversationRecord -> State R bool;
  port_SetRemoteConversationId : string -> Z -> State R bool;
  port_ReplaceContacts : list ContactRecord -> State R bool;
  port_ReplaceRequests : list RequestRecord -> State R bool;
  port_ApplyIncomingBatch : string -> list MessageRecord -> Z -> State R bool;
  port_SyncCursor : string -> State R Z }.

(** A repository that only has scenarios: the rest is the base class. *)
Definition base_repository {R} (names : list string) (load : string -> ClientSnapshot) : IClientRepository R := {|
  ScenarioNames _ := names;
  port_LoadScenario name := pure (load name);
  port_EnqueueOutgoing _ _ := pure true;
  port_UpdateDeliveryState _ _ := pure true;
  port_AcceptOutgoing _ _ _ _ := pure true;
  port_StoreDraft _ _ := pure true;
  port_SaveConversation _ := pure true;
  port_SetRemoteConversationId _ _ := pure true;
  port_ReplaceContacts _ := pure true;
  port_ReplaceRequests _ := pure true;
  port_ApplyIncomingBatch _ _ _ := pure true;
  port_SyncCursor _ := pure 0 |}.

(** ** The implementation in SQLite *)

Definition SqliteClientRepository `{SqliteFaults} `{SqliteClock} `{RowOrder} : IClientRepository repository := {|
  ScenarioNames _ := ["local-sqlite"];
  port_LoadScenario := LoadScenario;
  port_EnqueueOutgoing := EnqueueOutgoing;
  port_UpdateDeliveryState := UpdateDeliveryState;
  port_AcceptOutgoing := AcceptOutgoing;
  port_StoreDraft := StoreDraft;
  port_SaveConversation := SaveConversation;
  port_SetRemoteConversationId := SetRemoteConversationId;
  port_ReplaceContacts := ReplaceContacts;
  port_ReplaceRequests := ReplaceRequests;
  port_ApplyIncomingBatch := ApplyIncomingBatch;
  port_SyncCursor := SyncCursor |}.
