(* ===== verification/Scenarios.v ===== *)
(** * The demonstration scenarios, and what a seeded database gives back

    [FakeScenarioRepository]
    ([src/client/src/adapters/fake/FakeScenarioRepository.cc]): the snapshots the
    client shows without a network, one of which seeds a new database; and the
    theorem that a seeded database is read back as the snapshot. *)

From S2P Require Import Prelude Const Packet Redis Store Mysql Messages Ledger History Sync Snapshot Sqlite.
From S2P Require Import Ports Repository.

(** ** The scenarios *)

Definition Message (clientId messageId sequence : Z) (sender body timestamp : string) (outgoing : bool)
    (state : MessageDeliveryState) : MessageRecord :=
  mkMessageRecord clientId (Some messageId) (Some sequence) (Some sender) (Some body) (Some timestamp) outgoing state.

Definition scenario_names : list string :=
  ["normal"; "empty-account"; "offline-cached"; "first-bootstrap"; "dense-chat-list"; "send-lifecycle"; "send-unknown"; "sync-gap"; "auth-expired"; "friend-requests"; "group-admin"; "long-content"; "large-history"].

Definition normal_conversations : list ConversationRecord :=
  [ mkConversationRecord "alice" (Some "林晓") (Some "那我们下午把同步边界再过一遍") (Some "10:42")
       (Some "#315FD6") None 2 true false true;
    mkConversationRecord "group:4001" (Some "WIMI 设计组") (Some "周宁：深色主题的对比度已调整") (Some "09:18")
       (Some "#7656A8") None 8 true false false;
    mkConversationRecord "chen" (Some "陈屿") (Some "文档我看完了，方向没问题") (Some "昨天")
       (Some "#247B6B") None 0 false false false;
    mkConversationRecord "group:4002" (Some "服务端路线") (Some "Outbox 阶段放到同步闭环之后") (Some "周二")
       (Some "#A05A4E") None 0 false true false ].

Definition normal_contacts : list ContactRecord :=
  [ mkContactRecord "alice" (Some "林晓") (Some "在线") (Some "#315FD6") true true;
    mkContactRecord "zhou" (Some "周宁") (Some "刚刚在线") (Some "#7656A8") false true;
    mkContactRecord "chen" (Some "陈屿") (Some "昨天在线") (Some "#247B6B") false false;
    mkContactRecord "gu" (Some "顾远") (Some "在线") (Some "#A05A4E") true false;
    mkContactRecord "shen" (Some "沈予安") (Some "周一在线") (Some "#7A5AA6") false false ].

Definition normal_requests : list RequestRecord :=
  [ mkRequestRecord "request-1" (Some "陆清") (Some "你好，我在开源社区看到了 WIMI。") (Some "#367A91")
       (Some "friend") (Some "pending");
    mkRequestRecord "request-2" (Some "许舟") (Some "我是后端讨论组的许舟。") (Some "#8A653A")
       (Some "friend") (Some "accepted");
    mkRequestRecord "request-3" (Some "唐可") (Some "申请加入 WIMI 设计组") (Some "#B15474")
       (Some "group") (Some "declined") ].

Definition normal_messages : gmap string (list MessageRecord) :=
  list_to_map [
  ("alice",
    [ Message (-1) 3001 38 "alice" "Qt 6.10 的开发环境已经确认了吗？"
        "10:31" false Read;
      Message (-2) 3002 39 "me" "确认了，先把客户端骨架和响应式主界面落下来。"
        "10:33" true Read;
      Message (-3) 3003 40 "alice" "颜色就用星空蓝，但信息密度可以参考 Telegram。"
        "10:36" false Read;
      Message (-4) 3004 41 "me" "好。界面只表达领域状态，不绑定当前服务端的临时 seq 语义。"
        "10:39" true Delivered;
      Message (-5) 3005 42 "alice" "那我们下午把同步边界再过一遍。"
        "10:42" false Read ]);
  ("group:4001",
    [ Message (-10) 4001 12 "zhou" "浅色和深色主题都改成语义色，不在页面里直接写颜色。"
        "09:11" false Read;
      Message (-11) 4002 13 "me" "收到，组件只依赖 Theme 和 Tokens。"
        "09:14" true Read;
      Message (-12) 4003 14 "zhou" "深色主题的对比度已调整。"
        "09:18" false Read ]);
  ("chen",
    [ Message (-20) 5001 7 "chen" "文档我看完了，方向没问题。"
        "昨天" false Read ]);
  ("group:4002",
    [ Message (-30) 6001 21 "backend" "先完成持久幂等接受与断线同步，再扩展 Kafka 和路由层。"
        "周二" false Read ])].

Definition NormalScenario (scenarioName : string) : ClientSnapshot :=
  mkSnapshot scenarioName "online" normal_conversations normal_messages normal_contacts normal_requests ∅.

(** [%1] filled with at least two digits. *)
Definition two_digits (n : Z) : string := if n <? 10 then "0" +:+ to_string n else to_string n.

Definition dense_conversation (index : Z) : ConversationRecord :=
  mkConversationRecord ("dense-" +:+ to_string index)
    (Some ("设计讨论组 " +:+ to_string (index + 1) +:+ " · 一个较长的会话名称"))
    (Some "这是用于验证大量会话、长文本和滚动稳定性的预览。") (Some ("周" +:+ to_string (index `rem` 7 + 1)))
    (Some (if index `rem` 2 =? 0 then "#4361A8" else "#6B4CA5")) None
    (if index `rem` 5 =? 0 then 99 else index `rem` 4) (index <? 2) (index `rem` 6 =? 0) (index `rem` 3 =? 0).

Definition history_message (index : Z) : MessageRecord :=
  let outgoing := index `rem` 3 =? 0 in
  Message (-10000 - index) (100000 + index) (1000 + index) (if outgoing then "me" else "alice")
    ("历史消息 " +:+ to_string (index + 1) +:+ "：用于验证长时间线的模型装载、虚拟化和滚动稳定性。")
    (two_digits ((index `quot` 60) `rem` 24) +:+ ":" +:+ two_digits (index `rem` 60)) outgoing Read.

Definition unknown_message : MessageRecord :=
  Message (-91) 0 0 "me" "连接中断后，这条消息的结果尚未确认。" "10:44" true Unknown.

Definition failed_message : MessageRecord :=
  Message (-90) 0 0 "me" "这条消息可使用原 client_message_id 重试。" "10:43" true RetryableFailed.

Definition newline : string := String (ascii_of_nat 10) "".

Definition long_message : MessageRecord :=
  Message (-92) 3092 44 "alice"
    ("长内容检查：中文、English、emoji 🚀🌌" +:+ newline +:+ newline +:+
     "消息气泡应当换行，并保持时间与状态区域稳定。" +:+
     "ThisIsAnIntentionallyLongUnbrokenTokenForLayoutTesting") "10:45" false Read.

Definition friend_request : RequestRecord :=
  mkRequestRecord "request-4" (Some "沈予安") (Some "我们在 Qt 开发群见过。") (Some "#7A5AA6") (Some "friend") (Some "pending").

Definition group_request : RequestRecord :=
  mkRequestRecord "group-request-1" (Some "顾远") (Some "申请加入 WIMI 设计组") (Some "#315FD6") (Some "group") (Some "pending").

Definition scenario_status (name : string) : string :=
  if decide (name = "offline-cached") then "offline-cached"
  else if decide (name = "first-bootstrap") then "syncing"
  else if decide (name = "auth-expired") then "auth-expired"
  else if decide (name = "sync-gap") then "recovering-gap" else "online".

Definition more_conversations (name : string) : list ConversationRecord :=
  if decide (name = "dense-chat-list") then dense_conversation <$> seqZ 0 28 else [].

(** What is appended to the messages of alice. *)
Definition more_messages (name : string) : list MessageRecord :=
  if decide (name = "send-unknown") then [unknown_message]
  else if decide (name = "send-lifecycle") then [failed_message]
  else if decide (name = "long-content") then [long_message]
  else if decide (name = "large-history") then history_message <$> seqZ 0 2000 else [].

Definition more_requests (name : string) : list RequestRecord :=
  if decide (name = "friend-requests") then [friend_request]
  else if decide (name = "group-admin") then [group_request] else [].

Definition scenario (name : string) : ClientSnapshot :=
  if decide (name = "empty-account") then mkSnapshot name "online" [] ∅ [] [] ∅
  else
    let snapshot := NormalScenario name in
    mkSnapshot name (scenario_status name) (sn_conversations snapshot ++ more_conversations name)
      (<["alice" := default [] (sn_messagesByConversation snapshot !! "alice") ++ more_messages name]>
         (sn_messagesByConversation snapshot))
      (sn_contacts snapshot) (sn_requests snapshot ++ more_requests name) (sn_draftsByConversation snapshot).

Definition FakeScenarioRepository : IClientRepository unit := base_repository scenario_names scenario.

(** ** What the statements of a snapshot do *)

Section Seeding.
Implicit Types (t : tables) (s : ClientSnapshot).

Definition conversation_row_of (c : ConversationRecord) (order : Z) : conversation_row :=
  mkConversationRow (str (cr_title c)) (str (cr_preview c)) (str (cr_timestamp c)) (str (cr_avatarColor c))
    (cr_remoteConversationId c) (cr_unreadCount c) (cr_pinned c) (cr_muted c) (cr_online c) "" order.

Definition conversation_rows (k : nat) (cs : list ConversationRecord) : list (string * conversation_row) :=
  imap (fun i c => (cr_conversationId c, conversation_row_of c (Z.of_nat (k + i)))) cs.

Lemma conversation_rows_cons k c cs :
  conversation_rows k (c :: cs) =
    (cr_conversationId c, conversation_row_of c (Z.of_nat (k + 0))) :: conversation_rows (S k) cs.
Proof.
  unfold conversation_rows. rewrite imap_cons. f_equal. apply imap_ext. intros i x _. simpl. by rewrite Nat.add_succ_r.
Qed.

Definition complete_conversation (c : ConversationRecord) : Prop :=
  not_null [cr_title c; cr_preview c; cr_timestamp c; cr_avatarColor c] = true.

Lemma insert_conversation_inv c n t t' :
  insert_conversation c n t = Some t' ->
  t_conversations t !! cr_conversationId c = None /\ complete_conversation c /\
  t' = put_conversations (<[cr_conversationId c := conversation_row_of c n]> (t_conversations t)) t /\
  (tables_ok t -> tables_ok t').
Proof.
  unfold insert_conversation. destruct (_ || _) eqn:E; [done|]. intros [= <-].
  apply orb_false_iff in E as [[E1 E2]%orb_false_iff E3%negb_false_iff].
  apply bool_decide_eq_false, eq_None_not_Some in E1. split_and!; [done|done|done|]. intros Hok.
  by apply (put_conversation_ok _ (conversation_row_of c n)).
Qed.

(** The messages of a conversation go to it, in order. *)
Lemma insert_messages_stored c ms t t' :
  tables_ok t -> all_effects ((fun m => insert_message c m false) <$> ms) t = Some t' ->
  tables_ok t' /\ (forall x, stored x t' = stored x t ++ if decide (x = c) then ms else []) /\
  t_conversations t' = t_conversations t /\ t_contacts t' = t_contacts t /\ t_requests t' = t_requests t.
Proof.
  revert t. induction ms as [|m ms IH]; intros t Hok E.
  { injection E as <-. split_and!; [done| |done..]. intros x. case_decide; by rewrite app_nil_r. }
  simpl in E. destruct (insert_message c m false t) as [t1|] eqn:E1; [|done]. simpl in E.
  apply insert_message_inserted in E1 as Hi. pose proof (inserted_ok _ _ _ _ _ Hi Hok) as Hok1.
  destruct (IH t1 Hok1 E) as (Hok' & Hs & H1 & H2 & H3). destruct Hi as [|Hn _ _ ->]; [done|]. simpl in *.
  split_and!; [done| |done..]. intros x. rewrite Hs. unfold stored at 1. rewrite in_order_insert by done.
  rewrite fmap_app. simpl. rewrite stored_app. simpl. unfold stored. destruct (decide (x = c)) as [->|Hx].
  - rewrite decide_True by done. simpl. rewrite record_of_row by done. by rewrite <-app_assoc.
  - rewrite decide_False by congruence. done.
Qed.

Definition messages_of (s : ClientSnapshot) (x : string) : list MessageRecord :=
  default [] (sn_messagesByConversation s !! x).

Definition conversation_statements (s : ClientSnapshot) (k : nat) (cs : list ConversationRecord) :
    list (tables -> option tables) :=
  concat (imap (fun i c => insert_conversation c (Z.of_nat (k + i)) ::
    ((fun m => insert_message (cr_conversationId c) m false) <$> messages_of s (cr_conversationId c))) cs).

Lemma all_effects_app fs gs t : all_effects (fs ++ gs) t = all_effects fs t ≫= all_effects gs.
Proof. revert t. induction fs as [|f fs IH]; intros t; [done|]. simpl. destruct (f t); [apply IH|done]. Qed.

Lemma insert_conversations_stored s k cs t t' :
  tables_ok t -> all_effects (conversation_statements s k cs) t = Some t' ->
  tables_ok t' /\
  (forall x, stored x t' = stored x t ++ if decide (x ∈ cr_conversationId <$> cs) then messages_of s x else []) /\
  map_to_list (t_conversations t') ≡ₚ conversation_rows k cs ++ map_to_list (t_conversations t) /\
  Forall complete_conversation cs /\ (forall c, c ∈ cs -> t_conversations t !! cr_conversationId c = None) /\
  t_contacts t' = t_contacts t /\ t_requests t' = t_requests t.
Proof.
  revert k t. induction cs as [|c cs IH]; intros k t Hok E.
  { injection E as <-. split_and!; [done| |done|constructor| |done..].
    - intros x. rewrite decide_False by (apply not_elem_of_nil). by rewrite app_nil_r.
    - intros c Hc. by apply not_elem_of_nil in Hc. }
  unfold conversation_statements in E. rewrite imap_cons in E. cbn [concat] in E.
  change (all_effects ((insert_conversation c (Z.of_nat (k + 0)) ::
    ((fun m => insert_message (cr_conversationId c) m false) <$> messages_of s (cr_conversationId c))) ++
    concat (imap ((fun i c => insert_conversation c (Z.of_nat (k + i)) ::
    ((fun m => insert_message (cr_conversationId c) m false) <$> messages_of s (cr_conversationId c))) ∘ S) cs)) t = Some t') in E.
  replace (imap _ cs) with (imap (fun i c => insert_conversation c (Z.of_nat (S k + i)) ::
    ((fun m => insert_message (cr_conversationId c) m false) <$> messages_of s (cr_conversationId c))) cs) in E.
  2: { apply imap_ext. intros i x _. simpl. by rewrite Nat.add_succ_r. }
  fold (conversation_statements s (S k) cs) in E. rewrite all_effects_app in E. simpl in E.
  destruct (insert_conversation c (Z.of_nat (k + 0)) t) as [t1|] eqn:E1; [|done]. simpl in E.
  apply insert_conversation_inv in E1 as (Hnew & Hcc & Et1 & Hok1). specialize (Hok1 Hok).
  destruct (all_effects _ t1) as [t2|] eqn:E2; [|done]. simpl in E.
  apply insert_messages_stored in E2 as (Hok2 & Hs2 & C2 & K2 & R2); [|done].
  destruct (IH (S k) t2 Hok2 E) as (Hok' & Hs & Hm & Hc & Hn & HK & HR). rewrite Et1 in C2, K2, R2. simpl in C2, K2, R2.
  assert (cr_conversationId c ∉ cr_conversationId <$> cs) as Hnin.
  { intros (c' & Ec & Hin)%list_elem_of_fmap. specialize (Hn c' Hin). by rewrite <-Ec, C2, lookup_insert_eq in Hn. }
  split_and!; [done| | |by constructor| |congruence|congruence].
  - intros x. rewrite Hs, Hs2. assert (stored x t1 = stored x t) as -> by (by rewrite Et1). rewrite <-app_assoc. f_equal.
    rewrite fmap_cons. destruct (decide (x = cr_conversationId c)) as [->|Hx].
    + rewrite (decide_False (P := cr_conversationId c ∈ _)), decide_True by (done || constructor). by rewrite app_nil_r.
    + simpl. destruct (decide (x ∈ cr_conversationId <$> cs)); [rewrite decide_True|rewrite decide_False]; try done.
      * by constructor.
      * rewrite elem_of_cons. intros [?|?]; done.
  - rewrite Hm, C2, map_to_list_insert by done. rewrite <-Permutation_middle, conversation_rows_cons. done.
  - intros c' Hc'. apply elem_of_cons in Hc' as [->|Hc']; [done|]. specialize (Hn c' Hc'). rewrite C2 in Hn.
    by apply lookup_insert_None in Hn as [? _].
Qed.

Definition contact_entry (c : ContactRecord) : string * contact_row :=
  (ct_userId c, mkContactRow (str (ct_displayName c)) (str (ct_statusText c)) (str (ct_avatarColor c)) (ct_online c) (ct_favorite c)).

Definition complete_contact (c : ContactRecord) : Prop :=
  not_null [ct_displayName c; ct_statusText c; ct_avatarColor c] = true.

Lemma insert_contacts_rows cs t t' :
  all_effects (insert_contact <$> cs) t = Some t' ->
  map_to_list (t_contacts t') ≡ₚ (contact_entry <$> cs) ++ map_to_list (t_contacts t) /\ Forall complete_contact cs /\
  t_conversations t' = t_conversations t /\ t_messages t' = t_messages t /\ t_requests t' = t_requests t.
Proof.
  revert t. induction cs as [|c cs IH]; intros t E; [injection E as <-; split_and!; try done; constructor|].
  simpl in E. destruct (insert_contact c t) as [t1|] eqn:E1; [|done]. simpl in E.
  destruct (IH t1 E) as (Hm & Hc & H1 & H2 & H3). unfold insert_contact in E1. destruct (_ || _) eqn:Eb; [done|].
  injection E1 as <-. apply orb_false_iff in Eb as [E1 E2%negb_false_iff].
  apply bool_decide_eq_false, eq_None_not_Some in E1. simpl in *. split_and!; [|by constructor|done..].
  rewrite Hm, map_to_list_insert by done. by rewrite <-Permutation_middle.
Qed.

Definition request_row_of (r : RequestRecord) (order : Z) : request_row :=
  mkRequestRow (str (rr_displayName r)) (str (rr_message r)) (str (rr_avatarColor r)) (str (rr_kind r)) (str (rr_status r)) order.

Definition request_rows (k : nat) (rs : list RequestRecord) : list (string * request_row) :=
  imap (fun i r => (rr_requestId r, request_row_of r (Z.of_nat (k + i)))) rs.

Lemma request_rows_cons k r rs :
  request_rows k (r :: rs) = (rr_requestId r, request_row_of r (Z.of_nat (k + 0))) :: request_rows (S k) rs.
Proof. unfold request_rows. rewrite imap_cons. f_equal. apply imap_ext. intros i x _. simpl. by rewrite Nat.add_succ_r. Qed.

Definition complete_request (r : RequestRecord) : Prop :=
  not_null [rr_displayName r; rr_message r; rr_avatarColor r; rr_kind r; rr_status r] = true.

Lemma insert_requests_rows k rs t t' :
  all_effects (imap (fun i r => insert_request r (Z.of_nat (k + i))) rs) t = Some t' ->
  map_to_list (t_requests t') ≡ₚ request_rows k rs ++ map_to_list (t_requests t) /\ Forall complete_request rs /\
  t_conversations t' = t_conversations t /\ t_messages t' = t_messages t /\ t_contacts t' = t_contacts t.
Proof.
  revert k t. induction rs as [|r rs IH]; intros k t E; [injection E as <-; split_and!; try done; constructor|].
  rewrite request_rows_cons. rewrite imap_cons in E. simpl in E. destruct (insert_request r _ t) as [t1|] eqn:E1; [|done]. simpl in E.
  replace (imap _ rs) with (imap (fun i r => insert_request r (Z.of_nat (S k + i))) rs) in E.
  2: { apply imap_ext. intros i x _. simpl. by rewrite Nat.add_succ_r. }
  destruct (IH (S k) t1 E) as (Hm & Hc & H1 & H2 & H3). unfold insert_request in E1. destruct (_ || _) eqn:Eb; [done|].
  injection E1 as <-. apply orb_false_iff in Eb as [E1 E2%negb_false_iff].
  apply bool_decide_eq_false, eq_None_not_Some in E1. simpl in *. split_and!; [|by constructor|done..].
  rewrite Hm, map_to_list_insert by done. by rewrite <-Permutation_middle.
Qed.

(** Everything the statements leave in empty tables. *)
Record seeded (s : ClientSnapshot) (t : tables) : Prop := mk_seeded {
  sd_conversations : map_to_list (t_conversations t) ≡ₚ conversation_rows 0 (sn_conversations s);
  sd_complete : Forall complete_conversation (sn_conversations s);
  sd_messages x : stored x t = if decide (x ∈ cr_conversationId <$> sn_conversations s) then messages_of s x else [];
  sd_contacts : map_to_list (t_contacts t) ≡ₚ contact_entry <$> sn_contacts s;
  sd_contacts_complete : Forall complete_contact (sn_contacts s);
  sd_requests : map_to_list (t_requests t) ≡ₚ request_rows 0 (sn_requests s);
  sd_requests_complete : Forall complete_request (sn_requests s) }.

Lemma snapshot_seeded s t t' :
  tables_ok t -> t_conversations t = ∅ -> t_messages t = ∅ -> t_contacts t = ∅ -> t_requests t = ∅ ->
  all_effects (snapshot_statements s) t = Some t' -> seeded s t'.
Proof.
  intros Hok Hc Hm Hk Hr E. unfold snapshot_statements in E.
  change (all_effects (conversation_statements s 0 (sn_conversations s) ++ (insert_contact <$> sn_contacts s) ++
    imap (fun i r => insert_request r (Z.of_nat (0 + i))) (sn_requests s)) t = Some t') in E.
  rewrite all_effects_app in E. destruct (all_effects _ t) as [t1|] eqn:E1; [|done]. simpl in E.
  rewrite all_effects_app in E. destruct (all_effects (insert_contact <$> _) t1) as [t2|] eqn:E2; [|done]. simpl in E.
  apply insert_conversations_stored in E1 as (_ & Hs & Hm1 & Hcc & _ & K1 & R1); [|done].
  apply insert_contacts_rows in E2 as (Hm2 & Hkc & C2 & M2 & R2). apply (insert_requests_rows 0) in E as (Hm3 & Hrc & C3 & M3 & K3).
  rewrite Hc, map_to_list_empty, app_nil_r in Hm1. rewrite K1, Hk, map_to_list_empty, app_nil_r in Hm2.
  rewrite R2, R1, Hr, map_to_list_empty, app_nil_r in Hm3. split; try done.
  - by rewrite C3, C2.
  - intros x. assert (stored x t' = stored x t1) as -> by (unfold stored, in_order; by rewrite M3, M2).
    rewrite Hs. unfold stored, in_order. by rewrite Hm, map_to_list_empty.
  - by rewrite K3.
Qed.
End Seeding.

(** ** Reading it back *)

(** Pinned conversations first, each group in the order of the snapshot. *)
Definition shown_conversations (cs : list ConversationRecord) : list ConversationRecord :=
  filter (fun c => cr_pinned c = true) cs ++ filter (fun c => cr_pinned c = false) cs.

Definition conversation_of (kv : string * conversation_row) : ConversationRecord :=
  let '(k, c) := kv in
  mkConversationRecord k (Some (cv_title c)) (Some (cv_preview c)) (Some (cv_timestamp c)) (Some (cv_avatar_color c))
    (cv_remote_conversation_id c) (cv_unread_count c) (cv_pinned c) (cv_muted c) (cv_online c).

Lemma conversation_of_row c order :
  complete_conversation c -> conversation_of (cr_conversationId c, conversation_row_of c order) = c.
Proof. by destruct c as [id [ti|] [pr|] [ts|] [co|] rm un pi mu on]. Qed.

Lemma rows_shown b k cs :
  Forall complete_conversation cs ->
  conversation_of <$> filter (fun kv => cv_pinned kv.2 = b) (conversation_rows k cs) =
  filter (fun c => cr_pinned c = b) cs.
Proof.
  intros Hc. revert k. induction Hc as [|c cs Hc Hcs IH]; intros k; [done|].
  rewrite conversation_rows_cons, !filter_cons. cbn [snd cv_pinned conversation_row_of].
  destruct (decide (cr_pinned c = b)); [|apply IH]. rewrite fmap_cons, IH. f_equal. by apply conversation_of_row.
Qed.

Lemma rows_from k cs kv : kv ∈ conversation_rows k cs -> Z.of_nat k <= cv_sort_order kv.2.
Proof.
  revert k. induction cs as [|c cs IH]; intros k; [by intros ?%not_elem_of_nil|]. rewrite conversation_rows_cons.
  intros [->|H]%elem_of_cons; [simpl; lia|]. specialize (IH (S k) H). lia.
Qed.

Lemma rows_ascend b k cs :
  StronglySorted conversation_before (filter (fun kv => cv_pinned kv.2 = b) (conversation_rows k cs)).
Proof.
  revert k. induction cs as [|c cs IH]; intros k; [constructor|]. rewrite conversation_rows_cons, filter_cons.
  case_decide as Eb; [|apply IH]. constructor; [apply IH|]. apply Forall_forall. intros kv [Hb Hin]%list_elem_of_filter.
  apply rows_from in Hin. simpl in Eb. unfold conversation_before. cbn [snd cv_pinned conversation_row_of cv_sort_order].
  rewrite Eb, Hb. destruct b; lia.
Qed.

Lemma rows_apart k cs x y :
  x ∈ conversation_rows k cs -> y ∈ conversation_rows k cs -> cv_sort_order x.2 = cv_sort_order y.2 -> x = y.
Proof.
  revert k. induction cs as [|c cs IH]; intros k; [by intros ?%not_elem_of_nil|]. rewrite conversation_rows_cons.
  intros [->|Hx]%elem_of_cons [->|Hy]%elem_of_cons E; [done| | |by apply (IH (S k))].
  - apply rows_from in Hy. simpl in E. lia.
  - apply rows_from in Hx. simpl in E. lia.
Qed.

Lemma conversation_before_total : Total conversation_before.
Proof. intros [? a] [? b]. unfold conversation_before. simpl. destruct (cv_pinned a), (cv_pinned b); lia || naive_solver. Qed.

Lemma conversation_before_trans : Transitive conversation_before.
Proof.
  intros [? a] [? b] [? c]. unfold conversation_before. simpl.
  destruct (cv_pinned a), (cv_pinned b), (cv_pinned c); try done; lia.
Qed.

Lemma sorted_rows cs rows :
  rows ≡ₚ conversation_rows 0 cs ->
  merge_sort conversation_before rows =
    filter (fun kv => cv_pinned kv.2 = true) (conversation_rows 0 cs) ++
    filter (fun kv => cv_pinned kv.2 = false) (conversation_rows 0 cs).
Proof.
  intros Hp. pose proof conversation_before_total. pose proof conversation_before_trans.
  assert (filter (fun kv : string * conversation_row => cv_pinned kv.2 = true) (conversation_rows 0 cs) ++
    filter (fun kv => cv_pinned kv.2 = false) (conversation_rows 0 cs) ≡ₚ conversation_rows 0 cs) as Hq.
  { generalize (conversation_rows 0 cs). intros l. induction l as [|kv l IH]; [done|]. rewrite !filter_cons.
    destruct (cv_pinned kv.2); [rewrite decide_True, decide_False by done; simpl; by rewrite IH|].
    rewrite decide_False, decide_True by done. rewrite <-Permutation_middle. by rewrite IH. }
  apply (StronglySorted_unique_strong conversation_before).
  - intros x y Hx Hy H1 H2. rewrite merge_sort_Permutation, Hp in Hx. rewrite Hq in Hy.
    apply (rows_apart 0 cs); [done..|]. unfold conversation_before in *. destruct (cv_pinned x.2), (cv_pinned y.2); try done; lia.
  - by apply StronglySorted_merge_sort.
  - apply StronglySorted_app. split; [|split; apply rows_ascend].
    intros x y [Hx _]%list_elem_of_filter [Hy _]%list_elem_of_filter. unfold conversation_before. by rewrite Hx, Hy.
  - by rewrite merge_sort_Permutation, Hq.
Qed.

Definition request_of (kv : string * request_row) : RequestRecord :=
  let '(k, r) := kv in
  mkRequestRecord k (Some (rq_display_name r)) (Some (rq_message r)) (Some (rq_avatar_color r)) (Some (rq_kind r))
    (Some (rq_status r)).

Lemma requests_shown k rs : Forall complete_request rs -> request_of <$> request_rows k rs = rs.
Proof.
  intros Hc. revert k. induction Hc as [|r rs Hr Hrs IH]; intros k; [done|].
  rewrite request_rows_cons, fmap_cons, IH. f_equal. by destruct r as [id [?|] [?|] [?|] [?|] [?|]].
Qed.

Lemma request_rows_from k rs kv : kv ∈ request_rows k rs -> Z.of_nat k <= rq_local_order kv.2.
Proof.
  revert k. induction rs as [|r rs IH]; intros k; [by intros ?%not_elem_of_nil|]. rewrite request_rows_cons.
  intros [->|H]%elem_of_cons; [simpl; lia|]. specialize (IH (S k) H). lia.
Qed.

Lemma request_rows_ascend k rs : StronglySorted request_before (request_rows k rs).
Proof.
  revert k. induction rs as [|r rs IH]; intros k; [constructor|]. rewrite request_rows_cons. constructor; [apply IH|].
  apply Forall_forall. intros kv Hin%request_rows_from. unfold request_before. simpl. lia.
Qed.

Lemma request_rows_apart k rs x y :
  x ∈ request_rows k rs -> y ∈ request_rows k rs -> rq_local_order x.2 = rq_local_order y.2 -> x = y.
Proof.
  revert k. induction rs as [|r rs IH]; intros k; [by intros ?%not_elem_of_nil|]. rewrite request_rows_cons.
  intros [->|Hx]%elem_of_cons [->|Hy]%elem_of_cons E; [done| | |by apply (IH (S k))].
  - apply request_rows_from in Hy. simpl in E. lia.
  - apply request_rows_from in Hx. simpl in E. lia.
Qed.

Lemma sorted_requests rs rows : rows ≡ₚ request_rows 0 rs -> merge_sort request_before rows = request_rows 0 rs.
Proof.
  intros Hp. apply (StronglySorted_unique_strong request_before).
  - intros x y Hx Hy H1 H2. rewrite merge_sort_Permutation, Hp in Hx. unfold request_before in *.
    apply (request_rows_apart 0 rs); [done..|lia].
  - apply StronglySorted_merge_sort; [intros a b c|intros a b]; unfold request_before; lia.
  - apply request_rows_ascend.
  - by rewrite merge_sort_Permutation.
Qed.

(** Contacts: favourites first, then by name. *)
Definition contact_of (kv : string * contact_row) : ContactRecord :=
  let '(k, c) := kv in
  mkContactRecord k (Some (co_display_name c)) (Some (co_status_text c)) (Some (co_avatar_color c)) (co_online c) (co_favorite c).

Definition contact_shown_before (a b : ContactRecord) : Prop := contact_before (contact_entry a) (contact_entry b).

Lemma contact_of_entry c : complete_contact c -> contact_of (contact_entry c) = c.
Proof. by destruct c as [id [?|] [?|] [?|] on fa]. Qed.

Lemma string_leb_cons x a y b :
  String.leb (String x a) (String y b) =
    match (N_of_ascii x ?= N_of_ascii y)%N with Eq => String.leb a b | Lt => true | Gt => false end.
Proof. unfold String.leb. simpl. unfold Ascii.compare. by destruct (_ ?= _)%N. Qed.

Lemma string_leb_trans a b c : String.leb a b = true -> String.leb b c = true -> String.leb a c = true.
Proof.
  revert b c. induction a as [|x a IH]; intros [|y b] [|z c]; try done. rewrite !string_leb_cons.
  destruct (N.compare_spec (N_of_ascii x) (N_of_ascii y)), (N.compare_spec (N_of_ascii y) (N_of_ascii z)),
    (N.compare_spec (N_of_ascii x) (N_of_ascii z)); try done; try lia. apply IH.
Qed.

Lemma contact_before_total : Total contact_before.
Proof.
  intros [? a] [? b]. unfold contact_before. simpl.
  destruct (co_favorite a), (co_favorite b); try (by left); try (by right);
    destruct (String.leb_total (co_display_name a) (co_display_name b)); auto.
Qed.

Lemma contact_before_trans : Transitive contact_before.
Proof.
  intros [? a] [? b] [? c]. unfold contact_before. simpl.
  destruct (co_favorite a), (co_favorite b), (co_favorite c); try done; apply string_leb_trans.
Qed.

Lemma sorted_contacts cs rows :
  Forall complete_contact cs -> rows ≡ₚ contact_entry <$> cs ->
  contact_of <$> merge_sort contact_before rows ≡ₚ cs /\
  StronglySorted contact_shown_before (contact_of <$> merge_sort contact_before rows).
Proof.
  intros Hc Hp. split.
  - rewrite merge_sort_Permutation, Hp. rewrite <-list_fmap_compose. rewrite <-(list_fmap_id cs) at 2.
    assert (forall l l' : list ContactRecord, l = l' -> l ≡ₚ l') as Hl by (by intros ? ? ->). apply Hl, list_fmap_ext. intros i c Hi. apply contact_of_entry.
    rewrite Forall_forall in Hc. apply Hc. by eapply list_elem_of_lookup_2.
  - pose proof contact_before_total. pose proof contact_before_trans.
    assert (StronglySorted contact_before (merge_sort contact_before rows)) as Hs by (by apply StronglySorted_merge_sort).
    assert (Forall (fun kv => contact_entry (contact_of kv) = kv) (merge_sort contact_before rows)) as Hk.
    { rewrite merge_sort_Permutation, Hp. apply Forall_fmap. eapply Forall_impl; [exact Hc|]. intros c Hcc.
      change (contact_entry (contact_of (contact_entry c)) = contact_entry c). by rewrite contact_of_entry. }
    revert Hs Hk. generalize (merge_sort contact_before rows). intros l Hs Hk.
    induction Hs as [|x l Hs IH Hf]; [constructor|]. apply Forall_cons in Hk as [Hx Hk]. rewrite fmap_cons.
    constructor; [by apply IH|]. apply Forall_fmap. rewrite Forall_forall in Hf, Hk. apply Forall_forall. intros y Hy.
    unfold contact_shown_before. simpl. rewrite Hx, Hk by done. by apply Hf.
Qed.

(** What [LoadScenario] shows of tables when its statements run. *)
Lemma load_all `{SqliteFaults} `{RowOrder} name r :
  (forall k, sql_at k = SqlRuns) -> r_ready r = true ->
  let s := (LoadScenario name r).1 in
  let t := r_tables r in
  sn_conversations s = conversation_of <$> merge_sort conversation_before (scan (t_conversations t)) /\
  sn_contacts s = contact_of <$> merge_sort contact_before (scan (t_contacts t)) /\
  sn_requests s = request_of <$> merge_sort request_before (scan (t_requests t)) /\
  sn_draftsByConversation s =
    list_to_map ((fun kv => (kv.1, cv_draft_text kv.2)) <$> merge_sort conversation_before (scan (t_conversations t))).
Proof.
  intros Hf R. cbv zeta. unfold LoadScenario, seq_bind, IsReady, reads, pure. rewrite R. simpl.
  unfold exec. by repeat (rewrite Hf; simpl).
Qed.

(** Seeding succeeds only as a whole. *)
Lemma seed_all `{SqliteFaults} s r r' :
  r_saved r = None -> t_conversations (r_tables r) = ∅ -> SeedIfEmpty s r = (true, r') ->
  all_effects (snapshot_statements s) (r_tables r) = Some (persisted r').
Proof.
  intros Hs He. unfold SeedIfEmpty, seq_bind at 1, exec. destruct (sql_at (r_steps r)); [|done|done].
  rewrite He, map_size_empty. unfold seq_bind at 1, transaction. simpl. rewrite Hs.
  destruct (sql_at (S (r_steps r))); [|done|done]. simpl. unfold seq_bind, InsertSnapshot.
  match goal with |- context [insert_all _ ?x] => pose proof (insert_all_spec (snapshot_statements s) (r_tables r) (r_tables r)
    (r_ready r) x) as Hi; specialize (Hi ltac:(by split_and!)); destruct (insert_all (snapshot_statements s) x) as [[] r1] end; [|done].
  destruct Hi as (t & Ha & E1 & E2 & _). simpl. unfold commit. rewrite E1. destruct (sql_at (r_steps r1)); [|done|done].
  intros [= <-]. unfold persisted. simpl. by rewrite E2.
Qed.

(** C30: seeding.  A new database that was seeded with success, whatever
    snapshot was used, is read back as that snapshot: its conversations, the
    pinned ones first and otherwise in its order, the messages of each in order,
    its requests in order, its contacts with favourites first and by name, and
    no drafts. *)
Theorem seeded_is_read_back (seeding loading : SqliteFaults) `{RowOrder} s r r' r2 name :
  r_saved r = None -> tables_ok (r_tables r) -> t_conversations (r_tables r) = ∅ -> t_messages (r_tables r) = ∅ ->
  t_contacts (r_tables r) = ∅ -> t_requests (r_tables r) = ∅ ->
  @SeedIfEmpty seeding s r = (true, r') ->
  (forall k, @sql_at loading k = SqlRuns) -> r_tables r2 = persisted r' -> r_ready r2 = true ->
  let s' := (@LoadScenario loading _ name r2).1 in
  sn_conversations s' = shown_conversations (sn_conversations s) /\
  (forall x, messages_of s' x = if decide (x ∈ cr_conversationId <$> sn_conversations s) then messages_of s x else []) /\
  sn_requests s' = sn_requests s /\
  sn_contacts s' ≡ₚ sn_contacts s /\ StronglySorted contact_shown_before (sn_contacts s') /\
  (forall x, default "" (sn_draftsByConversation s' !! x) = "").
Proof.
  intros Hs Hok Hc Hm Hk Hr E Hf E2 R. cbv zeta. apply seed_all in E; [|done|done].
  apply snapshot_seeded in E; [|done..]. rewrite <-E2 in E. destruct E as [S1 S2 S3 S4 S5 S6 S7].
  destruct (load_all name r2 Hf R) as (L1 & L2 & L3 & L4). rewrite <-scan_rows in S1, S4, S6.
  rewrite L2, L3, L4, L1. destruct (sorted_contacts _ _ S5 S4) as [K1 K2]. split_and!; [| | |done|done|].
  - rewrite (sorted_rows _ _ S1), fmap_app. unfold shown_conversations. by rewrite !rows_shown.
  - intros x. unfold messages_of at 1. rewrite load_stored by done. apply S3.
  - rewrite (sorted_requests _ _ S6). by apply requests_shown.
  - intros x. destruct (_ !! x) as [d|] eqn:Ed; [|done]. simpl. apply elem_of_list_to_map_2 in Ed.
    apply list_elem_of_fmap in Ed as ([k row] & [= -> ->] & Hin).
    rewrite merge_sort_Permutation, S1 in Hin. unfold conversation_rows in Hin.
    apply elem_of_lookup_imap in Hin as (i & c & [= -> ->] & _). done.
Qed.

(** ** Samples *)
Module Seeds.
#[local] Instance runs_all : SqliteFaults := fun _ => SqlRuns.
#[local] Instance rows_in_order : RowOrder := { scan A m := map_to_list m; scan_rows A m := reflexivity _ }.

(** A database that was just migrated. *)
Definition fresh : repository := (Migrate (mkRepository no_tables None 0 false)).2.
Definition seeded_demo : repository := (SeedIfEmpty (scenario "normal") fresh).2.

(** The scenarios fit the schema: ids and places do not repeat.  (The one of two
    thousand messages does too, but takes minutes to run.) *)
Example scenarios_fit :
  forallb (fun name => (SeedIfEmpty (scenario name) fresh).1)
    (filter (fun name => name <> "large-history") scenario_names) = true.
Proof. vm_compute. reflexivity. Qed.

Lemma fresh_ok : tables_ok (r_tables fresh).
Proof. by apply LocalDemo.no_rows_ok; vm_compute. Qed.

Lemma seeded_is_read_back_witness :
  let s' := (LoadScenario "local" (mkRepository (persisted seeded_demo) None 0 true)).1 in
  sn_conversations s' = shown_conversations normal_conversations /\ sn_contacts s' ≡ₚ normal_contacts.
Proof.
  assert (SeedIfEmpty (scenario "normal") fresh = (true, seeded_demo)) as E.
  { unfold seeded_demo. rewrite (surjective_pairing (SeedIfEmpty _ _)) at 1. f_equal. }
  split; apply (seeded_is_read_back runs_all runs_all (scenario "normal") fresh seeded_demo
    (mkRepository (persisted seeded_demo) None 0 true) "local");
    (exact E || exact fresh_ok || reflexivity || (by vm_compute)).
Defined.
End Seeds.
