(* ===== verification/App.v ===== *)
(** * The application of the client

    [src/client/src/app/AppController.cc]: what the views call, the slots of the
    gate client and of the gateway client, the messages kept in memory next to
    the repository.  A call of the gateway client is recorded and gets the next
    request id; when the client is not ready it fails inside the call.  [QString]
    is the bytes of its UTF-8.  The texts shown to the user, what the views
    read, and the address of the gate are in Controls. *)

From S2P Require Import Prelude Const Packet Frame Client GateClient Snapshot Ports.

(** ** Qt *)

(** [QString::trimmed], [QString::toLongLong], [QString::split], [tr] with its
    arguments, the local time of the n-th call as ["HH:mm"]. *)
Fixpoint decimal (s : string) (acc : Z) : option Z :=
  match s with
  | "" => Some acc
  | String c s => let d := Z.of_N (N_of_ascii c) - 48 in
                  if (0 <=? d) && (d <=? 9) then decimal s (10 * acc + d) else None
  end.

Class QtText := {
  trimmed : string -> string;
  toLongLong : string -> option Z;
  split : ascii -> string -> list string;
  tr_uid : string -> Z -> string;
  local_time : nat -> string;
  toLongLong_empty : toLongLong "" = None;
  toLongLong_decimal : forall s z, s <> "" -> decimal s 0 = Some z ->
    toLongLong s = if z <? 2 ^ 63 then Some z else None }.

(** The order in which a [QHash] with strings as keys is visited. *)
Class QStringHashOrder := {
  each : forall {A}, gmap string A -> list (string * A);
  each_perm : forall A (m : gmap string A), Permutation (each m) (map_to_list m) }.

(** [startsWith], [mid], [left], [right] *)
Definition mid (n : nat) (s : string) : string := String.substring n (String.length s - n) s.
Definition left (n : nat) (s : string) : string := String.substring 0 n s.
Definition right (n : nat) (s : string) : string := mid (String.length s - n) s.

Definition isEmpty (t : text) : bool := str_empty (default "" t).

(** ** Identifiers of conversations *)

Definition DirectConversationId (peerUid : Z) : string := "direct:" +:+ to_string peerUid.
Definition GroupConversationId (groupId : Z) : string := "group:" +:+ to_string groupId.

(** [sizeof(prefix)], where [constexpr auto prefix] is a pointer to the
    characters, on a platform of 64 bits. *)
Definition sizeof_prefix : nat := 8.

Section Identifiers.
Context `{QtText}.

Definition parse_after (prefix conversationId : string) : option Z :=
  if String.prefix prefix conversationId then
    match toLongLong (mid (sizeof_prefix - 1) conversationId) with
    | Some id => if 0 <? id then Some id else None
    | None => None
    end
  else None.

Definition DirectPeerUid : string -> option Z := parse_after "direct:".
Definition GroupId : string -> option Z := parse_after "group:".

(** [now] is the local time. *)
Definition DisplayTimestamp (now : string) (serverTimestamp : text) : text :=
  if isEmpty serverTimestamp then Some now
  else if (5 <=? String.length (default "" serverTimestamp))%nat
  then Some (left 5 (right 8 (default "" serverTimestamp)))
  else serverTimestamp.
End Identifiers.

(** ** State *)

Definition put_sn_connectionStatus x (s : ClientSnapshot) : ClientSnapshot := mkSnapshot (sn_scenarioName s) x
  (sn_conversations s) (sn_messagesByConversation s) (sn_contacts s) (sn_requests s) (sn_draftsByConversation s).
Definition put_sn_conversations x (s : ClientSnapshot) : ClientSnapshot := mkSnapshot (sn_scenarioName s)
  (sn_connectionStatus s) x (sn_messagesByConversation s) (sn_contacts s) (sn_requests s) (sn_draftsByConversation s).
Definition put_sn_messagesByConversation x (s : ClientSnapshot) : ClientSnapshot := mkSnapshot (sn_scenarioName s)
  (sn_connectionStatus s) (sn_conversations s) x (sn_contacts s) (sn_requests s) (sn_draftsByConversation s).
Definition put_sn_contacts x (s : ClientSnapshot) : ClientSnapshot := mkSnapshot (sn_scenarioName s)
  (sn_connectionStatus s) (sn_conversations s) (sn_messagesByConversation s) x (sn_requests s)
  (sn_draftsByConversation s).
Definition put_sn_requests x (s : ClientSnapshot) : ClientSnapshot := mkSnapshot (sn_scenarioName s)
  (sn_connectionStatus s) (sn_conversations s) (sn_messagesByConversation s) (sn_contacts s) x
  (sn_draftsByConversation s).

Inductive GatewayCall :=
  | Do (k : Call)
  | OpenSession (session : GateSession).

Inductive GateCall :=
  | CallRequestVerificationCode (email : string)
  | CallSignUp (username password email verifyCode : string)
  | CallSignIn (username password : string)
  | CallForgetPassword (username email verifyCode newPassword : string).

(** [a_ready] is [gateway_client_.IsReady()], [a_issued] the number of request
    ids it gave out, [a_calls] and [a_gate_calls] the calls made so far;
    [a_timers] the single shots that have not fired, [a_clock] the readings of
    the local time; [a_undefined]: an index was out of range. *)
Record app (R : Type) := mkApp {
  a_repository : R; a_snapshot : ClientSnapshot; a_conversations : list ConversationRecord;
  a_messages : MessageListModel; a_contacts : list ContactRecord; a_requests : list RequestRecord;
  a_selected : Z; a_next_id : Z; a_next_group : Z; a_drafts : gmap string string; a_section : string;
  a_selected_contact : Z; a_auth_completed : bool; a_network : bool; a_busy : bool; a_uid : Z;
  a_outgoing : gmap string Z; a_sync : gmap string string; a_replies : gmap string Z; a_groups : gmap string string;
  a_ready : bool; a_issued : nat; a_calls : list GatewayCall; a_gate_calls : list GateCall;
  a_timers : list (Z * Z * MessageDeliveryState); a_clock : nat; a_undefined : bool }.
Arguments mkApp {R}.
Arguments a_repository {R}.
Arguments a_snapshot {R}.
Arguments a_conversations {R}.
Arguments a_messages {R}.
Arguments a_contacts {R}.
Arguments a_requests {R}.
Arguments a_selected {R}.
Arguments a_next_id {R}.
Arguments a_next_group {R}.
Arguments a_drafts {R}.
Arguments a_section {R}.
Arguments a_selected_contact {R}.
Arguments a_auth_completed {R}.
Arguments a_network {R}.
Arguments a_busy {R}.
Arguments a_uid {R}.
Arguments a_outgoing {R}.
Arguments a_sync {R}.
Arguments a_replies {R}.
Arguments a_groups {R}.
Arguments a_ready {R}.
Arguments a_issued {R}.
Arguments a_calls {R}.
Arguments a_gate_calls {R}.
Arguments a_timers {R}.
Arguments a_clock {R}.
Arguments a_undefined {R}.

Section Operations.
Context {R : Type} `{IClientRepository R} `{QtText} `{QStringHashOrder} `{QtCodec} `{Uuid}.

Local Abbreviation app := (app R).
Abbreviation App := (State app).

Definition put_repository x (a : app) : app := mkApp x (a_snapshot a) (a_conversations a) (a_messages a)
  (a_contacts a) (a_requests a) (a_selected a) (a_next_id a) (a_next_group a) (a_drafts a) (a_section a)
  (a_selected_contact a) (a_auth_completed a) (a_network a) (a_busy a) (a_uid a) (a_outgoing a) (a_sync a)
  (a_replies a) (a_groups a) (a_ready a) (a_issued a) (a_calls a) (a_gate_calls a) (a_timers a) (a_clock a)
  (a_undefined a).
Definition put_snapshot x (a : app) : app := mkApp (a_repository a) x (a_conversations a) (a_messages a)
  (a_contacts a) (a_requests a) (a_selected a) (a_next_id a) (a_next_group a) (a_drafts a) (a_section a)
  (a_selected_contact a) (a_auth_completed a) (a_network a) (a_busy a) (a_uid a) (a_outgoing a) (a_sync a)
  (a_replies a) (a_groups a) (a_ready a) (a_issued a) (a_calls a) (a_gate_calls a) (a_timers a) (a_clock a)
  (a_undefined a).
Definition put_conversations x (a : app) : app := mkApp (a_repository a) (a_snapshot a) x (a_messages a)
  (a_contacts a) (a_requests a) (a_selected a) (a_next_id a) (a_next_group a) (a_drafts a) (a_section a)
  (a_selected_contact a) (a_auth_completed a) (a_network a) (a_busy a) (a_uid a) (a_outgoing a) (a_sync a)
  (a_replies a) (a_groups a) (a_ready a) (a_issued a) (a_calls a) (a_gate_calls a) (a_timers a) (a_clock a)
  (a_undefined a).
Definition put_messages x (a : app) : app := mkApp (a_repository a) (a_snapshot a) (a_conversations a) x
  (a_contacts a) (a_requests a) (a_selected a) (a_next_id a) (a_next_group a) (a_drafts a) (a_section a)
  (a_selected_contact a) (a_auth_completed a) (a_network a) (a_busy a) (a_uid a) (a_outgoing a) (a_sync a)
  (a_replies a) (a_groups a) (a_ready a) (a_issued a) (a_calls a) (a_gate_calls a) (a_timers a) (a_clock a)
  (a_undefined a).
Definition put_contacts x (a : app) : app := mkApp (a_repository a) (a_snapshot a) (a_conversations a) (a_messages a)
  x (a_requests a) (a_selected a) (a_next_id a) (a_next_group a) (a_drafts a) (a_section a) (a_selected_contact a)
  (a_auth_completed a) (a_network a) (a_busy a) (a_uid a) (a_outgoing a) (a_sync a) (a_replies a) (a_groups a)
  (a_ready a) (a_issued a) (a_calls a) (a_gate_calls a) (a_timers a) (a_clock a) (a_undefined a).
Definition put_requests x (a : app) : app := mkApp (a_repository a) (a_snapshot a) (a_conversations a) (a_messages a)
  (a_contacts a) x (a_selected a) (a_next_id a) (a_next_group a) (a_drafts a) (a_section a) (a_selected_contact a)
  (a_auth_completed a) (a_network a) (a_busy a) (a_uid a) (a_outgoing a) (a_sync a) (a_replies a) (a_groups a)
  (a_ready a) (a_issued a) (a_calls a) (a_gate_calls a) (a_timers a) (a_clock a) (a_undefined a).
Definition put_selected x (a : app) : app := mkApp (a_repository a) (a_snapshot a) (a_conversations a) (a_messages a)
  (a_contacts a) (a_requests a) x (a_next_id a) (a_next_group a) (a_drafts a) (a_section a) (a_selected_contact a)
  (a_auth_completed a) (a_network a) (a_busy a) (a_uid a) (a_outgoing a) (a_sync a) (a_replies a) (a_groups a)
  (a_ready a) (a_issued a) (a_calls a) (a_gate_calls a) (a_timers a) (a_clock a) (a_undefined a).
Definition put_next_id x (a : app) : app := mkApp (a_repository a) (a_snapshot a) (a_conversations a) (a_messages a)
  (a_contacts a) (a_requests a) (a_selected a) x (a_next_group a) (a_drafts a) (a_section a) (a_selected_contact a)
  (a_auth_completed a) (a_network a) (a_busy a) (a_uid a) (a_outgoing a) (a_sync a) (a_replies a) (a_groups a)
  (a_ready a) (a_issued a) (a_calls a) (a_gate_calls a) (a_timers a) (a_clock a) (a_undefined a).
Definition put_next_group x (a : app) : app := mkApp (a_repository a) (a_snapshot a) (a_conversations a)
  (a_messages a) (a_contacts a) (a_requests a) (a_selected a) (a_next_id a) x (a_drafts a) (a_section a)
  (a_selected_contact a) (a_auth_completed a) (a_network a) (a_busy a) (a_uid a) (a_outgoing a) (a_sync a)
  (a_replies a) (a_groups a) (a_ready a) (a_issued a) (a_calls a) (a_gate_calls a) (a_timers a) (a_clock a)
  (a_undefined a).
Definition put_drafts x (a : app) : app := mkApp (a_repository a) (a_snapshot a) (a_conversations a) (a_messages a)
  (a_contacts a) (a_requests a) (a_selected a) (a_next_id a) (a_next_group a) x (a_section a) (a_selected_contact a)
  (a_auth_completed a) (a_network a) (a_busy a) (a_uid a) (a_outgoing a) (a_sync a) (a_replies a) (a_groups a)
  (a_ready a) (a_issued a) (a_calls a) (a_gate_calls a) (a_timers a) (a_clock a) (a_undefined a).
Definition put_section x (a : app) : app := mkApp (a_repository a) (a_snapshot a) (a_conversations a) (a_messages a)
  (a_contacts a) (a_requests a) (a_selected a) (a_next_id a) (a_next_group a) (a_drafts a) x (a_selected_contact a)
  (a_auth_completed a) (a_network a) (a_busy a) (a_uid a) (a_outgoing a) (a_sync a) (a_replies a) (a_groups a)
  (a_ready a) (a_issued a) (a_calls a) (a_gate_calls a) (a_timers a) (a_clock a) (a_undefined a).
Definition put_selected_contact x (a : app) : app := mkApp (a_repository a) (a_snapshot a) (a_conversations a)
  (a_messages a) (a_contacts a) (a_requests a) (a_selected a) (a_next_id a) (a_next_group a) (a_drafts a)
  (a_section a) x (a_auth_completed a) (a_network a) (a_busy a) (a_uid a) (a_outgoing a) (a_sync a) (a_replies a)
  (a_groups a) (a_ready a) (a_issued a) (a_calls a) (a_gate_calls a) (a_timers a) (a_clock a) (a_undefined a).
Definition put_auth_completed x (a : app) : app := mkApp (a_repository a) (a_snapshot a) (a_conversations a)
  (a_messages a) (a_contacts a) (a_requests a) (a_selected a) (a_next_id a) (a_next_group a) (a_drafts a)
  (a_section a) (a_selected_contact a) x (a_network a) (a_busy a) (a_uid a) (a_outgoing a) (a_sync a) (a_replies a)
  (a_groups a) (a_ready a) (a_issued a) (a_calls a) (a_gate_calls a) (a_timers a) (a_clock a) (a_undefined a).
Definition put_network x (a : app) : app := mkApp (a_repository a) (a_snapshot a) (a_conversations a) (a_messages a)
  (a_contacts a) (a_requests a) (a_selected a) (a_next_id a) (a_next_group a) (a_drafts a) (a_section a)
  (a_selected_contact a) (a_auth_completed a) x (a_busy a) (a_uid a) (a_outgoing a) (a_sync a) (a_replies a)
  (a_groups a) (a_ready a) (a_issued a) (a_calls a) (a_gate_calls a) (a_timers a) (a_clock a) (a_undefined a).
Definition put_busy x (a : app) : app := mkApp (a_repository a) (a_snapshot a) (a_conversations a) (a_messages a)
  (a_contacts a) (a_requests a) (a_selected a) (a_next_id a) (a_next_group a) (a_drafts a) (a_section a)
  (a_selected_contact a) (a_auth_completed a) (a_network a) x (a_uid a) (a_outgoing a) (a_sync a) (a_replies a)
  (a_groups a) (a_ready a) (a_issued a) (a_calls a) (a_gate_calls a) (a_timers a) (a_clock a) (a_undefined a).
Definition put_uid x (a : app) : app := mkApp (a_repository a) (a_snapshot a) (a_conversations a) (a_messages a)
  (a_contacts a) (a_requests a) (a_selected a) (a_next_id a) (a_next_group a) (a_drafts a) (a_section a)
  (a_selected_contact a) (a_auth_completed a) (a_network a) (a_busy a) x (a_outgoing a) (a_sync a) (a_replies a)
  (a_groups a) (a_ready a) (a_issued a) (a_calls a) (a_gate_calls a) (a_timers a) (a_clock a) (a_undefined a).
Definition put_outgoing x (a : app) : app := mkApp (a_repository a) (a_snapshot a) (a_conversations a) (a_messages a)
  (a_contacts a) (a_requests a) (a_selected a) (a_next_id a) (a_next_group a) (a_drafts a) (a_section a)
  (a_selected_contact a) (a_auth_completed a) (a_network a) (a_busy a) (a_uid a) x (a_sync a) (a_replies a)
  (a_groups a) (a_ready a) (a_issued a) (a_calls a) (a_gate_calls a) (a_timers a) (a_clock a) (a_undefined a).
Definition put_sync x (a : app) : app := mkApp (a_repository a) (a_snapshot a) (a_conversations a) (a_messages a)
  (a_contacts a) (a_requests a) (a_selected a) (a_next_id a) (a_next_group a) (a_drafts a) (a_section a)
  (a_selected_contact a) (a_auth_completed a) (a_network a) (a_busy a) (a_uid a) (a_outgoing a) x (a_replies a)
  (a_groups a) (a_ready a) (a_issued a) (a_calls a) (a_gate_calls a) (a_timers a) (a_clock a) (a_undefined a).
Definition put_replies x (a : app) : app := mkApp (a_repository a) (a_snapshot a) (a_conversations a) (a_messages a)
  (a_contacts a) (a_requests a) (a_selected a) (a_next_id a) (a_next_group a) (a_drafts a) (a_section a)
  (a_selected_contact a) (a_auth_completed a) (a_network a) (a_busy a) (a_uid a) (a_outgoing a) (a_sync a) x
  (a_groups a) (a_ready a) (a_issued a) (a_calls a) (a_gate_calls a) (a_timers a) (a_clock a) (a_undefined a).
Definition put_groups x (a : app) : app := mkApp (a_repository a) (a_snapshot a) (a_conversations a) (a_messages a)
  (a_contacts a) (a_requests a) (a_selected a) (a_next_id a) (a_next_group a) (a_drafts a) (a_section a)
  (a_selected_contact a) (a_auth_completed a) (a_network a) (a_busy a) (a_uid a) (a_outgoing a) (a_sync a)
  (a_replies a) x (a_ready a) (a_issued a) (a_calls a) (a_gate_calls a) (a_timers a) (a_clock a) (a_undefined a).
Definition put_ready x (a : app) : app := mkApp (a_repository a) (a_snapshot a) (a_conversations a) (a_messages a)
  (a_contacts a) (a_requests a) (a_selected a) (a_next_id a) (a_next_group a) (a_drafts a) (a_section a)
  (a_selected_contact a) (a_auth_completed a) (a_network a) (a_busy a) (a_uid a) (a_outgoing a) (a_sync a)
  (a_replies a) (a_groups a) x (a_issued a) (a_calls a) (a_gate_calls a) (a_timers a) (a_clock a) (a_undefined a).
Definition put_issued x (a : app) : app := mkApp (a_repository a) (a_snapshot a) (a_conversations a) (a_messages a)
  (a_contacts a) (a_requests a) (a_selected a) (a_next_id a) (a_next_group a) (a_drafts a) (a_section a)
  (a_selected_contact a) (a_auth_completed a) (a_network a) (a_busy a) (a_uid a) (a_outgoing a) (a_sync a)
  (a_replies a) (a_groups a) (a_ready a) x (a_calls a) (a_gate_calls a) (a_timers a) (a_clock a) (a_undefined a).
Definition put_calls x (a : app) : app := mkApp (a_repository a) (a_snapshot a) (a_conversations a) (a_messages a)
  (a_contacts a) (a_requests a) (a_selected a) (a_next_id a) (a_next_group a) (a_drafts a) (a_section a)
  (a_selected_contact a) (a_auth_completed a) (a_network a) (a_busy a) (a_uid a) (a_outgoing a) (a_sync a)
  (a_replies a) (a_groups a) (a_ready a) (a_issued a) x (a_gate_calls a) (a_timers a) (a_clock a) (a_undefined a).
Definition put_gate_calls x (a : app) : app := mkApp (a_repository a) (a_snapshot a) (a_conversations a)
  (a_messages a) (a_contacts a) (a_requests a) (a_selected a) (a_next_id a) (a_next_group a) (a_drafts a)
  (a_section a) (a_selected_contact a) (a_auth_completed a) (a_network a) (a_busy a) (a_uid a) (a_outgoing a)
  (a_sync a) (a_replies a) (a_groups a) (a_ready a) (a_issued a) (a_calls a) x (a_timers a) (a_clock a)
  (a_undefined a).
Definition put_timers x (a : app) : app := mkApp (a_repository a) (a_snapshot a) (a_conversations a) (a_messages a)
  (a_contacts a) (a_requests a) (a_selected a) (a_next_id a) (a_next_group a) (a_drafts a) (a_section a)
  (a_selected_contact a) (a_auth_completed a) (a_network a) (a_busy a) (a_uid a) (a_outgoing a) (a_sync a)
  (a_replies a) (a_groups a) (a_ready a) (a_issued a) (a_calls a) (a_gate_calls a) x (a_clock a) (a_undefined a).
Definition put_clock x (a : app) : app := mkApp (a_repository a) (a_snapshot a) (a_conversations a) (a_messages a)
  (a_contacts a) (a_requests a) (a_selected a) (a_next_id a) (a_next_group a) (a_drafts a) (a_section a)
  (a_selected_contact a) (a_auth_completed a) (a_network a) (a_busy a) (a_uid a) (a_outgoing a) (a_sync a)
  (a_replies a) (a_groups a) (a_ready a) (a_issued a) (a_calls a) (a_gate_calls a) (a_timers a) x (a_undefined a).
Definition put_undefined x (a : app) : app := mkApp (a_repository a) (a_snapshot a) (a_conversations a) (a_messages a)
  (a_contacts a) (a_requests a) (a_selected a) (a_next_id a) (a_next_group a) (a_drafts a) (a_section a)
  (a_selected_contact a) (a_auth_completed a) (a_network a) (a_busy a) (a_uid a) (a_outgoing a) (a_sync a)
  (a_replies a) (a_groups a) (a_ready a) (a_issued a) (a_calls a) (a_gate_calls a) (a_timers a) (a_clock a) x.

Definition repo {A} (m : State R A) : App A := fun a =>
  let '(x, r) := m (a_repository a) in (x, put_repository r a).
Definition snap (f : ClientSnapshot -> ClientSnapshot) : App unit := writes (fun a => put_snapshot (f (a_snapshot a)) a).
Definition now_text : App string := fun a => (local_time (a_clock a), put_clock (S (a_clock a)) a).
Definition undefined : App unit := writes (put_undefined true).

(** [QHash::take] *)
Definition take_sync (requestId : string) : App string := fun a =>
  (default "" (a_sync a !! requestId), put_sync (delete requestId (a_sync a)) a).
Definition take_reply (requestId : string) : App Z := fun a =>
  (default 0 (a_replies a !! requestId), put_replies (delete requestId (a_replies a)) a).
Definition take_group (requestId : string) : App string := fun a =>
  (default "" (a_groups a !! requestId), put_groups (delete requestId (a_groups a)) a).

Definition messages_of (conversationId : string) (a : app) : list MessageRecord :=
  default [] (sn_messagesByConversation (a_snapshot a) !! conversationId).
Definition put_messages_of (conversationId : string) (ms : list MessageRecord) : App unit :=
  snap (fun s => put_sn_messagesByConversation (<[conversationId := ms]> (sn_messagesByConversation s)) s).
(** [snapshot_.messagesByConversation[id]] *)
Definition touch_messages (conversationId : string) : App unit := fun a =>
  put_messages_of conversationId (messages_of conversationId a) a.

(** ** States of messages *)

(** The first element that passes a test, changed. *)
Fixpoint change_one {A} (test : A -> bool) (f : A -> A) (l : list A) : option (list A) :=
  match l with
  | [] => None
  | x :: l => if test x then Some (f x :: l) else cons x <$> change_one test f l
  end.

(** The first conversation in which one message changes. *)
Fixpoint change_in (test : MessageRecord -> bool) (f : MessageRecord -> MessageRecord)
    (rows : list (string * list MessageRecord)) : option (string * list MessageRecord) :=
  match rows with
  | [] => None
  | (k, ms) :: rows => match change_one test f ms with
                       | Some ms => Some (k, ms)
                       | None => change_in test f rows
                       end
  end.

Definition UpdateMessageState (clientMessageId : Z) (state : MessageDeliveryState) : App unit := fun a =>
  match change_in (fun m => (mr_clientMessageId m =? clientMessageId) && CanTransition (mr_deliveryState m) state)
                  (MessageList.with_state state) (each (sn_messagesByConversation (a_snapshot a))) with
  | None => (tt, a)
  | Some (k, ms) =>
      (do! put_messages_of k ms in
       do! (let! _ := repo (port_UpdateDeliveryState clientMessageId state) in pure tt) in
       writes (fun a => put_messages (MessageList.UpdateDeliveryState clientMessageId state (a_messages a)).2 a)) a
  end.

Definition SetConnectionStatus (status : string) : App unit := snap (put_sn_connectionStatus status).

(** ** Requests of others *)

Definition with_status (status : string) (r : RequestRecord) : RequestRecord :=
  mkRequestRecord (rr_requestId r) (rr_displayName r) (rr_message r) (rr_avatarColor r) (rr_kind r) (Some status).

Definition SetRequestStatus (index : Z) (status : string) (persist : bool) : App unit := fun a =>
  let '(changed, requests) := SetStatus index (Some status) (a_requests a) in
  let a := put_requests requests a in
  let stored := sn_requests (a_snapshot a) in
  if negb changed || negb persist || (index <? 0) || (Z.of_nat (length stored) <=? index) then (tt, a)
  else
    (do! snap (put_sn_requests (alter (with_status status) (Z.to_nat index) stored)) in
     let! stored := reads (fun a => sn_requests (a_snapshot a)) in
     let! _ := repo (port_ReplaceRequests stored) in pure tt) a.

(** ** Failures of requests *)

Definition HandleGatewayFailure (requestId : string) (errorCode : Z) (outcomeUnknown : bool) : App unit :=
  let! outgoing := reads (fun a => a_outgoing a !! requestId) in
  do! match outgoing with
      | None => pure tt
      | Some clientMessageId =>
          do! writes (fun a => put_outgoing (delete requestId (a_outgoing a)) a) in
          UpdateMessageState clientMessageId
            (if outcomeUnknown then Unknown
             else if ClientProtocol.IsRetryableError errorCode then RetryableFailed else PermanentFailed)
      end in
  do! writes (fun a => put_sync (delete requestId (a_sync a)) a) in
  let! encodedRequestIndex := take_reply requestId in
  do! (if encodedRequestIndex =? 0 then pure tt
       else SetRequestStatus (Z.abs encodedRequestIndex - 1) "pending" false) in
  writes (fun a => put_groups (delete requestId (a_groups a)) a).

(** ** Calls of the gateway client *)

(** The calls that return a request id. *)
Definition ask (k : Call) : App string := fun a =>
  let requestId := uuid (a_issued a) in
  let a := put_calls (a_calls a ++ [Do k]) (put_issued (S (a_issued a)) a) in
  (do! (if a_ready a then pure tt else HandleGatewayFailure requestId DependencyUnavailable false) in
   pure requestId) a.

(** The acknowledgements. *)
Definition tell (k : Call) : App unit := writes (fun a => put_calls (a_calls a ++ [Do k]) a).

Definition send_to (peerUid groupId : option Z) (body wireClientMessageId : string) (remoteConversationId : Z)
  : App string :=
  match peerUid, groupId with
  | Some peerUid, _ => ask (CallSendText peerUid body wireClientMessageId remoteConversationId)
  | None, Some groupId => ask (CallSendGroupText groupId body wireClientMessageId remoteConversationId)
  | None, None => pure ""
  end.

(** ["%1:%2"] *)
Definition wire_id (uid clientMessageId : Z) : string := to_string uid +:+ ":" +:+ to_string (- clientMessageId).

(** ** The selected conversation *)

Definition CurrentConversationId (a : app) : string :=
  match ConversationList.RecordAt (a_selected a) (a_conversations a) with
  | None => ""
  | Some record => cr_conversationId record
  end.

Definition CurrentStateKey (a : app) : string :=
  if str_empty (CurrentConversationId a) then ""
  else sn_scenarioName (a_snapshot a) +:+ ":" +:+ CurrentConversationId a.

Definition AcknowledgeConversationRead (index : Z) : App unit := fun a =>
  if negb (a_network a) || negb (a_ready a) then (tt, a)
  else
    match ConversationList.RecordAt index (a_conversations a) with
    | None => (tt, a)
    | Some conversation =>
        match cr_remoteConversationId conversation,
              List.find (fun m => negb (mr_outgoing m) && bool_decide (is_Some (mr_messageId m)) &&
                                  bool_decide (is_Some (mr_conversationSeq m)))
                (rev (messages_of (cr_conversationId conversation) a)) with
        | Some remote, Some m =>
            tell (CallAcknowledgeRead (default 0 (mr_messageId m)) remote (default 0 (mr_conversationSeq m))) a
        | _, _ => (tt, a)
        end
    end.

(** A change of the first conversation of the snapshot with that id, and what
    follows with the changed record. *)
Definition with_unread (n : Z) (c : ConversationRecord) : ConversationRecord :=
  ConversationList.with_flags n (cr_pinned c) (cr_muted c) c.

Definition snapshot_conversation (conversationId : string) (a : app) : option ConversationRecord :=
  snd <$> list_find (fun c => cr_conversationId c = conversationId) (sn_conversations (a_snapshot a)).

Definition change_snapshot (conversationId : string) (f : ConversationRecord -> ConversationRecord) : App unit :=
  snap (fun s => put_sn_conversations
    (ConversationList.change_first (fun c => bool_decide (cr_conversationId c = conversationId)) f (sn_conversations s)).2 s).

Definition markRead (index : Z) : App unit := fun a =>
  match ConversationList.RecordAt index (a_conversations a) with
  | None => (tt, a)
  | Some record =>
      let conversationId := cr_conversationId record in
      (do! writes (fun a => put_conversations (ConversationList.MarkRead index (a_conversations a)).2 a) in
       do! change_snapshot conversationId (with_unread 0) in
       let! changed := reads (snapshot_conversation conversationId) in
       do! match changed with
           | None => pure tt
           | Some conversation => let! _ := repo (port_SaveConversation conversation) in pure tt
           end in
       AcknowledgeConversationRead index) a
  end.

Definition selectConversation (index : Z) : App unit := fun a =>
  match ConversationList.RecordAt index (a_conversations a) with
  | None => (tt, a)
  | Some record =>
      (do! writes (put_selected index) in
       do! writes (fun a => put_messages (MessageList.SetRecords (messages_of (cr_conversationId record) a)
                                            (cr_unreadCount record) (a_messages a)) a) in
       markRead index) a
  end.

(** ** Conversations *)

Definition EnsureConversation (conversationId : string) (title avatarColor : text) : App string := fun a =>
  if 0 <=? ConversationList.IndexOf conversationId (a_conversations a) then (conversationId, a)
  else
    let conversation := mkConversationRecord conversationId title None None avatarColor None 0 false false false in
    (let! saved := repo (port_SaveConversation conversation) in
     if negb saved then pure ""
     else
       do! snap (fun s => put_sn_conversations (conversation :: sn_conversations s) s) in
       do! put_messages_of conversationId [] in
       do! writes (fun a => if 0 <=? a_selected a then put_selected (a_selected a + 1) a else a) in
       do! writes (fun a => put_conversations (ConversationList.Prepend conversation (a_conversations a)) a) in
       pure conversationId) a.

Definition EnsureDirectConversation (peerUid : Z) (title avatarColor : text) : App string :=
  EnsureConversation (DirectConversationId peerUid) title avatarColor.
Definition EnsureGroupConversation (groupId : Z) (title : text) : App string :=
  EnsureConversation (GroupConversationId groupId) title (Some "#7656A8").

Definition AttachRemoteConversation (localConversationId : string) (remoteConversationId : Z) : App unit :=
  if remoteConversationId <=? 0 then pure tt
  else
    let! found := reads (snapshot_conversation localConversationId) in
    match found with
    | None => pure tt
    | Some conversation =>
        if bool_decide (cr_remoteConversationId conversation = Some remoteConversationId) then pure tt
        else
          do! change_snapshot localConversationId (ConversationList.with_remote remoteConversationId) in
          do! writes (fun a => put_conversations
                (ConversationList.SetRemoteConversationId localConversationId remoteConversationId (a_conversations a)).2 a) in
          let! _ := repo (port_SetRemoteConversationId localConversationId remoteConversationId) in pure tt
    end.


(** ** What the user does *)

Definition draftText (a : app) : string := default "" (a_drafts a !! CurrentStateKey a).

Definition setDraftText (draft : string) : App unit := fun a =>
  let key := CurrentStateKey a in
  if str_empty key || bool_decide (default "" (a_drafts a !! key) = draft) then (tt, a)
  else
    (do! writes (fun a => put_drafts (<[key := draft]> (a_drafts a)) a) in
     let! conversationId := reads CurrentConversationId in
     let! _ := repo (port_StoreDraft conversationId (Some draft)) in pure tt) a.

Definition sections : list string := ["chats"; "contacts"; "requests"; "settings"].

Definition setCurrentSection (section : string) : App unit := fun a =>
  if bool_decide (a_section a = section) || negb (bool_decide (section ∈ sections)) then (tt, a)
  else (tt, put_section section a).

(** The transitions of the demonstration without a network. *)
Definition transitions : list (Z * MessageDeliveryState) :=
  [(350, WaitingAccept); (900, Accepted); (1500, Delivered); (2300, Read)].

Definition ScheduleDeliveryLifecycle (clientMessageId : Z) : App unit :=
  writes (fun a => put_timers (a_timers a ++
    ((fun t : Z * MessageDeliveryState => (t.1, clientMessageId, t.2)) <$> transitions)) a).

(** [outgoing_request_messages_.insert] *)
Definition expect (requestId : string) (clientMessageId : Z) : App unit :=
  writes (fun a => put_outgoing (<[requestId := clientMessageId]> (a_outgoing a)) a).

(** The message that is sent, once it is in the repository or not. *)
Definition new_message (clientMessageId : Z) (body timestamp : string) (state : MessageDeliveryState) : MessageRecord :=
  mkMessageRecord clientMessageId None None (Some "me") (Some body) (Some timestamp) true state.

(** What is sent for a message of that conversation. *)
Definition transmit (conversation : ConversationRecord) (clientMessageId : Z) (body : string) : App unit :=
  let id := cr_conversationId conversation in
  match DirectPeerUid id, GroupId id with
  | None, None => UpdateMessageState clientMessageId PermanentFailed
  | peerUid, groupId =>
      let! ready := reads a_ready in
      if negb ready then UpdateMessageState clientMessageId Unknown
      else
        do! UpdateMessageState clientMessageId WaitingAccept in
        let! uid := reads a_uid in
        let! requestId := send_to peerUid groupId body (wire_id uid clientMessageId)
                            (default 0 (cr_remoteConversationId conversation)) in
        expect requestId clientMessageId
  end.

Definition sendMessage (text : string) : App unit := fun a =>
  let body := trimmed text in
  match ConversationList.RecordAt (a_selected a) (a_conversations a) with
  | None => (tt, a)
  | Some conversation =>
      if str_empty body then (tt, a)
      else
        let id := cr_conversationId conversation in
        let clientMessageId := a_next_id a in
        (do! writes (put_next_id (clientMessageId - 1)) in
         let! timestamp := now_text in
         let! queued := repo (port_EnqueueOutgoing id (new_message clientMessageId body timestamp PendingLocal)) in
         let message := new_message clientMessageId body timestamp (if queued then PendingLocal else PermanentFailed) in
         let! ms := reads (messages_of id) in
         do! put_messages_of id (ms ++ [message]) in
         do! writes (fun a => put_messages (MessageList.Append message (a_messages a)) a) in
         do! writes (fun a => put_conversations
               (ConversationList.UpdatePreview id (Some body) (Some timestamp) (a_conversations a)) a) in
         do! change_snapshot id (ConversationList.with_preview (Some body) (Some timestamp)) in
         do! writes (fun a => put_drafts (delete (CurrentStateKey a) (a_drafts a)) a) in
         let! network := reads a_network in
         if negb queued then pure tt
         else if (network : bool) then transmit conversation clientMessageId body
         else ScheduleDeliveryLifecycle clientMessageId) a
  end.

Definition find_message (clientMessageId : Z) (a : app) : option (string * MessageRecord) :=
  head (omap (fun row : string * list MessageRecord =>
      pair row.1 <$> List.find (fun m => mr_clientMessageId m =? clientMessageId) row.2)
    (each (sn_messagesByConversation (a_snapshot a)))).

Definition retryMessage (clientMessageId : Z) : App unit := fun a =>
  match find_message clientMessageId a with
  | None => (tt, a)
  | Some (conversationId, found) =>
      if negb (mr_outgoing found) || negb (bool_decide (mr_deliveryState found = RetryableFailed)) then (tt, a)
      else if str_empty conversationId then (tt, a)
      else if negb (a_network a) then
        (do! UpdateMessageState clientMessageId PendingLocal in ScheduleDeliveryLifecycle clientMessageId) a
      else if negb (a_ready a) then (tt, a)
      else
        match DirectPeerUid conversationId, GroupId conversationId with
        | None, None => (tt, a)
        | peerUid, groupId =>
            let remote := ConversationList.RecordAt (ConversationList.IndexOf conversationId (a_conversations a))
                            (a_conversations a) ≫= cr_remoteConversationId in
            (do! UpdateMessageState clientMessageId WaitingAccept in
             let! requestId := send_to peerUid groupId (default "" (mr_body found)) (wire_id (a_uid a) clientMessageId)
                                 (default 0 remote) in
             expect requestId clientMessageId) a
        end
  end.

Definition togglePinned (index : Z) : App unit :=
  writes (fun a => put_conversations (ConversationList.TogglePinned index (a_conversations a)).2 a).
Definition toggleMuted (index : Z) : App unit :=
  writes (fun a => put_conversations (ConversationList.ToggleMuted index (a_conversations a)).2 a).

Definition selectContact (index : Z) : App unit := fun a =>
  match at_row index (a_contacts a) with
  | None => (tt, a)
  | Some _ => (tt, put_selected_contact index a)
  end.
Definition toggleContactFavorite (index : Z) : App unit :=
  writes (fun a => put_contacts (ToggleFavorite index (a_contacts a)).2 a).

(** The reply that a request asks for. *)
Definition reply_call (request : RequestRecord) (accepted : bool) : option Call :=
  if text_eq (rr_kind request) (Some "group") then
    match split ":"%char (rr_requestId request) with
    | [_; group; user] =>
        match toLongLong group, toLongLong user with
        | Some groupId, Some userId => Some (CallReplyJoinGroup groupId userId accepted)
        | _, _ => None
        end
    | _ => None
    end
  else
    match toLongLong (rr_requestId request) with
    | Some userId => if userId <=? 0 then None else Some (CallReplyFriendRequest userId accepted "")
    | None => None
    end.

Definition resolveRequest (index : Z) (accepted : bool) : App unit := fun a =>
  match at_row index (a_requests a) with
  | None => (tt, a)
  | Some request =>
      if negb (text_eq (rr_status request) (Some "pending")) then (tt, a)
      else if negb (a_network a) then SetRequestStatus index (if accepted then "accepted" else "declined") true a
      else if negb (a_ready a) then (tt, a)
      else
        match reply_call request accepted with
        | None => (tt, a)
        | Some k =>
            (let! requestId := ask k in
             do! writes (fun a => put_replies
                   (<[requestId := if accepted then index + 1 else - (index + 1)]> (a_replies a)) a) in
             SetRequestStatus index (if accepted then "accepting" else "declining") false) a
        end
  end.

(** ** Signing in *)

Definition authRequired (a : app) : bool :=
  negb (a_auth_completed a) &&
  (a_network a || bool_decide (sn_connectionStatus (a_snapshot a) = "auth-expired")).

Definition completeAuthentication : App unit := fun a =>
  if negb (authRequired a) then (tt, a)
  else (do! writes (put_auth_completed true) in SetConnectionStatus "online") a.

Definition gate (k : GateCall) : App unit := writes (fun a => put_gate_calls (a_gate_calls a ++ [k]) a).

Definition authenticate (username password : string) : App unit := fun a =>
  if negb (a_network a) then completeAuthentication a
  else if a_busy a then (tt, a)
  else if str_empty (trimmed username) || str_empty password then (tt, a)
  else
    (do! writes (put_busy true) in
     do! SetConnectionStatus "connecting" in
     gate (CallSignIn (trimmed username) password)) a.

(** The other three requests to the gate. *)
Definition account_request (complete : bool) (k : GateCall) : App unit := fun a =>
  if negb (a_network a) || a_busy a then (tt, a)
  else if negb complete then (tt, a)
  else (do! writes (put_busy true) in gate k) a.

Definition requestVerificationCode (email : string) : App unit :=
  account_request (negb (str_empty (trimmed email))) (CallRequestVerificationCode (trimmed email)).
Definition registerAccount (username password email verificationCode : string) : App unit :=
  account_request (negb (str_empty (trimmed username) || str_empty password || str_empty (trimmed email) ||
                         str_empty (trimmed verificationCode)))
    (CallSignUp (trimmed username) password (trimmed email) (trimmed verificationCode)).
Definition resetPassword (username email verificationCode newPassword : string) : App unit :=
  account_request (negb (str_empty (trimmed username) || str_empty (trimmed email) ||
                         str_empty (trimmed verificationCode) || str_empty newPassword))
    (CallForgetPassword (trimmed username) (trimmed email) (trimmed verificationCode) newPassword).

(** ** Contacts and groups *)

(** [selectConversation(conversations_.IndexOf(id))] *)
Definition show_conversation (conversationId : string) : App unit :=
  do! setCurrentSection "chats" in
  let! index := reads (fun a => ConversationList.IndexOf conversationId (a_conversations a)) in
  selectConversation index.

Definition startConversationWithSelectedContact : App unit := fun a =>
  match at_row (a_selected_contact a) (a_contacts a) with
  | None => (tt, a)
  | Some contact =>
      let valid := match toLongLong (ct_userId contact) with Some uid => 0 <? uid | None => false end in
      if negb valid then (if a_network a then (tt, a) else setCurrentSection "chats" a)
      else
        (let! conversationId := EnsureDirectConversation (default 0 (toLongLong (ct_userId contact)))
                                  (ct_displayName contact) (ct_avatarColor contact) in
         show_conversation conversationId) a
  end.

(** A request about a user or a group that the user typed. *)
Definition typed_request (id : string) (k : Z -> Call) : App unit := fun a =>
  match toLongLong id with
  | None => (tt, a)
  | Some number =>
      if (number <=? 0) || negb (a_network a) || negb (a_ready a) then (tt, a)
      else (let! _ := ask (k number) in pure tt) a
  end.

Definition sendFriendRequest (uid message : string) : App unit :=
  typed_request uid (fun recipientUid => CallSendFriendRequest recipientUid (trimmed message)).
Definition joinGroup (groupId message : string) : App unit :=
  typed_request groupId (fun numericGroupId => CallRequestJoinGroup numericGroupId (trimmed message)).

Definition createGroup (name : string) : App unit := fun a =>
  let trimmedName := trimmed name in
  if str_empty trimmedName then (tt, a)
  else if negb (a_network a) then
    (do! writes (fun a => put_next_group (a_next_group a + 1) a) in
     let! group := reads a_next_group in
     let! conversationId := EnsureGroupConversation group (Some trimmedName) in
     show_conversation conversationId) a
  else if negb (a_ready a) then (tt, a)
  else
    (let! requestId := ask (CallCreateGroup trimmedName) in
     writes (fun a => put_groups (<[requestId := trimmedName]> (a_groups a)) a)) a.

(** ** Signals of the gate client *)

Definition on_gate (s : GateSignal) : App unit :=
  match s with
  | SignInSucceeded session =>
      do! writes (put_uid (gs_uid session)) in
      do! SetConnectionStatus "connecting" in
      writes (fun a => put_calls (a_calls a ++ [OpenSession session]) a)
  | OperationFailed operation _ _ =>
      do! writes (put_busy false) in
      if bool_decide (operation = "sign-in") then SetConnectionStatus "auth-expired" else pure tt
  | OperationSucceeded operation _ =>
      if bool_decide (operation = "sign-in") then pure tt else writes (put_busy false)
  end.

(** ** After a login *)

Definition pull (remoteConversationId after : Z) (localConversationId : string) : App unit :=
  let! requestId := ask (CallPullConversationMessages remoteConversationId after 50) in
  writes (fun a => put_sync (<[requestId := localConversationId]> (a_sync a)) a).

Definition SyncKnownConversations : App unit :=
  let! conversations := reads (fun a => sn_conversations (a_snapshot a)) in
  for_each conversations (fun conversation =>
    match cr_remoteConversationId conversation with
    | None => pure tt
    | Some remote =>
        let! cursor := repo (port_SyncCursor (cr_conversationId conversation)) in
        pull remote cursor (cr_conversationId conversation)
    end).

Definition resumable (state : MessageDeliveryState) : bool :=
  match state with PendingLocal | WaitingAccept | Unknown | RetryableFailed => true | _ => false end.

(** One message of a conversation; it is read when its turn comes. *)
Definition resume_message (conversationId : string) (peerUid groupId : option Z) (remote : Z) (i : nat) : App unit :=
  let! found := reads (fun a => messages_of conversationId a !! i) in
  match found with
  | None => pure tt
  | Some message =>
      if negb (mr_outgoing message) || negb (resumable (mr_deliveryState message)) then pure tt
      else
        let clientMessageId := mr_clientMessageId message in
        do! (if decide (mr_deliveryState message = WaitingAccept) then pure tt
             else UpdateMessageState clientMessageId WaitingAccept) in
        let! uid := reads a_uid in
        let! requestId := send_to peerUid groupId (default "" (mr_body message)) (wire_id uid clientMessageId) remote in
        expect requestId clientMessageId
  end.

(** The messages of one conversation. *)
Definition resume_conversation (row : string * list MessageRecord) : App unit :=
  match DirectPeerUid row.1, GroupId row.1 with
  | None, None => pure tt
  | peerUid, groupId =>
      let! remote := reads (fun a => ConversationList.RecordAt (ConversationList.IndexOf row.1 (a_conversations a))
                                       (a_conversations a) ≫= cr_remoteConversationId) in
      for_each (seq 0 (length row.2)) (resume_message row.1 peerUid groupId (default 0 remote))
  end.

Definition ResumePendingOutgoing : App unit :=
  let! rows := reads (fun a => each (sn_messagesByConversation (a_snapshot a))) in
  for_each rows resume_conversation.

Definition on_authenticated : App unit :=
  do! writes (put_busy false) in
  do! writes (put_auth_completed true) in
  do! SetConnectionStatus "online" in
  let! _ := ask CallPullFriendList in
  let! _ := ask CallPullFriendApplications in
  do! SyncKnownConversations in
  ResumePendingOutgoing.

Definition on_credentials_expired : App unit :=
  do! writes (put_auth_completed false) in
  do! writes (put_busy false) in
  SetConnectionStatus "auth-expired".

Definition on_state (state : CState) : App unit :=
  do! writes (put_ready (bool_decide (state = Ready))) in
  match state with
  | Connecting | Authenticating => SetConnectionStatus "connecting"
  | Reconnecting => SetConnectionStatus "reconnecting"
  | Disconnected =>
      let! completed := reads a_auth_completed in
      if (completed : bool) then SetConnectionStatus "offline-cached" else pure tt
  | _ => pure tt
  end.

(** ** Responses *)

(** A [string] of a message: an empty one is not on the wire and stays null. *)
Definition wire_text (s : string) : text := if str_empty s then None else Some s.

Definition on_create_group (requestId : string) (errorCode : Z) (response : Packet) : App unit :=
  let! groupName := take_group requestId in
  if negb (errorCode =? Success) || negb (has_int F_gid response) then pure tt
  else
    let gid := get_int F_gid response in
    let! localConversationId := EnsureGroupConversation gid
        (Some (if str_empty groupName then tr_uid "群聊 %1" gid else groupName)) in
    show_conversation localConversationId.

Definition accepted_message (messageId conversationSeq : Z) (m : MessageRecord) : MessageRecord :=
  mkMessageRecord (mr_clientMessageId m) (Some messageId) (Some conversationSeq) (mr_senderId m) (mr_body m)
    (mr_timestamp m) (mr_outgoing m) Accepted.

(** The first message with that client id in each conversation visited, up to one
    whose name is not empty: the changed conversations, that name. *)
Fixpoint accept_rows (clientMessageId : Z) (f : MessageRecord -> MessageRecord) (rows : list (string * list MessageRecord))
  : list (string * list MessageRecord) * string :=
  match rows with
  | [] => ([], "")
  | (k, ms) :: rows =>
      match change_one (fun m => mr_clientMessageId m =? clientMessageId) f ms with
      | None => accept_rows clientMessageId f rows
      | Some ms =>
          if str_empty k then let '(changed, name) := accept_rows clientMessageId f rows in ((k, ms) :: changed, name)
          else ([(k, ms)], k)
      end
  end.

Definition on_send_text (requestId : string) (errorCode : Z) (response : Packet) : App unit :=
  let! found := reads (fun a => a_outgoing a !! requestId) in
  match found with
  | None => pure tt
  | Some clientMessageId =>
      do! writes (fun a => put_outgoing (delete requestId (a_outgoing a)) a) in
      if negb (errorCode =? Success) || negb (has_int F_message_id response) ||
         negb (has_int F_conversation_id response) || negb (has_int F_conversation_seq response)
      then UpdateMessageState clientMessageId
             (if get_bool F_retryable response || ClientProtocol.IsRetryableError errorCode
              then RetryableFailed else PermanentFailed)
      else
        let messageId := get_int F_message_id response in
        let conversationSeq := get_int F_conversation_seq response in
        let! rows := reads (fun a => each (sn_messagesByConversation (a_snapshot a))) in
        let '(changed, localConversationId) := accept_rows clientMessageId (accepted_message messageId conversationSeq) rows in
        do! for_each changed (fun row => put_messages_of row.1 row.2) in
        if str_empty localConversationId then pure tt
        else
          let! _ := repo (port_AcceptOutgoing clientMessageId messageId localConversationId conversationSeq) in
          do! writes (fun a => put_messages (MessageList.UpdateDeliveryState clientMessageId Accepted (a_messages a)).2 a) in
          AttachRemoteConversation localConversationId (get_int F_conversation_id response)
  end.

Definition colors : list string := ["#315FD6"; "#7656A8"; "#247B6B"; "#A05A4E"].

Definition contact_of (existing : list ContactRecord) (f : PUserInfo) : ContactRecord :=
  let uid := to_string (pu_uid f) in
  mkContactRecord uid (Some (if str_empty (pu_name f) then tr_uid "用户 %1" (pu_uid f) else pu_name f))
    (Some (tr_uid "WIMI 用户 · %1" (pu_uid f))) (colors !! Z.to_nat (Z.rem (pu_uid f) 4)) false
    (match List.find (fun c => bool_decide (ct_userId c = uid)) existing with Some c => ct_favorite c | None => false end).

(** The color of a negative id is out of range. *)
Definition on_friend_list (errorCode : Z) (response : Packet) : App unit :=
  if negb (errorCode =? Success) then pure tt
  else if existsb (fun f => Z.rem (pu_uid f) 4 <? 0) (p_friend_list response) then undefined
  else
    let! existing := reads (fun a => sn_contacts (a_snapshot a)) in
    let contacts := contact_of existing <$> p_friend_list response in
    do! snap (put_sn_contacts contacts) in
    do! writes (put_contacts contacts) in
    do! writes (put_selected_contact (match contacts with [] => -1 | _ => 0 end)) in
    let! _ := repo (port_ReplaceContacts contacts) in pure tt.

Definition request_of (apply : PFriendApply) : RequestRecord :=
  mkRequestRecord (to_string (pf_from apply)) (Some (tr_uid "用户 %1" (pf_from apply))) (wire_text (pf_content apply))
    (Some "#367A91") (Some "friend")
    (Some (if pf_status apply =? 0 then "pending" else if pf_status apply =? 1 then "accepted" else "declined")).

(** [snapshot_.requests] with its model and its table. *)
Definition show_requests (requests : list RequestRecord) : App unit :=
  do! snap (put_sn_requests requests) in
  do! writes (put_requests requests) in
  let! _ := repo (port_ReplaceRequests requests) in pure tt.

Definition on_apply_list (errorCode : Z) (response : Packet) : App unit :=
  if negb (errorCode =? Success) then pure tt else show_requests (request_of <$> p_apply_list response).

Definition synced_message (uid : Z) (item : PChatMessage) : MessageRecord :=
  mkMessageRecord (pc_message_id item) (Some (pc_message_id item)) (Some (pc_conversation_seq item))
    (Some (to_string (pc_from item))) (wire_text (pc_content item)) (wire_text (pc_send_date_time item))
    (pc_from item =? uid)
    (if 3 <=? pc_status item then Read else if 2 <=? pc_status item then Delivered else Accepted).

Definition has_message (messageId : Z) (ms : list MessageRecord) : bool :=
  existsb (fun m => bool_decide (mr_messageId m = Some messageId)) ms.

Definition on_session_messages (requestId : string) (errorCode : Z) (response : Packet) : App unit :=
  let! localConversationId := take_sync requestId in
  if str_empty localConversationId || negb (errorCode =? Success) then pure tt
  else
    let remote := get_int F_conversation_id response in
    do! AttachRemoteConversation localConversationId remote in
    do! touch_messages localConversationId in
    let! stored := reads (messages_of localConversationId) in
    let! uid := reads a_uid in
    let additions := synced_message uid <$>
      List.filter (fun item => negb (has_message (pc_message_id item) stored)) (p_message_list response) in
    let! nextCursor := (if has_int F_next_seq response then pure (get_int F_next_seq response)
                        else repo (port_SyncCursor localConversationId)) in
    let! applied := repo (port_ApplyIncomingBatch localConversationId additions nextCursor) in
    if negb applied then pure tt
    else
      do! put_messages_of localConversationId (stored ++ additions) in
      do! for_each additions (fun m =>
        if mr_outgoing m then pure tt
        else tell (CallAcknowledgeDelivered (default 0 (mr_messageId m)) remote (default 0 (mr_conversationSeq m)))) in
      let! current := reads CurrentConversationId in
      do! (if decide (current = localConversationId) then
             do! writes (fun a => put_messages (MessageList.SetRecords (messages_of localConversationId a) (-1) (a_messages a)) a) in
             let! selected := reads a_selected in AcknowledgeConversationRead selected
           else pure tt) in
      if get_bool F_has_more response && has_int F_next_seq response
      then pull remote (get_int F_next_seq response) localConversationId
      else pure tt.

Definition on_reply (requestId : string) (errorCode : Z) : App unit :=
  let! reply := reads (fun a => a_replies a !! requestId) in
  match reply with
  | None => pure tt
  | Some encodedIndex =>
      do! writes (fun a => put_replies (delete requestId (a_replies a)) a) in
      if errorCode =? Success then
        do! SetRequestStatus (Z.abs encodedIndex - 1) (if 0 <? encodedIndex then "accepted" else "declined") true in
        let! _ := ask CallPullFriendList in pure tt
      else SetRequestStatus (Z.abs encodedIndex - 1) "pending" false
  end.

Definition HandleGatewayResponse (requestId : string) (serviceId : Z) (payload : string) : App unit :=
  match ParseProtobufPacket payload with
  | None => pure tt
  | Some response =>
      let errorCode := if has_int F_error response then int32 (get_int F_error response) else 0 in
      if serviceId =? ID_GROUP_CREATE_RSP then on_create_group requestId errorCode response
      else if (serviceId =? ID_TEXT_SEND_RSP) || (serviceId =? ID_GROUP_TEXT_SEND_RSP)
      then on_send_text requestId errorCode response
      else if serviceId =? ID_PULL_FRIEND_LIST_RSP then on_friend_list errorCode response
      else if serviceId =? ID_PULL_FRIEND_APPLY_LIST_RSP then on_apply_list errorCode response
      else if serviceId =? ID_PULL_SESSION_MESSAGE_LIST_RSP then on_session_messages requestId errorCode response
      else on_reply requestId errorCode
  end.

(** ** Pushes *)

(** [PacketSendDateTimeOrEmpty] *)
Definition send_time (packet : Packet) : text := p_str packet !! F_send_date_time.

Definition pushed_message (messageId : Z) (now : string) (packet : Packet) : MessageRecord :=
  mkMessageRecord messageId (Some messageId) (p_int packet !! F_conversation_seq) (Some (to_string (get_int F_from packet)))
    (p_str packet !! F_data) (if isEmpty (send_time packet) then Some now else send_time packet) false Delivered.

(** One more unread message in the first conversation with that id. *)
Definition count_unread (conversationId : string) : App unit :=
  let! found := reads (snapshot_conversation conversationId) in
  match found with
  | None => pure tt
  | Some conversation =>
      let unread := cr_unreadCount conversation + 1 in
      do! change_snapshot conversationId (with_unread unread) in
      do! writes (fun a => put_conversations (ConversationList.SetUnreadCount conversationId unread (a_conversations a)).2 a) in
      let! _ := repo (port_SaveConversation (with_unread unread conversation)) in pure tt
  end.

(** The conversation of a pushed text. *)
Definition push_conversation (group : bool) (packet : Packet) : App string :=
  if group then
    let gid := get_int F_gid packet in
    let localConversationId := GroupConversationId gid in
    let! index := reads (fun a => ConversationList.IndexOf localConversationId (a_conversations a)) in
    do! (if index <? 0 then let! _ := EnsureGroupConversation gid (Some (tr_uid "群聊 %1" gid)) in pure tt else pure tt) in
    pure localConversationId
  else
    let from := get_int F_from packet in
    EnsureDirectConversation from (Some (tr_uid "用户 %1" from)) (Some "#315FD6").

(** What the application knows of a new message once it is in the repository. *)
Definition show_incoming (localConversationId : string) (incoming : MessageRecord) : App unit :=
  let! stored := reads (messages_of localConversationId) in
  do! put_messages_of localConversationId (stored ++ [incoming]) in
  let! current := reads CurrentConversationId in
  do! (if decide (current = localConversationId)
       then writes (fun a => put_messages (MessageList.Append incoming (a_messages a)) a) else pure tt) in
  let! now := (if isEmpty (mr_timestamp incoming) then now_text else pure "") in
  let previewTimestamp := DisplayTimestamp now (mr_timestamp incoming) in
  do! writes (fun a => put_conversations
        (ConversationList.UpdatePreview localConversationId (mr_body incoming) previewTimestamp (a_conversations a)) a) in
  change_snapshot localConversationId (ConversationList.with_preview (mr_body incoming) previewTimestamp).

Definition on_text (group : bool) (packet : Packet) : App unit :=
  let! localConversationId := push_conversation group packet in
  do! (if has_int F_conversation_id packet
       then AttachRemoteConversation localConversationId (get_int F_conversation_id packet) else pure tt) in
  let messageId := if has_int F_message_id packet then get_int F_message_id packet else get_int F_seq packet in
  do! touch_messages localConversationId in
  let! stored := reads (messages_of localConversationId) in
  if has_message messageId stored then tell (CallAcknowledgeTransport messageId)
  else
    let! now := (if isEmpty (send_time packet) then now_text else pure "") in
    let incoming := pushed_message messageId now packet in
    let! fallback := repo (port_SyncCursor localConversationId) in
    let cursor := default fallback (mr_conversationSeq incoming) in
    let! applied := repo (port_ApplyIncomingBatch localConversationId [incoming] cursor) in
    if negb applied then pure tt
    else
      do! show_incoming localConversationId incoming in
      do! tell (CallAcknowledgeTransport messageId) in
      if negb (has_int F_conversation_id packet) || negb (has_int F_conversation_seq packet) then pure tt
      else
        let remote := get_int F_conversation_id packet in
        let place := get_int F_conversation_seq packet in
        do! tell (CallAcknowledgeDelivered messageId remote place) in
        let! current := reads CurrentConversationId in
        if decide (current = localConversationId) then tell (CallAcknowledgeRead messageId remote place)
        else count_unread localConversationId.

Definition pushed_request (join : bool) (packet : Packet) : RequestRecord :=
  let who := get_int (if join then F_uid else F_from) packet in
  mkRequestRecord
    (if join then "group:" +:+ to_string (get_int F_gid packet) +:+ ":" +:+ to_string who else to_string who)
    (Some (tr_uid "用户 %1" who)) (p_str packet !! (if join then F_content else F_request_message)) (Some "#367A91")
    (Some (if join then "group" else "friend")) (Some "pending").

Definition acknowledge_seq (packet : Packet) : App unit :=
  if has_int F_seq packet then tell (CallAcknowledgeTransport (get_int F_seq packet)) else pure tt.

Definition on_application (join : bool) (packet : Packet) : App unit :=
  let! requests := reads (fun a => sn_requests (a_snapshot a)) in
  do! show_requests (requests ++ [pushed_request join packet]) in
  acknowledge_seq packet.

Definition on_answer (join : bool) (packet : Packet) : App unit :=
  do! acknowledge_seq packet in
  let! _ := ask CallPullFriendList in
  let! _ := ask CallPullFriendApplications in
  let! uid := reads a_uid in
  if join && get_bool F_accept packet && (get_int F_requestor_uid packet =? uid) && (0 <? get_int F_gid packet)
  then let! _ := EnsureGroupConversation (get_int F_gid packet) (Some (tr_uid "群聊 %1" (get_int F_gid packet))) in pure tt
  else pure tt.

Definition HandleGatewayPush (serviceId : Z) (payload : string) : App unit :=
  match ParseProtobufPacket payload with
  | None => pure tt
  | Some packet =>
      if serviceId =? ID_TEXT_SEND_REQ then on_text false packet
      else if serviceId =? ID_GROUP_TEXT_SEND_REQ then on_text true packet
      else if serviceId =? ID_NOTIFY_ADD_FRIEND_REQ then on_application false packet
      else if serviceId =? ID_GROUP_NOTIFY_JOIN_REQ then on_application true packet
      else if serviceId =? ID_REPLY_ADD_FRIEND_REQ then on_answer false packet
      else if serviceId =? ID_GROUP_REPLY_JOIN_REQ then on_answer true packet
      else pure tt
  end.

(** ** Start *)

Definition AppLoadScenario (scenarioName : string) : App unit :=
  let! s := repo (port_LoadScenario scenarioName) in
  do! snap (fun _ => s) in
  do! writes (put_next_id (foldl (fun n row => foldl (fun n m => Z.min n (mr_clientMessageId m - 1)) n row.2) (-1000)
                             (each (sn_messagesByConversation s)))) in
  do! writes (put_conversations (sn_conversations s)) in
  do! writes (put_contacts (sn_contacts s)) in
  do! writes (put_requests (sn_requests s)) in
  do! writes (fun a => put_drafts (foldl (fun d row => <[sn_scenarioName s +:+ ":" +:+ row.1 := row.2]> d) (a_drafts a)
                                     (each (sn_draftsByConversation s))) a) in
  do! writes (put_selected (match sn_conversations s with [] => -1 | _ => 0 end)) in
  do! writes (put_selected_contact (match sn_contacts s with [] => -1 | _ => 0 end)) in
  do! writes (put_auth_completed false) in
  writes (fun a => put_messages
    (match sn_conversations s with
     | [] => MessageList.SetRecords [] 0 (a_messages a)
     | c :: _ => MessageList.SetRecords (messages_of (cr_conversationId c) a) (cr_unreadCount c) (a_messages a)
     end) a).

Definition setScenarioName (scenarioName : string) : App unit := fun a =>
  if bool_decide (sn_scenarioName (a_snapshot a) = scenarioName) ||
     negb (bool_decide (scenarioName ∈ ScenarioNames (a_repository a)))
  then (tt, a) else AppLoadScenario scenarioName a.

(** What [ConfigureNetwork] leaves besides the connections of the signals. *)
Definition ConfigureNetwork : App unit :=
  do! writes (put_auth_completed false) in SetConnectionStatus "auth-required".

(** ** Events *)

Inductive app_event :=
  | UiScenario (name : string)
  | UiDraft (draft : string)
  | UiSection (section : string)
  | UiSelect (index : Z)
  | UiSend (text : string)
  | UiRetry (clientMessageId : Z)
  | UiTogglePinned (index : Z)
  | UiToggleMuted (index : Z)
  | UiMarkRead (index : Z)
  | UiSelectContact (index : Z)
  | UiToggleFavorite (index : Z)
  | UiResolve (index : Z) (accepted : bool)
  | UiAuthenticate (username password : string)
  | UiRequestCode (email : string)
  | UiRegister (username password email verificationCode : string)
  | UiReset (username email verificationCode newPassword : string)
  | UiStartConversation
  | UiFriendRequest (uid message : string)
  | UiCreateGroup (name : string)
  | UiJoinGroup (groupId message : string)
  | UiCompleteAuthentication
  | OnGate (s : GateSignal)
  | OnGateway (s : Signal)
  | OnTimer (i : nat).

Definition on_gateway (s : Signal) : App unit :=
  match s with
  | StateChanged state => on_state state
  | Authenticated => on_authenticated
  | CredentialsExpired => on_credentials_expired
  | ResponseReceived requestId serviceId payload => HandleGatewayResponse requestId serviceId payload
  | PushReceived serviceId payload => HandleGatewayPush serviceId payload
  | RequestFailed requestId _ errorCode outcomeUnknown => HandleGatewayFailure requestId errorCode outcomeUnknown
  | ProtocolError => pure tt
  end.

(** A single shot that fires is gone. *)
Definition fire_timer (i : nat) : App unit := fun a =>
  match a_timers a !! i with
  | None => (tt, a)
  | Some (_, clientMessageId, state) =>
      UpdateMessageState clientMessageId state (put_timers (delete i (a_timers a)) a)
  end.

Definition app_event_step (e : app_event) : App unit :=
  match e with
  | UiScenario name => setScenarioName name
  | UiDraft draft => setDraftText draft
  | UiSection section => setCurrentSection section
  | UiSelect index => selectConversation index
  | UiSend text => sendMessage text
  | UiRetry id => retryMessage id
  | UiTogglePinned index => togglePinned index
  | UiToggleMuted index => toggleMuted index
  | UiMarkRead index => markRead index
  | UiSelectContact index => selectContact index
  | UiToggleFavorite index => toggleContactFavorite index
  | UiResolve index accepted => resolveRequest index accepted
  | UiAuthenticate u p => authenticate u p
  | UiRequestCode e => requestVerificationCode e
  | UiRegister u p e c => registerAccount u p e c
  | UiReset u e c p => resetPassword u e c p
  | UiStartConversation => startConversationWithSelectedContact
  | UiFriendRequest u m => sendFriendRequest u m
  | UiCreateGroup n => createGroup n
  | UiJoinGroup g m => joinGroup g m
  | UiCompleteAuthentication => completeAuthentication
  | OnGate s => on_gate s
  | OnGateway s => on_gateway s
  | OnTimer i => fire_timer i
  end.

Definition run_app (es : list app_event) (a : app) : app := foldl (fun a e => (app_event_step e a).2) a es.

(** The constructor: the state before, and what it does. *)
Definition no_app (r : R) (network : bool) : app :=
  mkApp r (mkSnapshot "" "" [] ∅ [] [] ∅) [] (mkMessageList [] (-1)) [] [] (-1) (-1000) 900000 ∅ "chats" (-1) false network
    false 0 ∅ ∅ ∅ ∅ false 0 [] [] [] 0 false.

Definition AppController (r : R) (network : bool) (scenario section : string) : app :=
  (do! AppLoadScenario scenario in
   do! (if network then ConfigureNetwork else pure tt) in
   setCurrentSection section) (no_app r network) |> snd.

End Operations.
