(* ===== verification/Application.v ===== *)
(** * The application: what it sends

    Theorems about file App: which identifiers the texts carry, which texts are
    sent again after a login, to whom a text of a conversation goes. *)

From S2P Require Import Prelude Const Packet Frame Client GateClient Snapshot Sqlite Ports App.

(** ** Decimal numbers *)

Lemma decimal_go n s : decimal (pretty_N_go n s) 0 = decimal s (Z.of_N n).
Proof.
  revert s. induction (N.lt_wf_0 n) as [n _ IH]; intros s.
  destruct (decide (n = 0%N)) as [->|Hn]; [by rewrite pretty_N_go_0|].
  rewrite pretty_N_go_step by lia. rewrite IH by (apply N.div_lt; lia).
  assert (exists d, (n `mod` 10 = d)%N /\ (d < 10)%N) as (d & Hd & Hlt) by (eexists; split; [done|by apply N.mod_lt]).
  assert (Z.of_N n = 10 * Z.of_N (n `div` 10)%N + Z.of_N d) as -> by (pose proof (N.div_mod n 10); lia).
  rewrite Hd. clear -Hlt.
  assert (d = 0 \/ d = 1 \/ d = 2 \/ d = 3 \/ d = 4 \/ d = 5 \/ d = 6 \/ d = 7 \/ d = 8 \/ d = 9)%N as Hd by lia.
  destruct_or! Hd; subst d; cbn [decimal pretty_N_char]; vm_compute (Z.of_N _); done.
Qed.

Lemma decimal_pretty z : 0 <= z -> decimal (to_string z) 0 = Some z.
Proof.
  intros Hz. destruct z as [|p|p]; [done| |lia]. change (decimal (pretty_N_go (N.pos p) "") 0 = Some (Z.pos p)).
  by rewrite decimal_go.
Qed.

(** A text of digits stands for a number below a power of ten, others for none. *)
Lemma decimal_cases s :
  (exists v, 0 <= v < 10 ^ Z.of_nat (String.length s) /\
             forall acc, decimal s acc = Some (acc * 10 ^ Z.of_nat (String.length s) + v)) \/
  (forall acc, decimal s acc = None).
Proof.
  induction s as [|c s IH]; cbn [decimal String.length].
  - left. exists 0. split; [done|]. intros acc. f_equal. lia.
  - rewrite Nat2Z.inj_succ, Z.pow_succ_r by lia. set (d := Z.of_N (N_of_ascii c) - 48).
    destruct (Z.leb_spec 0 d), (Z.leb_spec d 9); try (by right).
    destruct IH as [(v & Hv & IH)|IH]; [left|right; intros acc; apply IH].
    exists (d * 10 ^ Z.of_nat (String.length s) + v). split; [nia|]. intros acc. cbn [andb]. rewrite IH. f_equal. nia.
Qed.

Lemma leading_digit n s : (0 < n)%N ->
  exists c t, pretty_N_go n s = String c t /\ 1 <= Z.of_N (N_of_ascii c) - 48 <= 9.
Proof.
  revert s. induction (N.lt_wf_0 n) as [n _ IH]; intros s Hn. rewrite pretty_N_go_step by done.
  destruct (decide (n < 10)%N) as [Hlt|].
  - rewrite N.div_small, pretty_N_go_0 by done. do 2 eexists. split; [done|]. rewrite N.mod_small by done.
    assert (n = 1 \/ n = 2 \/ n = 3 \/ n = 4 \/ n = 5 \/ n = 6 \/ n = 7 \/ n = 8 \/ n = 9)%N as Hd by lia.
    by destruct_or! Hd; subst n.
  - apply IH; [by apply N.div_lt; lia|]. apply N.div_str_pos. lia.
Qed.

(** The decimal form of a positive number without its first digit. *)
Lemma without_first_digit z : 0 < z ->
  exists c t, to_string z = String c t /\ decimal t 0 = Some (z mod 10 ^ Z.of_nat (String.length t)) /\
              10 ^ Z.of_nat (String.length t) <= z < 10 ^ Z.of_nat (S (String.length t)).
Proof.
  intros Hz. pose proof (decimal_pretty z ltac:(lia)) as Hd.
  destruct z as [|p|p]; [done| |lia]. change (to_string (Z.pos p)) with (pretty_N_go (N.pos p) "") in *.
  destruct (leading_digit (N.pos p) "") as (c & t & E & Hc); [done|]. rewrite E in Hd. exists c, t. split; [done|].
  cbn [decimal] in Hd. set (d := Z.of_N (N_of_ascii c) - 48) in *.
  destruct (Z.leb_spec 0 d), (Z.leb_spec d 9); try lia. cbn [andb] in Hd.
  destruct (decimal_cases t) as [(v & Hv & Ht)|Ht]; rewrite Ht in *; [|done].
  injection Hd as Hd. rewrite Nat2Z.inj_succ, Z.pow_succ_r by lia. split; [|nia]. f_equal.
  apply (Z.mod_unique _ _ d v); lia.
Qed.

(** ** Identifiers of conversations *)

Section Identifiers.
Context `{QtText}.

Lemma mid_after p q s : String.length p = q -> mid q (p +:+ s) = s.
Proof.
  intros <-. unfold mid.
  replace (String.length (p +:+ s) - String.length p)%nat with (String.length s).
  - induction p as [|c p IH]; simpl; [|done]. induction s as [|c s IH]; simpl; [done|]. by f_equal.
  - induction p as [|c p IH]; [change ("" +:+ s) with s; simpl; by rewrite Nat.sub_0_r|done].
Qed.

Lemma prefix_append p s : String.prefix p (p +:+ s) = true.
Proof. induction p as [|c p IH]; [by destruct s|]. simpl. by destruct (ascii_dec c c). Qed.

(** A direct conversation leads back to its user. *)
Lemma DirectPeerUid_id u : 0 < u < 2 ^ 63 -> DirectPeerUid (DirectConversationId u) = Some u.
Proof.
  intros Hu. unfold DirectPeerUid, parse_after, DirectConversationId. rewrite prefix_append, mid_after by done.
  destruct (without_first_digit u) as (c & t & E & _); [lia|].
  rewrite (toLongLong_decimal _ u); [|rewrite E; discriminate|by apply decimal_pretty; lia].
  rewrite (proj2 (Z.ltb_lt _ _)) by lia. by rewrite (proj2 (Z.ltb_lt _ _)) by lia.
Qed.

(** A group conversation leads to its group without the first digit. *)
Lemma GroupId_id g : 0 < g < 2 ^ 63 ->
  exists k, 10 ^ k <= g < 10 ^ (k + 1) /\ 0 <= k /\
    GroupId (GroupConversationId g) = if 0 <? g mod 10 ^ k then Some (g mod 10 ^ k) else None.
Proof.
  intros Hg. destruct (without_first_digit g) as (c & t & E & Ed & Hk); [lia|].
  exists (Z.of_nat (String.length t)). rewrite Nat2Z.inj_succ in Hk. split; [done|]. split; [lia|].
  unfold GroupId, parse_after, GroupConversationId. rewrite prefix_append, E.
  change ("group:" +:+ String c t) with (("group:" +:+ String c "") +:+ t). rewrite mid_after by done.
  assert (g mod 10 ^ Z.of_nat (String.length t) <= g) by (apply Z.mod_le; lia).
  destruct t as [|c' t].
  - rewrite toLongLong_empty. change (10 ^ Z.of_nat (String.length "")) with 1. by rewrite Z.mod_1_r.
  - rewrite (toLongLong_decimal (String c' t) _ ltac:(discriminate) Ed). by rewrite (proj2 (Z.ltb_lt _ _)) by lia.
Qed.

Lemma GroupId_wrong g : 0 < g < 2 ^ 63 -> GroupId (GroupConversationId g) <> Some g.
Proof.
  intros Hg. destruct (GroupId_id g Hg) as (k & Hk & H0 & ->). pose proof (Z.mod_pos_bound g (10 ^ k) ltac:(lia)).
  case_match; intros [= E]. lia.
Qed.

Lemma GroupId_direct u : GroupId (DirectConversationId u) = None.
Proof. done. Qed.
Lemma DirectPeerUid_group g : DirectPeerUid (GroupConversationId g) = None.
Proof. done. Qed.
End Identifiers.

(** ** Steps that send nothing *)

Section Calm.
Context {R : Type} `{IClientRepository R} `{QtText} `{QStringHashOrder} `{QtCodec} `{Uuid}.
Local Abbreviation app := (app R).

Lemma each_lookup {A} (m : gmap string A) k x : (k, x) ∈ each m <-> m !! k = Some x.
Proof. by rewrite each_perm, elem_of_map_to_list. Qed.

Lemma change_one_spec {A} (test : A -> bool) f l l' : change_one test f l = Some l' ->
  exists l1 x l2, l = l1 ++ x :: l2 /\ test x = true /\ l' = l1 ++ f x :: l2.
Proof.
  revert l'. induction l as [|x l IH]; intros l'; simpl; [done|]. destruct (test x) eqn:E.
  - intros [= <-]. by exists [], x, l.
  - destruct (change_one test f l) as [l0|] eqn:E'; [|done]. intros [= <-].
    destruct (IH l0 eq_refl) as (l1 & y & l2 & -> & Hy & ->). by exists (x :: l1), y, l2.
Qed.

Lemma change_in_spec test f rows k ms' : change_in test f rows = Some (k, ms') ->
  exists ms, (k, ms) ∈ rows /\ change_one test f ms = Some ms'.
Proof.
  induction rows as [|[k0 ms0] rows IH]; simpl; [done|]. destruct (change_one test f ms0) as [l|] eqn:E.
  - intros [= <- <-]. exists ms0. split; [by left|done].
  - intros Hc. destruct (IH Hc) as (ms & Hin & Hms). exists ms. split; [by right|done].
Qed.

(** States that are not sent again. *)
Definition settled (s : MessageDeliveryState) : Prop := s = Accepted \/ s = Delivered \/ s = Read.

Definition same_text (m m' : MessageRecord) : Prop :=
  mr_clientMessageId m' = mr_clientMessageId m /\ mr_body m' = mr_body m /\
  (settled (mr_deliveryState m) -> settled (mr_deliveryState m')).

Lemma same_text_refl m : same_text m m.
Proof. by split_and!. Qed.

(** The texts among the calls: to a user or to a group, the text, its wire id. *)
Definition send_of (c : GatewayCall) : option ((Z + Z) * string * string) :=
  match c with
  | Do (CallSendText peerUid body wire _) => Some (inl peerUid, body, wire)
  | Do (CallSendGroupText groupId body wire _) => Some (inr groupId, body, wire)
  | _ => None
  end.
Definition sends (a : app) : list ((Z + Z) * string * string) := omap send_of (a_calls a).

(** Nothing sent, no new identifier, no other text. *)
Definition calm_step (a a' : app) : Prop :=
  sends a' = sends a /\ a_next_id a' = a_next_id a /\
  (forall c m', m' ∈ messages_of c a' -> exists m, m ∈ messages_of c a /\ same_text m m').
Definition calm {A} (m : State app A) : Prop := forall a, calm_step a (m a).2.

Lemma calm_step_same a a' : sends a' = sends a -> a_next_id a' = a_next_id a ->
  sn_messagesByConversation (a_snapshot a') = sn_messagesByConversation (a_snapshot a) -> calm_step a a'.
Proof.
  intros E1 E2 E3. split; [done|]. split; [done|]. intros c m'. unfold messages_of. rewrite E3. intros Hm.
  exists m'. split; [done|apply same_text_refl].
Qed.

Lemma calm_step_trans a1 a2 a3 : calm_step a1 a2 -> calm_step a2 a3 -> calm_step a1 a3.
Proof.
  intros (E1 & E2 & M) (E1' & E2' & M'). split; [congruence|]. split; [congruence|]. intros c m3 Hm3.
  destruct (M' c m3 Hm3) as (m2 & Hm2 & E & B & S). destruct (M c m2 Hm2) as (m1 & Hm1 & E0 & B0 & S0).
  exists m1. split; [done|]. split_and!; [congruence|congruence|auto].
Qed.

Lemma calm_pure {A} (x : A) : calm (pure x).
Proof. intros a. by apply calm_step_same. Qed.
Lemma calm_reads {A} (f : app -> A) : calm (reads f).
Proof. intros a. by apply calm_step_same. Qed.
Lemma calm_bind {A B} (m : State app A) (k : A -> State app B) : calm m -> (forall x, calm (k x)) -> calm (seq_bind m k).
Proof.
  intros Hm Hk a. unfold seq_bind. specialize (Hm a). destruct (m a) as [x a1]. eapply calm_step_trans; [exact Hm|apply Hk].
Qed.
Lemma calm_for_each {A} (l : list A) f : (forall x, calm (f x)) -> calm (for_each l f).
Proof. intros Hf. induction l as [|x l IH]; simpl; [apply calm_pure|]. by apply calm_bind. Qed.
Lemma calm_repo {A} (m : State R A) : calm (repo m).
Proof. intros a. unfold repo. destruct (m (a_repository a)). by apply calm_step_same. Qed.
Lemma calm_writes f : (forall a, calm_step a (f a)) -> calm (writes f).
Proof. intros Hf a. apply Hf. Qed.
Lemma calm_snap f : (forall s, sn_messagesByConversation (f s) = sn_messagesByConversation s) -> calm (snap f).
Proof. intros Hf a. apply calm_step_same; [done|done|apply Hf]. Qed.
Lemma calm_if {A} (b : bool) (m m' : State app A) : calm m -> calm m' -> calm (if b then m else m').
Proof. by destruct b. Qed.
Lemma calm_at {A} (f : app -> State app A) : (forall a, calm (f a)) -> calm (fun a => f a a).
Proof. intros Hf a. apply (Hf a). Qed.

Lemma calm_messages k (f : list MessageRecord) a :
  (forall m', m' ∈ f -> exists m, m ∈ messages_of k a /\ same_text m m') ->
  calm_step a (put_messages_of k f a).2.
Proof.
  intros Hf. split; [done|]. split; [done|]. intros c m' Hm'. unfold messages_of in Hm'. simpl in Hm'.
  destruct (decide (c = k)) as [->|].
  - rewrite lookup_insert_eq in Hm'. by apply Hf.
  - rewrite lookup_insert_ne in Hm' by done. exists m'. split; [done|apply same_text_refl].
Qed.

Lemma calm_changed k ms test (f : MessageRecord -> MessageRecord) ms' a :
  sn_messagesByConversation (a_snapshot a) !! k = Some ms -> change_one test f ms = Some ms' ->
  (forall m, test m = true -> same_text m (f m)) -> calm_step a (put_messages_of k ms' a).2.
Proof.
  intros Ek Ec Hf. apply change_one_spec in Ec as (l1 & x & l2 & -> & Hx & ->). apply calm_messages.
  assert (messages_of k a = l1 ++ x :: l2) as Em by (unfold messages_of; by rewrite Ek).
  intros m'. rewrite elem_of_app, elem_of_cons. intros [Hm|[->|Hm]].
  - exists m'. split; [rewrite Em; set_solver|apply same_text_refl].
  - exists x. split; [rewrite Em; set_solver|by apply Hf].
  - exists m'. split; [rewrite Em; set_solver|apply same_text_refl].
Qed.

Lemma CanTransition_settled s s' : CanTransition s s' = true -> settled s -> settled s'.
Proof. unfold settled. intros Ht [-> | [-> | ->] ]; destruct s'; auto; done. Qed.

Lemma calm_UpdateMessageState id s : calm (UpdateMessageState id s).
Proof.
  intros a. unfold UpdateMessageState. destruct (change_in _ _ _) as [[k ms']|] eqn:E; [|by apply calm_step_same].
  apply change_in_spec in E as (ms & Hin & Hc). apply each_lookup in Hin.
  unfold seq_bind at 1. destruct (put_messages_of k ms' a) as [x a1] eqn:Ea.
  apply (calm_step_trans _ a1).
  - replace a1 with (put_messages_of k ms' a).2 by (by rewrite Ea).
    eapply calm_changed; [exact Hin|exact Hc|]. intros m Hm. apply andb_true_iff in Hm as [_ Hm]. split_and!; [done|done|]. simpl. by apply CanTransition_settled.
  - match goal with |- calm_step _ (snd (?m a1)) => assert (calm m) as Hcalm; [|exact (Hcalm a1)] end.
    apply calm_bind; [apply calm_bind; [apply calm_repo|intros; apply calm_pure]|]. intros _.
    apply calm_writes. intros a2. by apply calm_step_same.
Qed.

Lemma calm_call k a : send_of k = None -> calm_step a (put_calls (a_calls a ++ [k]) a).
Proof.
  intros E. apply calm_step_same; [|done|done]. unfold sends. simpl. rewrite omap_app. simpl. rewrite E. by rewrite app_nil_r.
Qed.

Lemma calm_setter (f : app -> app) :
  (forall a, a_calls (f a) = a_calls a /\ a_next_id (f a) = a_next_id a /\
             sn_messagesByConversation (a_snapshot (f a)) = sn_messagesByConversation (a_snapshot a)) -> calm (writes f).
Proof. intros Hf a. destruct (Hf a) as (E1 & E2 & E3). apply (calm_step_same a (f a)); [unfold sends; by rewrite E1|done|done]. Qed.

Lemma calm_tell k : send_of (Do k) = None -> calm (tell k).
Proof. intros E a. by apply calm_call. Qed.
End Calm.

Create HintDb calm.
#[export] Hint Resolve calm_pure calm_reads calm_repo calm_UpdateMessageState : calm.
#[export] Hint Extern 1 (calm (snap _)) => (apply calm_snap; reflexivity) : calm.
#[export] Hint Extern 1 (calm (tell _)) => (apply calm_tell; reflexivity) : calm.
#[export] Hint Extern 1 (calm (writes _)) => (apply calm_setter; intros; repeat case_match; by split_and!) : calm.

(** Operations built of calm steps, and those that look at the state first. *)
Ltac calm_auto :=
  lazymatch goal with
  | |- forall _, _ => intros; calm_auto
  | |- calm (seq_bind _ _) => apply calm_bind; calm_auto
  | |- calm (for_each _ _) => apply calm_for_each; calm_auto
  | |- calm (match _ with _ => _ end) => case_match; calm_auto
  | |- _ => auto with calm
  end.
Ltac calm_branch :=
  lazymatch goal with
  | |- calm_step ?a (snd (_, ?a)) => by apply calm_step_same
  | |- calm_step ?a (snd (_, _)) => by apply calm_step_same
  | |- calm_step ?a (snd (?m ?a)) => let Hm := fresh in assert (calm m) as Hm; [calm_auto|exact (Hm a)]
  end.

Section CalmOperations.
Context {R : Type} `{IClientRepository R} `{QtText} `{QStringHashOrder} `{QtCodec} `{Uuid}.

Lemma calm_take_sync id : calm (R := R) (take_sync id).
Proof. intros a. by apply calm_step_same. Qed.
Lemma calm_take_reply id : calm (R := R) (take_reply id).
Proof. intros a. by apply calm_step_same. Qed.
Lemma calm_take_group id : calm (R := R) (take_group id).
Proof. intros a. by apply calm_step_same. Qed.
Lemma calm_now_text : calm (R := R) now_text.
Proof. intros a. by apply calm_step_same. Qed.
Hint Resolve calm_take_sync calm_take_reply calm_take_group calm_now_text : calm.

Lemma calm_SetRequestStatus i st p : calm (SetRequestStatus i st p).
Proof.
  intros a. unfold SetRequestStatus. destruct (SetStatus i (Some st) (a_requests a)) as [changed requests].
  apply (calm_step_trans _ (put_requests requests a)); [by apply calm_step_same|].
  case_match; [by apply calm_step_same|].
  calm_branch.
Qed.
Hint Resolve calm_SetRequestStatus : calm.

Lemma calm_HandleGatewayFailure id e u : calm (HandleGatewayFailure id e u).
Proof. unfold HandleGatewayFailure. calm_auto. Qed.
Hint Resolve calm_HandleGatewayFailure : calm.

Lemma calm_ask k : send_of (Do k) = None -> calm (ask k).
Proof.
  intros E a. unfold ask.
  apply (calm_step_trans _ (put_calls (a_calls a ++ [Do k]) (put_issued (S (a_issued a)) a))).
  - apply (calm_step_trans _ (put_issued (S (a_issued a)) a)); [by apply calm_step_same|]. exact (calm_call (Do k) (put_issued (S (a_issued a)) a) E).
  - match goal with |- calm_step ?a1 _ => generalize a1; intros a1' end. cbv beta zeta. calm_branch.
Qed.
Hint Resolve calm_ask : calm.

Lemma calm_AcknowledgeConversationRead i : calm (R := R) (AcknowledgeConversationRead i).
Proof. intros a. unfold AcknowledgeConversationRead. repeat case_match; calm_branch. Qed.
Lemma calm_change_snapshot c f : calm (R := R) (change_snapshot c f).
Proof. unfold change_snapshot. auto with calm. Qed.
Hint Resolve calm_AcknowledgeConversationRead calm_change_snapshot : calm.

Lemma calm_markRead i : calm (R := R) (markRead i).
Proof. intros a. unfold markRead. repeat case_match; calm_branch. Qed.
Hint Resolve calm_markRead : calm.

Lemma calm_selectConversation i : calm (R := R) (selectConversation i).
Proof. intros a. unfold selectConversation. repeat case_match; calm_branch. Qed.

(** A new conversation has no messages. *)
Lemma calm_no_messages c : calm (R := R) (put_messages_of c []).
Proof. intros a. apply calm_messages. intros m' Hm. by apply not_elem_of_nil in Hm. Qed.
Lemma calm_touch_messages c : calm (R := R) (touch_messages c).
Proof. intros a. apply calm_messages. intros m' Hm. exists m'. split; [done|apply same_text_refl]. Qed.
Hint Resolve calm_selectConversation calm_no_messages calm_touch_messages : calm.

Lemma calm_EnsureConversation c t k : calm (R := R) (EnsureConversation c t k).
Proof. intros a. unfold EnsureConversation. repeat case_match; calm_branch. Qed.
Lemma calm_AttachRemoteConversation c r : calm (R := R) (AttachRemoteConversation c r).
Proof. unfold AttachRemoteConversation. calm_auto. Qed.
Lemma calm_setCurrentSection s : calm (R := R) (setCurrentSection s).
Proof. intros a. unfold setCurrentSection. repeat case_match; calm_branch. Qed.
Lemma calm_ScheduleDeliveryLifecycle c : calm (R := R) (ScheduleDeliveryLifecycle c).
Proof. unfold ScheduleDeliveryLifecycle. auto with calm. Qed.
Lemma calm_expect r c : calm (R := R) (expect r c).
Proof. unfold expect. auto with calm. Qed.
Lemma calm_SetConnectionStatus s : calm (R := R) (SetConnectionStatus s).
Proof. unfold SetConnectionStatus. auto with calm. Qed.
Hint Resolve calm_EnsureConversation calm_AttachRemoteConversation calm_setCurrentSection calm_ScheduleDeliveryLifecycle
  calm_expect calm_SetConnectionStatus : calm.
Hint Extern 1 (calm (ask _)) => (apply calm_ask; reflexivity) : calm.

Lemma calm_show_conversation c : calm (R := R) (show_conversation c).
Proof. unfold show_conversation. calm_auto. Qed.
Lemma calm_show_requests rs : calm (R := R) (show_requests rs).
Proof. unfold show_requests. calm_auto. Qed.
Lemma calm_count_unread c : calm (R := R) (count_unread c).
Proof. unfold count_unread. calm_auto. Qed.
Lemma calm_push_conversation g p : calm (R := R) (push_conversation g p).
Proof. unfold push_conversation, EnsureGroupConversation, EnsureDirectConversation. calm_auto. Qed.
Lemma calm_acknowledge_seq p : calm (R := R) (acknowledge_seq p).
Proof. unfold acknowledge_seq. calm_auto. Qed.
Lemma calm_completeAuthentication : calm (R := R) completeAuthentication.
Proof. intros a. unfold completeAuthentication. repeat case_match; calm_branch. Qed.
Lemma calm_pull r n c : calm (R := R) (pull r n c).
Proof. unfold pull. calm_auto. Qed.
Hint Resolve calm_show_conversation calm_show_requests calm_count_unread calm_push_conversation calm_acknowledge_seq
  calm_completeAuthentication calm_pull : calm.

Lemma calm_SyncKnownConversations : calm (R := R) SyncKnownConversations.
Proof. unfold SyncKnownConversations. calm_auto. Qed.
Lemma calm_on_reply r e : calm (R := R) (on_reply r e).
Proof. unfold on_reply. calm_auto. Qed.
Lemma calm_on_answer j p : calm (R := R) (on_answer j p).
Proof. unfold on_answer, EnsureGroupConversation. calm_auto. Qed.
Lemma calm_on_application j p : calm (R := R) (on_application j p).
Proof. unfold on_application. calm_auto. Qed.
Lemma calm_on_friend_list e p : calm (R := R) (on_friend_list e p).
Proof. unfold on_friend_list, undefined. calm_auto. Qed.
Lemma calm_on_apply_list e p : calm (R := R) (on_apply_list e p).
Proof. unfold on_apply_list. calm_auto. Qed.
Lemma calm_on_create_group r e p : calm (R := R) (on_create_group r e p).
Proof. unfold on_create_group, EnsureGroupConversation. calm_auto. Qed.
Lemma calm_on_state s : calm (R := R) (on_state s).
Proof. unfold on_state. calm_auto. Qed.
Lemma calm_on_credentials_expired : calm (R := R) on_credentials_expired.
Proof. unfold on_credentials_expired. calm_auto. Qed.
Lemma calm_on_gate s : calm (R := R) (on_gate s).
Proof.
  destruct s as [session| |]; unfold on_gate; [|calm_auto|calm_auto].
  apply calm_bind; [by auto with calm|intros _]. apply calm_bind; [by auto with calm|intros _].
  apply calm_writes. intros a. by apply calm_call.
Qed.
Lemma calm_fire_timer i : calm (R := R) (fire_timer i).
Proof.
  intros a. unfold fire_timer. repeat case_match; [|calm_branch].
  eapply calm_step_trans; [|apply calm_UpdateMessageState]. by apply calm_step_same.
Qed.
Hint Resolve calm_SyncKnownConversations calm_on_reply calm_on_answer calm_on_application calm_on_friend_list
  calm_on_apply_list calm_on_create_group calm_on_state calm_on_credentials_expired calm_on_gate calm_fire_timer : calm.
End CalmOperations.
#[export] Hint Resolve calm_take_sync calm_take_reply calm_take_group calm_now_text calm_SetRequestStatus
  calm_HandleGatewayFailure calm_AcknowledgeConversationRead calm_change_snapshot calm_markRead
  calm_selectConversation calm_no_messages calm_touch_messages calm_EnsureConversation calm_AttachRemoteConversation
  calm_setCurrentSection calm_ScheduleDeliveryLifecycle calm_expect calm_SetConnectionStatus calm_show_conversation
  calm_show_requests calm_count_unread calm_push_conversation calm_acknowledge_seq calm_completeAuthentication
  calm_pull calm_SyncKnownConversations calm_on_reply calm_on_answer calm_on_application calm_on_friend_list
  calm_on_apply_list calm_on_create_group calm_on_state calm_on_credentials_expired calm_on_gate calm_fire_timer :
  calm.
#[export] Hint Extern 1 (calm (ask _)) => (apply calm_ask; reflexivity) : calm.

(** ** Wire ids *)

Abbreviation colon_free := (str_forall (fun c => negb (bool_decide (c = ":"%char)))).

Lemma split_colon p p' s s' : colon_free p = true -> colon_free p' = true ->
  p +:+ ":" +:+ s = p' +:+ ":" +:+ s' -> s = s'.
Proof.
  revert p'. induction p as [|c p IH]; intros [|c' p'] Hp Hp' E; simpl in *; boolp.
  - by injection E.
  - injection E as <- _. done.
  - injection E as -> _. done.
  - injection E as -> E. by apply (IH p').
Qed.

(** A wire id names one client id. *)
Lemma wire_id_inj u u' id id' : wire_id u id = wire_id u' id' -> id = id'.
Proof. unfold wire_id. intros E%split_colon; [|by apply pretty_forall..]. apply pretty_Z_inj in E. lia. Qed.

(** ** A wire id never stands for two texts *)

Section Faithful.
Context {R : Type} `{IClientRepository R} `{QtText} `{QStringHashOrder} `{QtCodec} `{Uuid}.
Local Abbreviation app := (app R).

(** Where the texts of a conversation go. *)
Definition target_of (c : string) : option (Z + Z) :=
  match DirectPeerUid c, GroupId c with
  | Some p, _ => Some (inl p)
  | None, Some g => Some (inr g)
  | None, None => None
  end.

(** The messages with a client id are in one conversation and say one text. *)
Definition only (id : Z) (c b : string) (a : app) : Prop :=
  forall c' m, m ∈ messages_of c' a -> mr_clientMessageId m = id -> c' = c /\ default "" (mr_body m) = b.

Record faithful (a : app) : Prop := {
  f_next : a_next_id a < 0;
  f_ids : forall c m, m ∈ messages_of c a -> a_next_id a < mr_clientMessageId m;
  f_settled : forall c m, m ∈ messages_of c a -> 0 <= mr_clientMessageId m -> settled (mr_deliveryState m);
  f_texts : forall c m, m ∈ messages_of c a -> mr_clientMessageId m < 0 ->
    only (mr_clientMessageId m) c (default "" (mr_body m)) a;
  f_sends : forall t b w, (t, b, w) ∈ sends a ->
    exists u id c, w = wire_id u id /\ a_next_id a < id < 0 /\ target_of c = Some t /\ only id c b a;
  f_wire : forall t b t' b' w, (t, b, w) ∈ sends a -> (t', b', w) ∈ sends a -> t = t' /\ b = b' }.

Lemma only_calm id c b a a' : calm_step a a' -> only id c b a -> only id c b a'.
Proof.
  intros (_ & _ & M) Ho c' m' Hm' Eid. destruct (M c' m' Hm') as (m & Hm & Ei & Eb & _). rewrite Eb.
  apply (Ho c' m Hm). congruence.
Qed.

Lemma faithful_calm a a' : calm_step a a' -> faithful a -> faithful a'.
Proof.
  intros Hc [Hn Hi Hs Ht Hd Hw]. pose proof Hc as (Es & En & M). split; rewrite ?Es, ?En; [done| | | | |done].
  - intros c m' Hm'. destruct (M c m' Hm') as (m & Hm & -> & _). by apply (Hi c).
  - intros c m' Hm'. destruct (M c m' Hm') as (m & Hm & -> & _ & S). intros Hp. apply S. by apply (Hs c).
  - intros c m' Hm'. destruct (M c m' Hm') as (m & Hm & -> & -> & _). intros Hp. apply (only_calm _ _ _ a); [done|].
    by apply (Ht c).
  - intros t b w Hin. destruct (Hd t b w Hin) as (u & id & c & ? & ? & ? & Ho). exists u, id, c. do 3 (split; [done|]).
    by apply (only_calm _ _ _ a).
Qed.

(** A client id that stands for one text of one conversation. *)
Definition known (id : Z) (c b : string) (a : app) : Prop :=
  a_next_id a < id < 0 /\ only id c b a /\
  forall u t b' , (t, b', wire_id u id) ∈ sends a -> target_of c = Some t /\ b' = b.

Lemma known_calm id c b a a' : calm_step a a' -> known id c b a -> known id c b a'.
Proof.
  intros Hc (Hid & Ho & Hd). pose proof Hc as (Es & En & _). unfold known. rewrite Es, En.
  split; [done|]. split; [by apply (only_calm _ _ _ a)|done].
Qed.

Lemma message_known a c m : faithful a -> m ∈ messages_of c a -> mr_clientMessageId m < 0 ->
  known (mr_clientMessageId m) c (default "" (mr_body m)) a.
Proof.
  intros Hf Hm Hneg. split; [split; [by apply (f_ids a Hf c)|done]|]. split; [by apply (f_texts a Hf)|].
  intros u t b' Hin. destruct (f_sends a Hf _ _ _ Hin) as (u' & id & c' & E & _ & Et & Ho).
  apply wire_id_inj in E. subst id. destruct (Ho c m Hm eq_refl) as [-> <-]. done.
Qed.

(** Sending it keeps the invariant. *)
Lemma faithful_send a k id c b t u :
  faithful a -> known id c b a -> target_of c = Some t -> send_of k = Some (t, b, wire_id u id) ->
  faithful (put_calls (a_calls a ++ [k]) a).
Proof.
  intros [Hn Hi Hs Ht Hd Hw] (Hid & Ho & Hk) Et Ek.
  assert (sends (put_calls (a_calls a ++ [k]) a) = sends a ++ [(t, b, wire_id u id)]) as Es.
  { unfold sends. simpl. rewrite omap_app. simpl. by rewrite Ek. }
  split; rewrite ?Es; [done|done|done|done| |].
  - intros t' b' w. rewrite elem_of_app, list_elem_of_singleton. intros [Hin|[= -> -> ->]].
    + destruct (Hd t' b' w Hin) as (u' & id' & c' & ? & ? & ? & ?). by exists u', id', c'.
    + by exists u, id, c.
  - intros t1 b1 t2 b2 w. rewrite !elem_of_app, !list_elem_of_singleton.
    intros [H1'|[= -> -> ->]] [H2'|E]; [by apply (Hw _ _ _ _ w)| | |by injection E as -> ->].
    + injection E as -> -> ->. destruct (Hk u t1 b1 H1') as [Et' ->]. split; [congruence|done].
    + destruct (Hk u t2 b2 H2') as [Et' ->]. split; [congruence|done].
Qed.

(** *** Following an operation *)

Lemma bind_writes {B} f (k : unit -> State app B) a : seq_bind (writes f) k a = k tt (f a).
Proof. done. Qed.
Lemma bind_reads {A B} (f : app -> A) (k : A -> State app B) a : seq_bind (reads f) k a = k (f a) a.
Proof. done. Qed.
Lemma bind_pure {A B} (x : A) (k : A -> State app B) a : seq_bind (pure x) k a = k x a.
Proof. done. Qed.
Lemma bind_repo {A B} (m : State R A) (k : A -> State app B) a :
  seq_bind (repo m) k a = k (m (a_repository a)).1 (put_repository (m (a_repository a)).2 a).
Proof. unfold seq_bind, repo. by destruct (m (a_repository a)). Qed.
Lemma bind_now {B} (k : string -> State app B) a : seq_bind now_text k a = k (local_time (a_clock a)) (put_clock (S (a_clock a)) a).
Proof. done. Qed.
Lemma bind_messages {B} c ms (k : unit -> State app B) a :
  seq_bind (put_messages_of c ms) k a = k tt (put_messages_of c ms a).2.
Proof. done. Qed.

Lemma calm_then {A B} (P : app -> Prop) (m : State app A) (k : A -> State app B) a :
  calm m -> (forall x a', calm_step a a' -> P (k x a').2) -> P (seq_bind m k a).2.
Proof. intros Hm Hk. unfold seq_bind. specialize (Hm a). destruct (m a) as [x a']. by apply Hk. Qed.

(** *** The texts that are sent *)

Lemma faithful_ask a k id c b t u :
  faithful a -> known id c b a -> target_of c = Some t -> send_of (Do k) = Some (t, b, wire_id u id) ->
  faithful (ask k a).2.
Proof.
  intros Hf Hk Et Ek. unfold ask.
  set (a1 := put_issued (S (a_issued a)) a).
  assert (calm_step a a1) as Hc by (by apply calm_step_same).
  pose proof (faithful_send a1 (Do k) id c b t u (faithful_calm _ _ Hc Hf) (known_calm _ _ _ _ _ Hc Hk) Et Ek) as Hs.
  change (put_calls (a_calls a ++ [Do k]) a1) with (put_calls (a_calls a1 ++ [Do k]) a1).
  eapply faithful_calm; [|exact Hs]. calm_branch.
Qed.

Lemma faithful_send_to a c id b u remote :
  faithful a -> known id c b a -> is_Some (target_of c) ->
  faithful (send_to (DirectPeerUid c) (GroupId c) b (wire_id u id) remote a).2.
Proof.
  intros Hf Hk [t Et]. unfold send_to. unfold target_of in Et.
  destruct (DirectPeerUid c) as [p|] eqn:Ep; [|destruct (GroupId c) as [g|] eqn:Eg; [|done]].
  - apply (faithful_ask a _ id c b (inl p) u); [done|done|unfold target_of; by rewrite Ep|done].
  - apply (faithful_ask a _ id c b (inr g) u); [done|done|unfold target_of; by rewrite Ep, Eg|done].
Qed.

(** *** Messages that are added *)

Lemma messages_of_put c c' ms a : messages_of c' (put_messages_of (R := R) c ms a).2 = if decide (c' = c) then ms else messages_of c' a.
Proof. unfold messages_of. simpl. case_decide as E; [subst; by rewrite lookup_insert_eq|by rewrite lookup_insert_ne]. Qed.

(** Messages of the server, whose ids are not negative. *)
Definition from_server (m : MessageRecord) : Prop := 0 <= mr_clientMessageId m /\ settled (mr_deliveryState m).

Lemma faithful_append a c l : faithful a -> Forall from_server l ->
  faithful (put_messages_of c (messages_of c a ++ l) a).2.
Proof.
  intros [Hn Hi Hs Ht Hd Hw] Hl. rewrite Forall_forall in Hl. set (a' := (put_messages_of _ _ _).2).
  assert (forall c' m, m ∈ messages_of c' a' -> m ∈ messages_of c' a \/ from_server m) as Hin.
  { intros c' m. subst a'. rewrite messages_of_put. case_decide as E; [subst c'|by left]. rewrite elem_of_app.
    intros [?|Hm]; [by left|]. right. by apply Hl. }
  assert (forall id c0 b, id < 0 -> only id c0 b a -> only id c0 b a') as Hon.
  { intros id c0 b Hid Ho c' m Hm Em. destruct (Hin c' m Hm) as [Hm'|[Hp _]]; [by apply Ho|lia]. }
  split; [done| | | | |done].
  - intros c' m Hm. change (a_next_id a') with (a_next_id a). destruct (Hin c' m Hm) as [Hm'|[Hp _]]; [by apply (Hi c')|lia].
  - intros c' m Hm Hp. destruct (Hin c' m Hm) as [Hm'|[_ ?]]; [by apply (Hs c')|done].
  - intros c' m Hm Hneg. destruct (Hin c' m Hm) as [Hm'|[Hp _]]; [|lia]. apply Hon; [done|]. by apply Ht.
  - intros t b w Hsend. destruct (Hd t b w Hsend) as (u & id & c0 & ? & Hid & ? & ?). exists u, id, c0.
    split; [done|]. split; [done|]. split; [done|]. apply Hon; [lia|done].
Qed.

(** A message of the user, with the next client id. *)
Lemma faithful_new a c m b :
  faithful a -> mr_clientMessageId m = a_next_id a -> default "" (mr_body m) = b ->
  let a' := (put_messages_of c (messages_of c a ++ [m]) (put_next_id (a_next_id a - 1) a)).2 in
  faithful a' /\ known (a_next_id a) c b a'.
Proof.
  intros [Hn Hi Hs Ht Hd Hw] Em Eb. cbv zeta. set (a' := (put_messages_of _ _ _).2).
  assert (forall c' x, x ∈ messages_of c' a' -> x ∈ messages_of c' a \/ c' = c /\ x = m) as Hin.
  { intros c' x. subst a'. rewrite messages_of_put. case_decide as E; [subst c'|by left]. rewrite elem_of_app, list_elem_of_singleton.
    intros [?|Hm]; [by left|by right]. }
  assert (forall id c0 b0, a_next_id a < id -> only id c0 b0 a -> only id c0 b0 a') as Hon.
  { intros id c0 b0 Hid Ho c' x Hx Ex. destruct (Hin c' x Hx) as [Hx'|[_ ->]]; [by apply Ho|lia]. }
  assert (only (a_next_id a) c b a') as Hnew.
  { intros c' x Hx Ex. destruct (Hin c' x Hx) as [Hx'|[-> ->]]; [|done]. apply Hi in Hx'. lia. }
  assert (a_next_id a' = a_next_id a - 1) as En by done.
  split; [split; rewrite ?En; [lia| | | | |done]|].
  - intros c' x Hx. destruct (Hin c' x Hx) as [Hx'|[_ ->]]; [apply Hi in Hx'; lia|lia].
  - intros c' x Hx Hp. destruct (Hin c' x Hx) as [Hx'|[_ ->]]; [by apply (Hs c')|lia].
  - intros c' x Hx Hneg. destruct (Hin c' x Hx) as [Hx'|[-> ->]].
    + apply Hon; [by apply (Hi c')|]. by apply Ht.
    + rewrite Em, Eb. done.
  - intros t b0 w Hsend. destruct (Hd t b0 w Hsend) as (u & id & c0 & ? & Hid & ? & ?). exists u, id, c0.
    split; [done|]. split; [lia|]. split; [done|]. apply Hon; [lia|done].
  - split; [rewrite En; lia|]. split; [done|]. intros u t b0 Hsend.
    destruct (Hd t b0 _ Hsend) as (u' & id & c0 & E & Hid & _). apply wire_id_inj in E. lia.
Qed.

(** *** Operations *)

Lemma target_known c : DirectPeerUid c <> None \/ GroupId c <> None -> is_Some (target_of c).
Proof. unfold target_of. destruct (DirectPeerUid c), (GroupId c); intros [?|?]; try done; by eexists. Qed.

Lemma transmit_faithful conversation id body a :
  faithful a -> known id (cr_conversationId conversation) body a -> faithful (transmit conversation id body a).2.
Proof.
  intros Hf Hk. unfold transmit.
  assert (forall s, faithful (UpdateMessageState id s a).2) as Hu.
  { intros s. eapply faithful_calm; [apply calm_UpdateMessageState|done]. }
  assert (is_Some (target_of (cr_conversationId conversation)) ->
    faithful ((let! ready := reads a_ready in
      if negb ready then UpdateMessageState id Unknown
      else
        do! UpdateMessageState id WaitingAccept in
        let! uid := reads a_uid in
        let! requestId := send_to (DirectPeerUid (cr_conversationId conversation)) (GroupId (cr_conversationId conversation))
          body (wire_id uid id) (default 0 (cr_remoteConversationId conversation)) in
        expect requestId id) a).2) as Hsend.
  { intros Ht. rewrite bind_reads. destruct (negb (a_ready a)); [apply Hu|].
    apply calm_then; [apply calm_UpdateMessageState|]. intros _ a1 Hc. rewrite bind_reads.
    pose proof (faithful_send_to a1 _ id body (a_uid a1) (default 0 (cr_remoteConversationId conversation))
      (faithful_calm _ _ Hc Hf) (known_calm _ _ _ _ _ Hc Hk) Ht) as Hs.
    unfold seq_bind. destruct (send_to _ _ _ _ _ a1) as [r a2]. simpl in Hs. eapply faithful_calm; [apply calm_expect|done]. }
  destruct (DirectPeerUid (cr_conversationId conversation)) eqn:Ep, (GroupId (cr_conversationId conversation)) eqn:Eg;
    [apply Hsend..|apply Hu]; apply target_known; rewrite ?Ep, ?Eg; by auto.
Qed.

Lemma sendMessage_faithful text a : faithful a -> faithful (sendMessage text a).2.
Proof.
  intros Hf. unfold sendMessage. destruct (ConversationList.RecordAt _ _) as [conversation|]; [|done]. case_match; [done|].
  rewrite bind_writes, bind_now, bind_repo, bind_reads, bind_messages.
  set (m := new_message _ _ _ _). set (a0 := put_repository _ _).
  assert (calm_step a (put_next_id (a_next_id a) a0)) as Hc by (by apply calm_step_same).
  pose proof (faithful_new (put_next_id (a_next_id a) a0) (cr_conversationId conversation) m (trimmed text)
    (faithful_calm _ _ Hc Hf) eq_refl eq_refl) as [Hf1 Hk1]. cbv zeta in Hf1, Hk1.
  match type of Hf1 with faithful ?x => match goal with |- faithful (snd (_ ?y)) =>
    change x with y in Hf1, Hk1; generalize dependent y end end.
  intros a1 Hf1 Hk1.
  do 4 (apply calm_then; [by calm_auto|]; intros _ ? Hstep; apply (faithful_calm _ _ Hstep) in Hf1;
        apply (known_calm _ _ _ _ _ Hstep) in Hk1; clear Hstep).
  rewrite bind_reads. repeat case_match; [done|by apply transmit_faithful|].
  eapply faithful_calm; [apply calm_ScheduleDeliveryLifecycle|done].
Qed.

Lemma find_message_in id (a : app) c m : find_message id a = Some (c, m) -> m ∈ messages_of c a /\ mr_clientMessageId m = id.
Proof.
  unfold find_message. intros Hh. assert ((c, m) ∈ omap (fun row : string * list MessageRecord =>
    pair row.1 <$> List.find (fun m => mr_clientMessageId m =? id) row.2) (each (sn_messagesByConversation (a_snapshot a)))) as Hin.
  { destruct (omap _ _); [done|]. injection Hh as ->. by left. }
  apply list_elem_of_omap in Hin as ([k ms] & Hk & Hf). simpl in Hf.
  destruct (List.find _ ms) as [x|] eqn:E; [|done]. injection Hf as -> ->. apply List.find_some in E as [Hx Ex].
  apply each_lookup in Hk. unfold messages_of. rewrite Hk. split; [by apply list_elem_of_In|lia].
Qed.

Lemma retryMessage_faithful id a : faithful a -> faithful (retryMessage id a).2.
Proof.
  intros Hf. unfold retryMessage. destruct (find_message id a) as [[c m]|] eqn:E; [|done].
  apply find_message_in in E as [Hm Em]. destruct (_ || _) eqn:Eb; [done|]. case_match; [done|].
  destruct (negb (a_network a)).
  { match goal with |- faithful (snd (?m' a)) => assert (calm m') as Hc by calm_auto; by apply (faithful_calm _ _ (Hc a)) end. }
  case_match; [done|]. apply orb_false_iff in Eb as [_ Eb]. rewrite negb_false_iff, bool_decide_eq_true in Eb.
  assert (mr_clientMessageId m < 0) as Hneg.
  { destruct (decide (0 <= mr_clientMessageId m)) as [Hp|]; [|lia]. apply (f_settled a Hf c m Hm) in Hp.
    rewrite Eb in Hp. by destruct Hp as [|[|]]. }
  pose proof (message_known a c m Hf Hm Hneg) as Hk. rewrite Em in Hk.
  assert (is_Some (target_of c) -> faithful ((do! UpdateMessageState id WaitingAccept in
    let! requestId := send_to (DirectPeerUid c) (GroupId c) (default "" (mr_body m)) (wire_id (a_uid a) id)
      (default 0 (ConversationList.RecordAt (ConversationList.IndexOf c (a_conversations a)) (a_conversations a)
                  ≫= cr_remoteConversationId)) in
    expect requestId id) a).2) as Hsend.
  { intros Ht. apply calm_then; [apply calm_UpdateMessageState|]. intros _ a1 Hc.
    match goal with |- context [send_to _ _ ?b (wire_id ?u _) ?r] =>
      pose proof (faithful_send_to a1 _ id b u r (faithful_calm _ _ Hc Hf) (known_calm _ _ _ _ _ Hc Hk) Ht) as Hs end.
    unfold seq_bind. destruct (send_to _ _ _ _ _ a1) as [r a2]. simpl in Hs. eapply faithful_calm; [apply calm_expect|done]. }
  destruct (DirectPeerUid c) eqn:Ep, (GroupId c) eqn:Eg; [apply Hsend..|done]; apply target_known; rewrite ?Ep, ?Eg; by auto.
Qed.

(** *** Every event *)

Lemma calm_always {A} (m : State app A) : calm m -> always faithful m.
Proof. intros Hm a Hf. by apply (faithful_calm a _ (Hm a)). Qed.

Lemma resume_message_faithful c remote i : is_Some (target_of c) ->
  always faithful (resume_message (R := R) c (DirectPeerUid c) (GroupId c) remote i).
Proof.
  intros Ht a Hf. unfold resume_message. rewrite bind_reads. destruct (messages_of c a !! i) as [m|] eqn:Ei; [|done].
  destruct (_ || _) eqn:Eb; [done|]. apply orb_false_iff in Eb as [_ Er]. rewrite negb_false_iff in Er.
  apply list_elem_of_lookup_2 in Ei.
  assert (mr_clientMessageId m < 0) as Hneg.
  { destruct (decide (0 <= mr_clientMessageId m)) as [Hp|]; [|lia]. apply (f_settled a Hf c m Ei) in Hp.
    destruct Hp as [E|[E|E]]; by rewrite E in Er. }
  pose proof (message_known a c m Hf Ei Hneg) as Hk.
  apply calm_then; [by calm_auto|]. intros _ a1 Hc. rewrite bind_reads.
  pose proof (faithful_send_to a1 _ _ _ (a_uid a1) remote (faithful_calm _ _ Hc Hf) (known_calm _ _ _ _ _ Hc Hk) Ht) as Hs.
  unfold seq_bind. destruct (send_to _ _ _ _ _ a1) as [r a2]. simpl in Hs. eapply faithful_calm; [apply calm_expect|done].
Qed.

Lemma ResumePendingOutgoing_faithful : always faithful (ResumePendingOutgoing (R := R)).
Proof.
  unfold ResumePendingOutgoing. apply always_bind; [apply always_reads|]. intros rows. apply always_for_each. intros [c ms] _.
  unfold resume_conversation. cbn [fst snd].
  assert (is_Some (target_of c) -> always faithful (
    let! remote := reads (fun a : app => ConversationList.RecordAt (ConversationList.IndexOf c (a_conversations a))
                                           (a_conversations a) ≫= cr_remoteConversationId) in
    for_each (seq 0 (length ms)) (resume_message c (DirectPeerUid c) (GroupId c) (default 0 remote)))) as Hr.
  { intros Ht. apply always_bind; [apply always_reads|]. intros remote. apply always_for_each. intros i _.
    by apply resume_message_faithful. }
  destruct (DirectPeerUid c) eqn:Ep, (GroupId c) eqn:Eg; [apply Hr..|apply always_pure]; apply target_known;
    rewrite ?Ep, ?Eg; by auto.
Qed.

Lemma on_authenticated_faithful : always faithful (on_authenticated (R := R)).
Proof.
  unfold on_authenticated. repeat (apply always_bind; [apply calm_always; by calm_auto|intros _]).
  apply ResumePendingOutgoing_faithful.
Qed.

Lemma accept_rows_spec id f rows changed name : accept_rows id f rows = (changed, name) ->
  forall k ms', (k, ms') ∈ changed -> exists ms, (k, ms) ∈ rows /\
    change_one (fun m => mr_clientMessageId m =? id) f ms = Some ms'.
Proof.
  revert changed name. induction rows as [|[k0 ms0] rows IH]; intros changed name; simpl.
  { intros [= <- <-] k ms' Hin. by apply not_elem_of_nil in Hin. }
  destruct (change_one _ f ms0) as [l|] eqn:E.
  - destruct (str_empty k0).
    + destruct (accept_rows id f rows) as [u n] eqn:Eu. intros [= <- <-] k ms' Hin.
      apply elem_of_cons in Hin as [[= -> ->]|Hin]; [exists ms0; split; [by left|done]|].
      destruct (IH u n eq_refl k ms' Hin) as (ms & Hms & Hc). exists ms. split; [by right|done].
    + intros [= <- <-] k ms' Hin. apply list_elem_of_singleton in Hin as [= -> ->]. exists ms0. split; [by left|done].
  - intros Hu k ms' Hin. destruct (IH changed name Hu k ms' Hin) as (ms & Hms & Hc). exists ms. split; [by right|done].
Qed.

Lemma calm_rows (rows : list (string * list MessageRecord)) (a0 a : app) : calm_step a0 a ->
  (forall k ms' m', (k, ms') ∈ rows -> m' ∈ ms' -> exists m, m ∈ messages_of k a0 /\ same_text m m') ->
  calm_step a0 (for_each rows (fun row => put_messages_of row.1 row.2) a).2.
Proof.
  revert a. induction rows as [|[k ms] rows IH]; intros a Hc Hr; [done|]. cbn [for_each fst snd]. rewrite bind_messages.
  apply IH; [|intros k' ms' m' Hin; apply Hr; by right]. destruct Hc as (Es & En & M). split; [done|]. split; [done|].
  intros c m'. rewrite messages_of_put. case_decide as E; [subst c|by apply M].
  intros Hm'. apply (Hr k ms m'); [by left|done].
Qed.

Lemma on_send_text_faithful requestId e p : always faithful (on_send_text (R := R) requestId e p).
Proof.
  unfold on_send_text. apply always_bind; [apply always_reads|]. intros [id|]; [|apply always_pure].
  apply always_bind; [apply calm_always; by calm_auto|intros _]. case_match; [apply calm_always; by calm_auto|].
  intros a Hf. rewrite bind_reads.
  destruct (accept_rows _ _ _) as [changed name] eqn:Ea. pose proof (accept_rows_spec _ _ _ _ _ Ea) as Hs.
  assert (calm_step a (for_each changed (fun row => put_messages_of row.1 row.2) a).2) as Hc.
  { apply calm_rows; [by apply calm_step_same|]. intros k ms' m' Hin Hm'. destruct (Hs k ms' Hin) as (ms & Hms & Hch).
    apply each_lookup in Hms. apply change_one_spec in Hch as (l1 & x & l2 & -> & _ & ->).
    unfold messages_of. rewrite Hms. simpl. rewrite elem_of_app, elem_of_cons in Hm'.
    destruct Hm' as [Hm'|[->|Hm']].
    - exists m'. split; [set_solver|apply same_text_refl].
    - exists x. split; [set_solver|]. split_and!; [done|done|]. intros _. by left.
    - exists m'. split; [set_solver|apply same_text_refl]. }
  unfold seq_bind at 1. destruct (for_each changed _ a) as [[] a1]. simpl in Hc.
  match goal with |- faithful (snd (?m a1)) => assert (calm m) as Hcm by calm_auto end.
  apply (faithful_calm _ _ (Hcm a1)). by apply (faithful_calm _ _ Hc).
Qed.

Lemma synced_from_server uid item : 0 <= pc_message_id item -> from_server (synced_message uid item).
Proof. intros Hp. split; [done|]. unfold settled. simpl. repeat case_match; auto. Qed.

Lemma on_session_messages_faithful requestId e p : Forall (fun item => 0 <= pc_message_id item) (p_message_list p) ->
  always faithful (on_session_messages (R := R) requestId e p).
Proof.
  intros Hp. unfold on_session_messages. apply always_bind; [apply calm_always; by calm_auto|]. intros c.
  case_match; [apply always_pure|].
  do 2 (apply always_bind; [apply calm_always; by calm_auto|intros _]).
  intros a Hf. rewrite !bind_reads. set (additions := synced_message _ <$> _).
  assert (Forall from_server additions) as Hadd.
  { apply Forall_fmap. rewrite Forall_forall. intros item Hin. apply synced_from_server.
    rewrite Forall_forall in Hp. apply Hp. apply list_elem_of_In in Hin. apply List.filter_In in Hin as [Hin _].
    by apply list_elem_of_In. }
  assert (forall n a1, calm_step a a1 -> messages_of c a1 = messages_of c a -> faithful ((
    let! applied := repo (port_ApplyIncomingBatch c additions n) in
    if negb applied then pure tt
    else
      do! put_messages_of c (messages_of c a ++ additions) in
      do! for_each additions (fun m =>
        if mr_outgoing m then pure tt
        else tell (CallAcknowledgeDelivered (default 0 (mr_messageId m)) (get_int F_conversation_id p)
                     (default 0 (mr_conversationSeq m)))) in
      let! current := reads CurrentConversationId in
      do! (if decide (current = c) then
             do! writes (fun a => put_messages (MessageList.SetRecords (messages_of c a) (-1) (a_messages a)) a) in
             let! selected := reads a_selected in AcknowledgeConversationRead selected
           else pure tt) in
      if get_bool F_has_more p && has_int F_next_seq p then pull (get_int F_conversation_id p) (get_int F_next_seq p) c
      else pure tt) a1).2) as Hrest.
  { intros n a1 Hc Em. rewrite bind_repo. set (a2 := put_repository _ a1).
    assert (calm_step a1 a2) as Hc2 by (by apply calm_step_same).
    case_match; [by apply (faithful_calm _ _ Hc2), (faithful_calm _ _ Hc)|]. rewrite bind_messages.
    change (messages_of c a1) with (messages_of c a2) in Em. rewrite <-Em.
    pose proof (faithful_append a2 c additions (faithful_calm _ _ Hc2 (faithful_calm _ _ Hc Hf)) Hadd) as Hf3.
    revert Hf3. generalize ((put_messages_of c (messages_of c a2 ++ additions) a2).2). intros a3 Hf3.
    match goal with |- faithful (snd (?m a3)) => assert (calm m) as Hcm by calm_auto; by apply (faithful_calm _ _ (Hcm a3)) end. }
  generalize (has_int F_next_seq p) at 1. intros [].
  - rewrite bind_pure. by apply Hrest; [apply calm_step_same|].
  - rewrite bind_repo. by apply Hrest; [apply calm_step_same|].
Qed.

Lemma show_incoming_faithful c m : from_server m -> always faithful (show_incoming (R := R) c m).
Proof.
  intros Hm a Hf. unfold show_incoming. rewrite bind_reads, bind_messages.
  pose proof (faithful_append a c [m] Hf ltac:(by constructor)) as Hf1. revert Hf1.
  generalize ((put_messages_of c (messages_of c a ++ [m]) a).2). intros a1 Hf1.
  match goal with |- faithful (snd (?m a1)) => assert (calm m) as Hcm by calm_auto; by apply (faithful_calm _ _ (Hcm a1)) end.
Qed.

Definition packet_ok (p : Packet) : Prop :=
  0 <= get_int F_message_id p /\ 0 <= get_int F_seq p /\ Forall (fun item => 0 <= pc_message_id item) (p_message_list p).

Lemma on_text_faithful g p : packet_ok p -> always faithful (on_text (R := R) g p).
Proof.
  intros (Hm & Hs & _). unfold on_text.
  assert (0 <= (if has_int F_message_id p then get_int F_message_id p else get_int F_seq p)) as Hid by (by case_match).
  repeat first [ apply always_bind; [first [apply calm_always; by calm_auto | apply show_incoming_faithful]|intros ?]
               | case_match | apply calm_always; by calm_auto ].
  all: try (split; [done|]; right; by left).
Qed.

(** What the network may bring: ids of messages that are not negative.  Loading
    another scenario is left out: it numbers the messages again. *)
Definition event_ok (e : app_event) : Prop :=
  match e with
  | UiScenario _ => False
  | OnGateway (ResponseReceived _ _ payload) | OnGateway (PushReceived _ payload) =>
      forall p, ParseProtobufPacket payload = Some p -> packet_ok p
  | _ => True
  end.

Lemma response_faithful r s payload : (forall p, ParseProtobufPacket payload = Some p -> packet_ok p) ->
  always faithful (HandleGatewayResponse (R := R) r s payload).
Proof.
  intros Hp. unfold HandleGatewayResponse. destruct (ParseProtobufPacket payload) as [p|]; [|apply always_pure].
  destruct (Hp p eq_refl) as (_ & _ & Hl). cbv zeta.
  repeat case_match; first [apply on_send_text_faithful|by apply on_session_messages_faithful|apply calm_always; by calm_auto].
Qed.

Lemma push_faithful s payload : (forall p, ParseProtobufPacket payload = Some p -> packet_ok p) ->
  always faithful (HandleGatewayPush (R := R) s payload).
Proof.
  intros Hp. unfold HandleGatewayPush. destruct (ParseProtobufPacket payload) as [p|]; [|apply always_pure].
  repeat case_match; first [by apply on_text_faithful, Hp|apply calm_always; by calm_auto].
Qed.

Lemma calm_EnsureDirect u t k : calm (R := R) (EnsureDirectConversation u t k).
Proof. apply calm_EnsureConversation. Qed.
Lemma calm_EnsureGroup g t : calm (R := R) (EnsureGroupConversation g t).
Proof. apply calm_EnsureConversation. Qed.
Lemma calm_gate k : calm (R := R) (gate k).
Proof. unfold gate. auto with calm. Qed.
Hint Resolve calm_EnsureDirect calm_EnsureGroup calm_gate : calm.

Lemma calm_setDraftText d : calm (R := R) (setDraftText d).
Proof. intros a. unfold setDraftText. case_match; calm_branch. Qed.
Lemma calm_selectContact i : calm (R := R) (selectContact i).
Proof. intros a. unfold selectContact. case_match; calm_branch. Qed.
Lemma reply_call_no_send r b k : reply_call r b = Some k -> send_of (Do k) = None.
Proof. unfold reply_call. repeat case_match; try done; by intros [= <-]. Qed.
Lemma calm_resolveRequest i b : calm (R := R) (resolveRequest i b).
Proof.
  intros a. unfold resolveRequest. destruct (at_row _ _) as [r|]; [|calm_branch]. do 3 (case_match; [calm_branch|]).
  destruct (reply_call r b) as [k|] eqn:Ek; [|calm_branch]. apply reply_call_no_send in Ek.
  match goal with |- calm_step _ (snd (?m a)) => assert (calm m) as Hm; [|exact (Hm a)] end.
  apply calm_bind; [by apply calm_ask|intros x]. calm_auto.
Qed.
Lemma calm_authenticate u p : calm (R := R) (authenticate u p).
Proof. intros a. unfold authenticate. repeat case_match; calm_branch. Qed.
Lemma calm_account_request b k : calm (R := R) (account_request b k).
Proof. intros a. unfold account_request. repeat case_match; calm_branch. Qed.
Lemma calm_startConversation : calm (R := R) startConversationWithSelectedContact.
Proof.
  intros a. unfold startConversationWithSelectedContact. destruct (at_row _ _) as [c|]; [|calm_branch]. cbv zeta.
  generalize (match toLongLong (ct_userId c) with Some uid => 0 <? uid | None => false end). intros [];
    cbn [negb]; [calm_branch|case_match; calm_branch].
Qed.
Lemma calm_typed_request i k : (forall n, send_of (Do (k n)) = None) -> calm (R := R) (typed_request i k).
Proof.
  intros Hk a. unfold typed_request. destruct (toLongLong i) as [n|]; [|calm_branch]. case_match; [calm_branch|].
  match goal with |- calm_step _ (snd (?m a)) => assert (calm m) as Hm; [|exact (Hm a)] end.
  apply calm_bind; [by apply calm_ask|intros x]. calm_auto.
Qed.
Lemma calm_createGroup n : calm (R := R) (createGroup n).
Proof. intros a. unfold createGroup. repeat case_match; calm_branch. Qed.
Hint Resolve calm_setDraftText calm_selectContact calm_resolveRequest calm_authenticate calm_account_request
  calm_startConversation calm_createGroup : calm.

Lemma event_faithful e : event_ok e -> always faithful (app_event_step (R := R) e).
Proof.
  intros He. destruct e; cbn [app_event_step];
    first [ done | intros a; apply sendMessage_faithful | intros a; apply retryMessage_faithful
          | apply calm_always; unfold togglePinned, toggleMuted, toggleContactFavorite, requestVerificationCode,
              registerAccount, resetPassword; by auto with calm
          | apply calm_always; by apply calm_typed_request | idtac ].
  destruct s; cbn [on_gateway];
    first [ apply on_authenticated_faithful | by apply response_faithful | by apply push_faithful
          | apply calm_always; by auto with calm ].
Qed.

Lemma run_faithful es a : faithful a -> Forall event_ok es -> faithful (run_app es a).
Proof.
  intros Hf Hes. revert a Hf. induction Hes as [|e es He Hes IH]; intros a Hf; [done|]. apply IH. by apply event_faithful.
Qed.

(** What a repository loads: nothing from the server is unfinished, no client id
    of the user stands for two messages. *)
Definition loaded_ok (s : ClientSnapshot) : Prop :=
  (forall c ms m, sn_messagesByConversation s !! c = Some ms -> m ∈ ms -> 0 <= mr_clientMessageId m ->
     settled (mr_deliveryState m)) /\
  (forall c c' ms ms' m m', sn_messagesByConversation s !! c = Some ms -> sn_messagesByConversation s !! c' = Some ms' ->
     m ∈ ms -> m' ∈ ms' -> mr_clientMessageId m = mr_clientMessageId m' -> mr_clientMessageId m < 0 ->
     c' = c /\ mr_body m' = mr_body m).

Definition next_of (rows : list (string * list MessageRecord)) : Z :=
  foldl (fun n row => foldl (fun n m => Z.min n (mr_clientMessageId m - 1)) n row.2) (-1000) rows.

Lemma next_below (ms : list MessageRecord) n m : n <= -1000 ->
  let n' := foldl (fun n m => Z.min n (mr_clientMessageId m - 1)) n ms in
  n' <= n /\ (m ∈ ms -> n' < mr_clientMessageId m).
Proof.
  revert n. induction ms as [|x ms IH]; intros n Hn; simpl; [split; [lia|by intros ?%not_elem_of_nil]|].
  destruct (IH (Z.min n (mr_clientMessageId x - 1))) as [H1' H2']; [lia|]. split; [lia|].
  rewrite elem_of_cons. intros [->|Hm]; [lia|by apply H2'].
Qed.

Lemma next_of_below (rows : list (string * list MessageRecord)) n c ms m : n <= -1000 ->
  let n' := foldl (fun n row => foldl (fun n m => Z.min n (mr_clientMessageId m - 1)) n row.2) n rows in
  n' <= n /\ ((c, ms) ∈ rows -> m ∈ ms -> n' < mr_clientMessageId m).
Proof.
  revert n. induction rows as [|[c0 ms0] rows IH]; intros n Hn; simpl; [split; [lia|by intros ?%not_elem_of_nil]|].
  destruct (next_below ms0 n m Hn) as [H1' H2'].
  destruct (IH (foldl (fun n m => Z.min n (mr_clientMessageId m - 1)) n ms0)) as [H3' H4']; [lia|]. split; [lia|].
  rewrite elem_of_cons. intros [[= -> ->]|Hin] Hm; [|by apply H4']. apply H2' in Hm. lia.
Qed.

Lemma start_faithful r network scenario section :
  loaded_ok (port_LoadScenario scenario r).1 -> faithful (AppController r network scenario section).
Proof.
  intros [Hs Hu]. unfold AppController. cbn [snd].
  assert (faithful (AppLoadScenario scenario (no_app r network)).2) as Hf.
  { unfold AppLoadScenario. rewrite bind_repo. change (a_repository (no_app r network)) with r.
    destruct (port_LoadScenario scenario r) as [s r'] eqn:El. cbn [fst snd] in *.
    unfold snap. do 2 rewrite bind_writes.
    pose proof (fun c ms m => next_of_below (each (sn_messagesByConversation s)) (-1000) c ms m ltac:(lia)) as Hnext.
    cbv zeta in Hnext.
    match goal with |- faithful (snd (?m ?x)) => assert (calm m) as Hc by calm_auto; apply (faithful_calm x _ (Hc x)); clear Hc;
      set (a := x) end.
    assert (sn_messagesByConversation (a_snapshot a) = sn_messagesByConversation s) as Em by reflexivity.
    assert (a_next_id a = next_of (each (sn_messagesByConversation s))) as En by reflexivity.
    assert (a_calls a = []) as Ecalls by reflexivity. clearbody a.
    assert (forall c m, m ∈ messages_of c a -> exists ms, sn_messagesByConversation s !! c = Some ms /\ m ∈ ms) as Hin.
    { intros c m. unfold messages_of. rewrite Em. destruct (sn_messagesByConversation s !! c) as [ms|]; [by exists ms|].
      by intros ?%not_elem_of_nil. }
    split.
    - rewrite En. unfold next_of. destruct (Hnext "" [] (new_message 0 "" "" Read)) as [? _]. lia.
    - intros c m Hm. rewrite En. destruct (Hin c m Hm) as (ms & Ec & Hms). apply (Hnext c ms); [by apply each_lookup|done].
    - intros c m Hm. destruct (Hin c m Hm) as (ms & Ec & Hms). by apply (Hs c ms).
    - intros c m Hm Hneg c' m' Hm' Eid. destruct (Hin c m Hm) as (ms & Ec & Hms), (Hin c' m' Hm') as (ms' & Ec' & Hms').
      destruct (Hu c c' ms ms' m m') as [-> ->]; done.
    - intros t b w. unfold sends. rewrite Ecalls. by intros ?%not_elem_of_nil.
    - intros t b t' b' w. unfold sends. rewrite Ecalls. by intros ?%not_elem_of_nil. }
  unfold seq_bind. destruct (AppLoadScenario scenario (no_app r network)) as [[] a]. cbn [snd] in Hf.
  assert (calm (R := R) (if network then ConfigureNetwork else pure tt)) as Hc by (unfold ConfigureNetwork; calm_auto).
  destruct ((if network then ConfigureNetwork else pure tt) a) as [[] a'] eqn:E. specialize (Hc a). rewrite E in Hc.
  apply (faithful_calm a'); [apply calm_setCurrentSection|by apply (faithful_calm a)].
Qed.

(** C23: a wire id names one text.  In a run of the application that loads no
    other scenario after the start (the SQLite repository has only one), from a
    snapshot in which no client id is used for two texts and the server's
    messages are not unfinished, and with ids from the gateway that are not
    negative: two texts given to the gateway client under the same wire id are
    the same text for the same target, whatever else the user does and the
    gateway brings, so that what the server takes for a retry is one.  Loading
    another scenario starts the ids again, and then it is not so
    ([scenario_reuses_wire_id]). *)
Theorem wire_ids_name_texts r network scenario section es t b t' b' w :
  loaded_ok (port_LoadScenario scenario r).1 -> Forall event_ok es ->
  let a := run_app es (AppController r network scenario section) in
  (t, b, w) ∈ sends a -> (t', b', w) ∈ sends a -> t = t' /\ b = b'.
Proof.
  intros Hl Hes a. apply f_wire. apply run_faithful; [|done]. by apply start_faithful.
Qed.
End Faithful.

(** ** What one message sends *)

Section Sending.
Context {R : Type} `{IClientRepository R} `{QtText} `{QStringHashOrder} `{QtCodec} `{Uuid}.
Local Abbreviation app := (app R).

Definition sends_one (c b : string) (a a' : app) : Prop :=
  sends a' = sends a \/ exists t w, target_of c = Some t /\ sends a' = sends a ++ [(t, b, w)].

Lemma sends_calm {A} (m : State app A) a : calm m -> sends (m a).2 = sends a.
Proof. intros Hm. apply (Hm a). Qed.

Lemma ask_sends k a : sends (ask k a).2 = sends a ++ option_list (send_of (Do k)).
Proof.
  unfold ask. set (a1 := put_calls _ _). assert (sends a1 = sends a ++ option_list (send_of (Do k))) as Es.
  { unfold sends. simpl. rewrite omap_app. simpl. by destruct k. }
  rewrite <-Es. apply sends_calm. calm_auto.
Qed.

Lemma send_to_sends c b w remote a :
  sends (send_to (DirectPeerUid c) (GroupId c) b w remote a).2 =
  sends a ++ match target_of c with Some t => [(t, b, w)] | None => [] end.
Proof.
  unfold send_to, target_of. destruct (DirectPeerUid c); [by rewrite ask_sends|].
  destruct (GroupId c); [by rewrite ask_sends|]. by rewrite app_nil_r.
Qed.

Lemma transmit_sends conversation id body a :
  sends_one (cr_conversationId conversation) body a (transmit conversation id body a).2.
Proof.
  unfold transmit. set (c := cr_conversationId conversation).
  assert (forall s, sends_one c body a (UpdateMessageState id s a).2) as Hu by (intros s; left; apply sends_calm; calm_auto).
  assert (sends_one c body a ((let! ready := reads a_ready in
      if negb ready then UpdateMessageState id Unknown
      else
        do! UpdateMessageState id WaitingAccept in
        let! uid := reads a_uid in
        let! requestId := send_to (DirectPeerUid c) (GroupId c) body (wire_id uid id)
                            (default 0 (cr_remoteConversationId conversation)) in
        expect requestId id) a).2) as Hs.
  { rewrite bind_reads. destruct (negb (a_ready a)); [apply Hu|].
    apply calm_then; [by calm_auto|]. intros _ a1 (E1 & _). rewrite bind_reads.
    pose proof (send_to_sends c body (wire_id (a_uid a1) id) (default 0 (cr_remoteConversationId conversation)) a1) as E2.
    unfold seq_bind. destruct (send_to _ _ _ _ _ a1) as [r a2]. simpl in E2. unfold sends_one.
    rewrite (sends_calm (expect r id) a2) by calm_auto. rewrite E2, E1. destruct (target_of c) as [t|].
    - right. by exists t, (wire_id (a_uid a1) id).
    - left. by rewrite app_nil_r. }
  destruct (DirectPeerUid c), (GroupId c); first [apply Hs|apply Hu].
Qed.

(** A message of the user goes at most once, and to the target of its conversation. *)
Lemma sendMessage_sends text a conversation :
  ConversationList.RecordAt (a_selected a) (a_conversations a) = Some conversation ->
  sends_one (cr_conversationId conversation) (trimmed text) a (sendMessage text a).2.
Proof.
  intros E. unfold sendMessage. rewrite E. case_match; [by left|].
  rewrite bind_writes, bind_now, bind_repo, bind_reads, bind_messages.
  match goal with |- sends_one _ _ _ (snd (_ ?y)) => assert (sends y = sends a) as Es by reflexivity; generalize dependent y end.
  intros a1 Es.
  do 4 (apply calm_then; [by calm_auto|]; intros _ ? (Hstep & _); rewrite Es in Hstep; clear Es; rename Hstep into Es).
  rewrite bind_reads. repeat case_match; [by left| |].
  - match goal with |- sends_one ?c ?b a (transmit ?x ?i ?b ?a1).2 => destruct (transmit_sends x i b a1) as [Et|(t & w & Et & Es')] end.
    + left. congruence.
    + right. exists t, w. rewrite Es', Es. done.
  - left. rewrite sends_calm by calm_auto. done.
Qed.

(** Texts for a group.  [GroupId] takes [sizeof] of a pointer for the length of
    its prefix and drops the first digit: a text that the user writes in the
    conversation of group [g] is not sent, or is sent to a group with a smaller
    id, never to [g]. *)
Theorem group_text_misdirected text a conversation g :
  ConversationList.RecordAt (a_selected a) (a_conversations a) = Some conversation ->
  cr_conversationId conversation = GroupConversationId g -> 0 < g < 2 ^ 63 ->
  forall s, s ∈ sends (sendMessage text a).2 ->
    s ∈ sends a \/ exists g' w, s = (inr g', trimmed text, w) /\ 0 < g' < g.
Proof.
  intros E Ec Hg s Hs. destruct (sendMessage_sends text a conversation E) as [Es|(t & w & Et & Es)]; rewrite Es in Hs; [by left|].
  apply elem_of_app in Hs as [Hs|Hs%list_elem_of_singleton]; [by left|right]. subst s. rewrite Ec in Et.
  unfold target_of in Et. rewrite DirectPeerUid_group in Et. destruct (GroupId_id g Hg) as (k & Hk & H0' & E'). rewrite E' in Et.
  pose proof (Z.mod_pos_bound g (10 ^ k) ltac:(lia)). destruct (Z.ltb_spec 0 (g mod 10 ^ k)); [|done].
  injection Et as <-. exists (g mod 10 ^ k), w. split; [done|lia].
Qed.

(** Texts for a user.  A text that the user writes in the conversation with [u]
    is sent to [u] with its trimmed body, if it is sent. *)
Theorem direct_text_sent_to_peer text a conversation u :
  ConversationList.RecordAt (a_selected a) (a_conversations a) = Some conversation ->
  cr_conversationId conversation = DirectConversationId u -> 0 < u < 2 ^ 63 ->
  forall s, s ∈ sends (sendMessage text a).2 -> s ∈ sends a \/ exists w, s = (inl u, trimmed text, w).
Proof.
  intros E Ec Hu s Hs. destruct (sendMessage_sends text a conversation E) as [Es|(t & w & Et & Es)]; rewrite Es in Hs; [by left|].
  apply elem_of_app in Hs as [Hs|Hs%list_elem_of_singleton]; [by left|right]. subst s. rewrite Ec in Et.
  unfold target_of in Et. rewrite DirectPeerUid_id in Et by done. injection Et as <-. by exists w.
Qed.
End Sending.

(** ** What is sent again after a login *)

Section Resuming.
Context {R : Type} `{IClientRepository R} `{QtText} `{QStringHashOrder} `{QtCodec} `{Uuid}.
Local Abbreviation app := (app R).

Definition pending (m : MessageRecord) : bool := mr_outgoing m && resumable (mr_deliveryState m).

(** What the loop reads of a message. *)
Definition sketch (m : MessageRecord) : Z * text * bool := (mr_clientMessageId m, mr_body m, pending m).

Definition steady (a a' : app) : Prop :=
  a_ready a' = a_ready a /\ a_uid a' = a_uid a /\ a_conversations a' = a_conversations a /\
  forall c, sketch <$> messages_of c a' = sketch <$> messages_of c a.

Lemma steady_refl a : steady a a.
Proof. by split_and!. Qed.

Lemma steady_trans a1 a2 a3 : steady a1 a2 -> steady a2 a3 -> steady a1 a3.
Proof. intros (E1 & E2 & E3 & E4) (F1 & F2 & F3 & F4). do 3 (split; [congruence|]). intros c. by rewrite F4. Qed.

Lemma steady_same a a' : a_ready a' = a_ready a -> a_uid a' = a_uid a -> a_conversations a' = a_conversations a ->
  sn_messagesByConversation (a_snapshot a') = sn_messagesByConversation (a_snapshot a) -> steady a a'.
Proof. intros E1 E2 E3 E4. do 3 (split; [done|]). intros c. unfold messages_of. by rewrite E4. Qed.

(** Waiting for acceptance is a state that is sent again. *)
Lemma waiting_steady id a :
  let a' := (UpdateMessageState id WaitingAccept a).2 in steady a a' /\ a_calls a' = a_calls a.
Proof.
  unfold UpdateMessageState. destruct (change_in _ _ _) as [[k ms']|] eqn:E; [|split; [apply steady_refl|done]].
  apply change_in_spec in E as (ms & Hin & Hc). apply each_lookup in Hin.
  rewrite bind_messages. set (a1 := (put_messages_of k ms' a).2).
  assert (steady a a1) as Hs.
  { do 3 (split; [done|]). intros c. subst a1. rewrite messages_of_put. case_decide as Ec; [subst c|done].
    apply change_one_spec in Hc as (l1 & x & l2 & El & Hx & ->). unfold messages_of. rewrite Hin, El. simpl.
    rewrite !fmap_app. f_equal. simpl. f_equal. apply andb_true_iff in Hx as [_ Hx]. unfold sketch, pending. simpl.
    f_equal. f_equal. by destruct (mr_deliveryState x). }
  assert (a_calls a1 = a_calls a) as Ec by done. clearbody a1.
  unfold seq_bind, repo. destruct (port_UpdateDeliveryState id WaitingAccept (a_repository a1)) as [ok r]. cbn [fst snd pure].
  split; [|exact Ec]. eapply steady_trans; [exact Hs|]. by apply steady_same.
Qed.

Definition resume_call (uid : Z) (c : string) (remote : Z) (m : Z * text * bool) : list GatewayCall :=
  let '(id, body, pending) := m in
  if negb pending then []
  else match DirectPeerUid c, GroupId c with
       | Some peerUid, _ => [Do (CallSendText peerUid (default "" body) (wire_id uid id) remote)]
       | None, Some groupId => [Do (CallSendGroupText groupId (default "" body) (wire_id uid id) remote)]
       | None, None => []
       end.

Lemma ask_ready k a : a_ready a = true ->
  let a' := (ask k a).2 in steady a a' /\ a_calls a' = a_calls a ++ [Do k].
Proof.
  intros E. unfold ask. set (a1 := put_calls _ _). assert (a_ready a1 = true) as -> by exact E.
  split; [by apply steady_same|done].
Qed.

Lemma resume_one c remote i a m : a_ready a = true -> messages_of c a !! i = Some m ->
  let a' := (resume_message c (DirectPeerUid c) (GroupId c) remote i a).2 in
  steady a a' /\ a_calls a' = a_calls a ++ resume_call (a_uid a) c remote (sketch m).
Proof.
  intros Hr Ei. set (calls := resume_call (a_uid a) c remote (sketch m)).
  set (P := fun a' : app => steady a a' /\ a_calls a' = a_calls a ++ calls).
  change (P (resume_message c (DirectPeerUid c) (GroupId c) remote i a).2). unfold resume_message. rewrite bind_reads, Ei.
  assert (pending m = false -> P a) as Hnone.
  { intros E. split; [apply steady_refl|]. subst calls. unfold resume_call, sketch. rewrite E. by rewrite app_nil_r. }
  assert (negb (mr_outgoing m) || negb (resumable (mr_deliveryState m)) = negb (pending m)) as ->
    by (unfold pending; by destruct (mr_outgoing m), (resumable _)).
  destruct (pending m) eqn:Epend; cbn [negb]; [|by apply Hnone]. clear Hnone.
  assert (forall a1, steady a a1 -> a_calls a1 = a_calls a -> P ((
    let! uid := reads a_uid in
    let! requestId := send_to (DirectPeerUid c) (GroupId c) (default "" (mr_body m)) (wire_id uid (mr_clientMessageId m)) remote in
    expect requestId (mr_clientMessageId m)) a1).2) as Hsend.
  { intros a1 Hs Ec. rewrite bind_reads. pose proof Hs as (Er & -> & _). rewrite Hr in Er. unfold send_to, P, calls, resume_call, sketch.
    rewrite Epend. cbn [negb].
    assert (forall k, let a2 := (seq_bind (ask k) (fun r => expect r (mr_clientMessageId m)) a1).2 in
      steady a a2 /\ a_calls a2 = a_calls a ++ [Do k]) as Hk.
    { intros k. unfold seq_bind. destruct (ask_ready k a1 Er) as [Hs' Ec']. destruct (ask k a1) as [r a2]. cbn [snd] in *.
      split; [|by rewrite <-Ec, <-Ec']. eapply steady_trans; [exact Hs|]. eapply steady_trans; [exact Hs'|]. by apply steady_same. }
    destruct (DirectPeerUid c); [apply Hk|]. destruct (GroupId c); [apply Hk|].
    rewrite bind_pure, app_nil_r. split; [|done]. eapply steady_trans; [exact Hs|]. by apply steady_same. }
  case_decide as Ed; [rewrite bind_pure; apply Hsend; [apply steady_refl|done]|].
  unfold seq_bind at 1. destruct (waiting_steady (mr_clientMessageId m) a) as [Hs Ec].
  destruct (UpdateMessageState _ _ a) as [[] a1]. by apply Hsend.
Qed.

Lemma resume_row c remote ms (a0 : app) : forall n a, a_ready a0 = true -> steady a0 a ->
  sketch <$> messages_of c a0 = sketch <$> ms -> (n <= length ms)%nat ->
  let a' := (for_each (seq (length ms - n) n) (resume_message c (DirectPeerUid c) (GroupId c) remote) a).2 in
  steady a0 a' /\
  a_calls a' = a_calls a ++ (drop (length ms - n) (sketch <$> ms) ≫= resume_call (a_uid a0) c remote).
Proof.
  intros n. induction n as [|n IH]; intros a Hr Hs Em Hn.
  { cbn. split; [done|]. rewrite Nat.sub_0_r, drop_ge by (by rewrite length_fmap). cbn. by rewrite app_nil_r. }
  set (calls := drop _ _ ≫= _). set (P := fun a' : app => steady a0 a' /\ a_calls a' = a_calls a ++ calls).
  change (P (for_each (seq (length ms - S n) (S n)) (resume_message c (DirectPeerUid c) (GroupId c) remote) a).2).
  cbn [seq for_each]. replace (S (length ms - S n)) with (length ms - n)%nat by lia. unfold seq_bind.
  destruct (lookup_lt_is_Some_2 ms (length ms - S n)) as [m0 Em0]; [lia|].
  pose proof Hs as (Er & Eu & _ & Esk). rewrite Hr in Er.
  assert (sketch <$> messages_of c a !! (length ms - S n)%nat = Some (sketch m0)) as Esm.
  { rewrite <-list_lookup_fmap, Esk, Em, list_lookup_fmap, Em0. done. }
  destruct (messages_of c a !! (length ms - S n)%nat) as [m|] eqn:Ei; [|done]. injection Esm as Esm.
  destruct (resume_one c remote _ a m Er Ei) as [Hs1 Ec1].
  destruct (resume_message _ _ _ _ _ a) as [[] a1]. cbn [snd] in Hs1, Ec1.
  destruct (IH a1 Hr (steady_trans _ _ _ Hs Hs1) Em ltac:(lia)) as [Hs2 Ec2]. split; [done|]. rewrite Ec2, Ec1, Eu.
  rewrite <-app_assoc. f_equal. subst calls.
  rewrite (drop_S (sketch <$> ms) (sketch m0) (length ms - S n)) by (by rewrite list_lookup_fmap, Em0).
  replace (S (length ms - S n)) with (length ms - n)%nat by lia. cbn [mbind list_bind]. f_equal. assert (sketch m = sketch m0) as -> by (unfold sketch; congruence). done.
Qed.

Definition remote_of (a : app) (c : string) : Z :=
  default 0 (ConversationList.RecordAt (ConversationList.IndexOf c (a_conversations a)) (a_conversations a)
             ≫= cr_remoteConversationId).

(** The calls for the messages the application holds. *)
Definition resume_calls (a : app) : list GatewayCall :=
  each (sn_messagesByConversation (a_snapshot a)) ≫= fun row =>
    (sketch <$> row.2) ≫= resume_call (a_uid a) row.1 (remote_of a row.1).

Lemma resume_conversation_calls c ms a0 a : a_ready a0 = true -> steady a0 a ->
  sketch <$> messages_of c a0 = sketch <$> ms ->
  let a' := (resume_conversation (c, ms) a).2 in
  steady a0 a' /\ a_calls a' = a_calls a ++ ((sketch <$> ms) ≫= resume_call (a_uid a0) c (remote_of a0 c)).
Proof.
  intros Hr Hs Em. set (calls := _ ≫= _). set (P := fun a' : app => steady a0 a' /\ a_calls a' = a_calls a ++ calls).
  change (P (resume_conversation (c, ms) a).2). unfold resume_conversation. cbn [fst snd].
  pose proof Hs as (_ & _ & Econv & _).
  destruct (resume_row c (remote_of a0 c) ms a0 (length ms) a Hr Hs Em (le_n _)) as [Hs2 Ec2].
  rewrite Nat.sub_diag in Hs2, Ec2. rewrite drop_0 in Ec2.
  destruct (DirectPeerUid c) eqn:Ep, (GroupId c) eqn:Eg; try (rewrite bind_reads, Econv; exact (conj Hs2 Ec2)).
  split; [exact Hs|]. subst calls.
  assert (forall l : list (Z * text * bool), l ≫= resume_call (a_uid a0) c (remote_of a0 c) = []) as ->; [|by rewrite app_nil_r].
  intros l. induction l as [|[[id body] p] l IHl]; [done|]. cbn. rewrite IHl, Ep, Eg. by destruct p.
Qed.

(** To whom: the user of a direct conversation; in a group's conversation the
    group whose id is left when the first digit is dropped, if it is not zero. *)
Lemma resume_call_direct uid u remote m : 0 < u < 2 ^ 63 ->
  resume_call uid (DirectConversationId u) remote m =
    let '(id, body, pending) := m in
    if (pending : bool) then [Do (CallSendText u (default "" body) (wire_id uid id) remote)] else [].
Proof. intros Hu. destruct m as [[id body] p]. unfold resume_call. rewrite DirectPeerUid_id by done. by destruct p. Qed.

Lemma resume_call_group uid g remote m : 0 < g < 2 ^ 63 -> exists k, 0 <= k /\ 10 ^ k <= g < 10 ^ (k + 1) /\
  resume_call uid (GroupConversationId g) remote m =
    let '(id, body, pending) := m in
    if (pending : bool) && (0 <? g mod 10 ^ k)
    then [Do (CallSendGroupText (g mod 10 ^ k) (default "" body) (wire_id uid id) remote)] else [].
Proof.
  intros Hg. destruct (GroupId_id g Hg) as (k & Hk & Hpos & E). exists k. split; [done|]. split; [done|].
  destruct m as [[id body] p]. unfold resume_call. rewrite DirectPeerUid_group, E. by destruct p, (0 <? _).
Qed.

(** C24: what is sent after a login.  When the client is ready,
    [ResumePendingOutgoing] makes the calls of [resume_calls], one for every
    unfinished text of the user, conversation by conversation, with its body,
    its wire id and the remote id: a text to a user goes to that user; one to a
    group goes to the group that is left of the number without its first digit,
    or nowhere when nothing is left ([group_text_misdirected]); a text that is
    not unfinished is not sent.  Ids, bodies and which messages are unfinished
    stay as they were. *)
Theorem pending_sent_again a : a_ready a = true ->
  let a' := (ResumePendingOutgoing a).2 in
  a_calls a' = a_calls a ++ resume_calls a /\
  (forall c, sketch <$> messages_of c a' = sketch <$> messages_of c a) /\
  (forall u remote id body, 0 < u < 2 ^ 63 ->
     resume_call (a_uid a) (DirectConversationId u) remote (id, body, true) =
       [Do (CallSendText u (default "" body) (wire_id (a_uid a) id) remote)]) /\
  (forall g remote id body, 0 < g < 2 ^ 63 -> exists k, 0 <= k /\ 10 ^ k <= g < 10 ^ (k + 1) /\
     resume_call (a_uid a) (GroupConversationId g) remote (id, body, true) =
       if 0 <? g mod 10 ^ k
       then [Do (CallSendGroupText (g mod 10 ^ k) (default "" body) (wire_id (a_uid a) id) remote)] else []) /\
  (forall c remote id body, resume_call (a_uid a) c remote (id, body, false) = []).
Proof.
  intros Hr. cbv zeta.
  enough (a_calls (ResumePendingOutgoing a).2 = a_calls a ++ resume_calls a /\
    forall c, sketch <$> messages_of c (ResumePendingOutgoing a).2 = sketch <$> messages_of c a) as [Hcalls Hkeep].
  { split; [done|]. split; [done|]. split; [intros; by rewrite resume_call_direct|]. split; [|done].
    intros g remote id body Hg. by destruct (resume_call_group (a_uid a) g remote (id, body, true) Hg) as (k & ? & ? & E); exists k. }
  unfold ResumePendingOutgoing. rewrite bind_reads. unfold resume_calls.
  assert (forall rows, (forall row, row ∈ rows -> row ∈ each (sn_messagesByConversation (a_snapshot a))) ->
    forall a1, steady a a1 -> let a' := (for_each rows resume_conversation a1).2 in
    steady a a' /\ a_calls a' = a_calls a1 ++ (rows ≫= fun row =>
      (sketch <$> row.2) ≫= resume_call (a_uid a) row.1 (remote_of a row.1))) as Hrows.
  { intros rows. induction rows as [|[c ms] rows IH]; intros Hsub a1 Hs; [split; [done|by rewrite app_nil_r]|].
    set (calls := _ ≫= _). set (P := fun a' : app => steady a a' /\ a_calls a' = a_calls a1 ++ calls).
    change (P (for_each ((c, ms) :: rows) resume_conversation a1).2). cbn [for_each]. unfold seq_bind.
    assert (sketch <$> messages_of c a = sketch <$> ms) as Em.
    { assert ((c, ms) ∈ each (sn_messagesByConversation (a_snapshot a))) as Hin by (apply Hsub; left).
      apply each_lookup in Hin. unfold messages_of. by rewrite Hin. }
    destruct (resume_conversation_calls c ms a a1 Hr Hs Em) as [Hs2 Ec2].
    destruct (resume_conversation (c, ms) a1) as [[] a2]. cbn [snd] in Hs2, Ec2.
    destruct (IH (fun row Hrow => Hsub row ltac:(by right)) a2 Hs2) as [Hs3 Ec3]. split; [done|].
    rewrite Ec3, Ec2, <-app_assoc. done. }
  destruct (Hrows _ ltac:(done) a (steady_refl a)) as [Hs Ec]. split; [exact Ec|apply Hs].
Qed.
End Resuming.
