(* ===== verification/AppSamples.v ===== *)
(** * Runs of the application

    The application of App on the SQLite repository of Sqlite, from a database
    that was opened: witnesses for the theorems of Application, and runs that
    show what the code does when answers, pushes and lists cross. *)

From S2P Require Import Prelude Const Packet Frame Client GateClient Snapshot Sqlite Ports App Application.

(** ** Qt for the runs *)

#[local] Instance runs_all : SqliteFaults := fun _ => SqlRuns.
#[local] Instance clock : SqliteClock := fun k => 1700000000 + Z.of_nat k.
#[local] Instance rows_in_order : RowOrder := { scan A m := map_to_list m; scan_rows A m := reflexivity _ }.
#[local] Instance hash_order : QStringHashOrder := { each A m := map_to_list m; each_perm A m := reflexivity _ }.
#[local] Existing Instance SqliteClientRepository.

Fixpoint pieces (c : ascii) (s acc : string) : list string :=
  match s with
  | "" => [acc]
  | String d s => if ascii_dec d c then acc :: pieces c s "" else pieces c s (acc +:+ String d "")
  end.

#[local] Instance qt : QtText.
Proof.
  refine {| trimmed s := s;
            toLongLong s := if str_empty s then None else
              match decimal s 0 with Some z => if z <? 2 ^ 63 then Some z else None | None => None end;
            split c s := pieces c s "";
            tr_uid s n := s +:+ to_string n;
            local_time _ := "09:30" |}.
  - done.
  - intros s z Hs E. rewrite E. by rewrite (proj2 (str_empty_false s) Hs).
Defined.

#[local] Instance codec : QtCodec.
Proof.
  refine {| SerializeProtobufPacket p := Some (pos_to_string (encode p));
            ParseProtobufPacket s := string_to_pos s ≫= decode |}.
  intros p s [= <-]. rewrite string_to_pos_to_string. simpl. apply decode_encode.
Defined.

#[local] Instance ids : Uuid.
Proof. refine {| uuid n := pretty n |}. intros n m E. by apply (inj pretty). Defined.

(** ** A database with a conversation and a group *)

Definition chat : ConversationRecord := mkConversationRecord "direct:1002" (Some "Bo") None None None (Some 77) 0 false false false.
Definition group : ConversationRecord := mkConversationRecord "group:4001" (Some "team") None None None (Some 78) 0 false false false.
Definition opened (c : ConversationRecord) : repository :=
  (SaveConversation c (Sqlite.Open None (mkRepository no_tables None 0 false)).2).2.

Definition session (uid : Z) : GateSession := mkGateSession uid "gw" 9000 "gw-1" "token" 3600 "" false.
(** Signing in as a user, until the application is told that it may go on. *)
Definition signed_in (uid : Z) : list app_event :=
  [OnGate (SignInSucceeded (session uid)); OnGateway (StateChanged Ready); OnGateway Authenticated].

Definition start (c : ConversationRecord) : app repository := AppController (opened c) true "normal" "chats".
Definition ser (p : Packet) : string := pos_to_string (encode p).

(** ** An own message whose answer was lost *)

(** The answer to the page with the own message, then the answer to the message
    sent again. *)
Definition own_page : string :=
  ser (add_message_list (mkPChatMessage 501 1001 1002 1 "hello" 1 "2026-01-01 09:30:00" "" 77 5 "1001:1000")
    (empty_packet |> set_int F_error 0 |> set_int F_conversation_id 77 |> set_int F_next_seq 5)).
Definition own_answer : string :=
  ser (empty_packet |> set_int F_error 0 |> set_int F_message_id 501 |> set_int F_conversation_id 77
                    |> set_int F_conversation_seq 5).

Definition lost_answer : list app_event :=
  signed_in 1001 ++
  [UiSend "hello"; OnGateway (RequestFailed "3" ID_TEXT_SEND_REQ DependencyUnavailable true);
   OnGateway (StateChanged Reconnecting); OnGateway (StateChanged Ready); OnGateway Authenticated;
   OnGateway (ResponseReceived "6" ID_PULL_SESSION_MESSAGE_LIST_RSP own_page);
   OnGateway (ResponseReceived "7" ID_TEXT_SEND_RSP own_answer)].

Definition after_lost_answer : app repository := run_app lost_answer (start chat).

(** The message is shown twice, waits in the outbox for ever, and is sent again
    at the next start. *)
Theorem own_message_shown_twice :
  (mr_messageId <$> messages_of "direct:1002" after_lost_answer) = [Some 501; Some 501] /\
  (fst <$> map_to_list (t_outbox (persisted (a_repository after_lost_answer)))) = [-1000] /\
  sends (run_app (signed_in 1001) (AppController (mkRepository (persisted (a_repository after_lost_answer)) None 0 true)
                                     true "normal" "chats")) = [(inl 1002, "hello", "1001:1000")].
Proof. by vm_compute. Qed.

(** ** Applications *)

Definition application (from : Z) : PFriendApply := mkPFriendApply from 1001 0 "hi" "2026-01-01 09:30:00".
Definition applications (froms : list Z) : string :=
  ser (foldl (fun p f => add_apply_list (application f) p) (empty_packet |> set_int F_error 0) froms).

(** The user accepts the first application; the list comes again, with a new one
    in front, before the answer. *)
Definition crossed_answer : list app_event :=
  signed_in 1001 ++
  [OnGateway (ResponseReceived "1" ID_PULL_FRIEND_APPLY_LIST_RSP (applications [2001; 2002])); UiResolve 0 true;
   OnGateway (ResponseReceived "4" ID_PULL_FRIEND_APPLY_LIST_RSP (applications [2003; 2001; 2002]));
   OnGateway (ResponseReceived "3" ID_REPLY_ADD_FRIEND_RSP (ser (empty_packet |> set_int F_error 0)))].

Theorem answer_marks_other_application :
  let a := run_app crossed_answer (start chat) in
  Do (CallReplyFriendRequest 2001 true "") ∈ a_calls a /\
  ((fun r => (rr_requestId r, default "" (rr_status r))) <$> a_requests a) =
    [("2003", "accepted"); ("2001", "pending"); ("2002", "pending")] /\
  (rq_status <$> t_requests (persisted (a_repository a)) !! "2003") = Some "accepted".
Proof. split; [vm_compute; by repeat (first [by left|right])|by vm_compute]. Qed.

(** An application that the server sends again because its acknowledgement was
    late: from then on no change of the list reaches the file. *)
Definition pushed_application : string :=
  ser (empty_packet |> set_int F_from 2001 |> set_str F_request_message "hi" |> set_int F_seq 9).
Definition repeated_push : list app_event :=
  signed_in 1001 ++
  [OnGateway (PushReceived ID_NOTIFY_ADD_FRIEND_REQ pushed_application);
   OnGateway (PushReceived ID_NOTIFY_ADD_FRIEND_REQ pushed_application); UiResolve 0 true;
   OnGateway (ResponseReceived "3" ID_REPLY_ADD_FRIEND_RSP (ser (empty_packet |> set_int F_error 0)))].

Theorem repeated_application_not_saved :
  let a := run_app repeated_push (start chat) in
  ((fun r => (rr_requestId r, default "" (rr_status r))) <$> a_requests a) = [("2001", "accepted"); ("2001", "pending")] /\
  (rq_status <$> t_requests (persisted (a_repository a)) !! "2001") = Some "pending".
Proof. by vm_compute. Qed.

(** ** Whose messages *)

(** A text written without a connection is sent in the name of whoever signs in
    next on the same database. *)
Definition written_offline : app repository := run_app [OnGate (SignInSucceeded (session 1001)); UiSend "hello"] (start chat).

Theorem next_user_sends_it :
  sends written_offline = [] /\
  sends (run_app (signed_in 1003) (AppController (mkRepository (persisted (a_repository written_offline)) None 0 true)
                                     true "normal" "chats")) = [(inl 1002, "hello", "1003:1000")].
Proof. by vm_compute. Qed.

(** Two devices of one user give the same wire id to different texts. *)
Theorem devices_share_wire_ids :
  sends (run_app (signed_in 1001 ++ [UiSend "hello"]) (start chat)) = [(inl 1002, "hello", "1001:1000")] /\
  sends (run_app (signed_in 1001 ++ [UiSend "bye"]) (start chat)) = [(inl 1002, "bye", "1001:1000")].
Proof. by vm_compute. Qed.

(** ** Another scenario under a connection

    Loading a demonstration scenario numbers the messages again while the
    session goes on: the same user's next text takes a wire id that names
    another text. *)
Module OtherScenario.
#[local] Instance scenarios : IClientRepository unit := base_repository ["normal"; "busy"] (fun name =>
  mkSnapshot name "online" [chat] ∅ [] [] ∅).

Theorem scenario_reuses_wire_id :
  sends (run_app (signed_in 1001 ++ [UiSend "hello"; UiScenario "busy"; UiSend "bye"])
           (AppController tt true "normal" "chats")) =
    [(inl 1002, "hello", "1001:1000"); (inl 1002, "bye", "1001:1000")].
Proof. by vm_compute. Qed.
End OtherScenario.

(** ** Witnesses *)

Lemma no_messages_loaded_ok s : sn_messagesByConversation s = ∅ -> loaded_ok s.
Proof. intros E. split; intros c ms; rewrite E, lookup_empty; [done|]. intros ms' m m'. by rewrite lookup_empty. Qed.

Lemma chat_loaded_ok : loaded_ok (port_LoadScenario "normal" (opened chat)).1.
Proof. apply no_messages_loaded_ok. by vm_compute. Qed.

Lemma own_page_ok p : ParseProtobufPacket own_page = Some p -> packet_ok p.
Proof.
  intros E. vm_compute in E. injection E as <-. split; [by vm_compute|]. split; [by vm_compute|].
  apply Forall_cons_2; [by vm_compute|apply Forall_nil_2].
Qed.
Lemma own_answer_ok p : ParseProtobufPacket own_answer = Some p -> packet_ok p.
Proof. intros E. vm_compute in E. injection E as <-. split; [by vm_compute|]. split; [by vm_compute|apply Forall_nil_2]. Qed.

Lemma lost_answer_ok : Forall event_ok lost_answer.
Proof.
  unfold lost_answer, signed_in. cbn [Datatypes.app]. repeat apply Forall_cons_2; try exact I; [| |apply Forall_nil_2].
  - exact own_page_ok.
  - exact own_answer_ok.
Qed.

Definition told (t : Z + Z) (b : string) : Prop :=
  (t, b, "1001:1000") ∈ sends (run_app lost_answer (AppController (opened chat) true "normal" "chats")).

Lemma told_hello : told (inl 1002) "hello".
Proof. vm_compute. by left. Qed.

Lemma wire_ids_name_texts_witness : ~ exists t b, told t b /\ (t <> inl 1002 \/ b <> "hello").
Proof.
  intros (t & b & Hb & Hne).
  destruct (wire_ids_name_texts (opened chat) true "normal" "chats" lost_answer t b (inl 1002) "hello" "1001:1000"
           chat_loaded_ok lost_answer_ok Hb told_hello) as [Et Eb]. by destruct Hne.
Defined.

(** The conversation on display. *)
Definition shown (a : app repository) : ConversationRecord :=
  default chat (ConversationList.RecordAt (a_selected a) (a_conversations a)).

Definition in_group : app repository := run_app (signed_in 1001) (start group).

Lemma group_text_misdirected_witness :
  sends (sendMessage "hi" in_group).2 = [(inr 1, "hi", "1001:1000")] /\ 1 <> 4001.
Proof.
  split; [by vm_compute|].
  destruct (group_text_misdirected "hi" in_group (shown in_group) 4001) with (s := (inr 1 : Z + Z, "hi", "1001:1000")) as [Hs|(g' & w & E & Hg)];
    [by vm_compute|by vm_compute|lia|vm_compute; by left|by vm_compute in Hs; apply not_elem_of_nil in Hs|]. injection E as <- _. lia.
Defined.

Definition in_chat : app repository := run_app (signed_in 1001) (start chat).

Lemma direct_text_sent_to_peer_witness :
  (inl 1002, "hi", "1001:1000") ∈ sends in_chat \/ exists w, (inl 1002 : Z + Z, "hi", "1001:1000") = (inl 1002, "hi", w).
Proof.
  destruct (direct_text_sent_to_peer "hi" in_chat (shown in_chat) 1002) with (s := (inl 1002 : Z + Z, "hi", "1001:1000"))
    as [Hs|[w Hs]]; [by vm_compute|by vm_compute|lia|vm_compute; by left|by left|right; by exists w].
Defined.

Definition waiting : app repository :=
  run_app [OnGate (SignInSucceeded (session 1001)); UiSend "hello"; OnGateway (StateChanged Ready)] (start chat).

Lemma pending_sent_again_witness :
  a_calls (ResumePendingOutgoing waiting).2 = a_calls waiting ++ [Do (CallSendText 1002 "hello" "1001:1000" 77)].
Proof.
  destruct (pending_sent_again waiting) as [E _]; [by vm_compute|]. rewrite E. f_equal.
Defined.
