(* ===== verification/Controls.v ===== *)
(** * What starts the application and what it tells its views

    [src/client/src/app/AppController.cc] besides App: the choices the
    constructor makes from the command line and the saved settings, the address
    of the gate ([saveGateUrl]), the texts about requests to the server
    ([service_action_status_]), the properties the views read, positions and the
    test notification.  [QString] is the bytes of its UTF-8; [QUrl], [QDir] and
    the saved settings are parameters. *)

From S2P Require Import Prelude Const Url Client GateClient Snapshot Sqlite Ports App Application AppSamples.

(** ** The command line *)

(** [value->startsWith(prefix)], the rest of it. *)
Definition ArgumentValue (arguments : list string) (name fallback : string) : string :=
  let start := "--" +:+ name +:+ "=" in
  match List.find (fun argument => String.prefix start argument) arguments with
  | Some argument => mid (String.length start) argument
  | None => fallback
  end.

(** [account.replace("[^a-zA-Z0-9_-]", "_")]: a character of several bytes is
    one underscore, at its first byte. *)
Definition account_char (c : ascii) : bool :=
  is_between c "a" "z" || is_between c "A" "Z" || is_between c "0" "9" || bool_decide (c = "_"%char) || bool_decide (c = "-"%char).
Definition continuation (c : ascii) : bool := (128 <=? ord c) && (ord c <? 192).
Fixpoint sanitized (s : string) : string :=
  match s with
  | "" => ""
  | String c s => if account_char c then String c (sanitized s)
                  else if continuation c then sanitized s
                  else String "_" (sanitized s)
  end.

Inductive platform := Desktop | Mobile.

Inductive repository_choice :=
  | SqliteAt (databasePath : string) (seedDemoData : bool)
  | FakeScenarios.

Record launch := mkLaunch {
  requested_window_width : Z; requested_window_height : Z; dark_theme_requested : bool;
  compact_conversation_requested : bool; la_gate_url : string; la_network : bool;
  la_repository : repository_choice; la_scenario : string; la_section : string }.

(** [QDir(directory).filePath(name)]; a [QUrl] made of a text: valid, its scheme,
    host and text. *)
Class QtFiles := { filePath : string -> string -> string }.
Class QUrl := { url_valid : string -> bool; url_scheme : string -> string; url_host : string -> string;
                url_text : string -> string }.

Section Start.
Context `{QtText} `{QtFiles}.

(** [QString::toInt]: zero outside the range of an [int]. *)
Definition toInt (s : string) : Z :=
  match toLongLong s with
  | Some z => if (- 2 ^ 31 <=? z) && (z <? 2 ^ 31) then z else 0
  | None => 0
  end.

Definition account_path (arguments : list string) (appData : string) : string :=
  let account := sanitized (ArgumentValue arguments "account" "demo") in
  let dataDirectory := ArgumentValue arguments "data-dir" "" in
  let dataDirectory := if str_empty dataDirectory then appData else dataDirectory in
  filePath dataDirectory ("accounts/" +:+ account +:+ ".sqlite").

(** [settings] is the value of [network/gateUrl], read on a phone only. *)
Definition Launch (p : platform) (arguments : list string) (settings : option string) (appData : string) : launch :=
  let gateUrl := ArgumentValue arguments "gate-url" "" in
  let gateUrl := match p with
                 | Mobile => if str_empty gateUrl then default "" settings else gateUrl
                 | Desktop => gateUrl
                 end in
  let gate_url := trimmed gateUrl in
  let network_enabled := negb (str_empty gate_url) in
  let repositoryKind := ArgumentValue arguments "repository" (if network_enabled then "sqlite" else "fake") in
  let databasePath := ArgumentValue arguments "database" "" in
  mkLaunch (toInt (ArgumentValue arguments "width" "1280")) (toInt (ArgumentValue arguments "height" "800"))
    (bool_decide (ArgumentValue arguments "theme" "light" = "dark")) (bool_decide ("--open-conversation" ∈ arguments))
    gate_url network_enabled
    (if bool_decide (repositoryKind = "sqlite")
     then SqliteAt (if str_empty databasePath then account_path arguments appData else databasePath) (negb network_enabled)
     else FakeScenarios)
    (ArgumentValue arguments "scenario" "normal") (ArgumentValue arguments "section" "chats").

(** The rest of the constructor, on the repository that was opened. *)
Definition controller_of {R} `{IClientRepository R} `{QStringHashOrder} (l : launch) (r : R) : app R :=
  AppController r (la_network l) (la_scenario l) (la_section l).
End Start.

(** ** The address of the gate *)

(** [contains("://")] *)
Definition contains (part s : string) : bool := match String.index 0 part s with Some _ => true | None => false end.

(** [while (normalized.endsWith('/')) normalized.chop(1);] *)
Fixpoint chop_slashes (s : string) : string :=
  match s with
  | "" => ""
  | String c s => match chop_slashes s with
                  | "" => if bool_decide (c = "/"%char) then "" else String c ""
                  | rest => String c rest
                  end
  end.

(** [gate_url_], [gate_configuration_status_], the saved value of
    [network/gateUrl], [notification_test_status_], [service_action_status_]; the
    address the gate client was given and whether the network is on stay. *)
Record controls := mkControls {
  k_gate_url : string; k_gate_status : string; k_settings : option string; k_notification : string;
  k_service_status : string; k_base_url : string; k_network : bool }.

Section Address.
Context `{QtText} `{QUrl}.

Definition with_scheme (gateUrl : string) : string :=
  let normalized := trimmed gateUrl in
  if negb (str_empty normalized) && negb (contains "://" normalized) then "http://" +:+ normalized else normalized.

Definition acceptable (normalized : string) : bool :=
  str_empty normalized ||
  (url_valid normalized && negb (str_empty (url_host normalized)) &&
   (bool_decide (url_scheme normalized = "http") || bool_decide (url_scheme normalized = "https"))).

Definition saveGateUrl (gateUrl : string) (k : controls) : controls :=
  let normalized := with_scheme gateUrl in
  if negb (acceptable normalized)
  then mkControls (k_gate_url k) "invalid" (k_settings k) (k_notification k) (k_service_status k) (k_base_url k) (k_network k)
  else
    let normalized := chop_slashes normalized in
    let activeUrl := url_text (k_base_url k) in
    let restartRequired := if k_network k then negb (bool_decide (activeUrl = normalized)) else negb (str_empty normalized) in
    mkControls normalized (if restartRequired then "restart-required" else "saved")
      (if str_empty normalized then None else Some normalized)
      (k_notification k) (k_service_status k) (k_base_url k) (k_network k).

(** After the constructor. *)
Definition new_controls (l : launch) (settings : option string) : controls :=
  mkControls (la_gate_url l) "idle" settings "idle" "" (if la_network l then la_gate_url l else "") (la_network l).

(** [shown] is what the platform answers. *)
Definition sendTestDesktopNotification (shown : bool) (k : controls) : bool * controls :=
  let nextStatus := if shown then "sent" else "unavailable" in
  if bool_decide (k_notification k = nextStatus) then (false, k)
  else (true, mkControls (k_gate_url k) (k_gate_status k) (k_settings k) nextStatus (k_service_status k) (k_base_url k) (k_network k)).

Definition SetServiceActionStatus (status : string) (k : controls) : bool * controls :=
  if bool_decide (k_service_status k = status) then (false, k)
  else (true, mkControls (k_gate_url k) (k_gate_status k) (k_settings k) (k_notification k) status (k_base_url k) (k_network k)).
End Address.

(** ** What the views read *)

Section Properties.
Context {R : Type} `{IClientRepository R}.
Local Abbreviation app := (app R).

Definition selected_conversation (a : app) : option ConversationRecord :=
  ConversationList.RecordAt (a_selected a) (a_conversations a).
Definition selectedConversationTitle (a : app) : text := selected_conversation a ≫= cr_title.
Definition selectedConversationIsGroup (a : app) : bool := String.prefix "group:" (CurrentConversationId a).
Definition selectedConversationUnreadCount (a : app) : Z :=
  match selected_conversation a with None => 0 | Some record => cr_unreadCount record end.
Definition selected_contact (a : app) : option ContactRecord := at_row (a_selected_contact a) (a_contacts a).
Definition selectedContactName (a : app) : text := selected_contact a ≫= ct_displayName.
Definition selectedContactStatus (a : app) : text := selected_contact a ≫= ct_statusText.
Definition scenarioName (a : app) : string := sn_scenarioName (a_snapshot a).
Definition connectionStatus (a : app) : string := sn_connectionStatus (a_snapshot a).

(** [conversation_list_position_] and [timeline_positions_], of a type [qreal]. *)
Context {qreal : Type} (zero : qreal) (nonnegative : qreal -> bool).
Record positions := mkPositions { conversation_list_position : qreal; timeline_positions : gmap string qreal }.

Definition saveConversationListPosition (position : qreal) (p : positions) : positions :=
  if nonnegative position then mkPositions position (timeline_positions p) else p.
Definition timelinePosition (a : app) (p : positions) : qreal := default zero (timeline_positions p !! CurrentStateKey a).
Definition saveTimelinePosition (a : app) (position : qreal) (p : positions) : positions :=
  let key := CurrentStateKey a in
  if negb (str_empty key) && nonnegative position
  then mkPositions (conversation_list_position p) (<[key := position]> (timeline_positions p)) else p.
End Properties.

(** ** What the user is told

    The text an action leaves in [service_action_status_], from the state it was
    started in; [None] when it leaves the old one. *)
Section Texts.
Context {R : Type} `{IClientRepository R} `{QtText} `{QStringHashOrder} `{QtCodec} `{Uuid}.
Local Abbreviation app := (app R).

Definition friend_submitted : string := "好友申请已提交".
Definition join_submitted : string := "入群申请已提交".
Definition group_submitted : string := "创建群请求已提交".
Definition request_submitted : string := "正在处理申请".
Definition retry_submitted : string := "正在重试消息".

(** A user or a group the user typed the number of. *)
Definition typed_status (invalid demo demo_with unready submitted : string) (id message : string) (a : app) : string :=
  match toLongLong id with
  | None => invalid
  | Some number =>
      if number <=? 0 then invalid
      else if negb (a_network a) then tr_uid (if str_empty (trimmed message) then demo else demo_with) number
      else if negb (a_ready a) then unready
      else submitted
  end.

Definition sendFriendRequest_status : string -> string -> app -> string :=
  typed_status "请输入有效用户 ID" "演示：已向用户 %1 发送好友申请" "演示：已向用户 %1 发送好友申请和验证消息"
    "连接尚未就绪，暂时不能发送好友申请" friend_submitted.
Definition joinGroup_status : string -> string -> app -> string :=
  typed_status "请输入有效群 ID" "演示：已申请加入群 %1" "演示：已提交群 %1 的入群申请和说明"
    "连接尚未就绪，暂时不能申请入群" join_submitted.

(** A new group whose conversation cannot be saved says so, until the text of the
    demonstration replaces it. *)
Definition createGroup_status (name : string) (a : app) : string :=
  if str_empty (trimmed name) then "群名不能为空"
  else if negb (a_network a) then "演示群聊已创建"
  else if negb (a_ready a) then "连接尚未就绪，暂时不能创建群聊"
  else group_submitted.

Definition resolveRequest_status (index : Z) (accepted : bool) (a : app) : option string :=
  match at_row index (a_requests a) with
  | None => None
  | Some request =>
      if negb (text_eq (rr_status request) (Some "pending")) then None
      else if negb (a_network a) then None
      else if negb (a_ready a) then Some "连接尚未就绪，暂时不能处理申请"
      else if text_eq (rr_kind request) (Some "group") then
        match split ":"%char (rr_requestId request) with
        | [_; group; user] =>
            match toLongLong group, toLongLong user with
            | Some _, Some _ => Some request_submitted
            | _, _ => Some "群申请标识无效"
            end
        | _ => Some "群申请缺少必要标识"
        end
      else
        match toLongLong (rr_requestId request) with
        | Some userId => if userId <=? 0 then Some "好友申请缺少用户 ID" else Some request_submitted
        | None => Some "好友申请缺少用户 ID"
        end
  end.

Definition retryMessage_status (clientMessageId : Z) (a : app) : option string :=
  match find_message clientMessageId a with
  | None => Some "未找到需要重试的消息"
  | Some (conversationId, found) =>
      if negb (mr_outgoing found) || negb (bool_decide (mr_deliveryState found = RetryableFailed)) then Some "当前消息不需要手动重试"
      else if str_empty conversationId then Some "未找到需要重试的消息"
      else if negb (a_network a) then None
      else if negb (a_ready a) then Some "连接尚未就绪，请稍后重试"
      else
        match DirectPeerUid conversationId, GroupId conversationId with
        | None, None => Some "当前会话没有可用的服务端接收者"
        | _, _ => Some retry_submitted
        end
  end.

(** [authentication_error_] after an attempt to sign in, [None] for the old one;
    an empty text clears it. *)
Definition authenticate_error (username password : string) (a : app) : option string :=
  if negb (a_network a) || a_busy a then None
  else if str_empty (trimmed username) || str_empty password then Some "请输入账号和密码"
  else Some "".
Definition account_error (incomplete : string) (complete : bool) (a : app) : option string :=
  if negb (a_network a) || a_busy a then None
  else if negb complete then Some incomplete
  else Some "".

(** ** A request is announced when it is made *)

(** The calls that an action adds. *)
Definition calls_of {A} (m : State app A) (a : app) : list GatewayCall := drop (length (a_calls a)) (a_calls (m a).2).

Lemma ask_when_ready k a : a_ready a = true -> a_calls (ask k a).2 = a_calls a ++ [Do k].
Proof. intros Hr. unfold ask, seq_bind. simpl. by rewrite Hr. Qed.

Lemma calls_added {A} (m : State app A) a ks : a_calls (m a).2 = a_calls a ++ ks -> calls_of m a = ks.
Proof. intros E. unfold calls_of. by rewrite E, drop_app_length. Qed.

Lemma no_calls {A} (m : State app A) a : (m a).2 = a -> calls_of m a = [].
Proof. intros E. unfold calls_of. rewrite E. by apply drop_all. Qed.

Lemma typed_announced invalid demo demo_with unready submitted id message (k : Z -> Call) a :
  submitted <> invalid -> submitted <> unready -> a_network a = true ->
  (typed_status invalid demo demo_with unready submitted id message a = submitted <->
   exists number, toLongLong id = Some number /\ calls_of (typed_request id k) a = [Do (k number)]) /\
  (typed_status invalid demo demo_with unready submitted id message a <> submitted -> (typed_request id k a).2 = a).
Proof.
  intros Hi Hu Hnet. unfold typed_status, typed_request. rewrite Hnet. cbn [negb].
  destruct (toLongLong id) as [n|].
  2: { split; [|done]. split; [intros E; by destruct Hi|by intros (? & ? & _)]. }
  destruct (n <=? 0) eqn:En; cbn [orb].
  { split; [|done]. split; [congruence|]. intros (? & _ & E). rewrite no_calls in E; done. }
  destruct (a_ready a) eqn:Er; cbn [negb orb].
  - split; [|done]. split; [intros _|done]. exists n. split; [done|]. apply calls_added. cbv beta.
    rewrite ?En, Hnet, Er. cbn [negb orb]. unfold seq_bind, pure.
    pose proof (ask_when_ready (k n) a Er) as E. by destruct (ask (k n) a).
  - split; [|done]. split; [congruence|]. intros (? & _ & E). rewrite no_calls in E; [done|].
    cbv beta. by rewrite ?En, Hnet, Er.
Qed.
End Texts.

(** ** Starting *)

Section Starting.
Context `{QtText} `{QtFiles}.

(** An account is one name in the directory of the accounts: no separator, no
    dot; but accounts that differ in other characters share a database. *)
Lemma sanitized_chars s : str_forall account_char (sanitized s) = true.
Proof. induction s as [|c s IH]; simpl; [done|]. repeat case_match; simpl; rewrite ?IH, ?andb_true_r; done. Qed.

Lemma sanitized_id s : str_forall account_char s = true -> sanitized s = s.
Proof.
  induction s as [|c s IH]; simpl; [done|]. intros [Hc Hs]%andb_prop. by rewrite Hc, IH.
Qed.

Lemma sanitized_again s : sanitized (sanitized s) = sanitized s.
Proof. apply sanitized_id, sanitized_chars. Qed.

(** What the constructor decides is decided by the arguments; the saved address
    counts on a phone only, and there only without one on the command line. *)
Lemma desktop_ignores_settings arguments saved saved' appData :
  Launch Desktop arguments saved appData = Launch Desktop arguments saved' appData.
Proof. done. Qed.

Lemma demonstration_has_no_network p arguments saved appData :
  la_network (Launch p arguments saved appData) = false <-> la_gate_url (Launch p arguments saved appData) = "".
Proof. unfold Launch. simpl. by rewrite negb_false_iff, str_empty_true. Qed.

(** Demonstration data only goes into a database without a network. *)
Lemma seeded_without_network p arguments saved appData path :
  la_repository (Launch p arguments saved appData) = SqliteAt path true ->
  la_network (Launch p arguments saved appData) = false.
Proof. unfold Launch. simpl. case_bool_decide; [|done]. intros [= _ E]. by destruct (str_empty _). Qed.
End Starting.

Lemma chop_slashes_spec s : chop_slashes (chop_slashes s) = chop_slashes s /\
  exists slashes, s = chop_slashes s +:+ slashes /\ str_forall (fun c => bool_decide (c = "/"%char)) slashes = true.
Proof.
  induction s as [|c s [IH (l & E & Hl)] ]; simpl; [by split; [|exists ""]|].
  destruct (chop_slashes s) as [|d t] eqn:Ed.
  - case_bool_decide as Hc; simpl.
    + split; [done|]. exists (String c l). split; [by rewrite E|]. simpl. by rewrite bool_decide_eq_true_2.
    + rewrite bool_decide_eq_false_2 by done. split; [done|]. exists l. split; [by rewrite E|done].
  - rewrite <- Ed in IH |- *. cbn [chop_slashes]. rewrite IH, Ed. split; [done|]. exists l.
    split; [|done]. rewrite E at 1. done.
Qed.

(** The address of the gate.  An address that is not acceptable changes nothing
    but the status; one that is is saved without its last slashes, and is the
    address of the next start on a phone, where the network is on unless it is
    empty; a start on a desktop does not depend on it. *)
Theorem gate_address_roundtrip `{QtText} `{QtFiles} `{QUrl} gateUrl k arguments appData :
  ArgumentValue arguments "gate-url" "" = "" ->
  let k' := saveGateUrl gateUrl k in
  trimmed (k_gate_url k') = k_gate_url k' ->
  (acceptable (with_scheme gateUrl) = false ->
     k_gate_status k' = "invalid" /\ k_settings k' = k_settings k /\ k_gate_url k' = k_gate_url k) /\
  (acceptable (with_scheme gateUrl) = true ->
     k_gate_url k' = chop_slashes (with_scheme gateUrl) /\
     la_gate_url (Launch Mobile arguments (k_settings k') appData) = k_gate_url k' /\
     la_network (Launch Mobile arguments (k_settings k') appData) = negb (str_empty (k_gate_url k')) /\
     (k_network k = true -> k_gate_status k' = "saved" <-> url_text (k_base_url k) = k_gate_url k')) /\
  k_base_url k' = k_base_url k /\ k_network k' = k_network k /\
  Launch Desktop arguments (k_settings k') appData = Launch Desktop arguments (k_settings k) appData.
Proof.
  intros Harg k' Htrim. unfold k', saveGateUrl in *. destruct (acceptable (with_scheme gateUrl)) eqn:Ea; cbn [negb] in *.
  - split; [done|]. split; [|done]. intros _. simpl in *. unfold Launch. simpl. rewrite Harg. cbn [str_empty].
    assert (default "" (if str_empty (chop_slashes (with_scheme gateUrl)) then None else Some (chop_slashes (with_scheme gateUrl)))
            = chop_slashes (with_scheme gateUrl)) as ->.
    { destruct (str_empty _) eqn:E; [|done]. apply str_empty_true in E. by rewrite E. }
    change (str_empty "") with true. cbv iota. rewrite Htrim. split_and!; [done..|]. intros ->.
    by case_bool_decide.
  - split; [|done]. done.
Qed.

(** ** Runs *)

#[local] Existing Instances AppSamples.runs_all AppSamples.clock AppSamples.rows_in_order AppSamples.hash_order
  AppSamples.qt AppSamples.codec AppSamples.ids SqliteClientRepository.
#[local] Instance slashes : QtFiles := {| filePath directory name := directory +:+ "/" +:+ name |}.
(** Addresses of one scheme, enough for the runs. *)
#[local] Instance plain_url : QUrl := {|
  url_valid s := true; url_scheme s := if String.prefix "http://" s then "http" else "";
  url_host s := mid 7 s; url_text s := s |}.

Definition on_a_phone : controls := new_controls (Launch Mobile ["wimi-client"] None "/data") None.

Lemma gate_address_roundtrip_witness :
  ArgumentValue ["wimi-client"] "gate-url" "" = "" /\
  la_gate_url (Launch Mobile ["wimi-client"] (k_settings (saveGateUrl "chat.example.org//" on_a_phone)) "/data") =
    "http://chat.example.org" /\
  k_gate_status (saveGateUrl "chat.example.org//" on_a_phone) = "restart-required" /\
  k_gate_status (saveGateUrl "ftp://chat.example.org" on_a_phone) = "invalid".
Proof.
  split; [done|].
  destruct (gate_address_roundtrip "chat.example.org//" on_a_phone ["wimi-client"] "/data" ltac:(done) ltac:(done))
    as (_ & Hok & _).
  destruct (Hok ltac:(done)) as (E & El & _). split; [etransitivity; [exact El|by vm_compute]|].
  split; by vm_compute.
Defined.

(** On a desktop the address is saved, the views ask for a restart, and the next
    start has no network again. *)
Example saved_address_unused :
  let k := saveGateUrl "chat.example.org" (new_controls (Launch Desktop ["wimi-client"] None "/data") None) in
  k_gate_status k = "restart-required" /\ k_settings k = Some "http://chat.example.org" /\
  la_network (Launch Desktop ["wimi-client"] (k_settings k) "/data") = false.
Proof. by vm_compute. Qed.

(** Two accounts, one database. *)
Example accounts_share_a_database :
  account_path ["wimi-client"; "--account=a.b"] "/data" = account_path ["wimi-client"; "--account=a_b"] "/data".
Proof. by vm_compute. Qed.

(** What the views show of the conversation and of a request. *)
Example told_and_shown :
  selectedConversationTitle (start chat) = Some "Bo" /\ selectedConversationIsGroup (start chat) = false /\
  selectedConversationIsGroup (start group) = true /\
  sendFriendRequest_status "x" "hi" (start chat) = "请输入有效用户 ID" /\
  sendFriendRequest_status "2001" "hi" (start chat) = "连接尚未就绪，暂时不能发送好友申请" /\
  sendFriendRequest_status "2001" "hi" (run_app (signed_in 1001) (start chat)) = friend_submitted.
Proof. by vm_compute. Qed.
