(* ===== verification/Lockout.v ===== *)
(** * A login the gateway refuses

    [ConnectionGatewayClient::HandleLoginResponse] next to the slots that
    [AppController::ConfigureNetwork] connects: after a login response with an
    error other than an expired credential, or one that cannot be read, the
    client gives the connection up and reports a protocol error, for which the
    application only shows a text.  Nothing then clears [authentication_busy_],
    so the application never asks the gate for anything again.  First the client,
    over all its later events, then the application, over all that its user and
    the abandoned client can do. *)

From S2P Require Import Prelude Const Packet Frame Client GateClient Snapshot Sqlite Ports App Application AppSamples.

(** ** The client *)

(** What a client that was given up emits. *)
Definition mild (s : Signal) : bool :=
  match s with
  | ProtocolError | RequestFailed _ _ _ _ | StateChanged Disconnected => true
  | _ => false
  end.

Definition opens (e : event) : bool := match e with EvOpen _ => true | _ => false end.

(** No connection and none wanted; since it had emitted [before], only mild
    signals. *)
Record leaving (before : list Signal) (c : client) : Prop := mk_leaving {
  lv_unwanted : cl_desired_open c = false;
  lv_socket : cl_socket c = SUnconnected;
  lv_signals : exists new, cl_signals c = before ++ new /\ Forall (fun s => mild s = true) new }.

(** Nothing waits any more either. *)
Record abandoned (before : list Signal) (c : client) : Prop := mk_abandoned {
  ab_leaving : leaving before c; ab_state : cl_state c = Disconnected; ab_pending : cl_pending c = ∅ }.

Section GaveUp.
Context `{QtCodec} `{Uuid} `{Random} `{QHashOrder}.
Variable slots : list Signal -> list Call.
Variable before : list Signal.
Local Abbreviation stays := (always (abandoned before)).

Lemma leaving_same c c' : leaving before c -> cl_desired_open c' = cl_desired_open c ->
  cl_socket c' = cl_socket c -> cl_signals c' = cl_signals c -> leaving before c'.
Proof. intros [Hu Hv Hw] E1 E2 E3. constructor; [congruence..|by rewrite E3]. Qed.

Lemma leaving_emit s : mild s = true -> always (leaving before) (emit s).
Proof.
  intros Hs c [Hu Hv (new & E & Hn)]. constructor; [done..|]. exists (new ++ [s]). simpl.
  rewrite E, <- app_assoc. split; [done|]. apply Forall_app_2; [done|by apply Forall_singleton].
Qed.

Lemma stays_emit s : mild s = true -> stays (emit s).
Proof. intros Hs c [Hl Hu Hv]. constructor; [by apply leaving_emit|done..]. Qed.

Lemma stays_same c c' : abandoned before c -> cl_desired_open c' = cl_desired_open c -> cl_socket c' = cl_socket c ->
  cl_signals c' = cl_signals c -> cl_state c' = cl_state c -> cl_pending c' = cl_pending c -> abandoned before c'.
Proof. intros [Hl Hu Hv] ?????. constructor; [by apply (leaving_same c)|congruence..]. Qed.

Lemma not_ready c : abandoned before c -> Client.IsReady c = false.
Proof. intros Hc. unfold Client.IsReady. by rewrite (ab_state _ _ Hc). Qed.

Lemma stays_NewRequestId : stays NewRequestId.
Proof. intros c Hc. by apply (stays_same c). Qed.

Lemma stays_NextLegacySequence : stays NextLegacySequence.
Proof. intros c Hc. by apply (stays_same c). Qed.

Lemma stays_QueueRequest id p t : stays (QueueRequest id p t).
Proof.
  intros c Hc. unfold QueueRequest, seq_bind at 1. pose proof (stays_NewRequestId c Hc) as Hn.
  destruct (NewRequestId c) as [r c1]. simpl in Hn. unfold seq_bind at 1, reads at 1. rewrite (not_ready c1 Hn). simpl.
  exact (stays_emit (RequestFailed r id DependencyUnavailable false) eq_refl c1 Hn).
Qed.

Lemma stays_SendReceipt m k c q : stays (SendReceipt m k c q).
Proof. intros c0 Hc. unfold SendReceipt, seq_bind at 1, reads at 1. by rewrite (not_ready c0 Hc). Qed.
Hint Resolve stays_QueueRequest stays_SendReceipt stays_NextLegacySequence : always.

Lemma stays_run_call k : stays (run_call k).
Proof.
  destruct k; simpl; unfold ignore, PullFriendList, PullFriendApplications, PullConversationMessages, PullAllMessages,
    SendFriendRequest, ReplyFriendRequest, SendText, UploadFile, CreateGroup, RequestJoinGroup, ReplyJoinGroup,
    SendGroupText, AcknowledgeTransport, AcknowledgeDelivered, AcknowledgeRead; auto 10 with always.
Qed.

(** Whatever happens to it but [Open], it stays as it is. *)
Lemma stays_event e : opens e = false -> stays (client_event slots e).
Proof.
  intros He c Hc. pose proof Hc as [ [Hu Hv Hw] Hx Hy]. destruct e; simpl; rewrite ?Hv; try done.
  - unfold Close, seq_bind, writes, reads. simpl. rewrite Hv. simpl. unfold SetState. simpl.
    rewrite decide_True by done. by apply (stays_same c).
  - by apply stays_run_call.
  - by rewrite (not_ready c Hc), andb_false_r.
  - destruct (cl_reconnect_timer c); [|done]. unfold StartSocket. simpl. rewrite Hu. by apply (stays_same c).
  - destruct (cl_timers c !! responseServiceId) as [ [?|]|]; [|done..]. unfold on_request_timeout. simpl.
    rewrite Hy, lookup_empty. by apply (stays_same c).
  - destruct (cl_closers c); [done|]. rewrite Hx. rewrite decide_False by done. by apply (stays_same c).
Qed.

Lemma stays_run es c : Forall (fun e => opens e = false) es -> abandoned before c ->
  abandoned before (run_client slots es c).
Proof.
  intros Hes. revert c. unfold run_client. induction Hes as [|e es He _ IH]; intros c Hc; simpl; [done|].
  apply IH. by apply stays_event.
Qed.

(** ** How it gets there *)

Lemma leaving_fail e o c : leaving before c ->
  leaving before (FailAllPending e o c).2 /\ cl_pending (FailAllPending e o c).2 = ∅.
Proof.
  intros Hl. unfold FailAllPending, seq_bind, writes, reads.
  assert (forall c, leaving before c -> leaving before
    (for_each (snd <$> visit (cl_pending c)) (fun queue => for_each queue (fail_request e o)) c).2) as Hf.
  { intros c1 Hc. apply always_for_each; [|done]. intros queue _. apply always_for_each. intros r _. by apply leaving_emit. }
  match goal with |- context [for_each _ _ ?c1] => specialize (Hf c1) end.
  destruct (for_each _ _ _) as [u c2]. split; [|done]. apply (leaving_same c2); [|done..].
  apply Hf. by apply (leaving_same c).
Qed.

Lemma leaving_disconnected c : leaving before c -> abandoned before (on_disconnected c).2.
Proof.
  intros Hl. unfold on_disconnected, seq_bind, writes, reads.
  match goal with |- context [FailAllPending ?e ?o ?c1] => destruct (leaving_fail e o c1) as [Hf Hp] end.
  { by apply (leaving_same c). }
  destruct (FailAllPending _ _ _) as [u c2]. simpl in Hf, Hp. rewrite (lv_unwanted _ _ Hf). cbn [andb].
  unfold SetState. case_decide as Hs; [by constructor|]. constructor; [|done..].
  apply (leaving_emit (StateChanged Disconnected) eq_refl). by apply (leaving_same c2).
Qed.

(** The error of a login response that the client takes for a protocol error;
    [None] is a response that cannot be read. *)
Definition refusal (payload : string) : Prop :=
  match ParseProtobufPacket payload with
  | None => True
  | Some response =>
      let errorCode := if has_int F_error response then int32 (get_int F_error response) else 0 in
      errorCode <> Success /\ errorCode <> TokenInvalid /\ errorCode <> AuthenticationRequired
  end.

Lemma refused_response payload c : refusal payload -> cl_signals c = before ->
  cl_socket c = SConnected -> cl_buffer c = [] -> abandoned before (HandleLoginResponse slots payload c).2.
Proof.
  unfold refusal, HandleLoginResponse. intros Hr Hs Hc Hb.
  assert (forall c1, cl_signals c1 = before ++ [ProtocolError] -> cl_desired_open c1 = false ->
    leaving before (drop_socket c1)) as Hdrop.
  { intros c1 E1 E2. constructor; [done..|]. exists [ProtocolError]. split; [done|]. by apply Forall_singleton. }
  destruct (ParseProtobufPacket payload) as [response|].
  - destruct Hr as (Hz & Hu & Hv). rewrite !(proj2 (Z.eqb_neq _ _)) by done. cbn [negb orb].
    unfold seq_bind, writes, emit. unfold socket_disconnect. simpl. rewrite Hc, Hb.
    apply leaving_disconnected, Hdrop; [simpl; by rewrite Hs|done].
  - unfold seq_bind, writes, emit. unfold socket_abort. simpl. rewrite Hc.
    apply leaving_disconnected, Hdrop; [simpl; by rewrite Hs|done].
Qed.
End GaveUp.

(** ** The application *)

(** The sessions it asked the gateway client to open. *)
Definition session_of_call (k : GatewayCall) : option GateSession :=
  match k with OpenSession session => Some session | Do _ => None end.

(** What happens to the application while the gateway client stays abandoned and
    the gate owes no answer: its user, its timers, mild signals. *)
Definition from_outside (e : app_event) : bool :=
  match e with
  | OnGate _ => false
  | OnGateway s => mild s
  | _ => true
  end.

Section Locked.
Context {R : Type} `{IClientRepository R} `{QtText} `{QStringHashOrder} `{QtCodec} `{Uuid}.
Variable asked : list GateCall.
Variable opened : list GateSession.
Local Abbreviation app := (app R).

Definition sessions_opened (a : app) : list GateSession := omap session_of_call (a_calls a).

(** Busy with a sign-in for ever: these requests to the gate and no others. *)
Record locked (a : app) : Prop := mk_locked {
  lk_busy : a_busy a = true; lk_network : a_network a = true;
  lk_asked : a_gate_calls a = asked; lk_opened : sessions_opened a = opened }.
Local Abbreviation keeps := (always locked).

Lemma locked_same a a' : locked a -> a_busy a' = a_busy a -> a_network a' = a_network a ->
  a_gate_calls a' = a_gate_calls a -> sessions_opened a' = sessions_opened a -> locked a'.
Proof. intros [? ? ? ?] ? ? ? ?. constructor; congruence. Qed.

Lemma locked_call k a : locked a -> locked (put_calls (a_calls a ++ [Do k]) a).
Proof. intros Ha. apply (locked_same a); [done..|]. unfold sessions_opened. simpl. by rewrite omap_app, app_nil_r. Qed.

Lemma keeps_repo {A} (m : State R A) : keeps (repo m).
Proof. intros a Ha. unfold repo. destruct (m (a_repository a)). by apply (locked_same a). Qed.
Lemma keeps_setter (f : app -> app) :
  (forall a, a_busy (f a) = a_busy a /\ a_network (f a) = a_network a /\ a_gate_calls (f a) = a_gate_calls a /\
             a_calls (f a) = a_calls a) -> keeps (writes f).
Proof.
  intros Hf a Ha. destruct (Hf a) as (E1 & E2 & E3 & E4). apply (locked_same a); [done..|].
  unfold sessions_opened. simpl. by rewrite E4.
Qed.
Lemma keeps_tell k : keeps (tell k).
Proof. intros a Ha. by apply locked_call. Qed.
End Locked.

Create HintDb locked.
#[export] Hint Resolve always_pure always_reads keeps_repo keeps_tell : locked.
#[export] Hint Extern 1 (always (locked _ _) (snap _)) => (apply keeps_setter; intros; by split_and!) : locked.
#[export] Hint Extern 1 (always (locked _ _) (writes _)) => (apply keeps_setter; intros; repeat case_match; by split_and!) : locked.

Ltac locked_auto :=
  lazymatch goal with
  | |- forall _, _ => intros; locked_auto
  | |- always _ (seq_bind _ _) => apply always_bind; locked_auto
  | |- always _ (for_each _ _) => apply always_for_each; locked_auto
  | |- always _ (match _ with _ => _ end) => case_match; locked_auto
  | |- _ => auto with locked
  end.
Ltac locked_branch :=
  lazymatch goal with
  | Ha : locked _ _ ?a |- locked _ _ (snd (_, ?a)) => exact Ha
  | Ha : locked ?k ?o ?a |- locked _ _ (snd (_, _)) => by apply (locked_same k o a)
  | |- locked ?k ?o (snd (?m ?a)) => let Hm := fresh in assert (always (locked k o) m) as Hm; [locked_auto|by apply Hm]
  end.
(** An operation that looks at the state first. *)
Ltac locked_cases := intros ? ?; repeat case_match; locked_branch.

Section LockedOperations.
Context {R : Type} `{IClientRepository R} `{QtText} `{QStringHashOrder} `{QtCodec} `{Uuid}.
Variable asked : list GateCall.
Variable opened : list GateSession.
Local Abbreviation keeps := (always (locked (R := R) asked opened)).

Lemma keeps_put_messages_of c ms : keeps (put_messages_of c ms).
Proof. unfold put_messages_of. auto with locked. Qed.
Hint Resolve keeps_put_messages_of : locked.
Lemma keeps_UpdateMessageState id s : keeps (UpdateMessageState id s).
Proof. unfold UpdateMessageState. locked_cases. Qed.
Lemma keeps_now_text : keeps now_text.
Proof. intros a Ha. by apply (locked_same asked opened a). Qed.
Lemma keeps_take_reply id : keeps (take_reply id).
Proof. intros a Ha. by apply (locked_same asked opened a). Qed.
Lemma keeps_touch_messages c : keeps (touch_messages c).
Proof. intros a Ha. by apply (locked_same asked opened a). Qed.
Hint Resolve keeps_UpdateMessageState keeps_now_text keeps_take_reply keeps_touch_messages : locked.

Lemma keeps_SetConnectionStatus s : keeps (SetConnectionStatus s).
Proof. unfold SetConnectionStatus. auto with locked. Qed.
Lemma keeps_SetRequestStatus i st p : keeps (SetRequestStatus i st p).
Proof.
  intros a Ha. unfold SetRequestStatus. destruct (SetStatus i (Some st) (a_requests a)) as [changed requests].
  assert (locked asked opened (put_requests requests a)) as Ha' by (by apply (locked_same asked opened a)).
  repeat case_match; locked_branch.
Qed.
Hint Resolve keeps_SetConnectionStatus keeps_SetRequestStatus : locked.

Lemma keeps_HandleGatewayFailure id e u : keeps (HandleGatewayFailure id e u).
Proof. unfold HandleGatewayFailure. locked_auto. Qed.
Hint Resolve keeps_HandleGatewayFailure : locked.

Lemma keeps_ask k : keeps (ask k).
Proof.
  intros a Ha. unfold ask.
  assert (locked asked opened (put_calls (a_calls a ++ [Do k]) (put_issued (S (a_issued a)) a))) as Ha'.
  { apply (locked_call asked opened k (put_issued (S (a_issued a)) a)). by apply (locked_same asked opened a). }
  revert Ha'. generalize (put_calls (a_calls a ++ [Do k]) (put_issued (S (a_issued a)) a)). intros a1 Ha1. cbv zeta.
  locked_branch.
Qed.
Hint Resolve keeps_ask : locked.

Lemma keeps_AcknowledgeConversationRead i : keeps (AcknowledgeConversationRead i).
Proof. unfold AcknowledgeConversationRead. locked_cases. Qed.
Lemma keeps_change_snapshot c f : keeps (change_snapshot c f).
Proof. unfold change_snapshot. auto with locked. Qed.
Hint Resolve keeps_AcknowledgeConversationRead keeps_change_snapshot : locked.
Lemma keeps_markRead i : keeps (markRead i).
Proof. unfold markRead. locked_cases. Qed.
Hint Resolve keeps_markRead : locked.
Lemma keeps_selectConversation i : keeps (selectConversation i).
Proof. unfold selectConversation. locked_cases. Qed.
Lemma keeps_setCurrentSection s : keeps (setCurrentSection s).
Proof. unfold setCurrentSection. locked_cases. Qed.
Hint Resolve keeps_selectConversation keeps_setCurrentSection : locked.

Lemma keeps_EnsureConversation c t k : keeps (EnsureConversation c t k).
Proof. unfold EnsureConversation. locked_cases. Qed.
Lemma keeps_show_conversation c : keeps (show_conversation c).
Proof. unfold show_conversation. locked_auto. Qed.
Hint Resolve keeps_EnsureConversation keeps_show_conversation : locked.

Lemma keeps_setDraftText d : keeps (setDraftText d).
Proof. unfold setDraftText. locked_cases. Qed.
Lemma keeps_ScheduleDeliveryLifecycle c : keeps (ScheduleDeliveryLifecycle c).
Proof. unfold ScheduleDeliveryLifecycle. auto with locked. Qed.
Lemma keeps_expect r c : keeps (expect r c).
Proof. unfold expect. auto with locked. Qed.
Lemma keeps_send_to p g b w r : keeps (send_to p g b w r).
Proof. unfold send_to. locked_auto. Qed.
Hint Resolve keeps_ScheduleDeliveryLifecycle keeps_expect keeps_send_to : locked.
Lemma keeps_transmit c i b : keeps (transmit c i b).
Proof. unfold transmit. locked_auto. Qed.
Hint Resolve keeps_transmit : locked.
Lemma keeps_sendMessage t : keeps (sendMessage t).
Proof. unfold sendMessage. locked_cases. Qed.
Lemma keeps_retryMessage i : keeps (retryMessage i).
Proof. unfold retryMessage. locked_cases. Qed.
Lemma keeps_setScenarioName n : keeps (setScenarioName n).
Proof. unfold setScenarioName, AppLoadScenario. locked_cases. Qed.
Lemma keeps_selectContact i : keeps (selectContact i).
Proof. unfold selectContact. locked_cases. Qed.
Lemma keeps_resolveRequest i b : keeps (resolveRequest i b).
Proof. unfold resolveRequest. locked_cases. Qed.
Lemma keeps_startConversation : keeps startConversationWithSelectedContact.
Proof. unfold startConversationWithSelectedContact, EnsureDirectConversation. locked_cases. Qed.
Lemma keeps_typed_request i k : keeps (typed_request i k).
Proof. unfold typed_request. locked_cases. Qed.
Lemma keeps_createGroup n : keeps (createGroup n).
Proof. unfold createGroup, EnsureGroupConversation. locked_cases. Qed.
Lemma keeps_completeAuthentication : keeps completeAuthentication.
Proof. unfold completeAuthentication. locked_cases. Qed.
Lemma keeps_fire_timer i : keeps (fire_timer i).
Proof.
  intros a Ha. unfold fire_timer. destruct (a_timers a !! i) as [ [ [d c] s]|]; [|exact Ha].
  apply keeps_UpdateMessageState. by apply (locked_same asked opened a).
Qed.

(** The requests to the gate: the application is busy. *)
Lemma keeps_authenticate u p : keeps (authenticate u p).
Proof. intros a Ha. unfold authenticate. by rewrite (lk_network _ _ _ Ha), (lk_busy _ _ _ Ha). Qed.
Lemma keeps_account_request b k : keeps (account_request b k).
Proof. intros a Ha. unfold account_request. by rewrite (lk_network _ _ _ Ha), (lk_busy _ _ _ Ha). Qed.

Lemma keeps_on_state s : keeps (on_state s).
Proof. unfold on_state. locked_auto. Qed.
Hint Resolve keeps_setScenarioName keeps_setDraftText keeps_sendMessage keeps_retryMessage keeps_selectContact
  keeps_resolveRequest keeps_startConversation keeps_typed_request keeps_createGroup keeps_completeAuthentication
  keeps_fire_timer keeps_authenticate keeps_account_request keeps_on_state : locked.

Lemma locked_event e : from_outside e = true -> keeps (app_event_step e).
Proof.
  intros He. destruct e as [| | | | | | | | | | | | | | | | | | | | | |s|]; try done; simpl;
    unfold togglePinned, toggleMuted, toggleContactFavorite, requestVerificationCode, registerAccount, resetPassword,
      sendFriendRequest, joinGroup; auto with locked.
  destruct s as [ [| | | | |]| | | | | |]; try done; simpl; auto with locked.
Qed.

Lemma locked_run es a : Forall (fun e => from_outside e = true) es -> locked asked opened a ->
  locked asked opened (run_app es a).
Proof.
  intros Hes. revert a. unfold run_app. induction Hes as [|e es He _ IH]; intros a Ha; simpl; [done|].
  apply IH. by apply locked_event.
Qed.
End LockedOperations.

(** C22: a refused login.  A login response that cannot be read, or with an
    error other than an expired credential, leaves the client without a
    connection and without a wish for one; whatever happens to it except a new
    session, it then only reports protocol errors, failed requests and the lost
    connection.  An application that was signing in stays busy whatever its user
    does with these signals: it sends the gate no request and opens no session
    again. *)
Theorem refused_login_locks_out {R} `{IClientRepository R} `{QtText} `{QStringHashOrder} `{QtCodec} `{Uuid} `{Random}
    `{QHashOrder} slots (c : client) bytes codec payload es (a : app R) acts :
  cl_socket c = SConnected -> cl_buffer c = [] ->
  Feed bytes (cl_codec c) = ([(sid ID_LOGIN_INIT_RSP, payload)], codec) -> HasError codec = false ->
  refusal payload ->
  Forall (fun e => opens e = false) es -> Forall (fun e => from_outside e = true) acts ->
  a_busy a = true -> a_network a = true ->
  let c' := run_client slots (EvReadyRead bytes :: es) c in
  let a' := run_app acts a in
  (exists new, cl_signals c' = cl_signals c ++ new /\ Forall (fun s => mild s = true) new) /\
  cl_socket c' = SUnconnected /\ cl_desired_open c' = false /\
  a_busy a' = true /\ a_gate_calls a' = a_gate_calls a /\ sessions_opened a' = sessions_opened a.
Proof.
  intros Hc Hb Hfeed Herr Hr Hes Hacts Hbusy Hnet c' a'.
  assert (abandoned (cl_signals c) c') as [ [Hd Hs Hsig] _ _].
  { change c' with (run_client slots es (client_event slots (EvReadyRead bytes) c).2).
    apply stays_run; [done|]. unfold client_event. rewrite Hc. unfold on_ready_read. rewrite Hfeed, Herr.
    simpl for_each. unfold seq_bind, pure. simpl HandleFrame.
    pose proof (refused_response slots (cl_signals c) payload (put_codec codec c) Hr eq_refl Hc Hb) as Hx.
    by destruct (HandleLoginResponse slots payload (put_codec codec c)). }
  assert (locked (a_gate_calls a) (sessions_opened a) a') as [Hu _ Hk Ho] by (by apply locked_run).
  done.
Qed.

(** ** A profile that could not be stored *)

#[local] Existing Instance AppSamples.runs_all.
#[local] Existing Instance AppSamples.clock.
#[local] Existing Instance AppSamples.rows_in_order.
#[local] Existing Instance AppSamples.hash_order.
#[local] Existing Instance AppSamples.qt.
#[local] Existing Instance AppSamples.codec.
#[local] Existing Instance AppSamples.ids.
#[local] Existing Instance SqliteClientRepository.
#[local] Instance no_jitter : Random.
Proof. refine {| bounded _ _ := 0 |}. intros. lia. Defined.
#[local] Instance by_key : QHashOrder.
Proof. refine {| visit A m := map_to_list m |}. done. Defined.

(** The user signs in; the gateway cannot write the new profile and says so; the
    user tries again, three times. *)
Definition signing_in : list app_event :=
  [UiAuthenticate "bo" "secret"; OnGate (SignInSucceeded (session 1001)); OnGate (OperationSucceeded "sign-in" Gate.NoField)].
Definition unlucky_client : client :=
  run_client (fun _ => []) [EvOpen (session 1001); EvConnected; EvBytesWritten] (new_client 1).
Definition mysql_failed : string := ser (empty_packet |> set_int F_error (ec MysqlFailed)).
Definition tries : list app_event :=
  [OnGateway ProtocolError; OnGateway (StateChanged Disconnected); UiAuthenticate "bo" "secret"; UiAuthenticate "bo" "secret";
   UiReset "bo" "bo@x.org" "123456" "new"; UiAuthenticate "bo" "secret"].

Lemma refused_login_locks_out_witness :
  a_gate_calls (run_app tries (run_app signing_in (start chat))) = [CallSignIn "bo" "secret"] /\
  a_busy (run_app tries (run_app signing_in (start chat))) = true.
Proof.
  assert (a_gate_calls (run_app signing_in (start chat)) = [CallSignIn "bo" "secret"]) as E by (by vm_compute).
  destruct (refused_login_locks_out (fun _ => []) unlucky_client (EncodeFrame (sid ID_LOGIN_INIT_RSP) mysql_failed)
    new_codec mysql_failed [EvTick 1000; EvHeartbeat; EvReconnectTimer; EvCall CallPullFriendList]
    (run_app signing_in (start chat)) tries) as (_ & _ & _ & Hb & Hg & _).
  - by vm_compute.
  - by vm_compute.
  - by vm_compute.
  - by vm_compute.
  - vm_compute. by split_and!.
  - by repeat constructor.
  - by repeat constructor.
  - by vm_compute.
  - by vm_compute.
  - split; [rewrite Hg; exact E|exact Hb].
Defined.
