(* ===== verification/Journey.v ===== *)
(** * The journey of a text

    What the parts do together: a text typed in one client, its command at the
    gateway, the task of a message node, the frame that reaches the peer's
    client, and the answer that reaches the sender's. *)

From S2P Require Import Prelude Const Packet Redis Store Mysql Messages Ledger History Pools.
From S2P Require Import Transport Node Services Reactor Streams Commands Delivery Outbox Gateway.
From S2P Require Import Client GateClient Snapshot Ports App Application.
From S2P Require AppSamples.

(** Both sides generate their packets from [tcp_message.proto]: each reads what
    the other writes. *)
Class SameWire `{PacketCodec} `{QtCodec} := {
  server_reads_client : forall p s, SerializeProtobufPacket p = Some s -> ParseFromString s = Some p;
  client_reads_server : forall p, ParseProtobufPacket (SerializeToString p) = Some p }.

(** ** The sender's application *)

Section Typing.
Context {R : Type} `{IClientRepository R} `{QtText} `{QStringHashOrder} `{QtCodec} `{Uuid}.
Local Abbreviation app := (app R).

(** What the delivery of a message does not change. *)
Definition gist (m : MessageRecord) : Z * text * bool := (mr_clientMessageId m, mr_body m, mr_outgoing m).

Definition undisturbed (a a' : app) : Prop :=
  a_calls a' = a_calls a /\ a_issued a' = a_issued a /\ a_outgoing a' = a_outgoing a /\ a_uid a' = a_uid a /\
  forall c, gist <$> messages_of c a' = gist <$> messages_of c a.

Lemma UpdateMessageState_undisturbed id s a : undisturbed a (UpdateMessageState id s a).2.
Proof.
  unfold UpdateMessageState. destruct (change_in _ _ _) as [[k ms']|] eqn:E; [|by split_and!].
  apply change_in_spec in E as (ms & Hin & Hc). apply each_lookup in Hin. rewrite bind_messages.
  unfold seq_bind, repo. set (a1 := (put_messages_of k ms' a).2).
  destruct (port_UpdateDeliveryState id s (a_repository a1)) as [ok r]. cbn [fst snd pure].
  do 4 (split; [done|]). intros c.
  match goal with |- _ <$> messages_of c ?x = _ => change (messages_of c x) with (messages_of c a1) end. subst a1.
  rewrite messages_of_put. case_decide as Ec; [subst c|done].
  apply change_one_spec in Hc as (l1 & x & l2 & -> & _ & ->). unfold messages_of. rewrite Hin. simpl.
  by rewrite !fmap_app.
Qed.

Lemma gist_in c (a a' : app) m : (forall c, gist <$> messages_of c a' = gist <$> messages_of c a) -> m ∈ messages_of c a ->
  exists m', m' ∈ messages_of c a' /\ gist m' = gist m.
Proof.
  intros Hg Hm. assert (gist m ∈ gist <$> messages_of c a') as Hin by (rewrite Hg; by apply list_elem_of_fmap_2).
  apply list_elem_of_fmap in Hin as (m' & E & Hm'). by exists m'.
Qed.

(** The user writes to [u] on a connection that is ready, and the repository
    takes the text. *)
Record can_type (text : string) (u : Z) (conversation : ConversationRecord) (a : app) : Prop := {
  ty_selected : ConversationList.RecordAt (a_selected a) (a_conversations a) = Some conversation;
  ty_peer : cr_conversationId conversation = DirectConversationId u;
  ty_range : 0 < u < 2 ^ 63;
  ty_text : str_empty (trimmed text) = false;
  ty_network : a_network a = true;
  ty_ready : a_ready a = true;
  ty_stored : (port_EnqueueOutgoing (DirectConversationId u)
                 (new_message (a_next_id a) (trimmed text) (local_time (a_clock a)) PendingLocal) (a_repository a)).1 = true }.

Definition text_call (text : string) (u : Z) (conversation : ConversationRecord) (a : app) : Call :=
  CallSendText u (trimmed text) (wire_id (a_uid a) (a_next_id a)) (default 0 (cr_remoteConversationId conversation)).

Lemma typed_text text u conversation a : can_type text u conversation a ->
  let a' := (sendMessage text a).2 in
  a_calls a' = a_calls a ++ [Do (text_call text u conversation a)] /\
  a_outgoing a' = <[uuid (a_issued a) := a_next_id a]> (a_outgoing a) /\
  (forall c, gist <$> messages_of c a' = gist <$> (messages_of c a ++
     if decide (c = DirectConversationId u) then [new_message (a_next_id a) (trimmed text) "" PendingLocal] else [])).
Proof.
  intros [Esel Epeer Hr Etext Enet Eready Estored].
  set (P := fun a' : app => a_calls a' = a_calls a ++ [Do (text_call text u conversation a)] /\
    a_outgoing a' = <[uuid (a_issued a) := a_next_id a]> (a_outgoing a) /\
    (forall c, gist <$> messages_of c a' = gist <$> (messages_of c a ++
       if decide (c = DirectConversationId u) then [new_message (a_next_id a) (trimmed text) "" PendingLocal] else []))).
  change (P (sendMessage text a).2). unfold sendMessage. rewrite Esel, Etext.
  rewrite bind_writes, bind_now, bind_repo, bind_reads, bind_messages, !bind_writes. unfold change_snapshot, snap.
  rewrite !bind_writes, bind_reads.
  change (local_time (a_clock (put_next_id (a_next_id a - 1) a))) with (local_time (a_clock a)).
  match goal with |- context [port_EnqueueOutgoing ?c ?m ?r] =>
    change (port_EnqueueOutgoing c m r) with (port_EnqueueOutgoing c m (a_repository a)) end.
  rewrite Epeer, Estored. cbn [negb].
  match goal with |- P (snd ((if a_network ?y then _ else _) _)) => set (a1 := y) end.
  assert (a_network a1 = true) as -> by exact Enet.
  assert (a_ready a1 = true) as Er1 by exact Eready.
  assert (a_calls a1 = a_calls a /\ a_issued a1 = a_issued a /\ a_outgoing a1 = a_outgoing a /\ a_uid a1 = a_uid a) as
    (C1 & I1 & O1 & U1) by done.
  assert (forall c, gist <$> messages_of c a1 = gist <$> (messages_of c a ++
     if decide (c = DirectConversationId u) then [new_message (a_next_id a) (trimmed text) "" PendingLocal] else [])) as G1.
  { intros c. change (messages_of c a1) with (messages_of c (put_messages_of (DirectConversationId u)
      (messages_of (DirectConversationId u) a ++ [new_message (a_next_id a) (trimmed text) (local_time (a_clock a)) PendingLocal]) a).2).
    rewrite messages_of_put. case_decide as Ec; [subst c; by rewrite !fmap_app|by rewrite app_nil_r]. }
  clearbody a1. unfold transmit. rewrite Epeer, DirectPeerUid_id, GroupId_direct by done.
  rewrite bind_reads, Er1. cbn [negb].
  pose proof (UpdateMessageState_undisturbed (a_next_id a) WaitingAccept a1) as Hu. cbv zeta in Hu.
  assert (a_ready (UpdateMessageState (a_next_id a) WaitingAccept a1).2 = true) as Er2.
  { rewrite <-Er1. apply (waiting_steady (a_next_id a) a1). }
  unfold seq_bind at 1. destruct (UpdateMessageState (a_next_id a) WaitingAccept a1) as [[] a2]. cbn [snd] in Hu, Er2.
  destruct Hu as (C2 & I2 & O2 & U2 & G2). rewrite bind_reads. unfold send_to, ask, seq_bind. cbn [fst snd].
  change (a_ready (put_calls _ _)) with (a_ready a2). rewrite Er2. unfold P, text_call. rewrite <-C1, <-C2, <-I1, <-I2, <-O1, <-O2, <-U1, <-U2.
  split; [done|]. split; [done|]. intros c. rewrite <-G1, <-G2. done.
Qed.
End Typing.

(** ** The answer at the sender's application *)

Section Answer.
Context {R : Type} `{IClientRepository R} `{QtText} `{QStringHashOrder} `{QtCodec} `{Uuid}.
Local Abbreviation app := (app R).

(** A client id of one text of the user. *)
Definition stands (id : Z) (c b : string) (a : app) : Prop :=
  (exists m, m ∈ messages_of c a /\ mr_clientMessageId m = id) /\
  forall c' m, m ∈ messages_of c' a -> mr_clientMessageId m = id -> c' = c /\ mr_body m = Some b /\ mr_outgoing m = true.

Lemma change_one_None {A} (test : A -> bool) f l : change_one test f l = None -> forall x, x ∈ l -> test x = false.
Proof.
  induction l as [|y l IH]; simpl; [by intros _ x ?%not_elem_of_nil|]. destruct (test y) eqn:E; [done|].
  destruct (change_one test f l); [done|]. intros _ x [->|Hx]%elem_of_cons; [done|by apply IH].
Qed.

Lemma accept_rows_one id f (rows : list (string * list MessageRecord)) c ms :
  (forall k l l', (k, l) ∈ rows -> (k, l') ∈ rows -> l = l') ->
  (forall k l m, (k, l) ∈ rows -> m ∈ l -> mr_clientMessageId m = id -> k = c) ->
  (c, ms) ∈ rows -> (exists m, m ∈ ms /\ mr_clientMessageId m = id) -> str_empty c = false ->
  exists ms', change_one (fun m => mr_clientMessageId m =? id) f ms = Some ms' /\ accept_rows id f rows = ([(c, ms')], c).
Proof.
  induction rows as [|[k l] rows IH]; intros Hfun Hone Hin (m & Hm & Em) Hc; [by apply not_elem_of_nil in Hin|]. simpl.
  destruct (change_one (fun m => mr_clientMessageId m =? id) f l) as [l'|] eqn:Ec.
  - pose proof (change_one_spec _ _ _ _ Ec) as (l1 & x & l2 & El & Hx & _).
    assert (k = c) as -> by (apply (Hone k l x); [by left|rewrite El; set_solver|lia]).
    rewrite Hc. assert (l = ms) as -> by (apply (Hfun c); [by left|done]). by exists l'.
  - apply elem_of_cons in Hin as [[= -> ->]|Hin].
    + pose proof (change_one_None _ _ _ Ec m Hm). simpl in *. lia.
    + apply IH; [| |done|by exists m|done].
      * intros k' a b Ha Hb. apply (Hfun k'); by right.
      * intros k' a b Ha. apply (Hone k'). by right.
Qed.

Lemma Attach_messages c x r (a : app) : messages_of c (AttachRemoteConversation x r a).2 = messages_of c a.
Proof.
  unfold AttachRemoteConversation. destruct (r <=? 0); [done|]. rewrite bind_reads.
  destruct (snapshot_conversation x a); [|done]. case_match; [done|]. unfold change_snapshot, snap.
  rewrite !bind_writes, bind_repo. done.
Qed.

(** [Success] with the id and the place of the stored message. *)
Definition accepts (messageId conversationSeq : Z) (response : Packet) : Prop :=
  get_int F_error response = Success /\
  has_int F_message_id response = true /\ get_int F_message_id response = messageId /\
  has_int F_conversation_id response = true /\
  has_int F_conversation_seq response = true /\ get_int F_conversation_seq response = conversationSeq.

Lemma answered_text requestId response id c b messageId place (a : app) :
  a_outgoing a !! requestId = Some id -> stands id c b a -> str_empty c = false ->
  accepts messageId place response ->
  exists m, m ∈ messages_of c (on_send_text requestId Success response a).2 /\ mr_clientMessageId m = id /\
    mr_body m = Some b /\ mr_messageId m = Some messageId /\ mr_conversationSeq m = Some place /\
    mr_deliveryState m = Accepted.
Proof.
  intros Eo ((m & Hm & Em) & Hone) Hc (_ & Hi & <- & Hv & Hq & <-). unfold on_send_text. rewrite bind_reads, Eo, bind_writes.
  rewrite Hi, Hv, Hq. cbn [negb orb]. change (negb (Success =? Success)) with false. cbn [orb]. rewrite bind_reads.
  set (a1 := put_outgoing _ a). set (f := accepted_message _ _).
  destruct (accept_rows_one id f (each (sn_messagesByConversation (a_snapshot a1))) c (messages_of c a)) as (ms' & Ech & ->).
  - intros k l l' Hl%each_lookup Hl'%each_lookup. congruence.
  - intros k l x Hl%each_lookup Hx Ex. apply (Hone k x); [|done]. unfold messages_of.
    change (a_snapshot a1) with (a_snapshot a) in Hl. by rewrite Hl.
  - apply each_lookup. change (a_snapshot a1) with (a_snapshot a). unfold messages_of in *.
    destruct (sn_messagesByConversation (a_snapshot a) !! c); [done|by apply not_elem_of_nil in Hm].
  - by exists m.
  - done.
  - rewrite Hc. cbn [for_each fst snd]. unfold seq_bind at 1. cbn [fst snd pure].
    match goal with |- context [repo ?r] => set (r0 := r) end. unfold seq_bind at 1. cbn [fst snd].
    set (a2 := (put_messages_of c ms' a1).2).
    change (let '(x, s') := put_messages_of c ms' a1 in pure tt s') with (tt, a2). cbv iota beta.
    rewrite bind_repo, bind_writes. match goal with |- exists m, m ∈ messages_of c (snd (_ ?y)) /\ _ => set (a3 := y) end.
    rewrite Attach_messages. change (messages_of c a3) with (messages_of c a2).
    assert (messages_of c a2 = ms') as -> by (subst a2; by rewrite messages_of_put, decide_True).
    pose proof (change_one_spec _ _ _ _ Ech) as (l1 & x & l2 & El & Hx & ->). exists (f x). split; [set_solver|].
    destruct (Hone c x) as (_ & Eb & _); [rewrite El; set_solver|lia|]. split; [simpl; lia|]. by split_and!.
Qed.
End Answer.

(** ** The frame the sender's client writes *)

Section Writing.
Context `{QtCodec} `{Uuid} `{Random} `{QHashOrder}.

(** The packet of [SendText] as [QueueRequest] completes it. *)
Definition text_packet (u : Z) (b w : string) (remote : Z) (c : client) : Packet :=
  empty_packet |> set_int F_seq (cl_next_sequence c) |> set_int F_to u |> set_str F_data b
               |> set_str F_client_message_id w |> set_conversation_key remote
               |> set_str F_request_id (uuid (length (cl_issued c)))
               |> set_int F_request_timeout_ms kServerRequestBudgetMilliseconds.

(** A connection that is ready, with no text under way. *)
Record can_write (c : client) : Prop := {
  wr_ready : IsReady c = true;
  wr_socket : cl_socket c <> SUnconnected;
  wr_idle : default [] (cl_pending c !! sid ID_TEXT_SEND_RSP) = [] }.

Lemma written_text u b w remote payload c :
  can_write c -> SerializeProtobufPacket (text_packet u b w remote c) = Some payload ->
  let c' := (run_call (CallSendText u b w remote) c).2 in
  cl_written c' = cl_written c ++ [(cl_connections c, (sid ID_TEXT_SEND_REQ, payload))] /\
  exists r, cl_pending c' !! sid ID_TEXT_SEND_RSP = Some [r] /\ rq_requestId r = uuid (length (cl_issued c)).
Proof.
  intros [Hready Hsocket Hidle] Hp. cbn [run_call]. unfold ignore, Client.SendText, NextLegacySequence, QueueRequest, NewRequestId.
  unfold seq_bind, reads, writes. cbn [fst snd].
  change (IsReady (Client.put_issued _ _)) with (IsReady c). rewrite Hready. cbn [negb]. cbv zeta.
  change (length (cl_issued (Client.put_next_sequence _ c))) with (length (cl_issued c)).
  fold (text_packet u b w remote c). rewrite Hp. change (ClientProtocol.ResponseFor ID_TEXT_SEND_REQ) with (sid ID_TEXT_SEND_RSP).
  change (cl_pending (Client.put_issued _ _)) with (cl_pending c). rewrite Hidle. cbn [Datatypes.app length fst snd pure].
  rewrite decide_True by done. unfold SendFront. cbn [cl_pending Client.put_pending].
  rewrite lookup_insert_eq. change (IsReady (Client.put_pending _ _)) with (IsReady c). rewrite Hready. cbn [negb rq_requestServiceId rq_payload].
  unfold socket_write. change (cl_socket (Client.put_pending _ _)) with (cl_socket c).
  destruct (cl_socket c) eqn:Es; [done|..]; cbn; (split; [done|]); rewrite lookup_insert_eq; by eexists.
Qed.
End Writing.

(** ** The command at the gateway, the task at the node *)

Section Server.
Context `{Collation} `{StdHash} `{Faults} `{PacketCodec} `{E : Env}.

(** The request as the gateway passes it on: under the session's user, with an id. *)
Lemma command_text unix request se :
  let command := (make_command unix (sid ID_TEXT_SEND_REQ) request se).1 in
  ce_actor_uid command = se_userId se /\ ce_service_id command = sid ID_TEXT_SEND_REQ /\
  exists q, ParseFromString (ce_packet command) = Some q /\
    get_int F_to q = get_int F_to request /\ get_str F_data q = get_str F_data request /\
    client_message_id q = client_message_id request.
Proof.
  unfold make_command. set (request0 := set_int F_uid (se_userId se) request).
  assert (get_int F_to request0 = get_int F_to request /\ get_str F_data request0 = get_str F_data request /\
    client_message_id request0 = client_message_id request) as (E1 & E2 & E3).
  { subst request0. unfold client_message_id. split; [by pkt|]. split; by pkt. }
  clearbody request0. destruct (_ || _).
  - unfold NextRequestId. cbn [fst snd]. split; [done|]. split; [done|]. eexists. split; [apply parse_serialize|].
    rewrite <-E1, <-E2, <-E3. unfold client_message_id. split; [by pkt|]. split; by pkt.
  - cbn [fst snd]. split; [done|]. split; [done|]. eexists. split; [apply parse_serialize|]. done.
Qed.

(** The stored message of an accepted text: where it is, whose it is, what it says. *)
Definition stored_text (d : DB) (sender u : Z) (b : string) (messageId place : Z) (response : Packet) : Prop :=
  exists m, messages d !! messageId = Some m /\ m_senderId m = sender /\ m_receiverId m = u /\ m_content m = b /\
    at_place m (get_int F_conversation_id response) place.

(** The delivery of an accepted text. *)
Definition tells (sender : Z) (b : string) (messageId place : Z) (response delivery : Packet) : Prop :=
  has_int F_message_id delivery = true /\ get_int F_message_id delivery = messageId /\
  has_int F_conversation_seq delivery = true /\ get_int F_conversation_seq delivery = place /\
  has_int F_conversation_id delivery = true /\
  get_int F_conversation_id delivery = get_int F_conversation_id response /\
  p_str delivery !! F_data = Some b /\ get_int F_from delivery = sender.

Lemma get_str_Some f b p : get_str f p = b -> b <> "" -> p_str p !! f = Some b.
Proof. unfold get_str. destruct (p_str p !! f); simpl; intros Eb Hb; [by subst|]. by subst b. Qed.

Lemma executed_text t w q :
  saved (sql w) = None -> ledger_ok (next_message (sql w)) (db (sql w)) ->
  ParseFromString (ce_packet (tk_command t)) = Some q -> ce_service_id (tk_command t) = sid ID_TEXT_SEND_REQ ->
  get_str F_data q <> "" ->
  let sender := ce_actor_uid (tk_command t) in
  let u := get_int F_to q in
  let b := get_str F_data q in
  let '(a, w1) := accept_request false (set_int F_uid sender q) w in
  execute t w = finish_text t (sid ID_TEXT_SEND_REQ) a w1 /\
  (get_int F_error (at_response a) = Success -> exists messageId place,
     accepts messageId place (at_response a) /\ stored_text (db (sql w1)) sender u b messageId place (at_response a) /\
     tells sender b messageId place (at_response a) (at_delivery a) /\ at_recipientUids a = [u] /\
     (at_shouldDeliver a = true <-> messages (db (sql w)) !! messageId = None)) /\
  (get_int F_error (at_response a) <> Success -> at_shouldDeliver a = false).
Proof.
  intros Hs Hok Hp Hsv Hb sender u b. rewrite (execute_text false t q w Hp Hsv). fold sender.
  set (request := set_int F_uid sender q).
  assert (get_str F_data request = b /\ get_int F_uid request = sender /\ get_int F_to request = u) as (Eb & Es & Eu)
    by (subst request; split; [by pkt|split; by pkt]).
  clearbody request.
  destruct (accept_request_run false request w) as [(what & rsp & Ea)|(failed & rsp & q' & Hd & Hf & Hrun)].
  { rewrite Ea. split; [done|]. split; [|done]. cbn [at_response reject]. intros He. exfalso. revert He. by pkt. }
  cbv zeta in Hrun.
  pose proof (accept_text_stored (get_int F_uid request) (request_target false request)
    (client_message_id request) (get_str F_data request) (date_time (calls w)) (sql w) Hs Hok) as Ha.
  destruct (accept_text _ _ _ _ _ _) as [r s']. destruct Ha as [_ Ha].
  rewrite Hrun. clear Hrun. split; [done|].
  destruct (accept_response_fields failed r rsp) as [Fe Ff].
  destruct (ar_error r =? Success) eqn:Ee; boolp; cbn [at_response at_delivery at_recipientUids at_shouldDeliver];
    rewrite Fe; [|by split].
  split; [|done]. intros _. destruct (Ff Ee) as (F1 & F2 & F3).
  destruct (Ha Ee) as ((m & Hm & (R1 & R2 & _ & R4 & R5 & _)) & Hnew & _).
  exists (ar_messageId r), (ar_conversationSeq r). split; [|split; [|split; [|split]]].
  - unfold accepts. rewrite F1, F3, Fe. split; [done|]. unfold accept_response.
    replace (ar_error r =? Success) with true by lia. cbn [negb]. split; [by pkt|]. split; [done|]. split; [by pkt|].
    split; [by pkt|done].
  - exists m. cbn [db sql with_sql]. rewrite F2. rewrite <-Es, <-Eu, <-Eb. by split_and!.
  - unfold tells, accept_delivery. split; [by pkt|]. split; [by pkt|]. split; [by pkt|]. split; [by pkt|].
    split; [by pkt|]. split; [rewrite F2; by pkt|]. split; [|pkt; by rewrite Hf].
    apply get_str_Some; [pkt; by rewrite Hd|exact Hb].
  - cbn [request_target]. by rewrite Eu.
  - rewrite <-Hnew. by destruct (ar_duplicate r).
Qed.
End Server.

(** ** The push at the peer's application *)

Section Showing.
Context {R : Type} `{IClientRepository R} `{QtText} `{QStringHashOrder} `{QtCodec} `{Uuid}.
Local Abbreviation app := (app R).

(** No message added, no call but those. *)
Definition adds (P : GatewayCall -> Prop) (a a' : app) : Prop :=
  (forall c, messages_of c a' = messages_of c a) /\ exists l, a_calls a' = a_calls a ++ l /\ Forall P l.
Definition only_adds (P : GatewayCall -> Prop) {A} (m : State app A) : Prop := forall a, adds P a (m a).2.
Definition nothing (_ : GatewayCall) : Prop := False.
Definition anything (_ : GatewayCall) : Prop := True.

Section Rules.
Context (P : GatewayCall -> Prop).

Lemma adds_nothing a a' : sn_messagesByConversation (a_snapshot a') = sn_messagesByConversation (a_snapshot a) ->
  a_calls a' = a_calls a -> adds P a a'.
Proof. intros E1 E2. split; [intros c; unfold messages_of; by rewrite E1|]. exists []. by rewrite app_nil_r. Qed.
Lemma adds_trans a1 a2 a3 : adds P a1 a2 -> adds P a2 a3 -> adds P a1 a3.
Proof.
  intros [M1 (l1 & E1 & F1)] [M2 (l2 & E2 & F2)]. split; [intros c; by rewrite M2|]. exists (l1 ++ l2).
  rewrite E2, E1, <-app_assoc. split; [done|by apply Forall_app].
Qed.
Lemma adds_pure {A} (x : A) : only_adds P (pure x).
Proof. intros a. by apply adds_nothing. Qed.
Lemma adds_bind {A B} (m : State app A) (k : A -> State app B) :
  only_adds P m -> (forall x, only_adds P (k x)) -> only_adds P (seq_bind m k).
Proof. intros Hm Hk a. unfold seq_bind. specialize (Hm a). destruct (m a) as [x a1]. eapply adds_trans; [exact Hm|apply Hk]. Qed.
Lemma adds_reads {A} (f : app -> A) : only_adds P (reads f).
Proof. intros a. by apply adds_nothing. Qed.
Lemma adds_writes f : (forall a, sn_messagesByConversation (a_snapshot (f a)) = sn_messagesByConversation (a_snapshot a) /\
  a_calls (f a) = a_calls a) -> only_adds P (writes f).
Proof. intros Hf a. by apply adds_nothing; apply Hf. Qed.
Lemma adds_repo {A} (m : State R A) : only_adds P (repo m).
Proof. intros a. unfold repo. destruct (m (a_repository a)). by apply adds_nothing. Qed.
Lemma adds_now : only_adds P now_text.
Proof. intros a. by apply adds_nothing. Qed.
Lemma adds_tell k : P (Do k) -> only_adds P (tell k).
Proof. intros Hk a. split; [done|]. exists [Do k]. split; [done|]. by constructor. Qed.
Lemma adds_touch c : only_adds P (touch_messages c).
Proof.
  intros a. split; [|exists []; by rewrite app_nil_r]. intros c'. unfold touch_messages. rewrite messages_of_put.
  by case_decide; subst.
Qed.
End Rules.

Ltac adds := repeat first
  [ apply adds_bind; [|intros ?] | apply adds_pure | apply adds_reads | apply adds_repo | apply adds_now
  | apply adds_touch | apply adds_tell; exact I | (apply adds_writes; intros; by split) | progress unfold change_snapshot, snap
  | case_match ].

Lemma Attach_adds P c r : only_adds P (AttachRemoteConversation c r).
Proof. unfold AttachRemoteConversation. adds. Qed.
Lemma count_unread_adds c : only_adds anything (count_unread c).
Proof. unfold count_unread. adds. Qed.

(** The conversation with the sender is there or can be made. *)
Definition can_show (sender : Z) (a : app) : Prop :=
  0 <= ConversationList.IndexOf (DirectConversationId sender) (a_conversations a) \/
  messages_of (DirectConversationId sender) a = [] /\
  forall conversation, (port_SaveConversation conversation (a_repository a)).1 = true.

Lemma direct_conversation sender title color a : can_show sender a ->
  let '(c, a') := EnsureDirectConversation sender title color a in
  c = DirectConversationId sender /\ messages_of c a' = messages_of c a /\ a_calls a' = a_calls a.
Proof.
  intros Hs. unfold EnsureDirectConversation, EnsureConversation. destruct (0 <=? _) eqn:E; [done|].
  destruct Hs as [?|[Em Hs]]; [lia|]. rewrite bind_repo, Hs. cbn [negb]. unfold snap.
  rewrite bind_writes, bind_messages, !bind_writes. cbn [fst snd pure]. split; [done|].
  match goal with |- messages_of ?c (put_conversations ?x ?y) = _ /\ _ =>
    change (messages_of c (put_conversations x y)) with (messages_of c y) end.
  rewrite Em. split; [|by case_match]. case_match; unfold messages_of; simpl; by rewrite lookup_insert_eq.
Qed.

(** The application with the conversation of a pushed text, and what its
    repository then says to the message. *)
Definition prepared (packet : Packet) (a : app) : app :=
  ((let! c := push_conversation false packet in
    if has_int F_conversation_id packet then AttachRemoteConversation c (get_int F_conversation_id packet) else pure tt) a).2.
Definition storable (c : string) (messageId place : Z) (packet : Packet) (a : app) : bool :=
  let a := prepared packet a in
  let now := if isEmpty (send_time packet) then local_time (a_clock a) else "" in
  (port_ApplyIncomingBatch c [pushed_message messageId now packet] place (port_SyncCursor c (a_repository a)).2).1.

(** What a pushed text does: the application had it, or the repository refuses it
    and it is not acknowledged, or it is now the last message of its
    conversation. *)
Inductive pushed (c : string) (sender : Z) (b : string) (messageId place : Z) (packet : Packet) (a a' : app) : Prop :=
  | Pushed_before : has_message messageId (messages_of c a) = true -> messages_of c a' = messages_of c a ->
      Do (CallAcknowledgeTransport messageId) ∈ a_calls a' ->
      pushed c sender b messageId place packet a a'
  | Pushed_refused : has_message messageId (messages_of c a) = false -> storable c messageId place packet a = false ->
      messages_of c a' = messages_of c a -> a_calls a' = a_calls a -> pushed c sender b messageId place packet a a'
  | Pushed_shown m : has_message messageId (messages_of c a) = false -> storable c messageId place packet a = true ->
      messages_of c a' = messages_of c a ++ [m] -> mr_messageId m = Some messageId ->
      mr_conversationSeq m = Some place -> mr_senderId m = Some (to_string sender) -> mr_body m = Some b ->
      mr_outgoing m = false -> Do (CallAcknowledgeTransport messageId) ∈ a_calls a' ->
      pushed c sender b messageId place packet a a'.

Lemma show_incoming_messages c m (a : app) :
  let a' := (show_incoming c m a).2 in messages_of c a' = messages_of c a ++ [m] /\ a_calls a' = a_calls a.
Proof.
  unfold show_incoming. rewrite bind_reads, bind_messages. set (a1 := (put_messages_of _ _ a).2).
  assert (messages_of c a1 = messages_of c a ++ [m] /\ a_calls a1 = a_calls a) as [E1 E2].
  { subst a1. by rewrite messages_of_put, decide_True. }
  clearbody a1. match goal with |- context [snd (?f a1)] => assert (only_adds nothing f) as Ha by adds end.
  specialize (Ha a1) as [M (l & El & Fl)]. destruct Fl as [|? ? []]. rewrite app_nil_r in El. cbv zeta. by rewrite M, El.
Qed.

(** The last part of [on_text], for a packet that names message and conversation. *)
Definition store_pushed (c : string) (messageId : Z) (packet : Packet) (now : string) : State app unit :=
  let! fallback := repo (port_SyncCursor c) in
  let! applied := repo (port_ApplyIncomingBatch c [pushed_message messageId now packet]
                          (default fallback (mr_conversationSeq (pushed_message messageId now packet)))) in
  if negb applied then pure tt
  else
    do! show_incoming c (pushed_message messageId now packet) in
    do! tell (CallAcknowledgeTransport messageId) in
    if negb true || negb (has_int F_conversation_seq packet) then pure tt
    else
      do! tell (CallAcknowledgeDelivered messageId (get_int F_conversation_id packet) (get_int F_conversation_seq packet)) in
      let! current := reads CurrentConversationId in
      if decide (current = c)
      then tell (CallAcknowledgeRead messageId (get_int F_conversation_id packet) (get_int F_conversation_seq packet))
      else count_unread c.

Lemma store_pushed_shows c sender b messageId place response packet now a a' :
  tells sender b messageId place response packet -> messages_of c a' = messages_of c a -> a_calls a' = a_calls a ->
  has_message messageId (messages_of c a) = false ->
  (port_ApplyIncomingBatch c [pushed_message messageId now packet] place (port_SyncCursor c (a_repository a')).2).1 =
    storable c messageId place packet a ->
  pushed c sender b messageId place packet a (store_pushed c messageId packet now a').2.
Proof.
  intros (_ & _ & Hq & Eq & _ & _ & Ed & Ef) M3 C3 Hnew Est. unfold store_pushed. set (m := pushed_message messageId now packet) in *.
  assert (mr_conversationSeq m = Some place) as Em.
  { subst m. unfold pushed_message. cbn [mr_conversationSeq]. rewrite <-Eq. unfold get_int.
    unfold has_int in Hq. by destruct (p_int packet !! F_conversation_seq). }
  rewrite !bind_repo, Em. cbn [default]. cbn [a_repository put_repository].
  change (a_repository (put_repository ?x _)) with x.
  destruct (port_ApplyIncomingBatch _ _ _ _) as [[] r]; cbn [fst snd negb] in *; [|by apply Pushed_refused].
  set (a4 := put_repository r _). pose proof (show_incoming_messages c m a4) as [M5 C5].
  change (messages_of c a4) with (messages_of c a') in M5. rewrite M3 in M5.
  unfold seq_bind at 1. destruct (show_incoming c m a4) as [[] a5]. cbn [snd] in M5, C5.
  unfold seq_bind at 1, tell at 1, writes at 1. cbn [fst snd]. set (a6 := put_calls _ a5).
  match goal with |- pushed _ _ _ _ _ _ _ (snd (?f a6)) => assert (only_adds anything f) as Ha
    by (adds; apply count_unread_adds) end.
  specialize (Ha a6) as [M7 (l & C7 & _)]. apply (Pushed_shown _ _ _ _ _ _ _ _ m); try done.
  - rewrite M7. exact M5.
  - subst m. unfold pushed_message. cbn [mr_senderId]. by rewrite Ef.
  - rewrite C7. subst a6. cbn [a_calls put_calls]. rewrite !elem_of_app. left. right. by left.
Qed.

Lemma pushed_text sender b messageId place response packet a :
  tells sender b messageId place response packet -> can_show sender a ->
  pushed (DirectConversationId sender) sender b messageId place packet a (on_text false packet a).2.
Proof.
  intros Ht Hs. pose proof Ht as (Hi & Ei & _ & _ & Hv & _ & _ & Ef).
  set (Q := pushed (DirectConversationId sender) sender b messageId place packet a). change (Q (on_text false packet a).2).
  assert (forall now a', a_repository a' = a_repository (prepared packet a) ->
    now = (if isEmpty (send_time packet) then local_time (a_clock (prepared packet a)) else "") ->
    messages_of (DirectConversationId sender) a' = messages_of (DirectConversationId sender) a -> a_calls a' = a_calls a ->
    has_message messageId (messages_of (DirectConversationId sender) a) = false ->
    Q (store_pushed (DirectConversationId sender) messageId packet now a').2) as Hstore.
  { intros now a' Er -> M C Hn. apply (store_pushed_shows _ _ _ _ _ response); try done. unfold storable. by rewrite Er. }
  revert Hstore. unfold prepared, on_text, push_conversation. rewrite Ef.
  pose proof (direct_conversation sender (Some (tr_uid "用户 %1" sender)) (Some "#315FD6") a Hs) as Hc.
  unfold seq_bind at 1 2 3. destruct (EnsureDirectConversation _ _ _ a) as [c a1]. destruct Hc as (-> & M1 & C1).
  set (c := DirectConversationId sender) in *. rewrite Hv, Hi, Ei. unfold seq_bind at 1.
  pose proof (Attach_adds nothing c (get_int F_conversation_id packet) a1) as [M2 (l & C2 & Fl)].
  destruct Fl as [|? ? []]. rewrite app_nil_r in C2. destruct (AttachRemoteConversation _ _ a1) as [[] a2]. cbn [snd] in M2, C2 |- *.
  pose proof (adds_touch nothing c a2) as [M3 (l & C3 & Fl)]. destruct Fl as [|? ? []]. rewrite app_nil_r in C3.
  assert (a_repository (touch_messages c a2).2 = a_repository a2 /\ a_clock (touch_messages c a2).2 = a_clock a2) as [Er Ek] by done.
  unfold seq_bind at 1. destruct (touch_messages c a2) as [[] a3]. cbn [snd] in M3, C3, Er, Ek. intros Hstore.
  assert (messages_of c a3 = messages_of c a /\ a_calls a3 = a_calls a) as [M C] by (split; [by rewrite M3, M2|congruence]).
  rewrite bind_reads, M. destruct (has_message _ _) eqn:Eh.
  { apply Pushed_before; [done|exact M|]. apply elem_of_app. right. by left. }
  destruct (isEmpty (send_time packet)); [rewrite bind_now, Ek|rewrite bind_pure]; by apply Hstore.
Qed.
End Showing.

(** ** From one user to the other *)

Section Journey.
Context `{Collation} `{StdHash} `{Faults} `{PacketCodec} `{E : Env} `{QtCodec} `{!SameWire}.
Context {R : Type} `{IClientRepository R} `{QtText} `{QStringHashOrder} `{Uuid} `{Random} `{QHashOrder}.
Local Abbreviation app := (app R).

(** No message has the next client id. *)
Definition fresh_id (a : app) : Prop := forall c m, m ∈ messages_of c a -> a_next_id a < mr_clientMessageId m.

Lemma no_messages_fresh a : sn_messagesByConversation (a_snapshot a) = ∅ -> fresh_id a.
Proof. intros Em c m Hm. unfold messages_of in Hm. rewrite Em, lookup_empty in Hm. destruct (not_elem_of_nil m Hm). Qed.

Lemma typed_stands text u conversation (a : app) : can_type text u conversation a -> fresh_id a ->
  stands (a_next_id a) (DirectConversationId u) (trimmed text) (sendMessage text a).2.
Proof.
  intros Ht Hf. destruct (typed_text _ _ _ _ Ht) as (_ & _ & Hg). split.
  - pose proof (Hg (DirectConversationId u)) as Hu. rewrite decide_True in Hu by done.
    assert (gist (new_message (a_next_id a) (trimmed text) "" PendingLocal) ∈
      gist <$> messages_of (DirectConversationId u) (sendMessage text a).2) as Hin.
    { rewrite Hu, fmap_app, elem_of_app. right. by left. }
    apply list_elem_of_fmap in Hin as (m & Eg & Hm). exists m. split; [done|]. by injection Eg.
  - intros c m Hm Em. assert (gist m ∈ gist <$> messages_of c (sendMessage text a).2) as Hin by (by apply list_elem_of_fmap_2).
    rewrite Hg in Hin. apply list_elem_of_fmap in Hin as (x & Eg & Hx). injection Eg as Ei Eb Eo.
    apply elem_of_app in Hx as [Hx|Hx]; [apply Hf in Hx; lia|]. case_decide as Ec; [|by apply not_elem_of_nil in Hx].
    apply list_elem_of_singleton in Hx as ->. rewrite Eb, Eo. done.
Qed.

(** What an accepted text becomes: a row of the tables, an accepted message of
    the sender's application, a message of the peer's. *)
Definition arrives (sender u : Z) (b : string) (id : Z) (requestId : string) (messageId place : Z)
    (response delivery : Packet) (a : app) (w : node) : Prop :=
  stored_text (db (sql w)) sender u b messageId place response /\
  (exists m, m ∈ messages_of (DirectConversationId u)
       (HandleGatewayResponse requestId (sid ID_TEXT_SEND_RSP) (SerializeToString response) a).2 /\
     mr_clientMessageId m = id /\ mr_body m = Some b /\ mr_messageId m = Some messageId /\
     mr_conversationSeq m = Some place /\ mr_deliveryState m = Accepted) /\
  forall peer : app, can_show sender peer ->
    pushed (DirectConversationId sender) sender b messageId place delivery peer
      (HandleGatewayPush (sid ID_TEXT_SEND_REQ) (SerializeToString delivery) peer).2.

(** What the task sends: its answer, and for a new text one delivery to the
    peer, if the peer listens. *)
Definition delivered_once (u messageId : Z) (delivery : Packet) (w w' : node) (out : option (nat * MessageToGatewayFrame)) : Prop :=
  exists e, de_protocol_id e = sid ID_TEXT_SEND_REQ /\ de_packet e = SerializeToString delivery /\
    if decide (messages (db (sql w)) !! messageId = None) then offered 2 (calls w') (fun _ => e) w u out else out = None.

Lemma response_handled requestId response (a : app) messageId place : accepts messageId place response ->
  HandleGatewayResponse requestId (sid ID_TEXT_SEND_RSP) (SerializeToString response) a =
  on_send_text requestId Success response a.
Proof.
  intros (E0 & _). unfold HandleGatewayResponse. rewrite client_reads_server.
  assert ((if has_int F_error response then int32 (get_int F_error response) else 0) = Success) as ->
    by (rewrite E0; by case_match). done.
Qed.

(** A task is refused, or runs on a state with the same tables and streams. *)
Lemma run_task_runs t w :
  (exists (error : Z) what w1, logged [] w w1 /\ (error = AuthenticationRequired \/ error = DeadlineExceeded) /\
     run_task t w = reply t error (isRetryableError error) (MakeErrorPacket error what) w1) \/
  exists w1, sql w1 = sql w /\ logged [] w w1 /\ run_task t w = execute t w1.
Proof.
  unfold run_task, WithTimeout, Expired, NowUnixMilliseconds, steady_now, seq_bind, pure.
  set (w1 := with_cache _ (with_cache _ (with_cache _ w))). assert (logged [] w w1) as L1 by (apply logged_nil; simpl; (done || lia)).
  destruct (_ <=? _).
  - left. exists (ec DeadlineExceeded). eexists _, w1. split; [done|]. split; [by right|done].
  - unfold authorize, seq_bind. rewrite use_lease. set (w2 := with_cache (cache w1) w1).
    assert (logged [] w w2) as L2 by (apply logged_nil; simpl; (done || lia)). destruct (holds_lease _ _).
    + right. by exists w2.
    + left. exists (ec AuthenticationRequired). eexists _, w2. split; [done|]. split; [by left|done].
Qed.

(** The task of a text command, on any state of the tables. *)
Lemma task_of_text t w q :
  saved (sql w) = None -> ledger_ok (next_message (sql w)) (db (sql w)) ->
  ParseFromString (ce_packet (tk_command t)) = Some q -> ce_service_id (tk_command t) = sid ID_TEXT_SEND_REQ ->
  get_str F_data q <> "" ->
  let sender := ce_actor_uid (tk_command t) in
  let u := get_int F_to q in
  let b := get_str F_data q in
  let w' := (run_task t w).2 in
  exists response delivery answer out,
    logged (option_list answer ++ option_list out) w w' /\
    answered_by t response (TcpPacketError response) (get_bool F_retryable response) w answer /\
    (get_int F_error response <> Success -> out = None) /\
    (get_int F_error response = Success -> exists messageId place,
       accepts messageId place response /\ stored_text (db (sql w')) sender u b messageId place response /\
       tells sender b messageId place response delivery /\ delivered_once u messageId delivery w w' out).
Proof.
  intros Hs Hok Hp Hsv Hne sender u b. cbv zeta.
  destruct (run_task_runs t w) as [(error & what & w1 & L1 & He & ->)|(w1 & Esql & L1 & ->)].
  { destruct (reply_logged t error (isRetryableError error) (MakeErrorPacket error what) w1) as (_ & o & L2 & A2).
    exists (MakeErrorPacket error what), empty_packet, o, None. rewrite app_nil_r.
    split; [exact (logged_trans _ _ _ _ _ L1 L2)|]. split; [|split; [done|]].
    - eapply answered_by_later; [exact L1|]. destruct A2 as [->|A2]; [left|by right]. by pkt.
    - intros Hsucc. exfalso. revert Hsucc. pkt. by destruct He as [-> | ->]. }
  rewrite <-Esql in Hs, Hok. pose proof (executed_text t w1 q Hs Hok Hp Hsv Hne) as Hx. cbv zeta in Hx.
  pose proof (accept_request_logged false (set_int F_uid (ce_actor_uid (tk_command t)) q) w1) as L2.
  destruct (accept_request _ _ w1) as [acc w2]. destruct Hx as (-> & Hgood & Hbad). cbn [snd] in L2.
  pose proof (logged_trans _ _ _ _ _ L1 L2) as L12. simpl in L12.
  destruct (finish_text_logged t (sid ID_TEXT_SEND_REQ) acc w2) as (S3 & answer & outs & L3 & A3 & F3).
  set (w3 := (finish_text t _ acc w2).2) in *. exists (at_response acc), (at_delivery acc), answer.
  pose proof (logged_trans _ _ _ _ _ L12 L3) as L. simpl in L. unfold recipients in F3.
  destruct (decide (get_int F_error (at_response acc) = Success)) as [He|He].
  2:{ rewrite Hbad in F3 by done. apply Forall2_nil_inv_l in F3 as ->. exists None.
      split; [exact L|]. split; [by eapply answered_by_later|]. by split. }
  destruct (Hgood He) as (messageId & place & Hacc & Hst & Htell & Hto & Hnew). rewrite Hto in F3. rewrite Esql in Hnew.
  assert (exists out, omap Datatypes.id outs = option_list out /\ delivered_once u messageId (at_delivery acc) w w3 out) as (out & Eout & Hout).
  { exists (if at_shouldDeliver acc then mjoin (head outs) else None). unfold delivered_once.
    destruct (at_shouldDeliver acc) eqn:Ed.
    - apply Forall2_cons_inv_l in F3 as (o & outs' & Ho & F3 & ->). apply Forall2_nil_inv_l in F3 as ->.
      split; [by destruct o|]. exists (text_envelope (sid ID_TEXT_SEND_REQ) acc u). split; [done|]. split; [done|].
      rewrite decide_True by by apply Hnew. exact (offered_later [] _ _ (calls w3) _ _ w2 _ _ (le_n _) L12 Ho).
    - apply Forall2_nil_inv_l in F3 as ->. split; [done|]. exists (text_envelope (sid ID_TEXT_SEND_REQ) acc u).
      split; [done|]. split; [done|]. rewrite decide_False; [done|]. intros Hn. apply Hnew in Hn. congruence. }
  exists out. rewrite Eout in L. split; [exact L|]. split; [by eapply answered_by_later|]. split; [done|]. intros _.
  exists messageId, place. rewrite S3. by split_and!.
Qed.

(** C1: a text from one user to another.  The sender types a text to a user on a
    connection that is ready; the client writes one frame for it; the gateway
    makes its command under the session's user; a message node runs the task, on
    any state of its tables that is well formed and under any failures.  All the
    task sends is one answer to the sender's stream (missing only if that stream
    cannot be reached) and, if the answer is [Success], one delivery along the
    lease of the peer: it is there when the peer's lease can be read and its
    stream takes it, and there is none for a text that was stored before or is
    refused.  With [Success] the text is stored under its sender, its recipient
    and its content; the answer makes the sender's application show the message
    as accepted with the id and the place of the stored one; and the delivery
    makes the peer's application append it to the conversation with the sender
    and acknowledge it, unless the peer has it already, and then it acknowledges
    it again, or the peer's repository refuses this message, and then it is
    neither shown nor acknowledged. *)
Theorem text_travels text u conversation (a : app) (c : client) payload request unix se t w :
  can_type text u conversation a -> fresh_id a -> can_write c -> a_issued a = length (cl_issued c) ->
  let k := text_call text u conversation a in
  SerializeProtobufPacket (text_packet u (trimmed text) (wire_id (a_uid a) (a_next_id a))
                             (default 0 (cr_remoteConversationId conversation)) c) = Some payload ->
  ParseFromString payload = Some request -> se_userId se = a_uid a ->
  tk_command t = (make_command unix (sid ID_TEXT_SEND_REQ) request se).1 ->
  saved (sql w) = None -> ledger_ok (next_message (sql w)) (db (sql w)) ->
  let a' := (sendMessage text a).2 in
  let c' := (run_call k c).2 in
  let w' := (run_task t w).2 in
  a_calls a' = a_calls a ++ [Do k] /\
  cl_written c' = cl_written c ++ [(cl_connections c, (sid ID_TEXT_SEND_REQ, payload))] /\
  exists response delivery answer out,
    logged (option_list answer ++ option_list out) w w' /\
    answered_by t response (TcpPacketError response) (get_bool F_retryable response) w answer /\
    (get_int F_error response <> Success -> out = None) /\
    (get_int F_error response = Success -> exists messageId place,
       delivered_once u messageId delivery w w' out /\
       arrives (a_uid a) u (trimmed text) (a_next_id a) (uuid (length (cl_issued c))) messageId place response delivery a' w').
Proof.
  intros Ht Hf Hw Ei k Hp Hr Es Et Hs Hok a' c' w'.
  pose proof (typed_text _ _ _ _ Ht) as (Ec & Eo & _). split; [exact Ec|].
  split; [by apply written_text|]. apply server_reads_client in Hp. rewrite Hr in Hp. injection Hp as ->.
  set (request := text_packet _ _ _ _ _) in Et.
  assert (get_int F_to request = u /\ get_str F_data request = trimmed text) as [Eu Eb].
  { subst request. unfold text_packet, set_conversation_key. case_match; split; by pkt. }
  clearbody request. pose proof (command_text unix request se) as (Ea & Esv & q & Hq & Qu & Qb & _). rewrite <-Et in Ea, Esv, Hq.
  assert (get_str F_data q <> "") as Hne by (rewrite Qb, Eb; intros Ee; pose proof (ty_text _ _ _ _ Ht) as Hb; by rewrite Ee in Hb).
  destruct (task_of_text t w q Hs Hok Hq Esv Hne) as (response & delivery & answer & out & HL & HA & Hno & Hyes).
  exists response, delivery, answer, out. split; [exact HL|]. split; [exact HA|]. split; [exact Hno|]. intros He.
  destruct (Hyes He) as (messageId & place & Hacc & Hst & Htell & Hout). rewrite Ea, Es, Qu, Eu, Qb, Eb in *.
  exists messageId, place. split; [exact Hout|]. split; [exact Hst|]. split.
  - rewrite (response_handled _ _ _ messageId place) by done. apply answered_text; [|by apply (typed_stands _ _ conversation)|done|done].
    unfold a'. rewrite Eo, <-Ei. apply lookup_insert_eq.
  - intros peer Hpeer. unfold HandleGatewayPush. rewrite client_reads_server.
    change (sid ID_TEXT_SEND_REQ =? sid ID_TEXT_SEND_REQ) with true. cbv iota. by apply (pushed_text _ _ _ _ response).
Qed.
End Journey.

(** ** A journey *)

Module Trip.
#[local] Existing Instances Sample.exact Sample.no_hash Sample.no_faults bits_codec Calm.env.
#[local] Existing Instances AppSamples.codec AppSamples.ids AppSamples.qt AppSamples.hash_order AppSamples.runs_all
  AppSamples.clock AppSamples.rows_in_order SqliteClientRepository.
#[local] Instance wire : SameWire.
Proof.
  split.
  - intros p s [= <-]. apply (parse_serialize (PacketCodec := bits_codec)).
  - intros p. apply (parse_serialize (PacketCodec := bits_codec)).
Defined.
#[local] Instance dice : Random.
Proof. refine {| bounded n k := 0 |}. lia. Defined.
#[local] Instance table : QHashOrder.
Proof. refine {| visit A m := map_to_list m |}. done. Defined.

(** The user 1001 in the conversation with 1002, and the connection. *)
Definition sender : App.app Sqlite.repository := AppSamples.in_chat.
Definition connection : client :=
  Client.put_issued (uuid <$> seq 0 (a_issued sender)) (Client.put_state Client.Ready (Client.put_socket SConnected (new_client 1))).
Definition packet : Packet := text_packet 1002 "hi" "1001:1000" 77 connection.
Definition login : session :=
  mkSession "c1" 1001 (mkLease "gw-a" "i1" "c1" 1) 0 0 0 0 new_outbox RReading.
Definition job : task := mkNodeTask "gw-a" "i1" 1 (make_command 1000 (sid ID_TEXT_SEND_REQ) packet login).1.

(** Both users are connected to one gateway. *)
Definition leases : redis :=
  (bindSessionLease 1002 "gw-a" "i1" "c2" 60 (ok_at 0) (bindSessionLease 1001 "gw-a" "i1" "c1" 60 (ok_at 0) ∅).2).2.
Definition server : node :=
  with_reactors {[ 1%nat := new_reactor "gw-a" ]} (with_streams {[ "gw-a" := mkStream "i1" 1 ]} (new_node Sample.start leases 2 16)).

Definition after : node := (run_task job server).2.
Definition typed : App.app Sqlite.repository := (sendMessage "hi" sender).2.

(** The frames of the task: the answer, then the delivery to the peer. *)
Definition sent : list MessageToGatewayFrame := default [] (frames <$> reactors after !! 1%nat).
Definition delivered : string := match sent with [_; MDelivery e] => de_packet e | _ => "" end.
Lemma trip_sent : (fun f => match f with
    | MCommandResult r => (cr_error r, "") | MDelivery d => (de_recipient_uid d, de_expected_connection_id d) | _ => (0, "") end)
    <$> sent = [(ec Success, ""); (1002, "c2")].
Proof. by vm_compute. Qed.

(** The text did arrive in the tables, and at the peer. *)
Lemma trip_stored : m_content <$> messages (db (sql after)) !! 1 = Some "hi".
Proof. by vm_compute. Qed.

Definition peer : App.app Sqlite.repository := run_app (AppSamples.signed_in 1002)
  (AppSamples.start (mkConversationRecord "direct:1001" (Some "Al") None None None (Some 77) 0 false false false)).
Lemma trip_shown : (fun m => (mr_messageId m, mr_body m)) <$>
    messages_of "direct:1001" (HandleGatewayPush (sid ID_TEXT_SEND_REQ) delivered peer).2 = [(Some 1, Some "hi")].
Proof. by vm_compute. Qed.

Lemma text_travels_witness : exists response delivery answer out,
  logged (option_list answer ++ option_list out) server after /\
  answered_by job response (TcpPacketError response) (get_bool F_retryable response) server answer /\
  (get_int F_error response = Success -> exists messageId place, delivered_once 1002 messageId delivery server after out /\
     arrives 1001 1002 "hi" (-1000) "3" messageId place response delivery typed after).
Proof.
  destruct (text_travels "hi" 1002 (AppSamples.shown sender) sender connection (AppSamples.ser packet) packet 1000 login job server)
    as (_ & _ & response & delivery & answer & out & Hl & Ha & _ & Hyes).
  - split; try by vm_compute.
  - apply no_messages_fresh. by vm_compute.
  - split; by vm_compute.
  - by vm_compute.
  - by vm_compute.
  - apply (parse_serialize (PacketCodec := bits_codec)).
  - by vm_compute.
  - done.
  - done.
  - apply (friends_db_ok (H := Sample.exact)).
  - exists response, delivery, answer, out. split; [exact Hl|]. split; [exact Ha|exact Hyes].
Defined.
End Trip.
