(* ===== verification/CatchUp.v ===== *)
(** * Catching up after an absence

    What the client, the gateway and a message node do together for the
    messages of a conversation that arrived while a user was away: the pulls
    that [AppController] asks for after a login
    ([src/client/src/app/AppController.cc]), their packets
    ([ConnectionGatewayClient.cc]), the command the gateway makes of them
    ([GatewaySession.cc]), and [PullSessionMessages] of the node
    ([MessageService.cc]) on the tables of [Mysql.h]. *)

From S2P Require Import Prelude Const Packet Redis Store Mysql Messages Ledger History Sync Pools.
From S2P Require Import Transport Node Services Reactor Streams Commands Delivery Outbox Gateway.
From S2P Require Import Client GateClient Snapshot Ports App Application Journey.
From S2P Require AppSamples.

(** ** The rows a page is taken from *)

Section Rows.
Context `{Collation}.

Lemma rows_between_member c lo hi (d : DB) im : im ∈ rows_between c lo hi d ->
  messages d !! im.1 = Some im.2 /\ m_conversationId im.2 = Some c /\ lo < seq_of im <= hi.
Proof.
  destruct im as [id m]. intros (Hm & q & [Hc Hq] & Hr)%elem_of_rows_between.
  split; [done|]. split; [done|]. unfold seq_of. simpl. by rewrite Hq.
Qed.

(** Two ranges that meet. *)
Lemma rows_between_split n d c cv lo mid hi : ledger_ok n d -> conversations d !! c = Some cv -> 0 <= lo -> lo <= mid <= hi ->
  hi <= cv_latestSeq cv -> rows_between c lo hi d = rows_between c lo mid d ++ rows_between c mid hi d.
Proof.
  intros Hok Hcv Hlo Hmid Hhi.
  assert (seq_of <$> rows_between c lo hi d = seq_of <$> (rows_between c lo mid d ++ rows_between c mid hi d)) as Hs.
  { rewrite fmap_app, !(rows_between_seqs n d c cv) by (done || lia).
    replace (hi - lo) with ((mid - lo) + (hi - mid)) by lia. rewrite seqZ_app by lia. do 2 f_equal. lia. }
  assert (NoDup (seq_of <$> rows_between c lo hi d)) as Hn
    by (rewrite (rows_between_seqs n d c cv) by (done || lia); apply NoDup_seqZ).
  apply (fmap_decides seq_of); [done| |done]. apply NoDup_Permutation.
  - by eapply NoDup_fmap_1.
  - rewrite Hs in Hn. by eapply NoDup_fmap_1.
  - intros [id m]. rewrite elem_of_app, !elem_of_rows_between. split.
    + intros (Hm & q & Hp & Hq). destruct (decide (q <= mid)); [left|right]; (split; [done|]); exists q; (split; [done|lia]).
    + intros [(Hm & q & Hp & Hq)|(Hm & q & Hp & Hq)]; (split; [done|]); exists q; (split; [done|lia]).
Qed.

Lemma rows_between_empty c lo hi (d : DB) : hi <= lo -> rows_between c lo hi d = [].
Proof.
  intros Hle. destruct (rows_between c lo hi d) as [|im l] eqn:E; [done|].
  assert (im ∈ rows_between c lo hi d) as Hin by (rewrite E; by left). apply rows_between_member in Hin. lia.
Qed.

(** The first rows of a range. *)
Lemma rows_between_take n d c cv lo hi count : ledger_ok n d -> conversations d !! c = Some cv -> 0 <= lo ->
  hi <= cv_latestSeq cv -> 0 <= count ->
  take (Z.to_nat count) (rows_between c lo hi d) = rows_between c lo (Z.min hi (lo + count)) d.
Proof.
  intros Hok Hcv Hlo Hhi Hc. destruct (Z.le_gt_cases hi lo) as [Hle|Hgt].
  { by rewrite !rows_between_empty, take_nil by lia. }
  pose proof (rows_between_seqs n d c cv lo hi Hok Hcv Hlo Hhi) as Hs.
  apply (f_equal length) in Hs. rewrite length_fmap, length_seqZ in Hs.
  destruct (Z.le_gt_cases hi (lo + count)) as [Hh|Hh].
  { rewrite Z.min_l by lia. apply take_ge. lia. }
  rewrite Z.min_r by lia. rewrite (rows_between_split n d c cv lo (lo + count) hi) by (done || lia).
  apply take_app_length'. rewrite <-(length_fmap seq_of), (rows_between_seqs n d c cv) by (done || lia).
  rewrite length_seqZ. lia.
Qed.

(** A page as the rows it is taken from. *)
Lemma sync_answer_rows n c after count cv m d :
  ledger_ok n d -> 0 <= after -> 1 <= count -> conversations d !! c = Some cv ->
  1 <= cm_joinedSeq m -> (forall l, cm_leftSeq m = Some l -> l <= cv_latestSeq cv) ->
  let lo := Z.max after (cm_joinedSeq m - 1) in
  let hi := default (cv_latestSeq cv) (cm_leftSeq m) in
  sy_messages (sync_answer c after count cv m d) = Messages.record_of <$> rows_between c lo (Z.min hi (lo + count)) d.
Proof.
  intros Hok Ha Hcount Hcv Hj Hleft lo hi.
  assert (hi <= cv_latestSeq cv) as Hhi by (subst hi; destruct (cm_leftSeq m) eqn:E; simpl; [by apply Hleft|lia]).
  assert (0 <= lo) as Hlo by lia.
  unfold sync_answer. fold lo hi. unfold conversation_page. fold (rows_between c lo hi d).
  rewrite sync_rows_spec by (simpl; lia). cbn [length Datatypes.app sy_messages]. rewrite Nat.sub_0_r, take_take.
  replace (Z.to_nat count `min` Z.to_nat (count + 1))%nat with (Z.to_nat count) by lia.
  by rewrite (rows_between_take n d c cv) by (done || lia).
Qed.
End Rows.

(** ** The command of a pull and its answer *)

Section Server.
Context `{Collation} `{StdHash} `{Faults} `{PacketCodec} `{E : Env}.

(** The packet of [PullConversationMessages] as [QueueRequest] completes it. *)
Definition pull_packet (requestId : string) (remote after limit : Z) : Packet :=
  empty_packet |> set_int F_conversation_id remote
               |> set_int F_after_seq (Z.max 0 after)
               |> set_int F_limit (clamp limit 1 200)
               |> set_str F_request_id requestId
               |> set_int F_request_timeout_ms kServerRequestBudgetMilliseconds.

Definition asks_for (remote after limit : Z) (q : Packet) : Prop :=
  has_int F_conversation_id q = true /\ get_int F_conversation_id q = remote /\
  has_int F_after_seq q = true /\ get_int F_after_seq q = Z.max 0 after /\
  has_int F_limit q = true /\ get_int F_limit q = clamp limit 1 200.

Lemma asks_set_int remote after limit f v q : f ∉ [F_conversation_id; F_after_seq; F_limit] ->
  asks_for remote after limit q -> asks_for remote after limit (set_int f v q).
Proof. intros Hf. unfold asks_for. destruct f; try (exfalso; apply Hf; set_solver); intros ?; by pkt. Qed.

Lemma asks_set_str remote after limit f v q : asks_for remote after limit q -> asks_for remote after limit (set_str f v q).
Proof. unfold asks_for. intros ?. by pkt. Qed.

(** A message node runs the command that the gateway makes of the packet. *)
Definition answer (unix : Z) (requestId : string) (remote after limit : Z) (se : session) (w : node)
  : Packet * session * node :=
  let '(command, se) := make_command unix (sid ID_PULL_SESSION_MESSAGE_LIST_REQ) (pull_packet requestId remote after limit) se in
  match ParseFromString (ce_packet command) with
  | None => (MakeErrorPacket JsonParser "", se, w)
  | Some packet =>
      let '(response, w) := ExecuteGatewayCommand (ce_service_id command) (ce_actor_uid command)
                              (packet |> set_int F_uid (ce_actor_uid command)) w in
      (response, se, w)
  end.

Lemma command_asks unix requestId remote after limit se :
  let '(command, se') := make_command unix (sid ID_PULL_SESSION_MESSAGE_LIST_REQ) (pull_packet requestId remote after limit) se in
  ce_actor_uid command = se_userId se /\ ce_service_id command = sid ID_PULL_SESSION_MESSAGE_LIST_REQ /\ se_userId se' = se_userId se /\
  exists q, ParseFromString (ce_packet command) = Some q /\ asks_for remote after limit q.
Proof.
  assert (asks_for remote after limit (set_int F_uid (se_userId se) (pull_packet requestId remote after limit))) as Hq.
  { apply asks_set_int; [set_solver|]. unfold pull_packet, asks_for. by pkt. }
  unfold make_command. destruct (_ || _); [unfold NextRequestId|]; (do 3 (split; [done|]));
    eexists; (split; [apply parse_serialize|]); [by apply asks_set_str|done].
Qed.

(** The command is a page of [syncConversation] for the user of the session. *)
Lemma answered_pull unix requestId remote after limit se w : 0 < se_userId se ->
  let '(response, se', w') := answer unix requestId remote after limit se w in
  let '(sync, s') := syncConversation (se_userId se) remote (Z.max 0 after) (clamp limit 1 200) (sql w) in
  response = sync_response remote sync /\ sql w' = s' /\ se_userId se' = se_userId se.
Proof.
  intros Hu. unfold answer. pose proof (command_asks unix requestId remote after limit se) as Hc.
  destruct (make_command _ _ _ _) as [command se']. destruct Hc as (-> & -> & Hse & q & -> & Hq).
  unfold ExecuteGatewayCommand. replace (se_userId se <=? 0) with false by lia. cbn [orb].
  change (sid ID_PULL_SESSION_MESSAGE_LIST_REQ =? sid ID_LOGIN_INIT_REQ) with false.
  change (sid ID_PULL_SESSION_MESSAGE_LIST_REQ =? sid ID_PING_REQ) with false.
  change (sid ID_PULL_SESSION_MESSAGE_LIST_REQ =? sid ID_USER_QUIT_REQ) with false. cbn [orb].
  change (List.find _ serviceGroup) with (Some (sid ID_PULL_SESSION_MESSAGE_LIST_REQ, PullSessionMessages)).
  cbn [snd]. set (request := set_int F_uid (se_userId se) _).
  assert (asks_for remote after limit request /\ get_int F_uid request = se_userId se) as [(R0 & R1 & R2 & R3 & R4 & R5) Ru].
  { subst request. split; [|by pkt]. do 2 (apply asks_set_int; [set_solver|]). done. }
  clearbody request. unfold PullSessionMessages. rewrite R0, R1, R2, R3, R4, R5, Ru. cbv zeta. unfold seq_bind, Node.use_sql.
  destruct (syncConversation _ _ _ _ _) as [sync s']. by split_and!.
Qed.

(** What the client reads in the answer. *)
Lemma add_messages_spec l rsp :
  p_message_list (add_messages l rsp) = p_message_list rsp ++ l /\
  p_int (add_messages l rsp) = p_int rsp /\ p_bool (add_messages l rsp) = p_bool rsp.
Proof.
  revert rsp. induction l as [|m l IH]; intros rsp; [by rewrite app_nil_r|].
  destruct (IH (add_message_list m rsp)) as (E1 & E2 & E3). unfold add_messages in *. cbn [foldl].
  rewrite E1, E2, E3. simpl. by rewrite <-app_assoc.
Qed.

Lemma sync_response_spec remote sync :
  let rsp := sync_response remote sync in
  has_int F_error rsp = true /\ get_int F_error rsp = sy_error sync /\
  get_int F_conversation_id rsp = remote /\ has_int F_next_seq rsp = true /\ get_int F_next_seq rsp = sy_nextSeq sync /\
  get_bool F_has_more rsp = sy_hasMore sync /\
  (sy_error sync = Success -> p_message_list rsp = sync_item <$> sy_messages sync).
Proof.
  unfold sync_response. cbv zeta.
  match goal with |- context [add_messages _ ?header] => set (r := header) end.
  assert (has_int F_error r = true /\ get_int F_error r = sy_error sync /\
    get_int F_conversation_id r = remote /\ has_int F_next_seq r = true /\ get_int F_next_seq r = sy_nextSeq sync /\
    get_bool F_has_more r = sy_hasMore sync /\ p_message_list r = []) as (A1 & A2 & A3 & A4 & A5 & A6 & A7).
  { subst r. repeat case_match; split_and!; by pkt. }
  clearbody r. destruct (sy_error sync =? Success) eqn:Ee; cbn [negb].
  - destruct (add_messages_spec (map sync_item (sy_messages sync)) r) as (E1 & E2 & E3).
    unfold has_int, get_int, get_bool in *. rewrite E1, E2, E3, A7. by split_and!.
  - split_and!; [done..|]. intros Es. boolp. congruence.
Qed.
End Server.

(** ** A page at the application *)

Section Page.
Context {R : Type} `{IClientRepository R} `{QtText} `{QStringHashOrder} `{QtCodec} `{Uuid}.
Local Abbreviation app := (app R).

(** Nothing but calls of no interest here and what the repository does. *)
Record still (a a' : app) : Prop := {
  sl_messages : forall c, messages_of c a' = messages_of c a;
  sl_sync : a_sync a' = a_sync a;
  sl_issued : a_issued a' = a_issued a;
  sl_uid : a_uid a' = a_uid a;
  sl_ready : a_ready a' = a_ready a;
  sl_calls : a_calls a `prefix_of` a_calls a' }.
Definition keeps_still {A} (m : State app A) : Prop := forall a, still a (m a).2.

#[local] Instance still_refl : Reflexive still.
Proof. intros a. by split. Qed.
#[local] Instance still_trans : Transitive still.
Proof. intros a b c [] []. split; [intros; etrans; eauto|congruence..|by etrans]. Qed.

Lemma still_pure {A} (x : A) : keeps_still (pure x).
Proof. intros a. reflexivity. Qed.
Lemma still_reads {A} (f : app -> A) : keeps_still (reads f).
Proof. intros a. reflexivity. Qed.
Lemma still_bind {A B} (m : State app A) (k : A -> State app B) :
  keeps_still m -> (forall x, keeps_still (k x)) -> keeps_still (seq_bind m k).
Proof. intros Hm Hk a. unfold seq_bind. specialize (Hm a). destruct (m a) as [x a1]. etrans; [exact Hm|apply Hk]. Qed.
Lemma still_for_each {A} (l : list A) f : (forall x, keeps_still (f x)) -> keeps_still (for_each l f).
Proof. intros Hf. induction l as [|x l IH]; [apply still_pure|]. apply still_bind; [apply Hf|done]. Qed.
Lemma still_writes f : (forall a, still a (f a)) -> keeps_still (writes f).
Proof. intros Hf a. apply Hf. Qed.
Lemma still_repo {A} (m : State R A) : keeps_still (repo m).
Proof. intros a. unfold repo. destruct (m (a_repository a)). by split. Qed.
Lemma still_tell k : keeps_still (tell k).
Proof. intros a. split; try done. by apply prefix_app_r. Qed.
Lemma still_touch c : keeps_still (touch_messages c).
Proof.
  intros a. split; [|done..]. intros c'. unfold touch_messages. rewrite messages_of_put. by case_decide; subst.
Qed.

Ltac still := repeat first
  [ apply still_bind; [|intros ?] | apply still_pure | apply still_reads | apply still_repo | apply still_tell
  | apply still_touch | (apply still_writes; intros; by split) | progress unfold change_snapshot, snap | case_match ].

Lemma still_Attach c r : keeps_still (AttachRemoteConversation c r).
Proof. unfold AttachRemoteConversation. still. Qed.
Lemma still_AcknowledgeRead i : keeps_still (AcknowledgeConversationRead i).
Proof. intros a. unfold AcknowledgeConversationRead. repeat case_match; try reflexivity. apply still_tell. Qed.

Lemma bind_step {A B} (m : State app A) (k : A -> State app B) a : seq_bind m k a = k (m a).1 (m a).2.
Proof. unfold seq_bind. by destruct (m a). Qed.

(** The messages a page adds, and what is told of them. *)
Definition additions (uid : Z) (stored : list MessageRecord) (items : list PChatMessage) : list MessageRecord :=
  synced_message uid <$> List.filter (fun item => negb (has_message (pc_message_id item) stored)) items.

Definition delivered_call (remote : Z) (m : MessageRecord) : GatewayCall :=
  Do (CallAcknowledgeDelivered (default 0 (mr_messageId m)) remote (default 0 (mr_conversationSeq m))).

Lemma told_all remote ms (a : app) : Forall (fun m => mr_outgoing m = false -> delivered_call remote m ∈
  a_calls (for_each ms (fun m => if mr_outgoing m then pure tt
    else tell (CallAcknowledgeDelivered (default 0 (mr_messageId m)) remote (default 0 (mr_conversationSeq m)))) a).2) ms.
Proof.
  revert a. induction ms as [|m ms IH]; intros a; constructor.
  - intros Ho. cbn [for_each]. rewrite Ho. unfold seq_bind, tell, writes. cbn [fst snd].
    match goal with |- _ ∈ a_calls (for_each ms ?f ?a1).2 => assert (still a1 (for_each ms f a1).2) as [_ _ _ _ _ Hp]
      by (apply still_for_each; intros; still) end.
    eapply elem_of_prefix; [|exact Hp]. simpl. apply elem_of_app. right. by left.
  - cbn [for_each]. unfold seq_bind. destruct (if mr_outgoing m then _ else _) as [u a1]. apply IH.
Qed.

(** The application after the answer to a pull. *)
Record page_taken (requestId local : string) (a a' : app) : Prop := {
  pt_sync : a_sync a' = delete requestId (a_sync a);
  pt_uid : a_uid a' = a_uid a;
  pt_ready : a_ready a' = a_ready a;
  pt_issued : a_issued a' = a_issued a;
  pt_calls : a_calls a `prefix_of` a_calls a';
  pt_others : forall c, c <> local -> messages_of c a' = messages_of c a }.

Lemma taken_still requestId local a a1 a2 : page_taken requestId local a a1 -> still a1 a2 -> page_taken requestId local a a2.
Proof.
  intros [] []. split; try congruence; [by etrans|]. intros c Hc. etrans; eauto.
Qed.

Lemma bind_take_sync {B} requestId (k : string -> State app B) a :
  seq_bind (take_sync requestId) k a = k (default "" (a_sync a !! requestId)) (put_sync (delete requestId (a_sync a)) a).
Proof. done. Qed.

Lemma refused_page requestId local (errorCode : Z) response (a : app) : a_sync a !! requestId = Some local -> errorCode <> Success ->
  let a' := (on_session_messages requestId errorCode response a).2 in
  page_taken requestId local a a' /\ messages_of local a' = messages_of local a.
Proof.
  intros Hs He. unfold on_session_messages. rewrite bind_take_sync, Hs. cbn [default].
  rewrite (proj2 (Z.eqb_neq errorCode Success) He). cbn [negb]. rewrite orb_true_r. split; [by split|done].
Qed.

(** The repository that is given a page of the conversation [remote]. *)
Definition page_repository (requestId local : string) (remote : Z) (a : app) : R :=
  a_repository (AttachRemoteConversation local remote (put_sync (delete requestId (a_sync a)) a)).2.

(** The page is stored, shown and acknowledged, and the next one is asked for; or
    the repository does not take it. *)
Lemma shown_page requestId local remote next more response (a : app) : a_sync a !! requestId = Some local -> local <> "" ->
  a_ready a = true -> get_int F_conversation_id response = remote -> has_int F_next_seq response = true ->
  get_int F_next_seq response = next -> get_bool F_has_more response = more ->
  let a' := (on_session_messages requestId Success response a).2 in
  let new := additions (a_uid a) (messages_of local a) (p_message_list response) in
  (page_taken requestId local a a' /\ messages_of local a' = messages_of local a /\
   (port_ApplyIncomingBatch local new next (page_repository requestId local remote a)).1 = false) \/
  exists a1, page_taken requestId local a a1 /\ messages_of local a1 = messages_of local a ++ new /\
    Forall (fun m => mr_outgoing m = false -> delivered_call remote m ∈ a_calls a1) new /\
    a' = if more then (pull remote next local a1).2 else a1.
Proof.
  intros Hs Hlocal Hready Hremote Hhas Hnext Hmore. cbv zeta. unfold on_session_messages.
  rewrite bind_take_sync, Hs. change (default "" (Some local)) with local. rewrite (proj2 (str_empty_false local) Hlocal).
  cbn [orb]. change (Success =? Success) with true. cbn [negb]. rewrite Hremote, Hhas, Hnext, Hmore. unfold page_repository. set (a0 := put_sync _ a).
  assert (page_taken requestId local a a0 /\ messages_of local a0 = messages_of local a) as [T0 M0] by (split; [by split|done]). clearbody a0.
  rewrite (bind_step (AttachRemoteConversation local remote)). pose proof (still_Attach local remote a0) as S1.
  destruct (AttachRemoteConversation local remote a0) as [ [] a1]. cbn [fst snd] in *.
  rewrite (bind_step (touch_messages local)). pose proof (still_touch local a1) as S2.
  assert (a_repository (touch_messages local a1).2 = a_repository a1) as Er by done.
  destruct (touch_messages local a1) as [ [] a2]. cbn [fst snd] in *.
  assert (page_taken requestId local a a2 /\ messages_of local a2 = messages_of local a) as [T2 M2].
  { split; [by eapply taken_still, S2; eapply taken_still, S1|]. by rewrite (sl_messages _ _ S2), (sl_messages _ _ S1). }
  rewrite <-Er. clear S1 S2 T0 M0. rewrite !bind_reads, M2, (pt_uid _ _ _ _ T2), bind_pure, bind_repo.
  fold (additions (a_uid a) (messages_of local a) (p_message_list response)).
  set (new := additions _ _ _). destruct (port_ApplyIncomingBatch local new next (a_repository a2)) as [[] r] eqn:Ep; cbn [fst snd negb].
  2:{ left. split; [|split; [exact M2|done]]. eapply taken_still; [exact T2|]. by split. }
  right. rewrite bind_messages. set (a3 := (put_messages_of local _ _).2).
  assert (page_taken requestId local a a3 /\ messages_of local a3 = messages_of local a ++ new) as [T3 M3].
  { subst a3. split; [|by rewrite messages_of_put, decide_True]. destruct T2 as [S1 S2 S3 S4 S5 S6]. split; try done.
    intros c Hc. rewrite messages_of_put, decide_False by done. rewrite <-(S6 c Hc). done. }
  clearbody a3. clear dependent a2 r. pose proof (told_all remote new a3) as Htold.
  unfold seq_bind at 1.
  match type of Htold with Forall (fun m => _ -> _ ∈ a_calls (snd ?x)) _ =>
    assert (still a3 x.2) as S4 by (apply still_for_each; intros; still); destruct x as [[] a4] end. cbn [snd] in *.
  rewrite bind_reads. unfold seq_bind at 1.
  match goal with |- context [(if decide ?b then ?x else ?y) a4] =>
    assert (still a4 ((if decide b then x else y) a4).2) as S5
      by (case_match; [apply still_bind; [apply still_writes; intros; by split|intros ?]; apply still_bind;
            [apply still_reads|intros ?; apply still_AcknowledgeRead]|reflexivity]);
    destruct ((if decide b then x else y) a4) as [[] a5] end. cbn [snd] in S5.
  exists a5. split; [by eapply taken_still, S5; eapply taken_still, S4|]. split; [|split].
  - by rewrite (sl_messages _ _ S5), (sl_messages _ _ S4).
  - eapply Forall_impl; [exact Htold|]. intros m Hm Ho. eapply elem_of_prefix; [by apply Hm|apply S5].
  - rewrite andb_true_r. by destruct more.
Qed.
End Page.

(** ** Rows of the server as messages of the client *)

Definition synced_row (uid : Z) (im : Z * Message) : MessageRecord := synced_message uid (sync_item (Messages.record_of im)).

(** Those the application does not have. *)
Definition unseen (stored : list MessageRecord) (rows : list (Z * Message)) : list (Z * Message) :=
  List.filter (fun im => negb (has_message im.1 stored)) rows.

Lemma additions_rows uid stored rows :
  additions uid stored (sync_item <$> (Messages.record_of <$> rows)) = synced_row uid <$> unseen stored rows.
Proof.
  unfold additions, unseen. induction rows as [|[id m] rows IH]; [done|]. cbn.
  destruct (negb (has_message id stored)); cbn; by rewrite IH.
Qed.

Lemma synced_row_id uid im : mr_messageId (synced_row uid im) = Some im.1.
Proof. by destruct im. Qed.

Lemma has_message_app id l1 l2 : has_message id (l1 ++ l2) = has_message id l1 || has_message id l2.
Proof. apply existsb_app. Qed.

Lemma has_message_rows id uid rows : has_message id (synced_row uid <$> rows) = true <-> exists m, (id, m) ∈ rows.
Proof.
  unfold has_message. rewrite existsb_exists. split.
  - intros (r & Hr & Hb). apply list_elem_of_In, list_elem_of_fmap in Hr as (im & -> & Him).
    apply bool_decide_eq_true in Hb. rewrite synced_row_id in Hb. injection Hb as <-. exists im.2. by destruct im.
  - intros [m Hm]. exists (synced_row uid (id, m)). split; [apply list_elem_of_In; by apply list_elem_of_fmap_2|].
    by apply bool_decide_eq_true.
Qed.

Lemma elem_of_unseen stored rows im : im ∈ unseen stored rows <-> im ∈ rows /\ has_message im.1 stored = false.
Proof. unfold unseen. rewrite !list_elem_of_In, filter_In, negb_true_iff. done. Qed.

(** After the unseen rows are shown all of them are there. *)
Lemma shown_rows uid stored rows im : im ∈ rows -> has_message im.1 (stored ++ (synced_row uid <$> unseen stored rows)) = true.
Proof.
  intros Him. rewrite has_message_app. destruct (has_message im.1 stored) eqn:E; [done|]. simpl.
  apply has_message_rows. exists im.2. apply elem_of_unseen. by destruct im.
Qed.

Lemma unseen_later uid stored rows1 rows2 : (forall id m1 m2, (id, m1) ∈ rows1 -> (id, m2) ∈ rows2 -> False) ->
  unseen (stored ++ (synced_row uid <$> unseen stored rows1)) rows2 = unseen stored rows2.
Proof.
  intros Hd. apply filter_ext_in. intros [id m] Hm%list_elem_of_In. simpl. f_equal. rewrite has_message_app.
  destruct (has_message id (synced_row uid <$> _)) eqn:E; [|by rewrite orb_false_r].
  apply has_message_rows in E as [m1 Hm1]. apply elem_of_unseen in Hm1 as [Hm1 _]. destruct (Hd id m1 m Hm1 Hm).
Qed.

Lemma unseen_app stored rows1 rows2 : unseen stored (rows1 ++ rows2) = unseen stored rows1 ++ unseen stored rows2.
Proof. apply List.filter_app. Qed.

(** ** From the first pull to the last *)

Section CatchUp.
Context `{Collation} `{StdHash} `{Faults} `{PacketCodec} `{E : Env} `{QtCodec} {W : SameWire}.
Context {R : Type} `{IClientRepository R} `{QtText} `{QStringHashOrder} `{Uuid}.
Local Abbreviation app := (app R).

(** A pull that waits for its answer: its request id, conversation, cursor and
    limit; and the one that a slot of the application has just asked for. *)
Definition waiting_pull : Type := string * Z * Z * Z.
Definition next_pull (before after : app) : option waiting_pull :=
  if decide (a_issued after = S (a_issued before)) then
    match last (a_calls after) with
    | Some (Do (CallPullConversationMessages c q k)) => Some (uuid (a_issued before), c, q, k)
    | _ => None
    end
  else None.

(** The answer to a pull at the application. *)
Definition answered (requestId : string) (response : Packet) (a : app) : app :=
  (HandleGatewayResponse requestId (sid ID_PULL_SESSION_MESSAGE_LIST_RSP) (SerializeToString response) a).2.

(** Each pull is answered by a node, and the application asks for the next page;
    [false] if more than [n] answers were needed. *)
Fixpoint read_on (n : nat) (unix : nat -> Z) (p : waiting_pull) (a : app) (se : session) (w : node) : app * node * bool :=
  match n with
  | O => (a, w, false)
  | S n =>
      let '(requestId, remote, after, limit) := p in
      let '(response, se, w) := answer (unix n) requestId remote after limit se w in
      let a' := answered requestId response a in
      match next_pull a a' with
      | None => (a', w, true)
      | Some p => read_on n unix p a' se w
      end
  end.

(** The turns of such a reading: the pull, the application that waits for its
    answer, the node before and after, the answer. *)
Record turn := mkTurn { tu_pull : waiting_pull; tu_app : app; tu_before : node; tu_after : node; tu_response : Packet }.
Fixpoint turns (n : nat) (unix : nat -> Z) (p : waiting_pull) (a : app) (se : session) (w : node) : list turn :=
  match n with
  | O => []
  | S n =>
      let '(requestId, remote, after, limit) := p in
      let '(response, se, w') := answer (unix n) requestId remote after limit se w in
      let a' := answered requestId response a in
      mkTurn p a w w' response ::
      match next_pull a a' with
      | None => []
      | Some p => turns n unix p a' se w'
      end
  end.

(** A statement of this answer failed, or the repository did not take this page. *)
Definition faulty (t : turn) : Prop := some_fault (tick (sql (tu_before t))) (tick (sql (tu_after t))).
Definition refused (t : turn) : Prop :=
  let '(requestId, remote, _, _) := tu_pull t in
  let a := tu_app t in
  let local := default "" (a_sync a !! requestId) in
  (port_ApplyIncomingBatch local (additions (a_uid a) (messages_of local a) (p_message_list (tu_response t)))
     (get_int F_next_seq (tu_response t)) (page_repository requestId local remote a)).1 = false.

(** Why a reading may stop short: what went wrong in one of its turns. *)
Definition cut_short (ts : list turn) : Prop := exists t, t ∈ ts /\ (faulty t \/ refused t).

(** The member [m] of the conversation [cv], on tables that do not change. *)
Section Reading.
Context (N : Z) (d : DB) (remote uid : Z) (local : string) (cv : Conversation) (m : ConversationMember).
Context (Hok : ledger_ok N d) (Hremote : 0 < remote) (Huid : 0 < uid) (Hlocal : local <> "").
Context (Hcv : conversations d !! remote = Some cv) (Hm : conversationMembers d !! (remote, uid) = Some m).
Context (Hleft : forall l, cm_leftSeq m = Some l -> l <= cv_latestSeq cv).

Definition first_place (after : Z) : Z := Z.max (Z.max 0 after) (cm_joinedSeq m - 1).
Definition last_place : Z := default (cv_latestSeq cv) (cm_leftSeq m).

Record can_read (requestId : string) (a : app) (se : session) (w : node) : Prop := {
  cr_tables : saved (sql w) = None /\ db (sql w) = d /\ next_message (sql w) = N;
  cr_user : se_userId se = uid /\ a_uid a = uid;
  cr_asked : a_sync a !! requestId = Some local;
  cr_online : a_ready a = true }.

(** What is read up to a place of the conversation. *)
Record read_to (requestId : string) (lo place : Z) (a a' : app) (w' : node) : Prop := {
  rt_tables : db (sql w') = d;
  rt_place : lo <= place;
  rt_messages : messages_of local a' = messages_of local a ++
    (synced_row uid <$> unseen (messages_of local a) (rows_between remote lo place d));
  rt_told : forall im, im ∈ unseen (messages_of local a) (rows_between remote lo place d) -> m_senderId im.2 <> uid ->
    Do (CallAcknowledgeDelivered im.1 remote (seq_of im)) ∈ a_calls a';
  rt_calls : a_calls a `prefix_of` a_calls a';
  rt_others : forall c, c <> local -> messages_of c a' = messages_of c a;
  rt_sync : a_sync a' ⊆ delete requestId (a_sync a) }.

Lemma joined : 1 <= cm_joinedSeq m.
Proof using Hok Hm. destruct (lo_member _ _ Hok _ _ _ Hm) as (? & _ & _ & _ & Hj). lia. Qed.

Lemma last_bound : last_place <= cv_latestSeq cv.
Proof using Hleft. unfold last_place. destruct (cm_leftSeq m) eqn:El; simpl; [by apply Hleft|lia]. Qed.

(** One answer: a fault, or the page. *)
Lemma answered_page unix requestId after se w : saved (sql w) = None -> db (sql w) = d -> next_message (sql w) = N ->
  se_userId se = uid ->
  let '(response, se', w') := answer unix requestId remote after 50 se w in
  let lo := first_place after in
  let next := Z.min last_place (lo + 50) in
  saved (sql w') = None /\ db (sql w') = d /\ next_message (sql w') = N /\ se_userId se' = uid /\
  (some_fault (tick (sql w)) (tick (sql w')) /\ has_int F_error response = true /\ get_int F_error response = MysqlFailed \/
   has_int F_error response = true /\ get_int F_error response = Success /\ get_int F_conversation_id response = remote /\
   has_int F_next_seq response = true /\ get_int F_next_seq response = Z.max lo next /\
   get_bool F_has_more response = bool_decide (lo + 50 < last_place) /\
   p_message_list response = sync_item <$> (Messages.record_of <$> rows_between remote lo next d)).
Proof using Hok Hremote Huid Hcv Hm Hleft.
  intros Hs Hd HN Hse. pose proof (answered_pull unix requestId remote after 50 se w) as Ha. rewrite Hse in Ha.
  destruct (answer unix requestId remote after 50 se w) as [ [response se'] w']. specialize (Ha Huid).
  change (clamp 50 1 200) with 50 in Ha.
  pose proof (sync_run uid remote (Z.max 0 after) 50 (sql w) cv m Hs Huid Hremote ltac:(lia)) as Hrun.
  rewrite Hd in Hrun. specialize (Hrun Hcv Hm). destruct (syncConversation _ _ _ _ _) as [sync s'].
  destruct Hrun as (R1 & R2 & R3 & R4). destruct Ha as (-> & Ew & ->). rewrite Ew, R1, R2, R3. cbv zeta. do 4 (split; [done|]).
  pose proof (sync_response_spec remote sync) as (F1 & F2 & F3 & F4 & F5 & F6 & F7).
  destruct R4 as [->|[-> Ht]]; [right|left; split; [exact Ht|done]].
  change (bounded_count 50) with 50 in *.
  pose proof (sync_answer_rows N remote (Z.max 0 after) 50 cv m d Hok) as Hrows.
  destruct (sync_answer_page N remote (Z.max 0 after) 50 cv m d Hok) as (P1 & _ & _ & P4 & P5);
    [lia|lia|done|apply joined|done|].
  specialize (Hrows ltac:(lia) ltac:(lia) Hcv joined Hleft). cbv zeta in Hrows. rewrite F2, F5, F6, (F7 P1), P1, P4, Hrows.
  fold (first_place after) last_place in *. do 5 (split; [done|]). split; [|done].
  apply eq_true_iff_eq. by rewrite P5, bool_decide_eq_true.
Qed.

(** A pull that [on_session_messages] asks for. *)
Lemma pulled after (a : app) : a_ready a = true ->
  let a' := (pull remote after local a).2 in
  a_sync a' = <[uuid (a_issued a) := local]> (a_sync a) /\ a_issued a' = S (a_issued a) /\ a_uid a' = a_uid a /\
  a_ready a' = true /\ a_calls a' = a_calls a ++ [Do (CallPullConversationMessages remote after 50)] /\
  forall c, messages_of c a' = messages_of c a.
Proof.
  intros Hr. unfold pull, ask, seq_bind. cbn [fst snd]. change (a_ready (put_calls _ _)) with (a_ready a). rewrite Hr. by split_and!.
Qed.

Lemma next_pull_none (a a' : app) : a_issued a' = a_issued a -> next_pull a a' = None.
Proof. intros Ei. unfold next_pull. apply decide_False. lia. Qed.

Lemma next_pull_asked after (a a1 : app) : a_issued a1 = a_issued a -> a_ready a1 = true ->
  next_pull a (pull remote after local a1).2 = Some (uuid (a_issued a), remote, after, 50).
Proof.
  intros Ei Hr. destruct (pulled after a1 Hr) as (_ & E1 & _ & _ & E2 & _). unfold next_pull.
  rewrite E2, last_snoc. by rewrite decide_True by lia.
Qed.

Lemma answered_eq requestId response (a : app) : has_int F_error response = true ->
  answered requestId response a = (on_session_messages requestId (int32 (get_int F_error response)) response a).2.
Proof. intros He. unfold answered, HandleGatewayResponse. by rewrite client_reads_server, He. Qed.

(** Nothing is read. *)
Lemma read_nothing requestId lo (a a' : app) w' : db (sql w') = d -> page_taken requestId local a a' ->
  messages_of local a' = messages_of local a -> read_to requestId lo lo a a' w'.
Proof.
  intros Hd [Es] Hmsg. split; try done.
  - rewrite rows_between_empty by lia. by rewrite Hmsg, app_nil_r.
  - intros im. rewrite rows_between_empty by lia. by intros ?%not_elem_of_nil.
  - by rewrite Es.
Qed.

(** One page is read. *)
Lemma read_page requestId lo place (a a' : app) w' : db (sql w') = d -> page_taken requestId local a a' -> lo <= place ->
  let new := synced_row uid <$> unseen (messages_of local a) (rows_between remote lo place d) in
  messages_of local a' = messages_of local a ++ new ->
  Forall (fun r => mr_outgoing r = false -> delivered_call remote r ∈ a_calls a') new -> read_to requestId lo place a a' w'.
Proof.
  intros Hd [Es] Hp new Hmsg Htold. split; try done; [|by rewrite Es].
  intros [id x] Hin Hs. rewrite Forall_forall in Htold. apply (Htold (synced_row uid (id, x))).
  - by apply list_elem_of_fmap_2.
  - simpl. by apply Z.eqb_neq.
Qed.

(** Reading goes on where it stopped. *)
Lemma read_further requestId next lo mid place (a a1 a2 a' : app) w1 w' : 0 <= lo -> mid <= place -> place <= cv_latestSeq cv ->
  read_to requestId lo mid a a1 w1 -> a_sync a1 = delete requestId (a_sync a) ->
  a_sync a2 = <[next := local]> (a_sync a1) -> a_calls a1 `prefix_of` a_calls a2 -> (forall c, messages_of c a2 = messages_of c a1) ->
  read_to next mid place a2 a' w' -> read_to requestId lo place a a' w'.
Proof using Hok Hcv.
  intros Hlo Hmid Hlast [R1 R2 R3 R4 R5 R6 R7] Hs1 Hs2 Hc Hm2 [T1 T2 T3 T4 T5 T6 T7].
  rewrite Hm2, R3 in T3, T4.
  assert (unseen (messages_of local a ++ (synced_row uid <$> unseen (messages_of local a) (rows_between remote lo mid d)))
            (rows_between remote mid place d) = unseen (messages_of local a) (rows_between remote mid place d)) as Hl.
  { apply unseen_later. intros id m1 m2 I1%rows_between_member I2%rows_between_member. simpl in *.
    destruct I1 as (E1 & _ & B1), I2 as (E2 & _ & B2). rewrite E1 in E2. injection E2 as <-. unfold seq_of in *. simpl in *. lia. }
  rewrite Hl in T3, T4.
  assert (unseen (messages_of local a) (rows_between remote lo place d) =
    unseen (messages_of local a) (rows_between remote lo mid d) ++ unseen (messages_of local a) (rows_between remote mid place d)) as Hu
    by (by rewrite (rows_between_split N d remote cv lo mid place), unseen_app by (done || lia)).
  split; [done|lia| | | | |].
  - by rewrite T3, Hu, fmap_app, app_assoc.
  - intros im. rewrite Hu, elem_of_app. intros [Him|Him] Hne; [|by apply T4].
    eapply elem_of_prefix; [by apply (R4 im)|]. by etrans.
  - etrans; [exact R5|]. by etrans.
  - intros c Hne. by rewrite T6, Hm2, R6.
  - rewrite Hs2, Hs1 in T7. etrans; [exact T7|]. rewrite delete_insert_eq. apply delete_subseteq.
Qed.

Lemma read_on_spec n : forall unix requestId after a se w, can_read requestId a se w ->
  Z.max 0 (last_place - first_place after) < Z.of_nat n ->
  let '(a', w', ended) := read_on n unix (requestId, remote, after, 50) a se w in
  ended = true /\ exists place, read_to requestId (first_place after) place a a' w' /\
    place <= Z.max (first_place after) last_place /\ (place = Z.max (first_place after) last_place \/ cut_short (turns n unix (requestId, remote, after, 50) a se w)).
Proof using Hok Hremote Huid Hlocal Hcv Hm Hleft W.
  induction n as [|n IH]; intros unix requestId after a se w [(Hs & Hd & HN) (Hse & Hau) Hsync Hready] Hn; [lia|]. cbn [read_on turns].
  pose proof (answered_page (unix n) requestId after se w Hs Hd HN Hse) as Hp.
  destruct (answer _ _ _ _ _ se w) as [ [response se'] w']. destruct Hp as (Hs' & Hd' & HN' & Hse' & Hp).
  set (lo := first_place after) in *. set (mid := Z.min last_place (lo + 50)) in *.
  assert (0 <= lo) as Hlo by (unfold lo, first_place; lia). pose proof last_bound as Hlast.
  destruct Hp as [(Hf & He & Ee)|(He & Ee & Ec & Hnx & Enx & Emore & Eitems)]; rewrite (answered_eq _ _ _ He), Ee.
  { destruct (refused_page requestId local (int32 MysqlFailed) response a Hsync) as [Ht Hmsg]; [done|].
    rewrite next_pull_none by apply Ht. split; [done|]. exists lo. split; [by apply read_nothing|]. split; [lia|].
    right. eexists. split; [by left|left; exact Hf]. }
  change (int32 Success) with (ec Success).
  destruct (shown_page requestId local remote _ _ response a Hsync Hlocal Hready Ec Hnx Enx Emore)
    as [(Ht & Hmsg & Hr)|(a1 & Ht & Hmsg & Htold & ->)].
  { rewrite next_pull_none by apply Ht. split; [done|]. exists lo. split; [by apply read_nothing|]. split; [lia|].
    right. eexists. split; [by left|right]. unfold refused. cbn [tu_pull tu_app tu_response]. rewrite Hsync. cbn [default]. by rewrite Enx. }
  rewrite Eitems, additions_rows, Hau in Hmsg, Htold.
  assert (read_to requestId lo (Z.max lo mid) a a1 w') as Hread.
  { apply read_page; [done|done|lia| |]; (replace (rows_between remote lo (Z.max lo mid) d) with (rows_between remote lo mid d);
      [done|destruct (Z.max_spec lo mid) as [ [_ ->]|[? ->] ]; [done|by rewrite !rows_between_empty by lia] ]). }
  case_bool_decide as Hmore.
  2:{ rewrite next_pull_none by apply Ht. split; [done|]. exists (Z.max lo mid). split; [done|]. split; [lia|]. left. lia. }
  assert (a_ready a1 = true) as Hr1 by (by rewrite (pt_ready _ _ _ _ Ht)).
  rewrite (next_pull_asked _ a a1) by (done || apply Ht).
  destruct (pulled (Z.max lo mid) a1 Hr1) as (Q1 & Q2 & Q3 & Q4 & Q5 & Q6).
  assert (first_place (Z.max lo mid) = Z.max lo mid) as Efirst by (unfold first_place in *; lia).
  specialize (IH unix (uuid (a_issued a)) (Z.max lo mid) (pull remote (Z.max lo mid) local a1).2 se' w').
  rewrite Efirst in IH. destruct (read_on n _ _ _ _ _) as [ [a' w''] ended]. destruct IH as (-> & place & Hrest & Hle & Hend).
  - split; [done|split; [done|]| |done]; [by rewrite Q3, (pt_uid _ _ _ _ Ht)|]. rewrite Q1, (pt_issued _ _ _ _ Ht). apply lookup_insert_eq.
  - lia.
  - split; [done|]. exists place. pose proof (rt_place _ _ _ _ _ _ Hrest). split.
    + apply (read_further requestId (uuid (a_issued a1)) lo (Z.max lo mid) place a a1 (pull remote (Z.max lo mid) local a1).2 a' w' w'');
        try done; try (by apply Ht).
      * lia.
      * rewrite Q5. by apply prefix_app_r.
      * by rewrite (pt_issued _ _ _ _ Ht).
    + split; [lia|]. destruct Hend as [-> |(tu & Htu & Hbad)]; [left; lia|right]. exists tu. split; [by right|done].
Qed.
End Reading.

(** C4: an absence is caught up.  The user of the session is a member of the
    conversation, and the application has asked for it after a cursor.  Each
    pull goes out as a packet, becomes a command of the gateway and is answered
    by a message node, on any well-formed tables and under any failures; the
    application asks for the next page while there is one.  With as many answers
    as messages to read plus one this ends, with no pull left waiting; up to
    some place of the conversation every message is then shown, those the
    application did not have in their order after those it had, none twice, and
    each from somebody else is acknowledged as delivered; other conversations
    and the tables are as they were.  The place is the end of what the member
    may read, unless in one of these answers a statement of the server failed,
    or the repository was given one of these pages and did not take it. *)
Theorem absence_is_caught_up n unix requestId after local remote (a : app) se w cv m :
  let d := db (sql w) in
  let uid := a_uid a in
  saved (sql w) = None -> ledger_ok (next_message (sql w)) d ->
  conversations d !! remote = Some cv -> conversationMembers d !! (remote, uid) = Some m ->
  (forall l, cm_leftSeq m = Some l -> l <= cv_latestSeq cv) ->
  0 < remote -> 0 < uid -> se_userId se = uid ->
  a_sync a !! requestId = Some local -> local <> "" -> a_ready a = true ->
  let lo := first_place m after in
  let hi := last_place cv m in
  Z.max 0 (hi - lo) < Z.of_nat n ->
  let '(a', w', ended) := read_on n unix (requestId, remote, after, 50) a se w in
  ended = true /\ exists place,
    read_to d remote uid local requestId lo place a a' w' /\
    (forall im, im ∈ rows_between remote lo place d -> has_message im.1 (messages_of local a') = true) /\
    (place = Z.max lo hi \/ cut_short (turns n unix (requestId, remote, after, 50) a se w)).
Proof.
  intros d uid Hs Hok Hcv Hm Hleft Hremote Huid Hse Hsync Hlocal Hready lo hi Hn.
  pose proof (read_on_spec (next_message (sql w)) d remote uid local cv m Hok Hremote Huid Hlocal Hcv Hm Hleft
    n unix requestId after a se w) as Hr.
  destruct (read_on _ _ _ _ _ _) as [ [a' w'] ended]. destruct Hr as (-> & place & Hread & _ & Hend); [by split|done|].
  split; [done|]. exists place. split; [done|]. split; [|done]. intros im Him.
  rewrite (rt_messages _ _ _ _ _ _ _ _ _ _ Hread). by apply shown_rows.
Qed.
End CatchUp.

(** ** A user comes back *)

Module Return.
#[local] Existing Instances Sample.exact Sample.no_hash Sample.no_faults bits_codec Calm.env Trip.wire.
#[local] Existing Instances AppSamples.codec AppSamples.ids AppSamples.qt AppSamples.hash_order AppSamples.runs_all
  AppSamples.clock AppSamples.rows_in_order SqliteClientRepository.

(** The user 1002 signs in after 1001 has written twice. *)
Definition chat : ConversationRecord := mkConversationRecord "direct:1001" (Some "Al") None None None (Some 77) 0 false false false.
Definition reader : App.app Sqlite.repository := run_app (AppSamples.signed_in 1002) (AppSamples.start chat).
Definition login : session :=
  mkSession "c2" 1002 (mkLease "gw-a" "i1" "c2" 1) 0 0 0 0 new_outbox RReading.
Definition server : node := new_node Sent.store ∅ 2 16.
Definition caught_up : App.app Sqlite.repository * node * bool :=
  read_on 3 (fun _ => 1000) ("2", 77, 0, 50) reader login server.

(** The first pull is the one that the application asked for. *)
Lemma asked : last (a_calls reader) = Some (Do (CallPullConversationMessages 77 0 50)) /\
  a_sync reader !! "2" = Some "direct:1001".
Proof. by vm_compute. Qed.

(** Both texts are shown and acknowledged. *)
Lemma both_read : (fun m => (mr_messageId m, mr_body m)) <$> messages_of "direct:1001" caught_up.1.1 =
  [(Some 1, Some "hi"); (Some 2, Some "you")] /\
  drop (length (a_calls reader)) (a_calls caught_up.1.1) =
    [Do (CallAcknowledgeDelivered 1 77 1); Do (CallAcknowledgeDelivered 2 77 2); Do (CallAcknowledgeRead 2 77 2)].
Proof. by vm_compute. Qed.

(** Nothing went wrong in these turns. *)
Lemma nothing_wrong : ~ cut_short (turns 3 (fun _ => 1000) ("2", 77, 0, 50) reader login server).
Proof.
  assert ((fun t => (port_ApplyIncomingBatch "direct:1001" (additions 1002 (messages_of "direct:1001" (tu_app t)) (p_message_list (tu_response t)))
      (get_int F_next_seq (tu_response t)) (page_repository "2" "direct:1001" 77 (tu_app t))).1) <$>
    turns 3 (fun _ => 1000) ("2", 77, 0, 50) reader login server = [true]) as Hone by (by vm_compute).
  assert ((fun t => (tu_pull t, a_uid (tu_app t), a_sync (tu_app t) !! "2")) <$> turns 3 (fun _ => 1000) ("2", 77, 0, 50) reader login server =
    [(("2", 77, 0, 50), 1002, Some "direct:1001")]) as Hpull by (by vm_compute).
  intros (t & Ht & [(k & _ & Hk)|Hr]); [by apply Hk|]. destruct (turns _ _ _ _ _ _) as [|t0 [|]]; [done| |done].
  apply list_elem_of_singleton in Ht as ->. injection Hone as Hone. injection Hpull as Hp Hu Hs. unfold refused in Hr.
  rewrite Hp in Hr. cbv zeta in Hr. rewrite Hu, Hs in Hr. change (default "" (Some "direct:1001")) with "direct:1001" in Hr.
  exact (eq_true_false_abs _ Hone Hr).
Qed.

Lemma absence_is_caught_up_witness :
  caught_up.2 = true /\ read_to (db Sent.store) 77 1002 "direct:1001" "2" 0 2 reader caught_up.1.1 caught_up.1.2.
Proof.
  pose proof (absence_is_caught_up 3 (fun _ => 1000) "2" 0 "direct:1001" 77 reader login server
    (mkConversation 1 77 2 "t1") (mkMember 1 None 0 0)) as Ht. pose proof nothing_wrong as Hw.
  unfold caught_up. destruct (read_on _ _ _ _ _ _) as [ [a' w'] ended]. destruct Ht as (He & place & Hread & _ & Hend).
  - apply sent_ok.
  - apply sent_ok.
  - by vm_compute.
  - by vm_compute.
  - done.
  - done.
  - by vm_compute.
  - by vm_compute.
  - apply asked.
  - done.
  - by vm_compute.
  - by vm_compute.
  - split; [exact He|]. destruct Hend as [Hplace|Hcut]; [|destruct (Hw Hcut)].
    rewrite Hplace in Hread. exact Hread.
Defined.
End Return.
